(* ===== verification/_CoqProject ===== *)
-Q . S2P
Prelude.v
Errors.v
GoTime.v
Sha256.v
Json.v
JsonFacts.v
JsonText.v
Canonical.v
CanonicalFacts.v
Float64.v
TimeText.v
Execution.v
Pricing.v
AuditModel.v
AuditHash.v
Regex.v
Redaction.v
AuditService.v
Postgres.v
AuditStore.v
AuditStoreFacts.v
AuditWalk.v
AuditServiceFacts.v
AuditIngest.v
AuditRepo.v
AuditProps.v
TelemetryStore.v
TelemetryFacts.v
Ingestion.v
IngestFacts.v
Lineage.v
Query.v
QueryFacts.v
EventFacts.v
TelemetryProps.v
TelemetryReads.v
FloatFacts.v
Outbox.v
OutboxFacts.v
OutboxProps.v
Tenants.v
TenantFacts.v
TenantProps.v
Base64.v
KeyCache.v
Auth.v
AuthFacts.v
ShareLinks.v
AuthProps.v
Limits.v
LimitProps.v
AuditList.v
AuditHttp.v
AuditHttpProps.v
Collector.v
Transcript.v
Hooks.v
HashMode.v
Journal.v
Spool.v
JournalFacts.v
SpoolFacts.v
SpoolOrder.v
SpoolKeeps.v
SpoolProps.v
CopilotStore.v
Copilot.v
CopilotHttp.v
CopilotFacts.v
Retention.v
RetentionFacts.v
RetentionProps.v
CopilotProps.v
Requests.v
TelemetryHttp.v
Deployment.v
RequestFacts.v
DeliveryFacts.v
DeliveryProps.v
Otel.v
