(* ===== verification/Prelude.v ===== *)
(** * fact0: tamper-evident audit log and agent telemetry

    fact0 is a Go server (src/api) that keeps, per tenant, a hash-linked audit
    log and the execution traces of AI agents, with a plugin
    (src/claude-code-plugin) that feeds it.  This library models the logic of
    both as executable functions and proves what it promises.

    ** How the program is put together, and where it is modelled

    Paths are under src/api/internal unless they start with src/.

    - Standard library and services: GoTime.v, TimeText.v (time.Time, RFC 3339),
      Sha256.v, Base64.v (with crypto/hmac and strings), Json.v (encoding/json),
      Regex.v (regexp), Float64.v (binary64), Postgres.v (round trips, jsonb).
      JsonFacts.v and FloatFacts.v prove their printers injective.
    - Errors.v: platform/errors.
    - The audit log.  Canonical.v: canonical/json.go.  AuditModel.v:
      audit/{model,validation,hash}.go.  Redaction.v: redaction/redactor.go.
      AuditService.v: audit/service.go, against the class [Repository]
      (audit/repository.go).  AuditStore.v: storage/postgres/audit_store.go, the
      chain: AppendBatchChained, Walk, Get, Previous, ReanchorFrom.  AuditList.v: the
      filtered listing of the same file.  AuditRepo.v makes the store an
      instance of the interface and discharges its contract [RepositorySpec];
      the theorems on the service use the contract only.
    - The asynchronous queue.  Outbox.v: ingest/outbox/{store,worker,adapter}.go,
      a step relation in which clients, workers, crashes and failures interleave.
    - Telemetry.  Execution.v: execution/.  TelemetryStore.v:
      storage/postgres/{store,telemetry_write}.go.  Ingestion.v: ingestion/.
      Lineage.v: lineage/.  Query.v: query/ and replay/.  Pricing.v:
      analytics/cost.go.
    - Tenants and access.  Tenants.v: the tenant, plan and key part of
      audit_store.go.  KeyCache.v: auth/keycache.go, with the interleavings of
      several processes.  Auth.v: auth/{key,middleware,jwt,dual,sse_ticket}.go.
      ShareLinks.v: share/ and auth/share.go.  Limits.v: audit/limit.go, against the class
      [LimiterStores].
    - The HTTP surface.  AuditHttp.v: transport/rest/audit_handler.go composed
      with the middlewares, over [Site], the product of the states above.
      Requests.v: transport/rest/body.go and what encoding/json fills into the
      request structs.  TelemetryHttp.v: transport/rest/handler.go over [Backend],
      a [Site] with the telemetry tables.  Deployment.v: the routes of
      src/api/fact0/main.go that the plugin uses, from the printed request to the
      printed answer.  JsonText.v (text that is not UTF-8, what a decoder
      answers), RequestFacts.v and DeliveryFacts.v carry their lemmas.
    - OpenTelemetry.  Otel.v: otel/{translator,enricher,otlp_handler,grpc_server}.go
      over [Backend], with the properties of the receivers.
    - The dashboard assistant.  CopilotStore.v: storage/postgres/copilot_store.go
      and copilot/model.go.  Copilot.v: copilot/service.go, against the record
      [Repository].  CopilotHttp.v: transport/rest/copilot_handler.go.
    - Retention.v: retention/sweeper.go, over the telemetry, audit, tenant and
      assistant tables, with the triggers and foreign keys of
      storage/postgres/baseline/001_core.sql that its statements meet.
    - The plugin (src/claude-code-plugin/collector/).  Collector.v: config.go,
      hookinput.go, redact.go, resource.go, otel.go and the payloads of
      src/sdk/go.  Transcript.v: transcript.go, transcript_capture.go.  Hooks.v:
      mapping.go, each hook handler a program that reads and records in a
      transaction and may start an execution.  Journal.v: the write-ahead
      journal, its JSON and its budget.  HashMode.v relates what hooks with
      different content record in hash mode.  Spool.v: spool.go, state.go,
      deadletter.go and src/sdk/go/client.go, a worker over disk, server and the
      failures and captures of every system call.  JournalFacts.v, SpoolFacts.v
      (one file), SpoolOrder.v (a listing), SpoolKeeps.v (what the primitive steps keep,
      and the budget) prove its invariants.

    Files ending in Facts.v, and AuditHash.v, AuditWalk.v, AuditIngest.v, hold
    lemmas; files ending in Props.v (and TelemetryReads.v, KeyCache.v) hold the
    properties, each stated by the comment before it.

    ** Conventions

    A Go function returning (T, error) is a function into [result AppError T].  A
    table is the list of its rows in insertion order.  A store operation is a
    function on the database, one atomic step at READ COMMITTED under the lock
    it takes; the environment [Env] says which of its round trips fail, and
    an ambiguous commit (the answer is lost, the transaction is not) is one of
    the failures.  Clocks and random identifiers are arguments.  Integers of
    machine width are [Z] with [wrap64]; strings are byte strings.  The
    handlers of AuditHttp.v and CopilotHttp.v take their body decoded; Requests.v
    decodes the audit ones.

    Code outside the repository is a parameter: [Jsonb] (the jsonb type, with
    its documented behaviour as [JsonbSpec]), [collate] (text order of the
    server), [scan] (the order in which it reads rows), [lower] (Unicode case), [container_text] (jsonb under [->>]),
    [message], [errText], [decodeText] (texts of driver errors), bcrypt, and
    [ParseWithClaims] (JWT signature and key set).  SHA-256 is computed, and
    collision freedom is never assumed: where digests are compared, the theorems
    say what holds unless the very events compared collide ([collide]: their
    canonical texts differ and have one digest).

    Recursion that Go leaves open runs on fuel with a proof that a stated
    amount is enough: Walk on the number of rows plus one, the causality walk
    on the number of spans, a batch loop of the sweeper on the number of rows
    left to sweep, the listing matcher and the regex matcher on the
    length of the text, JSON decoding on the length of the input.

    ** What is proved

    - Chain integrity (AuditProps): appends keep every chain linked and extend
      it exactly by the new events, once per id however often a batch is
      retried; Verify and its windows are characterised exactly and end; equal
      verified roots bind equal histories; canonical text and digest identify
      the value and the event; the walk pages cover the window; re-anchoring
      is always refused by the triggers; the store meets the service's contract;
      redaction replaces the secrets and nothing else, and keeps the shape of
      JSON values.
    - Telemetry (TelemetryProps, TelemetryReads): the span graph stays closed
      and acyclic, the log append-only; reads are isolated by tenant; the DAG is
      topological, the causality walk ends, a replay is faithful; retries of
      events.
    - OTLP (Otel): the translation loses no span; the receivers store none, the
      spans of a trace going to an execution that does not exist; which spans
      validation would take; gRPC and HTTP authenticate alike.
    - The queue (OutboxProps): receipts keep their promises under any
      interleaving, nothing is lost, a healthy worker delivers, failures
      are counted.
    - Access (TenantProps, KeyCache, AuthProps): provisioning of live tenants is
      idempotent (a deleted one comes back deleted), revocation permanent and
      effective after the cache's TTL, at once under stated conditions; what an API key,
      a dashboard session, a stream ticket and a share link open; the
      monthly cap is a bound (LimitProps).
    - End to end (AuditHttpProps): a posted event lands on the chain of the
      write key's tenant or is refused without effect; a listing is exact.
    - The assistant and retention (CopilotProps, RetentionProps): transcripts are
      private; a retention pass ends and enforces the transcript windows, but,
      against its own description, never deletes an event or tombstones an audit
      row: the shipped triggers refuse it.
    - The plugin's queue (SpoolProps): no captured hook is lost, each is
      delivered with the requests its journal fixed and removed only after
      everything was accepted; a session's hooks go in order; the budget holds; the
      journal round trip; hash mode lets out digests and lengths (HashMode).
    - Plugin and server together (DeliveryProps): the worker over [serve] of
      Deployment.v.  A hook that left the queue is stored: audit events on the
      chain, spans in the execution, ended executions ended.

    ** Assumptions on the deployment

    Reads and writes use one database (readDB = writeDB).  Sessions run in UTC.  All processes read one
    clock where a theorem compares their times.  The shipped triggers that reject
    updates of audit rows and deletions of events are part of the model (ReanchorFrom,
    the sweeper).
    pgx truncates times to microseconds ([pg_ts]), which the stores apply.

    ** Not modelled

    The SSE stream, PDF, CSV and evidence exports (streams and renderers); the JWKS
    fetch; delivery of mails and webhooks (they are recorded as effects); logs
    and metrics; configuration and migrations.  The dashboard, admin, analytics,
    billing and Claude Code views: they decode requests, call outside
    services or aggregate tables whose writers are modelled here.
    Of the plugin: the dead-letter directory of earlier versions, which only tests
    reach, the printing commands, git and the start of the worker process.
*)
From Stdlib Require Export ssreflect ZArith Lia.
From stdpp Require Export base option list sorting gmap strings pretty.

#[global] Open Scope general_if_scope.
#[global] Set SsrOldRewriteGoalsOrder.
#[export] Set Warnings "-clear-no-such-hyp,-register-all".

Declare Scope fact0_scope.
Delimit Scope fact0_scope with fact0.

(** * Results: Go's (value, error) pairs *)

(** A Go function returning [(T, error)] is a function into [result E T]. *)
Inductive result (E A : Type) : Type :=
| Ok (a : A)
| Err (e : E).
Arguments Ok {E A} a.
Arguments Err {E A} e.

Global Instance result_ret {E} : MRet (result E) := fun _ a => Ok a.
Global Instance result_bind {E} : MBind (result E) := fun _ _ f r =>
  match r with Ok a => f a | Err e => Err e end.
Global Instance result_fmap {E} : FMap (result E) := fun _ _ f r =>
  match r with Ok a => Ok (f a) | Err e => Err e end.

Definition is_ok {E A} (r : result E A) : bool :=
  match r with Ok _ => true | Err _ => false end.

Global Instance result_eq_dec {E A} `{EqDecision E, EqDecision A} : EqDecision (result E A).
Proof. solve_decision. Defined.

Lemma result_bind_ok {E A B} (r : result E A) (f : A -> result E B) b :
  r ≫= f = Ok b <-> exists a, r = Ok a /\ f a = Ok b.
Proof. destruct r; simpl; [split; [eauto|by intros (?&[= <-]&?)]|split; [done|by intros (?&?&?)]]. Qed.

Lemma result_bind_err {E A B} (r : result E A) (f : A -> result E B) e :
  r ≫= f = Err e <-> r = Err e \/ exists a, r = Ok a /\ f a = Err e.
Proof.
  destruct r as [a|e']; simpl; split.
  - intros H. right. by exists a.
  - by intros [?|(?&[= <-]&?)].
  - intros [= ->]. by left.
  - by intros [[= ->]|(?&?&?)].
Qed.

(** Guards of the form [if c { return nil, err }]. *)
Notation "'guard_err' c 'with_err' e ;; k" :=
  (if c then Err e else k) (at level 20, c at level 200, e at level 200, k at level 200, right associativity)
  : fact0_scope.

(** * Strings: Go strings are byte sequences *)

Lemma str_cons_app x (a b : string) : String x a +:+ b = String x (a +:+ b).
Proof. done. Qed.
Lemma str_app_nil_l (a : string) : "" +:+ a = a.
Proof. done. Qed.
Lemma str_app_nil_r (a : string) : a +:+ "" = a.
Proof. induction a as [|x a IH]; [done|]. by rw str_cons_app IH. Qed.
Lemma str_app_assoc (a b c : string) : (a +:+ b) +:+ c = a +:+ (b +:+ c).
Proof. induction a as [|x a IH]; [done|]. by rw !str_cons_app IH. Qed.
Lemma str_length_app (a b : string) : String.length (a +:+ b) = String.length a + String.length b.
Proof. induction a as [|x a IH]; [done|]. rw str_cons_app. cbn. by rw IH. Qed.
Lemma str_app_inj_l (a b c : string) : a +:+ b = a +:+ c -> b = c.
Proof. induction a as [|x a IH]; [done|]. rw !str_cons_app. intros [= H]. auto. Qed.
Lemma str_app_inj_r (a b c : string) : a +:+ c = b +:+ c -> a = b.
Proof.
  revert b. induction a as [|x a IH]; intros [|y b]; rw ?str_cons_app; try done;
    intros H; pose proof (f_equal String.length H) as Hl; cbn in Hl;
    rw ?str_length_app in Hl; cbn in Hl; rw ?str_length_app in Hl; try lia.
  injection H as -> H. f_equal. auto.
Qed.

(** [strings.HasPrefix]; stdlib's [String.prefix] is the same test. *)
Definition has_prefix (p s : string) : bool := String.prefix p s.

Lemma has_prefix_spec p s : has_prefix p s = true <-> exists t, s = p +:+ t.
Proof.
  unfold has_prefix. revert s. induction p as [|c p IH]; intros s; cbn [String.prefix].
  - split; [intros _; by exists s|by destruct s].
  - destruct s as [|d s]; [split; [done|by intros [t Ht]]|].
    cbn [String.prefix]. destruct (Ascii.ascii_dec c d) as [->|Hc].
    + destruct (IH s) as [I1 I2]. split.
      * intros [t ->]%I1. by exists t.
      * intros [t Ht]. rw str_cons_app in Ht. injection Ht as ->. apply I2. by exists t.
    + split; [done|]. intros [t Ht]. rw str_cons_app in Ht. by injection Ht as ->.
Qed.

Fixpoint str_all (P : Ascii.ascii -> bool) (s : string) : bool :=
  match s with EmptyString => true | String c s => P c && str_all P s end.

Lemma str_all_app P (a b : string) : str_all P (a +:+ b) = str_all P a && str_all P b.
Proof. induction a as [|x a IH]; [done|]. rw str_cons_app. cbn. by rw IH andb_assoc. Qed.
Lemma str_all_impl (P Q : Ascii.ascii -> bool) s :
  (forall c, P c = true -> Q c = true) -> str_all P s = true -> str_all Q s = true.
Proof.
  intros H. induction s as [|c s IH]; cbn; [done|]. intros [Hc Hs]%andb_prop.
  by rw (H c Hc) (IH Hs).
Qed.

(** Bytes as integers 0..255. *)
Definition byte_val (c : Ascii.ascii) : Z := Z.of_N (Ascii.N_of_ascii c).
Definition byte_chr (z : Z) : Ascii.ascii := Ascii.ascii_of_N (Z.to_N z).

Fixpoint str_bytes (s : string) : list Z :=
  match s with EmptyString => [] | String c s => byte_val c :: str_bytes s end.
Fixpoint bytes_str (l : list Z) : string :=
  match l with [] => EmptyString | z :: l => String (byte_chr z) (bytes_str l) end.

Lemma byte_chr_val c : byte_chr (byte_val c) = c.
Proof. unfold byte_chr, byte_val. rw N2Z.id. apply Ascii.ascii_N_embedding. Qed.
Lemma byte_val_range c : (0 <= byte_val c < 256)%Z.
Proof.
  unfold byte_val. assert (Ascii.N_of_ascii c < 256)%N; [apply Ascii.N_ascii_bounded|lia].
Qed.
Lemma byte_val_chr z : (0 <= z < 256)%Z -> byte_val (byte_chr z) = z.
Proof.
  intros Hz. unfold byte_chr, byte_val. rw Ascii.N_ascii_embedding; lia.
Qed.
Lemma byte_val_inj c d : byte_val c = byte_val d -> c = d.
Proof. intros H. rw -(byte_chr_val c) -(byte_chr_val d). by rw H. Qed.
Lemma bytes_str_bytes s : bytes_str (str_bytes s) = s.
Proof. induction s as [|c s IH]; cbn; [done|]. by rw byte_chr_val IH. Qed.
Lemma str_bytes_inj s t : str_bytes s = str_bytes t -> s = t.
Proof. intros H. rw -(bytes_str_bytes s) -(bytes_str_bytes t). by rw H. Qed.
Lemma str_bytes_app a b : str_bytes (a +:+ b) = str_bytes a ++ str_bytes b.
Proof. induction a as [|c a IH]; [done|]. rw str_cons_app. cbn. by rw IH. Qed.
Lemma str_bytes_length s : length (str_bytes s) = String.length s.
Proof. induction s; cbn; auto. Qed.

(** * Machine integers *)

(** Go's [int64] arithmetic wraps; [wrap64] is the signed residue mod 2^64. *)
Definition int64_min : Z := - 2 ^ 63.
Definition int64_max : Z := 2 ^ 63 - 1.
Definition wrap64 (z : Z) : Z := (z + 2 ^ 63) mod 2 ^ 64 - 2 ^ 63.

Lemma wrap64_range z : (int64_min <= wrap64 z <= int64_max)%Z.
Proof.
  unfold wrap64, int64_min, int64_max.
  pose proof (Z.mod_pos_bound (z + 2 ^ 63) (2 ^ 64) ltac:(lia)). lia.
Qed.
Lemma wrap64_id z : (int64_min <= z <= int64_max)%Z -> wrap64 z = z.
Proof.
  unfold wrap64, int64_min, int64_max. intros Hz. rw Z.mod_small; lia.
Qed.

(** * Ordering rows: SQL's [ORDER BY key ASC] *)

Section OrderBy.
Context {A : Type} (key : A -> Z).

Definition key_le (a b : A) : Prop := (key a <= key b)%Z.
Global Instance key_le_dec a b : Decision (key_le a b) := decide (key a <= key b)%Z.
Global Instance key_le_trans : Transitive key_le.
Proof. unfold key_le. intros ???. lia. Qed.
Global Instance key_le_total : Total key_le.
Proof. unfold key_le. intros ??. lia. Qed.

Definition order_by (l : list A) : list A := merge_sort key_le l.

Lemma order_by_perm l : order_by l ≡ₚ l.
Proof. apply merge_sort_Permutation. Qed.

Lemma elem_of_order_by x l : x ∈ order_by l <-> x ∈ l.
Proof. by rw order_by_perm. Qed.

Lemma order_by_sorted l : StronglySorted key_le (order_by l).
Proof. apply StronglySorted_merge_sort; apply _. Qed.

Definition key_lt (a b : A) : Prop := (key a < key b)%Z.

Lemma sorted_lt_le l : StronglySorted key_lt l -> StronglySorted key_le l.
Proof.
  induction 1 as [|x l Hl IH Hx]; constructor; [done|].
  eapply Forall_impl; [exact Hx|]. unfold key_lt, key_le. intros; lia.
Qed.

Lemma sorted_lt_inj l x y :
  StronglySorted key_lt l -> x ∈ l -> y ∈ l -> key x = key y -> x = y.
Proof.
  induction 1 as [|z l Hl IH Hz]; [by intros ?%not_elem_of_nil|].
  rw Forall_forall in Hz. unfold key_lt in Hz.
  intros [->|Hx]%elem_of_cons [->|Hy]%elem_of_cons Hk; auto.
  - specialize (Hz _ Hy). lia.
  - specialize (Hz _ Hx). lia.
Qed.

(** A list strictly increasing in its key is the only ordering of its rows. *)
Lemma order_by_unique l l' :
  l ≡ₚ l' -> StronglySorted key_lt l' -> order_by l = l'.
Proof.
  intros Hp Hs. apply StronglySorted_unique_strong with key_le.
  - intros x y Hx Hy Hxy Hyx. unfold key_le in *.
    eapply sorted_lt_inj; eauto; [|lia].
    by rw elem_of_order_by Hp in Hx.
  - apply order_by_sorted.
  - by apply sorted_lt_le.
  - by rw order_by_perm.
Qed.

Lemma order_by_id l : StronglySorted key_lt l -> order_by l = l.
Proof. by apply order_by_unique. Qed.
End OrderBy.

Lemma StronglySorted_filter {A} (R : relation A) (P : A -> Prop) `{!forall x, Decision (P x)} l :
  StronglySorted R l -> StronglySorted R (filter P l).
Proof.
  induction 1 as [|x l Hl IH Hx]; [constructor|].
  rw filter_cons. case_decide; [|done]. constructor; [done|].
  apply Forall_forall. intros y Hy. apply list_elem_of_filter in Hy as [_ Hy].
  rw Forall_forall in Hx. auto.
Qed.

(** * Lists *)

(** The element just before the first one that satisfies [P]. *)
Fixpoint last_before {A} (P : A -> bool) (prev : option A) (l : list A) : option A :=
  match l with
  | [] => prev
  | x :: l => if P x then prev else last_before P (Some x) l
  end.

Lemma existsb_false_elem {A} (f : A -> bool) l x : existsb f l = false -> x ∈ l -> f x = false.
Proof.
  intros He Hx. destruct (f x) eqn:Hf; [|done]. assert (existsb f l = true); [|congruence].
  apply existsb_exists. exists x. by rw -list_elem_of_In.
Qed.

(** Rows told apart by a key. *)
Lemma NoDup_map_elem {A B} (f : A -> B) l x y : NoDup (map f l) -> x ∈ l -> y ∈ l -> f x = f y -> x = y.
Proof.
  induction l as [|z l IH]; cbn; [by intros _ ?%not_elem_of_nil|]. intros [Hz Hl]%NoDup_cons.
  intros [->|Hx]%elem_of_cons [->|Hy]%elem_of_cons Hf; auto; exfalso; apply Hz.
  - rw Hf. by apply list_elem_of_fmap_2.
  - rw -Hf. by apply list_elem_of_fmap_2.
Qed.

Lemma NoDup_map_filter {A B} (f : A -> B) (P : A -> Prop) `{!forall x, Decision (P x)} l :
  NoDup (map f l) -> NoDup (map f (filter P l)).
Proof.
  induction l as [|x l IH]; [done|]. cbn [map]. intros [Hx Hl]%NoDup_cons. rw filter_cons.
  case_decide; [|auto]. cbn [map]. apply NoDup_cons. split; [|auto]. intros (y & Hy & Hin)%list_elem_of_fmap.
  apply Hx. rw Hy. apply list_elem_of_filter in Hin as [_ Hin]. by apply list_elem_of_fmap_2.
Qed.

Lemma filter_key {A B} (f : A -> B) (P : A -> Prop) `{!forall x, Decision (P x)} l x :
  NoDup (map f l) -> x ∈ l -> P x -> (forall y, P y -> f y = f x) -> filter P l = [x].
Proof.
  intros Hn Hx Px HP. induction l as [|z l IH]; [by apply not_elem_of_nil in Hx|].
  cbn in Hn. apply NoDup_cons in Hn as [Hz Hl]. rw filter_cons. apply elem_of_cons in Hx as [->|Hx].
  - destruct (decide (P z)); [|done]. f_equal. destruct (filter P l) as [|y m] eqn:E; [done|]. exfalso.
    assert (y ∈ filter P l) as [Py Hy]%list_elem_of_filter by (rw E; left).
    apply Hz. rw -(HP _ Py). by apply list_elem_of_fmap_2.
  - destruct (decide (P z)) as [Pz|_]; [|auto]. exfalso. apply Hz. rw (HP _ Pz). by apply list_elem_of_fmap_2.
Qed.

(** * Automation *)

Create HintDb fact0.
Create Rewrite HintDb fact0_str.
#[export] Hint Resolve wrap64_range byte_val_range order_by_sorted : fact0.
#[export] Hint Rewrite str_app_assoc str_app_nil_r : fact0_str.

(** Case analysis on the innermost match or conditional of a hypothesis or the goal. *)
Ltac break_match :=
  match goal with
  | H : context [match ?x with _ => _ end] |- _ =>
      lazymatch x with context [match _ with _ => _ end] => fail | _ => destruct x eqn:? end
  | |- context [match ?x with _ => _ end] =>
      lazymatch x with context [match _ with _ => _ end] => fail | _ => destruct x eqn:? end
  end.
Ltac break_matches := repeat (break_match; simplify_eq/=).
(** Linear arithmetic with division and remainder by constants. *)
Ltac dlia := Z.to_euclidean_division_equations; lia.
