(* ===== verification/Errors.v ===== *)
(** Domain errors: api/internal/platform/errors/errors.go.

    [AppError] keeps the arguments of the constructor that built the error
    instead of the formatted [Message] string; [error_code] and [HTTPStatus]
    read them the way the Go methods read [Error.Code].  The wrapped cause of
    an internal error, which only reaches the logs, is dropped. *)
From S2P Require Import Prelude.

Inductive Code : Type :=
| CodeNotFound | CodeAlreadyExists | CodeInvalidInput | CodeInternal
| CodeValidation | CodeConflict | CodePayloadTooLarge | CodeRateLimited.

Global Instance Code_eq_dec : EqDecision Code.
Proof. solve_decision. Defined.

(** The wire spelling of a code. *)
Definition code_string (c : Code) : string :=
  match c with
  | CodeNotFound => "NOT_FOUND"
  | CodeAlreadyExists => "ALREADY_EXISTS"
  | CodeInvalidInput => "INVALID_INPUT"
  | CodeInternal => "INTERNAL"
  | CodeValidation => "VALIDATION_ERROR"
  | CodeConflict => "CONFLICT"
  | CodePayloadTooLarge => "PAYLOAD_TOO_LARGE"
  | CodeRateLimited => "MONTHLY_LIMIT_EXCEEDED"
  end.

Inductive AppError : Type :=
| NotFound (entity id : string)
| AlreadyExists (entity id : string)
| InvalidInput (msg : string)
| Validation (field reason : string)
| Internal (msg : string)
| MonthlyLimitExceeded (limit used : Z).

Global Instance AppError_eq_dec : EqDecision AppError.
Proof. solve_decision. Defined.

(** The [Code] each constructor stores. *)
Definition error_code (e : AppError) : Code :=
  match e with
  | NotFound _ _ => CodeNotFound
  | AlreadyExists _ _ => CodeAlreadyExists
  | InvalidInput _ => CodeInvalidInput
  | Validation _ _ => CodeValidation
  | Internal _ => CodeInternal
  | MonthlyLimitExceeded _ _ => CodeRateLimited
  end.

Definition HTTPStatus (c : Code) : Z :=
  match c with
  | CodeNotFound => 404
  | CodeAlreadyExists | CodeConflict => 409
  | CodeInvalidInput | CodeValidation => 400
  | CodePayloadTooLarge => 413
  | CodeRateLimited => 429
  | CodeInternal => 500
  end.

Abbreviation res := (result AppError).
