(* ===== verification/GoTime.v ===== *)
(** Go's [time.Time] and [time.Duration], as far as the repository uses them.

    An instant is the number of nanoseconds since the Unix epoch, unbounded;
    the location is not kept because every caller normalises with [UTC()].
    Durations are 64-bit nanosecond counts: [Sub] saturates as Go's does. *)
From S2P Require Import Prelude.
Local Open Scope Z_scope.

Abbreviation Time := Z.
Abbreviation Duration := Z.

Module GoTime.
Definition Nanosecond : Duration := 1.
Definition Microsecond : Duration := 1000.
Definition Millisecond : Duration := 1000000.
Definition Second : Duration := 1000000000.
Definition Minute : Duration := 60 * Second.
Definition Hour : Duration := 60 * Minute.
Definition Day : Duration := 24 * Hour.

(** The zero [time.Time]: 0001-01-01T00:00:00Z. *)
Definition zeroTime : Time := -62135596800 * Second.
Definition IsZero (t : Time) : bool := t =? zeroTime.
Definition Before (t u : Time) : bool := t <? u.
Definition After (t u : Time) : bool := u <? t.
Definition Equal (t u : Time) : bool := t =? u.

(** [t.Truncate(d)] rounds down to a multiple of [d] counted from the zero
    time; for the durations used here the zero time is itself a multiple of
    [d] from the epoch. *)
Definition Truncate (d : Duration) (t : Time) : Time := t - (t - zeroTime) mod d.

Definition saturate (d : Z) : Duration := Z.max int64_min (Z.min int64_max d).
Definition Sub (t u : Time) : Duration := saturate (t - u).
(** Integer division of Go truncates towards zero. *)
Definition Milliseconds (d : Duration) : Z := Z.quot d Millisecond.

(** The proleptic Gregorian date of a day number counted from 1970-01-01. *)
Definition civil_from_days (n : Z) : Z * Z * Z :=
  let z := n + 719468 in
  let era := z / 146097 in
  let doe := z mod 146097 in
  let yoe := (doe - doe / 1460 + doe / 36524 - doe / 146096) / 365 in
  let doy := doe - (365 * yoe + yoe / 4 - yoe / 100) in
  let mp := (5 * doy + 2) / 153 in
  let d := doy - (153 * mp + 2) / 5 + 1 in
  let m := if mp <? 10 then mp + 3 else mp - 9 in
  (yoe + era * 400 + (if m <=? 2 then 1 else 0), m, d).

Definition days_from_civil (ymd : Z * Z * Z) : Z :=
  let '(y0, m, d) := ymd in
  let y := y0 - (if m <=? 2 then 1 else 0) in
  let doy := (153 * (if 2 <? m then m - 3 else m + 9) + 2) / 5 + d - 1 in
  let yoe := y mod 400 in
  (y / 400) * 146097 + (yoe * 365 + yoe / 4 - yoe / 100 + doy) - 719468.

(** [time.appendInt] for a non-negative value: at least [w] decimal digits. *)
Fixpoint digits (w : nat) (z : Z) : string :=
  match w with
  | O => ""
  | S k => digits k (z / 10) +:+ String (byte_chr (48 + z mod 10)) ""
  end.
Definition appendInt (w : nat) (z : Z) : string :=
  if z <? 10 ^ Z.of_nat w then digits w z else pretty z.

(** Format("2006-01-02T15:04:05.000000Z") of a UTC instant. *)
Definition formatMicro (t : Time) : string :=
  let secs := t / Second in
  let micros := (t mod Second) / Microsecond in
  let sod := secs mod 86400 in
  let '(y, m, d) := civil_from_days (secs / 86400) in
  appendInt 4 y +:+ "-" +:+ appendInt 2 m +:+ "-" +:+ appendInt 2 d +:+ "T"
  +:+ appendInt 2 (sod / 3600) +:+ ":" +:+ appendInt 2 (sod / 60 mod 60) +:+ ":"
  +:+ appendInt 2 (sod mod 60) +:+ "." +:+ appendInt 6 micros +:+ "Z".
End GoTime.
Import GoTime.

(** * Truncation *)

Lemma Truncate_micro t : Truncate Microsecond t = t - t mod 1000.
Proof.
  unfold Truncate, Microsecond. f_equal. unfold zeroTime, Second.
  rw Zminus_mod. rw Z.sub_0_r. apply Z.mod_mod. lia.
Qed.

Lemma Truncate_micro_mult t : Truncate Microsecond t = (t / 1000) * 1000.
Proof. rw Truncate_micro. pose proof (Z.div_mod t 1000). lia. Qed.

Lemma Truncate_micro_idem t :
  Truncate Microsecond (Truncate Microsecond t) = Truncate Microsecond t.
Proof. rw !Truncate_micro_mult. by rw Z.div_mul. Qed.

Lemma Truncate_micro_bounds t : Truncate Microsecond t <= t < Truncate Microsecond t + 1000.
Proof. rw Truncate_micro. pose proof (Z.mod_pos_bound t 1000). lia. Qed.

Lemma Truncate_micro_mono t u : t <= u -> Truncate Microsecond t <= Truncate Microsecond u.
Proof.
  intros H. rw !Truncate_micro_mult. pose proof (Z.div_le_mono t u 1000). lia.
Qed.

(** * Calendar dates *)

Lemma yoe_range doe :
  0 <= doe < 146097 -> 0 <= (doe - doe / 1460 + doe / 36524 - doe / 146096) / 365 < 400.
Proof. intros H. dlia. Qed.

Lemma doy_range doe yoe :
  0 <= doe < 146097 -> yoe = (doe - doe / 1460 + doe / 36524 - doe / 146096) / 365 ->
  0 <= doe - (365 * yoe + yoe / 4 - yoe / 100) <= 366.
Proof. intros H ->. dlia. Qed.

Lemma days_civil_roundtrip n : days_from_civil (civil_from_days n) = n.
Proof.
  unfold days_from_civil, civil_from_days.
  set (z := n + 719468). set (era := z / 146097). set (doe := z mod 146097).
  set (yoe := (doe - doe / 1460 + doe / 36524 - doe / 146096) / 365).
  set (doy := doe - (365 * yoe + yoe / 4 - yoe / 100)).
  set (mp := (5 * doy + 2) / 153).
  assert (Hdoe : 0 <= doe < 146097) by (apply Z.mod_pos_bound; lia).
  pose proof (yoe_range doe Hdoe) as Hyoe. fold yoe in Hyoe.
  pose proof (doy_range doe yoe Hdoe eq_refl) as Hdoy. fold doy in Hdoy.
  assert (Hmp : 0 <= mp < 12) by (subst mp; clear -Hdoy; dlia).
  assert (Hz : z = 146097 * era + doe) by (apply Z.div_mod; lia).
  assert (Hn : n = z - 719468) by lia.
  assert (Hy : forall b, yoe + era * 400 + b - b = yoe + era * 400) by (intros; lia).
  assert (Hdiv : (yoe + era * 400) / 400 = era) by (clear -Hyoe; dlia).
  assert (Hmod : (yoe + era * 400) mod 400 = yoe) by (clear -Hyoe; dlia).
  rw Hy Hdiv Hmod.
  replace (if 2 <? (if mp <? 10 then mp + 3 else mp - 9)
           then (if mp <? 10 then mp + 3 else mp - 9) - 3
           else (if mp <? 10 then mp + 3 else mp - 9) + 9) with mp; [lia|].
  destruct (Z.ltb_spec mp 10); [destruct (Z.ltb_spec 2 (mp + 3))|destruct (Z.ltb_spec 2 (mp - 9))]; lia.
Qed.

Lemma civil_inj n n' : civil_from_days n = civil_from_days n' -> n = n'.
Proof. intros H. rw -(days_civil_roundtrip n) -(days_civil_roundtrip n'). by rw H. Qed.

(** Days of the supported audit range, 1970-01-01 to 9999-12-31. *)
Lemma civil_range n y m d :
  0 <= n <= 2932896 -> civil_from_days n = (y, m, d) ->
  0 <= y < 10000 /\ 1 <= m <= 12 /\ 1 <= d <= 31.
Proof.
  unfold civil_from_days.
  set (z := n + 719468). set (era := z / 146097). set (doe := z mod 146097).
  set (yoe := (doe - doe / 1460 + doe / 36524 - doe / 146096) / 365).
  set (doy := doe - (365 * yoe + yoe / 4 - yoe / 100)).
  set (mp := (5 * doy + 2) / 153).
  assert (Hdoe : 0 <= doe < 146097) by (apply Z.mod_pos_bound; lia).
  pose proof (yoe_range doe Hdoe) as Hyoe. fold yoe in Hyoe.
  pose proof (doy_range doe yoe Hdoe eq_refl) as Hdoy. fold doy in Hdoy.
  assert (Hmp : 0 <= mp < 12) by (subst mp; clear -Hdoy; dlia).
  assert (Hd : 1 <= doy - (153 * mp + 2) / 5 + 1 <= 31) by (subst mp; clear -Hdoy; dlia).
  intros Hn [= <- <- <-]. split; [|split; [case_match; lia|exact Hd]].
  assert (Hera : 4 <= era <= 24) by (subst era z; clear -Hn; dlia).
  assert (Hz : z = 146097 * era + doe) by (apply Z.div_mod; lia).
  split; [repeat case_match; lia|].
  destruct (Z.ltb_spec mp 10) as [Hlt|Hge].
  { destruct (Z.leb_spec (mp + 3) 2); lia. }
  assert (10 <= mp) by lia.
  assert (era < 24 \/ yoe < 399); [|case_match; lia].
  destruct (decide (era = 24)) as [He|]; [|lia]. right.
  assert (doe <= 146036) by lia.
  assert (306 <= doy) by (subst mp; clear -H Hdoy; dlia).
  subst doy. clearbody yoe. clear -Hdoe Hyoe H0 H1. dlia.
Qed.

(** * Fixed-width decimal fields *)

Lemma digits_length w z : String.length (digits w z) = w.
Proof.
  revert z. induction w as [|w IH]; intros z; cbn; [done|]. rw str_length_app IH. cbn. lia.
Qed.

Lemma str_app_inj_length (a b c d : string) :
  String.length a = String.length b -> a +:+ c = b +:+ d -> a = b /\ c = d.
Proof.
  revert b. induction a as [|x a IH]; intros [|y b]; rw ?str_cons_app; try done.
  intros [= Hl] [= -> H]. by destruct (IH b Hl H) as [-> ->].
Qed.

Lemma digits_inj w z z' :
  0 <= z < 10 ^ Z.of_nat w -> 0 <= z' < 10 ^ Z.of_nat w -> digits w z = digits w z' -> z = z'.
Proof.
  revert z z'. induction w as [|w IH]; intros z z'; [cbn; lia|].
  rw Nat2Z.inj_succ Z.pow_succ_r; [|lia]. intros Hz Hz'. cbn. intros H.
  apply str_app_inj_length in H as [H1 [= H2]]; [|by rw !digits_length].
  apply IH in H1; [|split; [apply Z.div_pos|apply Z.div_lt_upper_bound]; lia..].
  apply (f_equal byte_val) in H2. pose proof (Z.mod_pos_bound z 10 ltac:(lia)).
  pose proof (Z.mod_pos_bound z' 10 ltac:(lia)). rw !byte_val_chr in H2; [|lia..].
  pose proof (Z.div_mod z 10). pose proof (Z.div_mod z' 10). lia.
Qed.

Lemma appendInt_fixed w z : 0 <= z < 10 ^ Z.of_nat w -> appendInt w z = digits w z.
Proof. intros H. unfold appendInt. destruct (Z.ltb_spec z (10 ^ Z.of_nat w)); [done|lia]. Qed.

(** Splits an equality of two strings that start with fields of the same width. *)
Ltac split_field H :=
  apply str_app_inj_length in H as [?F H]; [|by rw !digits_length].

(** The last instant of the supported history, 9999-12-31T23:59:59.999999999Z. *)
Definition farFuture : Time := 253402300800 * Second - 1.

(** In the supported range the printed timestamp determines the microsecond. *)
Lemma formatMicro_inj t u :
  0 <= t <= farFuture -> 0 <= u <= farFuture ->
  formatMicro t = formatMicro u -> t / 1000 = u / 1000.
Proof.
  unfold farFuture, formatMicro, Second, Microsecond. intros Ht Hu.
  destruct (civil_from_days (t / 1000000000 / 86400)) as [[y m] d] eqn:Et.
  destruct (civil_from_days (u / 1000000000 / 86400)) as [[y' m'] d'] eqn:Eu.
  apply civil_range in Et as HRt; [|clear -Ht; dlia].
  apply civil_range in Eu as HRu; [|clear -Hu; dlia].
  destruct HRt as (?&?&?), HRu as (?&?&?).
  set (s := t / 1000000000) in *. set (s' := u / 1000000000) in *.
  assert (0 <= s mod 86400 / 3600 < 100 /\ 0 <= s' mod 86400 / 3600 < 100) by (clear; dlia).
  assert (0 <= s mod 86400 / 60 mod 60 < 100 /\ 0 <= s' mod 86400 / 60 mod 60 < 100) by (clear; dlia).
  assert (0 <= s mod 86400 mod 60 < 100 /\ 0 <= s' mod 86400 mod 60 < 100) by (clear; dlia).
  assert (0 <= t mod 1000000000 / 1000 < 1000000 /\ 0 <= u mod 1000000000 / 1000 < 1000000) by (clear; dlia).
  rw !appendInt_fixed; [|cbn; lia..]. intros H'.
  do 7 (split_field H'; try apply str_app_inj_l in H').
  repeat match goal with F : digits _ _ = digits _ _ |- _ => apply digits_inj in F; [|cbn; lia..] end.
  assert (Hday : s / 86400 = s' / 86400) by (apply civil_inj; congruence).
  assert (Hsec : s mod 86400 = s' mod 86400) by (clear -F2 F3 F4; dlia).
  assert (Hs : s = s') by (clear -Hday Hsec; dlia).
  subst s s'. clear -Hs F5. dlia.
Qed.

Example formatMicro_2024 :
  formatMicro (1709210096123456789) = "2024-02-29T12:34:56.123456Z".
Proof. vm_compute. reflexivity. Qed.
