(* ===== verification/Sha256.v ===== *)
(** SHA-256 (Go's crypto/sha256) and hexadecimal (encoding/hex), executable.

    The repository hashes with the standard library: audit events
    (api/internal/audit/hash.go), deterministic identifiers
    (api/internal/execution/id.go, [stableID] of
    api/internal/ingestion/service.go) and advisory-lock keys
    ([GetAdvisoryLockKey]).  The compression function below follows FIPS 180-4
    on 32-bit words kept in [Z]; the two FIPS test vectors are checked by
    computation, and no proof relies on anything but the digest length. *)
From S2P Require Import Prelude.
Local Open Scope Z_scope.

Module Sha256.
Definition w32 (x : Z) : Z := Z.land x 4294967295.
Definition rotr (n x : Z) : Z := Z.lor (Z.shiftr x n) (w32 (Z.shiftl x (32 - n))).

(** The constants are the leading 32 fraction bits of square and cube roots of
    the first primes; they are computed from that definition. *)
Definition is_prime (n : Z) : bool :=
  forallb (fun d => negb (n mod Z.of_nat d =? 0)) (seq 2 (Z.to_nat n - 2)).
Definition primes (bound : nat) : list Z := List.filter is_prime (map Z.of_nat (seq 2 bound)).
(** The integer [k]-th root of [n], bit by bit from bit [b - 1] down. *)
Fixpoint iroot (k n : Z) (b : nat) (r : Z) : Z :=
  match b with
  | O => r
  | S b => let r' := r + 2 ^ Z.of_nat b in iroot k n b (if r' ^ k <=? n then r' else r)
  end.
Definition root_bits (k p : Z) : Z := w32 (iroot k (p * 2 ^ (32 * k)) 36 0).

Definition K256 : list Z := Eval vm_compute in map (root_bits 3) (primes 310).

Definition ssig0 x := Z.lxor (Z.lxor (rotr 7 x) (rotr 18 x)) (Z.shiftr x 3).
Definition ssig1 x := Z.lxor (Z.lxor (rotr 17 x) (rotr 19 x)) (Z.shiftr x 10).
Definition bsig0 x := Z.lxor (Z.lxor (rotr 2 x) (rotr 13 x)) (rotr 22 x).
Definition bsig1 x := Z.lxor (Z.lxor (rotr 6 x) (rotr 11 x)) (rotr 25 x).
Definition ch x y z := Z.lxor (Z.land x y) (Z.land (Z.lxor x 4294967295) z).
Definition maj x y z := Z.lxor (Z.lxor (Z.land x y) (Z.land x z)) (Z.land y z).

Definition word_be (l : list Z) : Z := fold_left (fun acc b => acc * 256 + b) l 0.

Fixpoint chunks {A} (fuel n : nat) (l : list A) : list (list A) :=
  match fuel with
  | O => []
  | S f => match l with [] => [] | _ => take n l :: chunks f n (drop n l) end
  end.

(** The message schedule, most recent word first. *)
Fixpoint extend (fuel : nat) (rev_w : list Z) : list Z :=
  match fuel with
  | O => rev_w
  | S f =>
      extend f (w32 (ssig1 (nth 1 rev_w 0) + nth 6 rev_w 0 + ssig0 (nth 14 rev_w 0)
                     + nth 15 rev_w 0) :: rev_w)
  end.

Record state := St { ra : Z; rb : Z; rc : Z; rd : Z; re : Z; rf : Z; rg : Z; rh : Z }.

Definition round (s : state) (kw : Z * Z) : state :=
  let '(St a b c d e f g h) := s in
  let t1 := w32 (h + bsig1 e + ch e f g + fst kw + snd kw) in
  let t2 := w32 (bsig0 a + maj a b c) in
  St (w32 (t1 + t2)) a b c (w32 (d + t1)) e f g.

Definition compress (s : state) (block : list Z) : state :=
  let w := rev (extend 48 (rev (map word_be (chunks 16 4 block)))) in
  let '(St a b c d e f g h) := fold_left round (combine K256 w) s in
  St (w32 (ra s + a)) (w32 (rb s + b)) (w32 (rc s + c)) (w32 (rd s + d))
     (w32 (re s + e)) (w32 (rf s + f)) (w32 (rg s + g)) (w32 (rh s + h)).

Definition H0 : state :=
  Eval vm_compute in
    match map (root_bits 2) (primes 18) with
    | [a; b; c; d; e; f; g; h] => St a b c d e f g h
    | _ => St 0 0 0 0 0 0 0 0
    end.

Fixpoint be_bytes (n : nat) (x : Z) : list Z :=
  match n with O => [] | S k => be_bytes k (Z.shiftr x 8) ++ [Z.land x 255] end.

Definition pad (m : list Z) : list Z :=
  let l := Z.of_nat (length m) in
  m ++ 128 :: repeat 0 (Z.to_nat ((55 - l) mod 64)) ++ be_bytes 8 (l * 8).

(** [sha256.Sum256]. *)
Definition Sum256 (s : string) : list Z :=
  let p := pad (str_bytes s) in
  let '(St a b c d e f g h) := fold_left compress (chunks (length p) 64 p) H0 in
  be_bytes 4 a ++ be_bytes 4 b ++ be_bytes 4 c ++ be_bytes 4 d
    ++ be_bytes 4 e ++ be_bytes 4 f ++ be_bytes 4 g ++ be_bytes 4 h.
End Sha256.
Import Sha256.

Lemma be_bytes_length n x : length (be_bytes n x) = n.
Proof. revert x. induction n as [|n IH]; intros x; cbn; [done|]. rw length_app IH. cbn. lia. Qed.

Lemma be_bytes_range n x : Forall (fun b => 0 <= b < 256) (be_bytes n x).
Proof.
  revert x. induction n as [|n IH]; intros x; cbn; [constructor|].
  apply Forall_app. split; [done|]. constructor; [|constructor].
  change 255 with (Z.ones 8). rw Z.land_ones; [|lia]. apply Z.mod_pos_bound. lia.
Qed.

Lemma Sum256_length s : length (Sum256 s) = 32%nat.
Proof.
  unfold Sum256. cbv zeta. destruct (fold_left compress _ _).
  done.
Qed.

Lemma Sum256_range s : Forall (fun b => 0 <= b < 256) (Sum256 s).
Proof.
  unfold Sum256. cbv zeta. destruct (fold_left compress _ _).
  repeat (apply Forall_app; split; [apply be_bytes_range|]). apply be_bytes_range.
Qed.

(** * Hexadecimal: [hex.EncodeToString] and the [%x] verb *)

Definition hex_digit (d : Z) : Ascii.ascii :=
  byte_chr (if d <? 10 then 48 + d else 87 + d).

Fixpoint hex_encode (l : list Z) : string :=
  match l with
  | [] => ""
  | b :: l => String (hex_digit (Z.shiftr b 4)) (String (hex_digit (Z.land b 15)) (hex_encode l))
  end.

Lemma hex_digit_inj c d : 0 <= c < 16 -> 0 <= d < 16 -> hex_digit c = hex_digit d -> c = d.
Proof.
  intros Hc Hd H%(f_equal byte_val). unfold hex_digit in H.
  rw !byte_val_chr in H; repeat case_match; lia.
Qed.

Lemma nibbles_inj a b :
  0 <= a < 256 -> 0 <= b < 256 ->
  Z.shiftr a 4 = Z.shiftr b 4 -> Z.land a 15 = Z.land b 15 -> a = b.
Proof.
  intros Ha Hb. rw !Z.shiftr_div_pow2; [|lia..].
  change 15 with (Z.ones 4). rw !Z.land_ones; [|lia..].
  change (2 ^ 4) with 16. intros H1 H2.
  pose proof (Z.div_mod a 16 ltac:(lia)). pose proof (Z.div_mod b 16 ltac:(lia)). lia.
Qed.

Lemma hex_encode_inj l l' :
  Forall (fun b => 0 <= b < 256) l -> Forall (fun b => 0 <= b < 256) l' ->
  hex_encode l = hex_encode l' -> l = l'.
Proof.
  intros Hl. revert l'. induction Hl as [|a l Ha Hl IH]; intros [|b l'] Hl'; try done.
  apply Forall_cons in Hl' as [Hb Hl'].
  cbn. intros [= H1 H2 H3]. f_equal; [|by apply IH].
  assert (Hs : forall z, 0 <= z < 256 -> 0 <= Z.shiftr z 4 < 16).
  { intros z Hz. rw Z.shiftr_div_pow2; [|lia]. change (2^4) with 16.
    split; [apply Z.div_pos|apply Z.div_lt_upper_bound]; lia. }
  assert (Ht : forall z, 0 <= Z.land z 15 < 16).
  { intros z. change 15 with (Z.ones 4). rw Z.land_ones; [|lia].
    apply Z.mod_pos_bound. lia. }
  apply nibbles_inj; [done|done| |]; apply hex_digit_inj; auto.
Qed.

Lemma hex_encode_length l : String.length (hex_encode l) = (2 * length l)%nat.
Proof. induction l as [|b l IH]; cbn; [done|]. rw IH. lia. Qed.

(** FIPS 180-4 test vectors. *)
Example Sum256_abc :
  hex_encode (Sum256 "abc")
  = "ba7816bf8f01cfea414140de5dae2223b00361a396177a9cb410ff61f20015ad".
Proof. vm_compute. reflexivity. Qed.

Example Sum256_two_blocks :
  hex_encode (Sum256 "abcdbcdecdefdefgefghfghighijhijkijkljklmklmnlmnomnopnopq")
  = "248d6a61d20638b8e5c026930c3e6039a33ce45964ff2167f6ecedd419db06c1".
Proof. vm_compute. reflexivity. Qed.
