(* ===== verification/Json.v ===== *)
(** Go's encoding/json on generic values: [json.Marshal], and
    [json.Decoder.Decode] with [UseNumber].

    A value is the tree [Marshal] sees.  Numbers are kept as their literal text
    ([json.Number]); integers enter through [JInt].  An object is the list of
    its members in emission order: declaration order for a struct, byte order
    of the keys for a map ([sort_keys]).  Strings are Go strings (bytes):
    invalid UTF-8 is printed as the escape [\ufffd] and read as U+FFFD. *)
From S2P Require Import Prelude.
Local Open Scope Z_scope.

Inductive json : Type :=
| JNull
| JBool (b : bool)
| JNum (lit : string)
| JStr (s : string)
| JArr (l : list json)
| JObj (l : list (string * json)).

Definition JInt (z : Z) : json := JNum (pretty z).

(** Induction with the hypotheses for the elements of arrays and objects. *)
Section JsonInd.
Variable P : json -> Prop.
Hypothesis Hnull : P JNull.
Hypothesis Hbool : forall b, P (JBool b).
Hypothesis Hnum : forall s, P (JNum s).
Hypothesis Hstr : forall s, P (JStr s).
Hypothesis Harr : forall l, Forall P l -> P (JArr l).
Hypothesis Hobj : forall l, Forall (fun kv => P kv.2) l -> P (JObj l).

Fixpoint json_ind' (v : json) : P v :=
  match v with
  | JNull => Hnull
  | JBool b => Hbool b
  | JNum s => Hnum s
  | JStr s => Hstr s
  | JArr l =>
      Harr l ((fix go l : Forall P l :=
        match l with [] => Forall_nil_2 P | x :: l => Forall_cons_2 P x l (json_ind' x) (go l) end) l)
  | JObj l =>
      Hobj l ((fix go l : Forall (fun kv => P kv.2) l :=
        match l with
        | [] => Forall_nil_2 _
        | x :: l => Forall_cons_2 _ x l (json_ind' x.2) (go l)
        end) l)
  end.
End JsonInd.

(** * UTF-8 *)

Definition in_range (lo hi : Z) (c : Ascii.ascii) : bool :=
  (lo <=? byte_val c) && (byte_val c <=? hi).
Definition is_cont := in_range 128 191.

(** Size of the rune [s] starts with, 0 for an invalid encoding
    ([utf8.DecodeRuneInString] answers RuneError of size 1 there). *)
Definition rune_len (s : string) : nat :=
  match s with
  | EmptyString => 0%nat
  | String c0 s1 =>
      if in_range 0 127 c0 then 1%nat
      else if in_range 0xC2 0xDF c0 then
        match s1 with String c1 _ => if is_cont c1 then 2%nat else 0%nat | _ => 0%nat end
      else if in_range 0xE0 0xEF c0 then
        match s1 with
        | String c1 (String c2 _) =>
            let lo := if byte_val c0 =? 0xE0 then 0xA0 else 0x80 in
            let hi := if byte_val c0 =? 0xED then 0x9F else 0xBF in
            if in_range lo hi c1 && is_cont c2 then 3%nat else 0%nat
        | _ => 0%nat
        end
      else if in_range 0xF0 0xF4 c0 then
        match s1 with
        | String c1 (String c2 (String c3 _)) =>
            let lo := if byte_val c0 =? 0xF0 then 0x90 else 0x80 in
            let hi := if byte_val c0 =? 0xF4 then 0x8F else 0xBF in
            if in_range lo hi c1 && is_cont c2 && is_cont c3 then 4%nat else 0%nat
        | _ => 0%nat
        end
      else 0%nat
  end.

(** [utf8.AppendRune]. *)
Definition encode_rune (r : Z) : string :=
  if r <? 0x80 then bytes_str [r]
  else if r <? 0x800 then bytes_str [Z.lor 0xC0 (Z.shiftr r 6); Z.lor 0x80 (Z.land r 63)]
  else if r <? 0x10000 then
    bytes_str [Z.lor 0xE0 (Z.shiftr r 12); Z.lor 0x80 (Z.land (Z.shiftr r 6) 63);
               Z.lor 0x80 (Z.land r 63)]
  else
    bytes_str [Z.lor 0xF0 (Z.shiftr r 18); Z.lor 0x80 (Z.land (Z.shiftr r 12) 63);
               Z.lor 0x80 (Z.land (Z.shiftr r 6) 63); Z.lor 0x80 (Z.land r 63)].

Definition RuneError : string := encode_rune 0xFFFD.

Fixpoint utf8_valid (s : string) : bool :=
  match s with
  | EmptyString => true
  | String _ s1 =>
      match rune_len s with
      | 1%nat => utf8_valid s1
      | 2%nat => match s1 with String _ s2 => utf8_valid s2 | _ => false end
      | 3%nat => match s1 with String _ (String _ s3) => utf8_valid s3 | _ => false end
      | 4%nat => match s1 with String _ (String _ (String _ s4)) => utf8_valid s4 | _ => false end
      | _ => false
      end
  end.

(** * Printing *)

Definition DQ : Ascii.ascii := byte_chr 34.
Definition BS : Ascii.ascii := byte_chr 92.
Definition hexc (d : Z) : Ascii.ascii := byte_chr (if d <? 10 then 48 + d else 87 + d).

(** One ASCII byte inside a string, with HTML escaping as [Marshal] does it. *)
Definition quote_ascii (c : Ascii.ascii) : string :=
  let b := byte_val c in
  let esc x := String BS (String x "") in
  if (b =? 92) || (b =? 34) then esc c
  else if b =? 8 then esc (byte_chr 98)
  else if b =? 12 then esc (byte_chr 102)
  else if b =? 10 then esc (byte_chr 110)
  else if b =? 13 then esc (byte_chr 114)
  else if b =? 9 then esc (byte_chr 116)
  else if (b <? 32) || (b =? 60) || (b =? 62) || (b =? 38) then
    String BS (String (byte_chr 117) ("00" +:+ String (hexc (Z.shiftr b 4))
                                             (String (hexc (Z.land b 15)) "")))
  else String c "".

Fixpoint quote_body (s : string) : string :=
  match s with
  | EmptyString => ""
  | String c0 s1 =>
      match rune_len s with
      | 1%nat => quote_ascii c0 +:+ quote_body s1
      | 2%nat => match s1 with
             | String c1 s2 => String c0 (String c1 (quote_body s2))
             | _ => "" end
      | 3%nat => match s1 with
             | String c1 (String c2 s3) =>
                 if (byte_val c0 =? 0xE2) && (byte_val c1 =? 0x80)
                    && ((byte_val c2 =? 0xA8) || (byte_val c2 =? 0xA9)) then
                   String BS (String (byte_chr 117) ("202" +:+ String (hexc (byte_val c2 - 0xA0)) (quote_body s3)))
                 else String c0 (String c1 (String c2 (quote_body s3)))
             | _ => "" end
      | 4%nat => match s1 with
             | String c1 (String c2 (String c3 s4)) =>
                 String c0 (String c1 (String c2 (String c3 (quote_body s4))))
             | _ => "" end
      | _ => String BS (String (byte_chr 117) ("fffd" +:+ quote_body s1))
      end
  end.

Definition quote (s : string) : string := String DQ (quote_body s +:+ String DQ "").

Definition concat_with (sep : string) : list string -> string :=
  fix go l :=
    match l with
    | [] => ""
    | [x] => x
    | x :: l' => x +:+ sep +:+ go l'
    end.

(** The bytes [Marshal] writes for a value whose number literals are valid. *)
Fixpoint render (v : json) : string :=
  match v with
  | JNull => "null"
  | JBool true => "true"
  | JBool false => "false"
  | JNum lit => lit
  | JStr s => quote s
  | JArr l => "[" +:+ concat_with "," (map render l) +:+ "]"
  | JObj l => "{" +:+ concat_with "," (map (fun kv => quote kv.1 +:+ ":" +:+ render kv.2) l) +:+ "}"
  end.

(** Map encoding: members in byte order of their keys, at every level. *)
Definition key_order (a b : string * json) : Prop := String.le a.1 b.1.
Global Instance key_order_dec a b : Decision (key_order a b) := decide (String.le a.1 b.1).

Fixpoint sort_keys (v : json) : json :=
  match v with
  | JArr l => JArr (map sort_keys l)
  | JObj l => JObj (merge_sort key_order (map (fun kv => (kv.1, sort_keys kv.2)) l))
  | v => v
  end.

(** * Number literals *)

Definition is_digit := in_range 48 57.
Definition is_char (z : Z) (c : Ascii.ascii) : bool := byte_val c =? z.

Fixpoint scan_digits (s : string) : string * string :=
  match s with
  | String c s1 =>
      if is_digit c then let '(d, r) := scan_digits s1 in (String c d, r) else ("", s)
  | EmptyString => ("", "")
  end.

Definition scan_sign (s : string) : string * string :=
  match s with
  | String c s1 => if is_char 45 c then (String c "", s1) else ("", s)
  | EmptyString => ("", "")
  end.

Definition scan_int (s : string) : option (string * string) :=
  match s with
  | String c s1 =>
      if is_char 48 c then Some (String c "", s1)
      else if is_digit c then Some (scan_digits s) else None
  | EmptyString => None
  end.

Definition scan_frac (s : string) : option (string * string) :=
  match s with
  | String c s1 =>
      if is_char 46 c then
        match scan_digits s1 with ("", _) => None | (d, r) => Some (String c d, r) end
      else Some ("", s)
  | EmptyString => Some ("", "")
  end.

Definition scan_exp (s : string) : option (string * string) :=
  match s with
  | String c s1 =>
      if is_char 101 c || is_char 69 c then
        let '(sg, s2) :=
          match s1 with
          | String x s2 => if is_char 43 x || is_char 45 x then (String x "", s2) else ("", s1)
          | EmptyString => ("", "")
          end in
        match scan_digits s2 with ("", _) => None | (d, r) => Some (String c (sg +:+ d), r) end
      else Some ("", s)
  | EmptyString => Some ("", "")
  end.

Definition scan_number (s : string) : option (string * string) :=
  let '(sg, s1) := scan_sign s in
  '(i, s2) ← scan_int s1;
  '(f, s3) ← scan_frac s2;
  '(e, s4) ← scan_exp s3;
  Some (sg +:+ i +:+ f +:+ e, s4).

Definition valid_number (lit : string) : bool :=
  match scan_number lit with Some (_, EmptyString) => true | _ => false end.

Fixpoint numbers_ok (v : json) : bool :=
  match v with
  | JNum lit => valid_number lit
  | JArr l => forallb numbers_ok l
  | JObj l => forallb (fun kv => numbers_ok kv.2) l
  | _ => true
  end.

(** [json.Marshal]; it fails on an invalid [json.Number]. *)
Definition marshal (v : json) : option string :=
  if numbers_ok v then Some (render v) else None.

(** * Decoding *)

Definition is_ws (c : Ascii.ascii) : bool :=
  is_char 32 c || is_char 9 c || is_char 10 c || is_char 13 c.
Fixpoint skip_ws (s : string) : string :=
  match s with String c s1 => if is_ws c then skip_ws s1 else s | EmptyString => "" end.

Definition hex_val (c : Ascii.ascii) : option Z :=
  if is_digit c then Some (byte_val c - 48)
  else if in_range 97 102 c then Some (byte_val c - 87)
  else if in_range 65 70 c then Some (byte_val c - 55)
  else None.

Definition hex4 (s : string) : option (Z * string) :=
  match s with
  | String a (String b (String c (String d t))) =>
      x ← hex_val a; y ← hex_val b; z ← hex_val c; w ← hex_val d;
      Some (x * 4096 + y * 256 + z * 16 + w, t)
  | _ => None
  end.

Definition is_surrogate (r : Z) : bool := (0xD800 <=? r) && (r <? 0xE000).

(** A [\u] escape whose four digits gave [h]: a high surrogate joins with the
    low one that follows, an unpaired surrogate becomes U+FFFD. *)
Definition unicode_escape (h : Z) (s : string) : Z * string :=
  if is_surrogate h then
    match s with
    | String a (String b t) =>
        if is_char 92 a && is_char 117 b then
          match hex4 t with
          | Some (l, t') =>
              if (h <? 0xDC00) && (0xDC00 <=? l) && (l <? 0xE000)
              then ((h - 0xD800) * 1024 + (l - 0xDC00) + 0x10000, t')
              else (0xFFFD, s)
          | None => (0xFFFD, s)
          end
        else (0xFFFD, s)
    | _ => (0xFFFD, s)
    end
  else (h, s).

Definition simple_escape (e : Ascii.ascii) : option Z :=
  let b := byte_val e in
  if (b =? 34) || (b =? 92) || (b =? 47) then Some b
  else if b =? 98 then Some 8
  else if b =? 102 then Some 12
  else if b =? 110 then Some 10
  else if b =? 114 then Some 13
  else if b =? 116 then Some 9
  else None.

Fixpoint str_split (n : nat) (s : string) : string * string :=
  match n, s with
  | S n, String c s1 => let '(a, b) := str_split n s1 in (String c a, b)
  | _, _ => ("", s)
  end.

(** The characters after an opening quote, up to and past the closing one. *)
Fixpoint parse_str (fuel : nat) (s : string) : option (string * string) :=
  match fuel, s with
  | S f, String c s1 =>
      if is_char 34 c then Some ("", s1)
      else if is_char 92 c then
        match s1 with
        | String e s2 =>
            match simple_escape e with
            | Some z => '(r, t) ← parse_str f s2; Some (String (byte_chr z) r, t)
            | None =>
                if is_char 117 e then
                  '(h, s3) ← hex4 s2;
                  let '(rune, s4) := unicode_escape h s3 in
                  '(r, t) ← parse_str f s4; Some (encode_rune rune +:+ r, t)
                else None
            end
        | EmptyString => None
        end
      else if byte_val c <? 32 then None
      else
        match rune_len s with
        | O => '(r, t) ← parse_str f s1; Some (RuneError +:+ r, t)
        | n => let '(a, s2) := str_split n s in
               '(r, t) ← parse_str f s2; Some (a +:+ r, t)
        end
  | _, _ => None
  end.

(** Decoding into a map: a repeated key replaces the earlier value. *)
Fixpoint obj_set (k : string) (v : json) (l : list (string * json)) : list (string * json) :=
  match l with
  | [] => [(k, v)]
  | (k', v') :: l => if decide (k = k') then (k, v) :: l else (k', v') :: obj_set k v l
  end.
Definition obj_of_members (l : list (string * json)) : list (string * json) :=
  foldl (fun acc kv => obj_set kv.1 kv.2 acc) [] l.

Definition expect (lit : string) (v : json) (s : string) : option (json * string) :=
  let '(a, r) := str_split (String.length lit) s in
  if decide (a = lit) then Some (v, r) else None.

Definition maxNestingDepth : Z := 10000.

Fixpoint parse_value (fuel : nat) (depth : Z) (s : string) : option (json * string) :=
  match fuel with
  | O => None
  | S f =>
      match skip_ws s with
      | EmptyString => None
      | String c s1 =>
          if is_char 123 c then
            if maxNestingDepth <=? depth then None
            else match skip_ws s1 with
                 | String c' t =>
                     if is_char 125 c' then Some (JObj [], t)
                     else '(l, r) ← parse_members f (depth + 1) (String c' t);
                          Some (JObj (obj_of_members l), r)
                 | EmptyString => None
                 end
          else if is_char 91 c then
            if maxNestingDepth <=? depth then None
            else match skip_ws s1 with
                 | String c' t =>
                     if is_char 93 c' then Some (JArr [], t)
                     else '(l, r) ← parse_elems f (depth + 1) (String c' t); Some (JArr l, r)
                 | EmptyString => None
                 end
          else if is_char 34 c then '(x, r) ← parse_str (S (String.length s1)) s1; Some (JStr x, r)
          else if is_char 110 c then expect "null" JNull (String c s1)
          else if is_char 116 c then expect "true" (JBool true) (String c s1)
          else if is_char 102 c then expect "false" (JBool false) (String c s1)
          else '(lit, r) ← scan_number (String c s1); Some (JNum lit, r)
      end
  end
with parse_elems (fuel : nat) (depth : Z) (s : string) : option (list json * string) :=
  match fuel with
  | O => None
  | S f =>
      '(x, r) ← parse_value f depth s;
      match skip_ws r with
      | String c t =>
          if is_char 44 c then '(l, r') ← parse_elems f depth t; Some (x :: l, r')
          else if is_char 93 c then Some ([x], t) else None
      | EmptyString => None
      end
  end
with parse_members (fuel : nat) (depth : Z) (s : string) : option (list (string * json) * string) :=
  match fuel with
  | O => None
  | S f =>
      match skip_ws s with
      | String q s1 =>
          if is_char 34 q then
            '(k, r) ← parse_str (S (String.length s1)) s1;
            match skip_ws r with
            | String c t =>
                if is_char 58 c then
                  '(x, r') ← parse_value f depth t;
                  match skip_ws r' with
                  | String c' t' =>
                      if is_char 44 c' then
                        '(l, r'') ← parse_members f depth t'; Some ((k, x) :: l, r'')
                      else if is_char 125 c' then Some ([(k, x)], t') else None
                  | EmptyString => None
                  end
                else None
            | EmptyString => None
            end
          else None
      | EmptyString => None
      end
  end.

(** [Decoder.Decode]: the first value of the stream. *)
Definition decode (s : string) : option json :=
  fst <$> parse_value (S (2 * String.length s)) 0 s.

(** [json.Unmarshal]: nothing but white space may follow the value. *)
Definition unmarshal (s : string) : option json :=
  '(v, r) ← parse_value (S (2 * String.length s)) 0 s;
  match skip_ws r with EmptyString => Some v | _ => None end.

(** For readable examples: apostrophes stand for double quotes. *)
Fixpoint apos (s : string) : string :=
  match s with
  | String c s => String (if is_char 39 c then DQ else c) (apos s)
  | EmptyString => ""
  end.

Example decode_sample :
  decode (apos "  {'a' : [1, -2.5e+3,'x\u00e9\n\ud83d\ude00'], 'b': {}, 'a':null} tail")
  = Some (JObj [("a", JNull); ("b", JObj [])]).
Proof. vm_compute. reflexivity. Qed.

Example decode_render_sample :
  let v := JArr [JStr "a<b"; JNum "-0.5E7"; JObj [("k", JBool true); ("l", JInt (-12))]] in
  decode (render v) = Some v.
Proof. vm_compute. reflexivity. Qed.
