(* ===== verification/JsonFacts.v ===== *)
(** Facts on the JSON printer and decoder: decoding what [Marshal] printed
    gives the value back, so printing is injective on well-formed values. *)
From S2P Require Import Prelude Json.
Local Open Scope Z_scope.

(** * Runes *)

Lemma is_char_eq z c : 0 <= z < 256 -> is_char z c = true <-> c = byte_chr z.
Proof.
  intros Hz. unfold is_char. rw Z.eqb_eq. split.
  - intros <-. by rw byte_chr_val.
  - intros ->. by rw byte_val_chr.
Qed.

(** The leading bytes of a valid rune decide its size. *)
Lemma rune_len_split s n :
  rune_len s = S n ->
  exists a t, s = a +:+ t /\ String.length a = S n /\ forall t', rune_len (a +:+ t') = S n.
Proof.
  destruct s as [|c0 s1]; [done|]. cbn [rune_len].
  destruct (in_range 0 127 c0) eqn:E0.
  { intros [= <-]. exists (String c0 ""), s1. split_and!; [done..|].
    intros t'. rw str_cons_app. cbn [rune_len]. by rw E0. }
  destruct (in_range 0xC2 0xDF c0) eqn:E1.
  { destruct s1 as [|c1 s2]; [done|]. case_match eqn:Ec; [|done]. intros [= <-].
    exists (String c0 (String c1 "")), s2. split_and!; [done..|].
    intros t'. rw !str_cons_app. cbn [rune_len]. by rw E0 E1 Ec. }
  destruct (in_range 0xE0 0xEF c0) eqn:E2.
  { destruct s1 as [|c1 [|c2 s3]]; [done..|]. case_match eqn:Ec; [|done]. intros [= <-].
    exists (String c0 (String c1 (String c2 ""))), s3. split_and!; [done..|].
    intros t'. rw !str_cons_app. cbn [rune_len]. by rw E0 E1 E2 Ec. }
  destruct (in_range 0xF0 0xF4 c0) eqn:E3; [|done].
  destruct s1 as [|c1 [|c2 [|c3 s4]]]; [done..|]. case_match eqn:Ec; [|done]. intros [= <-].
  exists (String c0 (String c1 (String c2 (String c3 "")))), s4. split_and!; [done..|].
  intros t'. rw !str_cons_app. cbn [rune_len]. by rw E0 E1 E2 E3 Ec.
Qed.

Lemma str_split_app a t : str_split (String.length a) (a +:+ t) = (a, t).
Proof.
  induction a as [|c a IH]; [done|]. rw str_cons_app. cbn. by rw IH.
Qed.

Lemma rune_len_le s : (rune_len s <= 4)%nat.
Proof. destruct s as [|c s]; cbn; [lia|]. repeat case_match; lia. Qed.

(** A non-empty valid string is a rune followed by a valid string. *)
Lemma utf8_valid_inv c s :
  utf8_valid (String c s) = true ->
  exists a t, String c s = a +:+ t /\ utf8_valid t = true /\ a <> ""
    /\ forall t', rune_len (a +:+ t') = String.length a.
Proof.
  intros H. remember (String c s) as s0 eqn:Hs0.
  destruct (rune_len s0) as [|n] eqn:Er.
  { subst s0. cbn [utf8_valid] in H. by rw Er in H. }
  destruct (rune_len_split s0 n Er) as (a & t & Hat & Hl & Hr).
  exists a, t. split_and!; [done| |by intros ->|intros t'; by rw Hr Hl].
  pose proof (rune_len_le s0). rw Er in H0.
  rw Hs0 in H. cbn [utf8_valid] in H. rw -Hs0 Er in H.
  destruct a as [|c1 [|c2 [|c3 [|c4 [|]]]]]; cbn in Hl; try (exfalso; lia); injection Hl as <-;
    rw Hs0 ?str_cons_app in Hat; injection Hat as -> ->; done.
Qed.

(** * Strings *)

Lemma parse_str_ascii f c r :
  byte_val c < 128 ->
  parse_str (S f) (quote_ascii c +:+ r) = ('(x, t) ← parse_str f r; Some (String c x, t)).
Proof.
  intros Hc. destruct c as [[] [] [] [] [] [] [] []]; cbv in Hc; try done; reflexivity.
Qed.

Lemma ascii_rune a :
  a <> "" -> (forall t', rune_len (a +:+ t') = String.length a) ->
  (exists c, a = String c "" /\ byte_val c < 128)
  \/ (exists c b, a = String c b /\ b <> "" /\ 128 <= byte_val c).
Proof.
  intros Hne Hr. destruct a as [|c b]; [done|]. specialize (Hr "").
  rw str_app_nil_r in Hr. pose proof (byte_val_range c) as Hc.
  destruct (in_range 0 127 c) eqn:E.
  - left. exists c. cbn [rune_len] in Hr. rw E in Hr. destruct b; [|done].
    split; [done|]. unfold in_range in E. lia.
  - right. exists c, b. split_and!; [done| |unfold in_range in E; lia].
    intros ->. cbn [rune_len] in Hr. rw E in Hr. repeat case_match; done.
Qed.

(** What the printer writes for one rune. *)
Lemma quote_body_rune a :
  a <> "" -> (forall t', rune_len (a +:+ t') = String.length a) ->
  exists q, (forall t, quote_body (a +:+ t) = q +:+ quote_body t)
    /\ (1 <= String.length q)%nat
    /\ forall f r, parse_str (S f) (q +:+ r) = ('(x, t) ← parse_str f r; Some (a +:+ x, t)).
Proof.
  intros Hne Hr. destruct (ascii_rune a Hne Hr) as [(c & -> & Hc)|(c & b & -> & Hb & Hc)].
  - exists (quote_ascii c). split_and!.
    + intros t'. specialize (Hr t'). rw !str_cons_app in Hr |- *. cbn [quote_body]. by rw Hr.
    + unfold quote_ascii. repeat case_match; cbn; lia.
    + intros f r. by apply parse_str_ascii.
  - assert (Hnot : forall z, z < 128 -> is_char z c = false)
      by (intros z Hz; unfold is_char; apply Z.eqb_neq; lia).
    assert (Hge : (byte_val c <? 32) = false) by (apply Z.ltb_ge; lia).
    assert (Hcopy : forall f r, parse_str (S f) (String c b +:+ r)
                      = ('(x, t) ← parse_str f r; Some (String c b +:+ x, t))).
    { intros f r. pose proof (Hr r) as Hr'. rw str_cons_app in Hr'. rw str_cons_app. cbn [parse_str].
      rw !Hnot; [|lia..]. rw Hge Hr' -str_cons_app.
      pose proof (str_split_app (String c b) r) as Hs. cbn [String.length] in Hs |- *.
      by rw Hs. }
    destruct b as [|c1 [|c2 [|c3 [|c4 b]]]]; [done| | | |].
    + exists (String c (String c1 "")). split_and!; [|cbn; lia|exact Hcopy].
      intros t'. specialize (Hr t'). rw !str_cons_app in Hr |- *. cbn [quote_body]. by rw Hr.
    + destruct ((byte_val c =? 0xE2) && (byte_val c1 =? 0x80)
                && ((byte_val c2 =? 0xA8) || (byte_val c2 =? 0xA9))) eqn:E.
      * exists (String BS (String (byte_chr 117) ("202" +:+ String (hexc (byte_val c2 - 0xA0)) ""))).
        split_and!; [|cbn; lia|].
        -- intros t'. specialize (Hr t'). rw !str_cons_app in Hr |- *. cbn [quote_body].
           rw Hr E. done.
        -- intros f r. apply andb_prop in E as [[E1 E2]%andb_prop E3%orb_prop].
           apply is_char_eq in E1; [|lia]. apply is_char_eq in E2; [|lia]. subst c c1.
           destruct E3 as [E3|E3]; (apply is_char_eq in E3; [|lia]); subst c2; reflexivity.
      * exists (String c (String c1 (String c2 ""))). split_and!; [|cbn; lia|exact Hcopy].
        intros t'. specialize (Hr t'). rw !str_cons_app in Hr |- *. cbn [quote_body]. by rw Hr E.
    + exists (String c (String c1 (String c2 (String c3 "")))). split_and!; [|cbn; lia|exact Hcopy].
      intros t'. specialize (Hr t'). rw !str_cons_app in Hr |- *. cbn [quote_body]. by rw Hr.
    + exfalso. specialize (Hr ""). rw str_app_nil_r in Hr.
      pose proof (rune_len_le (String c (String c1 (String c2 (String c3 (String c4 b)))))) as Hle.
      rw Hr in Hle. cbn in Hle. lia.
Qed.

Lemma parse_str_quote s f r :
  utf8_valid s = true -> (String.length (quote_body s) < f)%nat ->
  parse_str f (quote_body s +:+ String DQ r) = Some (s, r).
Proof.
  remember (String.length s) as n eqn:Hn. revert s f r Hn.
  induction n as [n IH] using lt_wf_ind. intros [|c s] f r Hn Hv Hf.
  { destruct f; [cbn in Hf; lia|]. reflexivity. }
  destruct (utf8_valid_inv c s Hv) as (a & t & Hat & Ht & Hne & Hr).
  destruct (quote_body_rune a Hne Hr) as (q & Hq & Hlq & Hp).
  rw Hat Hq in Hf |- *. rw str_length_app in Hf. destruct f as [|f]; [lia|].
  rw str_app_assoc Hp. rw (IH (String.length t)); [done| |done|done|lia].
  rw Hn Hat str_length_app. destruct a; [done|]. cbn. lia.
Qed.

(** * Number literals *)

(** [rest] cannot extend a number that ends just before it. *)
Definition ends_number (rest : string) : bool :=
  match rest with
  | String c _ => negb (is_digit c || is_char 46 c || is_char 101 c || is_char 69 c)
  | EmptyString => true
  end.

Lemma scan_digits_app d r :
  str_all is_digit d = true ->
  match r with String c _ => is_digit c = false | EmptyString => True end ->
  scan_digits (d +:+ r) = (d, r).
Proof.
  intros Hd Hr. induction d as [|c d IH].
  - rw str_app_nil_l. destruct r as [|c r]; [done|]. cbn. by rw Hr.
  - cbn in Hd. apply andb_prop in Hd as [Hc Hd]. rw str_cons_app. cbn. by rw Hc (IH Hd).
Qed.

Lemma scan_digits_spec s d r :
  scan_digits s = (d, r) ->
  s = d +:+ r /\ str_all is_digit d = true
  /\ match r with String c _ => is_digit c = false | EmptyString => True end.
Proof.
  revert d r. induction s as [|c s IH]; intros d r; cbn; [by intros [= <- <-]|].
  destruct (is_digit c) eqn:Ec; [|by intros [= <- <-]].
  destruct (scan_digits s) as [d' r'] eqn:E. intros [= <- <-].
  destruct (IH _ _ eq_refl) as (-> & Hd & Hr). split_and!; [done| |done]. cbn. by rw Ec.
Qed.

Section Extend.
Variable rest : string.
Hypothesis Hrest : ends_number rest = true.

Lemma rest_head z : (z = 46 \/ z = 101 \/ z = 69) ->
  match rest with String c _ => is_char z c = false | EmptyString => True end.
Proof.
  move: Hrest. case: (rest) => [|c r]; [done|]. cbn. intros H%negb_true_iff.
  rw !orb_false_iff in H. intros [-> | [-> | ->]]; tauto.
Qed.

Lemma rest_digit : match rest with String c _ => is_digit c = false | EmptyString => True end.
Proof.
  move: Hrest. case: (rest) => [|c r]; [done|]. cbn. intros H%negb_true_iff.
  rw !orb_false_iff in H. tauto.
Qed.

Lemma scan_digits_ext s d r : scan_digits s = (d, r) -> scan_digits (s +:+ rest) = (d, r +:+ rest).
Proof.
  revert d r. induction s as [|c s IH]; intros d r.
  - intros [= <- <-]. rw str_app_nil_l. move: rest_digit.
    case: (rest) => [|c r]; [done|]. cbn. by intros ->.
  - rw str_cons_app. cbn. destruct (is_digit c); [|by intros [= <- <-]].
    destruct (scan_digits s) as [d' r']. intros [= <- <-]. by rw (IH _ _ eq_refl).
Qed.

Lemma scan_int_ext s d r : scan_int s = Some (d, r) -> scan_int (s +:+ rest) = Some (d, r +:+ rest).
Proof.
  destruct s as [|c s]; [done|]. rw str_cons_app. cbn [scan_int].
  destruct (is_char 48 c); [by intros [= <- <-]|]. destruct (is_digit c); [|done].
  intros [= H].
  by rw -str_cons_app (scan_digits_ext (String c s) _ _ H).
Qed.

Lemma scan_frac_ext s d r : scan_frac s = Some (d, r) -> scan_frac (s +:+ rest) = Some (d, r +:+ rest).
Proof.
  destruct s as [|c s].
  - intros [= <- <-]. rw str_app_nil_l. move: (rest_head 46 ltac:(lia)).
    case: (rest) => [|c r]; [done|]. cbn [scan_frac]. by intros ->.
  - rw str_cons_app. cbn [scan_frac]. destruct (is_char 46 c); [|by intros [= <- <-]].
    destruct (scan_digits s) as [d' r'] eqn:E. rw (scan_digits_ext _ _ _ E).
    destruct d'; [done|]. by intros [= <- <-].
Qed.

Lemma scan_exp_ext s d r : scan_exp s = Some (d, r) -> scan_exp (s +:+ rest) = Some (d, r +:+ rest).
Proof.
  destruct s as [|c s].
  - intros [= <- <-]. rw str_app_nil_l.
    move: (rest_head 101 ltac:(lia)) (rest_head 69 ltac:(lia)).
    case: (rest) => [|c r]; [done|]. cbn [scan_exp]. by intros -> ->.
  - rw str_cons_app. cbn [scan_exp]. destruct (is_char 101 c || is_char 69 c); [|by intros [= <- <-]].
    destruct s as [|x s]; [done|]. rw str_cons_app.
    destruct (is_char 43 x || is_char 45 x); rw -?str_cons_app.
    + destruct (scan_digits s) as [d' r'] eqn:E. rw (scan_digits_ext _ _ _ E).
      destruct d'; [done|]. by intros [= <- <-].
    + destruct (scan_digits (String x s)) as [d' r'] eqn:E. rw (scan_digits_ext _ _ _ E).
      destruct d'; [done|]. by intros [= <- <-].
Qed.

Lemma scan_number_ext s d r :
  scan_number s = Some (d, r) -> scan_number (s +:+ rest) = Some (d, r +:+ rest).
Proof.
  unfold scan_number. destruct (scan_sign s) as [sg s1] eqn:Es.
  destruct (scan_int s1) as [[i s2]|] eqn:Ei; [|done]. cbn.
  destruct (scan_frac s2) as [[f s3]|] eqn:Ef; [|done]. cbn.
  destruct (scan_exp s3) as [[e s4]|] eqn:Ee; [|done]. cbn. intros [= <- <-].
  assert (Hs : scan_sign (s +:+ rest) = (sg, s1 +:+ rest)).
  { destruct s as [|c s]; [injection Es as <- <-; done|]. rw str_cons_app. cbn in Es |- *.
    destruct (is_char 45 c); by injection Es as <- <-. }
  by rw Hs (scan_int_ext _ _ _ Ei) /= (scan_frac_ext _ _ _ Ef) /= (scan_exp_ext _ _ _ Ee).
Qed.
End Extend.

Lemma scan_number_split s d r : scan_number s = Some (d, r) -> s = d +:+ r.
Proof.
  unfold scan_number. destruct (scan_sign s) as [sg s1] eqn:Es.
  destruct (scan_int s1) as [[i s2]|] eqn:Ei; [|done]. cbn.
  destruct (scan_frac s2) as [[f s3]|] eqn:Ef; [|done]. cbn.
  destruct (scan_exp s3) as [[e s4]|] eqn:Ee; [|done]. cbn. intros [= <- <-].
  assert (s = sg +:+ s1) as ->.
  { destruct s as [|c s]; cbn in Es; [by injection Es as <- <-|].
    destruct (is_char 45 c); by injection Es as <- <-. }
  assert (s1 = i +:+ s2) as ->.
  { destruct s1 as [|c s1]; [done|]. cbn [scan_int] in Ei.
    destruct (is_char 48 c); [by injection Ei as <- <-|]. destruct (is_digit c); [|done].
    injection Ei as Ei. by apply (scan_digits_spec (String c s1)) in Ei as (? & _). }
  assert (s2 = f +:+ s3) as ->.
  { destruct s2 as [|c s2]; cbn [scan_frac] in Ef; [by injection Ef as <- <-|].
    destruct (is_char 46 c); [|by injection Ef as <- <-].
    destruct (scan_digits s2) as [[|] ?] eqn:E; [done|]. injection Ef as <- <-.
    apply scan_digits_spec in E as (-> & _). done. }
  assert (s3 = e +:+ s4) as ->; [|by rw !str_app_assoc].
  destruct s3 as [|c s3]; cbn [scan_exp] in Ee; [by injection Ee as <- <-|].
  destruct (is_char 101 c || is_char 69 c); [|by injection Ee as <- <-].
  destruct s3 as [|x s3]; [done|].
  destruct (is_char 43 x || is_char 45 x);
    (destruct (scan_digits _) as [[|] ?] eqn:E; [done|]); injection Ee as <- <-;
    apply scan_digits_spec in E as (E & _); by rw E.
Qed.

Lemma valid_number_scan lit rest :
  valid_number lit = true -> ends_number rest = true ->
  scan_number (lit +:+ rest) = Some (lit, rest).
Proof.
  unfold valid_number. intros Hv Hr.
  destruct (scan_number lit) as [[d [|]]|] eqn:E; [|done..].
  pose proof (scan_number_split _ _ _ E) as Hl. rw str_app_nil_r in Hl. subst d.
  by apply (scan_number_ext _ Hr) in E.
Qed.

(** * Decoding a printed value *)

(** Values every Go map decoded from valid text has: valid literals and UTF-8,
    no repeated key. *)
Fixpoint json_wf (v : json) : bool :=
  match v with
  | JNum lit => valid_number lit
  | JStr s => utf8_valid s
  | JArr l => forallb json_wf l
  | JObj l => forallb (fun kv => utf8_valid kv.1 && json_wf kv.2) l && bool_decide (NoDup (map fst l))
  | _ => true
  end.

Fixpoint nesting (v : json) : Z :=
  match v with
  | JArr l => 1 + foldr (fun x n => Z.max (nesting x) n) 0 l
  | JObj l => 1 + foldr (fun kv n => Z.max (nesting kv.2) n) 0 l
  | _ => 0
  end.

Lemma valid_number_head lit :
  valid_number lit = true ->
  exists c t, lit = String c t /\ (byte_val c = 45 \/ 48 <= byte_val c <= 57).
Proof.
  unfold valid_number, scan_number. destruct lit as [|c t]; [done|]. intros H. exists c, t.
  split; [done|]. cbn [scan_sign] in H. destruct (is_char 45 c) eqn:E1.
  { left. unfold is_char in E1. lia. }
  right. cbn [scan_int] in H. destruct (is_char 48 c) eqn:E2.
  { unfold is_char in E2. lia. }
  destruct (is_digit c) eqn:E3; [|done]. unfold is_digit, in_range in E3. lia.
Qed.

Lemma render_nonempty v : json_wf v = true -> (1 <= String.length (render v))%nat.
Proof.
  destruct v as [|[]|lit|s|l|l]; cbn; try lia.
  - intros H. destruct (valid_number_head lit H) as (c & t & -> & _). cbn. lia.
  - rw str_cons_app. cbn. lia.
  - rw str_cons_app. cbn. lia.
Qed.

Lemma skip_ws_char c s : is_ws c = false -> skip_ws (String c s) = String c s.
Proof. intros H. cbn. by rw H. Qed.

Definition parses (v : json) : Prop :=
  forall fuel d rest,
    (2 * String.length (render v) <= fuel)%nat ->
    d + nesting v <= maxNestingDepth -> ends_number rest = true ->
    parse_value fuel d (render v +:+ rest) = Some (v, rest).

Lemma parse_number_literal lit : valid_number lit = true -> parses (JNum lit).
Proof.
  intros Hv fuel d rest Hf Hd Hr. destruct (valid_number_head lit Hv) as (c & t & Hl & Hc).
  cbn [render] in Hf |- *. destruct fuel as [|f]; [subst lit; cbn in Hf; lia|].
  pose proof (valid_number_scan lit rest Hv Hr) as Hs.
  rw Hl str_cons_app in Hs |- *. cbn [parse_value skip_ws].
  assert (Hne : forall z, z <> 45 -> z < 48 \/ 57 < z -> is_char z c = false)
    by (intros; unfold is_char; lia).
  unfold is_ws. rw !Hne; [|lia..]. cbn. by rw !Hne ?Hs; [|lia..].
Qed.

Lemma parse_elems_render l :
  l <> [] -> Forall parses l -> Forall (fun v => json_wf v = true) l ->
  forall fuel d rest,
    (2 * String.length (concat_with "," (map render l) +:+ "]") <= fuel)%nat ->
    d + foldr (fun x n => Z.max (nesting x) n) 0 l <= maxNestingDepth ->
    parse_elems fuel d ((concat_with "," (map render l) +:+ "]") +:+ rest) = Some (l, rest).
Proof.
  intros Hne HP Hwf. induction HP as [|x l Hx HP IH]; [done|]. clear Hne.
  apply Forall_cons in Hwf as [Hwx Hwf]. intros fuel d rest Hf Hd. cbn [foldr] in Hd.
  pose proof (render_nonempty x Hwx) as Hlx.
  destruct l as [|y l].
  - cbn [map concat_with] in Hf |- *. rw str_length_app in Hf. cbn in Hf.
    destruct fuel as [|f]; [lia|]. cbn [parse_elems]. rw str_app_assoc.
    rw (Hx f d); [|lia|lia|done]. done.
  - cbn [map concat_with] in Hf |- *. cbn [map concat_with] in IH. rw !str_length_app in Hf. cbn in Hf.
    destruct fuel as [|f]; [lia|]. cbn [parse_elems]. rw !str_app_assoc.
    rw (Hx f d); [|lia|lia|done]. cbn [mbind option_bind]. cbn [skip_ws is_ws].
    rw str_cons_app. cbn [skip_ws]. cbn [is_ws]. rw str_app_nil_l.
    change (is_ws _) with false. cbn [is_char]. change (is_char 44 _) with true. cbn [mbind option_bind].
    specialize (IH ltac:(done) Hwf f d rest). rw !str_app_assoc in IH.
    rw IH; [done|rw !str_length_app; cbn; lia|lia].
Qed.

Definition render_member (kv : string * json) : string := quote kv.1 +:+ ":" +:+ render kv.2.

Lemma parse_quoted s r :
  utf8_valid s = true ->
  parse_str (S (String.length ((quote_body s +:+ String DQ "") +:+ r)))
    ((quote_body s +:+ String DQ "") +:+ r) = Some (s, r).
Proof.
  intros Hv. rw str_app_assoc str_cons_app str_app_nil_l. apply parse_str_quote; [done|].
  rw str_length_app. lia.
Qed.

Lemma parse_member k v f d rest :
  utf8_valid k = true -> parses v -> json_wf v = true ->
  (2 * String.length (render v) <= f)%nat -> d + nesting v <= maxNestingDepth ->
  ends_number rest = true ->
  parse_members (S f) d (render_member (k, v) +:+ rest)
  = match skip_ws rest with
    | String c t =>
        if is_char 44 c then '(l, r'') ← parse_members f d t; Some ((k, v) :: l, r'')
        else if is_char 125 c then Some ([(k, v)], t) else None
    | EmptyString => None
    end.
Proof.
  intros Hk Hv Hwf Hf Hd Hr. unfold render_member, quote. cbn [fst snd].
  rw str_app_assoc str_cons_app. cbn [parse_members]. rw skip_ws_char; [|done].
  change (is_char 34 DQ) with true. cbn iota.
  rw parse_quoted; [|done]. cbn [mbind option_bind].
  rw str_app_assoc str_cons_app. rw skip_ws_char; [|done]. cbn iota. rw str_app_nil_l.
  change (is_char 58 (byte_chr 58)) with true. cbn iota. rw Hv; [|lia|lia|done]. done.
Qed.

Lemma render_member_length k v :
  (String.length (render v) < String.length (render_member (k, v)))%nat.
Proof. unfold render_member. cbn [fst snd]. rw !str_length_app. cbn [String.length]. lia. Qed.

Lemma list_text_cons a b c r :
  ((a +:+ "," +:+ b) +:+ c) +:+ r = a +:+ String (byte_chr 44) ((b +:+ c) +:+ r).
Proof. by rw !str_app_assoc. Qed.

Lemma parse_members_render l :
  l <> [] -> Forall (fun kv => parses kv.2) l ->
  Forall (fun kv => utf8_valid kv.1 = true /\ json_wf kv.2 = true) l ->
  forall fuel d rest,
    (2 * String.length (concat_with "," (map render_member l) +:+ "}") <= fuel)%nat ->
    d + foldr (fun kv n => Z.max (nesting kv.2) n) 0 l <= maxNestingDepth ->
    parse_members fuel d ((concat_with "," (map render_member l) +:+ "}") +:+ rest) = Some (l, rest).
Proof.
  intros Hne HP Hwf. induction HP as [|[k x] l Hx HP IH]; [done|]. clear Hne.
  apply Forall_cons in Hwf as [[Hwk Hwx] Hwf]. intros fuel d rest Hf Hd. cbn [foldr snd] in Hd.
  cbn [fst snd] in Hwk, Hwx, Hx.
  pose proof (render_member_length k x) as Hlen.
  destruct l as [|y l].
  - cbn [map concat_with] in Hf |- *. rw str_length_app in Hf. cbn [String.length] in Hf.
    destruct fuel as [|f]; [lia|]. rw str_app_assoc parse_member; [done|done|done|done|lia|lia|done].
  - remember (render_member (k, x)) as m eqn:Hm.
    assert (Hcons : concat_with "," (map render_member ((k, x) :: y :: l))
                    = m +:+ "," +:+ concat_with "," (map render_member (y :: l))) by (by subst m).
    rw Hcons in Hf |- *. clear Hcons. rw list_text_cons.
    assert (Hlf : (2 * String.length m + 2
      + 2 * String.length (concat_with "," (map render_member (y :: l)) +:+ "}") <= fuel)%nat).
    { rw !str_length_app in Hf |- *. cbn [String.length] in Hf |- *. lia. }
    destruct fuel as [|f]; [lia|]. subst m.
    rw parse_member; [|done|done|done|lia|lia|done]. rw skip_ws_char; [|done]. cbn iota.
    change (is_char 44 (byte_chr 44)) with true. cbn iota. rw IH; [done|done|done|lia|lia].
Qed.

(** A list of members without repeated keys is the map it builds. *)
Lemma obj_set_fresh k v l : k ∉ map fst l -> obj_set k v l = l ++ [(k, v)].
Proof.
  induction l as [|[k' v'] l IH]; cbn; [done|]. intros H%not_elem_of_cons.
  destruct (decide (k = k')); [tauto|]. cbn. rw IH; [done|tauto].
Qed.

Lemma obj_of_members_nodup l : NoDup (map fst l) -> obj_of_members l = l.
Proof.
  unfold obj_of_members.
  assert (H : forall acc, NoDup (map fst (acc ++ l)) ->
             foldl (fun acc kv => obj_set kv.1 kv.2 acc) acc l = acc ++ l).
  { induction l as [|[k v] l IH]; intros acc Hnd; cbn; [by rw app_nil_r|].
    rw obj_set_fresh; last first.
    - rw map_app in Hnd. apply NoDup_app in Hnd as (_ & Hd & _). intros Hk.
      apply (Hd k Hk). left.
    - rw IH; [by rw -app_assoc|by rw -app_assoc]. }
  intros Hnd. by apply (H []).
Qed.

(** The first character of a printed list is the first one of its head. *)
Lemma concat_head sep x l c t :
  x = String c t -> exists t', concat_with sep (x :: l) = String c t'.
Proof. intros ->. destruct l; cbn; [by eexists|]. rw str_cons_app. by eexists. Qed.

Lemma render_head v :
  json_wf v = true ->
  exists c t, render v = String c t /\ is_ws c = false /\ is_char 93 c = false.
Proof.
  destruct v as [|[]|lit|s|l|l]; intros Hwf; try (eexists _, _; split_and!; reflexivity).
  destruct (valid_number_head lit Hwf) as (c & t & -> & Hc). exists c, t.
  split_and!; [done| |]; unfold is_ws, is_char; lia.
Qed.

Lemma max_fold_nonneg {A} (f : A -> Z) l : 0 <= foldr (fun x n => Z.max (f x) n) 0 l.
Proof. induction l; cbn; lia. Qed.

Lemma parses_arr l :
  Forall parses l -> Forall (fun v => json_wf v = true) l -> parses (JArr l).
Proof.
  intros HP Hw fuel d rest Hf Hd Hr. cbn [nesting render] in Hd, Hf |- *.
  pose proof (max_fold_nonneg nesting l) as Hnn.
  assert (Hmd : (maxNestingDepth <=? d) = false) by (apply Z.leb_gt; lia).
  rw !str_length_app in Hf. cbn [String.length] in Hf. destruct fuel as [|f]; [lia|].
  rw str_app_assoc str_cons_app str_app_nil_l. cbn [parse_value]. rw skip_ws_char; [|done].
  change (is_char 123 (byte_chr 91)) with false. change (is_char 91 (byte_chr 91)) with true.
  cbn iota. rw Hmd. destruct l as [|x l]; [reflexivity|].
  pose proof (parse_elems_render (x :: l) ltac:(done) HP Hw f (d + 1) rest) as Hp.
  apply Forall_cons in Hw as [Hx _].
  destruct (render_head x Hx) as (c & t & Hc & Hws & Hbr).
  destruct (concat_head "," (render x) (map render l) c t Hc) as [t' Ht'].
  cbn [map] in Hf, Hp |- *. rw Ht' !str_cons_app in Hp |- *.
  rw skip_ws_char; [|done]. rw Hbr. rw Hp; [done| |lia].
  rw Ht' in Hf. cbn [String.length] in Hf |- *. rw str_length_app. cbn [String.length]. lia.
Qed.

Lemma parses_obj l :
  Forall (fun kv => parses kv.2) l ->
  Forall (fun kv => utf8_valid kv.1 = true /\ json_wf kv.2 = true) l ->
  NoDup (map fst l) -> parses (JObj l).
Proof.
  intros HP Hw Hnd fuel d rest Hf Hd Hr. cbn [nesting render] in Hd, Hf |- *.
  pose proof (max_fold_nonneg (fun kv : string * json => nesting kv.2) l) as Hnn.
  assert (Hmd : (maxNestingDepth <=? d) = false) by (apply Z.leb_gt; lia).
  rw !str_length_app in Hf. cbn [String.length] in Hf. destruct fuel as [|f]; [lia|].
  rw str_app_assoc str_cons_app str_app_nil_l. cbn [parse_value]. rw skip_ws_char; [|done].
  change (is_char 123 (byte_chr 123)) with true. cbn iota. rw Hmd.
  destruct l as [|x l]; [reflexivity|].
  pose proof (parse_members_render (x :: l) ltac:(done) HP Hw f (d + 1) rest) as Hp.
  change (fun kv : string * json => quote kv.1 +:+ ":" +:+ render kv.2) with render_member in Hf |- *.
  destruct (concat_head "," (render_member x) (map render_member l) DQ
              ((quote_body x.1 +:+ String DQ "") +:+ ":" +:+ render x.2) eq_refl) as [t' Ht'].
  cbn [map] in Hf, Hp |- *. rw Ht' !str_cons_app in Hp |- *.
  rw skip_ws_char; [|done]. change (is_char 125 DQ) with false. cbn iota. rw Hp; [| |lia].
  - cbn [mbind option_bind]. by rw obj_of_members_nodup.
  - rw Ht' in Hf. cbn [String.length] in Hf |- *. rw str_length_app. cbn [String.length]. lia.
Qed.

Lemma forallb_Forall {A} (f : A -> bool) l : forallb f l = true <-> Forall (fun x => f x = true) l.
Proof.
  rw forallb_forall Forall_forall. split; intros H x Hx; apply H; by apply list_elem_of_In.
Qed.

Lemma parses_wf v : json_wf v = true -> parses v.
Proof.
  induction v as [|[]|lit|s|l IH|l IH] using json_ind'; intros Hwf.
  1-3: intros [|f] d rest Hf Hd Hr; [cbn in Hf; lia|]; reflexivity.
  - by apply parse_number_literal.
  - intros [|f] d rest Hf Hd Hr; [cbn in Hf; lia|]. cbn [render] in *. unfold quote in *.
    rw str_cons_app. cbn [parse_value]. rw skip_ws_char; [|done].
    change (is_char 34 DQ) with true. change (is_char 123 DQ) with false.
    change (is_char 91 DQ) with false. cbn iota. by rw parse_quoted.
  - cbn [json_wf] in Hwf. apply forallb_Forall in Hwf. apply parses_arr; [|done].
    rw Forall_forall in IH. rw Forall_forall in Hwf. apply Forall_forall. auto.
  - cbn [json_wf] in Hwf. apply andb_prop in Hwf as [Hwf Hnd%bool_decide_eq_true].
    apply forallb_Forall in Hwf.
    assert (Hw : Forall (fun kv => utf8_valid kv.1 = true /\ json_wf kv.2 = true) l).
    { eapply Forall_impl; [exact Hwf|]. intros kv. apply andb_prop. }
    apply parses_obj; [|done..].
    rw Forall_forall in IH. rw Forall_forall in Hw. apply Forall_forall. intros kv Hkv.
    apply IH; [done|]. by apply Hw.
Qed.

(** Decoding what [Marshal] printed gives the value back. *)
Lemma decode_render v :
  json_wf v = true -> nesting v <= maxNestingDepth -> decode (render v) = Some v.
Proof.
  intros Hwf Hn. unfold decode. rw -{2}(str_app_nil_r (render v)).
  by rw (parses_wf v Hwf); [|lia|lia|].
Qed.

(** So printing is injective. *)
Lemma render_inj v w :
  json_wf v = true -> json_wf w = true ->
  nesting v <= maxNestingDepth -> nesting w <= maxNestingDepth ->
  render v = render w -> v = w.
Proof.
  intros Hv Hw Hnv Hnw H. apply (f_equal decode) in H. rw !decode_render in H; [|done..].
  by injection H.
Qed.
