(* ===== verification/JsonText.v ===== *)
(** Text that is not UTF-8, and what a decoder can answer.

    encoding/json replaces every byte that starts no rune, when it prints and when
    it reads: [to_valid] is that text.  [decode_render_any] is the round trip of a value
    whose strings are arbitrary; [decode_wf] says that whatever is decoded has
    valid text, valid numbers, no repeated key and bounded nesting. *)
From S2P Require Import Prelude Json JsonFacts.
Local Open Scope Z_scope.

(** * Runes *)

(** A rune, whatever follows it. *)
Definition is_rune (a : string) : Prop := a <> "" /\ forall t, rune_len (a +:+ t) = String.length a.

Fixpoint to_valid (s : string) : string :=
  match s with
  | EmptyString => ""
  | String c0 s1 =>
      match rune_len s with
      | 1%nat => String c0 (to_valid s1)
      | 2%nat => match s1 with String c1 s2 => String c0 (String c1 (to_valid s2)) | _ => "" end
      | 3%nat => match s1 with
             | String c1 (String c2 s3) => String c0 (String c1 (String c2 (to_valid s3)))
             | _ => "" end
      | 4%nat => match s1 with
             | String c1 (String c2 (String c3 s4)) => String c0 (String c1 (String c2 (String c3 (to_valid s4))))
             | _ => "" end
      | _ => RuneError +:+ to_valid s1
      end
  end.

Lemma rune_short a : is_rune a ->
  exists c0, a = String c0 "" \/ exists c1, a = String c0 (String c1 "")
    \/ exists c2, a = String c0 (String c1 (String c2 "")) \/ exists c3, a = String c0 (String c1 (String c2 (String c3 ""))).
Proof.
  intros [Hne Hr]. specialize (Hr ""). rw str_app_nil_r in Hr. pose proof (rune_len_le a) as Hle. rw Hr in Hle.
  destruct a as [|c0 [|c1 [|c2 [|c3 [|]]]]]; [done|..|cbn in Hle; lia]; exists c0; [by left|right; exists c1..].
  - by left.
  - right. exists c2. by left.
  - right. exists c2. right. by exists c3.
Qed.
(** Case analysis on a rune at the head of a text. *)
Ltac rune_cases H :=
  let Hr := fresh "Hr" in pose proof (proj2 H) as Hr;
  let c0 := fresh "c0" in let c1 := fresh "c1" in let c2 := fresh "c2" in let c3 := fresh "c3" in
  destruct (rune_short _ H) as (c0 & [-> |(c1 & [-> |(c2 & [-> |(c3 & ->)])])]).

Lemma to_valid_rune a t : is_rune a -> to_valid (a +:+ t) = a +:+ to_valid t.
Proof. intros H. rune_cases H; specialize (Hr t); rw !str_cons_app str_app_nil_l in Hr |- *; cbn [to_valid]; by rw Hr. Qed.
Lemma utf8_valid_rune a t : is_rune a -> utf8_valid (a +:+ t) = utf8_valid t.
Proof. intros H. rune_cases H; specialize (Hr t); rw !str_cons_app str_app_nil_l in Hr |- *; cbn [utf8_valid]; by rw Hr. Qed.
Lemma is_rune_len e : e <> "" -> rune_len e = String.length e -> is_rune e.
Proof.
  intros Hne Hl. split; [done|]. destruct e as [|c e]; [done|]. destruct (rune_len_split _ _ Hl) as (a & t & E & La & Hr).
  assert (t = "") as ->.
  { apply (f_equal String.length) in E. rw str_length_app in E. change (S _) with (String.length (String c e)) in La.
    destruct t as [|x t]; [done|]. assert (Hx : String.length (String x t) = S (String.length t)) by done. lia. }
  rw str_app_nil_r in E. rw E La. exact Hr.
Qed.
Lemma RuneError_rune : is_rune RuneError.
Proof. by apply is_rune_len. Qed.

(** A text is built from runes and stray bytes. *)
Lemma text_ind (P : string -> Prop) :
  P "" -> (forall c s, rune_len (String c s) = 0%nat -> P s -> P (String c s)) ->
  (forall a t, is_rune a -> P t -> P (a +:+ t)) -> forall s, P s.
Proof.
  intros H0 H1 H2 s. remember (String.length s) as n eqn:Hn. revert s Hn. induction n as [n IH] using lt_wf_ind.
  intros [|c s] Hn; [done|]. destruct (rune_len (String c s)) as [|m] eqn:E.
  - apply H1; [done|]. apply (IH (String.length s)); [|done]. cbn in Hn. lia.
  - destruct (rune_len_split _ _ E) as (a & t & Ha & La & Hr). rw Ha.
    assert (Hl : String.length (String c s) = (S m + String.length t)%nat) by (by rw Ha str_length_app La).
    apply H2; [split; [by intros ->|intros t'; by rw Hr La]|]. apply (IH (String.length t)); [lia|done].
Qed.

Lemma to_valid_stray c s : rune_len (String c s) = 0%nat -> to_valid (String c s) = RuneError +:+ to_valid s.
Proof. intros E. cbn [to_valid]. by rw E. Qed.
Lemma to_valid_utf8 s : utf8_valid (to_valid s) = true.
Proof.
  induction s as [|c s E IH|a t Ha IH] using text_ind; [done|..].
  - by rw to_valid_stray // utf8_valid_rune.
  - by rw to_valid_rune // utf8_valid_rune.
Qed.
Lemma to_valid_id s : utf8_valid s = true -> to_valid s = s.
Proof.
  induction s as [|c s E IH|a t Ha IH] using text_ind; [done|..].
  - cbn [utf8_valid]. by rw E.
  - rw utf8_valid_rune // to_valid_rune //. by intros ->%IH.
Qed.

Lemma parse_str_text s f r :
  (String.length (quote_body s) < f)%nat -> parse_str f (quote_body s +:+ String DQ r) = Some (to_valid s, r).
Proof.
  revert f. induction s as [|c s E IH|a t Ha IH] using text_ind; intros f.
  - intros Hf. by destruct f; [cbn in Hf; lia|].
  - rw to_valid_stray //. cbn [quote_body]. rw E. destruct f as [|f]; [cbn; lia|]. intros Hf. cbn in Hf.
    rw str_length_app in Hf. assert (Hb : (String.length (quote_body s) < f)%nat) by lia.
    specialize (IH f Hb).
    transitivity ('(x, t) ← parse_str f (quote_body s +:+ String DQ r); Some (RuneError +:+ x, t)); [done|by rw IH].
  - destruct Ha as [Hne Hr]. destruct (quote_body_rune a Hne Hr) as (q & Hq & Hlq & Hp). rw Hq str_length_app to_valid_rune //.
    destruct f as [|f]; [lia|]. intros Hf. rw str_app_assoc Hp IH; [done|lia].
Qed.

(** * Decoding a printed value *)

(** A Go value that Marshal accepts, its strings arbitrary: valid literals, no repeated key. *)
Fixpoint json_ok (v : json) : bool :=
  match v with
  | JNum lit => valid_number lit
  | JArr l => forallb json_ok l
  | JObj l => forallb (fun kv => utf8_valid kv.1 && json_ok kv.2) l && bool_decide (NoDup (map fst l))
  | _ => true
  end.
Fixpoint sane (v : json) : json :=
  match v with
  | JStr s => JStr (to_valid s)
  | JArr l => JArr (map sane l)
  | JObj l => JObj (map (fun kv => (kv.1, sane kv.2)) l)
  | v => v
  end.

Definition reads (v w : json) : Prop :=
  forall fuel d rest, (2 * String.length (render v) <= fuel)%nat -> d + nesting v <= maxNestingDepth ->
    ends_number rest = true -> parse_value fuel d (render v +:+ rest) = Some (w, rest).

(** A printed value does not start with white space or a closing bracket. *)
Definition begins (v : json) : Prop := exists c t, render v = String c t /\ is_ws c = false /\ is_char 93 c = false.
Lemma ok_begins v : json_ok v = true -> begins v.
Proof.
  destruct v as [|[]|lit|s|l|l]; intros Hwf; try (eexists _, _; split_and!; reflexivity).
  destruct (valid_number_head lit Hwf) as (c & t & -> & Hc). exists c, t.
  split_and!; [done| |]; unfold is_ws, is_char; lia.
Qed.
Lemma begins_length v : begins v -> (1 <= String.length (render v))%nat.
Proof. intros (c & t & -> & _). cbn. lia. Qed.

Lemma concat_cons sep x y l : concat_with sep (x :: y :: l) = x +:+ sep +:+ concat_with sep (y :: l).
Proof. done. Qed.
Lemma reads_elems l m :
  l <> [] -> Forall2 reads l m -> Forall begins l ->
  forall fuel d rest,
    (2 * String.length (concat_with "," (map render l) +:+ "]") <= fuel)%nat ->
    d + foldr (fun x n => Z.max (nesting x) n) 0 l <= maxNestingDepth ->
    parse_elems fuel d ((concat_with "," (map render l) +:+ "]") +:+ rest) = Some (m, rest).
Proof.
  intros Hne HP Hb. induction HP as [|x y l m Hx HP IH]; [done|]. clear Hne.
  apply Forall_cons in Hb as [Hbx Hb]. intros fuel d rest Hf Hd. cbn [foldr] in Hd.
  pose proof (begins_length x Hbx) as Hlx. destruct fuel as [|f].
  { rw str_length_app in Hf. cbn in Hf. lia. }
  destruct HP as [|x' y' l m Hx' HP].
  - cbn [map concat_with] in Hf |- *. rw str_length_app in Hf. cbn [String.length] in Hf.
    cbn [parse_elems]. rw str_app_assoc (Hx f d); [done|lia|lia|done].
  - cbn [map] in Hf, IH |- *. rw concat_cons list_text_cons. rw concat_cons !str_length_app in Hf. cbn [String.length] in Hf.
    cbn [parse_elems]. rw (Hx f d); [|lia|lia|done]. cbn [mbind option_bind]. rw skip_ws_char; [|done]. cbn iota.
    change (is_char 44 (byte_chr 44)) with true. cbn iota.
    rw (IH ltac:(done) Hb f d rest); [done| |lia]. rw !str_length_app. cbn [String.length]. lia.
Qed.

Lemma reads_members l m :
  l <> [] -> Forall2 (fun kv kw => kw.1 = kv.1 /\ utf8_valid kv.1 = true /\ reads kv.2 kw.2) l m ->
  forall fuel d rest,
    (2 * String.length (concat_with "," (map render_member l) +:+ "}") <= fuel)%nat ->
    d + foldr (fun kv n => Z.max (nesting kv.2) n) 0 l <= maxNestingDepth ->
    parse_members fuel d ((concat_with "," (map render_member l) +:+ "}") +:+ rest) = Some (m, rest).
Proof.
  intros Hne HP. induction HP as [|[k x] [k' y] l m (Hk & Hv & Hx) HP IH]; [done|]. clear Hne. cbn [fst snd] in Hk, Hv, Hx. subst k'.
  intros fuel d rest Hf Hd. cbn [foldr snd] in Hd. pose proof (render_member_length k x) as Hlen.
  assert (Hm : forall f rest, (2 * String.length (render x) <= f)%nat -> ends_number rest = true ->
    parse_members (S f) d (render_member (k, x) +:+ rest)
    = match skip_ws rest with
      | String c t =>
          if is_char 44 c then '(l, r'') ← parse_members f d t; Some ((k, y) :: l, r'')
          else if is_char 125 c then Some ([(k, y)], t) else None
      | EmptyString => None
      end).
  { clear - Hx Hv Hd. intros f rest Hf Hr. unfold render_member, quote. cbn [fst snd].
    rw str_app_assoc str_cons_app. cbn [parse_members]. rw skip_ws_char; [|done].
    change (is_char 34 DQ) with true. cbn iota. rw parse_quoted; [|done]. cbn [mbind option_bind].
    rw str_app_assoc str_cons_app. rw skip_ws_char; [|done]. cbn iota. rw str_app_nil_l.
    change (is_char 58 (byte_chr 58)) with true. cbn iota. by rw Hx; [|lia|lia|]. }
  destruct HP as [|[k2 x2] [k2' y2] l m H2 HP].
  - cbn [map concat_with] in Hf |- *. rw str_length_app in Hf. cbn [String.length] in Hf.
    destruct fuel as [|f]; [lia|]. rw str_app_assoc Hm; [done|lia|done].
  - cbn [map] in Hf, IH |- *. rw concat_cons list_text_cons. rw concat_cons !str_length_app in Hf. cbn [String.length fst snd] in Hf.
    destruct fuel as [|f]; [lia|]. rw Hm; [|lia|done]. rw skip_ws_char; [|done]. cbn iota.
    change (is_char 44 (byte_chr 44)) with true. cbn iota.
    rw (IH ltac:(done) f d rest); [done| |lia]. rw !str_length_app. cbn [String.length]. lia.
Qed.

Lemma reads_arr l m : Forall2 reads l m -> Forall begins l -> reads (JArr l) (JArr m).
Proof.
  intros HP Hb fuel d rest Hf Hd Hr. cbn [nesting render] in Hd, Hf |- *.
  pose proof (max_fold_nonneg nesting l) as Hnn.
  assert (Hmd : (maxNestingDepth <=? d) = false) by (apply Z.leb_gt; lia).
  rw !str_length_app in Hf. cbn [String.length] in Hf. destruct fuel as [|f]; [lia|].
  rw str_app_assoc str_cons_app str_app_nil_l. cbn [parse_value]. rw skip_ws_char; [|done].
  change (is_char 123 (byte_chr 91)) with false. change (is_char 91 (byte_chr 91)) with true.
  cbn iota. rw Hmd. destruct l as [|x l]; [by inversion HP|].
  pose proof (reads_elems (x :: l) m ltac:(done) HP Hb f (d + 1) rest) as Hp.
  apply Forall_cons in Hb as [(c & t & Hc & Hws & Hbr) _].
  destruct (concat_head "," (render x) (map render l) c t Hc) as [t' Ht'].
  cbn [map] in Hf, Hp |- *. rw Ht' !str_cons_app in Hp |- *.
  rw skip_ws_char; [|done]. rw Hbr. rw Hp; [done| |lia].
  rw Ht' in Hf. cbn [String.length] in Hf |- *. rw str_length_app. cbn [String.length]. lia.
Qed.

Lemma reads_obj l m :
  Forall2 (fun kv kw => kw.1 = kv.1 /\ utf8_valid kv.1 = true /\ reads kv.2 kw.2) l m -> NoDup (map fst l) ->
  reads (JObj l) (JObj m).
Proof.
  intros HP Hnd fuel d rest Hf Hd Hr. cbn [nesting render] in Hd, Hf |- *.
  pose proof (max_fold_nonneg (fun kv : string * json => nesting kv.2) l) as Hnn.
  assert (Hmd : (maxNestingDepth <=? d) = false) by (apply Z.leb_gt; lia).
  assert (Hm : NoDup (map fst m)).
  { assert (E : map fst m = map fst l) by (clear - HP; induction HP as [|kv kw l m (E & _) _ IH]; cbn; [done|by rw E IH]).
    by rw E. }
  rw !str_length_app in Hf. cbn [String.length] in Hf. destruct fuel as [|f]; [lia|].
  rw str_app_assoc str_cons_app str_app_nil_l. cbn [parse_value]. rw skip_ws_char; [|done].
  change (is_char 123 (byte_chr 123)) with true. cbn iota. rw Hmd.
  destruct l as [|x l]; [by inversion HP|].
  pose proof (reads_members (x :: l) m ltac:(done) HP f (d + 1) rest) as Hp.
  change (fun kv : string * json => quote kv.1 +:+ ":" +:+ render kv.2) with render_member in Hf |- *.
  destruct (concat_head "," (render_member x) (map render_member l) DQ
              ((quote_body x.1 +:+ String DQ "") +:+ ":" +:+ render x.2) eq_refl) as [t' Ht'].
  cbn [map] in Hf, Hp |- *. rw Ht' !str_cons_app in Hp |- *.
  rw skip_ws_char; [|done]. change (is_char 125 DQ) with false. cbn iota. rw Hp; [| |lia].
  - cbn [mbind option_bind]. by rw obj_of_members_nodup.
  - rw Ht' in Hf. cbn [String.length] in Hf |- *. rw str_length_app. cbn [String.length]. lia.
Qed.

Lemma reads_sane v : json_ok v = true -> reads v (sane v).
Proof.
  induction v as [|[]|lit|s|l IH|l IH] using json_ind'; intros Hok.
  1-3: intros [|f] d rest Hf Hd Hr; [cbn in Hf; lia|]; reflexivity.
  - by apply parse_number_literal.
  - intros [|f] d rest Hf Hd Hr; [cbn in Hf; lia|]. cbn [render sane] in *. unfold quote in *.
    rw str_cons_app. cbn [parse_value]. rw skip_ws_char; [|done].
    change (is_char 34 DQ) with true. change (is_char 123 DQ) with false. change (is_char 91 DQ) with false. cbn iota.
    rw str_app_assoc str_cons_app str_app_nil_l parse_str_text; [done|]. rw str_length_app. lia.
  - cbn [json_ok] in Hok. apply forallb_Forall in Hok. apply reads_arr.
    + induction IH as [|x l Hx _ IHl]; [constructor|]. apply Forall_cons in Hok as [Hox Hok]. constructor; auto.
    + eapply Forall_impl; [exact Hok|]. apply ok_begins.
  - cbn [json_ok] in Hok. apply andb_prop in Hok as [Hok Hnd%bool_decide_eq_true]. apply forallb_Forall in Hok.
    apply reads_obj; [|done]. clear Hnd.
    induction IH as [|x l Hx _ IHl]; [constructor|]. apply Forall_cons in Hok as [[Hk Hox]%andb_prop Hok]. constructor; auto.
Qed.
(** Decoding what Marshal printed. *)
Lemma decode_render_any v : json_ok v = true -> nesting v <= maxNestingDepth -> decode (render v) = Some (sane v).
Proof.
  intros Hok Hn. unfold decode. rw -{2}(str_app_nil_r (render v)). by rw (reads_sane v Hok); [|lia|lia|].
Qed.
Lemma ok_numbers v : json_ok v = true -> numbers_ok v = true.
Proof.
  induction v as [|[]|lit|s|l IH|l IH] using json_ind'; try done; cbn.
  - intros H%forallb_Forall. apply forallb_Forall. rw Forall_forall in IH. rw Forall_forall in H. apply Forall_forall. auto.
  - intros [H%forallb_Forall _]%andb_prop. apply forallb_Forall. rw Forall_forall in IH. rw Forall_forall in H.
    apply Forall_forall. intros kv Hkv. apply IH; [done|]. by apply H in Hkv as [_ ?]%andb_prop.
Qed.

(** * What a decoder answers *)

Lemma lor_add k x n : 0 <= n -> 0 <= x < 2 ^ n -> Z.lor (k * 2 ^ n) x = k * 2 ^ n + x.
Proof.
  intros Hn Hx. pose proof (Z.add_lor_land (k * 2 ^ n) x) as E. enough (Z.land (k * 2 ^ n) x = 0) by lia. clear E.
  apply Z.bits_inj'. intros i Hi. rw Z.land_spec Z.bits_0. destruct (Z.lt_ge_cases i n).
  - by rw Z.mul_pow2_bits_low.
  - rw -(Z.mod_small x (2 ^ n)) // Z.mod_pow2_bits_high; [|lia]. apply andb_false_r.
Qed.
Lemma cont_byte x : Z.lor 0x80 (Z.land x 63) = 128 + x mod 64.
Proof.
  change 63 with (Z.ones 6). rw Z.land_ones; [|lia]. change 0x80 with (2 * 2 ^ 6). rw lor_add; [done|lia|].
  apply Z.mod_pos_bound. lia.
Qed.
Lemma in_range_chr lo hi z : 0 <= z < 256 -> in_range lo hi (byte_chr z) = (lo <=? z) && (z <=? hi).
Proof. intros Hz. unfold in_range. by rw byte_val_chr. Qed.

Lemma rune_text b0 s : is_rune (String (byte_chr b0) s) <-> rune_len (String (byte_chr b0) s) = S (String.length s).
Proof. split; [intros [_ H]; specialize (H ""); by rw str_app_nil_r in H|intros H; by apply is_rune_len]. Qed.

(** The comparisons of a goal, decided. *)
Ltac decide_ranges := repeat match goal with
  | |- context [?a <=? ?b] => first [rw (proj2 (Z.leb_le a b)); [|lia] | rw (proj2 (Z.leb_gt a b)); [|lia]]
  | |- context [?a =? ?b] => first [rw (proj2 (Z.eqb_eq a b)); [|lia] | rw (proj2 (Z.eqb_neq a b)); [|lia]]
  end.
Lemma rune1 b0 : 0 <= b0 < 128 -> is_rune (bytes_str [b0]).
Proof. intros H. apply rune_text. cbn [rune_len bytes_str]. rw in_range_chr; [|lia]. by decide_ranges. Qed.
Lemma rune2 b0 b1 : 0xC2 <= b0 <= 0xDF -> 128 <= b1 < 192 -> is_rune (bytes_str [b0; b1]).
Proof.
  intros H0 H1. apply rune_text. cbn [rune_len bytes_str]. unfold is_cont. rw !in_range_chr; [|lia..]. by decide_ranges.
Qed.
Lemma rune3 b0 b1 b2 : 0xE0 <= b0 <= 0xEF -> 128 <= b1 < 192 -> 128 <= b2 < 192 ->
  (b0 = 0xE0 -> 0xA0 <= b1) -> (b0 = 0xED -> b1 <= 0x9F) -> is_rune (bytes_str [b0; b1; b2]).
Proof.
  intros H0 H1 H2 Ha Hd. apply rune_text. cbn [rune_len bytes_str]. unfold is_cont. rw !byte_val_chr; [|lia..].
  rw !in_range_chr; [|lia..]. destruct (Z.eqb_spec b0 0xE0), (Z.eqb_spec b0 0xED); cbn iota; first [exfalso; lia|by decide_ranges].
Qed.
Lemma rune4 b0 b1 b2 b3 : 0xF0 <= b0 <= 0xF4 -> 128 <= b1 < 192 -> 128 <= b2 < 192 -> 128 <= b3 < 192 ->
  (b0 = 0xF0 -> 0x90 <= b1) -> (b0 = 0xF4 -> b1 <= 0x8F) -> is_rune (bytes_str [b0; b1; b2; b3]).
Proof.
  intros H0 H1 H2 H3 Ha Hd. apply rune_text. cbn [rune_len bytes_str]. unfold is_cont. rw !byte_val_chr; [|lia..].
  rw !in_range_chr; [|lia..]. destruct (Z.eqb_spec b0 0xF0), (Z.eqb_spec b0 0xF4); cbn iota; first [exfalso; lia|by decide_ranges].
Qed.
Lemma encode_rune_rune r : 0 <= r < 0x110000 -> is_surrogate r = false -> is_rune (encode_rune r).
Proof.
  intros Hr Hs. assert (Hs' : r < 0xD800 \/ 0xE000 <= r) by (unfold is_surrogate in Hs; lia). clear Hs.
  unfold encode_rune. rw !cont_byte !Z.shiftr_div_pow2; [|lia..].
  change 0xC0 with (3 * 2 ^ 6). change 0xE0 with (14 * 2 ^ 4). change 0xF0 with (15 * 2 ^ 4).
  destruct (Z.ltb_spec r 0x80); [|destruct (Z.ltb_spec r 0x800); [|destruct (Z.ltb_spec r 0x10000)]].
  - apply rune1; lia.
  - rw lor_add; [|lia|dlia]. apply rune2; dlia.
  - rw lor_add; [|lia|dlia]. apply rune3; dlia.
  - rw lor_add; [|lia|dlia]. apply rune4; dlia.
Qed.

Lemma hex_val_range c z : hex_val c = Some z -> 0 <= z < 16.
Proof. unfold hex_val, is_digit, in_range. intros H. repeat case_match; simplify_eq; lia. Qed.
Lemma hex4_range s h t : hex4 s = Some (h, t) -> 0 <= h < 65536.
Proof.
  unfold hex4. destruct s as [|a [|b [|c [|d s]]]]; try done. intros H.
  destruct (hex_val a) eqn:A, (hex_val b) eqn:B, (hex_val c) eqn:C, (hex_val d) eqn:D; cbn in H; simplify_eq.
  apply hex_val_range in A, B, C, D. lia.
Qed.
Lemma unicode_escape_rune h s r t : 0 <= h < 65536 -> unicode_escape h s = (r, t) -> is_rune (encode_rune r).
Proof.
  intros Hh. unfold unicode_escape. destruct (is_surrogate h) eqn:E; [|intros [= <- <-]; apply encode_rune_rune; [lia|done]].
  assert (He : is_rune (encode_rune 0xFFFD)) by (by apply encode_rune_rune).
  destruct s as [|a [|b s]]; try by intros [= <- <-].
  destruct (is_char 92 a && is_char 117 b); [|by intros [= <- <-]].
  destruct (hex4 s) as [[l t']|] eqn:Hl; [|by intros [= <- <-]]. apply hex4_range in Hl.
  destruct ((h <? 0xDC00) && (0xDC00 <=? l) && (l <? 0xE000)) eqn:F; [|by intros [= <- <-]].
  intros [= <- <-]. unfold is_surrogate in E. apply encode_rune_rune; [lia|unfold is_surrogate; lia].
Qed.
Lemma ascii_is_rune z : 0 <= z < 128 -> is_rune (String (byte_chr z) "").
Proof. apply rune1. Qed.

Lemma parse_str_valid f s x r : parse_str f s = Some (x, r) -> utf8_valid x = true.
Proof.
  revert s x r. induction f as [|f IH]; intros [|c s] x r; cbn [parse_str]; try done.
  destruct (is_char 34 c); [by intros [= <- <-]|]. destruct (is_char 92 c).
  - destruct s as [|e s]; [done|]. destruct (simple_escape e) as [z|] eqn:Ez.
    + intros ([y t] & Hy & [= <- <-])%bind_Some. rw -(str_app_nil_l y) -str_cons_app utf8_valid_rune; [by eapply IH|].
      apply ascii_is_rune. unfold simple_escape in Ez. pose proof (byte_val_range e). repeat case_match; simplify_eq; lia.
    + destruct (is_char 117 e); [|done]. intros ([h s3] & Hh & H)%bind_Some.
      destruct (unicode_escape h s3) as [rune s4] eqn:Hu. apply bind_Some in H as ([y t] & Hy & [= <- <-]).
      rw utf8_valid_rune; [by eapply IH|]. apply hex4_range in Hh. by eapply unicode_escape_rune.
  - destruct (byte_val c <? 32); [done|]. destruct (rune_len (String c s)) as [|n] eqn:En.
    + intros ([y t] & Hy & [= <- <-])%bind_Some. rw utf8_valid_rune; [by eapply IH|]. apply RuneError_rune.
    + destruct (rune_len_split _ _ En) as (a & t0 & Ha & La & Hr). rw Ha -La str_split_app.
      intros ([y t] & Hy & [= <- <-])%bind_Some. rw utf8_valid_rune; [by eapply IH|].
      split; [by intros ->|]. intros t1. by rw Hr La.
Qed.

(** ** A scanned number is valid *)

Definition digits_stop (y : string) : Prop := match y with String c _ => is_digit c = false | EmptyString => True end.
Lemma digit_not z c : is_char z c = true -> (z < 48 \/ 57 < z) -> is_digit c = false.
Proof. unfold is_char, is_digit, in_range. intros ? ?. lia. Qed.

Lemma scan_int_again s i r y : scan_int s = Some (i, r) -> digits_stop y -> i <> "" /\ scan_int (i +:+ y) = Some (i, y).
Proof.
  destruct s as [|c s]; [done|]. cbn [scan_int]. destruct (is_char 48 c) eqn:E0.
  { intros [= <- <-] _. split; [done|]. rw str_cons_app str_app_nil_l. cbn [scan_int]. by rw E0. }
  destruct (is_digit c) eqn:Ed; [|done]. cbn [scan_digits]. rw Ed. destruct (scan_digits s) as [d t] eqn:E. intros [= <- <-] Hy.
  apply scan_digits_spec in E as (_ & Hd & _). split; [done|]. rw !str_cons_app. cbn [scan_int]. rw E0 Ed. cbn [scan_digits]. by rw Ed scan_digits_app.
Qed.
Lemma scan_frac_again s f r y : scan_frac s = Some (f, r) -> digits_stop y ->
  match y with String c _ => is_char 46 c = false | EmptyString => True end ->
  digits_stop (f +:+ y) /\ scan_frac (f +:+ y) = Some (f, y).
Proof.
  destruct s as [|c s]; cbn [scan_frac].
  { intros [= <- <-] Hy Hd. rw str_app_nil_l. split; [done|]. destruct y as [|c y]; [done|]. cbn [scan_frac]. by rw Hd. }
  destruct (is_char 46 c) eqn:E.
  - destruct (scan_digits s) as [d t] eqn:Es. destruct d as [|x d]; [done|]. intros [= <- <-] Hy _.
    apply scan_digits_spec in Es as (_ & Hd & _). split; [apply (digit_not 46); [done|lia]|].
    rw str_cons_app. cbn [scan_frac]. by rw E scan_digits_app.
  - intros [= <- <-] Hy Hd. rw str_app_nil_l. split; [done|]. destruct y as [|x y]; [done|]. cbn [scan_frac]. by rw Hd.
Qed.
Lemma scan_exp_again s e r : scan_exp s = Some (e, r) ->
  digits_stop e /\ match e with String c _ => is_char 46 c = false | EmptyString => True end /\ scan_exp e = Some (e, "").
Proof.
  destruct s as [|c s]; cbn [scan_exp]; [by intros [= <- <-]|].
  destruct (is_char 101 c || is_char 69 c) eqn:E; [|by intros [= <- <-]].
  assert (Hc : is_digit c = false /\ is_char 46 c = false).
  { unfold is_char, is_digit, in_range in *. lia. }
  destruct s as [|x s]; [done|]. destruct (is_char 43 x || is_char 45 x) eqn:Ex.
  - destruct (scan_digits s) as [d t] eqn:Es. destruct d as [|z d]; [done|]. intros [= <- <-].
    apply scan_digits_spec in Es as (_ & Hd & _). split_and!; [apply Hc|apply Hc|].
    cbn [scan_exp]. rw E str_cons_app str_app_nil_l Ex. pose proof (scan_digits_app (String z d) "" Hd I) as Hs.
    rw str_app_nil_r in Hs. by rw Hs.
  - destruct (scan_digits (String x s)) as [d t] eqn:Es. destruct d as [|z d]; [done|]. intros [= <- <-].
    pose proof (scan_digits_spec _ _ _ Es) as (Hxs & Hd & _). rw str_app_nil_l. split_and!; [apply Hc|apply Hc|].
    rw str_cons_app in Hxs. injection Hxs as <- _. cbn [scan_exp]. rw E Ex.
    pose proof (scan_digits_app (String x d) "" Hd I) as Hs. rw str_app_nil_r in Hs. by rw Hs.
Qed.
Lemma scan_number_valid s lit r : scan_number s = Some (lit, r) -> valid_number lit = true.
Proof.
  unfold scan_number. destruct (scan_sign s) as [sg s1] eqn:Es. intros ([i s2] & Hi & H)%bind_Some.
  apply bind_Some in H as ([f s3] & Hf & H). apply bind_Some in H as ([e s4] & He & [= <- <-]).
  destruct (scan_exp_again _ _ _ He) as (E1 & E2 & E3). destruct (scan_frac_again _ _ _ e Hf E1 E2) as (F1 & F2).
  destruct (scan_int_again _ _ _ (f +:+ e) Hi F1) as (I1 & I2).
  assert (Hs : scan_sign (sg +:+ i +:+ f +:+ e) = (sg, i +:+ f +:+ e)).
  { assert (Hi0 : forall c t, i = String c t -> is_char 45 c = false).
    { intros c t ->. destruct s1 as [|x s1]; [done|]. cbn [scan_int] in Hi. destruct (is_char 48 x) eqn:Ex.
      - injection Hi as <- _ _. unfold is_char in *. lia.
      - destruct (is_digit x) eqn:Ed; [|done]. cbn [scan_digits] in Hi. rw Ed in Hi. destruct (scan_digits s1). injection Hi as <- _ _.
        unfold is_char, is_digit, in_range in *. lia. }
    assert (Hsg : sg = "" \/ exists c, sg = String c "" /\ is_char 45 c = true).
    { destruct s as [|c s]; cbn in Es; [injection Es as <- _; by left|]. destruct (is_char 45 c) eqn:Ec; injection Es as <- _; [right; by exists c|by left]. }
    destruct Hsg as [-> |(c & -> & Hc)]; [|rw str_cons_app str_app_nil_l; cbn [scan_sign]; by rw Hc]. rw str_app_nil_l.
    destruct i as [|c i]; [done|]. rw str_cons_app. cbn [scan_sign]. by rw (Hi0 c i). }
  unfold valid_number, scan_number. rw Hs I2. cbn. rw F2. cbn. by rw E3.
Qed.

(** ** A decoded value is well formed *)

Lemma obj_set_in k v l kv : kv ∈ obj_set k v l -> kv = (k, v) \/ kv ∈ l.
Proof.
  induction l as [|[k' v'] l IH]; cbn; [by intros ->%list_elem_of_singleton; left|].
  destruct (decide (k = k')) as [->|Hne]; intros [->|H]%elem_of_cons; [by left|right; by right|right; by left|].
  destruct (IH H) as [->|?]; [by left|right; by right].
Qed.
Lemma obj_set_nodup k v l : NoDup (map fst l) -> NoDup (map fst (obj_set k v l)).
Proof.
  induction l as [|[k' v'] l IH]; cbn; [intros; constructor; [apply not_elem_of_nil|constructor]|].
  intros [Hk Hl]%NoDup_cons. destruct (decide (k = k')) as [->|Hne]; cbn; apply NoDup_cons; (split; [|auto]); [done|].
  intros ([k2 v2] & E & H)%list_elem_of_fmap. cbn in E. subst k2. apply obj_set_in in H as [[= -> _]|H]; [done|].
  apply Hk. by apply (list_elem_of_fmap_2 fst _ (k', v2)).
Qed.
Lemma obj_of_members_wf (P : string * json -> Prop) l :
  Forall P l -> Forall P (obj_of_members l) /\ NoDup (map fst (obj_of_members l)).
Proof.
  unfold obj_of_members. assert (H : forall acc, Forall P acc -> NoDup (map fst acc) -> Forall P l ->
    Forall P (foldl (fun acc kv => obj_set kv.1 kv.2 acc) acc l) /\ NoDup (map fst (foldl (fun acc kv => obj_set kv.1 kv.2 acc) acc l))).
  { induction l as [|[k v] l IH]; intros acc Ha Hn Hl; cbn; [done|]. apply Forall_cons in Hl as [Hkv Hl].
    apply IH; [|by apply obj_set_nodup|done]. rw Forall_forall in Ha. apply Forall_forall.
    intros x [->|Hx]%obj_set_in; [done|by apply Ha]. }
  intros Hl. apply H; [constructor|constructor|done].
Qed.

(** A value found at depth [d]. *)
Definition found_at (d : Z) (v : json) : Prop := json_wf v = true /\ d + nesting v <= maxNestingDepth.
Lemma max_fold_bound {A} (g : A -> Z) d l : d <= maxNestingDepth -> Forall (fun x => d + g x <= maxNestingDepth) l ->
  d + foldr (fun x n => Z.max (g x) n) 0 l <= maxNestingDepth.
Proof. intros Hd. induction 1; cbn; lia. Qed.
Lemma found_arr d l : d + 1 <= maxNestingDepth -> Forall (found_at (d + 1)) l -> found_at d (JArr l).
Proof.
  intros Hd Hl. split.
  - cbn [json_wf]. apply forallb_Forall. eapply Forall_impl; [exact Hl|]. by intros v [? _].
  - cbn [nesting]. rw Z.add_assoc. apply (max_fold_bound nesting); [done|]. eapply Forall_impl; [exact Hl|]. by intros v [_ ?].
Qed.
Definition member_at (d : Z) (kv : string * json) : Prop := utf8_valid kv.1 = true /\ found_at d kv.2.
Lemma found_obj d l : d + 1 <= maxNestingDepth -> Forall (member_at (d + 1)) l -> found_at d (JObj (obj_of_members l)).
Proof.
  intros Hd Hl. destruct (obj_of_members_wf _ l Hl) as [Hf Hn]. split.
  - cbn [json_wf]. rw bool_decide_eq_true_2 // andb_true_r. apply forallb_Forall. eapply Forall_impl; [exact Hf|].
    intros kv (? & ? & _). by apply andb_true_iff.
  - cbn [nesting]. rw Z.add_assoc. apply (max_fold_bound (fun kv : string * json => nesting kv.2)); [done|].
    eapply Forall_impl; [exact Hf|]. by intros kv (_ & _ & ?).
Qed.
Lemma expect_some lit v s x r : expect lit v s = Some (x, r) -> x = v.
Proof. unfold expect. destruct (str_split _ s). by case_decide; [intros [= -> _]|]. Qed.

Lemma parse_found f :
  (forall d s v r, d <= maxNestingDepth -> parse_value f d s = Some (v, r) -> found_at d v)
  /\ (forall d s l r, d <= maxNestingDepth -> parse_elems f d s = Some (l, r) -> Forall (found_at d) l)
  /\ (forall d s l r, d <= maxNestingDepth -> parse_members f d s = Some (l, r) -> Forall (member_at d) l).
Proof.
  induction f as [|f (IHv & IHe & IHm)]; [done|]. split_and!; intros d s.
  - intros v r Hd. cbn [parse_value]. destruct (skip_ws s) as [|c s1]; [done|].
    assert (Hleaf : forall w, json_wf w = true -> nesting w = 0 -> found_at d w) by (intros w ? Hn; split; [done|lia]).
    destruct (is_char 123 c); [|destruct (is_char 91 c); [|destruct (is_char 34 c)]].
    + destruct (Z.leb_spec maxNestingDepth d); [done|]. destruct (skip_ws s1) as [|c' t]; [done|].
      destruct (is_char 125 c'); [intros [= <- <-]; split; [done|cbn; lia]|].
      intros ([l r'] & Hl & [= <- <-])%bind_Some. apply found_obj; [lia|]. eapply IHm; [|exact Hl]. lia.
    + destruct (Z.leb_spec maxNestingDepth d); [done|]. destruct (skip_ws s1) as [|c' t]; [done|].
      destruct (is_char 93 c'); [intros [= <- <-]; split; [done|cbn; lia]|].
      intros ([l r'] & Hl & [= <- <-])%bind_Some. apply found_arr; [lia|]. eapply IHe; [|exact Hl]. lia.
    + intros ([x t] & Hx & [= <- <-])%bind_Some. apply Hleaf; [|done]. by eapply parse_str_valid.
    + destruct (is_char 110 c); [by intros ->%expect_some; apply Hleaf|].
      destruct (is_char 116 c); [by intros ->%expect_some; apply Hleaf|].
      destruct (is_char 102 c); [by intros ->%expect_some; apply Hleaf|].
      intros ([x t] & Hx & [= <- <-])%bind_Some. apply Hleaf; [|done]. by eapply scan_number_valid.
  - intros l r Hd. cbn [parse_elems]. intros ([x t] & Hx & H)%bind_Some. apply IHv in Hx; [|done].
    destruct (skip_ws t) as [|c t']; [done|]. destruct (is_char 44 c).
    + apply bind_Some in H as ([l' r'] & Hl & [= <- <-]). constructor; [done|]. by eapply IHe.
    + destruct (is_char 93 c); [|done]. injection H as <- _. by constructor.
  - intros l r Hd. cbn [parse_members]. destruct (skip_ws s) as [|q s1]; [done|]. destruct (is_char 34 q); [|done].
    intros ([k t] & Hk & H)%bind_Some. apply parse_str_valid in Hk. destruct (skip_ws t) as [|c t']; [done|].
    destruct (is_char 58 c); [|done]. apply bind_Some in H as ([x t2] & Hx & H). apply IHv in Hx; [|done].
    destruct (skip_ws t2) as [|c' t3]; [done|]. destruct (is_char 44 c').
    + apply bind_Some in H as ([l' r'] & Hl & [= <- <-]). constructor; [done|]. by eapply IHm.
    + destruct (is_char 125 c'); [|done]. injection H as <- _. by constructor.
Qed.

(** Whatever text is decoded, the value is well formed and nested at most as deeply as the decoder allows. *)
Lemma decode_wf s v : decode s = Some v -> json_wf v = true /\ nesting v <= maxNestingDepth.
Proof.
  unfold decode. intros ([w r] & H & ->)%fmap_Some. cbn [fst].
  destruct (parse_found (S (2 * String.length s))) as (Hv & _). specialize (Hv 0 s w r ltac:(done) H).
  destruct Hv as [? ?]. by split.
Qed.
