(* ===== verification/Canonical.v ===== *)
(** Canonical JSON: api/internal/canonical/json.go.

    [canonical_JSON] is the Go function [JSON]: marshal, decode with
    [UseNumber], rewrite every number literal ([numbers]), marshal again with
    sorted keys.  [canon_number] is the [json.Number] case of [numbers]. *)
From S2P Require Import Prelude Json JsonFacts.
Local Open Scope Z_scope.

(** * strings helpers used by the code *)

(** [strings.IndexAny]/[IndexByte] followed by slicing: the text before the
    first byte satisfying [P], and the text after it. *)
Fixpoint cut (P : Ascii.ascii -> bool) (s : string) : string * option string :=
  match s with
  | EmptyString => ("", None)
  | String c s1 =>
      if P c then ("", Some s1) else let '(a, b) := cut P s1 in (String c a, b)
  end.

(** [strings.TrimLeft(s, "0")] and [strings.TrimRight(s, "0")]. *)
Fixpoint trim_left0 (s : string) : string :=
  match s with String c s1 => if is_char 48 c then trim_left0 s1 else s | EmptyString => "" end.
Fixpoint trim_right0 (s : string) : string :=
  match s with
  | EmptyString => ""
  | String c s1 =>
      match trim_right0 s1 with
      | EmptyString => if is_char 48 c then "" else String c ""
      | t => String c t
      end
  end.

(** The value of a digit string. *)
Definition dec_step (acc : Z) (c : Ascii.ascii) : Z := acc * 10 + (byte_val c - 48).
Fixpoint dec_from (acc : Z) (s : string) : Z :=
  match s with EmptyString => acc | String c s1 => dec_from (dec_step acc c) s1 end.
Definition dec (s : string) : Z := dec_from 0 s.

(** [strconv.ParseInt(s, 10, 32)]. *)
Definition parse_int32 (s : string) : option Z :=
  let '(sg, d) :=
    match s with
    | String c s1 =>
        if is_char 45 c then (-1, s1) else if is_char 43 c then (1, s1) else (1, s)
    | EmptyString => (1, "")
    end in
  match d with
  | EmptyString => None
  | _ =>
      if str_all is_digit d then
        let z := sg * dec d in
        if (z <? - 2 ^ 31) || (2 ^ 31 - 1 <? z) then None else Some z
      else None
  end.

(** The second half of the case: trim zeros and put the exponent back. *)
Definition canon_digits (sign s : string) (exponent : Z) : string :=
  match trim_left0 s with
  | EmptyString => "0"
  | s =>
      let trimmed := trim_right0 s in
      let exponent := exponent + Z.of_nat (String.length s - String.length trimmed) in
      sign +:+ trimmed +:+ (if exponent =? 0 then "" else "e" +:+ (pretty exponent : string))
  end.

(** The [json.Number] case of [numbers]. *)
Definition canon_number (lit : string) : option string :=
  let '(sign, s) :=
    match lit with
    | String c s1 => if is_char 45 c then (String c "", s1) else ("", lit)
    | EmptyString => ("", "")
    end in
  let '(s, e) := cut (fun c => is_char 101 c || is_char 69 c) s in
  exponent ←
    match e with
    | None => Some 0
    | Some t =>
        x ← parse_int32 t;
        if (131072 <? x) || (x <? -16383) then None else Some x
    end;
  let '(s, exponent) :=
    match cut (is_char 46) s with
    | (a, Some b) => (a +:+ b, exponent - Z.of_nat (String.length b))
    | (a, None) => (a, exponent)
    end in
  Some (canon_digits sign s exponent).

(** [numbers]; the error is the same for every bad exponent. *)
Fixpoint numbers (v : json) : option json :=
  match v with
  | JNum lit => JNum <$> canon_number lit
  | JArr l =>
      JArr <$> (fix go l := match l with
                            | [] => Some []
                            | x :: l => n ← numbers x; l' ← go l; Some (n :: l')
                            end) l
  | JObj l =>
      JObj <$> (fix go l := match l with
                            | [] => Some []
                            | (k, x) :: l => n ← numbers x; l' ← go l; Some ((k, n) :: l')
                            end) l
  | v => Some v
  end.

(** [canonical.JSON]. *)
Definition canonical_JSON (v : json) : option string :=
  b ← marshal v;
  value ← decode b;
  value ← numbers value;
  marshal (sort_keys value).

Example canon_number_samples :
  map canon_number ["1e3"; "1000"; "-1.50E+1"; "0.00"; "-0"; "12"; "1e131073"; "1e99999999999"]
  = [Some "1e3"; Some "1e3"; Some "-15"; Some "0"; Some "0"; Some "12"; None; None].
Proof. vm_compute. reflexivity. Qed.

Example canonical_JSON_sample :
  canonical_JSON (JObj [("b", JNum "10.0"); ("a", JArr [JStr "<"; JNull])])
  = Some (apos "{'a':['\u003c',null],'b':1e1}").
Proof. vm_compute. reflexivity. Qed.

(** * Decimal values *)

(** The value of a number literal as mantissa and power of ten: the reference
    the canonical text is judged against. *)
Definition num_value (lit : string) : option (Z * Z) :=
  let '(sg, s1) := scan_sign lit in
  '(i, s2) ← scan_int s1;
  '(f, s3) ← scan_frac s2;
  '(e, _) ← scan_exp s3;
  let frac := match f with String _ d => d | EmptyString => "" end in
  let ex := match e with String _ t => default 0 (parse_int32 t) | EmptyString => 0 end in
  let m := dec (i +:+ frac) in
  Some (if decide (sg = "") then m else - m, ex - Z.of_nat (String.length frac)).

(** [m * 10 ^ e = m' * 10 ^ e'], with the smaller exponent factored out. *)
Definition dec_eq (a b : Z * Z) : Prop :=
  a.1 * 10 ^ (a.2 - Z.min a.2 b.2) = b.1 * 10 ^ (b.2 - Z.min a.2 b.2).
