(* ===== verification/CanonicalFacts.v ===== *)
(** Canonical JSON is a normal form: two number literals have the same
    canonical text exactly when they denote the same decimal. *)
From S2P Require Import Prelude Json JsonFacts Canonical.
Local Open Scope Z_scope.

(** * Digit strings *)

Abbreviation digits_only s := (str_all is_digit s = true).

Lemma is_digit_val c : is_digit c = true -> 0 <= byte_val c - 48 <= 9.
Proof. unfold is_digit, in_range. lia. Qed.

Lemma dec_from_spec acc s :
  dec_from acc s = acc * 10 ^ Z.of_nat (String.length s) + dec s.
Proof.
  unfold dec. revert acc. induction s as [|c s IH]; intros acc; cbn [dec_from String.length].
  { change (Z.of_nat 0) with 0. lia. }
  rw IH (IH (dec_step 0 c)). unfold dec_step. rw Nat2Z.inj_succ Z.pow_succ_r; [|lia]. nia.
Qed.

Lemma dec_cons c s :
  dec (String c s) = (byte_val c - 48) * 10 ^ Z.of_nat (String.length s) + dec s.
Proof. unfold dec at 1. cbn [dec_from]. rw dec_from_spec. unfold dec_step. nia. Qed.

Lemma dec_app a b : dec (a +:+ b) = dec a * 10 ^ Z.of_nat (String.length b) + dec b.
Proof.
  induction a as [|c a IH]; [cbn; by rw str_app_nil_l|].
  rw str_cons_app !dec_cons IH str_length_app Nat2Z.inj_add Z.pow_add_r; [|lia..]. nia.
Qed.

Lemma dec_range s : digits_only s -> 0 <= dec s < 10 ^ Z.of_nat (String.length s).
Proof.
  induction s as [|c s IH]; [cbn; lia|]. cbn [str_all]. intros [Hc Hs]%andb_prop.
  specialize (IH Hs). apply is_digit_val in Hc. rw dec_cons. cbn [String.length].
  rw Nat2Z.inj_succ Z.pow_succ_r; [|lia]. nia.
Qed.

Lemma dec_inj_length s t :
  digits_only s -> digits_only t -> String.length s = String.length t -> dec s = dec t -> s = t.
Proof.
  revert t. induction s as [|c s IH]; intros [|d t]; cbn [str_all String.length]; try done.
  intros [Hc Hs]%andb_prop [Hd Ht]%andb_prop [= Hl] H. rw !dec_cons Hl in H.
  pose proof (dec_range s Hs) as Rs. pose proof (dec_range t Ht) as Rt. rw Hl in Rs.
  apply is_digit_val in Hc, Hd.
  assert (Hcd : byte_val c - 48 = byte_val d - 48) by nia.
  f_equal; [apply byte_val_inj; lia|]. apply IH; try done. nia.
Qed.

(** A digit string whose first digit is not zero. *)
Definition leading (s : string) : Prop :=
  match s with String c _ => is_char 48 c = false | EmptyString => False end.

Lemma dec_leading s :
  digits_only s -> leading s -> 10 ^ (Z.of_nat (String.length s) - 1) <= dec s.
Proof.
  destruct s as [|c s]; [done|]. cbn [leading str_all String.length].
  intros [Hc Hs]%andb_prop Hl. unfold is_char in Hl. pose proof (is_digit_val c Hc).
  pose proof (dec_range s Hs). rw dec_cons.
  replace (Z.of_nat (S (String.length s)) - 1) with (Z.of_nat (String.length s)) by lia.
  assert (1 <= byte_val c - 48) by lia. nia.
Qed.

Lemma dec_leading_inj s t :
  digits_only s -> digits_only t -> leading s -> leading t -> dec s = dec t -> s = t.
Proof.
  intros Hs Ht Ls Lt H. apply dec_inj_length; try done.
  pose proof (dec_leading s Hs Ls). pose proof (dec_leading t Ht Lt).
  pose proof (dec_range s Hs). pose proof (dec_range t Ht).
  set (n := Z.of_nat (String.length s)) in *. set (m := Z.of_nat (String.length t)) in *.
  assert (n - 1 < m) by (apply (Z.pow_lt_mono_r_iff 10); lia).
  assert (m - 1 < n) by (apply (Z.pow_lt_mono_r_iff 10); lia). lia.
Qed.

(** * Trimming *)

Lemma trim_left0_digits s : digits_only s -> digits_only (trim_left0 s).
Proof.
  induction s as [|c s IH]; [done|]. cbn [str_all trim_left0]. intros [Hc Hs]%andb_prop.
  destruct (is_char 48 c); [by apply IH|]. cbn. by rw Hc Hs.
Qed.

Lemma trim_left0_dec s : dec (trim_left0 s) = dec s.
Proof.
  induction s as [|c s IH]; [done|]. cbn [trim_left0]. destruct (is_char 48 c) eqn:E; [|done].
  rw IH dec_cons. unfold is_char in E. replace (byte_val c - 48) with 0 by lia. lia.
Qed.

Lemma trim_left0_leading s : trim_left0 s = "" \/ leading (trim_left0 s).
Proof.
  induction s as [|c s IH]; [by left|]. cbn [trim_left0].
  destruct (is_char 48 c) eqn:E; [done|]. by right.
Qed.

(** What [trim_right0] removes is a run of zeros. *)
Lemma trim_right0_spec s :
  digits_only s ->
  digits_only (trim_right0 s)
  /\ (String.length (trim_right0 s) <= String.length s)%nat
  /\ dec s = dec (trim_right0 s)
             * 10 ^ Z.of_nat (String.length s - String.length (trim_right0 s))
  /\ (trim_right0 s = "" \/ dec (trim_right0 s) mod 10 <> 0).
Proof.
  induction s as [|c s IH]; [intros _; split_and!; [done|cbn; lia|done|by left]|].
  cbn [str_all trim_right0]. intros [Hc Hs]%andb_prop. destruct (IH Hs) as (H1 & H2 & H3 & H4).
  pose proof (is_digit_val c Hc) as Hv.
  destruct (trim_right0 s) as [|x t] eqn:Et.
  - assert (Hz : dec s = 0) by (rw H3; done). destruct (is_char 48 c) eqn:E0.
    + split_and!; [done|cbn; lia| |by left]. rw dec_cons Hz. unfold is_char in E0.
      replace (byte_val c - 48) with 0 by lia. done.
    + split_and!; [cbn; by rw Hc|cbn; lia| |].
      * rw !dec_cons Hz. cbn [String.length]. change (Z.of_nat 0) with 0.
        rw Z.pow_0_r. replace (S (String.length s) - 1)%nat with (String.length s) by lia.
        change (dec "") with 0. nia.
      * right. rw dec_cons. cbn [String.length]. change (Z.of_nat 0) with 0. change (dec "") with 0.
        unfold is_char in E0. rw Z.pow_0_r Z.mul_1_r Z.add_0_r Z.mod_small; lia.
  - destruct H4 as [|H4]; [done|].
    split_and!; [cbn [str_all]; by rw Hc|cbn [String.length] in *; lia| |].
    + rw (dec_cons c s) (dec_cons c (String x t)) H3.
      set (n := String.length s) in *. set (m := String.length (String x t)) in *.
      replace (String.length (String c s) - String.length (String c (String x t)))%nat with (n - m)%nat
        by (cbn [String.length]; subst n m; cbn [String.length]; lia).
      replace (Z.of_nat n) with (Z.of_nat m + Z.of_nat (n - m)) by lia.
      rw Z.pow_add_r; [|lia..]. nia.
    + right. rw dec_cons. cbn [String.length]. rw Nat2Z.inj_succ Z.pow_succ_r; [|lia].
      replace (_ + dec (String x t)) with
        (dec (String x t) + (byte_val c - 48) * 10 ^ Z.of_nat (String.length t) * 10) by nia.
      by rw Z_mod_plus_full.
Qed.

Lemma trim_right0_leading s : digits_only s -> leading s -> leading (trim_right0 s).
Proof.
  destruct s as [|c s]; [done|]. cbn [leading trim_right0]. intros _ Hc.
  destruct (trim_right0 s); [by rw Hc|done].
Qed.

(** * The canonical text of a decimal *)

Definition exp_text (x : Z) : string := if x =? 0 then "" else "e" +:+ (pretty x : string).
Definition sgn (sg : string) : Z := if decide (sg = "") then 1 else -1.
Definition is_sign (sg : string) : Prop := sg = "" \/ sg = "-".

Lemma exp_text_digit x : match exp_text x with String c _ => is_digit c = false | EmptyString => True end.
Proof. unfold exp_text. destruct (x =? 0); [done|]. by rw str_cons_app. Qed.

Lemma exp_text_inj x y : exp_text x = exp_text y -> x = y.
Proof.
  unfold exp_text. destruct (Z.eqb_spec x 0), (Z.eqb_spec y 0); try lia; rw ?str_cons_app; try done.
  intros [= H]. exact (pretty_Z_inj x y H).
Qed.

Lemma canon_text_inj sg sg' T T' x x' :
  is_sign sg -> is_sign sg' -> digits_only T -> digits_only T' -> leading T -> leading T' ->
  sg +:+ T +:+ exp_text x = sg' +:+ T' +:+ exp_text x' -> sg = sg' /\ T = T' /\ x = x'.
Proof.
  intros Hs Hs' HT HT' LT LT' H.
  assert (Hsplit : sg = sg' /\ T +:+ exp_text x = T' +:+ exp_text x').
  { destruct T as [|c T]; [done|]. destruct T' as [|c' T']; [done|].
    cbn [str_all] in HT, HT'. apply andb_prop in HT as [Hc _], HT' as [Hc' _].
    assert (c <> byte_chr 45 /\ c' <> byte_chr 45) by (split; intros ->; done).
    destruct Hs as [-> | ->], Hs' as [-> | ->]; rw ?str_app_nil_l in H.
    - done.
    - exfalso. rw !str_cons_app in H. injection H as H _. destruct_and!. by subst.
    - exfalso. rw !str_cons_app in H. injection H as H _. destruct_and!. by subst.
    - split; [done|]. by apply str_app_inj_l in H. }
  destruct Hsplit as [-> Ht]. split; [done|].
  pose proof (scan_digits_app T _ HT (exp_text_digit x)) as E1.
  pose proof (scan_digits_app T' _ HT' (exp_text_digit x')) as E2.
  rw Ht E2 in E1. injection E1 as -> H2. split; [done|]. by apply exp_text_inj.
Qed.

Lemma canon_digits_zero sg D E : digits_only D -> dec D = 0 -> canon_digits sg D E = "0".
Proof.
  intros HD Hz. unfold canon_digits. destruct (trim_left0_leading D) as [-> | Hl]; [done|].
  pose proof (dec_leading _ (trim_left0_digits D HD) Hl) as H. rw trim_left0_dec Hz in H.
  pose proof (Z.pow_pos_nonneg 10 (Z.of_nat (String.length (trim_left0 D)) - 1)).
  destruct (trim_left0 D) as [|c t] eqn:Et; [done|]. cbn [String.length] in *. lia.
Qed.

Lemma canon_digits_nonzero sg D E :
  digits_only D -> dec D <> 0 ->
  exists T n, 0 <= n /\ canon_digits sg D E = sg +:+ T +:+ exp_text (E + n)
    /\ digits_only T /\ leading T /\ dec T mod 10 <> 0 /\ dec D = dec T * 10 ^ n.
Proof.
  intros HD Hnz. unfold canon_digits. pose proof (trim_left0_digits D HD) as Hd.
  pose proof (trim_left0_dec D) as Hdec.
  destruct (trim_left0_leading D) as [He | Hl].
  { rw He in Hdec. cbn in Hdec. lia. }
  destruct (trim_right0_spec _ Hd) as (H1 & H2 & H3 & H4).
  pose proof (trim_right0_leading _ Hd Hl) as Hl'.
  destruct (trim_left0 D) as [|c t] eqn:Et; [done|]. rw -Et in H1 H2 H3 H4 Hl' Hdec |- *.
  eexists (trim_right0 (trim_left0 D)), _. split_and!; [|reflexivity|done|done| |].
  - lia.
  - destruct H4 as [He|]; [|done]. by rw He in Hl'.
  - by rw -Hdec.
Qed.

(** A decimal has one mantissa not divisible by ten. *)
Lemma decimal_unique t t' a b :
  0 <= a -> 0 <= b -> t mod 10 <> 0 -> t' mod 10 <> 0 ->
  t * 10 ^ a = t' * 10 ^ b -> a = b /\ t = t'.
Proof.
  intros Ha Hb Ht Ht' H.
  assert (Hgen : forall u u' m n, 0 <= m -> 0 <= n -> u' mod 10 <> 0 -> m <= n -> u' * 10 ^ m = u * 10 ^ n -> m = n).
  { intros u u' m n Hm Hn Hu Hmn Hx. destruct (decide (m = n)); [done|]. exfalso. apply Hu.
    replace n with (m + (n - m)) in Hx by lia. rw Z.pow_add_r in Hx; [|lia..].
    assert (u' = u * 10 ^ (n - m)) as ->.
    { apply (Z.mul_cancel_r _ _ (10 ^ m)); [apply Z.pow_nonzero; lia|]. nia. }
    replace (n - m) with (Z.succ (n - m - 1)) by lia. rw Z.pow_succ_r; [|lia].
    replace (u * (10 * 10 ^ (n - m - 1))) with (u * 10 ^ (n - m - 1) * 10) by lia. by apply Z_mod_mult. }
  assert (a = b) as ->.
  { destruct (Z.le_ge_cases a b); [by apply (Hgen t' t)|symmetry; by apply (Hgen t t')]. }
  split; [done|]. apply (Z.mul_cancel_r _ _ (10 ^ b)); [apply Z.pow_nonzero; lia|done].
Qed.

Lemma sgn_mod sg t : t mod 10 <> 0 -> (sgn sg * t) mod 10 <> 0.
Proof. unfold sgn. case_decide; [by rw Z.mul_1_l|]. intros Hm. dlia. Qed.

Lemma canon_digits_eq sg sg' D D' E E' :
  is_sign sg -> is_sign sg' -> digits_only D -> digits_only D' ->
  canon_digits sg D E = canon_digits sg' D' E'
  <-> dec_eq (sgn sg * dec D, E) (sgn sg' * dec D', E').
Proof.
  intros Hs Hs' HD HD'. unfold dec_eq. cbn [fst snd].
  set (k := Z.min E E'). assert (Hk : 0 <= E - k /\ 0 <= E' - k) by lia.
  assert (Hsg : forall s, sgn s <> 0) by (intros; unfold sgn; case_decide; lia).
  assert (Hpow : forall x, 0 <= x -> 10 ^ x <> 0) by (intros; apply Z.pow_nonzero; lia).
  assert (Hsi : forall s s', is_sign s -> is_sign s' -> sgn s = sgn s' -> s = s').
  { by intros ?? [-> | ->] [-> | ->]. }
  destruct (decide (dec D = 0)) as [Hz|Hz], (decide (dec D' = 0)) as [Hz'|Hz'].
  - rw !canon_digits_zero; [|done..]. rw Hz Hz'. split; [|done]. lia.
  - destruct (canon_digits_nonzero sg' D' E' HD' Hz') as (T' & n' & _ & -> & HT' & LT' & _).
    rw (canon_digits_zero sg D E HD Hz) Hz. split; [|specialize (Hpow (E' - k)); specialize (Hsg sg'); nia].
    intros H. exfalso. destruct T' as [|c' T']; [done|]. cbn [leading] in LT'.
    destruct Hs' as [-> | ->]; rw ?str_app_nil_l !str_cons_app in H; [|done].
    injection H as <- _. done.
  - destruct (canon_digits_nonzero sg D E HD Hz) as (T & n & _ & -> & HT & LT & _).
    rw (canon_digits_zero sg' D' E' HD' Hz') Hz'. split; [|specialize (Hpow (E - k)); specialize (Hsg sg); nia].
    intros H. exfalso. destruct T as [|c T]; [done|]. cbn [leading] in LT.
    destruct Hs as [-> | ->]; rw ?str_app_nil_l !str_cons_app in H; [|done].
    injection H as -> _. done.
  - destruct (canon_digits_nonzero sg D E HD Hz) as (T & n & Hn & -> & HT & LT & MT & DT).
    destruct (canon_digits_nonzero sg' D' E' HD' Hz') as (T' & n' & Hn' & -> & HT' & LT' & MT' & DT').
    rw DT DT'. split.
    + intros H. apply canon_text_inj in H as (-> & -> & Hx); [|done..].
      rw -!Z.mul_assoc -!Z.pow_add_r; [|lia..]. by replace (n + (E - k)) with (n' + (E' - k)) by lia.
    + rw !(Z.mul_assoc (sgn _)) -!(Z.mul_assoc (sgn _ * _)) -!Z.pow_add_r; [|lia..]. intros H.
      apply decimal_unique in H as [Hx Ht]; [|lia|lia|by apply sgn_mod..].
      pose proof (dec_range T HT). pose proof (dec_range T' HT').
      assert (0 < dec T) by (destruct (Z.eq_dec (dec T) 0) as [e|]; [by rw e in MT|lia]).
      assert (0 < dec T') by (destruct (Z.eq_dec (dec T') 0) as [e|]; [by rw e in MT'|lia]).
      assert (sgn sg = sgn sg' /\ dec T = dec T') as [E1 E2]
        by (unfold sgn in *; repeat case_decide; lia).
      apply Hsi in E1 as ->; [|done..]. apply dec_leading_inj in E2 as ->; [|done..].
      by replace (E + n) with (E' + n') by lia.
Qed.

(** * From the literal to its digits *)

Lemma cut_app P a r :
  str_all (fun c => negb (P c)) a = true ->
  cut P (a +:+ r) = (a +:+ (cut P r).1, (cut P r).2).
Proof.
  induction a as [|c a IH].
  - intros _. rw !str_app_nil_l. by destruct (cut P r).
  - cbn [str_all]. intros [Hc Ha]%andb_prop. apply negb_true_iff in Hc.
    rw !str_cons_app. cbn [cut]. by rw Hc (IH Ha).
Qed.

Definition is_exp (c : Ascii.ascii) : bool := is_char 101 c || is_char 69 c.

Lemma digits_no_exp d : digits_only d -> str_all (fun c => negb (is_exp c)) d = true.
Proof.
  apply str_all_impl. intros c Hc%is_digit_val. unfold is_exp, is_char. lia.
Qed.
Lemma digits_no_dot d : digits_only d -> str_all (fun c => negb (is_char 46 c)) d = true.
Proof. apply str_all_impl. intros c Hc%is_digit_val. unfold is_char. lia. Qed.

Definition frac_digits (f : string) : string :=
  match f with String _ d => d | EmptyString => "" end.

(** The four parts of a valid literal. *)
Record literal_parts (lit sg i f e : string) : Prop := {
  lp_text : lit = sg +:+ i +:+ f +:+ e;
  lp_sign : is_sign sg;
  lp_int : digits_only i /\ i <> "";
  lp_frac : f = "" \/ exists d, f = "." +:+ d /\ digits_only d;
  lp_exp : e = "" \/ exists c t, e = String c t /\ is_exp c = true;
  lp_value : num_value lit =
    Some (sgn sg * dec (i +:+ frac_digits f),
          (match e with String _ t => default 0 (parse_int32 t) | EmptyString => 0 end)
          - Z.of_nat (String.length (frac_digits f)))
}.

Lemma scan_int_spec s i r : scan_int s = Some (i, r) -> digits_only i /\ i <> "".
Proof.
  destruct s as [|c s]; [done|]. cbn [scan_int]. destruct (is_char 48 c) eqn:E0.
  { intros [= <- <-]. split; [|done]. apply is_char_eq in E0 as ->; [done|lia]. }
  destruct (is_digit c) eqn:Ed; [|done]. intros [= H].
  apply (scan_digits_spec (String c s)) in H as (Hs & Hd & Hr). split; [done|]. intros ->.
  rw str_app_nil_l in Hs. subst r. by rw Ed in Hr.
Qed.

Lemma scan_frac_spec s f r : scan_frac s = Some (f, r) -> f = "" \/ exists d, f = "." +:+ d /\ digits_only d.
Proof.
  destruct s as [|c s]; cbn [scan_frac]; [intros [= <- <-]; by left|].
  destruct (is_char 46 c) eqn:E; [|intros [= <- <-]; by left].
  destruct (scan_digits s) as [d r'] eqn:Ed. apply scan_digits_spec in Ed as (_ & Hd & _).
  destruct d; [done|]. intros [= <- <-]. right. eexists. split; [|exact Hd].
  apply is_char_eq in E as ->; [done|lia].
Qed.

Lemma scan_exp_spec s e r : scan_exp s = Some (e, r) -> e = "" \/ exists c t, e = String c t /\ is_exp c = true.
Proof.
  destruct s as [|c s]; cbn [scan_exp]; [intros [= <- <-]; by left|].
  destruct (is_char 101 c || is_char 69 c) eqn:E; [|intros [= <- <-]; by left].
  intros H. right. destruct s as [|x s]; [done|].
  destruct (is_char 43 x || is_char 45 x);
    (destruct (scan_digits _) as [[|] ?]; [done|]); injection H as <- _; by eexists _, _.
Qed.

Lemma literal_split lit : valid_number lit = true -> exists sg i f e, literal_parts lit sg i f e.
Proof.
  unfold valid_number. destruct (scan_number lit) as [[d [|]]|] eqn:E; [|done..]. intros _.
  pose proof (scan_number_split _ _ _ E) as Hl. rw str_app_nil_r in Hl. subst d.
  pose proof E as E'. unfold scan_number in E'.
  destruct (scan_sign lit) as [sg s1] eqn:Es.
  destruct (scan_int s1) as [[i s2]|] eqn:Ei; [|done]. cbn in E'.
  destruct (scan_frac s2) as [[f s3]|] eqn:Ef; [|done]. cbn in E'.
  destruct (scan_exp s3) as [[e s4]|] eqn:Ee; [|done]. cbn in E'. injection E' as E' _.
  assert (Hsg : is_sign sg).
  { destruct lit as [|c s]; cbn in Es; [by injection Es as <- _; left|].
    destruct (is_char 45 c) eqn:Ec; injection Es as <- _; [right|by left].
    apply is_char_eq in Ec as ->; [done|lia]. }
  exists sg, i, f, e. split; [done|done|by eapply scan_int_spec|by eapply scan_frac_spec
                             |by eapply scan_exp_spec|].
  unfold num_value. rw Es. cbn. rw Ei. cbn. rw Ef. cbn. rw Ee. cbn. unfold frac_digits, sgn.
  do 2 f_equal. case_decide; lia.
Qed.

(** The exponent test of [canon_number] on the text after [e]. *)
Definition exponent_ok (e : string) : option Z :=
  match e with
  | EmptyString => Some 0
  | String _ t =>
      x ← parse_int32 t; if (131072 <? x) || (x <? -16383) then None else Some x
  end.

Lemma canon_number_parts lit sg i f e :
  literal_parts lit sg i f e ->
  canon_number lit =
    (x ← exponent_ok e;
     Some (canon_digits sg (i +:+ frac_digits f) (x - Z.of_nat (String.length (frac_digits f))))).
Proof.
  intros [-> Hsg [Hi Hne] Hf He _]. unfold canon_number.
  assert (Hbody : match sg +:+ i +:+ f +:+ e with
                  | String c s1 => if is_char 45 c then (String c "", s1) else ("", sg +:+ i +:+ f +:+ e)
                  | EmptyString => ("", "")
                  end = (sg, i +:+ f +:+ e)).
  { destruct Hsg as [-> | ->]; [|reflexivity]. rw str_app_nil_l. destruct i as [|c i]; [done|].
    rw str_cons_app. cbn [str_all] in Hi. apply andb_prop in Hi as [Hc _]. apply is_digit_val in Hc.
    assert (is_char 45 c = false) as -> by (unfold is_char; lia). done. }
  rw Hbody. clear Hbody.
  assert (Hif : str_all (fun c => negb (is_exp c)) (i +:+ f) = true).
  { rw str_all_app (digits_no_exp i Hi). destruct Hf as [-> | (d & -> & Hd)]; [done|].
    rw str_cons_app. cbn. by apply digits_no_exp. }
  rw -str_app_assoc. unfold is_exp in *. rw (cut_app _ _ _ Hif).
  assert (Hcut : cut (fun c => is_char 101 c || is_char 69 c) e
                 = ("", match e with String _ t => Some t | EmptyString => None end)).
  { destruct He as [-> | (c & t & -> & Hc)]; [done|]. cbn [cut]. by rw Hc. }
  rw Hcut. cbn [fst snd]. rw str_app_nil_r.
  assert (Hdot : cut (is_char 46) (i +:+ f)
                 = (i, match f with String _ d => Some d | EmptyString => None end)).
  { rw (cut_app _ _ _ (digits_no_dot i Hi)). destruct Hf as [-> | (d & -> & Hd)]; cbn;
      by rw str_app_nil_r. }
  rw Hdot. unfold exponent_ok. destruct e as [|c t]; cbn.
  - destruct f as [|c d]; cbn; [by rw str_app_nil_r|done].
  - destruct (parse_int32 t) as [x|]; [|done]. cbn. destruct ((131072 <? x) || (x <? -16383)); [done|].
    cbn. destruct f as [|c' d]; cbn; [|done]. by rw str_app_nil_r Z.sub_0_r.
Qed.

Lemma frac_digits_only i f :
  digits_only i -> (f = "" \/ exists d, f = "." +:+ d /\ digits_only d) ->
  digits_only (i +:+ frac_digits f).
Proof.
  intros Hi Hf. rw str_all_app Hi. destruct Hf as [-> | (d & -> & Hd)]; done.
Qed.

(** Two valid literals with a canonical text have the same one exactly when
    they denote the same decimal. *)
Lemma canon_number_eq a b ta tb va vb :
  valid_number a = true -> valid_number b = true ->
  canon_number a = Some ta -> canon_number b = Some tb ->
  num_value a = Some va -> num_value b = Some vb ->
  ta = tb <-> dec_eq va vb.
Proof.
  intros Ha Hb Ca Cb Va Vb.
  destruct (literal_split a Ha) as (sg & i & f & e & La).
  destruct (literal_split b Hb) as (sg' & i' & f' & e' & Lb).
  rw (canon_number_parts _ _ _ _ _ La) in Ca. rw (canon_number_parts _ _ _ _ _ Lb) in Cb.
  destruct La as [_ Hs [Hi _] Hf _ Hv], Lb as [_ Hs' [Hi' _] Hf' _ Hv'].
  rw Hv in Va. rw Hv' in Vb. injection Va as <-. injection Vb as <-.
  assert (Hex : forall e x, exponent_ok e = Some x ->
            x = match e with String _ t => default 0 (parse_int32 t) | EmptyString => 0 end).
  { intros [|c t] x; cbn; [by intros [= <-]|]. destruct (parse_int32 t) as [y|]; [|done]. cbn.
    destruct ((131072 <? y) || (y <? -16383)); [done|]. by intros [= <-]. }
  destruct (exponent_ok e) as [x|] eqn:Ex; [|done]. destruct (exponent_ok e') as [x'|] eqn:Ex'; [|done].
  apply Hex in Ex, Ex'. cbn in Ca, Cb. injection Ca as <-. injection Cb as <-. subst x x'.
  apply canon_digits_eq; try done; by apply frac_digits_only.
Qed.

(** * Whole values *)

(** Every exponent passes the range test. *)
Fixpoint canonable (v : json) : bool :=
  match v with
  | JNum lit => match canon_number lit with Some _ => true | None => false end
  | JArr l => forallb canonable l
  | JObj l => forallb (fun kv => canonable kv.2) l
  | _ => true
  end.

(** The value [numbers] builds when it succeeds, and its sorted form. *)
Fixpoint ntot (v : json) : json :=
  match v with
  | JNum lit => JNum (default "" (canon_number lit))
  | JArr l => JArr (map ntot l)
  | JObj l => JObj (map (fun kv => (kv.1, ntot kv.2)) l)
  | v => v
  end.
Definition normal_form (v : json) : json := sort_keys (ntot v).

Lemma numbers_eq v : numbers v = if canonable v then Some (ntot v) else None.
Proof.
  induction v as [| | lit | |l IH|l IH] using json_ind'; try done.
  - cbn. by destruct (canon_number lit).
  - cbn. match goal with |- JArr <$> ?g l = _ => assert (Hg : g l = if forallb canonable l then Some (map ntot l) else None) end.
    { induction IH as [|x l Hx IH' IHl]; [done|]. cbn. rw Hx IHl.
      by destruct (canonable x), (forallb canonable l). }
    rw Hg. by destruct (forallb canonable l).
  - cbn. match goal with |- JObj <$> ?g l = _ =>
      assert (Hg : g l = if forallb (fun kv => canonable kv.2) l
                         then Some (map (fun kv => (kv.1, ntot kv.2)) l) else None) end.
    { induction IH as [|[k x] l Hx IH' IHl]; [done|]. cbn in Hx |- *. rw Hx IHl.
      by destruct (canonable x), (forallb _ l). }
    rw Hg. by destruct (forallb _ l).
Qed.

(** Equality of JSON values: numbers by value, objects up to member order. *)
Inductive json_equiv : json -> json -> Prop :=
| equiv_null : json_equiv JNull JNull
| equiv_bool b : json_equiv (JBool b) (JBool b)
| equiv_num a b va vb :
    num_value a = Some va -> num_value b = Some vb -> dec_eq va vb ->
    json_equiv (JNum a) (JNum b)
| equiv_str s : json_equiv (JStr s) (JStr s)
| equiv_arr l m : Forall2 json_equiv l m -> json_equiv (JArr l) (JArr m)
| equiv_obj l l' m :
    l ≡ₚ l' -> Forall2 (fun a b => a.1 = b.1 /\ json_equiv a.2 b.2) l' m ->
    json_equiv (JObj l) (JObj m).

Definition nf_member (kv : string * json) : string * json := (kv.1, normal_form kv.2).

Lemma normal_form_arr l : normal_form (JArr l) = JArr (map normal_form l).
Proof. unfold normal_form. cbn. by rw map_map. Qed.
Lemma normal_form_obj l : normal_form (JObj l) = JObj (merge_sort key_order (map nf_member l)).
Proof. unfold normal_form. cbn. by rw map_map. Qed.

Global Instance key_order_total : Total key_order.
Proof. intros a b. apply (total String.le). Qed.
Global Instance key_order_trans : Transitive key_order.
Proof. intros a b c. unfold key_order. apply transitivity. Qed.

(** Sorting members with distinct keys forgets their order. *)
Lemma sort_members_eq l m :
  NoDup (map fst l) ->
  merge_sort key_order l = merge_sort key_order m <-> l ≡ₚ m.
Proof.
  intros Hnd. split.
  - intros H. by rw -(merge_sort_Permutation key_order l) H merge_sort_Permutation.
  - intros Hp. apply (StronglySorted_unique_strong key_order).
    + intros [k x] [k' x'] Hx Hy Hxy Hyx. rw merge_sort_Permutation in Hx.
      rw merge_sort_Permutation -Hp in Hy. unfold key_order in Hxy, Hyx. cbn in Hxy, Hyx.
      assert (k = k') as -> by (by apply (anti_symm String.le)).
      apply list_elem_of_lookup in Hx as [i Hi]. apply list_elem_of_lookup in Hy as [j Hj].
      assert (i = j) as ->; [|congruence].
      apply (NoDup_lookup (map fst l) i j k'); [done| |]; rw list_lookup_fmap; by rw ?Hi ?Hj.
    + by apply StronglySorted_merge_sort; apply _.
    + by apply StronglySorted_merge_sort; apply _.
    + by rw !merge_sort_Permutation.
Qed.

Lemma map_eq_Forall2 {A B C} (f : A -> C) (g : B -> C) l m :
  map f l = map g m <-> Forall2 (fun a b => f a = g b) l m.
Proof.
  split.
  - revert m. induction l as [|x l IH]; intros [|y m]; cbn; try done.
    intros [= H1 H2]. constructor; auto.
  - induction 1; cbn; congruence.
Qed.

Lemma nf_member_keys l : map fst (map nf_member l) = map fst l.
Proof. by rw map_map. Qed.

Lemma Forall2_iff_elem {A B} (P Q : A -> B -> Prop) l m :
  (forall a b, a ∈ l -> b ∈ m -> P a b <-> Q a b) -> Forall2 P l m <-> Forall2 Q l m.
Proof.
  revert m. induction l as [|x l IH]; intros m H.
  - split; intros Hf; by inversion Hf.
  - split; intros Hf; inversion Hf as [|? y ? m' Hxy Hlm]; subst; constructor;
      try (apply (H x y); [left|left|done]); (apply IH; [|done]); intros; apply H; by right.
Qed.

Definition admissible (v : json) : Prop := json_wf v = true /\ canonable v = true.

Lemma admissible_arr l x : admissible (JArr l) -> x ∈ l -> admissible x.
Proof.
  intros [Hw Hc] Hx. cbn in Hw, Hc. apply forallb_Forall in Hw, Hc.
  rw Forall_forall in Hw. rw Forall_forall in Hc. split; auto.
Qed.

Lemma admissible_obj l kv : admissible (JObj l) -> kv ∈ l -> admissible kv.2.
Proof.
  intros [Hw Hc] Hx. cbn in Hw, Hc. apply andb_prop in Hw as [Hw _].
  apply forallb_Forall in Hw, Hc. rw Forall_forall in Hw. rw Forall_forall in Hc.
  split; [|by apply Hc]. by destruct (andb_prop _ _ (Hw _ Hx)).
Qed.

Lemma admissible_keys l : admissible (JObj l) -> NoDup (map fst l).
Proof. intros [Hw _]. cbn in Hw. by apply andb_prop in Hw as [_ ?%bool_decide_eq_true]. Qed.

Lemma admissible_num lit :
  admissible (JNum lit) ->
  exists t v, canon_number lit = Some t /\ num_value lit = Some v /\ normal_form (JNum lit) = JNum t.
Proof.
  intros [Hw Hc]. cbn in Hw, Hc. destruct (canon_number lit) as [t|] eqn:Et; [|done].
  destruct (literal_split lit Hw) as (sg & i & f & e & Hp).
  eexists t, _. split_and!; [done|by apply (lp_value _ _ _ _ _ Hp)|].
  unfold normal_form. cbn. by rw Et.
Qed.

Ltac other_shape := split; [done|by inversion 1].

(** The normal forms agree exactly on equal values. *)
Lemma normal_form_eq v w :
  admissible v -> admissible w -> normal_form v = normal_form w <-> json_equiv v w.
Proof.
  revert w. induction v as [|b|a|s|l IH|l IH] using json_ind'; intros w Hv Hw.
  - destruct w; try other_shape. split; [constructor|done].
  - destruct w; try other_shape. split; [intros [= ->]; constructor|by inversion 1].
  - destruct (admissible_num a Hv) as (ta & va & Ca & Va & Na).
    destruct w as [| |b| | |]; try (rw Na; by (split; [|inversion 1])).
    destruct (admissible_num b Hw) as (tb & vb & Cb & Vb & Nb).
    rw Na Nb. destruct Hv as [Hv _], Hw as [Hw _].
    pose proof (canon_number_eq a b ta tb va vb Hv Hw Ca Cb Va Vb) as Heq. split.
    + intros [= H]. econstructor; [done..|]. by apply Heq.
    + inversion 1; simplify_eq. f_equal. by apply Heq.
  - destruct w; try other_shape. split; [intros [= ->]; constructor|by inversion 1].
  - destruct w as [| | | |m|]; try other_shape. rw !normal_form_arr Forall_forall in IH |- *.
    assert (H : Forall2 (fun a b => normal_form a = normal_form b) l m <-> Forall2 json_equiv l m).
    { apply Forall2_iff_elem. intros x y Hx Hy. apply IH; by [|apply (admissible_arr l)|apply (admissible_arr m)]. }
    rw -map_eq_Forall2 in H. split.
    + intros [= Hm]. constructor. by apply H.
    + inversion 1; subst. f_equal. by apply H.
  - destruct w as [| | | | |m]; try other_shape. rw !normal_form_obj.
    assert (Hinj : merge_sort key_order (map nf_member l) = merge_sort key_order (map nf_member m)
                   <-> map nf_member l ≡ₚ map nf_member m).
    { apply sort_members_eq. rw nf_member_keys. by apply admissible_keys. }
    assert (Hmem : forall l', l ≡ₚ l' -> Forall2 (fun a b => nf_member a = nf_member b) l' m
                   <-> Forall2 (fun a b => a.1 = b.1 /\ json_equiv a.2 b.2) l' m).
    { intros l' Hl. apply Forall2_iff_elem. intros [k x] [k' y] Hx Hy. rw -Hl in Hx.
      rw Forall_forall in IH. specialize (IH _ Hx y (admissible_obj _ _ Hv Hx) (admissible_obj _ _ Hw Hy)).
      unfold nf_member. cbn [fst snd] in *. rw -IH. split; [by intros [= -> ->]|by intros [-> ->]]. }
    split.
    + intros [= Hs%Hinj]. symmetry in Hs. apply Permutation_map_inv in Hs as (l3 & H3 & Hl3).
      apply equiv_obj with l3; [done|]. apply Hmem; [done|]. by apply map_eq_Forall2.
    + inversion 1 as [| | | | |l0 l' m0 Hp Hf]; subst. f_equal. apply Hinj.
      apply (Hmem l' Hp), map_eq_Forall2 in Hf. rw -Hf. by apply Permutation_map.
Qed.

(** * The canonical text is well formed *)

Lemma pretty_N_go_digits x s : digits_only s -> digits_only (pretty_N_go x s).
Proof.
  revert s. induction (N.lt_wf_0 x) as [x _ IH]. intros s Hs.
  destruct (decide (x = 0)%N) as [-> |Hx]; [by rw pretty_N_go_0|].
  rw pretty_N_go_step; [|lia]. apply IH; [apply N.div_lt; lia|].
  cbn [str_all]. rw Hs andb_true_r. unfold pretty_N_char. by repeat case_match.
Qed.

Lemma pretty_N_go_nonempty x s : s <> "" -> pretty_N_go x s <> "".
Proof.
  revert s. induction (N.lt_wf_0 x) as [x _ IH]. intros s Hs.
  destruct (decide (x = 0)%N) as [-> |Hx]; [by rw pretty_N_go_0|].
  rw pretty_N_go_step; [|lia]. apply IH; [apply N.div_lt; lia|done].
Qed.

Lemma pretty_pos_digits p : digits_only (pretty (N.pos p)) /\ pretty (N.pos p) <> "".
Proof.
  unfold pretty, pretty_N. case_decide; [done|]. split; [by apply pretty_N_go_digits|].
  rw pretty_N_go_step; [|lia]. by apply pretty_N_go_nonempty.
Qed.

(** [FormatInt] prints an optional minus sign and digits. *)
Lemma pretty_Z_text (x : Z) :
  exists sg d, (pretty x : string) = sg +:+ d /\ is_sign sg /\ digits_only d /\ d <> "".
Proof.
  destruct x as [|p|p].
  - exists "", "0". split_and!; [done|by left|done|done].
  - destruct (pretty_pos_digits p) as [H1 H2]. exists "", (pretty (N.pos p)).
    split_and!; [done|by left|done|done].
  - destruct (pretty_pos_digits p) as [H1 H2]. exists "-", (pretty (N.pos p)).
    split_and!; [done|by right|done|done].
Qed.

Lemma scan_digits_all d : digits_only d -> scan_digits d = (d, "").
Proof. intros H. rw -{1}(str_app_nil_r d). by apply scan_digits_app. Qed.

(** Evaluates the character tests on literal characters. *)
Ltac eval_chars :=
  repeat match goal with
  | |- context [is_char ?a ?b] =>
      let v := eval vm_compute in (is_char a b) in
      first [constr_eq v true | constr_eq v false]; change (is_char a b) with v
  end; cbn [orb andb negb].

Lemma scan_exp_text x : scan_exp (exp_text x) = Some (exp_text x, "").
Proof.
  unfold exp_text. destruct (x =? 0); [done|].
  destruct (pretty_Z_text x) as (sg & d & -> & Hs & Hd & Hne).
  rw str_cons_app str_app_nil_l. cbn [scan_exp]. eval_chars.
  destruct Hs as [-> | ->].
  - rw str_app_nil_l. destruct d as [|c d]; [done|]. pose proof Hd as Hd'.
    cbn [str_all] in Hd. apply andb_prop in Hd as [Hc _]. apply is_digit_val in Hc.
    assert (is_char 43 c || is_char 45 c = false) as -> by (unfold is_char; lia).
    rw (scan_digits_all _ Hd'). done.
  - rw str_cons_app str_app_nil_l. eval_chars. rw (scan_digits_all _ Hd). by destruct d.
Qed.

Lemma canon_text_valid sg T x :
  is_sign sg -> digits_only T -> leading T -> valid_number (sg +:+ T +:+ exp_text x) = true.
Proof.
  intros Hs HT LT. unfold valid_number, scan_number. destruct T as [|c T]; [done|].
  pose proof HT as HT'. cbn [str_all] in HT'. apply andb_prop in HT' as [Hc _].
  assert (Hi : scan_int (String c T +:+ exp_text x) = Some (String c T, exp_text x)).
  { pose proof (scan_digits_app _ _ HT (exp_text_digit x)) as Hd.
    rw str_cons_app in Hd |- *. cbn [scan_int]. cbn [leading] in LT. by rw LT Hc Hd. }
  assert (Hsg : scan_sign (sg +:+ String c T +:+ exp_text x) = (sg, String c T +:+ exp_text x)).
  { destruct Hs as [-> | ->]; [|done]. rw str_app_nil_l str_cons_app. cbn [scan_sign].
    apply is_digit_val in Hc. assert (is_char 45 c = false) as -> by (unfold is_char; lia). done. }
  rw Hsg Hi. cbn. assert (Hf : scan_frac (exp_text x) = Some ("", exp_text x)).
  { unfold exp_text. by destruct (x =? 0). }
  rw Hf. cbn. by rw scan_exp_text.
Qed.

Lemma canon_number_valid lit t :
  valid_number lit = true -> canon_number lit = Some t -> valid_number t = true.
Proof.
  intros Hv Hc. destruct (literal_split lit Hv) as (sg & i & f & e & Hp).
  rw (canon_number_parts _ _ _ _ _ Hp) in Hc. destruct Hp as [_ Hs [Hi _] Hf _ _].
  destruct (exponent_ok e) as [x|]; [|done]. cbn in Hc. injection Hc as <-.
  pose proof (frac_digits_only i f Hi Hf) as Hd.
  destruct (decide (dec (i +:+ frac_digits f) = 0)) as [Hz|Hz].
  - by rw canon_digits_zero.
  - destruct (canon_digits_nonzero sg _ (x - Z.of_nat (String.length (frac_digits f))) Hd Hz)
      as (T & n & _ & -> & HT & LT & _). by apply canon_text_valid.
Qed.

Lemma forallb_perm {A} (f : A -> bool) l l' : l ≡ₚ l' -> forallb f l = forallb f l'.
Proof.
  intros Hp. apply eq_true_iff_eq. by rw !forallb_Forall Hp.
Qed.

Lemma normal_form_wf v : admissible v -> json_wf (normal_form v) = true.
Proof.
  induction v as [|b|a|s|l IH|l IH] using json_ind'; intros Hv; try done.
  - destruct (admissible_num a Hv) as (t & _ & Ht & _ & ->). destruct Hv as [Hv _].
    by apply (canon_number_valid a t).
  - by destruct Hv.
  - rw normal_form_arr. cbn. apply forallb_Forall. apply Forall_map, Forall_forall.
    intros x Hx. rw Forall_forall in IH. apply IH; [done|]. by apply (admissible_arr l).
  - rw normal_form_obj. cbn [json_wf]. apply andb_true_iff. split.
    + rw (forallb_perm _ _ _ (merge_sort_Permutation key_order _)).
      apply forallb_Forall, Forall_map, Forall_forall. intros kv Hx. cbn [nf_member fst snd].
      apply andb_true_iff. split.
      * destruct Hv as [Hw _]. cbn in Hw. apply andb_prop in Hw as [Hw _].
        apply forallb_Forall in Hw. rw Forall_forall in Hw. by destruct (andb_prop _ _ (Hw _ Hx)).
      * rw Forall_forall in IH. apply IH; [done|]. by apply (admissible_obj l).
    + apply bool_decide_eq_true.
      assert (Hp : map fst (merge_sort key_order (map nf_member l)) ≡ₚ map fst (map nf_member l))
        by (apply Permutation_map, merge_sort_Permutation).
      rw Hp nf_member_keys. by apply admissible_keys.
Qed.

Lemma max_fold_perm {A} (f : A -> Z) l l' :
  l ≡ₚ l' -> foldr (fun x n => Z.max (f x) n) 0 l = foldr (fun x n => Z.max (f x) n) 0 l'.
Proof. induction 1; cbn; lia. Qed.

Lemma max_fold_map {A B} (g : A -> B) (f : B -> Z) l :
  foldr (fun x n => Z.max (f x) n) 0 (map g l) = foldr (fun x n => Z.max (f (g x)) n) 0 l.
Proof. induction l; cbn; [done|]. by rw IHl. Qed.

Lemma max_fold_ext {A} (f g : A -> Z) l :
  Forall (fun x => f x = g x) l ->
  foldr (fun x n => Z.max (f x) n) 0 l = foldr (fun x n => Z.max (g x) n) 0 l.
Proof. induction 1 as [|x l Hx Hl IH]; cbn; [done|]. by rw Hx IH. Qed.

Lemma normal_form_nesting v : nesting (normal_form v) = nesting v.
Proof.
  induction v as [|b|a|s|l IH|l IH] using json_ind'; try done.
  - rw normal_form_arr. cbn [nesting]. by rw max_fold_map (max_fold_ext _ _ _ IH).
  - rw normal_form_obj. cbn [nesting].
    rw (max_fold_perm (fun kv : string * json => nesting kv.2) _ _ (merge_sort_Permutation key_order _)).
    rw max_fold_map. cbn [nf_member snd]. by rw (max_fold_ext _ _ _ IH).
Qed.

Lemma wf_numbers_ok v : json_wf v = true -> numbers_ok v = true.
Proof.
  induction v as [|b|a|s|l IH|l IH] using json_ind'; try done; cbn.
  - intros Hw%forallb_Forall. apply forallb_Forall.
    rw Forall_forall in IH. rw Forall_forall in Hw. apply Forall_forall. auto.
  - intros [Hw _]%andb_prop. apply forallb_Forall in Hw. apply forallb_Forall.
    rw Forall_forall in IH. rw Forall_forall in Hw. apply Forall_forall. intros x Hx.
    apply IH; [done|]. by destruct (andb_prop _ _ (Hw _ Hx)).
Qed.

(** What [canonical_JSON] returns. *)
Lemma canonical_JSON_eq v :
  json_wf v = true -> nesting v <= maxNestingDepth ->
  canonical_JSON v = if canonable v then Some (render (normal_form v)) else None.
Proof.
  intros Hw Hn. unfold canonical_JSON, marshal. rw (wf_numbers_ok v Hw). cbn [mbind option_bind].
  rw decode_render; [|done..]. cbn [mbind option_bind]. rw numbers_eq. destruct (canonable v) eqn:Hc; [|done]. cbn [mbind option_bind].
  change (sort_keys (ntot v)) with (normal_form v).
  by rw (wf_numbers_ok _ (normal_form_wf v (conj Hw Hc))).
Qed.

Lemma canonical_JSON_some v t :
  json_wf v = true -> nesting v <= maxNestingDepth -> canonical_JSON v = Some t ->
  admissible v /\ t = render (normal_form v).
Proof.
  intros Hw Hn. rw canonical_JSON_eq; [|done..]. destruct (canonable v) eqn:Hc; [|done].
  by intros [= <-].
Qed.

(** Canonical texts agree exactly on equal values. *)
Lemma canonical_text_eq v w t u :
  json_wf v = true -> json_wf w = true ->
  nesting v <= maxNestingDepth -> nesting w <= maxNestingDepth ->
  canonical_JSON v = Some t -> canonical_JSON w = Some u ->
  t = u <-> json_equiv v w.
Proof.
  intros Hv Hw Nv Nw Ht Hu.
  destruct (canonical_JSON_some v t Hv Nv Ht) as [Av ->].
  destruct (canonical_JSON_some w u Hw Nw Hu) as [Aw ->].
  rw -normal_form_eq; [|done..]. split; [|by intros ->].
  apply render_inj; [by apply normal_form_wf..| |]; by rw normal_form_nesting.
Qed.
