(* ===== verification/Float64.v ===== *)
(** Go's [float64]: IEEE 754 binary64 values, the operations the repository
    uses on them, and their JSON text.

    A finite value is kept as sign, significand and exponent; every operation
    computes the exact rational result and rounds it once, to nearest even. *)
From S2P Require Import Prelude Json JsonFacts Canonical CanonicalFacts.
Local Open Scope Z_scope.

(** [Fin s m e] is [(-1)^s * m * 2^e]. *)
Inductive float64 : Type :=
| Fin (neg : bool) (m e : Z)
| Inf (neg : bool)
| NaN.

Global Instance float64_eq_dec : EqDecision float64.
Proof. solve_decision. Defined.

(** Canonical finite values: 53 significant bits, subnormals at the bottom. *)
Definition float_ok (f : float64) : bool :=
  match f with
  | Fin _ m e =>
      (0 <=? m) && (m <? 2 ^ 53) && (-1074 <=? e) && (e <=? 971)
      && ((2 ^ 52 <=? m) || (e =? -1074))
  | _ => true
  end.

Definition fzero : float64 := Fin false 0 (-1074).

(** * Rounding *)

(** The nearest integer to [n / d], ties to even. *)
Definition div_half_even (n d : Z) : Z :=
  let q := n / d in
  let r := n mod d in
  if (2 * r <? d) || ((2 * r =? d) && Z.even q) then q else q + 1.

(** The greatest [k] with [2^k <= n / d], for positive [n] and [d]. *)
Definition log2_ratio (n d : Z) : Z :=
  let l := Z.log2 n - Z.log2 d in
  if d * 2 ^ Z.max 0 l <=? n * 2 ^ Z.max 0 (- l) then l else l - 1.

(** The value nearest to [n / d], [n >= 0] and [d > 0]. *)
Definition round_ratio (neg : bool) (n d : Z) : float64 :=
  if n =? 0 then Fin neg 0 (-1074)
  else
    let e := Z.max (-1074) (log2_ratio n d - 52) in
    let m := div_half_even (n * 2 ^ Z.max 0 (- e)) (d * 2 ^ Z.max 0 e) in
    let '(m, e) := if m =? 2 ^ 53 then (2 ^ 52, e + 1) else (m, e) in
    if 971 <? e then Inf neg else Fin neg m e.

(** The signed rational [n / d]; a zero takes the sign [zneg]. *)
Definition round_signed (zneg : bool) (n d : Z) : float64 :=
  if n =? 0 then Fin zneg 0 (-1074) else round_ratio (n <? 0) (Z.abs n) d.

(** Conversion of an integer. *)
Definition of_int (z : Z) : float64 := round_signed false z 1.

(** Numerator over [2 ^ scale e] of a finite value. *)
Definition up (e : Z) : Z := 2 ^ Z.max 0 e.
Definition signed (neg : bool) (m : Z) : Z := if neg then - m else m.

Definition fmul (a b : float64) : float64 :=
  match a, b with
  | Fin s m e, Fin s' m' e' => round_ratio (xorb s s') (m * m' * up e * up e') (up (- e) * up (- e'))
  | NaN, _ | _, NaN => NaN
  | Inf s, Inf s' => Inf (xorb s s')
  | Inf s, Fin s' m _ | Fin s m _, Inf s' => if m =? 0 then NaN else Inf (xorb s s')
  end.

Definition fdiv (a b : float64) : float64 :=
  match a, b with
  | Fin s m e, Fin s' m' e' =>
      if m' =? 0 then (if m =? 0 then NaN else Inf (xorb s s'))
      else round_ratio (xorb s s') (m * up e * up (- e')) (m' * up e' * up (- e))
  | NaN, _ | _, NaN => NaN
  | Inf s, Inf _ => NaN
  | Inf s, Fin s' _ _ => Inf (xorb s s')
  | Fin s _ _, Inf s' => Fin (xorb s s') 0 (-1074)
  end.

Definition fadd (a b : float64) : float64 :=
  match a, b with
  | Fin s m e, Fin s' m' e' =>
      round_signed (s && s')
        (signed s m * up e * up (- e') + signed s' m' * up e' * up (- e)) (up (- e) * up (- e'))
  | NaN, _ | _, NaN => NaN
  | Inf s, Inf s' => if Bool.eqb s s' then Inf s else NaN
  | Inf s, _ | _, Inf s => Inf s
  end.

(** [a < b] and [a == b] of IEEE 754: false as soon as one is NaN. *)
Definition fcompare (a b : float64) : option comparison :=
  match a, b with
  | NaN, _ | _, NaN => None
  | Inf s, Inf s' => Some (if s then (if s' then Eq else Lt) else if s' then Gt else Eq)
  | Inf s, Fin _ _ _ => Some (if s then Lt else Gt)
  | Fin _ _ _, Inf s => Some (if s then Gt else Lt)
  | Fin s m e, Fin s' m' e' =>
      Some (signed s m * up e * up (- e') ?= signed s' m' * up e' * up (- e))
  end.
Definition flt (a b : float64) : bool := match fcompare a b with Some Lt => true | _ => false end.
Definition feqb (a b : float64) : bool := match fcompare a b with Some Eq => true | _ => false end.

(** * Text *)

(** Sign, digits and power of ten of a number literal; the exponent is unbounded. *)
Definition literal_value (lit : string) : option (bool * Z * Z) :=
  let '(sg, s1) := scan_sign lit in
  '(i, s2) ← scan_int s1;
  '(f, s3) ← scan_frac s2;
  '(e, _) ← scan_exp s3;
  let frac := match f with String _ d => d | EmptyString => "" end in
  let ex :=
    match e with
    | String _ (String c t) => if is_char 45 c then - dec t else if is_char 43 c then dec t else dec (String c t)
    | _ => 0
    end in
  Some (negb (bool_decide (sg = "")), dec (i +:+ frac), ex - Z.of_nat (String.length frac)).

(** The value nearest to [m * 10^x]; far exponents are decided without computing the power. *)
Definition round_decimal (neg : bool) (m x : Z) : float64 :=
  if m =? 0 then Fin neg 0 (-1074)
  else if 400 <? x then Inf neg
  else if Z.log2 m + 1 + x <? -400 then Fin neg 0 (-1074)
  else round_ratio neg (m * 10 ^ Z.max 0 x) (10 ^ Z.max 0 (- x)).

(** [strconv.ParseFloat(lit, 64)] on a JSON number: an overflow is an error. *)
Definition parse_float (lit : string) : option float64 :=
  '(neg, m, x) ← literal_value lit;
  match round_decimal neg m x with
  | Fin s m e => Some (Fin s m e)
  | _ => None
  end.

(** The greatest [k] with [10^k <= n / d]. *)
Definition log10_ratio (n d : Z) : Z :=
  let k := log2_ratio n d * 30103 / 100000 in
  let le k := 10 ^ Z.max 0 k * d <=? n * 10 ^ Z.max 0 (- k) in
  if le (k + 2) then k + 2 else if le (k + 1) then k + 1 else if le k then k
  else if le (k - 1) then k - 1 else k - 2.

(** The [p]-digit decimal closest to [n / d] that reads back as [f], if any. *)
Definition try_digits (f : float64) (n d k p : Z) : option (Z * Z) :=
  let s := p - 1 - k in
  let num := n * 10 ^ Z.max 0 s in
  let den := d * 10 ^ Z.max 0 (- s) in
  let lo := num / den in
  let ok c := bool_decide (round_decimal false c (- s) = f) in
  let '(a, b) := if 2 * (num mod den) <=? den then (lo, lo + 1) else (lo + 1, lo) in
  if ok a then Some (a, - s) else if ok b then Some (b, - s) else None.

Fixpoint shortest_from (f : float64) (n d k : Z) (exact : Z * Z) (fuel : nat) (p : Z) : Z * Z :=
  match fuel with
  | O => exact
  | S fuel =>
      match try_digits f n d k p with
      | Some r => r
      | None => shortest_from f n d k exact fuel (p + 1)
      end
  end.

(** The shortest decimal [c * 10^x] that reads back as the positive [m * 2^e].
    Seventeen digits always do; past them stands the exact decimal expansion. *)
Definition shortest (m e : Z) : Z * Z :=
  let n := m * up e in
  let d := up (- e) in
  shortest_from (Fin false m e) n d (log10_ratio n d) (n * 5 ^ Z.max 0 (- e), - Z.max 0 (- e)) 17 1.

Fixpoint zeros (n : nat) : string := match n with O => "" | S n => "0" +:+ zeros n end.

(** encoding/json's float text: ['f'] form between 1e-6 and 1e21, else ['e'] form
    with the exponent's leading zero removed. *)
Definition format_decimal (c x : Z) : string :=
  let ds := trim_right0 (pretty c) in
  let len := Z.of_nat (String.length ds) in
  let point := Z.of_nat (String.length (pretty c)) + x in
  if (point <? -5) || (21 <? point) then
    let ex := point - 1 in
    let '(h, t) := str_split 1 ds in
    h +:+ (match t with EmptyString => "" | _ => "." +:+ t end)
    +:+ "e" +:+ (if ex <? 0 then "-" else "+") +:+ (pretty (Z.abs ex) : string)
  else if point <=? 0 then "0." +:+ zeros (Z.to_nat (- point)) +:+ ds
  else if len <=? point then ds +:+ zeros (Z.to_nat (point - len))
  else let '(a, b) := str_split (Z.to_nat point) ds in a +:+ "." +:+ b.

(** json.Marshal of a [float64]: an error for infinities and NaN. *)
Definition float_text (f : float64) : option string :=
  match f with
  | Fin s m e =>
      Some ((if s then "-" else "") +:+
            (if m =? 0 then "0" else let '(c, x) := shortest m e in format_decimal c x))
  | _ => None
  end.

(** A float constant of the source. *)
Definition flit (lit : string) : float64 := default NaN (parse_float lit).

Example float_text_samples :
  map (fun s => f ← parse_float s; float_text f)
    ["0.1"; "1e21"; "1e20"; "123456789012345678"; "0.000001"; "1e-7"; "-0"; "9007199254740993"; "0.30000000000000004"; "2.50"]
  = [Some "0.1"; Some "1e+21"; Some "100000000000000000000"; Some "123456789012345680"; Some "0.000001";
     Some "1e-7"; Some "-0"; Some "9007199254740992";
     Some "0.30000000000000004"; Some "2.5"].
Proof. vm_compute. reflexivity. Qed.

Example float_arith_samples :
  (float_text (fadd (flit "0.1") (flit "0.2")), float_text (fmul (fdiv (of_int 1234) (flit "1000.0")) (flit "0.0025")),
   flt (flit "0.1") (flit "0.2"), feqb (Fin true 0 (-1074)) fzero)
  = (Some "0.30000000000000004", Some "0.003085", true, true).
Proof. vm_compute. reflexivity. Qed.
