(* ===== verification/TimeText.v ===== *)
(** RFC 3339 text of [time.Time] ([time.RFC3339Nano], MarshalJSON and
    UnmarshalJSON) and the [strings] helpers shared by several components. *)
From S2P Require Import Prelude GoTime Json JsonFacts Canonical.
Import GoTime.
Local Open Scope Z_scope.

(** * Times with their offset *)

(** A [time.Time] that keeps its zone: the instant and the offset in minutes. *)
Record ZTime := MkZTime { zt_instant : Time; zt_offset : Z }.
Global Instance ZTime_eq_dec : EqDecision ZTime.
Proof. solve_decision. Defined.
Definition utc (t : Time) : ZTime := MkZTime t 0.

(** The fraction of a second: nine digits without trailing zeros, nothing for zero. *)
Definition fraction_text (nanos : Z) : string :=
  match trim_right0 (digits 9 nanos) with EmptyString => "" | d => "." +:+ d end.

Definition offset_text (off : Z) : string :=
  if off =? 0 then "Z"
  else (if off <? 0 then "-" else "+") +:+ appendInt 2 (Z.abs off / 60) +:+ ":" +:+ appendInt 2 (Z.abs off mod 60).

(** Format(time.RFC3339Nano). *)
Definition formatNano (t : ZTime) : string :=
  let local := zt_instant t + zt_offset t * Minute in
  let secs := local / Second in
  let sod := secs mod 86400 in
  let '(y, m, d) := civil_from_days (secs / 86400) in
  appendInt 4 y +:+ "-" +:+ appendInt 2 m +:+ "-" +:+ appendInt 2 d +:+ "T"
  +:+ appendInt 2 (sod / 3600) +:+ ":" +:+ appendInt 2 (sod / 60 mod 60) +:+ ":"
  +:+ appendInt 2 (sod mod 60) +:+ fraction_text (local mod Second) +:+ offset_text (zt_offset t).

Definition local_year (t : ZTime) : Z :=
  let '(y, _, _) := civil_from_days ((zt_instant t + zt_offset t * Minute) / Second / 86400) in y.

(** MarshalJSON: the year must have four digits and the offset be under a day. *)
Definition time_text (t : ZTime) : option string :=
  if (0 <=? local_year t) && (local_year t <=? 9999) && (Z.abs (zt_offset t) <? 1440)
  then Some (formatNano t) else None.

(** * Parsing *)

Definition fixed_digits (n : nat) (s : string) : option (Z * string) :=
  let '(a, r) := str_split n s in
  if Nat.eqb (String.length a) n && str_all is_digit a then Some (dec a, r) else None.

Definition char_then (z : Z) (s : string) : option string :=
  match s with String c r => if is_char z c then Some r else None | EmptyString => None end.

Definition days_in_month (y m : Z) : Z :=
  if m =? 2 then (if (y mod 4 =? 0) && (negb (y mod 100 =? 0) || (y mod 400 =? 0)) then 29 else 28)
  else if bool_decide (m ∈ [4; 6; 9; 11]) then 30 else 31.

(** Nanoseconds of an optional fraction; digits past the ninth are dropped. *)
Definition parse_fraction (s : string) : option (Z * string) :=
  match s with
  | String c r =>
      if is_char 46 c then
        match scan_digits r with
        | (EmptyString, _) => None
        | (d, r) => Some (dec ((str_split 9 (d +:+ "000000000")).1), r)
        end
      else Some (0, s)
  | EmptyString => Some (0, s)
  end.

Definition parse_offset (s : string) : option Z :=
  match s with
  | String c r =>
      if is_char 90 c then (if bool_decide (r = "") then Some 0 else None)
      else if is_char 43 c || is_char 45 c then
        '(h, r) ← fixed_digits 2 r; r ← char_then 58 r; '(m, r) ← fixed_digits 2 r;
        if bool_decide (r = "") && (h <? 24) && (m <? 60)
        then Some (if is_char 45 c then - (h * 60 + m) else h * 60 + m) else None
      else None
  | EmptyString => None
  end.

(** UnmarshalJSON on the text of a JSON string. *)
Definition parse_time (s : string) : option ZTime :=
  '(y, s) ← fixed_digits 4 s; s ← char_then 45 s;
  '(mo, s) ← fixed_digits 2 s; s ← char_then 45 s;
  '(d, s) ← fixed_digits 2 s; s ← char_then 84 s;
  '(h, s) ← fixed_digits 2 s; s ← char_then 58 s;
  '(mi, s) ← fixed_digits 2 s; s ← char_then 58 s;
  '(se, s) ← fixed_digits 2 s;
  '(ns, s) ← parse_fraction s;
  off ← parse_offset s;
  if (1 <=? mo) && (mo <=? 12) && (1 <=? d) && (d <=? days_in_month y mo)
     && (h <? 24) && (mi <? 60) && (se <? 60)
  then Some (MkZTime (((days_from_civil (y, mo, d) * 86400 + h * 3600 + mi * 60 + se) * Second + ns) - off * Minute) off)
  else None.

Example time_text_samples :
  (map (fun p => time_text (MkZTime p.1 p.2))
     [(0, 0); (1700000000123450000, 0); (1700000000000000000, 330); (zeroTime, 0); (253402300800000000000, 0)],
   map parse_time ["2023-11-14T22:13:20.12345Z"; "2023-11-15T03:43:20+05:30"; "2023-02-29T00:00:00Z"])
  = ([Some "1970-01-01T00:00:00Z"; Some "2023-11-14T22:13:20.12345Z"; Some "2023-11-15T03:43:20+05:30";
      Some "0001-01-01T00:00:00Z"; None],
     [Some (utc 1700000000123450000); Some (MkZTime 1700000000000000000 330); None]).
Proof. vm_compute. reflexivity. Qed.

(** * strings *)

(** UTF-8 text of the white space of [unicode.IsSpace]. *)
Definition space_runes : list string :=
  map encode_rune ([9; 10; 11; 12; 13; 32; 0x85; 0xA0; 0x1680; 0x2028; 0x2029; 0x202F; 0x205F; 0x3000]
                   ++ map (fun i => 0x2000 + Z.of_nat i) (seq 0 11)).

Fixpoint str_rev_onto (s acc : string) : string :=
  match s with EmptyString => acc | String c s => str_rev_onto s (String c acc) end.
Definition str_rev (s : string) : string := str_rev_onto s "".

Fixpoint trim_front (runes : list string) (fuel : nat) (s : string) : string :=
  match fuel with
  | O => s
  | S fuel =>
      match List.find (fun r => has_prefix r s) runes with
      | Some r => trim_front runes fuel (str_split (String.length r) s).2
      | None => s
      end
  end.

(** [strings.TrimSpace]. *)
Definition TrimSpace (s : string) : string :=
  let s := trim_front space_runes (String.length s) s in
  str_rev (trim_front (map str_rev space_runes) (String.length s) (str_rev s)).

Example TrimSpace_sample : map TrimSpace ["  a b "; bytes_str [0xC2; 0xA0; 97; 10]; ""] = ["a b"; "a"; ""].
Proof. vm_compute. reflexivity. Qed.

(** [strings.ToLower]: ASCII letters here; [lower] stands for the Unicode case
    tables, used for text with a byte outside ASCII. *)
Definition ascii_lower (c : Ascii.ascii) : Ascii.ascii :=
  if in_range 65 90 c then byte_chr (byte_val c + 32) else c.
Fixpoint str_map (f : Ascii.ascii -> Ascii.ascii) (s : string) : string :=
  match s with EmptyString => "" | String c s => String (f c) (str_map f s) end.
Definition is_ascii (s : string) : bool := str_all (in_range 0 127) s.
Definition ToLower (lower : string -> string) (s : string) : string :=
  if is_ascii s then str_map ascii_lower s else lower s.

(** [strconv.Atoi], and [strconv.ParseInt] to base 10 and 64 bits. *)
Definition Atoi (s : string) : option Z :=
  let '(neg, d) := match s with
                   | String c r => if is_char 45 c then (true, r) else if is_char 43 c then (false, r) else (false, s)
                   | EmptyString => (false, s)
                   end in
  if str_all is_digit d && negb (bool_decide (d = EmptyString)) then
    let z := if neg then - dec d else dec d in
    if (int64_min <=? z) && (z <=? int64_max) then Some z else None
  else None.
(** [strings.Compare] as [sort.Strings] uses it, and [slices.Compact] after it. *)
Definition sort_strings (l : list string) : list string := merge_sort (fun a b => String.le a b) l.
Fixpoint compact (l : list string) : list string :=
  match l with
  | [] => []
  | x :: t =>
      match t with
      | [] => [x]
      | y :: _ => if bool_decide (x = y) then compact t else x :: compact t
      end
  end.
