(* ===== verification/Execution.v ===== *)
(** The telemetry domain model: api/internal/execution/{model,id,validation}.go.

    [*_json] is what json.Marshal writes for a struct ([None] when it fails),
    [*_of_json] what json.Unmarshal with UseNumber makes of a stored document:
    members of the wrong type leave the zero value, as the callers only log
    that error.  Documents come from [*_json], so keys match exactly. *)
From S2P Require Import Prelude Errors GoTime Sha256 Json JsonFacts Canonical TimeText Float64.
Import GoTime.
Local Open Scope Z_scope.

(** Status and SpanKind are Go string types: any text can occur. *)
Abbreviation Status := string.
Abbreviation SpanKind := string.
Definition StatusRunning : Status := "RUNNING".
Definition StatusCompleted : Status := "COMPLETED".
Definition StatusFailed : Status := "FAILED".
Definition StatusCancelled : Status := "CANCELLED".

Definition SpanKindToolCall : SpanKind := "TOOL_CALL".
Definition SpanKindModelInvocation : SpanKind := "MODEL_INVOCATION".
Definition SpanKindStateMutation : SpanKind := "STATE_MUTATION".
Definition SpanKindHumanApproval : SpanKind := "HUMAN_APPROVAL".
Definition SpanKindPolicyEvaluation : SpanKind := "POLICY_EVALUATION".
Definition SpanKindCustom : SpanKind := "CUSTOM".

(** A [map[string]string]; [None] is the nil map. *)
Abbreviation StrMap := (option (gmap string string)).

(** * Structs *)

(** [Inline] is [JNull] for the nil interface. *)
Record PayloadRef := MkPayloadRef { pl_Inline : json; pl_SizeBytes : Z; pl_ContentType : string }.

Record ToolCallDetail := MkToolCall {
  tc_ToolName : string; tc_ToolVersion : string;
  tc_Input : option PayloadRef; tc_Output : option PayloadRef; tc_DurationMs : Z
}.

Record ModelInvocationDetail := MkModelInvocation {
  mi_ModelName : string; mi_ModelProvider : string;
  mi_Prompt : option PayloadRef; mi_Completion : option PayloadRef;
  mi_PromptTokens : Z; mi_CompletionTokens : Z; mi_TotalTokens : Z; mi_LatencyMs : Z;
  mi_Temperature : float64; mi_SessionID : string; mi_TurnSequence : Z;
  mi_PromptName : string; mi_PromptVersion : Z; mi_CostUSD : float64
}.

Record StateMutationDetail := MkStateMutation {
  sm_Key : string; sm_BeforeValue : option PayloadRef; sm_AfterValue : option PayloadRef; sm_MutationType : string
}.

Record HumanApprovalDetail := MkHumanApproval {
  ha_ApproverID : string; ha_ApproverName : string; ha_Decision : string; ha_Reasoning : string; ha_DecidedAt : ZTime
}.

Record PolicyEvaluationDetail := MkPolicyEvaluation {
  pe_PolicyID : string; pe_PolicyName : string; pe_Result : string; pe_Violations : list string; pe_Context : StrMap
}.

Record SpanError := MkSpanError { er_Code : string; er_Message : string; er_StackTrace : string }.

Record Execution := MkExecution {
  ex_ID : string; ex_AgentID : string; ex_AgentName : string; ex_Status : Status; ex_RootSpanID : string;
  ex_Trigger : string; ex_StartedAt : Time; ex_EndedAt : option Time; ex_Metadata : StrMap; ex_CreatedAt : Time
}.

Record Span := MkSpan {
  sp_ID : string; sp_ExecutionID : string; sp_ParentSpanID : option string; sp_CausedBySpanIDs : list string;
  sp_SpanType : SpanKind; sp_Name : string; sp_Status : Status; sp_StartedAt : Time; sp_EndedAt : option Time;
  sp_Metadata : StrMap;
  sp_ToolCall : option ToolCallDetail; sp_ModelInvocation : option ModelInvocationDetail;
  sp_StateMutation : option StateMutationDetail; sp_HumanApproval : option HumanApprovalDetail;
  sp_PolicyEvaluation : option PolicyEvaluationDetail;
  sp_Error : option SpanError
}.

Record ExecutionEvent := MkExecutionEvent {
  ee_ID : string; ee_ExecutionID : string; ee_SpanID : string; ee_EventType : string; ee_Timestamp : Time;
  ee_SequenceNumber : Z; ee_Payload : option PayloadRef; ee_Metadata : StrMap
}.

Record DAGNode := MkDAGNode {
  dn_ID : string; dn_SpanID : string; dn_Name : string; dn_SpanType : SpanKind; dn_Status : Status;
  dn_StartedAt : Time; dn_EndedAt : option Time; dn_Duration : Z; dn_Metadata : StrMap
}.
Record DAGEdge := MkDAGEdge { de_SourceSpanID : string; de_TargetSpanID : string; de_EdgeType : string }.

Record ReplayFrame := MkReplayFrame {
  rf_SequenceNumber : Z; rf_EventType : string; rf_SpanID : string; rf_SpanName : string; rf_SpanType : SpanKind;
  rf_Event : ExecutionEvent; rf_DeltaMs : Z; rf_ElapsedMs : Z
}.

(** (s *Span) DurationMs *)
Definition DurationMs (s : Span) : Z :=
  match sp_EndedAt s with None => 0 | Some e => Milliseconds (Sub e (sp_StartedAt s)) end.

(** * json.Marshal *)

Abbreviation member := (string * json)%type.
(** [omitempty] *)
Definition omit (empty : bool) (k : string) (v : json) : list member := if empty then [] else [(k, v)].
Definition is_empty (s : string) : bool := bool_decide (s = "").
Definition is_null (v : json) : bool := match v with JNull => true | _ => false end.

Definition strmap_members (m : gmap string string) : list member :=
  map (fun kv => (kv.1, JStr kv.2)) (map_to_list m).
Definition strmap_json (m : StrMap) : json :=
  match m with None => JNull | Some m => JObj (strmap_members m) end.

Definition float_json (f : float64) : option json := JNum <$> float_text f.
Definition time_json (t : ZTime) : option json := JStr <$> time_text t.

Definition payload_json (p : PayloadRef) : json :=
  JObj (omit (is_null (pl_Inline p)) "inline" (pl_Inline p)
        ++ [("size_bytes", JInt (pl_SizeBytes p))]
        ++ omit (is_empty (pl_ContentType p)) "content_type" (JStr (pl_ContentType p))).
Definition payload_opt (k : string) (p : option PayloadRef) : list member :=
  match p with None => [] | Some p => [(k, payload_json p)] end.

Definition toolCall_json (d : ToolCallDetail) : json :=
  JObj ([("tool_name", JStr (tc_ToolName d))]
        ++ omit (is_empty (tc_ToolVersion d)) "tool_version" (JStr (tc_ToolVersion d))
        ++ payload_opt "input" (tc_Input d) ++ payload_opt "output" (tc_Output d)
        ++ [("duration_ms", JInt (tc_DurationMs d))]).

Definition modelInvocation_json (d : ModelInvocationDetail) : option json :=
  temperature ← float_json (mi_Temperature d);
  cost ← float_json (mi_CostUSD d);
  Some (JObj ([("model_name", JStr (mi_ModelName d)); ("model_provider", JStr (mi_ModelProvider d))]
        ++ payload_opt "prompt" (mi_Prompt d) ++ payload_opt "completion" (mi_Completion d)
        ++ [("prompt_tokens", JInt (mi_PromptTokens d)); ("completion_tokens", JInt (mi_CompletionTokens d));
            ("total_tokens", JInt (mi_TotalTokens d)); ("latency_ms", JInt (mi_LatencyMs d)); ("temperature", temperature)]
        ++ omit (is_empty (mi_SessionID d)) "session_id" (JStr (mi_SessionID d))
        ++ omit (mi_TurnSequence d =? 0) "turn_sequence" (JInt (mi_TurnSequence d))
        ++ omit (is_empty (mi_PromptName d)) "prompt_name" (JStr (mi_PromptName d))
        ++ omit (mi_PromptVersion d =? 0) "prompt_version" (JInt (mi_PromptVersion d))
        ++ omit (feqb (mi_CostUSD d) fzero) "cost_usd" cost)).

Definition stateMutation_json (d : StateMutationDetail) : json :=
  JObj ([("key", JStr (sm_Key d))] ++ payload_opt "before_value" (sm_BeforeValue d)
        ++ payload_opt "after_value" (sm_AfterValue d) ++ [("mutation_type", JStr (sm_MutationType d))]).

Definition humanApproval_json (d : HumanApprovalDetail) : option json :=
  at_ ← time_json (ha_DecidedAt d);
  Some (JObj [("approver_id", JStr (ha_ApproverID d)); ("approver_name", JStr (ha_ApproverName d));
              ("decision", JStr (ha_Decision d)); ("reasoning", JStr (ha_Reasoning d)); ("decided_at", at_)]).

Definition policyEvaluation_json (d : PolicyEvaluationDetail) : json :=
  JObj ([("policy_id", JStr (pe_PolicyID d)); ("policy_name", JStr (pe_PolicyName d)); ("result", JStr (pe_Result d))]
        ++ omit (bool_decide (pe_Violations d = [])) "violations" (JArr (map JStr (pe_Violations d)))
        ++ match pe_Context d with
           | None => []
           | Some m => omit (bool_decide (m = ∅)) "context" (JObj (strmap_members m))
           end).

Definition spanError_json (e : SpanError) : json :=
  JObj ([("code", JStr (er_Code e)); ("message", JStr (er_Message e))]
        ++ omit (is_empty (er_StackTrace e)) "stack_trace" (JStr (er_StackTrace e))).

(** An optional member whose value may fail to marshal. *)
Definition opt_member {A} (k : string) (f : A -> option json) (o : option A) : option (list member) :=
  match o with None => Some [] | Some a => v ← f a; Some [(k, v)] end.

Definition span_json (s : Span) : option json :=
  started ← time_json (utc (sp_StartedAt s));
  ended ← opt_member "ended_at" (fun t => time_json (utc t)) (sp_EndedAt s);
  model ← opt_member "model_invocation" modelInvocation_json (sp_ModelInvocation s);
  approval ← opt_member "human_approval" humanApproval_json (sp_HumanApproval s);
  tool ← opt_member "tool_call" (fun d => Some (toolCall_json d)) (sp_ToolCall s);
  mutation ← opt_member "state_mutation" (fun d => Some (stateMutation_json d)) (sp_StateMutation s);
  policy ← opt_member "policy_evaluation" (fun d => Some (policyEvaluation_json d)) (sp_PolicyEvaluation s);
  error ← opt_member "error" (fun d => Some (spanError_json d)) (sp_Error s);
  parent ← opt_member "parent_span_id" (fun p => Some (JStr p)) (sp_ParentSpanID s);
  Some (JObj ([("id", JStr (sp_ID s)); ("execution_id", JStr (sp_ExecutionID s))] ++ parent
        ++ omit (bool_decide (sp_CausedBySpanIDs s = [])) "caused_by_span_ids" (JArr (map JStr (sp_CausedBySpanIDs s)))
        ++ [("span_type", JStr (sp_SpanType s)); ("name", JStr (sp_Name s)); ("status", JStr (sp_Status s));
            ("started_at", started)] ++ ended ++ [("metadata", strmap_json (sp_Metadata s))]
        ++ tool ++ model ++ mutation ++ approval ++ policy ++ error)).

Definition event_json (e : ExecutionEvent) : option json :=
  ts ← time_json (utc (ee_Timestamp e));
  Some (JObj ([("id", JStr (ee_ID e)); ("execution_id", JStr (ee_ExecutionID e)); ("span_id", JStr (ee_SpanID e));
               ("event_type", JStr (ee_EventType e)); ("timestamp", ts); ("sequence_number", JInt (ee_SequenceNumber e))]
        ++ payload_opt "payload" (ee_Payload e) ++ [("metadata", strmap_json (ee_Metadata e))])).

(** * json.Unmarshal *)

Definition members_of (v : json) : list member := match v with JObj m => m | _ => [] end.
Fixpoint field (k : string) (m : list member) : option json :=
  match m with
  | [] => None
  | (k', v) :: m => if bool_decide (k = k') then Some v else field k m
  end.

Definition as_string (o : option json) : string := match o with Some (JStr s) => s | _ => "" end.
Definition as_any (o : option json) : json := default JNull o.
Definition as_float (o : option json) : float64 :=
  match o with Some (JNum lit) => default fzero (parse_float lit) | _ => fzero end.

(** [strconv.ParseInt] on a number literal, for an integer type of [w] bits. *)
Definition parse_integer (w : Z) (lit : string) : option Z :=
  let '(sg, d) := scan_sign lit in
  if str_all is_digit d && negb (is_empty d) then
    let z := if is_empty sg then dec d else - dec d in
    if (z <? - 2 ^ (w - 1)) || (2 ^ (w - 1) - 1 <? z) then None else Some z
  else None.
Definition as_integer (w : Z) (o : option json) : Z :=
  match o with Some (JNum lit) => default 0 (parse_integer w lit) | _ => 0 end.

Definition as_strmap (o : option json) : StrMap :=
  match o with
  | Some (JObj m) => Some (list_to_map (map (fun kv => (kv.1, as_string (Some kv.2))) m))
  | _ => None
  end.
Definition as_strings (o : option json) : list string :=
  match o with Some (JArr l) => map (fun v => as_string (Some v)) l | _ => [] end.
Definition as_time (o : option json) : ZTime :=
  match o with Some (JStr s) => default (utc zeroTime) (parse_time s) | _ => utc zeroTime end.

(** A pointer to a struct: allocated for every value but null. *)
Definition as_ref {A} (f : list member -> A) (o : option json) : option A :=
  match o with None | Some JNull => None | Some v => Some (f (members_of v)) end.

Definition payload_of_json (m : list member) : PayloadRef :=
  MkPayloadRef (as_any (field "inline" m)) (as_integer 64 (field "size_bytes" m)) (as_string (field "content_type" m)).

Definition toolCall_of_json (m : list member) : ToolCallDetail :=
  MkToolCall (as_string (field "tool_name" m)) (as_string (field "tool_version" m))
    (as_ref payload_of_json (field "input" m)) (as_ref payload_of_json (field "output" m))
    (as_integer 64 (field "duration_ms" m)).

Definition modelInvocation_of_json (m : list member) : ModelInvocationDetail :=
  MkModelInvocation (as_string (field "model_name" m)) (as_string (field "model_provider" m))
    (as_ref payload_of_json (field "prompt" m)) (as_ref payload_of_json (field "completion" m))
    (as_integer 32 (field "prompt_tokens" m)) (as_integer 32 (field "completion_tokens" m))
    (as_integer 32 (field "total_tokens" m)) (as_integer 64 (field "latency_ms" m))
    (as_float (field "temperature" m)) (as_string (field "session_id" m)) (as_integer 64 (field "turn_sequence" m))
    (as_string (field "prompt_name" m)) (as_integer 64 (field "prompt_version" m)) (as_float (field "cost_usd" m)).

Definition stateMutation_of_json (m : list member) : StateMutationDetail :=
  MkStateMutation (as_string (field "key" m)) (as_ref payload_of_json (field "before_value" m))
    (as_ref payload_of_json (field "after_value" m)) (as_string (field "mutation_type" m)).

Definition humanApproval_of_json (m : list member) : HumanApprovalDetail :=
  MkHumanApproval (as_string (field "approver_id" m)) (as_string (field "approver_name" m))
    (as_string (field "decision" m)) (as_string (field "reasoning" m)) (as_time (field "decided_at" m)).

Definition policyEvaluation_of_json (m : list member) : PolicyEvaluationDetail :=
  MkPolicyEvaluation (as_string (field "policy_id" m)) (as_string (field "policy_name" m))
    (as_string (field "result" m)) (as_strings (field "violations" m)) (as_strmap (field "context" m)).

Definition spanError_of_json (m : list member) : SpanError :=
  MkSpanError (as_string (field "code" m)) (as_string (field "message" m)) (as_string (field "stack_trace" m)).

(** * Identifiers *)

Definition id_text (prefix : string) (n : nat) (input : string) : string :=
  prefix +:+ Sha256.hex_encode (firstn n (Sha256.Sum256 input)).

Definition GenerateExecutionID (agentID : string) (startTime : Z) (idempotencyKey : string) : string :=
  id_text "exec_" 8 ("exec:" +:+ agentID +:+ ":" +:+ pretty startTime +:+ ":" +:+ idempotencyKey).
Definition GenerateSpanID (executionID parentSpanID name : string) (seq : Z) : string :=
  id_text "span_" 8 ("span:" +:+ executionID +:+ ":" +:+ parentSpanID +:+ ":" +:+ name +:+ ":" +:+ pretty seq).
Definition GenerateEventID (executionID spanID eventType : string) (seq : Z) : string :=
  id_text "evt_" 8 ("evt:" +:+ executionID +:+ ":" +:+ spanID +:+ ":" +:+ eventType +:+ ":" +:+ pretty seq).

(** * Validation *)

Definition ValidateExecution (e : Execution) : res unit :=
  if is_empty (ex_AgentID e) then Err (Validation "agent_id" "must not be empty")
  else if IsZero (ex_StartedAt e) then Err (Validation "started_at" "must not be zero")
  else match ex_EndedAt e with
       | Some t => if Before t (ex_StartedAt e) then Err (Validation "ended_at" "must be after started_at") else Ok tt
       | None => Ok tt
       end.

Definition isValidSpanKind (k : SpanKind) : bool :=
  bool_decide (k ∈ [SpanKindToolCall; SpanKindModelInvocation; SpanKindStateMutation;
                    SpanKindHumanApproval; SpanKindPolicyEvaluation; SpanKindCustom]).

Definition is_none {A} (o : option A) : bool := match o with None => true | Some _ => false end.

Definition ValidateSpan (s : option Span) : res unit :=
  match s with
  | None => Err (InvalidInput "span required")
  | Some s =>
      if negb (bool_decide (sp_Status s ∈ [StatusRunning; StatusCompleted; StatusFailed; StatusCancelled])) then
        Err (Validation "status" "invalid span status")
      else if negb (Bool.eqb (bool_decide (sp_Status s = StatusRunning)) (is_none (sp_EndedAt s))) then
        Err (Validation "ended_at" "required for terminal spans and absent for RUNNING spans")
      else if is_empty (sp_ExecutionID s) then Err (Validation "execution_id" "must not be empty")
      else if is_empty (sp_Name s) then Err (Validation "name" "must not be empty")
      else if negb (isValidSpanKind (sp_SpanType s)) then
        Err (Validation "span_type" ("invalid span type: " +:+ sp_SpanType s))
      else if IsZero (sp_StartedAt s) then Err (Validation "started_at" "must not be zero")
      else match sp_EndedAt s with
           | Some t => if Before t (sp_StartedAt s) then Err (Validation "ended_at" "must be after started_at") else Ok tt
           | None => Ok tt
           end
  end.

Definition ValidateEvent (e : ExecutionEvent) : res unit :=
  if is_empty (ee_ExecutionID e) then Err (Validation "execution_id" "must not be empty")
  else if is_empty (ee_SpanID e) then Err (Validation "span_id" "must not be empty")
  else if is_empty (ee_EventType e) then Err (Validation "event_type" "must not be empty")
  else if IsZero (ee_Timestamp e) then Err (Validation "timestamp" "must not be zero")
  else Ok tt.

(** What a validated span satisfies. *)
Definition span_terminal (s : Span) : bool := negb (bool_decide (sp_Status s = StatusRunning)).
