(* ===== verification/Pricing.v ===== *)
(** Model pricing: api/internal/analytics/cost.go.

    The active table is a finite map; a Go [range] over it is a list of its
    entries in an unspecified order, which the theorems quantify over.
    [lower] stands for the Unicode case tables ([ToLower]). *)
From S2P Require Import Prelude Json JsonFacts Canonical TimeText Float64 Execution.
Local Open Scope Z_scope.

Record pricing := MkPricing { inputPer1K : float64; outputPer1K : float64 }.

Definition entry (i o : string) : pricing := MkPricing (flit i) (flit o).

(** The compile-time defaults. *)
Definition pricingEntries : list (string * pricing) :=
  [
   ("gpt-4o", entry "0.0025" "0.01"); ("gpt-4o-mini", entry "0.00015" "0.0006");
   ("gpt-4-turbo", entry "0.01" "0.03"); ("gpt-4", entry "0.03" "0.06");
   ("gpt-3.5-turbo", entry "0.0005" "0.0015"); ("o1", entry "0.015" "0.06");
   ("o1-mini", entry "0.003" "0.012"); ("o3", entry "0.01" "0.04");
   ("o3-mini", entry "0.0011" "0.0044"); ("o4-mini", entry "0.0011" "0.0044");
   ("claude-sonnet-4", entry "0.003" "0.015"); ("claude-3.5-sonnet", entry "0.003" "0.015");
   ("claude-3-sonnet", entry "0.003" "0.015"); ("claude-3-opus", entry "0.015" "0.075");
   ("claude-3-haiku", entry "0.00025" "0.00125"); ("claude-3.5-haiku", entry "0.0008" "0.004");
   ("gemini-2.5-pro", entry "0.00125" "0.01"); ("gemini-2.5-flash", entry "0.000075" "0.0003");
   ("gemini-2.0-flash", entry "0.0001" "0.0004"); ("gemini-1.5-pro", entry "0.00125" "0.005");
   ("gemini-1.5-flash", entry "0.000075" "0.0003"); ("mistral-large", entry "0.002" "0.006");
   ("mistral-medium", entry "0.0027" "0.0081"); ("mistral-small", entry "0.001" "0.003");
   ("codestral", entry "0.001" "0.003"); ("command-r-plus", entry "0.003" "0.015");
   ("command-r", entry "0.0005" "0.0015"); ("llama-3.1-405b", entry "0.003" "0.003");
   ("llama-3.1-70b", entry "0.00079" "0.00079"); ("llama-3.1-8b", entry "0.00018" "0.00018");
   ("llama-3-70b", entry "0.00079" "0.00079"); ("llama-3-8b", entry "0.00018" "0.00018");
   ("deepseek-v3", entry "0.00014" "0.00028"); ("deepseek-r1", entry "0.00055" "0.00219");
   ("deepseek-chat", entry "0.00014" "0.00028"); ("deepseek-coder", entry "0.00014" "0.00028");
   ("grok-3", entry "0.003" "0.015"); ("grok-3-mini", entry "0.0003" "0.0005")].
Definition pricingTable : gmap string pricing := list_to_map pricingEntries.

(** [init]: the active table starts as a copy of the defaults. *)
Definition initialPricing : gmap string pricing := pricingTable.

Section Pricing.
Variable lower : string -> string.

(** The prefix loop: the best key so far, empty before the first match. *)
Definition prefix_step (model : string) (best : string * pricing) (kv : string * pricing) : string * pricing :=
  if has_prefix kv.1 model && (Nat.ltb (String.length best.1) (String.length kv.1)) then kv else best.
Definition longest_prefix (model : string) (entries : list (string * pricing)) : string * pricing :=
  fold_left (prefix_step model) entries ("", MkPricing fzero fzero).

(** [lookupPricing]; [entries] is the table in the order the loop visits it. *)
Definition lookupPricing (active : gmap string pricing) (entries : list (string * pricing)) (model : string) : option pricing :=
  let l := ToLower lower (TrimSpace model) in
  if is_empty l then None
  else match active !! l with
       | Some p => Some p
       | None =>
           let '(bestKey, bestPrice) := longest_prefix l entries in
           if is_empty bestKey then None else Some bestPrice
       end.

Definition thousand : float64 := flit "1000.0".

Definition EstimateCost (active : gmap string pricing) (entries : list (string * pricing))
    (model provider : string) (promptTokens completionTokens : Z) : float64 :=
  match lookupPricing active entries model with
  | None => fzero
  | Some p =>
      fadd (fmul (fdiv (of_int promptTokens) thousand) (inputPer1K p))
           (fmul (fdiv (of_int completionTokens) thousand) (outputPer1K p))
  end.

Record CostCall := MkCostCall { cc_Model : string; cc_Provider : string; cc_PromptTokens : Z; cc_CompletionTokens : Z }.

Definition EstimateCostBatch (active : gmap string pricing) (entries : list (string * pricing)) (calls : list CostCall) : float64 :=
  fold_left (fun total c =>
    fadd total (EstimateCost active entries (cc_Model c) (cc_Provider c) (cc_PromptTokens c) (cc_CompletionTokens c))) calls fzero.

(** The keys in visiting order. *)
Definition SupportedModels (entries : list (string * pricing)) : list string := map fst entries.

(** ** UpdatePricingFromRemote *)

(** A float member of a remote entry: absent and null leave zero, another type is an error. *)
Definition remote_float (k : string) (m : list member) : option float64 :=
  match field k m with
  | None | Some JNull => Some fzero
  | Some (JNum lit) => parse_float lit
  | Some _ => None
  end.

Definition remote_entry (v : json) : option pricing :=
  match v with
  | JNull => Some (MkPricing fzero fzero)
  | JObj m =>
      i ← remote_float "input_cost_per_token" m;
      o ← remote_float "output_cost_per_token" m;
      Some (MkPricing i o)
  | _ => None
  end.

Fixpoint remote_entries (m : list member) : option (list (string * pricing)) :=
  match m with
  | [] => Some []
  | (k, v) :: m => p ← remote_entry v; l ← remote_entries m; Some ((k, p) :: l)
  end.

(** One entry of the loop under the lock: per-token prices become per-1K prices. *)
Definition apply_remote (active : gmap string pricing) (kv : string * pricing) : gmap string pricing :=
  let '(model, info) := kv in
  if flt fzero (inputPer1K info) || flt fzero (outputPer1K info)
  then <[ToLower lower model := MkPricing (fmul (inputPer1K info) thousand) (fmul (outputPer1K info) thousand)]> active
  else active.

(** [body] is what the registry answered, [None] when the request failed. *)
Definition UpdatePricingFromRemote (active : gmap string pricing) (body : option string) : option (gmap string pricing) :=
  b ← body;
  v ← decode b;
  l ← match v with JNull => Some [] | JObj m => remote_entries m | _ => None end;
  Some (fold_left apply_remote l active).
End Pricing.

Example EstimateCost_samples :
  map (fun '(m, p, c) => float_text (EstimateCost (fun s => s) initialPricing (map_to_list initialPricing) m "" p c))
    [("gpt-4o-mini-2024-07-18", 1000, 1000); (" GPT-4o ", 1500, 0); ("unknown-model", 10, 10)]
  = [Some "0.0007499999999999999"; Some "0.00375"; Some "0"].
Proof. vm_compute. reflexivity. Qed.

(** * The answer does not depend on the map's iteration order *)

Lemma has_prefix_length p s : has_prefix p s = true -> (String.length p <= String.length s)%nat.
Proof. intros [t ->]%has_prefix_spec. rw str_length_app. lia. Qed.

Lemma prefixes_same_length p q s :
  has_prefix p s = true -> has_prefix q s = true -> String.length p = String.length q -> p = q.
Proof.
  intros [t ->]%has_prefix_spec [u Hu]%has_prefix_spec Hl.
  revert q Hu Hl. induction p as [|c p IH]; intros [|d q]; rw ?str_cons_app; try done.
  intros [= -> Hu] [= Hl]. f_equal. by apply IH.
Qed.

(** The best entry of [l] for [s], or the start value. *)
Definition best_of (s : string) (l : list (string * pricing)) (b : string * pricing) : Prop :=
  (b = ("", MkPricing fzero fzero) /\ forall kv, kv ∈ l -> has_prefix kv.1 s = true -> kv.1 = "")
  \/ (b ∈ l /\ has_prefix b.1 s = true /\ b.1 <> ""
      /\ forall kv, kv ∈ l -> has_prefix kv.1 s = true -> (String.length kv.1 <= String.length b.1)%nat).

Lemma longest_prefix_best s l : best_of s l (longest_prefix s l).
Proof.
  unfold longest_prefix. induction l as [|kv l IH] using rev_ind.
  { left. split; [done|]. by intros kv ?%not_elem_of_nil. }
  rw fold_left_app. cbn [fold_left]. set (b := fold_left _ l _) in *. unfold prefix_step.
  destruct (has_prefix kv.1 s) eqn:Hp; cbn [andb].
  - destruct (Nat.ltb_spec (String.length b.1) (String.length kv.1)) as [Hlt|Hge].
    + right. split_and!; [set_solver|done|by intros Hk; rw Hk in Hlt; cbn in Hlt; lia|].
      intros x [Hx|Hx%list_elem_of_singleton]%elem_of_app Hpx; [|by subst].
      destruct IH as [[-> Hn]|(_ & _ & _ & Hm)]; [rw (Hn x Hx Hpx); cbn; lia|]. specialize (Hm x Hx Hpx). lia.
    + destruct IH as [[Hb Hn]|(H1 & H2 & H3 & Hm)].
      * left. split; [done|]. intros x [Hx|Hx%list_elem_of_singleton]%elem_of_app Hpx; [auto|].
        subst x. rw Hb in Hge. cbn in Hge. destruct kv.1; [done|cbn in Hge; lia].
      * right. split_and!; [set_solver|done|done|]. intros x [Hx|Hx%list_elem_of_singleton]%elem_of_app Hpx; [auto|by subst].
  - destruct IH as [[Hb Hn]|(H1 & H2 & H3 & Hm)].
    + left. split; [done|]. intros x [Hx|Hx%list_elem_of_singleton]%elem_of_app Hpx; [auto|by subst x; rw Hp in Hpx].
    + right. split_and!; [set_solver|done|done|].
      intros x [Hx|Hx%list_elem_of_singleton]%elem_of_app Hpx; [auto|by subst x; rw Hp in Hpx].
Qed.

Lemma best_of_unique s l l' b b' :
  NoDup (map fst l) -> l ≡ₚ l' -> best_of s l b -> best_of s l' b' -> b = b'.
Proof.
  intros Hn Hp [[-> H1]|(Hb & Pb & Nb & Mb)] [[-> H2]|(Hb' & Pb' & Nb' & Mb')]; [done| | |].
  - exfalso. apply Nb', H1; [by rw Hp|done].
  - exfalso. apply Nb, H2; [by rw -Hp|done].
  - rw -Hp in Hb'. assert (Hk : b.1 = b'.1).
    { apply (prefixes_same_length _ _ s); [done|done|].
      pose proof (Mb b' Hb' Pb'). pose proof (Mb' b ltac:(by rw -Hp) Pb). lia. }
    destruct b as [k v], b' as [k' v']. cbn in Hk. subst k'.
    assert (E : (list_to_map l : gmap string pricing) !! k = Some v) by by apply elem_of_list_to_map_1.
    assert (E' : (list_to_map l : gmap string pricing) !! k = Some v') by by apply elem_of_list_to_map_1.
    congruence.
Qed.

Lemma longest_prefix_perm s l l' :
  NoDup (map fst l) -> l ≡ₚ l' -> longest_prefix s l = longest_prefix s l'.
Proof. intros Hn Hp. apply (best_of_unique s l l'); try done; apply longest_prefix_best. Qed.

(** What the price of a model is, without reference to any order. *)
Definition priced (lower : string -> string) (active : gmap string pricing) (model : string) (p : pricing) : Prop :=
  exists key, active !! key = Some p /\ key <> "" /\ has_prefix key (ToLower lower (TrimSpace model)) = true
  /\ forall key' p', active !! key' = Some p' -> has_prefix key' (ToLower lower (TrimSpace model)) = true ->
       (String.length key' <= String.length key)%nat.

Lemma has_prefix_self s : has_prefix s s = true.
Proof. apply has_prefix_spec. exists "". by rw str_app_nil_r. Qed.

Lemma lookupPricing_priced lower active entries model p :
  entries ≡ₚ map_to_list active ->
  lookupPricing lower active entries model = Some p <-> priced lower active model p.
Proof.
  intros Hp. unfold lookupPricing, priced. set (s := ToLower lower (TrimSpace model)).
  assert (Hin : forall k v, (k, v) ∈ entries <-> active !! k = Some v) by (intros k v; rw Hp; apply elem_of_map_to_list).
  unfold is_empty. case_bool_decide as Hs.
  { rw Hs. split; [done|]. intros (k & _ & Hne & Hpre & _). apply has_prefix_length in Hpre. destruct k; [done|cbn in Hpre; lia]. }
  destruct (active !! s) as [q|] eqn:Hq.
  - split.
    + intros [= <-]. exists s. split_and!; [done|done|apply has_prefix_self|]. intros k v _ Hk. by apply has_prefix_length.
    + intros (k & Hk & _ & Hpre & Hmax). pose proof (Hmax s q Hq (has_prefix_self s)) as Hl.
      assert (k = s); [|congruence]. apply (prefixes_same_length _ _ s); [done|apply has_prefix_self|].
      apply has_prefix_length in Hpre. lia.
  - destruct (longest_prefix_best s entries) as [[Hb Hn]|(Hb & Pb & Nb & Mb)].
    + rw Hb. rw bool_decide_eq_true_2; [|done]. split; [done|]. intros (k & Hk & Hne & Hpre & _).
      destruct Hne. by apply (Hn (k, p)); [apply Hin|].
    + destruct (longest_prefix s entries) as [bk bp]. cbn in Pb, Nb, Mb. rw bool_decide_eq_false_2; [|done]. split.
      * intros [= <-]. exists bk. split_and!; [by apply Hin|done|done|]. intros k v Hk%Hin Hpre. exact (Mb _ Hk Hpre).
      * intros (k & Hk & Hne & Hpre & Hmax). assert (k = bk) as ->.
        { apply (prefixes_same_length _ _ s); [done|done|]. pose proof (Mb (k, p) ltac:(by apply Hin) Hpre) as H1. cbn in H1.
          pose proof (Hmax bk bp ltac:(by apply Hin) Pb). lia. }
        apply Hin in Hb. congruence.
Qed.
