(* ===== verification/AuditModel.v ===== *)
(** The audit domain model: api/internal/audit/{model,validation,hash}.go.

    String-typed enumerations ([ActorType], [Outcome], [Scope]) stay strings, as
    in Go, with their [IsValid] tests.  [Metadata] is a Go map: [None] is the
    nil map, the members of a non-nil map come in any order. *)
From S2P Require Import Prelude Errors GoTime Sha256 Json Canonical.
Import GoTime.

(** * model.go *)

Definition ActorHuman : string := "human".
Definition ActorAgent : string := "agent".
Definition ActorSystem : string := "system".
Definition ActorType_IsValid (t : string) : bool :=
  bool_decide (t = ActorHuman) || bool_decide (t = ActorAgent) || bool_decide (t = ActorSystem).

Definition OutcomeSuccess : string := "success".
Definition OutcomeFailure : string := "failure".
Definition OutcomeError : string := "error".
Definition Outcome_IsValid (o : string) : bool :=
  bool_decide (o = OutcomeSuccess) || bool_decide (o = OutcomeFailure) || bool_decide (o = OutcomeError).

Definition ScopeRead : string := "read".
Definition ScopeWrite : string := "write".
Definition Scope_CanWrite (s : string) : bool := bool_decide (s = ScopeWrite).
Definition Scope_IsValid (s : string) : bool :=
  bool_decide (s = ScopeRead) || bool_decide (s = ScopeWrite).

Definition GenesisHash : string := "genesis".

Record Actor := MkActor { actor_ID : string; actor_Type : string; actor_Email : string }.
Record Resource := MkResource { resource_ID : string; resource_Type : string; resource_Name : string }.

Definition metadata := list (string * json).

Record AuditEvent := MkEvent {
  ev_ID : string;
  ev_TenantID : string;
  ev_Timestamp : Time;
  ev_Actor : Actor;
  ev_Action : string;
  ev_Resource : Resource;
  ev_Outcome : string;
  ev_Metadata : option metadata;
  ev_PrevHash : string;
  ev_Hash : string;
  ev_SequenceNumber : Z
}.

(** Field updates. *)
Definition set_ID x e := MkEvent x (ev_TenantID e) (ev_Timestamp e) (ev_Actor e) (ev_Action e)
  (ev_Resource e) (ev_Outcome e) (ev_Metadata e) (ev_PrevHash e) (ev_Hash e) (ev_SequenceNumber e).
Definition set_TenantID x e := MkEvent (ev_ID e) x (ev_Timestamp e) (ev_Actor e) (ev_Action e)
  (ev_Resource e) (ev_Outcome e) (ev_Metadata e) (ev_PrevHash e) (ev_Hash e) (ev_SequenceNumber e).
Definition set_Timestamp x e := MkEvent (ev_ID e) (ev_TenantID e) x (ev_Actor e) (ev_Action e)
  (ev_Resource e) (ev_Outcome e) (ev_Metadata e) (ev_PrevHash e) (ev_Hash e) (ev_SequenceNumber e).
Definition set_Metadata x e := MkEvent (ev_ID e) (ev_TenantID e) (ev_Timestamp e) (ev_Actor e) (ev_Action e)
  (ev_Resource e) (ev_Outcome e) x (ev_PrevHash e) (ev_Hash e) (ev_SequenceNumber e).
Definition set_chain prev hash e := MkEvent (ev_ID e) (ev_TenantID e) (ev_Timestamp e) (ev_Actor e) (ev_Action e)
  (ev_Resource e) (ev_Outcome e) (ev_Metadata e) prev hash (ev_SequenceNumber e).
Definition set_PrevHash x e := set_chain x (ev_Hash e) e.
Definition set_Hash x e := set_chain (ev_PrevHash e) x e.
Definition set_SequenceNumber x e := MkEvent (ev_ID e) (ev_TenantID e) (ev_Timestamp e) (ev_Actor e) (ev_Action e)
  (ev_Resource e) (ev_Outcome e) (ev_Metadata e) (ev_PrevHash e) (ev_Hash e) x.

(** [Filter], with its pagination defaults. *)
Record Filter := MkFilter {
  f_SessionID : string;
  f_ActorID : string;
  f_ActorType : string;
  f_Action : string;
  f_ResourceID : string;
  f_Outcome : string;
  f_From : Time;
  f_To : Time;
  f_Page : Z;
  f_PageSize : Z
}.

Definition Filter_Normalise (f : Filter) : Filter :=
  let page := if (f_Page f <=? 0)%Z then 1%Z else f_Page f in
  let size := if (f_PageSize f <=? 0)%Z then 50%Z else f_PageSize f in
  let size := if (1000 <? size)%Z then 1000%Z else size in
  MkFilter (f_SessionID f) (f_ActorID f) (f_ActorType f) (f_Action f) (f_ResourceID f)
    (f_Outcome f) (f_From f) (f_To f) page size.

(** Go's [int] multiplication wraps at 64 bits. *)
Definition Filter_Offset (f : Filter) : Z := wrap64 (wrap64 (f_Page f - 1) * f_PageSize f).

Record BrokenEvent := MkBroken {
  be_EventID : string;
  be_SequenceNumber : Z;
  be_Timestamp : Time;
  be_Action : string;
  be_ActorID : string;
  be_Reason : string
}.

Record VerifyResult := MkVerify {
  vr_Valid : bool;
  vr_TenantID : string;
  vr_EventsChecked : nat;
  vr_RootHash : string;
  vr_From : Time;
  vr_To : Time;
  vr_FirstBrokenEventID : string;
  vr_Reason : string;
  vr_AllBrokenEvents : list BrokenEvent;
  vr_BrokenCount : nat
}.

Record Tenant := MkTenant { tn_ID : string; tn_Name : string; tn_CreatedAt : Time }.

Record APIKey := MkKey {
  k_ID : string;
  k_TenantID : string;
  k_Hash : string;
  k_Scope : string;
  k_Label : string;
  k_CreatedAt : Time;
  k_RevokedAt : option Time
}.

(** * validation.go *)

(** The supported history: [historyStart] and [farFuture] of service.go. *)
Definition historyStart : Time := 0%Z.

Definition Validate (e : option AuditEvent) : res unit :=
  match e with
  | None => Err (InvalidInput "event must not be nil")
  | Some e =>
      if negb (IsZero (ev_Timestamp e)) && Before (ev_Timestamp e) historyStart then
        Err (Validation "timestamp" "must be at or after 1970-01-01T00:00:00Z")
      else if After (ev_Timestamp e) farFuture then
        Err (Validation "timestamp" "must be at or before 9999-12-31T23:59:59.999999999Z")
      else if bool_decide (actor_ID (ev_Actor e) = "") then
        Err (Validation "actor.id" "must not be empty")
      else if negb (ActorType_IsValid (actor_Type (ev_Actor e))) then
        Err (Validation "actor.type" "must be one of human|agent|system")
      else if bool_decide (ev_Action e = "") then
        Err (Validation "action" "must not be empty")
      else if bool_decide (resource_ID (ev_Resource e) = "") then
        Err (Validation "resource.id" "must not be empty")
      else if bool_decide (resource_Type (ev_Resource e) = "") then
        Err (Validation "resource.type" "must not be empty")
      else if negb (Outcome_IsValid (ev_Outcome e)) then
        Err (Validation "outcome" "must be one of success|failure|error")
      else Ok tt
  end.

(** * hash.go *)

Definition HashPrefix : string := "sha256:v2:".

(** A member with [omitempty]. *)
Definition omitempty (k s : string) : metadata :=
  if bool_decide (s = "") then [] else [(k, JStr s)].

Definition actor_json (a : Actor) : json :=
  JObj ([("id", JStr (actor_ID a)); ("type", JStr (actor_Type a))] ++ omitempty "email" (actor_Email a)).
Definition resource_json (r : Resource) : json :=
  JObj ([("id", JStr (resource_ID r)); ("type", JStr (resource_Type r))] ++ omitempty "name" (resource_Name r)).

(** The anonymous struct [ComputeHash] marshals. *)
Definition hash_record (e : AuditEvent) : json :=
  JObj [("id", JStr (ev_ID e));
        ("tenant_id", JStr (ev_TenantID e));
        ("timestamp", JStr (formatMicro (Truncate Microsecond (ev_Timestamp e))));
        ("actor", actor_json (ev_Actor e));
        ("action", JStr (ev_Action e));
        ("resource", resource_json (ev_Resource e));
        ("outcome", JStr (ev_Outcome e));
        ("metadata", JObj (default [] (ev_Metadata e)));
        ("prev_hash", JStr (ev_PrevHash e));
        ("sequence_number", JInt (ev_SequenceNumber e))].

Definition ComputeHash_ptr (e : option AuditEvent) : string :=
  match e with
  | None => ""
  | Some e =>
      match canonical_JSON (hash_record e) with
      | None => ""
      | Some b => HashPrefix +:+ hex_encode (Sha256.Sum256 b)
      end
  end.
Definition ComputeHash (e : AuditEvent) : string := ComputeHash_ptr (Some e).
