(* ===== verification/AuditHash.v ===== *)
(** What an audit hash binds (api/internal/audit/hash.go).

    Two well-formed events with the same non-empty hash have the same content,
    or their own canonical records are a SHA-256 collision; equal content gives
    equal hashes, whatever the member order and number spelling of the
    metadata. *)
From S2P Require Import Prelude Errors GoTime Sha256 Json JsonFacts Canonical CanonicalFacts AuditModel.
Import GoTime.
Local Open Scope Z_scope.

(** * Decimal integers *)

Lemma pretty_N_go_dec x s :
  dec (pretty_N_go x s) = Z.of_N x * 10 ^ Z.of_nat (String.length s) + dec s.
Proof.
  revert s. induction (N.lt_wf_0 x) as [x _ IH]. intros s.
  destruct (decide (x = 0)%N) as [-> |Hx]; [rw pretty_N_go_0; lia|].
  rw pretty_N_go_step; [|lia]. rw IH; [|apply N.div_lt; lia]. rw dec_cons. cbn [String.length].
  rw Nat2Z.inj_succ Z.pow_succ_r; [|lia].
  assert (Hc : byte_val (pretty_N_char (x mod 10)) - 48 = Z.of_N (x mod 10)).
  { assert (x mod 10 < 10)%N by (apply N.mod_lt; lia). set (d := (x mod 10)%N) in *.
    clearbody d. assert (d = 0 \/ d = 1 \/ d = 2 \/ d = 3 \/ d = 4 \/ d = 5 \/ d = 6 \/ d = 7
      \/ d = 8 \/ d = 9)%N by lia. by destruct_or!; subst d. }
  rw Hc. pose proof (N.div_mod x 10 ltac:(lia)). nia.
Qed.

Lemma pretty_N_go_leading x s : (0 < x)%N -> leading (pretty_N_go x s).
Proof.
  revert s. induction (N.lt_wf_0 x) as [x _ IH]. intros s Hx. rw pretty_N_go_step; [|done].
  destruct (decide (x / 10 = 0)%N) as [Hz|Hz].
  - rw Hz pretty_N_go_0. cbn [leading].
    assert (Hlt : (x < 10)%N) by (destruct (N.lt_ge_cases x 10); [done|];
      pose proof (N.div_le_lower_bound x 10 1 ltac:(lia) ltac:(lia)); lia).
    rw N.mod_small; [|done]. set (d := x) in *. clearbody d.
    assert (d = 1 \/ d = 2 \/ d = 3 \/ d = 4 \/ d = 5 \/ d = 6 \/ d = 7
      \/ d = 8 \/ d = 9)%N by lia. by destruct_or!; subst d.
  - apply IH; [apply N.div_lt; lia|by apply N.neq_0_lt_0].
Qed.

Lemma pretty_pos_dec p : dec (pretty (N.pos p)) = Z.pos p /\ leading (pretty (N.pos p)).
Proof.
  unfold pretty, pretty_N. case_decide; [done|]. split; [|by apply pretty_N_go_leading].
  rw pretty_N_go_dec. change (dec "") with 0. change (String.length "") with 0%nat. lia.
Qed.

Lemma num_value_text sg T :
  is_sign sg -> digits_only T -> leading T -> num_value (sg +:+ T) = Some (sgn sg * dec T, 0).
Proof.
  intros Hs HT LT. unfold num_value. destruct T as [|c T]; [done|].
  pose proof HT as HT'. cbn [str_all] in HT'. apply andb_prop in HT' as [Hc _].
  assert (Hsg : scan_sign (sg +:+ String c T) = (sg, String c T)).
  { destruct Hs as [-> | ->]; [|done]. rw str_app_nil_l. cbn [scan_sign].
    apply is_digit_val in Hc. assert (is_char 45 c = false) as -> by (unfold is_char; lia). done. }
  assert (Hi : scan_int (String c T) = Some (String c T, "")).
  { cbn [scan_int leading] in LT |- *. by rw LT Hc (scan_digits_all _ HT). }
  rw Hsg Hi. cbn [mbind option_bind scan_frac scan_exp]. rw str_app_nil_r.
  unfold sgn. case_decide; do 2 f_equal; lia.
Qed.

Lemma num_value_int (z : Z) : num_value (pretty z : string) = Some (z, 0).
Proof.
  destruct z as [|p|p]; [done| |].
  - destruct (pretty_pos_dec p) as [Hd Hl]. destruct (pretty_pos_digits p) as [Hp _].
    pose proof (num_value_text "" _ (or_introl eq_refl) Hp Hl) as H. rw str_app_nil_l in H.
    change (pretty (Z.pos p) : string) with (pretty (N.pos p)). rw H Hd. done.
  - destruct (pretty_pos_dec p) as [Hd Hl]. destruct (pretty_pos_digits p) as [Hp _].
    pose proof (num_value_text "-" _ (or_intror eq_refl) Hp Hl) as H.
    change (pretty (Z.neg p) : string) with ("-" +:+ pretty (N.pos p)). rw H Hd. done.
Qed.

Lemma valid_int (z : Z) : valid_number (pretty z : string) = true.
Proof.
  destruct z as [|p|p]; [done| |].
  - destruct (pretty_pos_dec p) as [_ Hl]. destruct (pretty_pos_digits p) as [Hp _].
    pose proof (canon_text_valid "" _ 0 (or_introl eq_refl) Hp Hl) as H.
    by rw str_app_nil_l str_app_nil_r in H.
  - destruct (pretty_pos_dec p) as [_ Hl]. destruct (pretty_pos_digits p) as [Hp _].
    pose proof (canon_text_valid "-" _ 0 (or_intror eq_refl) Hp Hl) as H.
    by rw str_app_nil_r in H.
Qed.

Lemma json_equiv_int a b : json_equiv (JInt a) (JInt b) <-> a = b.
Proof.
  split.
  - inversion 1 as [| |x y va vb Ha Hb He| | |]; subst. rw num_value_int in Ha. rw num_value_int in Hb.
    injection Ha as <-. injection Hb as <-. unfold dec_eq in He. cbn [fst snd] in He.
    change (10 ^ (0 - Z.min 0 0)) with 1 in He. lia.
  - intros ->. econstructor; [apply num_value_int..|done].
Qed.

Lemma json_equiv_str a b : json_equiv (JStr a) (JStr b) <-> a = b.
Proof. split; [by inversion 1|intros ->; constructor]. Qed.

(** * Objects with known keys *)

Lemma json_equiv_members l m :
  json_equiv (JObj l) (JObj m) -> NoDup (map fst m) ->
  length l = length m
  /\ forall k v w, (k, v) ∈ l -> (k, w) ∈ m -> json_equiv v w.
Proof.
  inversion 1 as [| | | | |l0 l' m0 Hp Hf]; subst. intros Hnd. split.
  { by rw Hp (Forall2_length _ _ _ Hf). }
  intros k v w Hv Hw. rw Hp in Hv. apply list_elem_of_lookup in Hv as [i Hi].
  destruct (Forall2_lookup_l _ _ _ _ _ Hf Hi) as ([k' w'] & Hi' & Hk & He). cbn in Hk, He. subst k'.
  apply list_elem_of_lookup in Hw as [j Hj].
  assert (i = j) as ->; [|congruence].
  apply (NoDup_lookup (map fst m) i j k); [done| |]; rw list_lookup_fmap; by rw ?Hi' ?Hj.
Qed.

Lemma json_equiv_same_keys l m :
  Forall2 (fun a b => a.1 = b.1 /\ json_equiv a.2 b.2) l m -> json_equiv (JObj l) (JObj m).
Proof. intros H. by apply equiv_obj with l. Qed.

Lemma omitempty_equiv k a b :
  Forall2 (fun x y => x.1 = y.1 /\ json_equiv x.2 y.2) (omitempty k a) (omitempty k b) <-> a = b.
Proof.
  split; [|intros ->; unfold omitempty; case_bool_decide; repeat constructor].
  unfold omitempty. repeat case_bool_decide; subst; intros Hf; try done;
    inversion Hf as [|?? ?? [_ He]]; subst. by apply json_equiv_str.
Qed.

(** Membership in a list of known members. *)
Ltac in_list := solve [repeat first [left | right]].

(** An object [{id, type, opt}] is determined by its three strings. *)
Definition idty (opt i t o : string) : json :=
  JObj ([("id", JStr i); ("type", JStr t)] ++ omitempty opt o).

Lemma idty_keys opt i t o :
  opt <> "id" -> opt <> "type" ->
  NoDup (map fst ([("id", JStr i); ("type", JStr t)] ++ omitempty opt o)).
Proof.
  intros H1 H2. unfold omitempty. case_bool_decide; cbn;
    repeat (constructor; [rw ?not_elem_of_cons; repeat split; try done; try by intros ?%not_elem_of_nil|]);
    constructor.
Qed.

Lemma idty_equiv opt i t o i' t' o' :
  opt <> "id" -> opt <> "type" ->
  json_equiv (idty opt i t o) (idty opt i' t' o') <-> i = i' /\ t = t' /\ o = o'.
Proof.
  intros H1 H2. split.
  - intros [Hl Hm]%json_equiv_members; [|by apply idty_keys].
    assert (i = i') as -> by (apply json_equiv_str, (Hm "id"); in_list).
    assert (t = t') as -> by (apply json_equiv_str, (Hm "type"); in_list).
    split_and!; [done..|]. revert Hl Hm. unfold omitempty. repeat case_bool_decide; subst; try done.
    intros _ Hm. apply json_equiv_str, (Hm opt); in_list.
  - intros (-> & -> & ->). apply json_equiv_same_keys. do 2 (constructor; [split; [done|constructor]|]).
    by apply omitempty_equiv.
Qed.

(** * Well-formed events *)

Definition md_of (e : AuditEvent) : metadata := default [] (ev_Metadata e).

(** The strings an event carries, all of them text columns in the database. *)
Definition event_strings (e : AuditEvent) : list string :=
  [ev_ID e; ev_TenantID e; actor_ID (ev_Actor e); actor_Type (ev_Actor e); actor_Email (ev_Actor e);
   ev_Action e; resource_ID (ev_Resource e); resource_Type (ev_Resource e); resource_Name (ev_Resource e);
   ev_Outcome e; ev_PrevHash e].

(** Metadata a request body decodes to. *)
Definition md_ok (e : AuditEvent) : bool :=
  json_wf (JObj (md_of e)) && (nesting (JObj (md_of e)) <? maxNestingDepth).
(** Valid UTF-8 text and decodable metadata. *)
Definition event_ok (e : AuditEvent) : bool :=
  forallb utf8_valid (event_strings e) && md_ok e.
(** ... and a timestamp in the supported history. *)
Definition event_wf (e : AuditEvent) : bool :=
  event_ok e && (historyStart <=? ev_Timestamp e) && (ev_Timestamp e <=? farFuture).

(** Two events with the same content, chain position included and stored digest excluded. *)
Record event_equiv (e f : AuditEvent) : Prop := {
  ee_ID : ev_ID e = ev_ID f;
  ee_Tenant : ev_TenantID e = ev_TenantID f;
  ee_Time : Truncate Microsecond (ev_Timestamp e) = Truncate Microsecond (ev_Timestamp f);
  ee_Actor : ev_Actor e = ev_Actor f;
  ee_Action : ev_Action e = ev_Action f;
  ee_Resource : ev_Resource e = ev_Resource f;
  ee_Outcome : ev_Outcome e = ev_Outcome f;
  ee_Metadata : json_equiv (JObj (md_of e)) (JObj (md_of f));
  ee_Prev : ev_PrevHash e = ev_PrevHash f;
  ee_Seq : ev_SequenceNumber e = ev_SequenceNumber f
}.

Lemma formatMicro_trunc t : formatMicro (Truncate Microsecond t) = formatMicro t.
Proof.
  unfold formatMicro. rw Truncate_micro_mult.
  assert (H1 : t / 1000 * 1000 / Second = t / Second) by (unfold Second; dlia).
  assert (H2 : (t / 1000 * 1000) mod Second / Microsecond = t mod Second / Microsecond)
    by (unfold Second, Microsecond; dlia).
  by rw H1 H2.
Qed.

Definition record_keys : list string :=
  ["id"; "tenant_id"; "timestamp"; "actor"; "action"; "resource"; "outcome"; "metadata";
   "prev_hash"; "sequence_number"].

Lemma record_keys_nodup e :
  match hash_record e with JObj l => NoDup (map fst l) | _ => False end.
Proof.
  change (NoDup record_keys).
  assert (H : bool_decide (NoDup record_keys) = true) by (vm_compute; reflexivity).
  by apply bool_decide_eq_true in H.
Qed.

(** Equal content gives equal records. *)
Lemma hash_record_respects e f : event_equiv e f -> json_equiv (hash_record e) (hash_record f).
Proof.
  intros [E1 E2 E3 E4 E5 E6 E7 E8 E9 E10]. apply json_equiv_same_keys.
  rw E1 E2 E3 E4 E5 E6 E7 E9 E10.
  repeat (constructor; [split; [done|cbn [snd]]|]); try done;
    try (by apply json_equiv_str); try (by apply json_equiv_int); by apply idty_equiv.
Qed.

(** The hashed record determines the event. *)
Lemma hash_record_equiv e f :
  event_wf e = true -> event_wf f = true ->
  json_equiv (hash_record e) (hash_record f) <-> event_equiv e f.
Proof.
  unfold event_wf. intros [[_ We1%Z.leb_le]%andb_prop We2%Z.leb_le]%andb_prop
    [[_ Wf1%Z.leb_le]%andb_prop Wf2%Z.leb_le]%andb_prop.
  split; [|apply hash_record_respects].
  - intros [_ Hm]%json_equiv_members; [|apply (record_keys_nodup f)].
    assert (Ht : formatMicro (Truncate Microsecond (ev_Timestamp e))
                 = formatMicro (Truncate Microsecond (ev_Timestamp f)))
      by (apply json_equiv_str, (Hm "timestamp"); in_list).
    rw !formatMicro_trunc in Ht. apply formatMicro_inj in Ht; [|done..].
    assert (Ha : json_equiv (actor_json (ev_Actor e)) (actor_json (ev_Actor f)))
      by (apply (Hm "actor"); in_list).
    apply idty_equiv in Ha as (?&?&?); [|done..].
    assert (Hr : json_equiv (resource_json (ev_Resource e)) (resource_json (ev_Resource f)))
      by (apply (Hm "resource"); in_list).
    apply idty_equiv in Hr as (?&?&?); [|done..].
    split.
    + apply json_equiv_str, (Hm "id"); in_list.
    + apply json_equiv_str, (Hm "tenant_id"); in_list.
    + rw !Truncate_micro_mult. by rw Ht.
    + destruct (ev_Actor e), (ev_Actor f); cbn in *; congruence.
    + apply json_equiv_str, (Hm "action"); in_list.
    + destruct (ev_Resource e), (ev_Resource f); cbn in *; congruence.
    + apply json_equiv_str, (Hm "outcome"); in_list.
    + apply (Hm "metadata"); in_list.
    + apply json_equiv_str, (Hm "prev_hash"); in_list.
    + apply json_equiv_int, (Hm "sequence_number"); in_list.
Qed.

(** * The hashed record is printable *)

Definition ascii_str (s : string) : Prop := str_all (in_range 0 127) s = true.

Lemma ascii_utf8 s : ascii_str s -> utf8_valid s = true.
Proof.
  unfold ascii_str. induction s as [|c s IH]; [done|]. cbn [str_all]. intros [Hc Hs]%andb_prop.
  cbn [utf8_valid rune_len]. rw Hc. auto.
Qed.

Lemma ascii_app a b : ascii_str a -> ascii_str b -> ascii_str (a +:+ b).
Proof. unfold ascii_str. intros Ha Hb. by rw str_all_app Ha Hb. Qed.

Lemma ascii_digits_only s : digits_only s -> ascii_str s.
Proof.
  apply str_all_impl. intros c Hc%is_digit_val. unfold in_range. apply andb_true_intro. split; apply Z.leb_le; lia.
Qed.

Lemma digits_are_digits w z : digits_only (digits w z).
Proof.
  revert z. induction w as [|w IH]; intros z; [done|]. cbn [digits]. rw str_all_app IH. cbn [str_all].
  pose proof (Z.mod_pos_bound z 10 ltac:(lia)).
  rw andb_true_r. unfold is_digit, in_range. rw byte_val_chr; lia.
Qed.

Lemma appendInt_digits w z : digits_only (appendInt w z).
Proof.
  unfold appendInt. destruct (z <? 10 ^ Z.of_nat w) eqn:Hz; [apply digits_are_digits|].
  apply Z.ltb_ge in Hz. destruct z as [|p|p]; [done| |].
  - apply pretty_pos_digits.
  - pose proof (Z.pow_nonneg 10 (Z.of_nat w) ltac:(lia)). lia.
Qed.

Lemma formatMicro_ascii t : ascii_str (formatMicro t).
Proof.
  unfold formatMicro. destruct (civil_from_days _) as [[y m] d].
  repeat (apply ascii_app; [first [apply ascii_digits_only, appendInt_digits|done]|]); done.
Qed.

Lemma canonable_int z : canonable (JInt z) = true.
Proof.
  unfold JInt. cbn [canonable].
  assert (H : forall p sg, is_sign sg -> canon_number (sg +:+ pretty (N.pos p)) <> None).
  { intros p sg Hs. destruct (pretty_pos_dec p) as [Hd Hl], (pretty_pos_digits p) as [Hp Hn].
    rw (canon_number_parts _ sg (pretty (N.pos p)) "" ""); [done|].
    split; rw ?str_app_nil_r; auto. rw (num_value_text sg _ Hs Hp Hl). cbn [frac_digits].
    rw ?str_app_nil_r. done. }
  destruct z as [|p|p]; [done| |].
  - specialize (H p "" (or_introl eq_refl)). rw str_app_nil_l in H.
    change (pretty (Z.pos p) : string) with (pretty (N.pos p)). by destruct (canon_number _).
  - specialize (H p "-" (or_intror eq_refl)).
    change (pretty (Z.neg p) : string) with ("-" +:+ pretty (N.pos p)). by destruct (canon_number _).
Qed.

Lemma idty_wf opt i t o :
  opt <> "id" -> opt <> "type" -> utf8_valid opt = true ->
  utf8_valid i = true -> utf8_valid t = true -> utf8_valid o = true ->
  json_wf (idty opt i t o) = true /\ canonable (idty opt i t o) = true /\ nesting (idty opt i t o) = 1.
Proof.
  intros H1 H2 H3 Hi Ht Ho. pose proof (idty_keys opt i t o H1 H2) as Hk. split; [|split].
  - unfold idty. cbn [json_wf]. rw (bool_decide_true _ Hk). rw andb_true_r.
    unfold omitempty. case_bool_decide; cbn; by rw Hi Ht ?H3 ?Ho.
  - unfold idty, omitempty. by case_bool_decide.
  - unfold idty, omitempty. by case_bool_decide.
Qed.

(** Every number of the metadata has an exponent the canonical form accepts. *)
Definition hashable (e : AuditEvent) : bool := canonable (JObj (md_of e)).

Lemma event_wf_ok e : event_wf e = true -> event_ok e = true.
Proof. unfold event_wf. by intros [[? _]%andb_prop _]%andb_prop. Qed.

Lemma event_ok_fields e :
  event_ok e = true ->
  Forall (fun s => utf8_valid s = true) (event_strings e)
  /\ json_wf (JObj (md_of e)) = true /\ nesting (JObj (md_of e)) < maxNestingDepth.
Proof.
  unfold event_ok, md_ok. by intros [Hs%forallb_Forall [? ?%Z.ltb_lt]%andb_prop]%andb_prop.
Qed.

Lemma hash_record_wf e :
  event_ok e = true ->
  json_wf (hash_record e) = true /\ nesting (hash_record e) <= maxNestingDepth
  /\ canonable (hash_record e) = hashable e.
Proof.
  intros We. destruct (event_ok_fields e We) as (Hs & Hm & Hn). clear We.
  unfold event_strings in Hs. rw !Forall_cons in Hs.
  destruct Hs as (S1 & S2 & S3 & S4 & S5 & S6 & S7 & S8 & S9 & S10 & S11 & _).
  destruct (idty_wf "email" (actor_ID (ev_Actor e)) (actor_Type (ev_Actor e)) (actor_Email (ev_Actor e)))
    as (A1 & A2 & A3); try done.
  destruct (idty_wf "name" (resource_ID (ev_Resource e)) (resource_Type (ev_Resource e))
    (resource_Name (ev_Resource e))) as (R1 & R2 & R3); try done.
  change (idty "email" _ _ _) with (actor_json (ev_Actor e)) in A1, A2, A3.
  change (idty "name" _ _ _) with (resource_json (ev_Resource e)) in R1, R2, R3.
  pose proof (record_keys_nodup e) as Hk. pose proof (canonable_int (ev_SequenceNumber e)) as Ci.
  pose proof (ascii_utf8 _ (formatMicro_ascii (Truncate Microsecond (ev_Timestamp e)))) as Ft.
  pose proof (valid_int (ev_SequenceNumber e)) as Vi.
  unfold md_of in Hm, Hn. unfold hashable, md_of. unfold hash_record in Hk |- *.
  remember (actor_json (ev_Actor e)) as aj eqn:Eaj. remember (resource_json (ev_Resource e)) as rj eqn:Erj.
  remember (JObj (default [] (ev_Metadata e))) as mj eqn:Emj.
  remember (JInt (ev_SequenceNumber e)) as ij eqn:Eij.
  assert (Wi : json_wf ij = true) by (by subst ij).
  assert (Ni : nesting ij = 0) by (by subst ij).
  clear Eaj Erj Emj Eij. split_and!.
  - cbn [json_wf]. apply andb_true_intro. split; [|by apply bool_decide_eq_true_2].
    cbn -[utf8_valid formatMicro]. rw S1 S2 S6 S10 S11 A1 R1 Hm Wi Ft. done.
  - cbn -[formatMicro]. rw A3 R3 Ni. unfold maxNestingDepth in *. lia.
  - cbn -[formatMicro]. rw A2 R2 Ci. by rw !andb_true_r.
Qed.

(** * The hash *)

(** The text ComputeHash gives to SHA-256, of a well-formed event. *)
Definition hash_text (e : AuditEvent) : string := render (normal_form (hash_record e)).
(** The texts of these two events are different and have the same digest: a collision,
    exhibited by the events. *)
Definition collide (e f : AuditEvent) : Prop := hash_text e <> hash_text f /\ Sha256.Sum256 (hash_text e) = Sha256.Sum256 (hash_text f).

Lemma hash_nonempty b : HashPrefix +:+ hex_encode (Sha256.Sum256 b) <> "".
Proof. done. Qed.

(** What [ComputeHash] returns on a well-formed event. *)
Lemma ComputeHash_eq e :
  event_ok e = true ->
  ComputeHash e = if hashable e
                  then HashPrefix +:+ hex_encode (Sha256.Sum256 (hash_text e))
                  else "".
Proof.
  intros (Hw & Hn & Hc)%hash_record_wf. unfold ComputeHash, ComputeHash_ptr.
  rw (canonical_JSON_eq _ Hw Hn) Hc. by destruct (hashable e).
Qed.

Lemma ComputeHash_empty e : event_ok e = true -> ComputeHash e = "" <-> hashable e = false.
Proof.
  intros We. rw (ComputeHash_eq e We). destruct (hashable e); [|done].
  split; [|done]. by intros ?%hash_nonempty.
Qed.

(** The text is injective: it identifies the content of an event. *)
Lemma hash_text_identifies e f :
  event_wf e = true -> event_wf f = true -> hashable e = true -> hashable f = true ->
  hash_text e = hash_text f <-> event_equiv e f.
Proof.
  intros We' Wf' He Hf. pose proof (event_wf_ok e We') as We. pose proof (event_wf_ok f Wf') as Wf.
  destruct (hash_record_wf e We) as (We1 & Ne & Ce), (hash_record_wf f Wf) as (Wf1 & Nf & Cf). rw He in Ce. rw Hf in Cf.
  unfold hash_text. split.
  - intros Hr. apply hash_record_equiv; [done..|]. apply normal_form_eq; [done..|].
    apply render_inj; [by apply normal_form_wf..| | |done]; by rw normal_form_nesting.
  - intros Hef%hash_record_respects. f_equal. by apply normal_form_eq.
Qed.

(** The digests of two events are equal iff those of their texts are. *)
Lemma ComputeHash_digest e f :
  event_ok e = true -> event_ok f = true -> hashable e = true -> hashable f = true ->
  ComputeHash e = ComputeHash f <-> Sha256.Sum256 (hash_text e) = Sha256.Sum256 (hash_text f).
Proof.
  intros We Wf He Hf. rw (ComputeHash_eq e We) (ComputeHash_eq f Wf) He Hf. split; [|by intros ->].
  intros H%str_app_inj_l%hex_encode_inj; [done|apply Sha256.Sum256_range..].
Qed.

(** Equal digests bind equal content, unless the two texts collide. *)
Lemma hash_binds e f :
  event_wf e = true -> event_wf f = true -> ComputeHash e <> "" ->
  ComputeHash e = ComputeHash f -> event_equiv e f \/ collide e f.
Proof.
  intros We Wf Hne Heq. pose proof (event_wf_ok e We) as Oe. pose proof (event_wf_ok f Wf) as Of.
  assert (He : hashable e = true) by (apply not_false_iff_true; by rw -(ComputeHash_empty e Oe)).
  assert (Hf : hashable f = true) by (apply not_false_iff_true; rw -(ComputeHash_empty f Of); congruence).
  apply ComputeHash_digest in Heq; [|done..]. destruct (decide (hash_text e = hash_text f)) as [Ht|Ht]; [left|by right].
  by apply hash_text_identifies.
Qed.

(** Equal content has equal digests. *)
Lemma hash_respects e f :
  event_ok e = true -> event_ok f = true -> hashable e = true -> hashable f = true ->
  event_equiv e f -> ComputeHash e = ComputeHash f.
Proof.
  intros We Wf He Hf Hef%hash_record_respects.
  destruct (hash_record_wf e We) as (We1 & Ne & Ce), (hash_record_wf f Wf) as (Wf1 & Nf & Cf).
  apply ComputeHash_digest; [done..|]. rw He in Ce. rw Hf in Cf. unfold hash_text. do 2 f_equal. by apply normal_form_eq.
Qed.
