(* ===== verification/Regex.v ===== *)
(** Go's regexp package on the constructs the redactor uses: byte classes,
    sequences, counted greedy repetitions, [\b].  The matcher explores
    alternatives in priority order, which is the leftmost-first match Go returns;
    [replace_all] is [ReplaceAllStringFunc] for expressions without empty matches. *)
From S2P Require Import Prelude Json JsonFacts.
Local Open Scope Z_scope.

(** A class says how many bytes of the input one element consumes, 0 for no match. *)
Definition class := string -> nat.
Definition ascii_class (P : Z -> bool) : class := fun s =>
  match s with String c _ => if (byte_val c <? 128) && P (byte_val c) then 1%nat else 0%nat | EmptyString => 0%nat end.

Inductive rx : Type :=
| RClass (f : class)
| RSeq (a b : rx)
| RRep (a : rx) (lo : nat) (hi : option nat)
| RWordB
| REps.

Definition is_word (c : Ascii.ascii) : bool :=
  let b := byte_val c in
  ((48 <=? b) && (b <=? 57)) || ((65 <=? b) && (b <=? 90)) || ((97 <=? b) && (b <=? 122)) || (b =? 95).
Definition word_opt (o : option Ascii.ascii) : bool := match o with Some c => is_word c | None => false end.
Definition first_char (s : string) : option Ascii.ascii := match s with String c _ => Some c | EmptyString => None end.
Definition last_char (p : option Ascii.ascii) (s : string) : option Ascii.ascii :=
  (fix go p s := match s with String c s => go (Some c) s | EmptyString => p end) p s.

(** A matcher hands the position after the match to its continuation; the
    position is the byte before it and the text that follows. *)
Abbreviation cont := (option Ascii.ascii -> string -> option string).

(** At least [lo], at most [hi] repetitions, as many as possible first. *)
Fixpoint rep_loop (step : option Ascii.ascii -> string -> cont -> option string) (lo : nat) (hi : option nat)
    (k : cont) (fuel count : nat) (p : option Ascii.ascii) (s : string) : option string :=
  let stop := if (lo <=? count)%nat then k p s else None in
  match fuel with
  | O => stop
  | S fuel =>
      let more := if match hi with Some h => (h <=? count)%nat | None => false end then None
                  else step p s (rep_loop step lo hi k fuel (S count)) in
      match more with Some x => Some x | None => stop end
  end.

Fixpoint rmatch (r : rx) (p : option Ascii.ascii) (s : string) (k : cont) : option string :=
  match r with
  | RClass f =>
      match f s with
      | O => None
      | n => let '(a, t) := str_split n s in k (last_char p a) t
      end
  | RSeq a b => rmatch a p s (fun p' s' => rmatch b p' s' k)
  | RRep a lo hi => rep_loop (rmatch a) lo hi k (S (String.length s)) 0 p s
  | RWordB => if xorb (word_opt p) (word_opt (first_char s)) then k p s else None
  | REps => k p s
  end.

Definition match_here (r : rx) (p : option Ascii.ascii) (s : string) : option string :=
  rmatch r p s (fun _ t => Some t).

(** [fuel] bounds the positions tried; the length of [s] is enough. *)
Fixpoint replace_all (r : rx) (repl : string -> string) (fuel : nat) (p : option Ascii.ascii) (s : string) : string :=
  match fuel, s with
  | _, EmptyString => ""
  | O, _ => s
  | S fuel, _ =>
      match match_here r p s with
      | Some t =>
          let m := fst (str_split (String.length s - String.length t) s) in
          repl m +:+ replace_all r repl fuel (last_char p m) t
      | None =>
          let '(a, t) := str_split (Nat.max 1 (rune_len s)) s in
          a +:+ replace_all r repl fuel (last_char p a) t
      end
  end.
Definition ReplaceAllStringFunc (r : rx) (repl : string -> string) (s : string) : string :=
  replace_all r repl (String.length s) None s.

(** The matches found, in order. *)
Fixpoint find_all (r : rx) (fuel : nat) (p : option Ascii.ascii) (s : string) : list string :=
  match fuel, s with
  | _, EmptyString => []
  | O, _ => []
  | S fuel, _ =>
      match match_here r p s with
      | Some t =>
          let m := fst (str_split (String.length s - String.length t) s) in
          m :: find_all r fuel (last_char p m) t
      | None =>
          let '(a, t) := str_split (Nat.max 1 (rune_len s)) s in find_all r fuel (last_char p a) t
      end
  end.
Definition FindAllString (r : rx) (s : string) : list string := find_all r (String.length s) None s.

(** * Valid text stays valid *)

(** Every class consumes whole runes. *)
Definition class_ok (f : class) : Prop := forall s n, f s = S n -> rune_len s = S n.
Fixpoint rx_all (P : class -> Prop) (r : rx) : Prop :=
  match r with
  | RClass f => P f
  | RSeq a b => rx_all P a /\ rx_all P b
  | RRep a _ _ => rx_all P a
  | RWordB | REps => True
  end.
Abbreviation rx_ok := (rx_all class_ok).

Lemma ascii_class_ok P : class_ok (ascii_class P).
Proof.
  intros s n. destruct s as [|c s]; [done|]. cbn. destruct (byte_val c <? 128) eqn:Hc; [|done].
  cbn. destruct (P (byte_val c)); [|done]. intros [= <-]. pose proof (byte_val_range c).
  unfold in_range. assert ((0 <=? byte_val c) && (byte_val c <=? 127) = true) as ->; [lia|done].
Qed.

Lemma utf8_rune a t : rune_len (a +:+ t) = String.length a -> a <> "" -> utf8_valid (a +:+ t) = utf8_valid t.
Proof.
  intros Hr Hne. pose proof (rune_len_le (a +:+ t)) as Hle. rw Hr in Hle.
  destruct a as [|c1 [|c2 [|c3 [|c4 [|c5 a]]]]]; try done; rw !str_cons_app ?str_app_nil_l in Hr |- *;
    cbn [utf8_valid]; try (by rw Hr). cbn in Hle. lia.
Qed.

Lemma utf8_app a t : utf8_valid a = true -> utf8_valid t = true -> utf8_valid (a +:+ t) = true.
Proof.
  intros Ha Ht. remember (String.length a) as n eqn:Hn. assert (Hle : (String.length a <= n)%nat) by lia. clear Hn.
  revert a Ha Hle. induction n as [|n IH]; intros [|c a] Ha Hle; cbn in Hle; try done; try lia.
  destruct (utf8_valid_inv c a Ha) as (b & t' & Hb & Ht' & Hne & Hr). rw Hb str_app_assoc utf8_rune; [|apply Hr|done].
  apply IH; [done|]. apply (f_equal String.length) in Hb. rw str_length_app in Hb. cbn in Hb.
  destruct b; [done|]. cbn in Hb. lia.
Qed.

Lemma str_split_spec n s a t : str_split n s = (a, t) -> s = a +:+ t.
Proof.
  revert s a t. induction n as [|n IH]; intros s a t; [by destruct s; cbn; intros [= <- <-]|].
  destruct s as [|c s]; cbn; [by intros [= <- <-]|]. destruct (str_split n s) as [b u] eqn:Hs.
  intros [= <- <-]. rw str_cons_app. f_equal. by apply IH.
Qed.

(** Splitting off one rune of a valid string. *)
Lemma split_rune s n a t :
  utf8_valid s = true -> rune_len s = S n -> str_split (S n) s = (a, t) ->
  s = a +:+ t /\ utf8_valid a = true /\ utf8_valid t = true.
Proof.
  intros Hs Hr Hsp. destruct (rune_len_split s n Hr) as (b & u & -> & Hl & Hb).
  rw -Hl str_split_app in Hsp. injection Hsp as -> ->.
  assert (Hne : a <> "") by (by destruct a).
  split_and!; [done| |].
  - rw -(str_app_nil_r a) utf8_rune; [done|by rw Hb|done].
  - rw -(utf8_rune a t); [done|by rw Hb|done].
Qed.

(** Where a match may stop: any preorder that contains the class steps. *)
Section Reach.
Context (R : relation string) `{!PreOrder R}.
Definition class_steps (f : class) : Prop :=
  forall s n a t, f s = S n -> str_split (S n) s = (a, t) -> R s t.

Lemma rmatch_reach r : rx_all class_steps r -> forall p s k out,
  rmatch r p s k = Some out -> exists p' s', R s s' /\ k p' s' = Some out.
Proof.
  induction r as [f|a IHa b IHb|a IHa lo hi| |]; cbn [rx_all rmatch]; intros Hok p s k out.
  - destruct (f s) as [|n] eqn:Hf; [done|]. destruct (str_split (S n) s) as [a t] eqn:Hsp.
    intros Hk. do 2 eexists. split; [by eapply Hok|exact Hk].
  - destruct Hok as [Ha Hb]. intros (p1 & s1 & H1 & (p2 & s2 & H2 & Hk)%IHb)%IHa; [|done..].
    exists p2, s2. split; [by etrans|done].
  - generalize (S (String.length s)) as fuel. intros fuel. generalize 0%nat as count. revert p s.
    assert (Hstop : forall p s count,
      (if (lo <=? count)%nat then k p s else None) = Some out -> exists p' s', R s s' /\ k p' s' = Some out).
    { intros p s count. destruct (lo <=? count)%nat; [|done]. intros Hk. by exists p, s. }
    induction fuel as [|fuel IHf]; intros p s count; cbn [rep_loop]; [by apply Hstop|].
    destruct (if match hi with Some h => (h <=? count)%nat | None => false end then None
              else rmatch a p s (rep_loop (rmatch a) lo hi k fuel (S count))) as [x|] eqn:Hm; [|by apply Hstop].
    intros [= ->]. destruct (match hi with Some h => (h <=? count)%nat | None => false end); [done|].
    apply IHa in Hm as (p1 & s1 & H1 & Hl); [|done..]. apply IHf in Hl as (p2 & s2 & H2 & Hk).
    exists p2, s2. split; [by etrans|done].
  - destruct (xorb _ _); [|done]. intros Hk. by exists p, s.
  - intros Hk. by exists p, s.
Qed.
End Reach.

(** A match leaves a suffix ... *)
Definition suffix_of (s t : string) : Prop := exists a, s = a +:+ t.
Global Instance suffix_of_preorder : PreOrder suffix_of.
Proof.
  split; [by exists ""|]. intros s t u [a ->] [b ->]. exists (a +:+ b). by rw str_app_assoc.
Qed.
Lemma class_steps_suffix r : rx_all (class_steps suffix_of) r.
Proof.
  assert (Hf : forall f, class_steps suffix_of f).
  { intros f s n a t _ Hs%str_split_spec. by exists a. }
  induction r; by cbn.
Qed.
Lemma match_here_suffix r p s t : match_here r p s = Some t -> suffix_of s t.
Proof. intros (p' & s' & Hc & [= <-])%(rmatch_reach suffix_of); [done|apply class_steps_suffix]. Qed.

(** ... and cuts a valid text between runes. *)
Definition cuts (s s' : string) : Prop :=
  utf8_valid s = true -> exists a, s = a +:+ s' /\ utf8_valid a = true /\ utf8_valid s' = true.
Global Instance cuts_preorder : PreOrder cuts.
Proof.
  split; [by intros s Hs; exists ""|]. intros s t u H1 H2 (a & -> & Ha & Ht)%H1.
  destruct (H2 Ht) as (b & -> & Hb & Hu). exists (a +:+ b). rw str_app_assoc.
  split_and!; [done|by apply utf8_app|done].
Qed.
Lemma class_steps_cuts r : rx_ok r -> rx_all (class_steps cuts) r.
Proof.
  induction r as [f|a IHa b IHb|a IHa lo hi| |]; cbn; try tauto.
  intros Hf s n a t Hn Hsp Hs. exists a. by eapply split_rune; [|apply Hf|].
Qed.

Lemma match_here_cuts r p s t :
  rx_ok r -> utf8_valid s = true -> match_here r p s = Some t ->
  exists a, s = a +:+ t /\ utf8_valid a = true /\ utf8_valid t = true.
Proof.
  intros Hr%class_steps_cuts Hs (p' & s' & Hc & [= <-])%(rmatch_reach cuts); [by apply Hc|done].
Qed.

(** Replacing matches by valid text keeps a valid string valid. *)
Lemma replace_all_utf8 r repl fuel p s :
  rx_ok r -> (forall m, utf8_valid m = true -> utf8_valid (repl m) = true) ->
  utf8_valid s = true -> utf8_valid (replace_all r repl fuel p s) = true.
Proof.
  intros Hr Hrepl. revert p s. induction fuel as [|fuel IH]; intros p s Hs; destruct s as [|c s']; try done.
  cbn [replace_all]. remember (String c s') as s eqn:Es.
  destruct (match_here r p s) as [t|] eqn:Hm.
  - apply match_here_cuts in Hm as (a & Ha & Va & Vt); [|done..].
    rw Ha str_length_app Nat.add_sub str_split_app. apply utf8_app; [by apply Hrepl|by apply IH].
  - destruct (utf8_valid_inv c s') as (b & t & Hb & Ht & Hne & Hl); [by rw -Es|]. rw -Es in Hb.
    assert (Hn : rune_len s = String.length b) by (rw Hb; apply Hl).
    assert (Hmax : Nat.max 1 (rune_len s) = String.length b) by (rw Hn; destruct b; cbn; [done|lia]).
    rw Hmax Hb str_split_app. apply utf8_app; [|by apply IH].
    rw -(str_app_nil_r b) utf8_rune; [done|apply Hl|done].
Qed.

(** When no match is replaced by something else, the text is unchanged. *)
Lemma replace_all_same r repl fuel p s :
  (forall m, m ∈ find_all r fuel p s -> repl m = m) -> replace_all r repl fuel p s = s.
Proof.
  revert p s. induction fuel as [|fuel IH]; intros p s Hm; destruct s as [|c s']; try done.
  cbn [replace_all find_all] in *. remember (String c s') as s eqn:Es. clear Es.
  destruct (match_here r p s) as [t|] eqn:Hh.
  - apply match_here_suffix in Hh as [a ->]. rw str_length_app Nat.add_sub str_split_app in Hm |- *. cbn [fst] in *.
    rw Hm; [|by left]. rw IH; [done|]. intros m Hin. apply Hm. by right.
  - destruct (str_split _ s) as [a t] eqn:Hsp. rw (str_split_spec _ _ _ _ Hsp). rw IH; [done|]. exact Hm.
Qed.

(** * The language of an expression

    [lang r] relates the position where a match of [r] may start to those where it
    may end, without priorities and without fuel. *)
Abbreviation pos := (option Ascii.ascii * string)%type.
Definition at_most (n : nat) (hi : option nat) : Prop := match hi with Some h => (n <= h)%nat | None => True end.
Fixpoint lang (r : rx) : relation pos :=
  match r with
  | RClass f => fun x y => exists n a, f x.2 = S n /\ str_split (S n) x.2 = (a, y.2) /\ y.1 = last_char x.1 a
  | RSeq a b => fun x y => exists z, lang a x z /\ lang b z y
  | RRep a lo hi => fun x y => exists n, (lo <= n)%nat /\ at_most n hi /\ nsteps (lang a) n x y
  | RWordB => fun x y => xorb (word_opt x.1) (word_opt (first_char x.2)) = true /\ x = y
  | REps => fun x y => x = y
  end.

(** Repeated expressions consume something, so the fuel of [rep_loop] is enough. *)
Definition consumes (r : rx) : Prop := forall x y, lang r x y -> (String.length y.2 < String.length x.2)%nat.
Fixpoint solid (r : rx) : Prop :=
  match r with
  | RSeq a b => solid a /\ solid b
  | RRep a _ _ => solid a /\ consumes a
  | _ => True
  end.

Lemma nsteps_consume r n x y :
  consumes r -> nsteps (lang r) n x y -> (n + String.length y.2 <= String.length x.2)%nat.
Proof.
  intros Hr. revert x. induction n as [|n IH]; inversion 1; subst; [done|].
  match goal with H : lang _ _ _ |- _ => apply Hr in H end.
  match goal with H : nsteps _ _ _ _ |- _ => apply IH in H end. lia.
Qed.

Lemma rep_loop_complete a lo hi k y :
  (forall x z k, lang a x z -> k z.1 z.2 <> None -> rmatch a x.1 x.2 k <> None) -> k y.1 y.2 <> None ->
  forall fuel n count x, nsteps (lang a) n x y -> (n <= fuel)%nat -> (lo <= count + n)%nat -> at_most (count + n) hi ->
  rep_loop (rmatch a) lo hi k fuel count x.1 x.2 <> None.
Proof.
  intros Ha Hk. induction fuel as [|fuel IH]; intros n count x Hn Hf Hlo Hhi.
  - assert (n = 0%nat) as -> by lia. inversion Hn; subst. cbn. by rw (proj2 (Nat.leb_le lo count) ltac:(lia)).
  - cbn [rep_loop]. destruct n as [|n].
    { inversion Hn; subst. rw (proj2 (Nat.leb_le lo count) ltac:(lia)). by case_match. }
    inversion Hn as [|? ? z ? Hz Hr]; subst.
    assert ((match hi with Some h => (h <=? count)%nat | None => false end) = false) as ->.
    { destruct hi; [|done]. cbn in Hhi. apply Nat.leb_gt. lia. }
    pose proof (Ha x z (rep_loop (rmatch a) lo hi k fuel (S count)) Hz) as Hm.
    destruct (rmatch a x.1 x.2 _); [done|]. exfalso. apply Hm; [|done].
    apply (IH n (S count) z Hr); [lia..|]. by rw Nat.add_succ_l -Nat.add_succ_r.
Qed.

(** The matcher finds a match wherever the language has one. *)
Lemma rmatch_complete r : solid r -> forall x y k,
  lang r x y -> k y.1 y.2 <> None -> rmatch r x.1 x.2 k <> None.
Proof.
  induction r as [f|a IHa b IHb|a IHa lo hi| |]; cbn [solid lang rmatch]; intros Hs x y k.
  - intros (n & t & Hf & Hsp & Hp) Hk. rw Hf Hsp. by rw -Hp.
  - intros (z & Ha & Hb) Hk. destruct Hs as [Sa Sb]. apply (IHa Sa x z); [done|]. by apply (IHb Sb z y).
  - intros (n & Hlo & Hhi & Hn) Hk. destruct Hs as [Sa Ca].
    apply (rep_loop_complete a lo hi k y) with (n := n); [by apply IHa|done..| |done|done].
    pose proof (nsteps_consume a n x y Ca Hn). lia.
  - intros [Hx <-] Hk. by rw Hx.
  - by intros <-.
Qed.
Lemma match_here_complete r x y : solid r -> lang r x y -> exists t, match_here r x.1 x.2 = Some t.
Proof.
  intros Hs Hl. pose proof (rmatch_complete r Hs x y (fun _ t => Some t) Hl ltac:(done)) as Hm.
  unfold match_here. destruct (rmatch r x.1 x.2 _) as [t|]; [by exists t|done].
Qed.

(** What it finds is in the language. *)
Lemma rep_loop_sound a lo hi k out :
  (forall p s k, rmatch a p s k = Some out -> exists y, lang a (p, s) y /\ k y.1 y.2 = Some out) ->
  forall fuel count p s, at_most count hi -> rep_loop (rmatch a) lo hi k fuel count p s = Some out ->
  exists n y, nsteps (lang a) n (p, s) y /\ (lo <= count + n)%nat /\ at_most (count + n) hi /\ k y.1 y.2 = Some out.
Proof.
  intros Ha. assert (Hstop : forall p s count, at_most count hi ->
    (if (lo <=? count)%nat then k p s else None) = Some out ->
    exists n y, nsteps (lang a) n (p, s) y /\ (lo <= count + n)%nat /\ at_most (count + n) hi /\ k y.1 y.2 = Some out).
  { intros p s count Hc. destruct (lo <=? count)%nat eqn:Hl; [|done]. intros Hk. exists 0%nat, (p, s). rw Nat.add_0_r.
    split_and!; [apply nsteps_O|by apply Nat.leb_le|done|done]. }
  induction fuel as [|fuel IH]; intros count p s Hc; cbn [rep_loop]; [by apply Hstop|].
  destruct (match hi with Some h => (h <=? count)%nat | None => false end) eqn:Hh; [by apply Hstop|].
  destruct (rmatch a p s _) as [x|] eqn:Hm; [|by apply Hstop]. intros [= ->].
  apply Ha in Hm as ([q u] & Hl & Hr). apply IH in Hr as (n & y & Hn & Hlo & Hhi & Hk).
  - exists (S n), y. rw -plus_n_Sm -Nat.add_succ_l. split_and!; [by econstructor|done|done|done].
  - destruct hi; [|done]. cbn in *. apply Nat.leb_gt in Hh. lia.
Qed.
Lemma rmatch_sound r p s k out :
  rmatch r p s k = Some out -> exists y, lang r (p, s) y /\ k y.1 y.2 = Some out.
Proof.
  revert p s k. induction r as [f|a IHa b IHb|a IHa lo hi| |]; intros p s k; cbn [rmatch lang].
  - destruct (f s) as [|n] eqn:Hf; [done|]. destruct (str_split (S n) s) as [a t] eqn:Hsp.
    intros Hk. exists (last_char p a, t). split; [by exists n, a|done].
  - intros (z & Hz & ([p2 s2] & Hy & Hk)%IHb)%IHa. exists (p2, s2). split; [|done]. exists z. by destruct z.
  - intros (n & y & Hn & Hlo & Hhi & Hk)%rep_loop_sound; [|by intros; eapply IHa|by destruct hi; cbn; [lia|]].
    exists y. split; [by exists n|done].
  - destruct (xorb _ _) eqn:Hx; [|done]. intros Hk. by exists (p, s).
  - intros Hk. by exists (p, s).
Qed.

(** * The pieces of a text

    A pass cuts the text into what it skips and the matches it finds. *)
Definition piece : Type := bool * string.
Fixpoint joined (f : piece -> string) (P : list piece) : string :=
  match P with [] => "" | x :: P => f x +:+ joined f P end.
Lemma joined_app f P Q : joined f (P ++ Q) = joined f P +:+ joined f Q.
Proof. induction P as [|x P IH]; [done|]. cbn. by rw IH str_app_assoc. Qed.
(** The matches among the pieces. *)
Fixpoint matched (P : list piece) : list string :=
  match P with [] => [] | (b, x) :: P => if b then x :: matched P else matched P end.

Fixpoint pieces (r : rx) (fuel : nat) (p : option Ascii.ascii) (s : string) : list piece :=
  match fuel, s with
  | _, EmptyString => []
  | O, _ => [(false, s)]
  | S fuel, _ =>
      match match_here r p s with
      | Some t =>
          let m := fst (str_split (String.length s - String.length t) s) in
          (true, m) :: pieces r fuel (last_char p m) t
      | None =>
          let '(a, t) := str_split (Nat.max 1 (rune_len s)) s in
          (false, a) :: pieces r fuel (last_char p a) t
      end
  end.

Lemma pieces_spec r repl fuel p s :
  joined snd (pieces r fuel p s) = s
  /\ matched (pieces r fuel p s) = find_all r fuel p s
  /\ joined (fun x => if x.1 then repl x.2 else x.2) (pieces r fuel p s) = replace_all r repl fuel p s.
Proof.
  revert p s. induction fuel as [|fuel IH]; intros p s; destruct s as [|c s']; try done.
  { cbn. by rw str_app_nil_r. }
  cbn [pieces find_all replace_all]. remember (String c s') as s eqn:Es. clear Es.
  destruct (match_here r p s) as [t|] eqn:Hh.
  - apply match_here_suffix in Hh as [a ->]. rw str_length_app Nat.add_sub str_split_app. cbn [fst].
    destruct (IH (last_char p a) t) as (H1 & H2 & H3).  cbn. by rw H1 H2 H3.
  - destruct (str_split _ s) as [a t] eqn:Hsp. rw (str_split_spec _ _ _ _ Hsp).
    destruct (IH (last_char p a) t) as (H1 & H2 & H3).  cbn. by rw H1 H2 H3.
Qed.

Lemma last_char_app p a b : last_char p (a +:+ b) = last_char (last_char p a) b.
Proof. revert p. induction a as [|c a IH]; intros p; [done|]. exact (IH (Some c)). Qed.

Lemma str_app_split_le m a u w :
  (String.length m <= String.length a)%nat -> a +:+ w = m +:+ u -> exists a', a = m +:+ a' /\ u = a' +:+ w.
Proof.
  revert a. induction m as [|c m IH]; intros a Hle He; [by exists a|]. destruct a as [|d a]; cbn in Hle; [lia|].
  rw !str_cons_app in He. injection He as -> He. destruct (IH a) as (a' & -> & ->); [lia|done|]. by exists a'.
Qed.
Lemma utf8_cancel a b : utf8_valid a = true -> utf8_valid (a +:+ b) = utf8_valid b.
Proof.
  remember (String.length a) as n eqn:Hn. assert (Hle : (String.length a <= n)%nat) by lia. clear Hn.
  revert a Hle. induction n as [|n IH]; intros [|c a] Hle Ha; cbn in Hle; try done; try lia.
  destruct (utf8_valid_inv c a Ha) as (d & t' & Hb & Ht' & Hne & Hr). rw Hb str_app_assoc utf8_rune; [|apply Hr|done].
  apply IH; [|done]. apply (f_equal String.length) in Hb. rw str_length_app in Hb. cbn in Hb.
  destruct d; [done|]. cbn in Hb. lia.
Qed.

(** No match is overlooked: wherever the language has one, a piece that is a match
    holds its first byte. *)
Lemma pieces_cover r : rx_ok r -> consumes r -> solid r -> forall fuel p a w y,
  (String.length (a +:+ w) <= fuel)%nat -> utf8_valid a = true -> utf8_valid (a +:+ w) = true ->
  lang r (last_char p a, w) y ->
  exists P m Q, pieces r fuel p (a +:+ w) = P ++ (true, m) :: Q
    /\ (String.length (joined snd P) <= String.length a < String.length (joined snd P) + String.length m)%nat.
Proof.
  intros Hok Hc Hs. induction fuel as [|fuel IH]; intros p a w y Hf Va Vw Hl.
  { apply Hc in Hl. rw str_length_app in Hf. cbn in Hl. lia. }
  assert (Hw : w <> "") by (intros ->; apply Hc in Hl; cbn in Hl; lia).
  destruct (a +:+ w) as [|c s'] eqn:Es; [by destruct a|]. cbn [pieces]. rw -Es in Hf Vw |- *. clear Es c s'.
  destruct (match_here r p (a +:+ w)) as [t|] eqn:Hm.
  - pose proof Hm as ([q u] & Hy & [= <-])%rmatch_sound. apply Hc in Hy. cbn in Hy.
    pose proof Hm as (m & He & Vm & Vt)%match_here_cuts; [|done..].
    rw He str_length_app Nat.add_sub str_split_app. cbn [fst].
    assert (Hm0 : m <> "") by (intros ->; rw He str_app_nil_l in Hy; lia).
    destruct (decide (String.length a < String.length m)%nat) as [Hlt|Hge].
    { exists [], m, (pieces r fuel (last_char p m) u). split; [done|]. cbn. lia. }
    destruct (str_app_split_le m a u w) as [a' [-> ->]]; [lia|done|].
    rw utf8_cancel in Va; [|done]. rw last_char_app in Hl.
    destruct (IH (last_char p m) a' w y) as (P & n & Q & -> & Hb); [|done..|].
    { rw !str_length_app in Hf |- *. destruct m; [done|]. cbn in Hf. lia. }
    exists ((true, m) :: P), n, Q. split; [done|]. cbn. rw !str_length_app. lia.
  - destruct a as [|c a].
    { pose proof (match_here_complete r _ _ Hs Hl) as [t Ht]. cbn in Ht. cbn in Hm. by rw Ht in Hm. }
    destruct (utf8_valid_inv c a Va) as (b & a' & Hb & Va' & Hne & Hr). rw Hb in Hf Vw Hl |- *.
    rw str_app_assoc. rw Hr. assert (Nat.max 1 (String.length b) = String.length b) as -> by (destruct b; cbn; [done|lia]).
    rw str_split_app. rw str_app_assoc utf8_rune in Vw; [|apply Hr|done]. rw last_char_app in Hl.
    destruct (IH (last_char p b) a' w y) as (P & n & Q & -> & Hn); [|done..|].
    { rw !str_length_app in Hf |- *. destruct b; [done|]. cbn in Hf. lia. }
    exists ((false, b) :: P), n, Q. split; [done|]. cbn. rw !str_length_app. lia.
Qed.
