(* ===== verification/AuditService.v ===== *)
(** The audit-log service: api/internal/audit/service.go, against the
    [Repository] interface of repository.go.

    Clock readings, fresh identifiers and the repository are arguments; metrics
    and logging are left out.  Events the Go code mutates through pointers are
    returned as new values. *)
From S2P Require Import Prelude Errors GoTime Json Canonical AuditModel Redaction.
Import GoTime.
Local Open Scope Z_scope.

(** * repository.go: the operations the service calls *)

Class Repository (St : Type) := {
  r_AppendChained : St -> string -> AuditEvent -> res AuditEvent * St;
  r_AppendBatchChained : St -> string -> list AuditEvent -> res (list AuditEvent) * St;
  r_Get : St -> string -> string -> res AuditEvent;
  r_Previous : St -> string -> string -> res (option AuditEvent);
  r_Walk : forall S : Type, St -> string -> Time -> Time -> (S -> AuditEvent -> res S) -> S -> option (nat * res S);
  r_ReanchorFrom : St -> string -> Z -> string -> res Z * St
}.

(** * Subscriptions *)

Definition subBuffer : nat := 64.
(** A subscriber: its channel and the events waiting in it. *)
Record Sub := MkSub { sub_id : nat; sub_queue : list AuditEvent }.
Record Subs := MkSubs { subs : list Sub; next_sub : nat }.

Definition Subscribe (s : Subs) : nat * Subs :=
  (next_sub s, MkSubs (subs s ++ [MkSub (next_sub s) []]) (S (next_sub s))).

(** The cancel function: removes the first entry holding the channel. *)
Fixpoint cancel_subs (id : nat) (l : list Sub) : list Sub :=
  match l with
  | [] => []
  | c :: l => if decide (sub_id c = id) then l else c :: cancel_subs id l
  end.
Definition cancel (id : nat) (s : Subs) : Subs := MkSubs (cancel_subs id (subs s)) (next_sub s).

(** A non-blocking send to each channel: dropped when the buffer is full. *)
Definition fanout (e : AuditEvent) (s : Subs) : Subs :=
  MkSubs (map (fun c => if (length (sub_queue c) <? subBuffer)%nat
                        then MkSub (sub_id c) (sub_queue c ++ [e]) else c) (subs s)) (next_sub s).
Definition FanoutEvents (l : list AuditEvent) (s : Subs) : Subs := fold_left (fun s e => fanout e s) l s.

(** * Results *)

Definition MaxBatchSize : nat := 1000.

(** [Message] is kept as the error it prints. *)
Record BatchError := MkBatchError { bt_Index : nat; bt_Code : string; bt_Message : AppError }.
Record BatchResult := MkBatchResult {
  br_Accepted : nat; br_Rejected : nat; br_IDs : list string; br_Errors : list BatchError
}.
Definition emptyBatch : BatchResult := MkBatchResult 0 0 [] [].

Record AsyncReceipt := MkReceipt {
  ar_ReceiptID : string;
  ar_Status : string;
  ar_Batch : BatchResult;
  ar_ErrorMessage : string;
  ar_CreatedAt : Time;
  ar_CommittedAt : option Time
}.

(** Changes of a [VerifyResult]. *)
Definition vr_new (t : string) (from to : Time) : VerifyResult := MkVerify true t 0 "" from to "" "" [] 0.
Definition vr_break (id reason : string) (r : VerifyResult) : VerifyResult :=
  MkVerify false (vr_TenantID r) (vr_EventsChecked r) (vr_RootHash r) (vr_From r) (vr_To r) id reason
    (vr_AllBrokenEvents r) (vr_BrokenCount r).
Definition vr_root (h : string) (r : VerifyResult) : VerifyResult :=
  MkVerify (vr_Valid r) (vr_TenantID r) (vr_EventsChecked r) h (vr_From r) (vr_To r)
    (vr_FirstBrokenEventID r) (vr_Reason r) (vr_AllBrokenEvents r) (vr_BrokenCount r).
Definition vr_checked (n : nat) (r : VerifyResult) : VerifyResult :=
  MkVerify (vr_Valid r) (vr_TenantID r) n (vr_RootHash r) (vr_From r) (vr_To r)
    (vr_FirstBrokenEventID r) (vr_Reason r) (vr_AllBrokenEvents r) (vr_BrokenCount r).
Definition vr_add (b : BrokenEvent) (r : VerifyResult) : VerifyResult :=
  MkVerify false (vr_TenantID r) (vr_EventsChecked r) (vr_RootHash r) (vr_From r) (vr_To r)
    (vr_FirstBrokenEventID r) (vr_Reason r) (vr_AllBrokenEvents r ++ [b]) (vr_BrokenCount r).
Definition vr_finish_deep (r : VerifyResult) : VerifyResult :=
  let first := head (vr_AllBrokenEvents r) in
  MkVerify (vr_Valid r) (vr_TenantID r) (vr_EventsChecked r) (vr_RootHash r) (vr_From r) (vr_To r)
    (match first with Some b => be_EventID b | None => vr_FirstBrokenEventID r end)
    (match first with Some b => be_Reason b | None => vr_Reason r end)
    (vr_AllBrokenEvents r) (length (vr_AllBrokenEvents r)).

Section Service.
Context {St : Type} `{!Repository St}.
(** [redactOn], and the clock and identifier a call draws for its [i]-th event. *)
Variable redactOn : bool.
Variable now : nat -> Time.
Variable NewEventID : nat -> string.

(** * Defaults and redaction *)

Definition applyDefaults (i : nat) (e : AuditEvent) : AuditEvent :=
  let e := if bool_decide (ev_ID e = "") then set_ID (NewEventID i) e else e in
  let e := if IsZero (ev_Timestamp e) then set_Timestamp (Truncate Microsecond (now i)) e
           else set_Timestamp (Truncate Microsecond (ev_Timestamp e)) e in
  match ev_Metadata e with None => set_Metadata (Some []) e | Some _ => e end.

Definition applyRedaction (e : AuditEvent) : AuditEvent :=
  if negb redactOn then e
  else match ev_Metadata e with
       | None => e
       | Some m =>
           let '(m', c) := RedactJSONMap m in
           if c then set_Metadata (Some (obj_set "redacted" (JBool true) m')) e else set_Metadata (Some m') e
       end.

(** * Ingest *)

Definition Log (st : St) (sb : Subs) (tenantID : string) (inp : option AuditEvent)
    : res AuditEvent * St * Subs :=
  if bool_decide (tenantID = "") then (Err (InvalidInput "tenant_id required"), st, sb)
  else match Validate inp, inp with
       | Err e, _ => (Err e, st, sb)
       | Ok _, None => (Err (InvalidInput "event must not be nil"), st, sb)
       | Ok _, Some e =>
           let e := applyRedaction (applyDefaults 0 e) in
           match r_AppendChained st tenantID e with
           | (Err err, st') => (Err err, st', sb)
           | (Ok out, st') => (Ok out, st', fanout out sb)
           end
       end.

(** The loop of [prepareBatch] from index [i] on. *)
Fixpoint prepare_events (i : nat) (inp : list (option AuditEvent)) : BatchResult * list AuditEvent :=
  match inp with
  | [] => (emptyBatch, [])
  | e :: inp =>
      let '(r, valid) := prepare_events (S i) inp in
      match Validate e, e with
      | Ok _, Some e => (r, applyRedaction (applyDefaults i e) :: valid)
      | Err err, _ =>
          (MkBatchResult (br_Accepted r) (S (br_Rejected r)) (br_IDs r)
             (MkBatchError i "VALIDATION_ERROR" err :: br_Errors r), valid)
      | Ok _, None => (r, valid)
      end
  end.

Definition prepareBatch (tenantID : string) (inp : list (option AuditEvent))
    : res (BatchResult * list AuditEvent) :=
  if bool_decide (tenantID = "") then Err (InvalidInput "tenant_id required")
  else match inp with
       | [] => Ok (emptyBatch, [])
       | _ => if (MaxBatchSize <? length inp)%nat
              then Err (InvalidInput "batch exceeds maximum of 1000 events")
              else Ok (prepare_events 0 inp)
       end.

Definition CommitBatch (st : St) (tenantID : string) (events : list AuditEvent) : res (list AuditEvent) * St :=
  match events with
  | [] => (Ok [], st)
  | _ => r_AppendBatchChained st tenantID events
  end.

Definition LogBatch (st : St) (sb : Subs) (tenantID : string) (inp : list (option AuditEvent))
    : res BatchResult * St * Subs :=
  match prepareBatch tenantID inp with
  | Err e => (Err e, st, sb)
  | Ok (r, []) => (Ok r, st, sb)
  | Ok (r, valid) =>
      match CommitBatch st tenantID valid with
      | (Err e, st') => (Err e, st', sb)
      | (Ok written, st') =>
          (Ok (MkBatchResult (length written) (br_Rejected r) (br_IDs r ++ map ev_ID written) (br_Errors r)),
           st', FanoutEvents written sb)
      end
  end.

(** The async path; [enqueuer] is the configured queue, [None] when there is none. *)
Definition EnqueueBatch {Q : Type}
    (enqueuer : option (Q -> string -> string -> list AuditEvent -> BatchResult -> res unit * Q))
    (NewReceiptID : string) (q : Q) (tenantID : string) (inp : list (option AuditEvent)) : res AsyncReceipt * Q :=
  match enqueuer with
  | None => (Err (Internal "async ingest not configured"), q)
  | Some enqueue =>
      match prepareBatch tenantID inp with
      | Err e => (Err e, q)
      | Ok (r, valid) =>
          let r := MkBatchResult (length valid) (br_Rejected r) (br_IDs r) (br_Errors r) in
          match valid with
          | [] => (Ok (MkReceipt NewReceiptID "committed" r "" zeroTime None), q)
          | _ =>
              match enqueue q tenantID NewReceiptID valid r with
              | (Err e, q') => (Err e, q')
              | (Ok _, q') => (Ok (MkReceipt NewReceiptID "queued" r "" zeroTime None), q')
              end
          end
      end
  end.

(** * Verification *)

Definition Previous_hash (st : St) (tenantID id : string) : res string :=
  prev ← r_Previous st tenantID id;
  Ok (match prev with Some p => ev_Hash p | None => GenesisHash end).

Definition verify_step (st : St) (tenantID : string) (r : VerifyResult) (e : AuditEvent) : res VerifyResult :=
  if negb (vr_Valid r) then Ok r
  else
    expectedPrev ← Previous_hash st tenantID (ev_ID e);
    Ok (if negb (bool_decide (ev_PrevHash e = expectedPrev)) then vr_break (ev_ID e) "prev_hash mismatch" r
        else if negb (bool_decide (ComputeHash e = ev_Hash e)) then vr_break (ev_ID e) "hash mismatch" r
        else vr_root (ev_Hash e) r).

Definition open_from (from : Time) : Time := if IsZero from then historyStart else from.
Definition open_to (to : Time) : Time := if IsZero to then farFuture else to.

(** [None] only if the repository's walk does not end. *)
Definition Verify (st : St) (tenantID : string) (from to : Time) : option (res VerifyResult) :=
  let from := open_from from in
  let to := open_to to in
  match r_Walk VerifyResult st tenantID from to (verify_step st tenantID) (vr_new tenantID from to) with
  | None => None
  | Some (_, Err e) => Some (Err e)
  | Some (count, Ok r) => Some (Ok (vr_checked count r))
  end.

Definition deep_step (st : St) (tenantID : string) (r : VerifyResult) (e : AuditEvent) : res VerifyResult :=
  expectedPrev ← Previous_hash st tenantID (ev_ID e);
  let reason := if negb (bool_decide (ev_PrevHash e = expectedPrev)) then Some "prev_hash mismatch" else None in
  let reason := if negb (bool_decide (ComputeHash e = ev_Hash e)) then Some "hash mismatch" else reason in
  Ok (match reason with
      | Some reason =>
          vr_add (MkBroken (ev_ID e) (ev_SequenceNumber e) (ev_Timestamp e) (ev_Action e) (actor_ID (ev_Actor e)) reason) r
      | None => vr_root (ev_Hash e) r
      end).

Definition VerifyDeep (st : St) (tenantID : string) (from to : Time) : option (res VerifyResult) :=
  let from := open_from from in
  let to := open_to to in
  match r_Walk VerifyResult st tenantID from to (deep_step st tenantID) (vr_new tenantID from to) with
  | None => None
  | Some (_, Err e) => Some (Err e)
  | Some (count, Ok r) => Some (Ok (vr_finish_deep (vr_checked count r)))
  end.

Definition VerifyOne (st : St) (tenantID id : string) : res VerifyResult :=
  e ← r_Get st tenantID id;
  let r := MkVerify true tenantID 1 (ev_Hash e) (ev_Timestamp e) (ev_Timestamp e) "" "" [] 0 in
  expectedPrev ← Previous_hash st tenantID id;
  Ok (if negb (bool_decide (ev_PrevHash e = expectedPrev)) then vr_break (ev_ID e) "prev_hash mismatch" r
      else if negb (bool_decide (ComputeHash e = ev_Hash e)) then vr_break (ev_ID e) "hash mismatch" r
      else r).

(** * Re-anchoring *)

Definition reanchor_event (firstBrokenEventID reason : string) (brokenSeq updated : Z) : AuditEvent :=
  MkEvent "" "" zeroTime (MkActor "system" ActorSystem "") "chain.reanchored"
    (MkResource firstBrokenEventID "audit_chain" "") OutcomeSuccess
    (Some [("events_reanchored", JInt updated);
           ("first_broken_seq", JInt brokenSeq);
           ("reanchor_system_note", JStr "Hashes recomputed forward from break point. See reason for root cause.");
           ("reason", JStr reason)]) "" "" 0.

Definition ReanchorChain (st : St) (tenantID firstBrokenEventID reason : string) : res AuditEvent * St :=
  if bool_decide (tenantID = "") then (Err (InvalidInput "tenant_id required"), st)
  else if bool_decide (firstBrokenEventID = "") then (Err (InvalidInput "first_broken_event_id required"), st)
  else if bool_decide (reason = "") then (Err (InvalidInput "reason required - document why the chain broke"), st)
  else
    match r_Get st tenantID firstBrokenEventID with
    | Err e => (Err e, st)
    | Ok broken =>
        match Previous_hash st tenantID firstBrokenEventID with
        | Err e => (Err e, st)
        | Ok startPrevHash =>
            match r_ReanchorFrom st tenantID (ev_SequenceNumber broken) startPrevHash with
            | (Err e, st1) => (Err e, st1)
            | (Ok updated, st1) =>
                r_AppendChained st1 tenantID
                  (applyDefaults 0 (reanchor_event firstBrokenEventID reason (ev_SequenceNumber broken) updated))
            end
        end
    end.

Definition ReanchorAll (st : St) (tenantID reason : string) : option (res AuditEvent * St) :=
  if bool_decide (tenantID = "") then Some (Err (InvalidInput "tenant_id required"), st)
  else if bool_decide (reason = "") then Some (Err (InvalidInput "reason required"), st)
  else
    match Verify st tenantID zeroTime zeroTime with
    | None => None
    | Some (Err e) => Some (Err e, st)
    | Some (Ok v) =>
        if vr_Valid v then Some (Err (InvalidInput "chain is already intact - nothing to re-anchor"), st)
        else Some (ReanchorChain st tenantID (vr_FirstBrokenEventID v) reason)
    end.
End Service.
