(* ===== verification/Postgres.v ===== *)
(** What the stores rely on PostgreSQL and pgx for.

    A table is the list of its rows; a query filters it.  [Call] names the round
    trips of an operation, and an environment says which of them fail.  The
    [jsonb] type is a parameter with its documented behaviour ([JsonbSpec]). *)
From S2P Require Import Prelude GoTime Json JsonFacts Canonical CanonicalFacts.
Import GoTime.
Local Open Scope Z_scope.

(** A TEXT value: valid UTF-8 without NUL. *)
Definition text_ok (s : string) : bool :=
  utf8_valid s && str_all (fun c => negb (byte_val c =? 0)) s.

(** The TIMESTAMPTZ range, 4713 BC to 294276 AD. *)
Definition pg_time_ok (t : Time) : bool :=
  (-210866803200000000000 <=? t) && (t <? 9224318016000000000000).

(** The TIMESTAMPTZ pgx sends for a Go time: whole microseconds. *)
Definition pg_ts (t : Time) : Time := Truncate Microsecond t.

(** The value a JSONB column holds after a write, [None] when the server refuses it. *)
Class Jsonb := jsonb : json -> option json.

(** jsonb keeps the value: numbers by value and printed without an exponent, strings
    exactly, objects without regard to member order. *)
Class JsonbSpec `{Jsonb} := {
  jsonb_equiv v w : json_wf v = true -> jsonb v = Some w -> json_equiv w v;
  jsonb_wf v w : json_wf v = true -> jsonb v = Some w -> json_wf w = true;
  jsonb_nesting v w : json_wf v = true -> jsonb v = Some w -> nesting w = nesting v;
  jsonb_canonable v w : json_wf v = true -> jsonb v = Some w -> canonable w = true
}.

(** A jsonb that keeps the text of every number it can. *)
Definition jsonb_plain : Jsonb := fun v => if canonable v then Some v else None.

Lemma json_equiv_refl v : admissible v -> json_equiv v v.
Proof. intros H. by apply normal_form_eq. Qed.

Lemma jsonb_plain_spec : @JsonbSpec jsonb_plain.
Proof.
  split; intros v w Hw; unfold jsonb, jsonb_plain; destruct (canonable v) eqn:Hc; try done; intros [= <-]; try done.
  by apply json_equiv_refl.
Qed.

(** The round trips of the stores' operations. *)
Inductive Call : Type :=
| CallBegin | CallLock | CallSet | CallRead (n : nat) | CallNextval (n : nat) | CallWrite (n : nat) | CallCommit.

Record Env := MkEnv {
  fails : Call -> bool;     (** the call returns an error *)
  commit_lost : bool        (** a failed commit took effect anyway *)
}.

(** Every call succeeds. *)
Definition healthy : Env := MkEnv (fun _ => false) false.

(** What a transaction leaves behind when its commit returns. *)
Definition commit {A} (env : Env) (before after : A) : A :=
  if fails env CallCommit then (if commit_lost env then after else before) else after.

(** A BIGSERIAL sequence: the next value, never rolled back. *)
Definition nextval (env : Env) (n : nat) (seq : Z) : option Z :=
  if fails env (CallNextval n) || (int64_max <=? seq) then None else Some (seq + 1).
