(* ===== verification/AuditStore.v ===== *)
(** The audit tables: api/internal/storage/postgres/audit_store.go, chain part.

    [DB] holds the rows of [audit_events] in insertion order and the last value
    of the [sequence_number] sequence.  Reads go to the same database
    ([readDB = writeDB]). *)
From S2P Require Import Prelude Errors GoTime Sha256 Json JsonFacts Canonical CanonicalFacts AuditModel AuditHash Postgres.
Import GoTime.
Local Open Scope Z_scope.

Record DB := MkDB { db_events : list AuditEvent; db_seq : Z }.

(** * Advisory locks *)

(** The big-endian value of the first eight digest bytes, as int64. *)
Definition GetAdvisoryLockKey (tenantID : string) : Z :=
  wrap64 (Sha256.word_be (firstn 8 (Sha256.Sum256 tenantID))).

(** * Rows *)

Section Store.
Context `{Hj : Jsonb}.
(** The ids in the tenants table. *)
Variable tenant_exists : string -> bool.

Definition row_strings (e : AuditEvent) : list string := event_strings e ++ [ev_Hash e].

(** The metadata argument: json.Marshal of the map, [null] for a nil map. *)
Definition marshal_metadata (md : option metadata) : option json :=
  match md with
  | None => Some JNull
  | Some m => b ← marshal (JObj m); decode b
  end.

(** The row the server stores: text, foreign key and CHECK constraints, jsonb. *)
Definition stored_row (e : AuditEvent) : option AuditEvent :=
  if forallb text_ok (row_strings e) && pg_time_ok (ev_Timestamp e)
     && tenant_exists (ev_TenantID e)
     && ActorType_IsValid (actor_Type (ev_Actor e)) && Outcome_IsValid (ev_Outcome e)
  then
    v ← marshal_metadata (ev_Metadata e);
    w ← jsonb v;
    match w with
    | JNull => Some (set_Metadata None e)
    | JObj m => Some (set_Metadata (Some m) e)
    | _ => None
    end
  else None.

(** Primary key and UNIQUE (tenant_id, sequence_number). *)
Definition conflicts (a b : AuditEvent) : bool :=
  bool_decide (ev_ID a = ev_ID b)
  || (bool_decide (ev_TenantID a = ev_TenantID b) && (ev_SequenceNumber a =? ev_SequenceNumber b)).

Definition insert_row (rows : list AuditEvent) (e : AuditEvent) : option (list AuditEvent) :=
  r ← stored_row e;
  if existsb (conflicts r) rows then None else Some (rows ++ [r]).

Fixpoint insert_rows (rows : list AuditEvent) (l : list AuditEvent) : option (list AuditEvent) :=
  match l with
  | [] => Some rows
  | e :: l => rows' ← insert_row rows e; insert_rows rows' l
  end.

(** The tenant's rows, ORDER BY sequence_number ASC. *)
Definition chain (rows : list AuditEvent) (t : string) : list AuditEvent :=
  order_by ev_SequenceNumber (filter (fun e => ev_TenantID e = t) rows).

(** * AppendBatchChained *)

Definition bulkInsertChunkSize : nat := 100.

Definition lastHashTx (env : Env) (rows : list AuditEvent) (tenantID : string) : res string :=
  if fails env (CallRead 0) then Err (Internal "reading chain head")
  else Ok (match last (chain rows tenantID) with None => GenesisHash | Some e => ev_Hash e end).

Definition existing_map (rows : list AuditEvent) : gmap string AuditEvent :=
  fold_left (fun m e => <[ev_ID e := e]> m) rows ∅.

Definition loadExistingEventsTx (env : Env) (rows : list AuditEvent) (tenantID : string) (ids : list string)
    : res (gmap string AuditEvent) :=
  match ids with
  | [] => Ok ∅
  | _ =>
      if fails env (CallRead 1) then Err (Internal "checking existing audit events")
      else Ok (existing_map (filter (fun e => ev_TenantID e = tenantID /\ ev_ID e ∈ ids) rows))
  end.

(** The variables of the chaining loop. *)
Record Pending := MkPending {
  p_seq : Z;
  p_prevHash : string;
  p_existing : gmap string AuditEvent;
  p_toInsert : list AuditEvent
}.

(** One event linked behind [prevHash]. *)
Definition link (tenantID prevHash : string) (seq : Z) (e : AuditEvent) : AuditEvent :=
  let e := set_TenantID tenantID e in
  let e := set_Timestamp (Truncate Microsecond (ev_Timestamp e)) e in
  let e := set_SequenceNumber seq e in
  let e := set_PrevHash prevHash e in
  set_Hash (ComputeHash e) e.

Fixpoint chain_events (env : Env) (tenantID : string) (n : nat) (s : Pending) (events : list AuditEvent)
    : res Pending * Z :=
  match events with
  | [] => (Ok s, p_seq s)
  | e :: es =>
      match p_existing s !! ev_ID e with
      | Some _ => chain_events env tenantID n s es
      | None =>
          match nextval env n (p_seq s) with
          | None => (Err (Internal "allocating audit sequence"), p_seq s)
          | Some q =>
              let e := link tenantID (p_prevHash s) q e in
              if bool_decide (ev_Hash e = "") then
                (Err (InvalidInput "audit metadata is not canonical JSON"), q)
              else
                chain_events env tenantID (S n)
                  (MkPending q (ev_Hash e) (<[ev_ID e := e]> (p_existing s)) (p_toInsert s ++ [e])) es
          end
      end
  end.

Definition bulkInsertChunkTx (env : Env) (n : nat) (rows events : list AuditEvent) : res (list AuditEvent) :=
  match events with
  | [] => Ok rows
  | _ =>
      if negb (forallb (fun e => match marshal_metadata (ev_Metadata e) with Some _ => true | None => false end) events)
      then Err (Internal "marshaling metadata")
      else if fails env (CallWrite n) then Err (Internal "bulk inserting audit events")
      else match insert_rows rows events with
           | None => Err (Internal "bulk inserting audit events")
           | Some rows' => Ok rows'
           end
  end.

(** [fuel] bounds the number of chunks; the length of [events] is enough. *)
Fixpoint bulkInsertAuditEventsTx (env : Env) (fuel n : nat) (rows events : list AuditEvent)
    : res (list AuditEvent) :=
  match fuel, events with
  | _, [] => Ok rows
  | O, _ => Ok rows
  | S fuel, _ =>
      rows' ← bulkInsertChunkTx env n rows (firstn bulkInsertChunkSize events);
      bulkInsertAuditEventsTx env fuel (S n) rows' (skipn bulkInsertChunkSize events)
  end.

(** The transaction up to its commit: the outcome, the rows inside the
    transaction, and the sequence, which a rollback does not restore. *)
Definition append_tx (env : Env) (db : DB) (tenantID : string) (events : list AuditEvent)
    : res (list AuditEvent * list AuditEvent) * Z :=
  if fails env CallBegin then (Err (Internal "beginning audit tx"), db_seq db)
  else if fails env CallLock then (Err (Internal "acquiring tenant lock"), db_seq db)
  else
    match lastHashTx env (db_events db) tenantID with
    | Err e => (Err e, db_seq db)
    | Ok prevHash =>
        match loadExistingEventsTx env (db_events db) tenantID (map ev_ID events) with
        | Err e => (Err e, db_seq db)
        | Ok existing =>
            match chain_events env tenantID 0 (MkPending (db_seq db) prevHash existing []) events with
            | (Err e, q) => (Err e, q)
            | (Ok s, q) =>
                (rows ← bulkInsertAuditEventsTx env (length (p_toInsert s)) 0 (db_events db) (p_toInsert s);
                 Ok (rows, map (fun e => default (set_TenantID tenantID e) (p_existing s !! ev_ID e)) events), q)
            end
        end
    end.

Definition AppendBatchChained (env : Env) (db : DB) (tenantID : string) (events : list AuditEvent)
    : res (list AuditEvent) * DB :=
  match events with
  | [] => (Ok [], db)
  | _ =>
      match append_tx env db tenantID events with
      | (Err e, q) => (Err e, MkDB (db_events db) q)
      | (Ok (rows, out), q) =>
          let db' := MkDB (commit env (db_events db) rows) q in
          if fails env CallCommit then (Err (Internal "committing audit tx"), db') else (Ok out, db')
      end
  end.

Definition AppendChained (env : Env) (db : DB) (tenantID : string) (e : AuditEvent) : res AuditEvent * DB :=
  match AppendBatchChained env db tenantID [e] with
  | (Err err, db') => (Err err, db')
  | (Ok [], db') => (Err (Internal "append returned no events"), db')
  | (Ok (x :: _), db') => (Ok x, db')
  end.

(** * Reads *)

(** The tenant's row with this id: [WHERE tenant_id = $1 AND id = $2]. *)
Definition find_row (rows : list AuditEvent) (t id : string) : option AuditEvent :=
  head (filter (fun e => ev_TenantID e = t /\ ev_ID e = id) rows).

Definition Get (env : Env) (db : DB) (tenantID id : string) : res AuditEvent :=
  if fails env (CallRead 0) then Err (Internal "getting audit event")
  else match find_row (db_events db) tenantID id with
       | None => Err (NotFound "audit_event" id)
       | Some e => Ok e
       end.

Definition Previous (env : Env) (db : DB) (tenantID id : string) : res (option AuditEvent) :=
  if fails env (CallRead 0) then Err (Internal "looking up sequence")
  else match find_row (db_events db) tenantID id with
       | None => Err (NotFound "audit_event" id)
       | Some e =>
           if fails env (CallRead 1) then Err (Internal "getting previous event")
           else Ok (last (filter (fun r => ev_SequenceNumber r < ev_SequenceNumber e) (chain (db_events db) tenantID)))
       end.

Definition GetBySeq (env : Env) (db : DB) (tenantID : string) (seq : Z) : res AuditEvent :=
  if fails env (CallRead 0) then Err (Internal "getting audit event by seq")
  else match head (filter (fun e => ev_SequenceNumber e = seq) (chain (db_events db) tenantID)) with
       | None => Err (NotFound "audit_event" ("seq=" +:+ pretty seq))
       | Some e => Ok e
       end.

Definition ChainHead (env : Env) (db : DB) (tenantID : string) : res (Z * string) :=
  if fails env (CallRead 0) then Err (Internal "reading chain head")
  else match last (chain (db_events db) tenantID) with
       | None => Ok (0, "")
       | Some e => Ok (ev_SequenceNumber e, ev_Hash e)
       end.

Definition CountEvents (env : Env) (db : DB) (tenantID : string) : res Z :=
  if fails env (CallRead 0) then Err (Internal "counting events")
  else Ok (Z.of_nat (length (filter (fun e => ev_TenantID e = tenantID) (db_events db)))).

Definition CountEventsSince (env : Env) (db : DB) (tenantID : string) (since : Time) : res Z :=
  if fails env (CallRead 0) then Err (Internal "counting recent events")
  else Ok (Z.of_nat (length (filter (fun e => ev_TenantID e = tenantID /\ pg_ts since <= ev_Timestamp e) (db_events db)))).

(** [date_trunc('month', ...)]: midnight UTC on the first of the month. *)
Definition month_start (now : Time) : Time :=
  let '(y, m, _) := civil_from_days (now / Day) in days_from_civil (y, m, 1) * Day.

Definition CountEventsThisMonth (env : Env) (db : DB) (now : Time) (tenantID : string) : res Z :=
  if fails env (CallRead 0) then Err (Internal "counting monthly events")
  else Ok (Z.of_nat (length (filter (fun e => ev_TenantID e = tenantID /\ month_start now <= ev_Timestamp e) (db_events db)))).

(** SELECT DISTINCT ... ORDER BY ... ASC. *)
Definition ListDistinctActions (env : Env) (db : DB) (tenantID : string) (since : Time) : res (list string) :=
  if fails env (CallRead 0) then Err (Internal "listing distinct actions")
  else Ok (merge_sort String.le
    (remove_dups (map ev_Action (filter (fun e => ev_TenantID e = tenantID /\ pg_ts since <= ev_Timestamp e) (db_events db))))).

(** The window of a walk or a count. *)
Definition in_window (from to : Time) (e : AuditEvent) : Prop :=
  pg_ts from <= ev_Timestamp e /\ ev_Timestamp e <= pg_ts to.
#[global] Instance in_window_dec from to e : Decision (in_window from to e).
Proof. apply _. Defined.

Definition groupCount (env : Env) (col : AuditEvent -> string) (db : DB) (tenantID : string) (from to : Time)
    : res (gmap string nat) :=
  if fails env (CallRead 0) then Err (Internal "group count")
  else Ok (fold_left (fun m e => <[col e := S (default 0%nat (m !! col e))]> m)
    (filter (fun e => ev_TenantID e = tenantID /\ in_window from to e) (db_events db)) ∅).
Definition CountByAction (env : Env) := groupCount env ev_Action.
Definition CountByActorType (env : Env) := groupCount env (fun e => actor_Type (ev_Actor e)).

(** ** Walk *)

Section Walk.
 Context {S : Type} (fn : S -> AuditEvent -> res S).

Record WalkState := MkWalk { w_lastSeq : Z; w_count : nat; w_state : S }.

(** One page: stops at the callback's first error. *)
Fixpoint walk_page (w : WalkState) (page : list AuditEvent) : res WalkState * WalkState :=
  match page with
  | [] => (Ok w, w)
  | e :: page =>
      match fn (w_state w) e with
      | Err err => (Err err, w)
      | Ok s' => walk_page (MkWalk (ev_SequenceNumber e) (w_count w + 1) s') page
      end
  end.

Definition pageSize : nat := 1000.

(** The page query. *)
Definition page_rows (rows : list AuditEvent) (tenantID : string) (from to : Time) (lastSeq : Z) : list AuditEvent :=
  firstn pageSize
    (filter (fun e => in_window from to e /\ lastSeq < ev_SequenceNumber e) (chain rows tenantID)).

(** The paging loop; [None] when the fuel is spent. *)
Fixpoint walk_pages (env : Env) (fuel n : nat) (rows : list AuditEvent) (tenantID : string) (from to : Time)
    (w : WalkState) : option (nat * res S) :=
  match fuel with
  | O => None
  | Datatypes.S fuel =>
      if fails env (CallRead n) then Some (w_count w, Err (Internal "walking audit events chunk"))
      else
        let page := page_rows rows tenantID from to (w_lastSeq w) in
        match walk_page w page with
        | (Err err, w') => Some (w_count w', Err err)
        | (Ok w', _) =>
            if (length page <? pageSize)%nat then Some (w_count w', Ok (w_state w'))
            else walk_pages env fuel (n + 1) rows tenantID from to w'
        end
  end.

(** Each page but the last consumes rows, so [length rows + 1] pages suffice. *)
Definition Walk (env : Env) (db : DB) (tenantID : string) (from to : Time) (s : S) : option (nat * res S) :=
  walk_pages env (length (db_events db) + 1) 0 (db_events db) tenantID from to (MkWalk (-1) 0 s).
End Walk.

(** * ReanchorFrom *)

(** The patched rows: [prev_hash] and [hash] recomputed in sequence order. *)
Fixpoint reanchor_patches (prevHash : string) (l : list AuditEvent) : list AuditEvent :=
  match l with
  | [] => []
  | e :: l =>
      let e := set_PrevHash prevHash e in
      let e := set_Hash (ComputeHash e) e in
      e :: reanchor_patches (ev_Hash e) l
  end.

(** UPDATE ... SET prev_hash, hash WHERE tenant_id AND sequence_number.  The trigger
    trg_audit_no_update of baseline/001_core.sql raises for every row an UPDATE of
    audit_events reaches, whatever "fact0.reanchor_mode" says: [None].  Otherwise the
    number updated, none. *)
Definition update_hash (rows : list AuditEvent) (tenantID : string) (p : AuditEvent) : option Z :=
  let hit e := bool_decide (ev_TenantID e = tenantID) && (ev_SequenceNumber e =? ev_SequenceNumber p) in
  if existsb hit rows then None else Some 0.

Fixpoint apply_patches (env : Env) (n : nat) (rows : list AuditEvent) (tenantID : string) (patches : list AuditEvent)
    (updated : Z) : res Z :=
  match patches with
  | [] => Ok updated
  | p :: ps =>
      match (if fails env (CallWrite n) then None else update_hash rows tenantID p) with
      | None => Err (Internal ("updating hash for seq " +:+ pretty (ev_SequenceNumber p)))
      | Some k => apply_patches env (S n) rows tenantID ps (updated + k)
      end
  end.

(** No statement changes a row, so the lock, which is not the one AppendBatchChained
    takes, makes no difference to the state. *)
Definition ReanchorFrom (env : Env) (db : DB) (tenantID : string) (fromSeq : Z) (startPrevHash : string)
    : res Z * DB :=
  if fails env CallBegin then (Err (Internal "beginning reanchor tx"), db)
  else if fails env CallLock then (Err (Internal "acquiring tenant lock for reanchor"), db)
  else if fails env CallSet then (Err (Internal "setting reanchor mode"), db)
  else if fails env (CallRead 0) then (Err (Internal "querying events for reanchor"), db)
  else
    let patches := reanchor_patches startPrevHash
      (filter (fun e => fromSeq <= ev_SequenceNumber e) (chain (db_events db) tenantID)) in
    match apply_patches env 0 (db_events db) tenantID patches 0 with
    | Err e => (Err e, db)
    | Ok updated => if fails env CallCommit then (Err (Internal "committing reanchor tx"), db) else (Ok updated, db)
    end.
End Store.
