(* ===== verification/AuditStoreFacts.v ===== *)
(** The audit chain: what AppendBatchChained and ReanchorFrom do to it.

    [fresh] and [link_all] specify the loop of AppendBatchChained: the events
    whose id is new, linked one behind the other.  [db_wf] is the invariant of
    the tables, [linked] that of a tenant's chain. *)
From S2P Require Import Prelude Errors GoTime Sha256 Json JsonFacts Canonical CanonicalFacts AuditModel AuditHash Postgres AuditStore.
Import GoTime.
Local Open Scope Z_scope.

(** * Linked chains *)

Definition last_hash (prev : string) (l : list AuditEvent) : string :=
  match last l with None => prev | Some e => ev_Hash e end.

(** Each event points at its predecessor's hash and carries its own. *)
Fixpoint linkedb (prev : string) (l : list AuditEvent) : bool :=
  match l with
  | [] => true
  | e :: l =>
      bool_decide (ev_PrevHash e = prev) && bool_decide (ev_Hash e = ComputeHash e)
      && negb (bool_decide (ev_Hash e = "")) && linkedb (ev_Hash e) l
  end.
Abbreviation linked prev l := (linkedb prev l = true).

Lemma linked_cons prev e l :
  linked prev (e :: l) <->
  ev_PrevHash e = prev /\ ev_Hash e = ComputeHash e /\ ev_Hash e <> "" /\ linked (ev_Hash e) l.
Proof.
  cbn [linkedb]. rw !andb_true_iff negb_true_iff !bool_decide_eq_true bool_decide_eq_false. tauto.
Qed.

Lemma last_hash_cons prev e l : last_hash prev (e :: l) = last_hash (ev_Hash e) l.
Proof. unfold last_hash. rw last_cons. by destruct (last l). Qed.

Lemma linked_app prev l m : linked prev (l ++ m) <-> linked prev l /\ linked (last_hash prev l) m.
Proof.
  revert prev. induction l as [|e l IH]; intros prev; [split; [by intros Hm|by intros [_ Hm]]|].
  cbn [app]. rw !linked_cons last_hash_cons IH. tauto.
Qed.

(** * The specification of the chaining loop *)

(** First occurrences of ids not seen before. *)
Fixpoint fresh (seen : gset string) (events : list AuditEvent) : list AuditEvent :=
  match events with
  | [] => []
  | e :: es => if decide (ev_ID e ∈ seen) then fresh seen es else e :: fresh ({[ev_ID e]} ∪ seen) es
  end.

Fixpoint link_all (t prev : string) (seq : Z) (l : list AuditEvent) : list AuditEvent :=
  match l with
  | [] => []
  | e :: l => let e' := link t prev (seq + 1) e in e' :: link_all t (ev_Hash e') (seq + 1) l
  end.

Definition insert_all (l : list AuditEvent) (m : gmap string AuditEvent) : gmap string AuditEvent :=
  fold_left (fun m e => <[ev_ID e := e]> m) l m.

(** What the loop computes, and how far it moves the sequence when it fails. *)
Lemma chain_events_spec env t n s events :
  let new := link_all t (p_prevHash s) (p_seq s) (fresh (dom (p_existing s)) events) in
  match chain_events env t n s events with
  | (Ok s', q) =>
      s' = MkPending (p_seq s + Z.of_nat (length new)) (last_hash (p_prevHash s) new)
             (insert_all new (p_existing s)) (p_toInsert s ++ new)
      /\ q = p_seq s' /\ Forall (fun e => ev_Hash e <> "") new
  | (Err _, q) => p_seq s <= q
  end.
Proof.
  revert n s. induction events as [|e es IH]; intros n s; cbn [chain_events fresh].
  - cbn [link_all length app insert_all fold_left last_hash]. split; [|done].
    destruct s; cbn. by rw Z.add_0_r app_nil_r.
  - destruct (p_existing s !! ev_ID e) as [x|] eqn:Hx.
    + rw decide_True; [|by apply elem_of_dom_2 in Hx]. apply IH.
    + rw decide_False; [|by apply not_elem_of_dom]. unfold nextval.
      destruct (fails env (CallNextval n) || (int64_max <=? p_seq s)); [lia|].
      cbn [link_all]. set (e' := link t (p_prevHash s) (p_seq s + 1) e).
      case_bool_decide as He; [lia|].
      specialize (IH (S n) (MkPending (p_seq s + 1) (ev_Hash e') (<[ev_ID e' := e']> (p_existing s)) (p_toInsert s ++ [e']))).
      cbn [p_seq p_prevHash p_existing p_toInsert] in IH. rw dom_insert_L in IH.
      change (ev_ID e') with (ev_ID e) in IH.
      destruct (chain_events _ _ _ _ es) as [[s'|err] q]; [|lia].
      destruct IH as (-> & -> & Hf). cbn [length p_seq]. rw last_hash_cons. split_and!; [|lia|by constructor].
      f_equal; [lia|by rw -app_assoc].
Qed.

(** ** The fresh events *)

Lemma fresh_subset seen events : forall e, e ∈ fresh seen events -> e ∈ events.
Proof.
  revert seen. induction events as [|x es IH]; intros seen e; cbn; [done|].
  case_decide; [intros ?%IH; by right|]. intros [->|?%IH]%elem_of_cons; [by left|by right].
Qed.

Lemma fresh_unseen seen events e : e ∈ fresh seen events -> ev_ID e ∉ seen.
Proof.
  revert seen. induction events as [|x es IH]; intros seen; cbn; [by intros ?%not_elem_of_nil|].
  case_decide; [apply IH|]. intros [->|He%IH]%elem_of_cons; [done|set_solver].
Qed.

Lemma fresh_nodup seen events : NoDup (map ev_ID (fresh seen events)).
Proof.
  revert seen. induction events as [|x es IH]; intros seen; cbn; [constructor|].
  case_decide; [apply IH|]. cbn. constructor; [|apply IH].
  intros (e & He & Hin)%list_elem_of_fmap. apply fresh_unseen in Hin. set_solver.
Qed.

Lemma fresh_covers seen events e :
  e ∈ events -> ev_ID e ∈ seen \/ ev_ID e ∈ map ev_ID (fresh seen events).
Proof.
  revert seen. induction events as [|x es IH]; intros seen; cbn; [by intros ?%not_elem_of_nil|].
  intros [->|He]%elem_of_cons.
  - case_decide; [by left|right; by left].
  - case_decide; [by apply IH|]. destruct (IH ({[ev_ID x]} ∪ seen) He) as [[Hx|]%elem_of_union|Hx].
    + apply elem_of_singleton in Hx. right. rw Hx. by left.
    + by left.
    + right. by right.
Qed.

Lemma fresh_seen seen events : (forall e, e ∈ events -> ev_ID e ∈ seen) -> fresh seen events = [].
Proof.
  induction events as [|x es IH]; intros Hs; cbn; [done|].
  rw decide_True; [apply IH; intros e He; apply Hs; by right|apply Hs; by left].
Qed.

(** ** The linked events *)

Lemma link_all_ids t prev q l : map ev_ID (link_all t prev q l) = map ev_ID l.
Proof. revert prev q. induction l as [|e l IH]; intros; cbn; [done|]. f_equal. apply IH. Qed.

Lemma link_all_length t prev q l : length (link_all t prev q l) = length l.
Proof. rw -(length_map ev_ID) link_all_ids. apply length_map. Qed.

Lemma link_all_tenant t prev q l : Forall (fun e => ev_TenantID e = t) (link_all t prev q l).
Proof. revert prev q. induction l as [|e l IH]; intros; cbn; constructor; [done|apply IH]. Qed.

Lemma link_all_seq t prev q l :
  Forall (fun e => q < ev_SequenceNumber e <= q + Z.of_nat (length l)) (link_all t prev q l)
  /\ StronglySorted (key_lt ev_SequenceNumber) (link_all t prev q l).
Proof.
  revert prev q. induction l as [|e l IH]; intros prev q; cbn [link_all]; [repeat constructor|].
  destruct (IH (ev_Hash (link t prev (q + 1) e)) (q + 1)) as [H1 H2]. split.
  - constructor; cbn -[Z.of_nat]; [lia|]. eapply Forall_impl; [exact H1|]. cbn -[Z.of_nat]. lia.
  - constructor; [done|]. eapply Forall_impl; [exact H1|]. unfold key_lt. cbn -[Z.of_nat]. lia.
Qed.

Lemma link_all_linked t prev q l :
  Forall (fun e => ev_Hash e <> "") (link_all t prev q l) -> linked prev (link_all t prev q l).
Proof.
  revert prev q. induction l as [|e l IH]; intros prev q; cbn [link_all]; [done|].
  intros [Hh Hl]%Forall_cons. apply linked_cons. split_and!; [done..|by apply IH].
Qed.

(** Linking keeps the caller's content. *)
Lemma link_all_content t prev q l e' :
  e' ∈ link_all t prev q l ->
  exists e prev' q', e ∈ l /\ e' = link t prev' q' e.
Proof.
  revert prev q. induction l as [|e l IH]; intros prev q; cbn [link_all]; [by intros ?%not_elem_of_nil|].
  intros [->|Hi]%elem_of_cons; [by exists e, prev, (q + 1); split; [left|]|].
  destruct (IH _ _ Hi) as (x & p & q' & ? & ?). exists x, p, q'. split; [by right|done].
Qed.

(** * The invariant of the tables *)

Definition row_ok (e : AuditEvent) : bool :=
  forallb text_ok (row_strings e) && md_ok e && hashable e.

Definition seq_key (e : AuditEvent) : string * Z := (ev_TenantID e, ev_SequenceNumber e).

(** Unique ids, unique sequence numbers per tenant, none beyond the sequence. *)
Record db_wf (db : DB) : Prop := {
  wf_seq : 0 <= db_seq db;
  wf_ids : NoDup (map ev_ID (db_events db));
  wf_seqs : NoDup (map seq_key (db_events db));
  wf_rows : Forall (fun e => row_ok e = true /\ 0 < ev_SequenceNumber e <= db_seq db) (db_events db)
}.

Lemma text_ok_utf8 s : text_ok s = true -> utf8_valid s = true.
Proof. unfold text_ok. by intros [? _]%andb_prop. Qed.

Lemma row_strings_ok e :
  forallb text_ok (row_strings e) = true -> md_ok e = true -> event_ok e = true.
Proof.
  unfold row_strings, event_ok. rw forallb_app. intros [Hs _]%andb_prop ->.
  rw andb_true_r. apply forallb_Forall. apply forallb_Forall in Hs.
  eapply Forall_impl; [exact Hs|]. cbn. auto using text_ok_utf8.
Qed.

Lemma row_ok_event e : row_ok e = true -> event_ok e = true /\ hashable e = true.
Proof. unfold row_ok. intros [[? ?]%andb_prop ?]%andb_prop. auto using row_strings_ok. Qed.

(** Digests are storable text. *)
Lemma hash_text_ok b : text_ok (HashPrefix +:+ hex_encode (Sha256.Sum256 b)) = true.
Proof.
  assert (Hs : str_all (fun c => in_range 48 57 c || in_range 97 102 c) (hex_encode (Sha256.Sum256 b)) = true).
  { generalize (Sha256.Sum256_range b). generalize (Sha256.Sum256 b) as l.
    induction 1 as [|x l Hx Hl IH]; [done|]. cbn [hex_encode str_all]. rw IH.
    assert (Hd : forall d, 0 <= d < 16 -> (in_range 48 57 (hex_digit d) || in_range 97 102 (hex_digit d)) = true).
    { intros d Hd. unfold hex_digit, in_range. rw byte_val_chr; destruct (d <? 10) eqn:Hd'; lia. }
    assert (Hlo : 0 <= Z.land x 15 < 16).
    { change 15 with (Z.ones 4). rw Z.land_ones; [|lia]. apply Z.mod_pos_bound. lia. }
    assert (Hhi : 0 <= Z.shiftr x 4 < 16) by (rw Z.shiftr_div_pow2; [dlia|lia]).
    by rw !Hd. }
  unfold text_ok. apply andb_true_intro. split.
  - apply ascii_utf8. apply ascii_app; [done|]. eapply str_all_impl; [|exact Hs].
    intros c Hc. unfold in_range in *. lia.
  - rw str_all_app. apply andb_true_intro. split; [done|]. eapply str_all_impl; [|exact Hs].
    intros c Hc. unfold in_range in *. lia.
Qed.

Section Rows.
Context `{Hj : Jsonb, !JsonbSpec} (tenant_exists : string -> bool).
Abbreviation stored_row := (stored_row tenant_exists).
Abbreviation insert_rows := (insert_rows tenant_exists).

(** The metadata of a well-formed event survives Marshal. *)
Lemma marshal_metadata_ok e :
  md_ok e = true ->
  marshal_metadata (ev_Metadata e) = Some (match ev_Metadata e with None => JNull | Some m => JObj m end).
Proof.
  unfold md_ok, md_of, marshal_metadata. destruct (ev_Metadata e) as [m|]; [|done]. cbn [default].
  intros [Hw Hn%Z.ltb_lt]%andb_prop. unfold marshal. rw (wf_numbers_ok _ Hw). cbn [mbind option_bind].
  apply decode_render; [done|unfold id in *; lia].
Qed.

(** The stored row has the event's content, chain fields included. *)
Lemma stored_row_spec e r :
  stored_row e = Some r -> md_ok e = true ->
  row_ok r = true /\ event_ok e = true /\ event_equiv r e /\ ev_Hash r = ev_Hash e.
Proof.
  intros Hr Hmd. pose proof (marshal_metadata_ok e Hmd) as Hm. unfold AuditStore.stored_row in Hr.
  destruct (forallb text_ok (row_strings e)) eqn:Hs; [cbn [andb] in Hr|done].
  destruct (_ && _ && _ && _); [|done].
  rw Hm in Hr. cbn [mbind option_bind] in Hr. clear Hm.
  pose proof (row_strings_ok e Hs Hmd) as Hok.
  assert (Hmd2 := Hmd). unfold md_ok, md_of in Hmd2. apply andb_prop in Hmd2 as [Hw Hn%Z.ltb_lt].
  set (v := match ev_Metadata e with None => JNull | Some m => JObj m end) in Hr.
  assert (Hwv : json_wf v = true) by (unfold v; by destruct (ev_Metadata e)).
  destruct (jsonb v) as [w|] eqn:Hw'; [|done]. cbn in Hr.
  pose proof (jsonb_equiv v w Hwv Hw') as He. pose proof (jsonb_wf v w Hwv Hw') as Ww.
  pose proof (jsonb_nesting v w Hwv Hw') as Nw. pose proof (jsonb_canonable v w Hwv Hw') as Cw.
  unfold v in *. clear v.
  assert (Hsplit : forall md', r = set_Metadata md' e ->
    json_equiv (JObj (default [] md')) (JObj (default [] (ev_Metadata e))) ->
    json_wf (JObj (default [] md')) = true -> nesting (JObj (default [] md')) < maxNestingDepth ->
    canonable (JObj (default [] md')) = true ->
    row_ok r = true /\ event_ok e = true /\ event_equiv r e /\ ev_Hash r = ev_Hash e).
  { intros md' -> E1 E2 E3 E4. split_and!; [|done| |done].
    - unfold row_ok, md_ok, hashable, md_of. cbn [ev_Metadata set_Metadata].
      change (row_strings (set_Metadata md' e)) with (row_strings e). rw Hs E2 E4.
      by apply Z.ltb_lt in E3 as ->.
    - by split. }
  destruct w as [| | | | |m']; try done; injection Hr as <-.
  - apply (Hsplit None); [done| |done..]. destruct (ev_Metadata e); [inversion He|].
    by apply json_equiv_refl.
  - apply (Hsplit (Some m')); [done| |done| |done].
    + destruct (ev_Metadata e); [done|inversion He].
    + destruct (ev_Metadata e); cbn [default option_map from_option] in *; [by rw Nw|inversion He].
Qed.

Lemma stored_row_fields e r :
  stored_row e = Some r ->
  ev_ID r = ev_ID e /\ ev_TenantID r = ev_TenantID e /\ ev_SequenceNumber r = ev_SequenceNumber e
  /\ ev_PrevHash r = ev_PrevHash e /\ ev_Hash r = ev_Hash e /\ ev_Timestamp r = ev_Timestamp e
  /\ exists md, r = set_Metadata md e.
Proof.
  unfold AuditStore.stored_row. destruct (_ && _ && _ && _ && _); [|done].
  destruct (marshal_metadata _) as [v|]; [|done]. cbn. destruct (jsonb v) as [w|]; [|done]. cbn.
  destruct w; try done; intros [= <-]; split_and!; try done; by eexists.
Qed.

(** The stored row carries the digest of the event it was made from. *)
Lemma stored_row_hash e r :
  stored_row e = Some r -> md_ok e = true -> ev_Hash e = ComputeHash e -> ev_Hash e <> "" ->
  ev_Hash r = ComputeHash r.
Proof.
  intros Hr Hmd Hh Hne. destruct (stored_row_spec e r Hr Hmd) as (Hok & He & Heq & ->).
  destruct (row_ok_event r Hok) as [Hor Hhr]. rw Hh. symmetry. apply hash_respects; try done.
  rw Hh in Hne. destruct (hashable e) eqn:Hhe; [done|]. by apply ComputeHash_empty in Hhe.
Qed.

Lemma conflicts_false a rows :
  existsb (conflicts a) rows = false ->
  (ev_ID a ∉ map ev_ID rows) /\ (seq_key a ∉ map seq_key rows).
Proof.
  intros He. pose proof (fun x => existsb_false_elem (conflicts a) rows x He) as Hc. cbn beta in Hc.
  unfold conflicts in Hc. split; intros (x & Hk & Hx)%list_elem_of_fmap; specialize (Hc x Hx).
  - by rw Hk bool_decide_true in Hc.
  - unfold seq_key in Hk. injection Hk as Ht Hs.
    by rw Ht Hs Z.eqb_refl (bool_decide_eq_true_2 (ev_TenantID x = ev_TenantID x) eq_refl) orb_true_r in Hc.
Qed.

Lemma insert_rows_app rows l m :
  insert_rows rows (l ++ m) = (insert_rows rows l ≫= fun rows' => insert_rows rows' m).
Proof.
  revert rows. induction l as [|e l IH]; intros rows; [done|]. cbn [app AuditStore.insert_rows].
  destruct (insert_row tenant_exists rows e); [|done]. cbn [mbind option_bind]. apply IH.
Qed.

(** A successful insert appends the stored rows and keeps the keys unique. *)
Lemma insert_rows_spec rows l rows' :
  insert_rows rows l = Some rows' ->
  exists new, rows' = rows ++ new /\ Forall2 (fun e r => stored_row e = Some r) l new
    /\ (NoDup (map ev_ID rows) -> NoDup (map ev_ID rows'))
    /\ (NoDup (map seq_key rows) -> NoDup (map seq_key rows')).
Proof.
  revert rows. induction l as [|e l IH]; intros rows; cbn [AuditStore.insert_rows].
  { intros [= <-]. exists []. rw app_nil_r. by split_and!. }
  unfold insert_row. destruct (stored_row e) as [r|] eqn:Hr; [|done]. cbn [mbind option_bind].
  destruct (existsb (conflicts r) rows) eqn:Hc; [done|]. cbn [mbind option_bind].
  intros (new & -> & Hf & H1 & H2)%IH. apply conflicts_false in Hc as [C1 C2].
  exists (r :: new). rw -app_assoc. split_and!; [done|by constructor| |]; intros Hn;
    [rw -app_assoc in H1; apply H1|rw -app_assoc in H2; apply H2];
    rw map_app; apply NoDup_app; (split; [done|]); (split; [|apply NoDup_singleton]);
    by intros x Hx ->%list_elem_of_singleton.
Qed.

Lemma bulkInsert_spec env fuel n rows l rows' :
  (length l <= fuel)%nat ->
  bulkInsertAuditEventsTx tenant_exists env fuel n rows l = Ok rows' -> insert_rows rows l = Some rows'.
Proof.
  revert n rows l. induction fuel as [|fuel IH]; intros n rows l Hl; destruct l as [|e l]; try (cbn; naive_solver lia).
  cbn [bulkInsertAuditEventsTx]. remember (e :: l) as k eqn:Ek.
  intros (rows1 & H1 & H2)%result_bind_ok. apply IH in H2; [|rw length_skipn; subst k; cbn in *; lia].
  rw -(firstn_skipn bulkInsertChunkSize k) insert_rows_app.
  assert (insert_rows rows (firstn bulkInsertChunkSize k) = Some rows1) as ->; [|done].
  revert H1. unfold bulkInsertChunkTx. destruct (firstn _ k) as [|a l0]; [by intros [= ->]|].
  destruct (negb _); [done|]. destruct (fails _ _); [done|].
  destruct (insert_rows rows (a :: l0)); [by intros [= ->]|done].
Qed.
End Rows.

(** * A tenant's chain *)

Lemma elem_of_chain rows t e : e ∈ chain rows t <-> e ∈ rows /\ ev_TenantID e = t.
Proof. unfold chain. rw elem_of_order_by list_elem_of_filter. tauto. Qed.

Lemma sorted_le_lt {A} (key : A -> Z) l :
  StronglySorted (key_le key) l -> NoDup (map key l) -> StronglySorted (key_lt key) l.
Proof.
  induction 1 as [|x l Hl IH Hx]; cbn; intros Hn; [constructor|]. apply NoDup_cons in Hn as [Hx' Hn].
  constructor; [auto|]. apply Forall_forall. intros y Hy. rw Forall_forall in Hx. specialize (Hx y Hy).
  unfold key_le in Hx. unfold key_lt. assert (key x <> key y); [|lia].
  intros Hk. apply Hx'. rw Hk. by apply list_elem_of_fmap_2.
Qed.

Lemma tenant_seqs_nodup rows t :
  NoDup (map seq_key rows) -> NoDup (map ev_SequenceNumber (filter (fun e => ev_TenantID e = t) rows)).
Proof.
  induction rows as [|x rows IH]; cbn; intros Hn; [constructor|]. apply NoDup_cons in Hn as [Hx Hn].
  case_decide as Ht; [|auto]. cbn. constructor; [|auto].
  intros (y & Hy & [Hty Hin]%list_elem_of_filter)%list_elem_of_fmap. apply Hx.
  apply list_elem_of_fmap. exists y. split; [unfold seq_key; congruence|done].
Qed.

Lemma chain_sorted rows t :
  NoDup (map seq_key rows) -> StronglySorted (key_lt ev_SequenceNumber) (chain rows t).
Proof.
  intros Hn. apply sorted_le_lt; [apply order_by_sorted|].
  unfold chain. rw (order_by_perm ev_SequenceNumber _). by apply tenant_seqs_nodup.
Qed.

Lemma StronglySorted_app {A} (R : relation A) l m :
  StronglySorted R l -> StronglySorted R m -> (forall x y, x ∈ l -> y ∈ m -> R x y) -> StronglySorted R (l ++ m).
Proof.
  induction 1 as [|x l Hl IH Hx]; intros Hm Hc; [done|]. cbn. constructor.
  - apply IH; [done|]. intros a b Ha Hb. apply Hc; [by right|done].
  - apply Forall_app. split; [done|]. apply Forall_forall. intros y Hy. apply Hc; [by left|done].
Qed.

(** Rows appended for [t] behind its sequence numbers extend its chain ... *)
Lemma chain_app rows new t :
  NoDup (map seq_key rows) -> Forall (fun e => ev_TenantID e = t) new ->
  StronglySorted (key_lt ev_SequenceNumber) new ->
  (forall x y, x ∈ rows -> y ∈ new -> ev_SequenceNumber x < ev_SequenceNumber y) ->
  chain (rows ++ new) t = chain rows t ++ new.
Proof.
  intros Hn Ht Hs Hlt. unfold chain at 1. apply order_by_unique.
  - rw filter_app. f_equiv; [symmetry; apply order_by_perm|].
    assert (filter (fun e => ev_TenantID e = t) new = new) as ->; [|done].
    clear -Ht. induction Ht as [|x l Hx Hl IH]; [done|]. by rw filter_cons decide_True // IH.
  - apply StronglySorted_app; [by apply chain_sorted|done|].
    intros x y [Hx _]%elem_of_chain Hy. unfold key_lt. auto.
Qed.

(** ... and leave the other chains alone. *)
Lemma chain_app_other rows new t t' :
  Forall (fun e => ev_TenantID e = t) new -> t' <> t -> chain (rows ++ new) t' = chain rows t'.
Proof.
  intros Ht Hne. unfold chain. f_equal. rw filter_app.
  assert (filter (fun e => ev_TenantID e = t') new = []) as ->; [|by rw app_nil_r].
  clear -Ht Hne. induction Ht as [|x l Hx Hl IH]; [done|]. rw filter_cons decide_False; [done|congruence].
Qed.

Lemma tenant_row_last rows t :
  match last (chain rows t) with None => GenesisHash | Some e => ev_Hash e end
  = last_hash GenesisHash (chain rows t).
Proof. done. Qed.

(** ** The map of existing events *)

Lemma insert_all_lookup l m id e :
  insert_all l m !! id = Some e -> (e ∈ l /\ ev_ID e = id) \/ ((id ∉ map ev_ID l) /\ m !! id = Some e).
Proof.
  revert m. induction l as [|x l IH]; intros m; cbn; [right; split; [by intros ?%not_elem_of_nil|done]|].
  intros [[? ?]|[Hn Hm]]%IH; [left; split; [by right|done]|].
  destruct (decide (ev_ID x = id)) as [<-|Hx].
  - rw lookup_insert_eq in Hm. injection Hm as ->. left. split; [by left|done].
  - rw lookup_insert_ne in Hm; [|done]. right. split; [|done]. by intros [->|?]%elem_of_cons.
Qed.

Lemma insert_all_dom l m : dom (insert_all l m) = list_to_set (map ev_ID l) ∪ dom m.
Proof.
  revert m. induction l as [|x l IH]; intros m; cbn; [set_solver|].
  rw IH dom_insert_L. set_solver.
Qed.

(** The ids of a tenant's rows. *)
Definition tenant_ids (rows : list AuditEvent) (t : string) : gset string :=
  list_to_set (map ev_ID (filter (fun e => ev_TenantID e = t) rows)).

Lemma fresh_ext seen seen' events :
  (forall e, e ∈ events -> ev_ID e ∈ seen <-> ev_ID e ∈ seen') -> fresh seen events = fresh seen' events.
Proof.
  revert seen seen'. induction events as [|x es IH]; intros seen seen' He; cbn; [done|].
  assert (Hx := He x ltac:(by left)). do 2 case_decide; try tauto.
  - apply IH. intros e ?. apply He. by right.
  - f_equal. apply IH. intros e Hin. specialize (He e ltac:(by right)). set_solver.
Qed.

Lemma existing_dom rows t events :
  fresh (dom (existing_map (filter (fun e => ev_TenantID e = t /\ ev_ID e ∈ map ev_ID events) rows))) events
  = fresh (tenant_ids rows t) events.
Proof.
  apply fresh_ext. intros e He. unfold tenant_ids. change existing_map with (fun l => insert_all l ∅). cbn beta.
  rw insert_all_dom dom_empty_L right_id_L !elem_of_list_to_set !list_elem_of_fmap. split.
  - intros (y & -> & [[Ht Hi] Hy]%list_elem_of_filter). exists y. by rw list_elem_of_filter.
  - intros (y & Hid & [Ht Hy]%list_elem_of_filter). exists y. rw list_elem_of_filter. split_and!; try done.
    rw -Hid. by apply list_elem_of_fmap_2.
Qed.

(** * AppendBatchChained *)

Section Append.
Context `{Hj : Jsonb, !JsonbSpec} (tenant_exists : string -> bool).
Abbreviation stored_row := (stored_row tenant_exists).
Abbreviation append_tx := (append_tx tenant_exists).
Abbreviation AppendBatchChained := (AppendBatchChained tenant_exists).

(** The linked events of a batch, before they are stored. *)
Definition batch_links (db : DB) (t : string) (events : list AuditEvent) : list AuditEvent :=
  link_all t (last_hash GenesisHash (chain (db_events db) t)) (db_seq db)
    (fresh (tenant_ids (db_events db) t) events).

(** The successful transaction appends the stored links and answers in order. *)
Lemma append_tx_ok env db t events rows out q :
  append_tx env db t events = (Ok (rows, out), q) ->
  let new := batch_links db t events in
  exists stored,
    rows = db_events db ++ stored /\ Forall2 (fun e r => stored_row e = Some r) new stored
    /\ q = db_seq db + Z.of_nat (length new) /\ Forall (fun e => ev_Hash e <> "") new
    /\ (NoDup (map ev_ID (db_events db)) -> NoDup (map ev_ID rows))
    /\ (NoDup (map seq_key (db_events db)) -> NoDup (map seq_key rows))
    /\ map ev_ID out = map ev_ID events
    /\ Forall (fun e => ev_TenantID e = t) out.
Proof.
  unfold AuditStore.append_tx. destruct (fails env CallBegin); [done|]. destruct (fails env CallLock); [done|].
  unfold lastHashTx. destruct (fails env (CallRead 0)); [done|]. cbn [mbind].
  fold (last_hash GenesisHash (chain (db_events db) t)).
  destruct (loadExistingEventsTx env (db_events db) t (map ev_ID events)) as [ex|] eqn:Hex; [|done].
  assert (Hd : fresh (dom ex) events = fresh (tenant_ids (db_events db) t) events
               /\ forall id e, ex !! id = Some e -> ev_ID e = id /\ ev_TenantID e = t).
  { unfold loadExistingEventsTx in Hex. destruct events as [|e0 es]; cbn [map] in Hex.
    - injection Hex as <-. split; [done|]. intros id e. by rw lookup_empty.
    - destruct (fails env (CallRead 1)); [done|]. injection Hex as <-. split; [apply (existing_dom _ _ (e0 :: es))|].
      intros id e [[Hin ?]|[_ Hm]]%insert_all_lookup; [|by rw lookup_empty in Hm].
      apply list_elem_of_filter in Hin as [[? _] _]. done. }
  destruct Hd as [Hd Hex']. clear Hex.
  pose proof (chain_events_spec env t 0
    (MkPending (db_seq db) (last_hash GenesisHash (chain (db_events db) t)) ex []) events) as Hs.
  cbn [p_seq p_prevHash p_existing p_toInsert app] in Hs. rw Hd in Hs. fold (batch_links db t events) in Hs.
  destruct (chain_events _ _ _ _ _) as [[s|] q']; [|done]. destruct Hs as (-> & -> & Hne). cbn [p_seq p_existing p_toInsert].
  destruct (bulkInsertAuditEventsTx _ _ _ _ _ _) as [rows'|] eqn:Hb; [|done]. cbn. intros [= -> <- <-].
  apply bulkInsert_spec in Hb; [|done]. apply insert_rows_spec in Hb as (stored & -> & Hf & N1 & N2).
  exists stored. split_and!; try done.
  - rw map_map. apply map_ext_in. intros e He.
    destruct (insert_all _ ex !! ev_ID e) as [x|] eqn:Hx; [|done]. cbn.
    apply insert_all_lookup in Hx as [[_ ?]|[_ Hx]]; [done|]. by destruct (Hex' _ _ Hx).
  - apply Forall_forall. intros x (e & -> & He)%list_elem_of_fmap.
    destruct (insert_all _ ex !! ev_ID e) as [y|] eqn:Hy; [|done]. cbn.
    apply insert_all_lookup in Hy as [[Hin _]|[_ Hy]]; [|by destruct (Hex' _ _ Hy)].
    pose proof (link_all_tenant t (last_hash GenesisHash (chain (db_events db) t)) (db_seq db)
      (fresh (tenant_ids (db_events db) t) events)) as Ht. rw Forall_forall in Ht. by apply Ht.
Qed.

Lemma append_tx_seq env db t events : db_seq db <= (append_tx env db t events).2.
Proof.
  destruct (append_tx env db t events) as [[[rows out]|err] q] eqn:Htx.
  - apply append_tx_ok in Htx as (stored & _ & _ & -> & _). cbn. lia.
  - revert Htx. unfold AuditStore.append_tx. destruct (fails _ _); [by intros [= _ <-]|].
    destruct (fails _ _); [by intros [= _ <-]|]. destruct (lastHashTx _ _ _); [|by intros [= _ <-]].
    destruct (loadExistingEventsTx _ _ _ _) as [ex|]; [|by intros [= _ <-]].
    pose proof (chain_events_spec env t 0 (MkPending (db_seq db) a ex []) events) as Hs. cbn [p_seq] in Hs.
    destruct (chain_events _ _ _ _ _) as [[s|] q']; [|by intros [= _ <-]].
    destruct Hs as (-> & -> & _). destruct (bulkInsertAuditEventsTx _ _ _ _ _ _); cbn; intros [= _ <-]; lia.
Qed.

(** The rows a batch leaves: the old ones and, if it took effect, its stored links. *)
Lemma append_effect env db t events :
  let '(r, db') := AppendBatchChained env db t events in
  db_seq db <= db_seq db' /\
  ((db_events db' = db_events db /\ (is_ok r = true -> events = []))
   \/ exists out, append_tx env db t events = (Ok (db_events db', out), db_seq db') /\ (r = Ok out \/ is_ok r = false)).
Proof.
  unfold AuditStore.AppendBatchChained. destruct events as [|e es]; [by split; [lia|left]|].
  pose proof (append_tx_seq env db t (e :: es)) as Hq.
  destruct (append_tx env db t (e :: es)) as [[[rows out]|err] q]; cbn in Hq; [|by split; [|left]].
  unfold commit. destruct (fails env CallCommit); [destruct (commit_lost env)|]; cbn; (split; [done|]).
  - right. exists out. split; [done|by right].
  - by left.
  - right. exists out. split; [done|by left].
Qed.

(** Storing linked events gives linked rows with the same keys. *)
Lemma store_links t lo hi p l stored :
  Forall (fun e => lo < ev_SequenceNumber e <= hi) l ->
  StronglySorted (key_lt ev_SequenceNumber) l -> linked p l ->
  Forall (fun e => ev_TenantID e = t) l -> Forall (fun e => md_ok e = true) l ->
  Forall2 (fun e r => stored_row e = Some r) l stored ->
  Forall (fun r => row_ok r = true /\ ev_TenantID r = t /\ lo < ev_SequenceNumber r <= hi) stored
  /\ StronglySorted (key_lt ev_SequenceNumber) stored
  /\ linked p stored /\ map ev_ID stored = map ev_ID l.
Proof.
  intros Hseq Hsort Hl Ht Hlm Hf. revert p Hl.
  induction Hf as [|e r l stored Hr Hf IH]; intros p0 Hl; [by repeat constructor|].
  apply Forall_cons in Hseq as [? ?], Ht as [? ?], Hlm as [Hm ?]. apply StronglySorted_inv in Hsort as [? Hlt].
  apply linked_cons in Hl as (Hp & Hh & Hn & Hl).
  destruct (stored_row_fields _ e r Hr) as (E1 & E2 & E3 & E4 & E5 & E6 & _).
  destruct (stored_row_spec _ e r Hr Hm) as (Hok & _).
  destruct (IH ltac:(done) ltac:(done) ltac:(done) ltac:(done) (ev_Hash e) Hl) as (I1 & I2 & I3 & I4).
  split_and!.
  - constructor; [|done]. rw E2 E3. done.
  - constructor; [done|]. clear -Hf Hlt E3. unfold key_lt in *. rw E3.
    induction Hf as [|a b l m Hab Hf IHf]; constructor; apply Forall_cons in Hlt as [Ha Hlt]; [|by apply IHf].
    destruct (stored_row_fields _ a b Hab) as (_ & _ & -> & _). done.
  - apply linked_cons. split_and!; [congruence|by eapply stored_row_hash|congruence|congruence].
  - cbn. by rw E1 I4.
Qed.

(** The stored links of a batch, against a well-formed database. *)
Lemma batch_stored db t events stored :
  Forall (fun e => md_ok e = true) events ->
  Forall2 (fun e r => stored_row e = Some r) (batch_links db t events) stored ->
  Forall (fun e => ev_Hash e <> "") (batch_links db t events) ->
  Forall (fun r => row_ok r = true /\ ev_TenantID r = t
    /\ db_seq db < ev_SequenceNumber r <= db_seq db + Z.of_nat (length stored)) stored
  /\ StronglySorted (key_lt ev_SequenceNumber) stored
  /\ linked (last_hash GenesisHash (chain (db_events db) t)) stored
  /\ map ev_ID stored = map ev_ID (fresh (tenant_ids (db_events db) t) events).
Proof.
  intros Hmd Hf Hne. unfold batch_links in *.
  set (prev := last_hash GenesisHash (chain (db_events db) t)) in *.
  set (fr := fresh (tenant_ids (db_events db) t) events) in *.
  destruct (link_all_seq t prev (db_seq db) fr) as [Hseq Hsort].
  rw -(link_all_ids t prev (db_seq db) fr).
  rw -(link_all_length t prev (db_seq db) fr) (Forall2_length _ _ _ Hf) in Hseq.
  eapply store_links; [done|done|by apply link_all_linked|apply link_all_tenant| |done].
  apply Forall_forall. intros x (e & p & q & He & ->)%link_all_content. rw Forall_forall in Hmd.
  apply fresh_subset in He. by apply Hmd in He.
Qed.

(** ** The invariant *)

(** Every outcome keeps the tables well formed, extends the tenant's chain by
    linked rows, and leaves the other chains alone. *)
Lemma append_preserves env db t events :
  db_wf db -> Forall (fun e => md_ok e = true) events ->
  let db' := (AppendBatchChained env db t events).2 in
  db_wf db'
  /\ (exists stored, db_events db' = db_events db ++ stored
       /\ chain (db_events db') t = chain (db_events db) t ++ stored
       /\ linked (last_hash GenesisHash (chain (db_events db) t)) stored
       /\ Forall (fun r => r ∈ db_events db' /\ ev_TenantID r = t /\ row_ok r = true) stored)
  /\ (forall t', t' <> t -> chain (db_events db') t' = chain (db_events db) t').
Proof.
  intros Hwf Hmd. pose proof (append_effect env db t events) as He.
  destruct (AppendBatchChained env db t events) as [r db']. cbn. destruct He as (Hq & [[He _]|(out & Htx & _)]).
  - split_and!; [|exists []; rw !app_nil_r He; by split_and!|by rw He].
    destruct Hwf as [W0 W1 W2 W3]. split; rw ?He; [lia|done..|].
    eapply Forall_impl; [exact W3|]. cbn. intros e [? ?]. split; [done|lia].
  - apply append_tx_ok in Htx as (stored & Hrows & Hf & Hseq & Hne & N1 & N2 & _).
    pose proof (Forall2_length _ _ _ Hf) as Hlen.
    destruct (batch_stored db t events stored Hmd Hf Hne) as (B1 & B2 & B3 & B4).
    destruct Hwf as [W0 W1 W2 W3].
    assert (Ht : Forall (fun e => ev_TenantID e = t) stored).
    { eapply Forall_impl; [exact B1|]. cbn. by intros ? (_ & ? & _). }
    split_and!.
    + split; [lia|auto|auto|]. rw Hrows. apply Forall_app. split.
      * eapply Forall_impl; [exact W3|]. cbn. intros e [? ?]. split; [done|lia].
      * eapply Forall_impl; [exact B1|]. cbn. intros e (? & _ & ?). split; [done|].
        lia.
    + exists stored. split_and!; [done| |done|].
      * rw Hrows. apply chain_app; try done. intros x y Hx Hy.
        rw Forall_forall in W3. destruct (W3 x Hx). rw Forall_forall in B1. destruct (B1 y Hy) as (_ & _ & ?). lia.
      * apply Forall_forall. intros x Hx. rw Forall_forall in B1. destruct (B1 x Hx) as (? & ? & _).
        rw Hrows. split; [|done]. apply elem_of_app. by right.
    + intros t' Hne'. rw Hrows. by apply chain_app_other with t.
Qed.
(** ** Exactly once *)

Lemma elem_of_tenant_ids rows t id :
  id ∈ tenant_ids rows t <-> exists r, r ∈ rows /\ ev_TenantID r = t /\ ev_ID r = id.
Proof.
  unfold tenant_ids. rw elem_of_list_to_set list_elem_of_fmap. split.
  - intros (r & -> & [? ?]%list_elem_of_filter). by exists r.
  - intros (r & ? & ? & <-). exists r. by rw list_elem_of_filter.
Qed.

(** After an answered batch, every id of it belongs to a row of the tenant. *)
Lemma append_present env db t events out db' :
  AppendBatchChained env db t events = (Ok out, db') ->
  map ev_ID out = map ev_ID events
  /\ forall e, e ∈ events -> ev_ID e ∈ tenant_ids (db_events db') t.
Proof.
  intros Ha. pose proof (append_effect env db t events) as He. rw Ha in He.
  destruct He as (_ & [[_ Hnil]|(out' & Htx & [[= <-]|?])]); [|clear Ha|done].
  { rw (Hnil eq_refl) in Ha |- *. injection Ha as <- _. split; [done|by intros e ?%not_elem_of_nil]. }
  apply append_tx_ok in Htx as (stored & Hrows & Hf & _ & _ & _ & _ & Hids & _). split; [done|].
  intros e He. apply elem_of_tenant_ids.
  destruct (fresh_covers (tenant_ids (db_events db) t) events e He) as [Hin|Hin].
  - apply elem_of_tenant_ids in Hin as (r & ? & ? & ?). exists r. rw Hrows. split; [|done].
    apply elem_of_app. by left.
  - unfold batch_links in Hf. rw -(link_all_ids t (last_hash GenesisHash (chain (db_events db) t)) (db_seq db)) in Hin.
    apply list_elem_of_fmap in Hin as (x & Hx & Hin).
    pose proof (link_all_tenant t (last_hash GenesisHash (chain (db_events db) t)) (db_seq db)
      (fresh (tenant_ids (db_events db) t) events)) as Ht. rw Forall_forall in Ht. specialize (Ht _ Hin).
    apply list_elem_of_lookup in Hin as [i Hi]. destruct (Forall2_lookup_l _ _ _ _ _ Hf Hi) as (r & Hr & Hs).
    destruct (stored_row_fields _ x r Hs) as (E1 & E2 & _). exists r. rw Hrows elem_of_app.
    split_and!; [right; by eapply list_elem_of_lookup_2|congruence..].
Qed.

(** A batch whose ids are all present changes no row. *)
Lemma append_noop env db t events :
  (forall e, e ∈ events -> ev_ID e ∈ tenant_ids (db_events db) t) ->
  db_events (AppendBatchChained env db t events).2 = db_events db.
Proof.
  intros Hp. pose proof (append_effect env db t events) as He.
  destruct (AppendBatchChained env db t events) as [r db']. cbn. destruct He as (_ & [[? _]|(out & Htx & _)]); [done|].
  apply append_tx_ok in Htx as (stored & -> & Hf & _). unfold batch_links in Hf. rw fresh_seen in Hf; [|done].
  cbn in Hf. apply Forall2_nil_inv_l in Hf as ->. by rw app_nil_r.
Qed.

(** A batch tried once per environment. *)
Definition attempts (envs : list Env) (db : DB) (t : string) (events : list AuditEvent) : DB :=
  fold_left (fun db env => (AppendBatchChained env db t events).2) envs db.

Lemma attempts_wf envs db t events :
  db_wf db -> Forall (fun e => md_ok e = true) events -> db_wf (attempts envs db t events).
Proof.
  intros Hwf Hmd. revert db Hwf. induction envs as [|env envs IH]; intros db Hwf; [done|]. cbn.
  apply IH. by apply append_preserves.
Qed.

Lemma unique_row db r id :
  db_wf db -> r ∈ db_events db -> ev_ID r = id -> filter (fun x => ev_ID x = id) (db_events db) = [r].
Proof.
  intros [_ Hn _ _] Hr <-. revert Hn Hr. generalize (db_events db) as l.
  induction l as [|x l IH]; [by intros _ ?%not_elem_of_nil|]. cbn [map]. intros [Hx Hn]%NoDup_cons.
  intros [->|Hr]%elem_of_cons; rw filter_cons.
  - rw decide_True; [|done]. f_equal.
    assert (H' : forall y, y ∈ l -> ev_ID y <> ev_ID x).
    { intros y Hy He. apply Hx. rw -He. by apply list_elem_of_fmap_2. }
    clear -H'. induction l as [|y l IH]; [done|]. rw filter_cons decide_False; [|apply H'; by left].
    apply IH. intros z Hz. apply H'. by right.
  - rw decide_False; [by apply IH|]. intros He. apply Hx. rw He. by apply list_elem_of_fmap_2.
Qed.
(** ** Success *)

(** An event the tables accept in some chain. *)
Definition acceptable (e : AuditEvent) : bool :=
  forallb text_ok [ev_ID e; actor_ID (ev_Actor e); actor_Type (ev_Actor e); actor_Email (ev_Actor e);
    ev_Action e; resource_ID (ev_Resource e); resource_Type (ev_Resource e); resource_Name (ev_Resource e);
    ev_Outcome e]
  && pg_time_ok (Truncate Microsecond (ev_Timestamp e))
  && ActorType_IsValid (actor_Type (ev_Actor e)) && Outcome_IsValid (ev_Outcome e)
  && md_ok e && hashable e
  && match ev_Metadata e with
     | None => match jsonb JNull with Some JNull => true | _ => false end
     | Some m => match jsonb (JObj m) with Some (JObj _) => true | _ => false end
     end.

(** Linking an acceptable event gives a hash and a storable row. *)
Lemma link_acceptable t p q e :
  acceptable e = true -> text_ok t = true -> text_ok p = true -> tenant_exists t = true ->
  text_ok (ev_Hash (link t p q e)) = true /\ ev_Hash (link t p q e) <> ""
  /\ exists r, stored_row (link t p q e) = Some r.
Proof.
  unfold acceptable. intros [[[[[[Hs Ht]%andb_prop Ha]%andb_prop Ho]%andb_prop Hm]%andb_prop Hh]%andb_prop Hj']%andb_prop.
  intros Htt Hp Hex. set (e1 := set_SequenceNumber q (set_Timestamp (Truncate Microsecond (ev_Timestamp e)) (set_TenantID t e))).
  change (link t p q e) with (set_Hash (ComputeHash (set_PrevHash p e1)) (set_PrevHash p e1)).
  assert (Hev : event_ok (set_PrevHash p e1) = true).
  { unfold event_ok. apply andb_true_intro. split; [|exact Hm]. apply forallb_Forall in Hs. rw !Forall_cons in Hs.
    destruct Hs as (?&?&?&?&?&?&?&?&?&_). apply forallb_Forall.
    repeat constructor; cbn; by apply text_ok_utf8. }
  assert (Hc : ComputeHash (set_PrevHash p e1)
               = HashPrefix +:+ hex_encode (Sha256.Sum256 (hash_text (set_PrevHash p e1)))).
  { rw (ComputeHash_eq _ Hev). change (hashable (set_PrevHash p e1)) with (hashable e). by rw Hh. }
  assert (Hok : text_ok (ComputeHash (set_PrevHash p e1)) = true) by (rw Hc; apply hash_text_ok).
  split_and!; [done|cbn [set_Hash set_chain ev_Hash]; by rw Hc|].
  unfold AuditStore.stored_row.
  assert (Hrs : forallb text_ok (row_strings (set_Hash (ComputeHash (set_PrevHash p e1)) (set_PrevHash p e1))) = true).
  { apply forallb_Forall in Hs. rw !Forall_cons in Hs. destruct Hs as (?&?&?&?&?&?&?&?&?&_). apply forallb_Forall.
    repeat constructor; done. }
  rw Hrs. cbn [ev_Timestamp ev_TenantID ev_Actor ev_Outcome ev_Metadata set_Hash set_PrevHash set_chain e1
    set_SequenceNumber set_Timestamp set_TenantID]. rw Ht Hex Ha Ho. cbn [andb].
  rw (marshal_metadata_ok e Hm). cbn [mbind option_bind].
  destruct (ev_Metadata e) as [m|];
    [destruct (jsonb (JObj m)) as [w|]|destruct (jsonb JNull) as [w|]]; try done; destruct w; try done; by eexists.
Qed.
Lemma link_all_acceptable t p q l :
  Forall (fun e => acceptable e = true) l -> text_ok t = true -> text_ok p = true -> tenant_exists t = true ->
  Forall (fun e => ev_Hash e <> "" /\ exists r, stored_row e = Some r) (link_all t p q l).
Proof.
  intros Hl Ht Hp Hex. revert p q Hp. induction Hl as [|e l He Hl IH]; intros p q Hp; cbn [link_all]; constructor.
  - by destruct (link_acceptable t p (q + 1) e He Ht Hp Hex) as (_ & ? & ?).
  - apply IH. by destruct (link_acceptable t p (q + 1) e He Ht Hp Hex).
Qed.

Lemma chain_events_succeeds t n s events :
  Forall (fun e => ev_Hash e <> "") (link_all t (p_prevHash s) (p_seq s) (fresh (dom (p_existing s)) events)) ->
  p_seq s + Z.of_nat (length (fresh (dom (p_existing s)) events)) <= int64_max ->
  exists s', chain_events healthy t n s events = (Ok s', p_seq s').
Proof.
  revert n s. induction events as [|e es IH]; intros n s; cbn [chain_events fresh]; [by eexists|].
  destruct (p_existing s !! ev_ID e) as [x|] eqn:Hx.
  { rw decide_True; [|by apply elem_of_dom_2 in Hx]. apply IH. }
  rw decide_False; [|by apply not_elem_of_dom]. cbn [link_all length]. intros [Hh Hl]%Forall_cons Hq.
  unfold nextval. cbn [fails healthy orb].
  assert ((int64_max <=? p_seq s) = false) as -> by lia. rw bool_decide_false; [|done].
  apply IH; cbn [p_seq p_prevHash p_existing]; rw dom_insert_L; [done|].
  change (ev_ID (link t (p_prevHash s) (p_seq s + 1) e)) with (ev_ID e). lia.
Qed.

Lemma insert_rows_succeeds rows l :
  Forall (fun e => exists r, stored_row e = Some r) l ->
  NoDup (map ev_ID rows ++ map ev_ID l) -> NoDup (map seq_key rows ++ map seq_key l) ->
  exists rows', insert_rows tenant_exists rows l = Some rows'.
Proof.
  revert rows. induction l as [|e l IH]; intros rows; [by eexists|]. intros [(r & Hr) Hl]%Forall_cons H1 H2.
  destruct (stored_row_fields _ e r Hr) as (E1 & E2 & E3 & _).
  cbn [AuditStore.insert_rows]. unfold insert_row. rw Hr. cbn [mbind option_bind].
  assert (Hc : existsb (conflicts r) rows = false).
  { apply not_true_is_false. intros (x & Hx%list_elem_of_In & Hc)%existsb_exists.
    apply NoDup_app in H1 as (_ & D1 & _), H2 as (_ & D2 & _).
    unfold conflicts in Hc. apply orb_prop in Hc as [Hc%bool_decide_eq_true|[Ht%bool_decide_eq_true Hs%Z.eqb_eq]%andb_prop].
    - apply (D1 (ev_ID x)); [by apply list_elem_of_fmap_2|]. rw -Hc E1. by left.
    - apply (D2 (seq_key x)); [by apply list_elem_of_fmap_2|]. unfold seq_key. rw -Ht -Hs E2 E3. by left. }
  rw Hc. apply IH; [done| |]; rw map_app -app_assoc; cbn [map app]; unfold seq_key in *; by rw ?E1 ?E2 ?E3.
Qed.

Lemma bulkInsert_succeeds fuel n rows l rows' :
  (length l <= fuel)%nat -> Forall (fun e => md_ok e = true) l -> insert_rows tenant_exists rows l = Some rows' ->
  bulkInsertAuditEventsTx tenant_exists healthy fuel n rows l = Ok rows'.
Proof.
  revert n rows l. induction fuel as [|fuel IH]; intros n rows l Hl Hm; destruct l as [|e l]; try (cbn; intros; congruence || (cbn in *; lia)).
  cbn [bulkInsertAuditEventsTx]. remember (e :: l) as k eqn:Ek. intros Hi.
  rw -(firstn_skipn bulkInsertChunkSize k) in Hi. rw insert_rows_app in Hi.
  destruct (insert_rows tenant_exists rows (firstn bulkInsertChunkSize k)) as [rows1|] eqn:H1; [|done]. cbn in Hi.
  rw -(firstn_skipn bulkInsertChunkSize k) Forall_app in Hm. destruct Hm as [Hm1 Hm2].
  assert (Hc : bulkInsertChunkTx tenant_exists healthy n rows (firstn bulkInsertChunkSize k) = Ok rows1).
  { unfold bulkInsertChunkTx. destruct (firstn _ k) as [|a m] eqn:Ef; [cbn in H1; congruence|].
    rw -Ef in H1 Hm1 |- *. cbn [fails healthy]. rw H1.
    assert (forallb (fun e => match marshal_metadata (ev_Metadata e) with Some _ => true | None => false end)
              (firstn bulkInsertChunkSize k) = true) as ->; [|done].
    apply forallb_Forall. eapply Forall_impl; [exact Hm1|]. cbn. intros x Hx. by rw (marshal_metadata_ok x Hx). }
  rw Hc. cbn. apply IH; [rw length_skipn; subst k; cbn in *; lia|done|done].
Qed.

Lemma acceptable_md e : acceptable e = true -> md_ok e = true.
Proof. unfold acceptable. by intros [[[_ ?]%andb_prop _]%andb_prop _]%andb_prop. Qed.

Lemma last_hash_text rows t :
  Forall (fun e => row_ok e = true) rows -> text_ok (last_hash GenesisHash (chain rows t)) = true.
Proof.
  intros Hr. unfold last_hash. destruct (last (chain rows t)) as [e|] eqn:Hl; [|done].
  apply last_Some_elem_of, elem_of_chain in Hl as [He _]. rw Forall_forall in Hr. specialize (Hr e He).
  unfold row_ok in Hr. apply andb_prop in Hr as [[Hr _]%andb_prop _].
  unfold row_strings in Hr. rw forallb_app in Hr. apply andb_prop in Hr as [_ Hr]. cbn in Hr. by rw andb_true_r in Hr.
Qed.

(** A healthy database accepts acceptable events of an existing tenant. *)
Lemma append_succeeds db t events :
  db_wf db -> tenant_exists t = true -> text_ok t = true ->
  Forall (fun e => acceptable e = true) events ->
  (forall r e, r ∈ db_events db -> e ∈ events -> ev_ID r = ev_ID e -> ev_TenantID r = t) ->
  db_seq db + Z.of_nat (length events) <= int64_max ->
  exists out db', AppendBatchChained healthy db t events = (Ok out, db').
Proof.
  intros Hwf Hex Ht Hacc Hown Hq. unfold AuditStore.AppendBatchChained. destruct events as [|e0 es] eqn:Hev; [by do 2 eexists|].
  rw -Hev in Hacc Hown Hq |- *. unfold AuditStore.append_tx. cbn [fails healthy]. unfold lastHashTx. cbn [fails healthy].
  fold (last_hash GenesisHash (chain (db_events db) t)).
  set (prev := last_hash GenesisHash (chain (db_events db) t)).
  assert (Hld : loadExistingEventsTx healthy (db_events db) t (map ev_ID events)
    = Ok (existing_map (filter (fun e => ev_TenantID e = t /\ ev_ID e ∈ map ev_ID events) (db_events db)))).
  { rw Hev. done. }
  rw Hld. set (ex := existing_map _). pose proof (existing_dom (db_events db) t events) as Hd. fold ex in Hd.
  destruct Hwf as [W0 W1 W2 W3].
  assert (Hprev : text_ok prev = true).
  { apply last_hash_text. eapply Forall_impl; [exact W3|]. by intros ? []. }
  assert (Hfr : Forall (fun e => acceptable e = true) (fresh (tenant_ids (db_events db) t) events)).
  { apply Forall_forall. intros x Hx%fresh_subset. rw Forall_forall in Hacc. auto. }
  pose proof (link_all_acceptable t prev (db_seq db) _ Hfr Ht Hprev Hex) as Hla.
  assert (Hlen : (length (fresh (tenant_ids (db_events db) t) events) <= length events)%nat).
  { clear. generalize (tenant_ids (db_events db) t) as seen. induction events as [|x l IH]; intros seen; cbn; [lia|].
    case_decide; cbn; [specialize (IH seen)|specialize (IH ({[ev_ID x]} ∪ seen))]; lia. }
  destruct (chain_events_succeeds t 0 (MkPending (db_seq db) prev ex []) events) as [s' Hs'].
  { cbn [p_seq p_prevHash p_existing]. rw Hd. eapply Forall_impl; [exact Hla|]. by intros ? []. }
  { cbn [p_seq p_existing]. rw Hd. lia. }
  pose proof (chain_events_spec healthy t 0 (MkPending (db_seq db) prev ex []) events) as Hsp. rw Hs' in Hsp |- *.
  cbn [p_seq p_prevHash p_existing p_toInsert app] in Hsp. rw Hd in Hsp.
  destruct Hsp as (-> & _ & _). cbn [p_toInsert p_seq p_existing].
  set (new := link_all t prev (db_seq db) (fresh (tenant_ids (db_events db) t) events)) in *.
  destruct (link_all_seq t prev (db_seq db) (fresh (tenant_ids (db_events db) t) events)) as [Hseq Hsort]. fold new in Hseq, Hsort.
  destruct (insert_rows_succeeds (db_events db) new) as [rows' Hrows].
  - eapply Forall_impl; [exact Hla|]. by intros ? [].
  - unfold new. rw link_all_ids. apply NoDup_app. split_and!; [done| |apply fresh_nodup].
    intros id (r & -> & Hr)%list_elem_of_fmap (e & He & Hin)%list_elem_of_fmap.
    apply (fresh_unseen _ _ _ Hin). rw -He. apply elem_of_tenant_ids. exists r. split_and!; [done| |done].
    apply (Hown r e); [done|by eapply fresh_subset|done].
  - apply NoDup_app. split_and!; [done| |].
    + intros k (r & -> & Hr)%list_elem_of_fmap (e & He & Hin)%list_elem_of_fmap. unfold seq_key in He. injection He as _ He.
      rw Forall_forall in W3. destruct (W3 _ Hr) as [_ ?]. rw Forall_forall in Hseq. specialize (Hseq _ Hin). lia.
    + clear -Hsort. induction Hsort as [|x l Hl IH Hx]; cbn; constructor; [|done].
      intros (y & Hy & Hin)%list_elem_of_fmap. rw Forall_forall in Hx. specialize (Hx _ Hin). unfold key_lt in Hx.
      unfold seq_key in Hy. injection Hy as _ Hy. lia.
  - rw (bulkInsert_succeeds (length new) 0 _ new rows'); [by do 2 eexists|done| |done].
    apply Forall_forall. intros x (e & p & q & He & ->)%link_all_content. rw Forall_forall in Hfr. by apply (acceptable_md e), Hfr.
Qed.
End Append.
