(* ===== verification/AuditWalk.v ===== *)
(** Reading and re-anchoring the chain: Walk covers a window exactly once and in
    order, whatever the paging; ReanchorFrom is refused wherever it would rewrite a row. *)
From S2P Require Import Prelude Errors GoTime Sha256 Json JsonFacts Canonical CanonicalFacts AuditModel AuditHash Postgres AuditStore AuditStoreFacts.
Import GoTime.
Local Open Scope Z_scope.

(** * Walk *)

(** The rows of a window, in chain order. *)
Definition window (rows : list AuditEvent) (t : string) (from to : Time) : list AuditEvent :=
  filter (in_window from to) (chain rows t).

Section Walk.
Context {S : Type} (fn : S -> AuditEvent -> res S).

(** The callback over a whole list: the reference for the paged walk. *)
Fixpoint visit (count : nat) (s : S) (l : list AuditEvent) : nat * res S :=
  match l with
  | [] => (count, Ok s)
  | e :: l => match fn s e with Err err => (count, Err err) | Ok s' => visit (count + 1) s' l end
  end.

Lemma visit_app count s l m :
  visit count s (l ++ m) =
    match visit count s l with (c, Ok s') => visit c s' m | (c, Err err) => (c, Err err) end.
Proof. revert count s. induction l as [|e l IH]; intros count s; [done|]. cbn. destruct (fn s e); [apply IH|done]. Qed.

Lemma walk_page_visit w page :
  match walk_page fn w page with
  | (Ok w', _) => visit (w_count w) (w_state w) page = (w_count w', Ok (w_state w'))
      /\ w_lastSeq w' = match last page with Some e => ev_SequenceNumber e | None => w_lastSeq w end
  | (Err err, w') => visit (w_count w) (w_state w) page = (w_count w', Err err)
  end.
Proof.
  revert w. induction page as [|e page IH]; intros w; [done|]. cbn [walk_page visit].
  destruct (fn (w_state w) e) as [s'|err]; [|done].
  specialize (IH (MkWalk (ev_SequenceNumber e) (w_count w + 1) s')). cbn [w_count w_state w_lastSeq] in IH.
  destruct (walk_page fn _ page) as [[w'|err] w'']; [|done]. destruct IH as [IH1 ->]. split; [done|].
  rw last_cons. by destruct (last page).
Qed.

Lemma filter_split {A} (P : A -> Prop) `{!forall x, Decision (P x)} l m :
  (forall x, x ∈ l -> ~ P x) -> (forall x, x ∈ m -> P x) -> filter P (l ++ m) = m.
Proof.
  intros Hl Hm. rw filter_app. assert (filter P l = []) as ->.
  { induction l as [|x l IH]; [done|]. rw filter_cons decide_False; [apply IH; intros y Hy; apply Hl; by right|].
    apply Hl. by left. }
  cbn. clear Hl. induction m as [|x m IH]; [done|]. rw filter_cons decide_True; [|apply Hm; by left].
  f_equal. apply IH. intros y Hy. apply Hm. by right.
Qed.

Lemma page_rows_eq rows t from to lastSeq :
  page_rows rows t from to lastSeq
  = firstn pageSize (filter (fun e => lastSeq < ev_SequenceNumber e) (window rows t from to)).
Proof.
  unfold page_rows, window. f_equal. generalize (chain rows t) as l. induction l as [|e l IH]; [done|].
  rw !filter_cons. destruct (decide (in_window from to e)) as [Hw|Hw].
  - rw (filter_cons _ e). do 2 case_decide; try tauto; by rw IH.
  - case_decide; [tauto|done].
Qed.

(** The window is read page by page to its end. *)
Lemma walk_pages_spec env fuel n rows t from to w before rest :
  window rows t from to = before ++ rest ->
  StronglySorted (key_lt ev_SequenceNumber) (window rows t from to) ->
  (forall e, e ∈ before -> ev_SequenceNumber e <= w_lastSeq w) ->
  (forall e, e ∈ rest -> w_lastSeq w < ev_SequenceNumber e) ->
  (length rest < fuel)%nat ->
  exists r, walk_pages fn env fuel n rows t from to w = Some r
    /\ ((forall k, fails env (CallRead k) = false) \/ is_ok r.2 = true -> r = visit (w_count w) (w_state w) rest).
Proof.
  intros Hwin Hsort. revert n w before rest Hwin. induction fuel as [|fuel IH]; intros n w before rest Hwin Hb Hr Hf; [lia|].
  cbn [walk_pages]. destruct (fails env (CallRead n)) eqn:Hfail.
  { eexists. split; [done|]. intros [Hk|Hk]; [by rw Hk in Hfail|done]. }
  rw page_rows_eq Hwin filter_split; [|intros e He; specialize (Hb e He); lia|done].
  pose proof (walk_page_visit w (firstn pageSize rest)) as Hp.
  destruct (walk_page fn w (firstn pageSize rest)) as [[w'|err] w''].
  - destruct Hp as [Hv Hlast]. destruct (length (firstn pageSize rest) <? pageSize)%nat eqn:Hlen.
    + eexists. split; [done|]. intros _. apply Nat.ltb_lt in Hlen. rw length_firstn in Hlen.
      rw firstn_all2 in Hv; [|lia]. by rw Hv.
    + apply Nat.ltb_ge in Hlen. rw length_firstn in Hlen.
      assert (Hpg : (pageSize = 1000)%nat) by done.
      assert (exists x, last (firstn pageSize rest) = Some x) as (x & Hx).
      { destruct (last (firstn pageSize rest)) as [x|] eqn:Hx; [by exists x|].
        apply last_None, (f_equal length) in Hx. rw length_firstn in Hx. change (length []) with 0%nat in Hx. lia. }
      destruct (IH (n + 1)%nat w' (before ++ firstn pageSize rest) (skipn pageSize rest)) as (r & -> & Hrr).
      * by rw -app_assoc firstn_skipn.
      * rw Hlast Hx. apply last_Some in Hx as (m & Hm).
        intros e [He|He]%elem_of_app.
        -- specialize (Hb e He). assert (Hxr : x ∈ rest).
           { rw -(firstn_skipn pageSize rest) Hm. set_solver. }
           specialize (Hr x Hxr). lia.
        -- rw Hm in He. apply elem_of_app in He as [He|He]; [|apply list_elem_of_singleton in He as ->; lia].
           rw Hwin -(firstn_skipn pageSize rest) Hm in Hsort.
           apply StronglySorted_app_1_r, StronglySorted_app_1_l in Hsort.
           pose proof (StronglySorted_app_1_elem_of _ _ _ e x Hsort He ltac:(by left)) as Hlt.
           unfold key_lt in Hlt. lia.
      * rw Hlast Hx. intros e He. rw Hwin -(firstn_skipn pageSize rest) in Hsort.
        apply StronglySorted_app_1_r in Hsort.
        apply (StronglySorted_app_1_elem_of _ _ _ x e Hsort); [by apply last_Some_elem_of|done].
      * rw length_skipn. lia.
      * exists r. split; [done|]. intros Hk. rw (Hrr Hk).
        rw -{2}(firstn_skipn pageSize rest) visit_app Hv. done.
  - eexists. split; [done|]. intros _. rw -(firstn_skipn pageSize rest) visit_app Hp. done.
Qed.

(** Walk terminates, and visits the window once, in order. *)
Lemma Walk_visit env db t from to s :
  db_wf db ->
  exists r, Walk fn env db t from to s = Some r
    /\ ((forall k, fails env (CallRead k) = false) \/ is_ok r.2 = true ->
        r = visit 0 s (window (db_events db) t from to)).
Proof.
  intros [_ _ W2 W3]. unfold Walk.
  apply (walk_pages_spec env _ 0 _ t from to (MkWalk (-1) 0 s) []).
  - done.
  - apply StronglySorted_filter, chain_sorted, W2.
  - by intros e ?%not_elem_of_nil.
  - intros e [_ [He _]%elem_of_chain]%list_elem_of_filter. cbn. rw Forall_forall in W3. destruct (W3 e He) as [_ ?]. lia.
  - unfold window. assert (H1 := length_filter (in_window from to) (chain (db_events db) t)).
    unfold chain in H1 |- *. rw (Permutation_length (order_by_perm ev_SequenceNumber _)) in H1.
    assert (H2 := length_filter (fun e => ev_TenantID e = t) (db_events db)). lia.
Qed.
End Walk.

(** * ReanchorFrom *)

Lemma with_prev_ok e p :
  row_ok e = true -> text_ok p = true ->
  event_ok (set_PrevHash p e) = true /\ hashable (set_PrevHash p e) = true
  /\ row_ok (set_Hash (ComputeHash (set_PrevHash p e)) (set_PrevHash p e)) = true
  /\ ComputeHash (set_PrevHash p e) <> "" /\ text_ok (ComputeHash (set_PrevHash p e)) = true.
Proof.
  intros Hr Hp. assert (Hr' := Hr). unfold row_ok in Hr. apply andb_prop in Hr as [[Hs Hm]%andb_prop Hh].
  unfold row_strings, event_strings in Hs. apply forallb_Forall in Hs. cbn [app] in Hs. rw !Forall_cons in Hs.
  destruct Hs as (?&?&?&?&?&?&?&?&?&?&?&?&_).
  assert (Hev : event_ok (set_PrevHash p e) = true).
  { unfold event_ok. apply andb_true_intro. split; [|exact Hm]. apply forallb_Forall.
    repeat constructor; by apply text_ok_utf8. }
  assert (Hc : ComputeHash (set_PrevHash p e)
               = HashPrefix +:+ hex_encode (Sha256.Sum256 (hash_text (set_PrevHash p e)))).
  { rw (ComputeHash_eq _ Hev). change (hashable (set_PrevHash p e)) with (hashable e). by rw Hh. }
  assert (Ht : text_ok (ComputeHash (set_PrevHash p e)) = true) by (rw Hc; apply hash_text_ok).
  split_and!; [done|done| |by rw Hc|done].
  unfold row_ok. apply andb_true_intro. split; [|exact Hh]. apply andb_true_intro. split; [|exact Hm].
  apply forallb_Forall. by repeat constructor.
Qed.

(** ReanchorFrom changes nothing, and succeeds only when there is no row to rewrite. *)
Lemma ReanchorFrom_refused env db t q p :
  let '(r, db') := ReanchorFrom env db t q p in
  db' = db /\ (is_ok r = true -> filter (fun e => q <= ev_SequenceNumber e) (chain (db_events db) t) = []).
Proof.
  unfold ReanchorFrom. destruct (fails env CallBegin); [done|]. destruct (fails env CallLock); [done|].
  destruct (fails env CallSet); [done|]. destruct (fails env (CallRead 0)); [done|].
  destruct (filter _ _) as [|e l] eqn:Hf; cbn [reanchor_patches apply_patches]; [by destruct (fails env CallCommit)|].
  assert (Hin : e ∈ filter (fun e => q <= ev_SequenceNumber e) (chain (db_events db) t)) by (rw Hf; by left).
  apply list_elem_of_filter in Hin as [_ [He Ht]%elem_of_chain].
  assert (Hu : forall h, update_hash (db_events db) t (set_Hash h (set_PrevHash p e)) = None).
  { intros h. unfold update_hash. rw (proj2 (existsb_exists _ _)); [done|]. exists e. split; [by apply list_elem_of_In|].
    rw bool_decide_eq_true_2; [|done]. apply Z.eqb_refl. }
  rw Hu. by destruct (fails env (CallWrite 0)).
Qed.

