(* ===== verification/AuditServiceFacts.v ===== *)
(** The audit service against the contract of its repository.

    [RepositorySpec] states what the storage promises: an abstract chain per
    tenant, reads that answer from it and appends that extend it by linked rows.
    The theorems on Verify, Log and ReanchorChain use nothing else. *)
From S2P Require Import Prelude Errors GoTime Sha256 Json JsonFacts Canonical CanonicalFacts AuditModel AuditHash Redaction AuditService Postgres AuditStore AuditStoreFacts AuditWalk.
Import GoTime.
Local Open Scope Z_scope.

(** The row before [e] in a chain. *)
Definition prev_row (l : list AuditEvent) (e : AuditEvent) : option AuditEvent :=
  last (filter (fun r => ev_SequenceNumber r < ev_SequenceNumber e) l).
Definition prev_hash (l : list AuditEvent) (e : AuditEvent) : string :=
  match prev_row l e with Some p => ev_Hash p | None => GenesisHash end.

(** * The contract *)

Class RepositorySpec (St : Type) `{Repository St} := {
  inv : St -> Prop;
  chain_of : St -> string -> list AuditEvent;
  (** the environment serves every read *)
  reads_ok : Prop;
  chain_spec st t : inv st ->
    StronglySorted (key_lt ev_SequenceNumber) (chain_of st t) /\ NoDup (map ev_ID (chain_of st t))
    /\ Forall (fun e => row_ok e = true) (chain_of st t);
  walk_spec S st t from to fn s : inv st ->
    exists r, r_Walk S st t from to fn s = Some r
      /\ (reads_ok \/ is_ok r.2 = true -> r = visit fn 0 s (filter (in_window from to) (chain_of st t)));
  get_spec st t id e : inv st -> r_Get st t id = Ok e -> e ∈ chain_of st t /\ ev_ID e = id;
  get_found st t e : inv st -> reads_ok -> e ∈ chain_of st t -> r_Get st t (ev_ID e) = Ok e;
  previous_spec st t e p : inv st -> e ∈ chain_of st t ->
    r_Previous st t (ev_ID e) = Ok p -> p = prev_row (chain_of st t) e;
  previous_found st t e : inv st -> reads_ok -> e ∈ chain_of st t ->
    r_Previous st t (ev_ID e) = Ok (prev_row (chain_of st t) e);
  append_spec st t events : inv st -> Forall (fun e => md_ok e = true) events ->
    let '(r, st') := r_AppendBatchChained st t events in
    inv st' /\ (forall t', t' <> t -> chain_of st' t' = chain_of st t')
    /\ (exists new, chain_of st' t = chain_of st t ++ new /\ linked (last_hash GenesisHash (chain_of st t)) new)
    /\ (forall out, r = Ok out -> map ev_ID out = map ev_ID events
        /\ forall e, e ∈ events -> ev_ID e ∈ map ev_ID (chain_of st' t));
  append_one st t e : r_AppendChained st t e =
    match r_AppendBatchChained st t [e] with
    | (Err err, st') => (Err err, st')
    | (Ok [], st') => (Err (Internal "append returned no events"), st')
    | (Ok (x :: _), st') => (Ok x, st')
    end;
  reanchor_spec st t q p : inv st ->
    let '(r, st') := r_ReanchorFrom st t q p in
    inv st' /\ (forall t', chain_of st' t' = chain_of st t')
    /\ (is_ok r = true -> filter (fun e => q <= ev_SequenceNumber e) (chain_of st t) = [])
}.

(** * Chains and their links *)

Definition ok_at (l : list AuditEvent) (e : AuditEvent) : bool :=
  bool_decide (ev_PrevHash e = prev_hash l e) && bool_decide (ComputeHash e = ev_Hash e).

(** The rows before [e], by sequence number. *)
Lemma filter_before l1 e l2 :
  StronglySorted (key_lt ev_SequenceNumber) (l1 ++ e :: l2) ->
  filter (fun r => ev_SequenceNumber r < ev_SequenceNumber e) (l1 ++ e :: l2) = l1.
Proof.
  intros Hs. rw filter_app filter_cons decide_False; [|lia].
  assert (filter (fun r => ev_SequenceNumber r < ev_SequenceNumber e) l2 = []) as ->.
  { apply StronglySorted_app_1_r, StronglySorted_inv in Hs as [_ He]. rw Forall_forall in He.
    clear -He. induction l2 as [|x l IH]; [done|]. rw filter_cons decide_False; [apply IH; intros y Hy; apply He; by right|].
    specialize (He x ltac:(by left)). unfold key_lt in He. lia. }
  rw app_nil_r. assert (Hl : forall x, x ∈ l1 -> ev_SequenceNumber x < ev_SequenceNumber e).
  { intros x Hx. apply (StronglySorted_app_1_elem_of _ _ _ x e Hs Hx). by left. }
  clear Hs. induction l1 as [|x l1 IH]; [done|]. rw filter_cons decide_True; [|apply Hl; by left].
  f_equal. apply IH. intros y Hy. apply Hl. by right.
Qed.

Lemma prev_row_split l1 e l2 :
  StronglySorted (key_lt ev_SequenceNumber) (l1 ++ e :: l2) -> prev_row (l1 ++ e :: l2) e = last l1.
Proof. intros Hs. unfold prev_row. by rw filter_before. Qed.

Lemma row_hash_nonempty e : row_ok e = true -> ComputeHash e <> "".
Proof. intros [Ho Hh]%row_ok_event. by rw (ComputeHash_empty e Ho) Hh. Qed.

(** Every row checks exactly when the chain is linked from the genesis. *)
Lemma all_ok_linked l :
  StronglySorted (key_lt ev_SequenceNumber) l -> Forall (fun e => row_ok e = true) l ->
  Forall (fun e => ok_at l e = true) l <-> linked GenesisHash l.
Proof.
  intros Hs Hr.
  assert (H : forall l1 l2, l = l1 ++ l2 ->
    Forall (fun e => ok_at l e = true) l2 <-> linked (last_hash GenesisHash l1) l2).
  { intros l1 l2. revert l1. induction l2 as [|e l2 IH]; intros l1 Hl; [done|].
    rw Forall_cons linked_cons (IH (l1 ++ [e])); [|by rw -app_assoc].
    assert (last_hash GenesisHash (l1 ++ [e]) = ev_Hash e) as -> by (unfold last_hash; by rw last_snoc).
    assert (Hp : prev_hash l e = last_hash GenesisHash l1).
    { unfold prev_hash. rw {1}Hl prev_row_split; [done|by rw -Hl]. }
    unfold ok_at. rw andb_true_iff !bool_decide_eq_true Hp.
    assert (He : ComputeHash e <> "").
    { apply row_hash_nonempty. rw Forall_forall in Hr. apply Hr. rw Hl. set_solver. }
    split; [intros [[? ?] ?]|intros (? & ? & ? & ?)]; split_and!; congruence. }
  apply (H [] l eq_refl).
Qed.

(** Rows after [e] do not change its predecessor. *)
Lemma prev_hash_app l1 l2 e :
  StronglySorted (key_lt ev_SequenceNumber) (l1 ++ l2) -> e ∈ l1 -> prev_hash (l1 ++ l2) e = prev_hash l1 e.
Proof.
  intros Hs He. unfold prev_hash, prev_row. rw filter_app.
  assert (filter (fun r => ev_SequenceNumber r < ev_SequenceNumber e) l2 = []) as ->; [|by rw app_nil_r].
  assert (Hl : forall x, x ∈ l2 -> ev_SequenceNumber e < ev_SequenceNumber x).
  { intros x Hx. apply (StronglySorted_app_1_elem_of _ _ _ e x Hs He Hx). }
  clear -Hl. induction l2 as [|x l IH]; [done|]. rw filter_cons decide_False; [apply IH; intros y Hy; apply Hl; by right|].
  specialize (Hl x ltac:(by left)). lia.
Qed.

Lemma prefix_ok_linked l1 l2 :
  StronglySorted (key_lt ev_SequenceNumber) (l1 ++ l2) -> Forall (fun e => row_ok e = true) l1 ->
  Forall (fun e => ok_at (l1 ++ l2) e = true) l1 -> linked GenesisHash l1.
Proof.
  intros Hs Hr Hok. apply all_ok_linked; [by eapply StronglySorted_app_1_l|done|].
  rw Forall_forall in Hok. apply Forall_forall. intros e He. specialize (Hok e He).
  unfold ok_at in *. by rw prev_hash_app in Hok.
Qed.

(** The stored hash of an honest chain binds the whole history. *)
Lemma linked_last_genesis l : linked GenesisHash l -> Forall (fun e => event_wf e = true) l ->
  last_hash GenesisHash l = GenesisHash -> l = [].
Proof.
  induction l as [|e l _] using rev_ind; [done|]. intros [_ Hl]%linked_app Hw Hg.
  apply linked_cons in Hl as (_ & Hh & Hne & _). unfold last_hash in Hg. rw last_snoc in Hg.
  rw Forall_app Forall_singleton in Hw. destruct Hw as [_ Hw].
  rw (ComputeHash_eq e (event_wf_ok e Hw)) in Hh. rw Hh in Hg Hne. destruct (hashable e); [|done].
  rw Hg in Hh. exfalso. unfold GenesisHash, HashPrefix in Hg. done.
Qed.

Lemma chain_binds l m :
  linked GenesisHash l -> linked GenesisHash m ->
  Forall (fun e => event_wf e = true) l -> Forall (fun e => event_wf e = true) m ->
  last_hash GenesisHash l = last_hash GenesisHash m ->
  Forall2 event_equiv l m \/ exists e f, e ∈ l /\ f ∈ m /\ collide e f.
Proof.
  revert m. induction l as [|e l IH] using rev_ind; intros m Hl Hm Wl Wm Hh.
  - symmetry in Hh. apply linked_last_genesis in Hh as ->; [by left|done..].
  - destruct m as [|f m _] using rev_ind.
    { apply linked_last_genesis in Hh; [|done..]. by destruct l. }
    apply linked_app in Hl as [Hl (Pe & He & Ne & _)%linked_cons], Hm as [Hm (Pf & Hf & Nf & _)%linked_cons].
    unfold last_hash in Hh. rw !last_snoc in Hh.
    rw Forall_app Forall_singleton in Wl. rw Forall_app Forall_singleton in Wm. destruct Wl as [Wl We], Wm as [Wm Wf].
    destruct (hash_binds e f) as [Hef|Hc]; [done|done|congruence|congruence| |right; exists e, f; set_solver].
    destruct (IH m) as [Hlm|(x & y & Hx & Hy & Hc)]; [done..| | |right; exists x, y; set_solver].
    + rw -Pe -Pf. apply (ee_Prev _ _ Hef).
    + left. apply Forall2_app; [done|by constructor].
Qed.

(** * Visiting with a pure step *)

Lemma visit_pure {S} (fn : S -> AuditEvent -> res S) (g : S -> AuditEvent -> S) n s l c s' :
  (forall s e s', e ∈ l -> fn s e = Ok s' -> s' = g s e) ->
  visit fn n s l = (c, Ok s') -> c = (n + length l)%nat /\ s' = fold_left g l s.
Proof.
  revert n s. induction l as [|e l IH]; intros n s Hg; cbn [visit fold_left length].
  { intros [= <- <-]. split; [lia|done]. }
  destruct (fn s e) as [s1|] eqn:Hf; [|done]. apply Hg in Hf as ->; [|by left].
  intros [-> ->]%IH; [split; [lia|done]|]. intros s2 x s3 Hx. apply Hg. by right.
Qed.

Lemma visit_total {S} (fn : S -> AuditEvent -> res S) (g : S -> AuditEvent -> S) n s l :
  (forall s e, e ∈ l -> fn s e = Ok (g s e)) ->
  visit fn n s l = ((n + length l)%nat, Ok (fold_left g l s)).
Proof.
  revert n s. induction l as [|e l IH]; intros n s Hg; cbn [visit fold_left length].
  { do 2 f_equal. lia. }
  rw Hg; [|by left]. rw IH; [f_equal; lia|]. intros s2 x Hx. apply Hg. by right.
Qed.

(** The verification steps against the abstract chain. *)
Definition reason_at (l : list AuditEvent) (e : AuditEvent) : string :=
  if bool_decide (ev_PrevHash e = prev_hash l e) then "hash mismatch" else "prev_hash mismatch".
Definition verify_pure (l : list AuditEvent) (r : VerifyResult) (e : AuditEvent) : VerifyResult :=
  if negb (vr_Valid r) then r
  else if ok_at l e then vr_root (ev_Hash e) r else vr_break (ev_ID e) (reason_at l e) r.

Definition broken_at (l : list AuditEvent) (e : AuditEvent) : BrokenEvent :=
  MkBroken (ev_ID e) (ev_SequenceNumber e) (ev_Timestamp e) (ev_Action e) (actor_ID (ev_Actor e))
    (if bool_decide (ComputeHash e = ev_Hash e) then "prev_hash mismatch" else "hash mismatch").
Definition deep_pure (l : list AuditEvent) (r : VerifyResult) (e : AuditEvent) : VerifyResult :=
  if ok_at l e then vr_root (ev_Hash e) r else vr_add (broken_at l e) r.

Lemma verify_fold_broken l W r : vr_Valid r = false -> fold_left (verify_pure l) W r = r.
Proof.
  intros Hr. induction W as [|e W IH]; [done|]. cbn. unfold verify_pure at 2. rw Hr. done.
Qed.

(** The first bad row of a window stops the plain verification. *)
Lemma verify_fold l W r :
  vr_Valid r = true ->
  let r' := fold_left (verify_pure l) W r in
  (Forall (fun e => ok_at l e = true) W /\ vr_Valid r' = true
     /\ vr_RootHash r' = last_hash (vr_RootHash r) W /\ vr_FirstBrokenEventID r' = vr_FirstBrokenEventID r)
  \/ (exists W1 b W2, W = W1 ++ b :: W2 /\ Forall (fun e => ok_at l e = true) W1 /\ ok_at l b = false
     /\ vr_Valid r' = false /\ vr_FirstBrokenEventID r' = ev_ID b /\ vr_Reason r' = reason_at l b
     /\ vr_RootHash r' = last_hash (vr_RootHash r) W1).
Proof.
  revert r. induction W as [|e W IH]; intros r Hr; cbn [fold_left]; [left; by split_and!|].
  unfold verify_pure at 2 4 6 8 10 12 14. rw Hr. cbn [negb]. destruct (ok_at l e) eqn:He.
  - destruct (IH (vr_root (ev_Hash e) r) Hr) as [(H1 & H2 & H3 & H4)|(W1 & b & W2 & -> & H2 & H3 & H4 & H5 & H6 & H7)].
    + left. rw last_hash_cons. split_and!; [by constructor|done..].
    + right. exists (e :: W1), b, W2. rw last_hash_cons. split_and!; [done|by constructor|done..].
  - right. exists [], e, W. rw verify_fold_broken; [|done]. by split_and!.
Qed.

Lemma deep_fold l W r :
  let r' := fold_left (deep_pure l) W r in
  vr_Valid r' = vr_Valid r && forallb (ok_at l) W
  /\ vr_AllBrokenEvents r' = vr_AllBrokenEvents r ++ map (broken_at l) (filter (fun e => ok_at l e = false) W)
  /\ vr_FirstBrokenEventID r' = vr_FirstBrokenEventID r.
Proof.
  revert r. induction W as [|e W IH]; intros r; cbn [fold_left forallb].
  - by rw andb_true_r app_nil_r.
  - destruct (IH (deep_pure l r e)) as (-> & -> & ->). rw filter_cons. unfold deep_pure.
    destruct (ok_at l e) eqn:He; cbn [vr_Valid vr_root vr_add vr_AllBrokenEvents vr_FirstBrokenEventID].
    + by case_decide.
    + case_decide; [|done]. cbn. by rw andb_false_r -app_assoc.
Qed.

Lemma filter_ok_nil l W : Forall (fun e => ok_at l e = true) W -> filter (fun e => ok_at l e = false) W = [].
Proof. induction 1 as [|e W He HW IH]; [done|]. rw filter_cons. case_decide; [congruence|done]. Qed.

Section Facts.
Context {St : Type} `{RepositorySpec St}.

(** The rows a verification looks at. *)
Definition scanned (st : St) (t : string) (from to : Time) : list AuditEvent :=
  filter (in_window (open_from from) (open_to to)) (chain_of st t).

Lemma scanned_in st t from to e : e ∈ scanned st t from to -> e ∈ chain_of st t.
Proof. by intros [_ ?]%list_elem_of_filter. Qed.

Lemma Previous_hash_spec st t e h :
  inv st -> e ∈ chain_of st t -> Previous_hash st t (ev_ID e) = Ok h -> h = prev_hash (chain_of st t) e.
Proof.
  intros Hi He (p & Hp & [= <-])%result_bind_ok. by rw (previous_spec st t e p Hi He Hp).
Qed.
Lemma Previous_hash_found st t e :
  inv st -> reads_ok -> e ∈ chain_of st t -> Previous_hash st t (ev_ID e) = Ok (prev_hash (chain_of st t) e).
Proof. intros Hi Hr He. unfold Previous_hash. by rw (previous_found st t e Hi Hr He). Qed.

Lemma verify_step_pure st t r e r' :
  inv st -> e ∈ chain_of st t -> verify_step st t r e = Ok r' -> r' = verify_pure (chain_of st t) r e.
Proof.
  intros Hi He. unfold verify_step, verify_pure. destruct (negb (vr_Valid r)); [by intros [= ->]|].
  intros (h & ->%Previous_hash_spec & [= <-])%result_bind_ok; [|done..].
  unfold ok_at, reason_at. do 2 case_bool_decide; done.
Qed.
Lemma verify_step_total st t r e :
  inv st -> reads_ok -> e ∈ chain_of st t -> verify_step st t r e = Ok (verify_pure (chain_of st t) r e).
Proof.
  intros Hi Hr He. unfold verify_step. rw (Previous_hash_found st t e Hi Hr He). cbn [mbind result_bind].
  unfold verify_pure, ok_at, reason_at. destruct (negb (vr_Valid r)); [done|]. do 2 case_bool_decide; done.
Qed.
Lemma deep_step_pure st t r e r' :
  inv st -> e ∈ chain_of st t -> deep_step st t r e = Ok r' -> r' = deep_pure (chain_of st t) r e.
Proof.
  intros Hi He. unfold deep_step, deep_pure. intros (h & ->%Previous_hash_spec & [= <-])%result_bind_ok; [|done..].
  unfold ok_at, broken_at. do 2 case_bool_decide; done.
Qed.
Lemma deep_step_total st t r e :
  inv st -> reads_ok -> e ∈ chain_of st t -> deep_step st t r e = Ok (deep_pure (chain_of st t) r e).
Proof.
  intros Hi Hr He. unfold deep_step. rw (Previous_hash_found st t e Hi Hr He). cbn [mbind result_bind].
  unfold deep_pure, ok_at, broken_at. do 2 case_bool_decide; done.
Qed.

(** ** Verify *)

Lemma Verify_eq st t from to r :
  inv st -> Verify st t from to = Some (Ok r) ->
  r = vr_checked (length (scanned st t from to))
        (fold_left (verify_pure (chain_of st t)) (scanned st t from to) (vr_new t (open_from from) (open_to to))).
Proof.
  intros Hi. unfold Verify.
  destruct (walk_spec VerifyResult st t (open_from from) (open_to to) (verify_step st t)
    (vr_new t (open_from from) (open_to to)) Hi) as ([c [r0|]] & -> & Hv); [|done].
  specialize (Hv (or_intror eq_refl)). symmetry in Hv.
  eapply (visit_pure _ (verify_pure (chain_of st t))) in Hv as [-> ->]; [by intros [= <-]|].
  intros s e s' He%(scanned_in st t from to). by apply verify_step_pure.
Qed.

Lemma Verify_answers st t from to :
  inv st -> Verify st t from to <> None /\ (reads_ok -> exists r, Verify st t from to = Some (Ok r)).
Proof.
  intros Hi. unfold Verify.
  destruct (walk_spec VerifyResult st t (open_from from) (open_to to) (verify_step st t)
    (vr_new t (open_from from) (open_to to)) Hi) as ([c r0] & -> & Hv). split; [by destruct r0|].
  intros Hr. specialize (Hv (or_introl Hr)).
  rw (visit_total _ (verify_pure (chain_of st t))) in Hv; [injection Hv as -> ->; by eexists|].
  intros s e He%(scanned_in st t from to). by apply verify_step_total.
Qed.

Lemma VerifyDeep_eq st t from to r :
  inv st -> VerifyDeep st t from to = Some (Ok r) ->
  r = vr_finish_deep (vr_checked (length (scanned st t from to))
        (fold_left (deep_pure (chain_of st t)) (scanned st t from to) (vr_new t (open_from from) (open_to to)))).
Proof.
  intros Hi. unfold VerifyDeep.
  destruct (walk_spec VerifyResult st t (open_from from) (open_to to) (deep_step st t)
    (vr_new t (open_from from) (open_to to)) Hi) as ([c [r0|]] & -> & Hv); [|done].
  specialize (Hv (or_intror eq_refl)). symmetry in Hv.
  eapply (visit_pure _ (deep_pure (chain_of st t))) in Hv as [-> ->]; [by intros [= <-]|].
  intros s e s' He%(scanned_in st t from to). by apply deep_step_pure.
Qed.

Lemma VerifyDeep_answers st t from to :
  inv st -> reads_ok -> exists r, VerifyDeep st t from to = Some (Ok r).
Proof.
  intros Hi Hr. unfold VerifyDeep.
  destruct (walk_spec VerifyResult st t (open_from from) (open_to to) (deep_step st t)
    (vr_new t (open_from from) (open_to to)) Hi) as ([c r0] & -> & Hv). specialize (Hv (or_introl Hr)).
  rw (visit_total _ (deep_pure (chain_of st t))) in Hv; [injection Hv as -> ->; by eexists|].
  intros s e He%(scanned_in st t from to). by apply deep_step_total.
Qed.

(** The whole history: every row carries a supported timestamp, in whole microseconds as a column holds it. *)
Definition in_history (st : St) (t : string) : Prop :=
  Forall (fun e => event_wf e = true /\ pg_ts (ev_Timestamp e) = ev_Timestamp e) (chain_of st t).

Lemma in_history_wf st t : in_history st t -> Forall (fun e => event_wf e = true) (chain_of st t).
Proof. unfold in_history. intros Hl. apply (Forall_impl _ _ _ Hl). by intros e [? _]. Qed.

Lemma scanned_all st t : in_history st t -> scanned st t zeroTime zeroTime = chain_of st t.
Proof.
  unfold in_history, scanned. change (open_from zeroTime) with historyStart. change (open_to zeroTime) with farFuture.
  induction 1 as [|e l [He Hu] Hl IH]; [done|]. rw filter_cons decide_True; [by rw IH|].
  unfold event_wf in He. apply andb_prop in He as [[_ H1%Z.leb_le]%andb_prop H2%Z.leb_le].
  unfold in_window. rw -Hu. split; by apply Truncate_micro_mono.
Qed.
End Facts.
