(* ===== verification/AuditIngest.v ===== *)
(** What ingest and re-anchoring do to a tenant's chain: Log, LogBatch and
    CommitBatch extend a linked chain by linked rows whatever the outcome, and
    ReanchorChain is refused. *)
From S2P Require Import Prelude Errors GoTime Sha256 Json JsonFacts Canonical CanonicalFacts AuditModel AuditHash Redaction AuditService Postgres AuditStore AuditStoreFacts AuditWalk AuditServiceFacts.
Import GoTime.
Local Open Scope Z_scope.

(** * Normalised events keep decodable metadata *)

Lemma obj_set_keys k v l x : x ∈ map fst (obj_set k v l) <-> x = k \/ x ∈ map fst l.
Proof.
  induction l as [|[k' v'] l IH]; cbn [obj_set map fst].
  - rw elem_of_cons. naive_solver.
  - case_decide as Hk; cbn [map fst]; rw !elem_of_cons; [naive_solver|]. rw IH. naive_solver.
Qed.

Lemma obj_set_wf k v l :
  json_wf (JObj l) = true -> utf8_valid k = true -> json_wf v = true -> json_wf (JObj (obj_set k v l)) = true.
Proof.
  cbn [json_wf]. intros [Hw Hn%bool_decide_eq_true]%andb_prop Hk Hv. apply andb_true_intro. split.
  - clear Hn. induction l as [|[k' v'] l IH]; cbn [obj_set forallb] in *; [by rw Hk Hv|].
    apply andb_prop in Hw as [H1 H2]. case_decide; cbn [forallb fst snd] in *; [by rw Hk Hv H2|]. by rw H1 IH.
  - apply bool_decide_eq_true. clear Hw. induction l as [|[k' v'] l IH]; cbn [obj_set].
    + apply NoDup_singleton.
    + cbn [map fst] in Hn. apply NoDup_cons in Hn as [Hx Hn]. case_decide as Hkk; cbn [map fst]; constructor; auto.
      * by subst.
      * rw obj_set_keys. intros [->|?]; done.
Qed.

Lemma obj_set_nesting k v l : nesting (JObj (obj_set k v l)) <= Z.max (nesting (JObj l)) (1 + nesting v).
Proof.
  cbn [nesting]. induction l as [|[k' v'] l IH]; cbn [obj_set foldr snd]; [lia|]. case_decide; cbn [foldr snd]; lia.
Qed.

Section Normalise.
Variable redactOn : bool.
Variable now : nat -> Time.
Variable NewEventID : nat -> string.

Lemma applyDefaults_md i e : md_ok e = true -> md_ok (applyDefaults now NewEventID i e) = true.
Proof.
  intros He. unfold applyDefaults. destruct e as [id tn ts ac at_ rs oc md ph h sq]. cbn [ev_ID].
  destruct (bool_decide (id = "")); cbn; destruct (IsZero ts); cbn; destruct md; done.
Qed.

Lemma applyRedaction_md e : md_ok e = true -> md_ok (applyRedaction redactOn e) = true.
Proof.
  intros He. unfold applyRedaction. destruct (negb redactOn); [done|].
  destruct (ev_Metadata e) as [m|] eqn:Hm; [|done]. unfold md_ok, md_of in He. rw Hm in He. cbn [default from_option] in He.
  unfold id in He. apply andb_prop in He as [Hw Hn%Z.ltb_lt].
  pose proof (redactValue_facts (JObj m)) as (F1 & F2 & _). rw redactValue_obj in F1 F2. cbn [fst] in F1, F2.
  specialize (F1 Hw). destruct (RedactJSONMap m) as [m' c]. cbn [fst] in *.
  assert (Hr : json_wf (JObj (obj_set "redacted" (JBool true) m')) = true) by (by apply obj_set_wf).
  pose proof (obj_set_nesting "redacted" (JBool true) m') as Hs.
  destruct c; unfold md_ok, md_of; cbn [ev_Metadata set_Metadata default from_option]; unfold id;
    apply andb_true_intro; split; try done; apply Z.ltb_lt; [|lia].
  change (nesting (JBool true)) with 0 in Hs. unfold maxNestingDepth in *. lia.
Qed.

Lemma prepare_events_md i inp :
  Forall (fun o => forall e, o = Some e -> md_ok e = true) inp ->
  Forall (fun e => md_ok e = true) (prepare_events redactOn now NewEventID i inp).2.
Proof.
  intros Hi. revert i. induction Hi as [|o inp Ho Hi IH]; intros i; [constructor|]. cbn [prepare_events].
  specialize (IH (S i)). destruct (prepare_events redactOn now NewEventID (S i) inp) as [r valid].
  destruct (Validate o) as [u|err]; [|done]. destruct o as [e|]; [|done]. cbn in *. constructor; [|done].
  by apply applyRedaction_md, applyDefaults_md, Ho.
Qed.

(** Every input is counted once, as accepted or as an error with its index. *)
Lemma prepare_events_counts i inp :
  let '(r, valid) := prepare_events redactOn now NewEventID i inp in
  (length valid + br_Rejected r = length inp)%nat
  /\ length (br_Errors r) = br_Rejected r /\ br_IDs r = [] /\ br_Accepted r = 0%nat
  /\ map bt_Index (br_Errors r)
     = map fst (filter (fun p => is_ok (Validate p.2) = false) (zip (seq i (length inp)) inp)).
Proof.
  revert i. induction inp as [|o inp IH]; intros i; [by split_and!|]. cbn [prepare_events].
  specialize (IH (S i)). destruct (prepare_events redactOn now NewEventID (S i) inp) as [r valid].
  destruct IH as (H1 & H2 & H3 & H4 & H5). cbn [length seq zip zip_with]. rw filter_cons. cbn [fst snd].
  destruct o as [e|]; [destruct (Validate (Some e)) as [u|err]|]; cbn [br_Rejected br_Errors br_IDs br_Accepted length map bt_Index is_ok].
  - split_and!; [lia|done..|]. by case_decide.
  - split_and!; [lia|congruence|done..|]. case_decide; [|done]. cbn. by rw H5.
  - cbn [Validate is_ok br_Rejected br_Errors br_IDs br_Accepted length map bt_Index].
    split_and!; [lia|congruence|done..|]. case_decide; [|done]. cbn. by rw H5.
Qed.

(** A batch with nothing to write has only invalid events. *)
Lemma prepare_events_none i inp :
  (prepare_events redactOn now NewEventID i inp).2 = [] -> Forall (fun o => is_ok (Validate o) = false) inp.
Proof.
  revert i. induction inp as [|o inp IH]; intros i; [constructor|]. cbn [prepare_events]. specialize (IH (S i)).
  destruct (prepare_events redactOn now NewEventID (S i) inp) as [r valid].
  destruct o as [e|]; [destruct (Validate (Some e)) as [u|err] eqn:E; cbn; [done|]|cbn]; intros ->; (constructor; [by rw ?E|by apply IH]).
Qed.

Lemma prepareBatch_none t inp r :
  prepareBatch redactOn now NewEventID t inp = Ok (r, []) -> Forall (fun o => is_ok (Validate o) = false) inp.
Proof.
  unfold prepareBatch. case_bool_decide; [done|]. destruct inp as [|o inp]; [constructor|].
  destruct (MaxBatchSize <? _)%nat; [done|].
  set (p := prepare_events _ _ _ 0 _). assert (Hp : p = prepare_events redactOn now NewEventID 0 (o :: inp)) by done. clearbody p.
  intros [= ->]. apply (prepare_events_none 0). by rw -Hp.
Qed.
End Normalise.

(** * Ingest through the contract *)

Section Ingest.
Context {St : Type} `{RepositorySpec St}.
Variable redactOn : bool.
Variable now : nat -> Time.
Variable NewEventID : nat -> string.

(** A step that only extends the chain of [t] by linked rows. *)
Definition extends (st st' : St) (t : string) : Prop :=
  inv st' /\ (forall t', t' <> t -> chain_of st' t' = chain_of st t')
  /\ exists new, chain_of st' t = chain_of st t ++ new /\ linked (last_hash GenesisHash (chain_of st t)) new.

Lemma extends_refl st t : inv st -> extends st st t.
Proof. intros Hi. split_and!; [done|done|]. exists []. by rw app_nil_r. Qed.

Lemma extends_linked st st' t t' :
  extends st st' t -> linked GenesisHash (chain_of st t') -> linked GenesisHash (chain_of st' t').
Proof.
  intros (_ & Ho & new & Hc & Hl) Hg. destruct (decide (t' = t)) as [->|Hne]; [|by rw Ho].
  rw Hc. by apply linked_app.
Qed.

Lemma CommitBatch_extends st t events :
  inv st -> Forall (fun e => md_ok e = true) events ->
  extends st (CommitBatch st t events).2 t
  /\ forall out, (CommitBatch st t events).1 = Ok out ->
       map ev_ID out = map ev_ID events
       /\ forall e, e ∈ events -> ev_ID e ∈ map ev_ID (chain_of (CommitBatch st t events).2 t).
Proof.
  intros Hi Hm. unfold CommitBatch. destruct events as [|e es].
  - split; [by apply extends_refl|]. intros out [= <-]. split; [done|by intros e ?%not_elem_of_nil].
  - pose proof (append_spec st t (e :: es) Hi Hm) as Ha. destruct (r_AppendBatchChained st t (e :: es)) as [r st'].
    destruct Ha as (H1 & H2 & H3 & H4). done.
Qed.

Lemma append_one_extends st t e :
  inv st -> md_ok e = true ->
  extends st (r_AppendChained st t e).2 t
  /\ forall out, (r_AppendChained st t e).1 = Ok out ->
       ev_ID out = ev_ID e /\ ev_ID e ∈ map ev_ID (chain_of (r_AppendChained st t e).2 t).
Proof.
  intros Hi Hm. rw append_one. pose proof (append_spec st t [e] Hi ltac:(by constructor)) as Ha.
  destruct (r_AppendBatchChained st t [e]) as [[out|err] st'];
    [destruct out as [|x out]|]; destruct Ha as (H1 & H2 & H3 & H4); cbn; (split; [done|]); try done.
  intros o [= <-]. destruct (H4 _ eq_refl) as [Hids Hin]. cbn in Hids. injection Hids as -> _.
  split; [done|]. apply Hin. by left.
Qed.

Lemma Log_extends st sb t inp :
  inv st -> (forall e, inp = Some e -> md_ok e = true) ->
  let '(r, st', sb') := Log redactOn now NewEventID st sb t inp in
  extends st st' t
  /\ match r with
     | Ok out => ev_ID out ∈ map ev_ID (chain_of st' t) /\ sb' = fanout out sb
     | Err _ => sb' = sb
     end
  /\ (is_ok (Validate inp) = false \/ t = "" -> st' = st).
Proof.
  intros Hi Hm. unfold Log. case_bool_decide as Ht.
  { split_and!; [by apply extends_refl|done..]. }
  destruct (Validate inp) as [u|err].
  2:{ split_and!; [by apply extends_refl|done..]. }
  destruct inp as [e|]; [|split_and!; [by apply extends_refl|done|by intros [|]]].
  set (e' := applyRedaction redactOn (applyDefaults now NewEventID 0 e)).
  assert (Hm' : md_ok e' = true) by (apply applyRedaction_md, applyDefaults_md; auto).
  destruct (append_one_extends st t e' Hi Hm') as [He Ho].
  destruct (r_AppendChained st t e') as [[out|err] st']; cbn in He, Ho; split_and!; try done; try (by intros [|]).
  destruct (Ho _ eq_refl) as [-> ?]. done.
Qed.

Lemma LogBatch_extends st sb t inp :
  inv st -> Forall (fun o => forall e, o = Some e -> md_ok e = true) inp ->
  let '(r, st', sb') := LogBatch redactOn now NewEventID st sb t inp in
  extends st st' t
  /\ match r with
     | Ok b => (br_Accepted b + br_Rejected b = length inp)%nat /\ length (br_IDs b) = br_Accepted b
         /\ Forall (fun id => id ∈ map ev_ID (chain_of st' t)) (br_IDs b)
     | Err _ => sb' = sb
     end.
Proof.
  intros Hi Hm. unfold LogBatch, prepareBatch. case_bool_decide as Ht.
  { split; [by apply extends_refl|done]. }
  destruct inp as [|o inp'] eqn:Hinp.
  { split; [by apply extends_refl|]. by split_and!. }
  rw -Hinp in Hm |- *. destruct (MaxBatchSize <? length inp)%nat.
  { split; [by apply extends_refl|done]. }
  pose proof (prepare_events_counts redactOn now NewEventID 0 inp) as Hc.
  pose proof (prepare_events_md redactOn now NewEventID 0 inp Hm) as Hmd.
  destruct (prepare_events redactOn now NewEventID 0 inp) as [b valid]. cbn [snd] in Hmd.
  destruct Hc as (H1 & H2 & H3 & H4 & _). destruct valid as [|v vs] eqn:Hv.
  { split; [by apply extends_refl|]. cbn in H1. rw H3 H4. by split_and!. }
  rw -Hv in H1 Hmd |- *. destruct (CommitBatch_extends st t valid Hi Hmd) as [He Ho].
  destruct (CommitBatch st t valid) as [[written|err] st']; cbn in He, Ho; (split; [done|]); [|done].
  destruct (Ho _ eq_refl) as [Hids Hin]. assert (Hlen : length written = length valid).
  { by rw -(length_map ev_ID) Hids length_map. }
  cbn [br_Accepted br_Rejected br_IDs]. rw H3 Hids. split_and!; [lia|by rw app_nil_l length_map|].
  cbn [app]. apply Forall_forall. intros id (e & -> & He')%list_elem_of_fmap. auto.
Qed.

(** ** Re-anchoring *)

(** Wherever the break is, ReanchorChain is refused and leaves every chain alone:
    the row it starts at is one it would rewrite. *)
Lemma ReanchorChain_refused st t id reason :
  inv st ->
  let '(r, st') := ReanchorChain now NewEventID st t id reason in
  is_ok r = false /\ inv st' /\ forall t', chain_of st' t' = chain_of st t'.
Proof.
  intros Hi. unfold ReanchorChain. do 3 (case_bool_decide; [done|]).
  destruct (r_Get st t id) as [broken|] eqn:Hg; [|done]. apply get_spec in Hg as [Hin _]; [|done].
  destruct (Previous_hash st t id) as [p|]; [|done].
  pose proof (reanchor_spec st t (ev_SequenceNumber broken) p Hi) as Hra.
  destruct (r_ReanchorFrom _ _ _ _) as [[u|e] st1]; [|by destruct Hra as (? & ? & _)].
  destruct Hra as (_ & _ & Hn). specialize (Hn eq_refl).
  assert (Hb : broken ∈ filter (fun e => ev_SequenceNumber broken <= ev_SequenceNumber e) (chain_of st t))
    by (apply list_elem_of_filter; split; [lia|done]).
  rw Hn in Hb. by apply not_elem_of_nil in Hb.
Qed.
End Ingest.
