(* ===== verification/AuditRepo.v ===== *)
(** The Postgres store implements the repository contract: [pg_repository] is the
    store in one environment, [pg_repository_spec] its proof. *)
From S2P Require Import Prelude Errors GoTime Sha256 Json JsonFacts Canonical CanonicalFacts AuditModel AuditHash Redaction AuditService Postgres AuditStore AuditStoreFacts AuditWalk AuditServiceFacts.
Import GoTime.
Local Open Scope Z_scope.

Section Instance_.
Context `{Hj : Jsonb} (tenant_exists : string -> bool) (env : Env).

#[export] Instance pg_repository : Repository DB := {
  r_AppendChained := AppendChained tenant_exists env;
  r_AppendBatchChained := AppendBatchChained tenant_exists env;
  r_Get := Get env;
  r_Previous := Previous env;
  r_Walk := fun S db t from to fn s => Walk fn env db t from to s;
  r_ReanchorFrom := ReanchorFrom env
}.

(** ** Lookups *)

Lemma find_row_spec rows t id e :
  find_row rows t id = Some e -> e ∈ chain rows t /\ ev_ID e = id.
Proof.
  unfold find_row. intros [[? ?] ?]%head_Some_elem_of%list_elem_of_filter. by rw elem_of_chain.
Qed.

Lemma find_row_found rows t e :
  NoDup (map ev_ID rows) -> e ∈ chain rows t -> find_row rows t (ev_ID e) = Some e.
Proof.
  intros Hn [He Ht]%elem_of_chain. unfold find_row.
  destruct (head _) as [x|] eqn:Hx.
  - apply head_Some_elem_of, list_elem_of_filter in Hx as [[_ Hid] Hx]. f_equal.
    apply list_elem_of_lookup in He as [i Hi], Hx as [j Hj0].
    assert (i = j) as ->; [|congruence].
    apply (NoDup_lookup (map ev_ID rows) i j (ev_ID e)); [done|by rw list_lookup_fmap Hi|by rw list_lookup_fmap Hj0 /= Hid].
  - apply head_None in Hx. assert (Hin : e ∈ filter (fun x => ev_TenantID x = t /\ ev_ID x = ev_ID e) rows)
      by (by apply list_elem_of_filter).
    rw Hx in Hin. by apply not_elem_of_nil in Hin.
Qed.

Context `{!JsonbSpec}.

Program Definition pg_spec : RepositorySpec DB := {|
  inv := db_wf;
  chain_of := fun db t => chain (db_events db) t;
  reads_ok := forall n, fails env (CallRead n) = false
|}.
Next Obligation.
  intros db t [_ W1 W2 W3]. split_and!; [by apply chain_sorted| |].
  - unfold chain. rw (order_by_perm ev_SequenceNumber _). clear -W1. induction (db_events db) as [|e l IH]; [constructor|].
    cbn in W1. apply NoDup_cons in W1 as [He Hl]. rw filter_cons. case_decide; [|by apply IH]. cbn. constructor; [|by apply IH].
    intros (x & Hx & [_ Hin]%list_elem_of_filter)%list_elem_of_fmap. apply He. rw Hx. by apply list_elem_of_fmap_2.
  - apply Forall_forall. intros e [He _]%elem_of_chain. rw Forall_forall in W3. by destruct (W3 e He).
Qed.
Next Obligation. intros S db t from to fn s Hwf. by apply Walk_visit. Qed.
Next Obligation.
  intros db t id e _. cbn. unfold Get. destruct (fails env (CallRead 0)); [done|].
  destruct (find_row _ _ _) eqn:Hf; [|done]. intros [= <-]. by apply find_row_spec in Hf.
Qed.
Next Obligation.
  intros db t e [_ W1 _ _] Hr He. cbn. unfold Get. rw Hr. by rw (find_row_found _ _ _ W1 He).
Qed.
Next Obligation.
  intros db t e p [_ W1 _ _] He. cbn. unfold Previous. destruct (fails env (CallRead 0)); [done|].
  rw (find_row_found _ _ _ W1 He). destruct (fails env (CallRead 1)); [done|]. by intros [= <-].
Qed.
Next Obligation.
  intros db t e [_ W1 _ _] Hr He. cbn. unfold Previous. rw !Hr. by rw (find_row_found _ _ _ W1 He).
Qed.
Next Obligation.
  intros db t events Hwf Hm. cbn.
  destruct (append_preserves tenant_exists env db t events Hwf Hm) as (H1 & (new & _ & H2 & H3 & _) & H4).
  pose proof (append_present tenant_exists env db t events) as Hp.
  destruct (AppendBatchChained tenant_exists env db t events) as [r db']. cbn [snd] in *. split_and!; [done|done|by exists new|].
  intros out ->. destruct (Hp out db' eq_refl) as [Hids Hin]. split; [done|]. intros e He.
  apply Hin, elem_of_tenant_ids in He as (x & Hx & Ht & <-). apply list_elem_of_fmap_2. by apply elem_of_chain.
Qed.
Next Obligation. done. Qed.
Next Obligation.
  intros db t q p Hwf. cbn. pose proof (ReanchorFrom_refused env db t q p) as He.
  destruct (ReanchorFrom env db t q p) as [r db']. by destruct He as [-> He].
Qed.
End Instance_.
