(* ===== verification/AuditProps.v ===== *)
(** Properties of the audit log: the chain AppendBatchChained builds, what Verify
    answers about it, and what re-anchoring does to it. *)
From S2P Require Import Prelude Errors GoTime Sha256 Json JsonFacts Canonical CanonicalFacts AuditModel AuditHash Regex Redaction AuditService Postgres AuditStore AuditStoreFacts AuditWalk AuditServiceFacts AuditIngest AuditRepo.
Import GoTime.
Local Open Scope Z_scope.

(** * Sample data for the witnesses *)

Definition sample_event (id action : string) : AuditEvent :=
  MkEvent id "" 1700000000000000000 (MkActor "u1" ActorHuman "") action (MkResource "r1" "doc" "")
    OutcomeSuccess (Some [("n", JInt 7)]) "" "" 0.
Definition sample_batch : list AuditEvent := [sample_event "evt_1" "read"; sample_event "evt_2" "write"].
Definition empty_db : DB := MkDB [] 0.
Definition any_tenant (_ : string) : bool := true.

Lemma empty_db_wf : db_wf empty_db.
Proof. by split; [|constructor|constructor|constructor]. Qed.
Lemma sample_batch_md : Forall (fun e => md_ok e = true) sample_batch.
Proof. by repeat constructor. Qed.

(** * The chain *)

Section Chain.
Context `{Hj : Jsonb} (tenant_exists : string -> bool).

(** C1: whatever the outcome of AppendBatchChained (success, refusal, storage
    error, lost commit), the tables stay well formed, a linked chain stays
    linked and keeps its old rows as a prefix, and no other tenant's chain changes. *)
Theorem append_keeps_chains `{!JsonbSpec} env db t events :
  db_wf db -> Forall (fun e => md_ok e = true) events ->
  let db' := (AppendBatchChained tenant_exists env db t events).2 in
  db_wf db'
  /\ chain (db_events db) t `prefix_of` chain (db_events db') t
  /\ (linked GenesisHash (chain (db_events db) t) -> linked GenesisHash (chain (db_events db') t))
  /\ (forall t', t' <> t -> chain (db_events db') t' = chain (db_events db) t').
Proof.
  intros Hwf Hm. destruct (append_preserves tenant_exists env db t events Hwf Hm) as (H1 & (new & _ & H2 & H3 & _) & H4).
  split_and!; [done|by exists new| |done]. intros Hl. rw H2. by apply linked_app.
Qed.

(** C2: a successful AppendBatchChained implements its specification: the events
    with a new id, first occurrences only, linked in order behind the chain head
    with consecutive sequence numbers, are appended as stored rows, and the
    answer has one event of the tenant per input, with the input's id. *)
Theorem append_refines_spec env db t events out db' :
  AppendBatchChained tenant_exists env db t events = (Ok out, db') -> events <> [] ->
  let new := link_all t (last_hash GenesisHash (chain (db_events db) t)) (db_seq db)
               (fresh (tenant_ids (db_events db) t) events) in
  (exists stored, db_events db' = db_events db ++ stored
     /\ Forall2 (fun e r => stored_row tenant_exists e = Some r) new stored)
  /\ db_seq db' = db_seq db + Z.of_nat (length new)
  /\ map ev_ID out = map ev_ID events /\ Forall (fun e => ev_TenantID e = t) out.
Proof.
  intros Ha Hne new. pose proof (append_effect tenant_exists env db t events) as He. rw Ha in He.
  destruct He as (_ & [[_ Hn]|(out' & Htx & [[= <-]|?])]); [by specialize (Hn eq_refl)| |done].
  apply append_tx_ok in Htx as (stored & H1 & H2 & H3 & _ & _ & _ & H4 & H5).
  split_and!; [by exists stored|done..].
Qed.

(** C3: retries are safe.  However many attempts failed before, with or without
    their commit having taken effect, once an attempt is answered every id of the
    batch belongs to exactly one row, of this tenant, and no later attempt changes a row. *)
Theorem append_exactly_once `{!JsonbSpec} envs env db t events out db' :
  db_wf db -> Forall (fun e => md_ok e = true) events ->
  AppendBatchChained tenant_exists env (attempts tenant_exists envs db t events) t events = (Ok out, db') ->
  (forall e, e ∈ events -> exists r,
     filter (fun x => ev_ID x = ev_ID e) (db_events db') = [r] /\ ev_TenantID r = t)
  /\ forall env', db_events (AppendBatchChained tenant_exists env' db' t events).2 = db_events db'.
Proof.
  intros Hwf Hm Ha. destruct (append_present tenant_exists _ _ _ _ _ _ Ha) as [_ Hp].
  assert (Hwf' : db_wf db').
  { pose proof (append_preserves tenant_exists env _ t events (attempts_wf tenant_exists envs db t events Hwf Hm) Hm) as [Hw _].
    by rw Ha in Hw. }
  split; [|intros env'; by apply append_noop].
  intros e He. destruct (proj1 (elem_of_tenant_ids _ _ _) (Hp e He)) as (r & Hr & Ht & Hid).
  exists r. split; [by apply unique_row|done].
Qed.

(** A healthy database answers: events the tables accept, for an existing
    tenant, under ids no other tenant holds, are appended as long as the sequence lasts. *)
Theorem append_answers `{!JsonbSpec} db t events :
  db_wf db -> tenant_exists t = true -> text_ok t = true ->
  Forall (fun e => acceptable e = true) events ->
  (forall r e, r ∈ db_events db -> e ∈ events -> ev_ID r = ev_ID e -> ev_TenantID r = t) ->
  db_seq db + Z.of_nat (length events) <= int64_max ->
  exists out db', AppendBatchChained tenant_exists healthy db t events = (Ok out, db').
Proof. apply append_succeeds. Qed.
End Chain.

#[local] Existing Instances jsonb_plain jsonb_plain_spec.

Lemma sample_batch_acceptable : Forall (fun e => acceptable e = true) sample_batch.
Proof. repeat constructor; vm_compute; reflexivity. Qed.

Lemma append_keeps_chains_witness :
  let db' := (AppendBatchChained any_tenant healthy empty_db "t1" sample_batch).2 in
  db_wf db' /\ linked GenesisHash (chain (db_events db') "t1").
Proof.
  destruct (append_keeps_chains any_tenant healthy empty_db "t1" sample_batch empty_db_wf sample_batch_md)
    as (H1 & _ & H2 & _).
  split; [exact H1|apply H2; reflexivity].
Defined.

(** The sample batch is answered on an empty database. *)
Lemma sample_answer :
  exists out db', AppendBatchChained any_tenant healthy empty_db "t1" sample_batch = (Ok out, db').
Proof.
  apply append_succeeds; [apply empty_db_wf|done..|apply sample_batch_acceptable| |done].
  by intros r e ?%not_elem_of_nil.
Qed.

Lemma append_refines_spec_witness :
  exists out db', AppendBatchChained any_tenant healthy empty_db "t1" sample_batch = (Ok out, db')
    /\ db_seq db' = 2 /\ map ev_ID out = ["evt_1"; "evt_2"].
Proof.
  destruct sample_answer as (out & db' & Ha). exists out, db'. split; [exact Ha|].
  destruct (append_refines_spec any_tenant healthy empty_db "t1" sample_batch out db' Ha ltac:(discriminate))
    as (_ & H1 & H2 & _).
  split; [by rw H1 link_all_length|exact H2].
Defined.

(** A database that refuses transactions. *)
Definition no_begin : Env := MkEnv (fun c => match c with CallBegin => true | _ => false end) false.

Lemma append_exactly_once_witness :
  exists out db',
  AppendBatchChained any_tenant healthy (attempts any_tenant [no_begin; no_begin] empty_db "t1" sample_batch) "t1" sample_batch
    = (Ok out, db')
  /\ forall env', db_events (AppendBatchChained any_tenant env' db' "t1" sample_batch).2 = db_events db'.
Proof.
  destruct sample_answer as (out & db' & Ha). exists out, db'. split; [exact Ha|].
  exact (proj2 (append_exactly_once any_tenant [no_begin; no_begin] healthy empty_db "t1" sample_batch out db'
    empty_db_wf sample_batch_md Ha)).
Defined.

Lemma append_answers_witness :
  exists out db', AppendBatchChained any_tenant healthy empty_db "t1" sample_batch = (Ok out, db').
Proof.
  apply (append_answers any_tenant empty_db "t1" sample_batch empty_db_wf); [reflexivity|reflexivity|apply sample_batch_acceptable| |].
  - intros r e Hr. by apply not_elem_of_nil in Hr.
  - vm_compute. discriminate.
Defined.

(** * Verification *)

Section Service.
Context {St : Type} `{RepositorySpec St}.

(** C4: over the whole history, Verify calls a chain valid exactly when every row
    points at its predecessor's hash and carries the digest of its own content. *)
Theorem verify_iff_linked st t r :
  inv st -> in_history st t -> Verify st t zeroTime zeroTime = Some (Ok r) ->
  (vr_Valid r = true <-> linked GenesisHash (chain_of st t))
  /\ vr_EventsChecked r = length (chain_of st t)
  /\ (vr_Valid r = true -> chain_of st t <> [] -> vr_RootHash r = last_hash GenesisHash (chain_of st t)).
Proof.
  intros Hi Hh ->%Verify_eq; [|done]. rw (scanned_all st t Hh). destruct (chain_spec st t Hi) as (Hs & _ & Hr).
  destruct (verify_fold (chain_of st t) (chain_of st t) (vr_new t (open_from zeroTime) (open_to zeroTime)) eq_refl)
    as [(H1 & H2 & H3 & _)|(W1 & b & W2 & HW & H1 & H2 & H3 & _)]; cbn [vr_Valid vr_checked vr_EventsChecked vr_RootHash].
  - rw H2 H3. split_and!; [|done|].
    + split; [intros _; by apply all_ok_linked|done].
    + intros _ Hne. unfold last_hash. destruct (last (chain_of st t)) eqn:Hl; [done|]. by apply last_None in Hl.
  - rw H3. split_and!; [|done|done]. split; [done|]. intros Hl. apply all_ok_linked in Hl; [|done..].
    rw Forall_forall in Hl. rw (Hl b) in H2; [done|]. rw HW. apply elem_of_app. right. by left.
Qed.

(** C5: on any window Verify compares each row with its true predecessor in the
    chain: it is valid iff all rows of the window check, and otherwise it names the
    first bad row with its reason, and the last good hash before it. *)
Theorem verify_window st t from to r :
  inv st -> Verify st t from to = Some (Ok r) ->
  let l := chain_of st t in
  let W := scanned st t from to in
  vr_EventsChecked r = length W
  /\ ((vr_Valid r = true /\ Forall (fun e => ok_at l e = true) W)
      \/ exists W1 b W2, W = W1 ++ b :: W2 /\ Forall (fun e => ok_at l e = true) W1 /\ ok_at l b = false
         /\ vr_Valid r = false /\ vr_FirstBrokenEventID r = ev_ID b /\ vr_Reason r = reason_at l b
         /\ vr_RootHash r = last_hash "" W1).
Proof.
  intros Hi ->%Verify_eq; [|done]. split; [done|].
  destruct (verify_fold (chain_of st t) (scanned st t from to) (vr_new t (open_from from) (open_to to)) eq_refl)
    as [(H1 & H2 & _)|(W1 & b & W2 & H1 & H2 & H3 & H4 & H5 & H6 & H7)]; [by left|].
  right. exists W1, b, W2. by split_and!.
Qed.

(** C6: Verify always ends; it returns an error only when a read of the storage fails. *)
Theorem verify_answers st t from to :
  inv st -> Verify st t from to <> None /\ (reads_ok -> exists r, Verify st t from to = Some (Ok r)).
Proof. apply Verify_answers. Qed.

(** C7: tamper evidence.  If a history and a later one both verify with the same
    root hash, they hold the same events in the same order (metadata compared as JSON
    values), unless an event of the one and an event of the other are themselves a
    SHA-256 collision: two different canonical texts with the same digest. *)
Theorem verified_root_binds_history st st' t r r' :
  inv st -> inv st' -> in_history st t -> in_history st' t ->
  Verify st t zeroTime zeroTime = Some (Ok r) -> Verify st' t zeroTime zeroTime = Some (Ok r') ->
  vr_Valid r = true -> vr_Valid r' = true -> vr_RootHash r = vr_RootHash r' ->
  Forall2 event_equiv (chain_of st t) (chain_of st' t)
  \/ exists e f, e ∈ chain_of st t /\ f ∈ chain_of st' t /\ collide e f.
Proof.
  assert (Hroot : forall s v, inv s -> in_history s t -> Verify s t zeroTime zeroTime = Some (Ok v) ->
    vr_Valid v = true -> linked GenesisHash (chain_of s t)
      /\ vr_RootHash v = last_hash "" (chain_of s t)).
  { intros s v Hi Hh Hv. apply Verify_eq in Hv as ->; [|done]. rw (scanned_all s t Hh).
    destruct (chain_spec s t Hi) as (Hs & _ & Hr).
    destruct (verify_fold (chain_of s t) (chain_of s t) (vr_new t (open_from zeroTime) (open_to zeroTime)) eq_refl)
      as [(H1 & H2 & H3 & _)|(W1 & b & W2 & _ & _ & _ & H3 & _)]; cbn [vr_Valid vr_checked vr_RootHash]; [|by rw H3].
    intros _. split; [by apply all_ok_linked|done]. }
  intros Hi Hi' Hh Hh' Hv Hv' V V' He.
  destruct (Hroot st r Hi Hh Hv V) as [L R], (Hroot st' r' Hi' Hh' Hv' V') as [L' R'].
  apply chain_binds; [done|done|by apply in_history_wf..|]. rw R R' in He. unfold last_hash in *.
  destruct (last (chain_of st t)) as [x|] eqn:Hx, (last (chain_of st' t)) as [y|] eqn:Hy; [done| | |done].
  - exfalso. apply last_Some in Hx as [l Hl]. rw Hl in L. apply linked_app in L as [_ (_ & _ & Hn & _)%linked_cons]. done.
  - exfalso. apply last_Some in Hy as [l Hl]. rw Hl in L'. apply linked_app in L' as [_ (_ & _ & Hn & _)%linked_cons]. done.
Qed.

(** VerifyDeep lists exactly the rows of the window that do not check, in chain
    order, and agrees with Verify on validity and on the first broken event. *)
Theorem verify_deep_agrees st t from to d r :
  inv st -> VerifyDeep st t from to = Some (Ok d) -> Verify st t from to = Some (Ok r) ->
  let l := chain_of st t in
  vr_AllBrokenEvents d = map (broken_at l) (filter (fun e => ok_at l e = false) (scanned st t from to))
  /\ vr_BrokenCount d = length (vr_AllBrokenEvents d)
  /\ vr_Valid d = vr_Valid r /\ vr_EventsChecked d = vr_EventsChecked r
  /\ vr_FirstBrokenEventID d = vr_FirstBrokenEventID r.
Proof.
  intros Hi ->%VerifyDeep_eq ->%Verify_eq l; [|done..]. set (W := scanned st t from to).
  destruct (deep_fold l W (vr_new t (open_from from) (open_to to))) as (D1 & D2 & D3).
  set (d0 := fold_left (deep_pure l) W _) in *. cbn [vr_new vr_AllBrokenEvents app vr_Valid andb vr_FirstBrokenEventID] in D1, D2, D3.
  cbn [vr_finish_deep vr_checked vr_AllBrokenEvents vr_BrokenCount vr_Valid vr_EventsChecked vr_FirstBrokenEventID].
  rw D1 D2 D3. split_and!; [done|done| |done|].
  - destruct (verify_fold l W (vr_new t (open_from from) (open_to to)) eq_refl)
      as [(H1 & H2 & _)|(W1 & b & W2 & -> & H1 & H2 & H3 & _)].
    + rw H2. by apply forallb_Forall.
    + rw H3. rw forallb_app. cbn [forallb]. rw H2. by rw andb_false_r.
  - change (chain_of st t) with l. destruct (verify_fold l W (vr_new t (open_from from) (open_to to)) eq_refl)
      as [(H1 & _ & _ & ->)|(W1 & b & W2 & -> & H1 & H2 & _ & -> & _)].
    + by rw filter_ok_nil.
    + rw filter_app filter_ok_nil // filter_cons. by case_decide.
Qed.
End Service.

(** * Ingest and re-anchoring *)

Section Ingest.
Context {St : Type} `{RepositorySpec St}.
Variable redactOn : bool.
Variable now : nat -> Time.
Variable NewEventID : nat -> string.

(** C8: Log and LogBatch keep every tenant's chain linked, whatever they answer;
    what they accept is in the chain of the tenant under the answered ids; a batch
    accounts for every input, and a rejected event leaves the storage alone. *)
Theorem ingest_keeps_chains st sb t inp batch :
  inv st -> (forall e, inp = Some e -> md_ok e = true) ->
  Forall (fun o => forall e, o = Some e -> md_ok e = true) batch ->
  (forall t', linked GenesisHash (chain_of st t')) ->
  (let '(r, st', _) := Log redactOn now NewEventID st sb t inp in
   (forall t', linked GenesisHash (chain_of st' t'))
   /\ (forall out, r = Ok out -> ev_ID out ∈ map ev_ID (chain_of st' t))
   /\ (is_ok (Validate inp) = false -> st' = st))
  /\ (let '(r, st', _) := LogBatch redactOn now NewEventID st sb t batch in
      (forall t', linked GenesisHash (chain_of st' t'))
      /\ (forall b, r = Ok b -> (br_Accepted b + br_Rejected b = length batch)%nat
            /\ Forall (fun id => id ∈ map ev_ID (chain_of st' t)) (br_IDs b))).
Proof.
  intros Hi Hm Hb Hl. split.
  - pose proof (Log_extends redactOn now NewEventID st sb t inp Hi Hm) as He.
    destruct (Log _ _ _ _ _ _ _) as [[r st'] sb']. destruct He as (He & Hr & Hn). split_and!.
    + intros t'. by eapply extends_linked.
    + intros out ->. by destruct Hr.
    + intros Hv. apply Hn. by left.
  - pose proof (LogBatch_extends redactOn now NewEventID st sb t batch Hi Hb) as He.
    destruct (LogBatch _ _ _ _ _ _ _) as [[r st'] sb']. destruct He as (He & Hr). split.
    + intros t'. by eapply extends_linked.
    + intros b ->. by destruct Hr as (? & _ & ?).
Qed.

(** C9: re-anchoring is always refused.  With the shipped schema, whose triggers let no
    UPDATE of audit_events pass, neither ReanchorChain nor ReanchorAll ever answers an
    event, whatever is broken, asked for or failing, and every chain stays as it is: a
    broken chain cannot be repaired through the service (the comment of ReanchorFrom
    says the trigger allows it). *)
Theorem reanchor_refused st t id reason :
  inv st ->
  (let '(r, st') := ReanchorChain now NewEventID st t id reason in
   is_ok r = false /\ inv st' /\ forall t', chain_of st' t' = chain_of st t')
  /\ exists r st', ReanchorAll now NewEventID st t reason = Some (r, st')
       /\ is_ok r = false /\ inv st' /\ forall t', chain_of st' t' = chain_of st t'.
Proof.
  intros Hi. split; [by apply ReanchorChain_refused|]. unfold ReanchorAll.
  case_bool_decide; [by do 2 eexists|]. case_bool_decide; [by do 2 eexists|].
  destruct (Verify_answers st t zeroTime zeroTime Hi) as [Hv _].
  destruct (Verify st t zeroTime zeroTime) as [[v|e]|]; [|by do 2 eexists|done].
  destruct (vr_Valid v); [by do 2 eexists|].
  pose proof (ReanchorChain_refused now NewEventID st t (vr_FirstBrokenEventID v) reason Hi) as Hr.
  destruct (ReanchorChain _ _ _ _ _ _) as [r st']. by exists r, st'.
Qed.
End Ingest.

(** C10: a digest is a binding commitment to an event.  On well-formed events that can
    be hashed, ComputeHash is the SHA-256 digest of a text, two events have the same text
    iff they have the same content (timestamps to the microsecond, metadata as JSON
    values), and equal digests mean equal content unless those two texts collide. *)
Theorem hash_identifies_event e f :
  event_wf e = true -> event_wf f = true -> hashable e = true -> hashable f = true ->
  ComputeHash e = HashPrefix +:+ Sha256.hex_encode (Sha256.Sum256 (hash_text e))
  /\ (hash_text e = hash_text f <-> event_equiv e f)
  /\ (event_equiv e f -> ComputeHash e = ComputeHash f)
  /\ (ComputeHash e = ComputeHash f -> event_equiv e f \/ collide e f).
Proof.
  intros We Wf He Hf. pose proof (event_wf_ok e We) as Oe. pose proof (event_wf_ok f Wf) as Of.
  assert (Hc := ComputeHash_eq e Oe). rw He in Hc. assert (ComputeHash e <> "") by (by rw Hc).
  split_and!; [done|by apply hash_text_identifies|by apply hash_respects|by apply hash_binds].
Qed.

(** C11: the canonical text identifies a JSON value: two well-formed values have the
    same canonical text iff they are equal up to the order of object members and the
    spelling of numbers (1e3, 1000 and 1000.0 are one number). *)
Theorem canonical_identifies_value v w t u :
  json_wf v = true -> json_wf w = true ->
  nesting v <= maxNestingDepth -> nesting w <= maxNestingDepth ->
  canonical_JSON v = Some t -> canonical_JSON w = Some u ->
  (t = u <-> json_equiv v w).
Proof. apply canonical_text_eq. Qed.

(** Walk terminates in every environment, and when it answers, its callback has
    seen every row of the window exactly once, in chain order, across all pages. *)
Theorem walk_covers_window {S} (fn : S -> AuditEvent -> res S) env db t from to s :
  db_wf db ->
  exists c r, Walk fn env db t from to s = Some (c, r)
    /\ (is_ok r = true \/ (forall k, fails env (CallRead k) = false) ->
        (c, r) = visit fn 0 s (window (db_events db) t from to)).
Proof.
  intros Hwf. destruct (Walk_visit fn env db t from to s Hwf) as ([c r] & Hw & Hv). exists c, r.
  split; [done|]. intros [Hr|Hr]; apply Hv; [by right|by left].
Qed.

(** C12: the Postgres store meets the service's contract: in every environment it is a
    [RepositorySpec] whose invariant is the well-formedness of the tables and whose
    abstract chain is the tenant's rows by sequence number. *)
Theorem store_implements_repository (Hj : Jsonb) (Hs : JsonbSpec) (tenant_exists : string -> bool) (env : Env) :
  exists S : @RepositorySpec DB (pg_repository tenant_exists env),
    @inv _ _ S = db_wf /\ @chain_of _ _ S = (fun db t => chain (db_events db) t)
    /\ @reads_ok _ _ S = (forall n, fails env (CallRead n) = false).
Proof. exists (pg_spec tenant_exists env). by split_and!. Qed.

(** C13: redaction removes the secrets and nothing else.  A text goes through the ten
    patterns' passes in order, and a pass replaces the matches its check confirms by
    the pattern's marker, the rest of the text staying as it is; the flag says whether
    the text holds a confirmed match of any pattern, and without it the text is
    unchanged.  In a valid text every standalone access key, token, SSN, bearer header
    or e-mail address (the families of [secret]) raises the flag, and the pass of its
    own pattern overwrites it; for card numbers and AWS secret keys, which need the
    check, one sample each.  Valid text stays valid.  A JSON value is redacted leaf by
    leaf: constructors, member names and order, lengths, numbers, booleans and nulls
    are the value's own, every string is redacted as a text, and the flag is raised
    iff some string's is. *)
Theorem redaction_is_safe s v :
  scrubs patterns s (Redact s).1 (Redact s).2
  /\ ((Redact s).2 = true <-> exists p m, p ∈ patterns /\ m ∈ FindAllString (re p) s /\ confirmed p m = true)
  /\ ((Redact s).2 = false -> (Redact s).1 = s)
  /\ (utf8_valid s = true -> utf8_valid (Redact s).1 = true
      /\ forall a k w b, s = a +:+ w +:+ b -> utf8_valid a = true -> secret k w -> standalone a w b -> (Redact s).2 = true)
  /\ Redact "4111 1111 1111 1111" = ("[REDACTED:credit_card]", true)
  /\ Redact "wJalrXUtnFEMI/K7MDENG/bPxRfiCYEXAMPLEKEY" = ("[REDACTED:aws_secret_key]", true)
  /\ redactValue v = (on_strings (fun s => (Redact s).1) v, existsb (fun s => (Redact s).2) (strings v))
  /\ (json_wf v = true -> json_wf (redactValue v).1 = true).
Proof.
  split_and!; [apply Redact_scrubs|apply Redact_flag|apply Redact_unchanged|
    |vm_compute; reflexivity|vm_compute; reflexivity|apply redactValue_leaves|apply redactValue_facts].
  intros Hs. split; [by apply Redact_utf8|]. intros a k w b -> Va. by apply Redact_secret.
Qed.

(** * Witnesses *)

(** One event linked behind the genesis, without evaluating its digest. *)
Definition sample_linked : AuditEvent := set_SequenceNumber 1 (set_TenantID "t1" (sample_event "evt_1" "read")).
Definition sample_row : AuditEvent :=
  set_Hash (ComputeHash (set_PrevHash GenesisHash sample_linked)) (set_PrevHash GenesisHash sample_linked).
Definition sample_db : DB := MkDB [sample_row] 1.
#[local] Instance sample_repo : Repository DB := pg_repository any_tenant healthy.
#[local] Instance sample_spec : RepositorySpec DB := pg_spec any_tenant healthy.

Lemma sample_linked_ok : row_ok sample_linked = true.
Proof. vm_compute. reflexivity. Qed.
#[local] Opaque ComputeHash.
Lemma sample_row_facts : row_ok sample_row = true /\ ev_Hash sample_row <> "".
Proof. destruct (with_prev_ok sample_linked GenesisHash sample_linked_ok eq_refl) as (_ & _ & H1 & H2 & _). by split. Qed.
Lemma sample_db_wf : db_wf sample_db.
Proof.
  split; [done|apply NoDup_singleton|apply NoDup_singleton|]. constructor; [|constructor].
  split; [apply sample_row_facts|]. cbn. lia.
Qed.
Lemma sample_inv : inv sample_db.
Proof. exact sample_db_wf. Qed.
Lemma sample_chain t : chain_of sample_db t = if decide (t = "t1") then [sample_row] else [].
Proof.
  change (chain_of sample_db t) with (chain [sample_row] t). unfold chain. rw filter_cons.
  change (ev_TenantID sample_row) with "t1". do 2 case_decide; by subst.
Qed.
Lemma sample_history : in_history sample_db "t1".
Proof.
  unfold in_history. rw sample_chain. constructor; [|constructor]. split.
  - change (event_wf (set_PrevHash GenesisHash sample_linked) = true). vm_compute. reflexivity.
  - reflexivity.
Qed.
Lemma sample_linked_chain t : linked GenesisHash (chain_of sample_db t).
Proof.
  rw sample_chain. case_decide; [|done]. apply linked_cons. split_and!; [done|done|apply sample_row_facts|done].
Qed.
Lemma sample_verify : exists r, Verify sample_db "t1" zeroTime zeroTime = Some (Ok r).
Proof. by apply (Verify_answers sample_db "t1" zeroTime zeroTime sample_inv). Qed.

Lemma sample_valid : exists r, Verify sample_db "t1" zeroTime zeroTime = Some (Ok r) /\ vr_Valid r = true.
Proof.
  destruct sample_verify as [r Hr]. exists r. split; [exact Hr|].
  apply Verify_eq in Hr as ->; [|exact sample_inv]. rw (scanned_all _ _ sample_history).
  destruct (verify_fold (chain_of sample_db "t1") (chain_of sample_db "t1")
    (vr_new "t1" (open_from zeroTime) (open_to zeroTime)) eq_refl) as [(_ & H & _)|(W1 & b & W2 & HW & _ & Hb & _)]; [exact H|].
  destruct (chain_spec sample_db "t1" sample_inv) as (Hs & _ & Hrow).
  pose proof (proj2 (all_ok_linked _ Hs Hrow) (sample_linked_chain "t1")) as Hl. rw Forall_forall in Hl.
  rw (Hl b) in Hb; [done|]. rw HW. apply elem_of_app. right. by left.
Qed.

Lemma verify_iff_linked_witness :
  exists r, Verify sample_db "t1" zeroTime zeroTime = Some (Ok r) /\ vr_Valid r = true /\ vr_EventsChecked r = 1%nat.
Proof.
  destruct sample_verify as [r Hr]. exists r. split; [exact Hr|].
  destruct (verify_iff_linked sample_db "t1" r sample_inv sample_history Hr) as (H1 & H2 & _).
  split; [apply H1, sample_linked_chain|rw H2 sample_chain; reflexivity].
Defined.

Lemma verify_window_witness :
  exists r, Verify sample_db "t1" zeroTime 1 = Some (Ok r) /\ vr_EventsChecked r = 0%nat.
Proof.
  destruct (Verify_answers sample_db "t1" zeroTime 1 sample_inv) as [_ Hr]. destruct (Hr (fun _ => eq_refl)) as [r Hv].
  exists r. split; [exact Hv|].
  destruct (verify_window sample_db "t1" zeroTime 1 r sample_inv Hv) as [H1 _].
  rw H1. unfold scanned. rw sample_chain. reflexivity.
Defined.

Lemma verify_answers_witness : exists r, Verify sample_db "t1" zeroTime zeroTime = Some (Ok r).
Proof. exact (proj2 (verify_answers sample_db "t1" zeroTime zeroTime sample_inv) (fun _ => eq_refl)). Defined.

Lemma verified_root_binds_history_witness :
  Forall2 event_equiv (chain_of sample_db "t1") (chain_of sample_db "t1")
  \/ exists e f, e ∈ chain_of sample_db "t1" /\ f ∈ chain_of sample_db "t1" /\ collide e f.
Proof.
  destruct sample_valid as (r & Hr & Hv).
  exact (verified_root_binds_history sample_db sample_db "t1" r r sample_inv sample_inv sample_history sample_history
    Hr Hr Hv Hv eq_refl).
Defined.

Lemma verify_deep_agrees_witness :
  exists d, VerifyDeep sample_db "t1" zeroTime zeroTime = Some (Ok d) /\ vr_Valid d = true.
Proof.
  destruct (VerifyDeep_answers sample_db "t1" zeroTime zeroTime sample_inv (fun _ => eq_refl)) as [d Hd].
  destruct sample_valid as (r & Hr & Hv). exists d. split; [exact Hd|].
  destruct (verify_deep_agrees sample_db "t1" zeroTime zeroTime d r sample_inv Hd Hr) as (_ & _ & H & _).
  by rw H Hv.
Defined.

Definition sample_now (_ : nat) : Time := 1700000000000000000.
Definition sample_id (n : nat) : string := "evt_" +:+ pretty (Z.of_nat n).

Lemma ingest_keeps_chains_witness :
  let '(_, st', _) := Log false sample_now sample_id sample_db (MkSubs [] 0) "t1" (Some (sample_event "evt_9" "read")) in
  forall t, linked GenesisHash (chain_of st' t).
Proof.
  pose proof (ingest_keeps_chains false sample_now sample_id sample_db (MkSubs [] 0) "t1"
    (Some (sample_event "evt_9" "read")) [None] sample_inv) as H.
  destruct (Log _ _ _ _ _ _ _) as [[r st'] sb].
  refine (proj1 (proj1 (H _ _ sample_linked_chain))).
  - intros e [= <-]. reflexivity.
  - constructor; [|constructor]. intros e He. discriminate.
Defined.

(** A row whose stored digest was overwritten. *)
Definition tampered_db : DB := MkDB [set_Hash "sha256:v2:00" (set_PrevHash GenesisHash sample_linked)] 1.
Lemma tampered_wf : db_wf tampered_db.
Proof.
  split; [done|apply NoDup_singleton|apply NoDup_singleton|]. constructor; [|constructor].
  split; [vm_compute; reflexivity|cbn; lia].
Qed.
Lemma tampered_inv : inv tampered_db.
Proof. exact tampered_wf. Qed.
Lemma tampered_history : in_history tampered_db "t1".
Proof.
  unfold in_history. change (chain_of tampered_db "t1") with (chain (db_events tampered_db) "t1").
  apply Forall_forall. intros e [He _]%elem_of_chain. apply list_elem_of_singleton in He as ->. split; vm_compute; reflexivity.
Qed.

(** The broken chain is reported, and re-anchoring it fails at the row's UPDATE. *)
Lemma reanchor_refused_witness :
  match ReanchorAll sample_now sample_id tampered_db "t1" "bad migration" with
  | Some (Err (Internal msg), st') => msg = "updating hash for seq 1" /\ forall t, chain_of st' t = chain_of tampered_db t
  | _ => False
  end.
Proof.
  assert (Hok : match ReanchorAll sample_now sample_id tampered_db "t1" "bad migration" with
                | Some (Err (Internal msg), _) => bool_decide (msg = "updating hash for seq 1") | _ => false end = true)
    by (vm_compute; reflexivity).
  destruct (reanchor_refused sample_now sample_id tampered_db "t1" "evt_1" "bad migration" tampered_inv) as [_ (r & st' & Hr & _ & _ & H)].
  rw Hr in Hok |- *. destruct r as [out|[]]; try discriminate Hok. split; [by apply bool_decide_eq_true in Hok|exact H].
Defined.

Lemma hash_identifies_event_witness :
  hash_text (sample_event "evt_1" "read") <> hash_text (sample_event "evt_1" "write").
Proof.
  pose proof (hash_identifies_event (sample_event "evt_1" "read") (sample_event "evt_1" "write")
    ltac:(vm_compute; reflexivity) ltac:(vm_compute; reflexivity)
    ltac:(vm_compute; reflexivity) ltac:(vm_compute; reflexivity)) as (_ & Htext & _).
  intros H%Htext. pose proof (ee_Action _ _ H) as Ha. discriminate Ha.
Defined.

Lemma canonical_identifies_value_witness :
  json_equiv (JObj [("a", JNum "1e3"); ("b", JNull)]) (JObj [("b", JNull); ("a", JNum "1000.0")]).
Proof.
  refine (proj1 (canonical_identifies_value (JObj [("a", JNum "1e3"); ("b", JNull)]) (JObj [("b", JNull); ("a", JNum "1000.0")])
    _ _ _ _ _ _ _ _) eq_refl); vm_compute; try reflexivity; try discriminate.
Defined.

Lemma walk_covers_window_witness :
  exists c r, Walk (fun (ids : list string) e => Ok (ids ++ [ev_ID e])) healthy sample_db "t1" historyStart farFuture []
    = Some (c, r) /\ (c, r) = (1%nat, Ok ["evt_1"]).
Proof.
  destruct (walk_covers_window (fun (ids : list string) e => Ok (ids ++ [ev_ID e])) healthy sample_db "t1"
    historyStart farFuture [] sample_db_wf) as (c & r & Hw & Hv).
  exists c, r. split; [exact Hw|]. rw (Hv (or_intror (fun _ => eq_refl))). unfold window.
  change (chain (db_events sample_db) "t1") with (chain_of sample_db "t1"). rw sample_chain. reflexivity.
Defined.

Lemma store_implements_repository_witness :
  exists S : @RepositorySpec DB (pg_repository any_tenant healthy), @inv _ _ S = db_wf.
Proof.
  destruct (store_implements_repository jsonb_plain jsonb_plain_spec any_tenant healthy) as [S [H _]]. exists S. exact H.
Defined.

Lemma redaction_is_safe_witness :
  utf8_valid (Redact "mail bob@example.com now").1 = true /\ (Redact "mail bob@example.com now").2 = true.
Proof.
  destruct (redaction_is_safe "mail bob@example.com now" JNull) as (_ & _ & _ & H & _).
  destruct (H ltac:(reflexivity)) as [H1 H2]. split; [exact H1|].
  apply (H2 "mail " KindEmail "bob@example.com" " now"); [reflexivity|reflexivity| |vm_compute; by split_and!].
  apply (email "bob" "example" "com"); first [reflexivity | cbn; lia].
Defined.
