(* ===== verification/TelemetryStore.v ===== *)
(** The telemetry tables: api/internal/storage/postgres/{store,telemetry_write}.go.

    Each table is the list of its rows in insertion order, with the last value
    of its BIGSERIAL.  A transaction is a function on the database that answers
    and leaves a new one; [in_tx] begins, rolls back or commits it.  Timestamps
    reach the server truncated to microseconds (pgx), sessions run in UTC, and
    [collate] is the server's text order for ORDER BY. *)
From S2P Require Import Prelude Errors GoTime Json JsonFacts Canonical CanonicalFacts TimeText Execution Postgres AuditStore.
Import GoTime.
Local Open Scope Z_scope.

(** * Rows *)

Record ExecRow := MkExecRow {
  xr_ID : string; xr_TenantID : string; xr_AgentID : string; xr_AgentName : string; xr_Status : string;
  xr_RootSpanID : string; xr_Trigger : string; xr_StartedAt : Time; xr_EndedAt : option Time;
  xr_Metadata : json; xr_CreatedAt : Time
}.

Record SpanRow := MkSpanRow {
  sr_ID : string; sr_ExecutionID : string; sr_Parent : option string; sr_SpanType : string; sr_Name : string;
  sr_Status : string; sr_StartedAt : Time; sr_EndedAt : option Time;
  sr_Metadata : json; sr_Detail : json; sr_ErrorInfo : option json; sr_Seq : Z
}.

Record EventRow := MkEventRow {
  vr_ID : string; vr_ExecutionID : string; vr_SpanID : string; vr_EventType : string; vr_Payload : option json;
  vr_PayloadSize : Z; vr_ContentType : string; vr_Timestamp : Time; vr_Metadata : json; vr_Seq : Z
}.

Record TDB := MkTDB {
  t_executions : list ExecRow;
  t_spans : list SpanRow;
  t_causality : list (string * string);   (** (span_id, caused_by_id) *)
  t_events : list EventRow;
  t_span_seq : Z;
  t_event_seq : Z
}.

Definition set_executions l d := MkTDB l (t_spans d) (t_causality d) (t_events d) (t_span_seq d) (t_event_seq d).
Definition set_spans l d := MkTDB (t_executions d) l (t_causality d) (t_events d) (t_span_seq d) (t_event_seq d).
Definition set_causality l d := MkTDB (t_executions d) (t_spans d) l (t_events d) (t_span_seq d) (t_event_seq d).
Definition set_events l d := MkTDB (t_executions d) (t_spans d) (t_causality d) l (t_span_seq d) (t_event_seq d).
Definition set_span_seq q d := MkTDB (t_executions d) (t_spans d) (t_causality d) (t_events d) q (t_event_seq d).
Definition set_event_seq q d := MkTDB (t_executions d) (t_spans d) (t_causality d) (t_events d) (t_span_seq d) q.

(** * Transactions *)

Definition Tx (A : Type) : Type := TDB -> res A * TDB.
Global Instance tx_ret : MRet Tx := fun _ a d => (Ok a, d).
Global Instance tx_bind : MBind Tx := fun _ _ f m d =>
  match m d with (Ok a, d') => f a d' | (Err e, d') => (Err e, d') end.
Definition throw {A} (e : AppError) : Tx A := fun d => (Err e, d).
Definition get_db : Tx TDB := fun d => (Ok d, d).
Definition modify (f : TDB -> TDB) : Tx unit := fun d => (Ok tt, f d).
Definition call {A} (env : Env) (c : Call) (m : Tx A) : Tx A :=
  fun d => if fails env c then (Err (Internal "database call"), d) else m d.

(** Sequences survive a rollback, rows do not. *)
Definition rollback (before after : TDB) : TDB :=
  set_event_seq (t_event_seq after) (set_span_seq (t_span_seq after) before).

Definition in_tx {A} (env : Env) (body : Tx A) : Tx A := fun d =>
  if fails env CallBegin then (Err (Internal "begin"), d)
  else match body d with
       | (Err e, d') => (Err e, rollback d d')
       | (Ok a, d') =>
           if fails env CallCommit
           then (Err (Internal "commit"), if commit_lost env then d' else rollback d d')
           else (Ok a, d')
       end.

(** * JSON columns *)

Definition equalJSON (a b : option json) : bool :=
  match a ≫= canonical_JSON, b ≫= canonical_JSON with
  | Some x, Some y => bool_decide (x = y)
  | _, _ => false
  end.

Definition string_opt_json (o : option string) : json := match o with None => JNull | Some s => JStr s end.
Definition strings_json (l : list string) : json := JArr (map JStr l).

Definition spanDetail (s : Span) : option json :=
  match sp_ToolCall s with Some d => Some (toolCall_json d) | None =>
  match sp_ModelInvocation s with Some d => modelInvocation_json d | None =>
  match sp_StateMutation s with Some d => Some (stateMutation_json d) | None =>
  match sp_HumanApproval s with Some d => humanApproval_json d | None =>
  match sp_PolicyEvaluation s with Some d => Some (policyEvaluation_json d) | None => Some (JObj [])
  end end end end end.

(** * Scanning *)

(** unmarshalJSON into a [map[string]string], with its error. *)
Definition read_strmap (v : json) : option StrMap :=
  match v with
  | JNull => Some None
  | JObj m =>
      if forallb (fun kv => match kv.2 with JStr _ | JNull => true | _ => false end) m
      then Some (as_strmap (Some v)) else None
  | _ => None
  end.

Definition scanExecution (r : ExecRow) (md : StrMap) : Execution :=
  MkExecution (xr_ID r) (xr_AgentID r) (xr_AgentName r) (xr_Status r) (xr_RootSpanID r) (xr_Trigger r)
    (xr_StartedAt r) (xr_EndedAt r) md (xr_CreatedAt r).

(** The detail decoded for one kind; an empty object is no detail. *)
Definition detail_for {A} (r : SpanRow) (kind : SpanKind) (f : list member -> A) : option A :=
  match sr_Detail r with
  | JObj [] => None
  | v => if bool_decide (sr_SpanType r = kind) then Some (f (members_of v)) else None
  end.

(** [scanSpanRow]; [scanSpan] is the same code on [pgx.Rows]. *)
Definition scanSpanRow (r : SpanRow) : Span :=
  MkSpan (sr_ID r) (sr_ExecutionID r) (sr_Parent r) [] (sr_SpanType r) (sr_Name r) (sr_Status r)
    (sr_StartedAt r) (sr_EndedAt r) (as_strmap (Some (sr_Metadata r)))
    (detail_for r SpanKindToolCall toolCall_of_json)
    (detail_for r SpanKindModelInvocation modelInvocation_of_json)
    (detail_for r SpanKindStateMutation stateMutation_of_json)
    (detail_for r SpanKindHumanApproval humanApproval_of_json)
    (detail_for r SpanKindPolicyEvaluation policyEvaluation_of_json)
    ((fun v => spanError_of_json (members_of v)) <$> sr_ErrorInfo r).

Definition set_CausedBy (l : list string) (s : Span) : Span :=
  MkSpan (sp_ID s) (sp_ExecutionID s) (sp_ParentSpanID s) l (sp_SpanType s) (sp_Name s) (sp_Status s)
    (sp_StartedAt s) (sp_EndedAt s) (sp_Metadata s) (sp_ToolCall s) (sp_ModelInvocation s) (sp_StateMutation s)
    (sp_HumanApproval s) (sp_PolicyEvaluation s) (sp_Error s).
Definition scanSpan (r : SpanRow) : Span := scanSpanRow r.

Definition scanEvent (r : EventRow) : ExecutionEvent :=
  MkExecutionEvent (vr_ID r) (vr_ExecutionID r) (vr_SpanID r) (vr_EventType r) (vr_Timestamp r) (vr_Seq r)
    ((fun inline => MkPayloadRef inline (vr_PayloadSize r) (vr_ContentType r)) <$> vr_Payload r)
    (as_strmap (Some (vr_Metadata r))).

Definition payloadSizeOrZero (p : option PayloadRef) : Z := match p with None => 0 | Some p => pl_SizeBytes p end.
Definition payloadContentType (p : option PayloadRef) : string :=
  match p with
  | None => "application/json"
  | Some p => if is_empty (pl_ContentType p) then "application/json" else pl_ContentType p
  end.

Section Store.
Context `{Hj : Jsonb}.
Variable tenant_exists : string -> bool.
(** ORDER BY on a TEXT column. *)
Variable collate : list string -> list string.

(** A JSONB argument: the text json.Marshal produced, parsed and stored. *)
Definition stored_json (v : json) : option json := b ← marshal v; w ← decode b; jsonb w.
Definition opt_text (o : option string) : bool := match o with None => true | Some s => text_ok s end.
Definition opt_time_ok (o : option Time) : bool := match o with None => true | Some t => pg_time_ok t end.

(** * Executions *)

Definition find_execution (d : TDB) (tenantID id : string) : option ExecRow :=
  head (filter (fun r => xr_ID r = id /\ xr_TenantID r = tenantID) (t_executions d)).

Definition GetExecution (env : Env) (tenantID id : string) : Tx Execution :=
  call env (CallRead 0) (
    d ← get_db;
    if negb (text_ok id && text_ok tenantID) then throw (Internal "getting execution")
    else match find_execution d tenantID id with
         | None => throw (NotFound "execution" id)
         | Some r =>
             match read_strmap (xr_Metadata r) with
             | None => throw (Internal "unmarshaling metadata")
             | Some md => mret (scanExecution r md)
             end
         end).

Definition execution_row (tenantID : string) (now : Time) (e : Execution) : option ExecRow :=
  if forallb text_ok [ex_ID e; tenantID; ex_AgentID e; ex_AgentName e; ex_Status e; ex_RootSpanID e; ex_Trigger e]
     && pg_time_ok (ex_StartedAt e) && opt_time_ok (ex_EndedAt e)
  then
    md ← stored_json (strmap_json (ex_Metadata e));
    Some (MkExecRow (ex_ID e) tenantID (ex_AgentID e) (ex_AgentName e) (ex_Status e) (ex_RootSpanID e) (ex_Trigger e)
            (pg_ts (ex_StartedAt e)) (pg_ts <$> ex_EndedAt e) md now)
  else None.

(** INSERT ... ON CONFLICT (id) DO NOTHING: whether the row was written. *)
Definition insert_execution_row (tenantID : string) (now : Time) (e : Execution) : Tx bool :=
  d ← get_db;
  match execution_row tenantID now e with
  | None => throw (Internal "inserting execution")
  | Some r =>
      if existsb (fun x => bool_decide (xr_ID x = xr_ID r)) (t_executions d) then mret false
      else if negb (tenant_exists tenantID) then throw (Internal "inserting execution")
      else modify (set_executions (t_executions d ++ [r])) ;; mret true
  end.

(** The answer is [*e] as the call leaves it. *)
Definition InsertExecution (env : Env) (now : Time) (tenantID : string) (e : Execution) : Tx Execution :=
  inserted ← call env (CallWrite 0) (insert_execution_row tenantID now e);
  if inserted : bool then mret e
  else fun d =>
    match GetExecution env tenantID (ex_ID e) d with
    | (Err _, d) => (Err (AlreadyExists "execution" (ex_ID e)), d)
    | (Ok existing, d) =>
        if negb (bool_decide (ex_AgentID existing = ex_AgentID e))
           || negb (bool_decide (ex_AgentName existing = ex_AgentName e))
           || negb (bool_decide (ex_Trigger existing = ex_Trigger e))
           || negb (equalJSON (Some (strmap_json (ex_Metadata existing))) (Some (strmap_json (ex_Metadata e))))
        then (Err (AlreadyExists "execution with different input" (ex_ID e)), d)
        else (Ok existing, d)
    end.

Definition set_status (status : string) (ended : option Time) (r : ExecRow) : ExecRow :=
  MkExecRow (xr_ID r) (xr_TenantID r) (xr_AgentID r) (xr_AgentName r) status (xr_RootSpanID r) (xr_Trigger r)
    (xr_StartedAt r) ended (xr_Metadata r) (xr_CreatedAt r).

Definition status_target (tenantID id : string) (r : ExecRow) : bool :=
  bool_decide (xr_ID r = id) && bool_decide (xr_TenantID r = tenantID) && bool_decide (xr_Status r = StatusRunning).

Definition UpdateExecutionStatus (env : Env) (tenantID id : string) (status : Status) (endedAt : option Time) : Tx unit :=
  updated ← call env (CallWrite 0) (
    d ← get_db;
    if negb (forallb text_ok [id; tenantID; status] && opt_time_ok endedAt) then throw (Internal "updating execution status")
    else
      modify (set_executions (map (fun r => if status_target tenantID id r then set_status status (pg_ts <$> endedAt) r else r)
                                  (t_executions d))) ;;
      mret (existsb (status_target tenantID id) (t_executions d)));
  if updated : bool then mret tt
  else
    existing ← GetExecution env tenantID id;
    if bool_decide (ex_Status existing = status) then mret tt
    else throw (AlreadyExists "execution terminal status" id).

Definition newest_first (l : list ExecRow) : list ExecRow := order_by (fun r => - xr_StartedAt r) l.

(** Ties of [started_at] are in insertion order here; the server promises none.  A
    negative limit or offset is an error the server raises while the rows are read;
    [rows.Err()] is not consulted, so it passes for an empty page. *)
Definition ListExecutions (env : Env) (tenantID agentID status : string) (limit offset : Z) : Tx (list Execution * Z) :=
  d ← get_db;
  let rows := filter (fun r => xr_TenantID r = tenantID /\ (agentID = "" \/ xr_AgentID r = agentID)
                               /\ (status = "" \/ xr_Status r = status)) (t_executions d) in
  let ok := forallb text_ok [tenantID; agentID; status] in
  call env (CallRead 0) (if ok then mret tt else throw (Internal "counting executions")) ;;
  call env (CallRead 1) (
    if (limit <? 0) || (offset <? 0) then mret ([], Z.of_nat (length rows))
    else mret (map (fun r => scanExecution r (as_strmap (Some (xr_Metadata r))))
                   (firstn (Z.to_nat limit) (skipn (Z.to_nat offset) (newest_first rows))),
               Z.of_nat (length rows))).

(** * Spans: reads *)

Definition span_by_id (d : TDB) (id : string) : option SpanRow :=
  head (filter (fun r => sr_ID r = id) (t_spans d)).
Definition span_in_execution (d : TDB) (executionID id : string) : bool :=
  existsb (fun r => bool_decide (sr_ID r = id) && bool_decide (sr_ExecutionID r = executionID)) (t_spans d).

(** The tenant's spans of one execution, ORDER BY sequence_number ASC. *)
Definition execution_spans (d : TDB) (executionID : string) : list SpanRow :=
  order_by sr_Seq (filter (fun r => sr_ExecutionID r = executionID) (t_spans d)).
Definition causes_of (d : TDB) (id : string) : list string :=
  map snd (filter (fun e => e.1 = id) (t_causality d)).

(** The join gives the edges of the execution's spans in table order. *)
Definition GetSpansByExecution (env : Env) (executionID : string) : Tx (list Span) :=
  d ← get_db;
  call env (CallRead 0) (if text_ok executionID then mret tt else throw (Internal "listing spans")) ;;
  call env (CallRead 1) (
    mret (map (fun r => let s := scanSpan r in
                        match causes_of d (sr_ID r) with [] => s | edges => set_CausedBy edges s end)
              (execution_spans d executionID))).

Definition GetSpan (env : Env) (spanID : string) : Tx Span :=
  d ← get_db;
  call env (CallRead 0) (
    if negb (text_ok spanID) then throw (Internal "getting span")
    else match span_by_id d spanID with
         | None => throw (NotFound "span" spanID)
         | Some r => mret (scanSpanRow r)
         end).

(** * Events *)

Definition GetEventsByExecution (env : Env) (executionID : string) : Tx (list ExecutionEvent) :=
  d ← get_db;
  call env (CallRead 0) (
    if text_ok executionID
    then mret (map scanEvent (order_by vr_Seq (filter (fun r => vr_ExecutionID r = executionID) (t_events d))))
    else throw (Internal "listing events")).

Definition GetEventsBySpan (env : Env) (spanID : string) : Tx (list ExecutionEvent) :=
  d ← get_db;
  call env (CallRead 0) (
    if text_ok spanID
    then mret (map scanEvent (order_by vr_Seq (filter (fun r => vr_SpanID r = spanID) (t_events d))))
    else throw (Internal "listing span events")).

Definition event_row (e : ExecutionEvent) (payload : option json) (seq : Z) : option EventRow :=
  if forallb text_ok [ee_ID e; ee_ExecutionID e; ee_SpanID e; ee_EventType e; payloadContentType (ee_Payload e)]
     && pg_time_ok (ee_Timestamp e)
  then
    md ← stored_json (strmap_json (ee_Metadata e));
    p ← match payload with None => Some None | Some v => Some <$> jsonb v end;
    Some (MkEventRow (ee_ID e) (ee_ExecutionID e) (ee_SpanID e) (ee_EventType e) p (payloadSizeOrZero (ee_Payload e))
            (payloadContentType (ee_Payload e)) (pg_ts (ee_Timestamp e)) md seq)
  else None.

(** INSERT ... ON CONFLICT(id) DO NOTHING. *)
Definition insert_event_row (env : Env) (n : nat) (e : ExecutionEvent) (payload : option json) : Tx bool :=
  d ← get_db;
  match nextval env (S n) (t_event_seq d) with
  | None => throw (Internal "inserting event")
  | Some q =>
      modify (set_event_seq q) ;;
      match event_row e payload q with
      | None => throw (Internal "inserting event")
      | Some r =>
          if existsb (fun x => bool_decide (vr_ID x = vr_ID r)) (t_events d) then mret false
          else modify (set_events (t_events d ++ [r])) ;; mret true
      end
  end.

Definition set_Sequence (q : Z) (e : ExecutionEvent) : ExecutionEvent :=
  MkExecutionEvent (ee_ID e) (ee_ExecutionID e) (ee_SpanID e) (ee_EventType e) (ee_Timestamp e) q (ee_Payload e) (ee_Metadata e).
Definition set_Payload (p : option PayloadRef) (e : ExecutionEvent) : ExecutionEvent :=
  MkExecutionEvent (ee_ID e) (ee_ExecutionID e) (ee_SpanID e) (ee_EventType e) (ee_Timestamp e) (ee_SequenceNumber e) p (ee_Metadata e).

(** The first statements of [insertEventTx]. *)
Definition default_content_type (p : PayloadRef) : PayloadRef :=
  if is_empty (pl_ContentType p) then MkPayloadRef (pl_Inline p) (pl_SizeBytes p) "application/json" else p.
Definition normalize_event (e : ExecutionEvent) : ExecutionEvent :=
  MkExecutionEvent (ee_ID e) (ee_ExecutionID e) (ee_SpanID e) (ee_EventType e) (Truncate Microsecond (ee_Timestamp e))
    (ee_SequenceNumber e) (default_content_type <$> ee_Payload e) (Some (default ∅ (ee_Metadata e))).

(** The payload column: [None] stays NULL, a nil interface too. *)
Definition event_payload (e : ExecutionEvent) : option (option json) :=
  match ee_Payload e with
  | None => Some None
  | Some p =>
      if is_null (pl_Inline p) then Some None
      else b ← marshal (pl_Inline p); w ← decode b; Some (Some w)
  end.

(** The adjustment of the old event before the comparison. *)
Definition drop_empty_payload (e : ExecutionEvent) : ExecutionEvent :=
  match ee_Payload e with
  | Some p => if is_null (pl_Inline p) && (pl_SizeBytes p =? 0) then set_Payload None e else e
  | None => e
  end.

Definition same_event (old event : ExecutionEvent) : bool :=
  equalJSON (event_json (drop_empty_payload (set_Sequence 0 old))) (event_json (set_Sequence 0 event)).

(** [n] tells the calls of several events of one transaction apart. *)
Definition insertEventTx (env : Env) (n : nat) (event : ExecutionEvent) : Tx unit :=
  let event := normalize_event event in
  d ← get_db;
  call env (CallRead (10 + 2 * n)) (if text_ok (ee_SpanID event) && text_ok (ee_ExecutionID event) then mret tt
                          else throw (Internal "checking event span")) ;;
  if negb (span_in_execution d (ee_ExecutionID event) (ee_SpanID event))
  then throw (InvalidInput "event span must belong to its execution")
  else
    match event_payload event with
    | None => throw (Internal "marshaling event payload")
    | Some payload =>
        inserted ← call env (CallWrite (10 + n)) (insert_event_row env n event payload);
        if inserted : bool then mret tt
        else
          call env (CallRead (11 + 2 * n)) (
            match head (filter (fun r => vr_ID r = ee_ID event) (t_events d)) with
            | None => throw (Internal "scanning event")
            | Some r =>
                if same_event (scanEvent r) event then mret tt
                else throw (AlreadyExists "event with different content" (ee_ID event))
            end)
    end.

Definition InsertEvent (env : Env) (event : ExecutionEvent) : Tx unit := in_tx env (insertEventTx env 0 event).

(** * InsertSpan *)

Definition lifecycle_event (s : Span) (payload : json) (kind : string) (ts : Time) : ExecutionEvent :=
  MkExecutionEvent (GenerateEventID (sp_ExecutionID s) (sp_ID s) kind 0) (sp_ExecutionID s) (sp_ID s) kind ts 0
    (Some (MkPayloadRef payload 0 "application/json"))
    (Some (list_to_map [("span_type", sp_SpanType s); ("span_name", sp_Name s); ("status", sp_Status s)])).

(** The payload is the span itself: its marshalling error is the event's. *)
Definition insertLifecycle (env : Env) (n : nat) (s : Span) (kind : string) (ts : Time) : Tx unit :=
  match span_json s with
  | None => throw (Internal "marshaling span")
  | Some v => insertEventTx env n (lifecycle_event s v kind ts)
  end.

(** The assignments before the transaction. *)
Definition normalize_span (s : Span) : Span :=
  MkSpan (sp_ID s) (sp_ExecutionID s) (sp_ParentSpanID s) (compact (sort_strings (sp_CausedBySpanIDs s)))
    (sp_SpanType s) (sp_Name s) (sp_Status s) (Truncate Microsecond (sp_StartedAt s))
    (Truncate Microsecond <$> sp_EndedAt s) (Some (default ∅ (sp_Metadata s)))
    (sp_ToolCall s) (sp_ModelInvocation s) (sp_StateMutation s) (sp_HumanApproval s) (sp_PolicyEvaluation s) (sp_Error s).

Definition same_identity (old span : Span) : bool :=
  bool_decide (sp_ExecutionID old = sp_ExecutionID span) && bool_decide (sp_Name old = sp_Name span)
  && bool_decide (sp_SpanType old = sp_SpanType span) && Equal (sp_StartedAt old) (sp_StartedAt span)
  && equalJSON (Some (string_opt_json (sp_ParentSpanID old))) (Some (string_opt_json (sp_ParentSpanID span))).

(** SPAN_STARTED's stored payload, when the event exists. *)
Definition start_snapshot (d : TDB) (s : Span) : option json :=
  r ← head (filter (fun r => vr_ID r = GenerateEventID (sp_ExecutionID s) (sp_ID s) "SPAN_STARTED" 0
                             /\ vr_ExecutionID r = sp_ExecutionID s) (t_events d));
  Some (default JNull (vr_Payload r)).

(** How the code treats a span whose row exists. *)
Inductive Existing := AlreadyRecorded | Completes.

Definition check_existing (env : Env) (d : TDB) (r : SpanRow) (span : Span) : Tx Existing :=
  let old := scanSpanRow r in
  if negb (same_identity old span) then throw (AlreadyExists "span with different identity" (sp_ID span))
  else
    call env (CallRead 1) (mret tt) ;;
    let old := set_CausedBy (collate (causes_of d (sp_ID span))) old in
    if equalJSON (span_json old) (span_json span) then mret AlreadyRecorded
    else if negb (bool_decide (sp_Status old = StatusRunning)) then
      if negb (fails env (CallRead 2)) && bool_decide (sp_Status span = StatusRunning)
         && equalJSON (start_snapshot d span) (span_json span)
      then mret AlreadyRecorded
      else throw (AlreadyExists "completed span" (sp_ID span))
    else if bool_decide (sp_Status span = StatusRunning) then
      throw (AlreadyExists "running span with different content" (sp_ID span))
    else if negb (equalJSON (Some (strings_json (sp_CausedBySpanIDs old))) (Some (strings_json (sp_CausedBySpanIDs span)))) then
      throw (InvalidInput "span causality cannot change on completion")
    else mret Completes.

(** The loop over [refs]: [n] numbers its queries. *)
Fixpoint check_refs (env : Env) (d : TDB) (span : Span) (n : nat) (refs : list string) : Tx unit :=
  match refs with
  | [] => mret tt
  | id :: refs =>
      if bool_decide (id = sp_ID span) then throw (InvalidInput "span cannot reference itself")
      else
        call env (CallRead n) (if text_ok id then mret tt else throw (Internal "checking span reference")) ;;
        if negb (span_in_execution d (sp_ExecutionID span) id)
        then throw (InvalidInput "parent and causal spans must exist in the same execution")
        else check_refs env d span (S n) refs
  end.

Definition span_refs (s : Span) : list string :=
  sp_CausedBySpanIDs s ++ match sp_ParentSpanID s with None => [] | Some p => [p] end.

(** The row of an INSERT (or the new columns of an UPDATE) with the JSON columns stored. *)
Definition span_row (s : Span) (detail : json) (seq : Z) : option SpanRow :=
  if forallb text_ok [sp_ID s; sp_ExecutionID s; sp_SpanType s; sp_Name s; sp_Status s] && opt_text (sp_ParentSpanID s)
     && pg_time_ok (sp_StartedAt s) && opt_time_ok (sp_EndedAt s)
  then
    md ← stored_json (strmap_json (sp_Metadata s));
    dt ← stored_json detail;
    er ← match sp_Error s with None => Some None | Some e => Some <$> stored_json (spanError_json e) end;
    Some (MkSpanRow (sp_ID s) (sp_ExecutionID s) (sp_ParentSpanID s) (sp_SpanType s) (sp_Name s) (sp_Status s)
            (pg_ts (sp_StartedAt s)) (pg_ts <$> sp_EndedAt s) md dt er seq)
  else None.

Definition execution_exists (d : TDB) (id : string) : bool :=
  existsb (fun r => bool_decide (xr_ID r = id)) (t_executions d).

Definition insert_span_row (env : Env) (s : Span) (detail : json) : Tx unit :=
  d ← get_db;
  match nextval env 0 (t_span_seq d) with
  | None => throw (Internal "persisting span")
  | Some q =>
      modify (set_span_seq q) ;;
      match span_row s detail q with
      | None => throw (Internal "persisting span")
      | Some r =>
          if existsb (fun x => bool_decide (sr_ID x = sr_ID r)) (t_spans d) || negb (execution_exists d (sp_ExecutionID s))
          then throw (Internal "persisting span")
          else modify (set_spans (t_spans d ++ [r]))
      end
  end.

(** UPDATE spans SET status, ended_at, metadata, detail, error_info. *)
Definition complete_row (new r : SpanRow) : SpanRow :=
  MkSpanRow (sr_ID r) (sr_ExecutionID r) (sr_Parent r) (sr_SpanType r) (sr_Name r) (sr_Status new) (sr_StartedAt r)
    (sr_EndedAt new) (sr_Metadata new) (sr_Detail new) (sr_ErrorInfo new) (sr_Seq r).

Definition update_span_row (s : Span) (detail : json) : Tx unit :=
  d ← get_db;
  match span_row s detail 0 with
  | None => throw (Internal "persisting span")
  | Some new =>
      modify (set_spans (map (fun r => if bool_decide (sr_ID r = sp_ID s) then complete_row new r else r) (t_spans d)))
  end.

(** INSERT INTO span_causality ... ON CONFLICT DO NOTHING, one statement per cause. *)
Fixpoint insert_causes (env : Env) (n : nat) (spanID : string) (ids : list string) : Tx unit :=
  match ids with
  | [] => mret tt
  | id :: ids =>
      call env (CallWrite n) (
        modify (fun d => if existsb (fun e => bool_decide (e = (spanID, id))) (t_causality d) then d
                         else set_causality (t_causality d ++ [(spanID, id)]) d)) ;;
      insert_causes env (S n) spanID ids
  end.

Definition start_of (s : Span) : Span :=
  MkSpan (sp_ID s) (sp_ExecutionID s) (sp_ParentSpanID s) (sp_CausedBySpanIDs s) (sp_SpanType s) (sp_Name s)
    StatusRunning (sp_StartedAt s) None (sp_Metadata s) (sp_ToolCall s) (sp_ModelInvocation s) (sp_StateMutation s)
    (sp_HumanApproval s) (sp_PolicyEvaluation s) (sp_Error s).

Definition end_kind (status : Status) : string :=
  if bool_decide (status = StatusCancelled) then "SPAN_CANCELLED"
  else if bool_decide (status = StatusFailed) then "SPAN_FAILED" else "SPAN_ENDED".

(** The writes of a span whose references are checked; [exists_] as in the code. *)
Definition write_span (env : Env) (exists_ : bool) (span : Span) : Tx unit :=
  match spanDetail span with
  | None => throw (Internal "marshaling span detail")
  | Some detail =>
      call env (CallWrite 0) (if exists_ then update_span_row span detail else insert_span_row env span detail) ;;
      (if exists_ then mret tt
       else
         insert_causes env 20 (sp_ID span) (sp_CausedBySpanIDs span) ;;
         insertLifecycle env 0 (start_of span) "SPAN_STARTED" (sp_StartedAt span)) ;;
      match sp_EndedAt span with
      | None => mret tt
      | Some ended => insertLifecycle env 1 span (end_kind (sp_Status span)) ended
      end
  end.

Definition insert_span_tx (env : Env) (span : Span) : Tx unit :=
  call env CallLock (mret tt) ;;
  d ← get_db;
  call env (CallRead 0) (if text_ok (sp_ID span) then mret tt else throw (Internal "reading span")) ;;
  match span_by_id d (sp_ID span) with
  | Some r =>
      v ← check_existing env d r span;
      match v with
      | AlreadyRecorded => mret tt
      | Completes => check_refs env d span 20 (span_refs span) ;; write_span env true span
      end
  | None => check_refs env d span 20 (span_refs span) ;; write_span env false span
  end.

Definition InsertSpan (env : Env) (span : Span) : Tx unit :=
  in_tx env (insert_span_tx env (normalize_span span)).
End Store.
