(* ===== verification/TelemetryFacts.v ===== *)
(** The invariant of the telemetry tables and how every operation evolves them.

    [tx_spec m d Q] is a small program logic: [m] started in [d] ends in [Q] or
    fails, and sequences never go back.  [tdb_wf] is the well-formedness of a
    database, [evolves] the history relation between two of them. *)
From S2P Require Import Prelude Errors GoTime Json JsonFacts Canonical CanonicalFacts TimeText Execution Postgres AuditStore TelemetryStore.
Import GoTime.
Local Open Scope Z_scope.

#[local] Opaque GenerateEventID.

(** * A program logic for transactions *)

Definition seqs_le (d d' : TDB) : Prop := t_span_seq d <= t_span_seq d' /\ t_event_seq d <= t_event_seq d'.

Global Instance seqs_le_preorder : PreOrder seqs_le.
Proof. unfold seqs_le. split; [intros d|intros a b c]; lia. Qed.

Definition tx_spec {A} (m : Tx A) (d : TDB) (Q : A -> TDB -> Prop) : Prop :=
  match m d with
  | (Ok a, d') => seqs_le d d' /\ Q a d'
  | (Err _, d') => seqs_le d d'
  end.

Lemma spec_ret {A} (a : A) d (Q : A -> TDB -> Prop) : Q a d -> tx_spec (mret a) d Q.
Proof. intros H. unfold tx_spec. cbn. by split. Qed.
Lemma spec_throw {A} e d (Q : A -> TDB -> Prop) : tx_spec (throw e) d Q.
Proof. unfold tx_spec. cbn. reflexivity. Qed.
Lemma spec_get d (Q : TDB -> TDB -> Prop) : Q d d -> tx_spec get_db d Q.
Proof. intros H. unfold tx_spec. cbn. by split. Qed.
Lemma spec_modify f d (Q : unit -> TDB -> Prop) : seqs_le d (f d) -> Q tt (f d) -> tx_spec (modify f) d Q.
Proof. unfold tx_spec. cbn. by split. Qed.

Lemma spec_bind {A B} (m : Tx A) (f : A -> Tx B) d (Q : A -> TDB -> Prop) (R : B -> TDB -> Prop) :
  tx_spec m d Q -> (forall a d', Q a d' -> tx_spec (f a) d' R) -> tx_spec (m ≫= f) d R.
Proof.
  unfold tx_spec, mbind, tx_bind. destruct (m d) as [[a|e] d1]; [|done]. intros [Hle HQ] Hf.
  specialize (Hf a d1 HQ). destruct (f a d1) as [[b|e] d2]; [destruct Hf as [? ?]; split; [|done]|]; by etrans.
Qed.

Lemma spec_weaken {A} (m : Tx A) d (Q R : A -> TDB -> Prop) :
  tx_spec m d Q -> (forall a d', Q a d' -> R a d') -> tx_spec m d R.
Proof. unfold tx_spec. destruct (m d) as [[a|e] d']; [|done]. intros [Hl HQ] HR. split; auto. Qed.

Lemma spec_call {A} env c (m : Tx A) d (Q : A -> TDB -> Prop) : tx_spec m d Q -> tx_spec (call env c m) d Q.
Proof. unfold tx_spec, call. destruct (fails env c); [intros _; reflexivity|done]. Qed.

Lemma spec_if {A} (b : bool) (m n : Tx A) d (Q : A -> TDB -> Prop) :
  (b = true -> tx_spec m d Q) -> (b = false -> tx_spec n d Q) -> tx_spec (if b then m else n) d Q.
Proof. destruct b; auto. Qed.

(** A check whose outcome leaves the database alone. *)
Lemma spec_check {B} env c (b : bool) e (k : Tx B) d (Q : B -> TDB -> Prop) :
  (b = true -> tx_spec k d Q) -> tx_spec (call env c (if b then mret tt else throw e) ;; k) d Q.
Proof.
  intros Hk. apply spec_bind with (fun _ d' => d' = d /\ b = true); [|by intros _ d' [-> ?]; auto].
  apply spec_call. destruct b; [by apply spec_ret|apply spec_throw].
Qed.

(** Reads the database and goes on. *)
Lemma spec_read {B} (f : TDB -> Tx B) d (Q : B -> TDB -> Prop) : tx_spec (f d) d Q -> tx_spec (get_db ≫= f) d Q.
Proof. by unfold tx_spec, mbind, tx_bind, get_db. Qed.

(** Rolls back, commits, or loses the commit: the tables are the old or the new ones. *)
Lemma in_tx_spec {A} env (body : Tx A) d (Q : A -> TDB -> Prop) r d' :
  tx_spec body d Q -> in_tx env body d = (r, d') ->
  (exists d1, d' = rollback d d1 /\ seqs_le d d1 /\ is_ok r = false)
  \/ (exists a, Q a d' /\ (r = Ok a \/ is_ok r = false)).
Proof.
  unfold tx_spec, in_tx. intros Hb.
  assert (Hd : d = rollback d d) by (by destruct d).
  destruct (fails env CallBegin); [intros [= <- <-]; left; by exists d|].
  destruct (body d) as [[a|e] d1]; [|intros [= <- <-]; left; by exists d1].
  destruct Hb as [Hle HQ]. destruct (fails env CallCommit); [|intros [= <- <-]; right; exists a; split; [done|by left]].
  destruct (commit_lost env); intros [= <- <-]; [right; exists a; split; [done|by right]|left; by exists d1].
Qed.

(** * Well-formedness *)

Definition same_exec_before (d : TDB) (r : SpanRow) (id : string) : Prop :=
  exists p, p ∈ t_spans d /\ sr_ID p = id /\ sr_ExecutionID p = sr_ExecutionID r /\ sr_Seq p < sr_Seq r.

Record tdb_wf (d : TDB) : Prop := {
  wf_exec_ids : NoDup (map xr_ID (t_executions d));
  wf_span_ids : NoDup (map sr_ID (t_spans d));
  wf_event_ids : NoDup (map vr_ID (t_events d));
  wf_span_order : StronglySorted (key_lt sr_Seq) (t_spans d);
  wf_event_order : StronglySorted (key_lt vr_Seq) (t_events d);
  wf_span_seq : forall r, r ∈ t_spans d -> sr_Seq r <= t_span_seq d;
  wf_event_seq : forall r, r ∈ t_events d -> vr_Seq r <= t_event_seq d;
  wf_span_text : forall r, r ∈ t_spans d -> text_ok (sr_ID r) = true;
  wf_span_exec : forall r, r ∈ t_spans d -> execution_exists d (sr_ExecutionID r) = true;
  wf_parents : forall r p, r ∈ t_spans d -> sr_Parent r = Some p -> same_exec_before d r p;
  wf_causes : forall a b, (a, b) ∈ t_causality d -> exists r, r ∈ t_spans d /\ sr_ID r = a /\ same_exec_before d r b;
  wf_edges : NoDup (t_causality d);
  wf_events : forall e, e ∈ t_events d -> span_in_execution d (vr_ExecutionID e) (vr_SpanID e) = true
}.

Definition empty_tdb : TDB := MkTDB [] [] [] [] 0 0.
Lemma empty_tdb_wf : tdb_wf empty_tdb.
Proof. split; try constructor; cbn; by intros * ?%not_elem_of_nil. Qed.

(** * History *)

(** A span row keeps its identity; once terminal it never changes. *)
Definition span_kept (r r' : SpanRow) : Prop :=
  sr_ID r' = sr_ID r /\ sr_ExecutionID r' = sr_ExecutionID r /\ sr_Parent r' = sr_Parent r
  /\ sr_SpanType r' = sr_SpanType r /\ sr_Name r' = sr_Name r /\ sr_StartedAt r' = sr_StartedAt r /\ sr_Seq r' = sr_Seq r
  /\ (sr_Status r <> StatusRunning -> r' = r).
(** An execution changes only by ending, once. *)
Definition execution_kept (r r' : ExecRow) : Prop :=
  r' = r \/ (xr_Status r = StatusRunning /\ r' = set_status (xr_Status r') (xr_EndedAt r') r).

Record evolves (d d' : TDB) : Prop := {
  ev_executions : exists old new, t_executions d' = old ++ new /\ Forall2 execution_kept (t_executions d) old;
  ev_spans : exists old new, t_spans d' = old ++ new /\ Forall2 span_kept (t_spans d) old;
  ev_events : exists new, t_events d' = t_events d ++ new;
  ev_causality : exists new, t_causality d' = t_causality d ++ new
                   /\ forall e, e ∈ new -> e.1 ∉ map sr_ID (t_spans d);
  ev_seqs : seqs_le d d'
}.

Lemma Forall2_refl' {A} (R : A -> A -> Prop) l : (forall x, R x x) -> Forall2 R l l.
Proof. intros H. induction l; constructor; auto. Qed.
Lemma span_kept_refl r : span_kept r r.
Proof. by split_and!. Qed.
Lemma execution_kept_refl r : execution_kept r r.
Proof. by left. Qed.

Lemma evolves_spans_same d d' :
  t_executions d' = t_executions d -> t_spans d' = t_spans d -> t_causality d' = t_causality d ->
  (exists new, t_events d' = t_events d ++ new) -> seqs_le d d' -> evolves d d'.
Proof.
  intros Hx Hs Hc He Hq. split; try done.
  - exists (t_executions d), []. rw Hx app_nil_r. split; [done|]. apply Forall2_refl', execution_kept_refl.
  - exists (t_spans d), []. rw Hs app_nil_r. split; [done|]. apply Forall2_refl', span_kept_refl.
  - exists []. rw Hc app_nil_r. split; [done|]. by intros e ?%not_elem_of_nil.
Qed.

Lemma evolves_refl d : evolves d d.
Proof. apply evolves_spans_same; try done. exists []. by rw app_nil_r. Qed.

Lemma span_kept_trans a b c : span_kept a b -> span_kept b c -> span_kept a c.
Proof.
  unfold span_kept. intros (H1&H2&H3&H4&H5&H6&H7&H8) (K1&K2&K3&K4&K5&K6&K7&K8). split_and!; try congruence.
  intros Hn. specialize (H8 Hn). subst b. auto.
Qed.
Lemma execution_kept_trans a b c : execution_kept a b -> execution_kept b c -> execution_kept a c.
Proof.
  unfold execution_kept. intros [-> |[Ha Hb]] [-> |[Hb' Hc]]; auto. right. split; [done|]. rw Hc Hb. done.
Qed.

Lemma map_kept_ids l l' : Forall2 span_kept l l' -> map sr_ID l' = map sr_ID l.
Proof. induction 1 as [|a b l l' Hab _ IH]; [done|]. cbn. rw IH. f_equal. by destruct Hab. Qed.

Lemma Forall2_compose {A} (R : A -> A -> Prop) l1 l2 l3 n :
  (forall a b c, R a b -> R b c -> R a c) ->
  Forall2 R l1 l2 -> Forall2 R (l2 ++ n) l3 -> exists a b, l3 = a ++ b /\ Forall2 R l1 a.
Proof.
  intros HR H12 H23. apply Forall2_app_inv_l in H23 as (a & b & H2a & _ & ->). exists a, b. split; [done|].
  clear -HR H12 H2a. revert a H2a. induction H12 as [|x y l1 l2 Hxy H IH]; intros a Ha; inversion Ha; subst; constructor; eauto.
Qed.

Lemma evolves_trans d1 d2 d3 : evolves d1 d2 -> evolves d2 d3 -> evolves d1 d3.
Proof.
  intros H1 H2. split.
  - destruct (ev_executions _ _ H1) as (o1 & n1 & E1 & F1), (ev_executions _ _ H2) as (o2 & n2 & E2 & F2).
    rw E1 in F2. destruct (Forall2_compose _ _ _ _ _ execution_kept_trans F1 F2) as (a & b & -> & Ha).
    exists a, (b ++ n2). split; [|done]. by rw E2 -app_assoc.
  - destruct (ev_spans _ _ H1) as (o1 & n1 & E1 & F1), (ev_spans _ _ H2) as (o2 & n2 & E2 & F2).
    rw E1 in F2. destruct (Forall2_compose _ _ _ _ _ span_kept_trans F1 F2) as (a & b & -> & Ha).
    exists a, (b ++ n2). split; [|done]. by rw E2 -app_assoc.
  - destruct (ev_events _ _ H1) as [n1 E1], (ev_events _ _ H2) as [n2 E2]. exists (n1 ++ n2). by rw E2 E1 app_assoc.
  - destruct (ev_causality _ _ H1) as (n1 & E1 & F1), (ev_causality _ _ H2) as (n2 & E2 & F2).
    exists (n1 ++ n2). split; [by rw E2 E1 app_assoc|]. intros e [He|He]%elem_of_app; [auto|].
    specialize (F2 e He). destruct (ev_spans _ _ H1) as (o & n & Es & Fs). rw Es map_app (map_kept_ids _ _ Fs) in F2. set_solver.
  - destruct (ev_seqs _ _ H1), (ev_seqs _ _ H2). split; lia.
Qed.

Global Instance evolves_preorder : PreOrder evolves.
Proof. split; [exact evolves_refl|exact evolves_trans]. Qed.

(** * What each write does to the invariant *)

Lemma span_in_execution_spec d e i :
  span_in_execution d e i = true <-> exists r, r ∈ t_spans d /\ sr_ID r = i /\ sr_ExecutionID r = e.
Proof.
  unfold span_in_execution. rw existsb_exists. split; intros (r & Hr & H).
  - exists r. rw list_elem_of_In. apply andb_prop in H as [?%bool_decide_eq_true ?%bool_decide_eq_true]. done.
  - exists r. rw -list_elem_of_In. destruct H as [-> ->]. by rw !bool_decide_eq_true_2.
Qed.

Lemma execution_exists_spec d i : execution_exists d i = true <-> i ∈ map xr_ID (t_executions d).
Proof.
  unfold execution_exists. rw existsb_exists list_elem_of_fmap. split.
  - intros (r & Hr & H%bool_decide_eq_true). exists r. by rw list_elem_of_In.
  - intros (r & -> & Hr). exists r. by rw -list_elem_of_In bool_decide_eq_true_2.
Qed.

(** Rows of [d] with a counterpart in [l'] of the same identity and position. *)
Definition spans_within (l l' : list SpanRow) : Prop :=
  forall p, p ∈ l -> exists p', p' ∈ l' /\ sr_ID p' = sr_ID p /\ sr_ExecutionID p' = sr_ExecutionID p /\ sr_Seq p' = sr_Seq p.

Lemma kept_within l l' : Forall2 span_kept l l' -> spans_within l l'.
Proof.
  intros H p Hp. apply list_elem_of_lookup in Hp as [i Hi]. destruct (Forall2_lookup_l _ _ _ _ _ H Hi) as (p' & Hp' & Hk).
  exists p'. split; [by eapply list_elem_of_lookup_2|]. by destruct Hk as (?&?&?&?&?&?&?&_).
Qed.

Lemma before_within d d' r r' id :
  spans_within (t_spans d) (t_spans d') -> sr_ExecutionID r' = sr_ExecutionID r -> sr_Seq r' = sr_Seq r ->
  same_exec_before d r id -> same_exec_before d' r' id.
Proof.
  intros Hw He Hs (p & Hp & Hi & Hx & Hlt). destruct (Hw p Hp) as (p' & Hp' & I & X & S). exists p'.
  split_and!; [done|congruence|congruence|lia].
Qed.

Lemma in_execution_within d d' e i :
  spans_within (t_spans d) (t_spans d') -> span_in_execution d e i = true -> span_in_execution d' e i = true.
Proof.
  intros Hw (r & Hr & Hi & He)%span_in_execution_spec. destruct (Hw r Hr) as (r' & Hr' & I & X & _).
  apply span_in_execution_spec. exists r'. by split_and!; [|congruence..].
Qed.

Lemma StronglySorted_snoc {A} (key : A -> Z) l x :
  StronglySorted (key_lt key) l -> (forall y, y ∈ l -> key y < key x) -> StronglySorted (key_lt key) (l ++ [x]).
Proof.
  induction 1 as [|y l Hl IH Hy]; intros Hx; cbn; [repeat constructor|].
  constructor; [apply IH; intros z Hz; apply Hx; by right|]. apply Forall_app. split; [done|].
  constructor; [|done]. apply Hx. by left.
Qed.

Lemma NoDup_snoc {A} (l : list A) x : NoDup l -> x ∉ l -> NoDup (l ++ [x]).
Proof. intros Hl Hx. apply NoDup_app. split; [done|]. split; [|apply NoDup_singleton]. set_solver. Qed.

Lemma wf_seqs d q q' :
  tdb_wf d -> t_span_seq d <= q -> t_event_seq d <= q' -> tdb_wf (set_event_seq q' (set_span_seq q d)).
Proof.
  intros H Hq Hq'. destruct H. split; cbn; auto.
  - intros r Hr. etrans; [by apply wf_span_seq0|done].
  - intros r Hr. etrans; [by apply wf_event_seq0|done].
Qed.

Lemma wf_rollback d d1 : tdb_wf d -> seqs_le d d1 -> tdb_wf (rollback d d1).
Proof. intros Hd [? ?]. by apply wf_seqs. Qed.

Lemma evolves_rollback d d1 : seqs_le d d1 -> evolves d (rollback d d1).
Proof. intros H. apply evolves_spans_same; try done. exists []. by rw app_nil_r. Qed.

Lemma wf_event_seq_only d q : tdb_wf d -> t_event_seq d <= q -> tdb_wf (set_event_seq q d).
Proof. intros Hd Hq. pose proof (wf_seqs d (t_span_seq d) q Hd ltac:(lia) Hq) as H. by destruct d. Qed.
Lemma wf_span_seq_only d q : tdb_wf d -> t_span_seq d <= q -> tdb_wf (set_span_seq q d).
Proof. intros Hd Hq. pose proof (wf_seqs d q (t_event_seq d) Hd Hq ltac:(lia)) as H. by destruct d. Qed.

Lemma wf_add_event d r :
  tdb_wf d -> t_event_seq d < vr_Seq r -> vr_ID r ∉ map vr_ID (t_events d) ->
  span_in_execution d (vr_ExecutionID r) (vr_SpanID r) = true ->
  tdb_wf (set_events (t_events d ++ [r]) (set_event_seq (vr_Seq r) d)).
Proof.
  intros H Hq Hi Ho. destruct H. split; cbn; auto.
  - rw map_app. by apply NoDup_snoc.
  - apply StronglySorted_snoc; [done|]. intros y Hy. specialize (wf_event_seq0 y Hy). lia.
  - intros x [Hx|Hx%list_elem_of_singleton]%elem_of_app; [specialize (wf_event_seq0 x Hx); lia|subst; lia].
  - intros e [He|He%list_elem_of_singleton]%elem_of_app; [by apply wf_events0|by subst].
Qed.

Lemma wf_add_span d r :
  tdb_wf d -> t_span_seq d < sr_Seq r -> sr_ID r ∉ map sr_ID (t_spans d) -> text_ok (sr_ID r) = true ->
  execution_exists d (sr_ExecutionID r) = true ->
  (forall p, sr_Parent r = Some p -> span_in_execution d (sr_ExecutionID r) p = true) ->
  tdb_wf (set_spans (t_spans d ++ [r]) (set_span_seq (sr_Seq r) d)).
Proof.
  intros H Hq Hi Ht Hx Hp. pose proof (wf_span_seq d H) as Hsq.
  set (d' := set_spans _ _).
  assert (Hw : spans_within (t_spans d) (t_spans d')).
  { intros p Hin. exists p. split; [apply elem_of_app; by left|done]. }
  destruct H. split; cbn; auto.
  - rw map_app. by apply NoDup_snoc.
  - apply StronglySorted_snoc; [done|]. intros y Hy. specialize (Hsq y Hy). lia.
  - intros x [Hin|Hin%list_elem_of_singleton]%elem_of_app; [specialize (Hsq x Hin); lia|subst; lia].
  - intros x [Hin|Hin%list_elem_of_singleton]%elem_of_app; [by apply wf_span_text0|by subst].
  - intros x [Hin|Hin%list_elem_of_singleton]%elem_of_app; [by apply wf_span_exec0|by subst].
  - intros x p [Hin|Hin%list_elem_of_singleton]%elem_of_app Hpar.
    + apply before_within with d x; auto.
    + subst x. apply (before_within d d' r r); try done.
      destruct (proj1 (span_in_execution_spec _ _ _) (Hp p Hpar)) as (y & Hy & Hyi & Hyx).
      exists y. split_and!; try done. specialize (Hsq y Hy). lia.
  - intros a b Hab. destruct (wf_causes0 a b Hab) as (x & Hin & Ha & Hb). exists x.
    split; [apply elem_of_app; by left|]. split; [done|]. by apply before_within with d x.
  - intros e He. exact (in_execution_within d d' _ _ Hw (wf_events0 e He)).
Qed.

Lemma wf_keep_spans d l :
  tdb_wf d -> Forall2 span_kept (t_spans d) l -> tdb_wf (set_spans l d).
Proof.
  intros H Hk. pose proof (kept_within _ _ Hk) as Hw.
  assert (Hback : forall r', r' ∈ l -> exists r, r ∈ t_spans d /\ span_kept r r').
  { intros r' Hr'. apply list_elem_of_lookup in Hr' as [i Hl].
    destruct (Forall2_lookup_r _ _ _ _ _ Hk Hl) as (r & Hr & K). exists r. split; [by eapply list_elem_of_lookup_2|done]. }
  destruct H. split; cbn; auto.
  - by rw (map_kept_ids _ _ Hk).
  - clear -wf_span_order0 Hk. revert wf_span_order0. induction Hk as [|x y l l' Hxy Hk IH]; [constructor|].
    intros Hs. inversion Hs as [|? ? Hs' Hx]; subst. constructor; [by apply IH|].
    clear -Hk Hx Hxy. induction Hk as [|a b l l' Hab Hk IH]; [constructor|]. inversion Hx; subst. constructor; [|auto].
    unfold key_lt in *. destruct Hab as (_&_&_&_&_&_&->&_), Hxy as (_&_&_&_&_&_&->&_). done.
  - intros r' Hr'. destruct (Hback r' Hr') as (r & Hr & K). destruct K as (_&_&_&_&_&_&->&_). auto.
  - intros r' Hr'. destruct (Hback r' Hr') as (r & Hr & K). destruct K as (->&_). auto.
  - intros r' Hr'. destruct (Hback r' Hr') as (r & Hr & K). destruct K as (_&->&_). by apply wf_span_exec0.
  - intros r' p Hr' Hp. destruct (Hback r' Hr') as (r & Hr & K). destruct K as (_&He&Hpar&_&_&_&Hsq&_).
    apply (before_within d _ r r'); auto. apply wf_parents0; [done|congruence].
  - intros a b Hab. destruct (wf_causes0 a b Hab) as (r & Hr & Ha & Hb).
    destruct (Hw r Hr) as (r' & Hr' & I & X & S). exists r'. split_and!; [done|congruence|].
    by apply (before_within d _ r r').
  - intros e He. exact (in_execution_within d (set_spans l d) _ _ Hw (wf_events0 e He)).
Qed.

Lemma wf_add_edge d a b :
  tdb_wf d -> (exists r, r ∈ t_spans d /\ sr_ID r = a /\ same_exec_before d r b) -> (a, b) ∉ t_causality d ->
  tdb_wf (set_causality (t_causality d ++ [(a, b)]) d).
Proof.
  intros H Hab Hn. destruct H. split; cbn; auto.
  - intros a' b' [Hin|Hin%list_elem_of_singleton]%elem_of_app; [by apply wf_causes0|]. by injection Hin as -> ->.
  - by apply NoDup_snoc.
Qed.

Lemma wf_executions d l :
  tdb_wf d -> NoDup (map xr_ID l) -> (forall i, i ∈ map xr_ID (t_executions d) -> i ∈ map xr_ID l) -> tdb_wf (set_executions l d).
Proof.
  intros H Hn Hi. destruct H. split; cbn; auto. intros r Hr.
  exact (proj2 (execution_exists_spec (set_executions l d) _) (Hi _ (proj1 (execution_exists_spec d _) (wf_span_exec0 r Hr)))).
Qed.

(** * The event writes *)

Section Facts.
Context `{Hj : Jsonb}.

(** [d'] has the tables of [d] and one more event at most, with this id, span and execution. *)
Definition event_added (d d' : TDB) (id executionID spanID : string) : Prop :=
  exists q, t_event_seq d <= q
    /\ ((d' = set_event_seq q d /\ (exists r, r ∈ t_events d /\ vr_ID r = id))
        \/ (exists r, vr_ID r = id /\ vr_ExecutionID r = executionID /\ vr_SpanID r = spanID /\ vr_Seq r = q
             /\ t_event_seq d < q /\ id ∉ map vr_ID (t_events d)
             /\ d' = set_events (t_events d ++ [r]) (set_event_seq q d))).

Lemma event_row_fields e p q r :
  event_row e p q = Some r ->
  vr_ID r = ee_ID e /\ vr_ExecutionID r = ee_ExecutionID e /\ vr_SpanID r = ee_SpanID e /\ vr_Seq r = q
  /\ vr_EventType r = ee_EventType e.
Proof.
  unfold event_row. destruct (_ && _); [|done]. intros H. apply bind_Some in H as (md & _ & H). apply bind_Some in H as (p' & _ & [= <-]). done.
Qed.

Lemma nextval_gt env n q q' : nextval env n q = Some q' -> q' = q + 1.
Proof. unfold nextval. destruct (_ || _); [done|]. by intros [= <-]. Qed.

Lemma insert_event_row_spec env n e p d :
  tx_spec (insert_event_row env n e p) d (fun _ d' => event_added d d' (ee_ID e) (ee_ExecutionID e) (ee_SpanID e)).
Proof.
  unfold insert_event_row. apply spec_read. destruct (nextval env (S n) (t_event_seq d)) as [q|] eqn:Hq; [|apply spec_throw].
  apply nextval_gt in Hq. apply spec_bind with (fun _ d' => d' = set_event_seq q d).
  { apply spec_modify; [|done]. split; cbn; lia. }
  intros _ d' ->. destruct (event_row e p q) as [r|] eqn:Hr; [|apply spec_throw].
  apply event_row_fields in Hr as (I & X & S & Sq & _). cbn [t_events].
  destruct (existsb _ (t_events d)) eqn:He.
  - apply spec_ret. exists q. split; [lia|]. left. split; [done|].
    apply existsb_exists in He as (x & Hx & Hxi%bool_decide_eq_true). exists x. rw list_elem_of_In. split; [done|congruence].
  - apply spec_bind with (fun _ d' => d' = set_events (t_events d ++ [r]) (set_event_seq q d)).
    { by apply spec_modify. }
    intros _ d' ->. apply spec_ret. exists q. split; [lia|]. right. exists r. split_and!; try done; [lia|].
    rw list_elem_of_fmap. intros (x & Hxi & Hx). pose proof (existsb_false_elem _ _ _ He Hx) as Hf. cbn in Hf.
    rw bool_decide_eq_false in Hf. congruence.
Qed.

Lemma insertEventTx_spec env n e d :
  tx_spec (insertEventTx env n e) d (fun _ d' =>
    span_in_execution d (ee_ExecutionID e) (ee_SpanID e) = true
    /\ event_added d d' (ee_ID e) (ee_ExecutionID e) (ee_SpanID e)).
Proof.
  unfold insertEventTx. set (ev := normalize_event e). apply spec_read, spec_check. intros _.
  destruct (span_in_execution d (ee_ExecutionID ev) (ee_SpanID ev)) eqn:Ho; cbn [negb]; [|apply spec_throw].
  destruct (event_payload ev) as [p|]; [|apply spec_throw].
  apply spec_bind with (fun _ d' => event_added d d' (ee_ID e) (ee_ExecutionID e) (ee_SpanID e)).
  { apply spec_call. exact (insert_event_row_spec env n ev p d). }
  intros [] d' Ha; [by apply spec_ret|]. apply spec_call.
  destruct (head _) as [r|]; [|apply spec_throw]. destruct (same_event _ _); [by apply spec_ret|apply spec_throw].
Qed.

Lemma event_added_wf d d' id e s :
  tdb_wf d -> span_in_execution d e s = true -> event_added d d' id e s -> tdb_wf d'.
Proof.
  intros Hd Ho (q & Hq & [[-> _]|(r & Hi & Hx & Hs & Hsq & Hlt & Hn & ->)]).
  - by apply wf_event_seq_only.
  - subst q. apply wf_add_event; [done|done|congruence|congruence].
Qed.

Lemma event_added_evolves d d' id e s : event_added d d' id e s -> evolves d d'.
Proof.
  intros (q & Hq & [[-> _]|(r & _ & _ & _ & _ & _ & _ & ->)]); apply evolves_spans_same; try done;
    first [split; cbn; lia | exists []; by rw app_nil_r | by exists [r]].
Qed.

Lemma event_added_has d d' id e s : event_added d d' id e s -> exists r, r ∈ t_events d' /\ vr_ID r = id.
Proof.
  intros (q & Hq & [[-> (r & Hr & Hi)]|(r & Hi & _ & _ & _ & _ & _ & ->)]); [by exists r|].
  exists r. split; [|done]. cbn. set_solver.
Qed.

(** The tables an event write leaves alone. *)
Lemma event_added_tables d d' id e s :
  event_added d d' id e s ->
  t_executions d' = t_executions d /\ t_spans d' = t_spans d /\ t_causality d' = t_causality d
  /\ exists new, t_events d' = t_events d ++ new.
Proof.
  intros (q & Hq & [[-> _]|(r & _ & _ & _ & _ & _ & _ & ->)]); split_and!; try done; [exists []; by rw app_nil_r|by exists [r]].
Qed.

(** * The span writes *)

Variable collate : list string -> list string.

Lemma check_refs_spec env d0 span n refs d :
  tx_spec (check_refs env d0 span n refs) d (fun _ d' =>
    d' = d /\ forall id, id ∈ refs -> id <> sp_ID span /\ span_in_execution d0 (sp_ExecutionID span) id = true).
Proof.
  revert n. induction refs as [|x refs IH]; intros n; cbn [check_refs].
  { apply spec_ret. split; [done|]. by intros id ?%not_elem_of_nil. }
  case_bool_decide as Hx; [apply spec_throw|]. apply spec_check. intros _.
  destruct (span_in_execution d0 (sp_ExecutionID span) x) eqn:Ho; cbn [negb]; [|apply spec_throw].
  eapply spec_weaken; [apply IH|]. intros _ d' [-> H]. split; [done|]. intros id [-> |Hi]%elem_of_cons; auto.
Qed.

Lemma check_existing_spec env d0 r span d :
  tx_spec (check_existing collate env d0 r span) d (fun v d' =>
    d' = d /\ sr_ExecutionID r = sp_ExecutionID span
    /\ (v = Completes -> sr_Status r = StatusRunning /\ sp_Status span <> StatusRunning)).
Proof.
  unfold check_existing. set (old := scanSpanRow r). destruct (same_identity old span) eqn:Hid; cbn [negb]; [|apply spec_throw].
  assert (Hx : sr_ExecutionID r = sp_ExecutionID span).
  { unfold same_identity in Hid. repeat (apply andb_prop in Hid as [Hid _]). by apply bool_decide_eq_true in Hid. }
  apply spec_bind with (fun _ d' => d' = d); [by apply spec_call, spec_ret|]. intros _ d' ->.
  destruct (equalJSON (span_json (set_CausedBy _ old)) _); [by apply spec_ret|].
  cbn [sp_Status set_CausedBy sp_CausedBySpanIDs]. case_bool_decide as Ho; cbn [negb].
  - case_bool_decide; [apply spec_throw|]. destruct (equalJSON _ _); cbn [negb]; [|apply spec_throw].
    apply spec_ret. by split.
  - destruct (_ && _); [by apply spec_ret|apply spec_throw].
Qed.

Lemma span_row_fields s detail q r :
  span_row s detail q = Some r ->
  sr_ID r = sp_ID s /\ sr_ExecutionID r = sp_ExecutionID s /\ sr_Parent r = sp_ParentSpanID s /\ sr_Seq r = q
  /\ sr_Status r = sp_Status s /\ (sr_EndedAt r <> None -> sp_EndedAt s <> None) /\ text_ok (sr_ID r) = true.
Proof.
  unfold span_row. destruct (_ && opt_time_ok _) eqn:Hok; [|done]. do 3 apply andb_prop in Hok as [Hok _].
  cbn [forallb] in Hok. apply andb_prop in Hok as [Hok _]. intros H. apply bind_Some in H as (md & _ & H).
  apply bind_Some in H as (dt & _ & H). apply bind_Some in H as (er & _ & [= <-]). split_and!; try done.
  cbn. by destruct (sp_EndedAt s).
Qed.

Lemma insert_span_row_spec env s detail d :
  tx_spec (insert_span_row env s detail) d (fun _ d' => exists r,
    d' = set_spans (t_spans d ++ [r]) (set_span_seq (sr_Seq r) d) /\ t_span_seq d < sr_Seq r
    /\ sr_ID r ∉ map sr_ID (t_spans d) /\ execution_exists d (sr_ExecutionID r) = true
    /\ span_row s detail (sr_Seq r) = Some r).
Proof.
  unfold insert_span_row. apply spec_read. destruct (nextval env 0 (t_span_seq d)) as [q|] eqn:Hq; [|apply spec_throw].
  apply nextval_gt in Hq. apply spec_bind with (fun _ d' => d' = set_span_seq q d).
  { apply spec_modify; [|done]. split; cbn; lia. }
  intros _ d' ->. destruct (span_row s detail q) as [r|] eqn:Hr; [|apply spec_throw].
  pose proof (span_row_fields _ _ _ _ Hr) as (I & X & P & Sq & _ & _ & _).
  destruct (_ || _) eqn:Hc; [apply spec_throw|]. apply orb_false_elim in Hc as [He Hx]. apply negb_false_iff in Hx.
  apply spec_modify; [done|]. exists r. rw Sq. split_and!; try done; [lia| |congruence].
  rw list_elem_of_fmap. intros (x & Hxi & Hin). pose proof (existsb_false_elem _ _ _ He Hin) as Hf. cbn in Hf.
  rw bool_decide_eq_false in Hf. congruence.
Qed.

Lemma update_span_row_spec s detail d :
  tx_spec (update_span_row s detail) d (fun _ d' => exists new,
    span_row s detail 0 = Some new
    /\ d' = set_spans (map (fun r => if bool_decide (sr_ID r = sp_ID s) then complete_row new r else r) (t_spans d)) d).
Proof.
  unfold update_span_row. apply spec_read. destruct (span_row s detail 0) as [new|] eqn:Hn; [|apply spec_throw].
  apply spec_modify; [done|]. by exists new.
Qed.

(** Only edges from [spanID] to [ids] are added. *)
Definition edges_added (d d' : TDB) (spanID : string) (ids : list string) : Prop :=
  exists new, d' = set_causality (t_causality d ++ new) d /\ forall e, e ∈ new -> e.1 = spanID /\ e.2 ∈ ids.

Lemma insert_causes_spec env n spanID ids d r :
  tdb_wf d -> r ∈ t_spans d -> sr_ID r = spanID -> (forall id, id ∈ ids -> same_exec_before d r id) ->
  tx_spec (insert_causes env n spanID ids) d (fun _ d' => tdb_wf d' /\ edges_added d d' spanID ids).
Proof.
  revert n d. induction ids as [|x ids IH]; intros n d Hd Hr Hi Hb; cbn [insert_causes].
  { apply spec_ret. split; [done|]. exists []. rw app_nil_r. split; [by destruct d|]. by intros e ?%not_elem_of_nil. }
  apply spec_bind with (fun _ d' => tdb_wf d' /\ edges_added d d' spanID [x]).
  { apply spec_call, spec_modify; [by destruct (existsb _ _)|]. destruct (existsb _ _) eqn:He.
    - split; [done|]. exists []. rw app_nil_r. split; [by destruct d|]. by intros e ?%not_elem_of_nil.
    - split; [|by exists [(spanID, x)]; split; [|intros e ->%list_elem_of_singleton; by split; [|left]]].
      apply wf_add_edge; [done| |].
      + exists r. split_and!; try done. apply Hb. by left.
      + intros Hin. pose proof (existsb_false_elem _ _ _ He Hin) as Hf. by rw bool_decide_eq_false in Hf. }
  intros _ d' [Hd' (new & -> & Hnew)]. eapply spec_weaken.
  { apply IH; [done|done|done|]. intros id Hid. apply (before_within d _ r r); try done; [|apply Hb; by right].
    intros p Hp. by exists p. }
  intros _ d2 [Hd2 (new2 & -> & Hn2)]. split; [done|]. exists (new ++ new2). split; [by cbn; rw app_assoc|].
  intros e [He|He]%elem_of_app.
  - destruct (Hnew e He) as [? Hx%list_elem_of_singleton]. split; [done|]. rw Hx. by left.
  - destruct (Hn2 e He) as [? ?]. split; [done|by right].
Qed.

(** * A span transaction *)

Definition has_event (d : TDB) (id : string) : Prop := exists r, r ∈ t_events d /\ vr_ID r = id.

(** A span's start is in the event log, and its end when it has ended. *)
Definition span_recorded (d : TDB) (r : SpanRow) : Prop :=
  has_event d (GenerateEventID (sr_ExecutionID r) (sr_ID r) "SPAN_STARTED" 0)
  /\ (sr_EndedAt r <> None -> has_event d (GenerateEventID (sr_ExecutionID r) (sr_ID r) (end_kind (sr_Status r)) 0)).
Definition recorded (d : TDB) : Prop := forall r, r ∈ t_spans d -> span_recorded d r.

Lemma has_event_mono d d' id : (exists new, t_events d' = t_events d ++ new) -> has_event d id -> has_event d' id.
Proof. intros [new He] (r & Hr & Hi). exists r. rw He. split; [|done]. apply elem_of_app. by left. Qed.

Lemma span_recorded_mono d d' r : (exists new, t_events d' = t_events d ++ new) -> span_recorded d r -> span_recorded d' r.
Proof. intros He [H1 H2]. split; [exact (has_event_mono d d' _ He H1)|]. intros Hn. exact (has_event_mono d d' _ He (H2 Hn)). Qed.

Lemma same_tables_wf d d' e s :
  t_spans d' = t_spans d -> span_in_execution d e s = true -> span_in_execution d' e s = true.
Proof. unfold span_in_execution. by intros ->. Qed.

(** What the event writes at the end of [write_span] add to [d]. *)
Definition events_added (d d' : TDB) (ids : list string) : Prop :=
  tdb_wf d' /\ t_executions d' = t_executions d /\ t_spans d' = t_spans d /\ t_causality d' = t_causality d
  /\ (exists new, t_events d' = t_events d ++ new) /\ seqs_le d d' /\ forall id, id ∈ ids -> has_event d' id.

Lemma events_added_trans d1 d2 d3 ids ids' :
  events_added d1 d2 ids -> events_added d2 d3 ids' -> events_added d1 d3 (ids ++ ids').
Proof.
  intros (W1&X1&S1&C1&[n1 E1]&Q1&H1) (W2&X2&S2&C2&[n2 E2]&Q2&H2). split_and!; try congruence; try done.
  - exists (n1 ++ n2). by rw E2 E1 app_assoc.
  - by etrans.
  - intros id [Hi|Hi]%elem_of_app; [|auto]. apply has_event_mono with d2; [by exists n2|auto].
Qed.

Lemma insertLifecycle_spec env n s kind ts d :
  tdb_wf d ->
  tx_spec (insertLifecycle env n s kind ts) d (fun _ d' =>
    events_added d d' [GenerateEventID (sp_ExecutionID s) (sp_ID s) kind 0]).
Proof.
  intros Hd. unfold insertLifecycle. destruct (span_json s) as [v|]; [|apply spec_throw].
  eapply spec_weaken; [apply insertEventTx_spec|]. intros _ d' [Ho Ha]. cbn [ee_ID lifecycle_event ee_ExecutionID ee_SpanID] in *.
  destruct (event_added_tables _ _ _ _ _ Ha) as (Hx & Hs & Hc & He).
  split_and!; try done; [exact (event_added_wf _ _ _ _ _ Hd Ho Ha)|exact (ev_seqs _ _ (event_added_evolves _ _ _ _ _ Ha))|].
  intros id ->%list_elem_of_singleton. exact (event_added_has _ _ _ _ _ Ha).
Qed.

Definition end_event_ids (s : Span) : list string :=
  match sp_EndedAt s with
  | None => []
  | Some _ => [GenerateEventID (sp_ExecutionID s) (sp_ID s) (end_kind (sp_Status s)) 0]
  end.

Lemma end_event_spec env s d :
  tdb_wf d ->
  tx_spec (match sp_EndedAt s with
           | None => mret tt
           | Some ended => insertLifecycle env 1 s (end_kind (sp_Status s)) ended
           end) d (fun _ d' => events_added d d' (end_event_ids s)).
Proof.
  intros Hd. unfold end_event_ids. destruct (sp_EndedAt s); [by apply insertLifecycle_spec|].
  apply spec_ret. split_and!; try done; [exists []; by rw app_nil_r|]. by intros id ?%not_elem_of_nil.
Qed.

(** The outcome every operation promises: well-formed, a continuation of the
    history, and with every span recorded if they were. *)
Definition advances (d d' : TDB) : Prop := tdb_wf d' /\ evolves d d' /\ (recorded d -> recorded d').
(** A span is recorded under its id in its execution. *)
Definition has_span (d : TDB) (id executionID : string) : Prop :=
  exists r, r ∈ t_spans d /\ sr_ID r = id /\ sr_ExecutionID r = executionID.
Lemma has_span_kept d d' id x : evolves d d' -> has_span d id x -> has_span d' id x.
Proof.
  intros [_ (old & new & Hd & Hk) _ _ _] (r & Hr & Hi & Hx). apply list_elem_of_lookup in Hr as [i Hr].
  destruct (Forall2_lookup_l _ _ _ _ _ Hk Hr) as (r' & Hr' & Hid & Hex & _). exists r'. rw Hd Hid Hex. split; [|done].
  apply elem_of_app. left. by eapply list_elem_of_lookup_2.
Qed.
Definition span_stored (d : TDB) (span : Span) (d' : TDB) : Prop := advances d d' /\ has_span d' (sp_ID span) (sp_ExecutionID span).

Lemma write_new_span_spec env span d :
  tdb_wf d -> span_by_id d (sp_ID span) = None ->
  (forall id, id ∈ span_refs span -> id <> sp_ID span /\ span_in_execution d (sp_ExecutionID span) id = true) ->
  tx_spec (write_span env false span) d (fun _ d' => span_stored d span d').
Proof.
  intros Hd Hnone Hrefs. unfold write_span. destruct (spanDetail span) as [detail|]; [|apply spec_throw].
  eapply spec_bind; [apply spec_call, insert_span_row_spec|].
  intros _ d1 (r & -> & Hq & Hfresh & Hex & Hrow). set (d1 := set_spans _ _).
  destruct (span_row_fields _ _ _ _ Hrow) as (Ri & Rx & Rp & _ & Rst & Ren & Rt).
  assert (Hd1 : tdb_wf d1).
  { apply wf_add_span; try done. rw Rp Rx. intros p Hp. apply Hrefs. unfold span_refs. rw Hp. set_solver. }
  assert (Hin : r ∈ t_spans d1) by (cbn; set_solver).
  apply spec_bind with (fun _ d' => tdb_wf d' /\ exists d2, edges_added d1 d2 (sp_ID span) (sp_CausedBySpanIDs span)
      /\ events_added d2 d' [GenerateEventID (sp_ExecutionID span) (sp_ID span) "SPAN_STARTED" 0]).
  { eapply spec_bind; [apply (insert_causes_spec env 20 (sp_ID span) (sp_CausedBySpanIDs span) d1 r); try done|].
    - intros id Hid. destruct (Hrefs id) as [_ Ho]; [unfold span_refs; set_solver|].
      apply span_in_execution_spec in Ho as (x & Hx & Hxi & Hxe). exists x. split_and!; [cbn; set_solver|done|congruence|].
      pose proof (wf_span_seq d Hd x Hx). lia.
    - intros _ d2 [Hd2 He]. eapply spec_weaken; [by apply insertLifecycle_spec|]. intros [] d3 H3.
      split; [by destruct H3|]. exists d2. by split. }
  intros _ d3 (Hd3 & d2 & (new & -> & Hnew) & H3). eapply spec_weaken; [by apply end_event_spec|].
  intros [] d4 H4. pose proof (events_added_trans _ _ _ _ _ H3 H4) as (W & X & S & C & E & Q & Hev). cbn in X, S, C, E, Q.
  split; [|exists r; rw S; split_and!; [set_solver|done|done]]. split; [done|]. split.
  - split.
    + exists (t_executions d), []. rw app_nil_r. split; [done|]. apply Forall2_refl', execution_kept_refl.
    + exists (t_spans d), [r]. split; [done|]. apply Forall2_refl', span_kept_refl.
    + done.
    + exists new. split; [done|]. intros e He. destruct (Hnew e He) as [-> _]. by rw -Ri.
    + destruct Q. split; cbn in *; lia.
  - intros Hrec x. rw S. intros [Hx|Hx%list_elem_of_singleton]%elem_of_app.
    + by apply span_recorded_mono with d, Hrec.
    + subst x. split; rw Ri Rx; [apply Hev; set_solver|]. intros Hn. apply Hev. rw Rst. unfold end_event_ids.
      specialize (Ren Hn). destruct (sp_EndedAt span); [set_solver|done].
Qed.

Lemma span_by_id_spec d id r : span_by_id d id = Some r -> r ∈ t_spans d /\ sr_ID r = id.
Proof.
  intros Hh. apply head_Some_elem_of in Hh. apply list_elem_of_filter in Hh as [? ?]. by split.
Qed.

(** Rows with the same key are the same row. *)
Lemma key_unique {A B} (f : A -> B) l a b : NoDup (map f l) -> a ∈ l -> b ∈ l -> f a = f b -> a = b.
Proof.
  intros Hn Ha Hb Hi. apply list_elem_of_lookup in Ha as [i Hla], Hb as [j Hlb].
  assert (i = j); [|congruence]. apply (NoDup_lookup (map f l) i j (f a)); [done| |]; rw list_lookup_fmap.
  - by rw Hla.
  - by rw Hlb Hi.
Qed.
Lemma span_ids_unique d a b : tdb_wf d -> a ∈ t_spans d -> b ∈ t_spans d -> sr_ID a = sr_ID b -> a = b.
Proof. intros Hd. apply key_unique, (wf_span_ids d Hd). Qed.

Lemma complete_kept new r : sr_Status r = StatusRunning -> span_kept r (complete_row new r).
Proof. intros H. split_and!; done. Qed.

Lemma write_completion_spec env span r d :
  tdb_wf d -> r ∈ t_spans d -> sr_ID r = sp_ID span -> sr_Status r = StatusRunning ->
  sr_ExecutionID r = sp_ExecutionID span ->
  tx_spec (write_span env true span) d (fun _ d' => span_stored d span d').
Proof.
  intros Hd Hr Hi Hst Hx. unfold write_span. destruct (spanDetail span) as [detail|]; [|apply spec_throw].
  eapply spec_bind; [apply spec_call, update_span_row_spec|]. intros [] d1 (new & Hnew & ->).
  set (upd := fun r0 => if bool_decide (sr_ID r0 = sp_ID span) then complete_row new r0 else r0).
  set (d1 := set_spans (map upd (t_spans d)) d).
  destruct (span_row_fields _ _ _ _ Hnew) as (_ & _ & _ & _ & Nst & Nen & _).
  assert (Hone : forall x, x ∈ t_spans d -> upd x = complete_row new r /\ x = r \/ upd x = x /\ sr_ID x <> sp_ID span).
  { intros x Hin. unfold upd. case_bool_decide as Hxi; [left|by right].
    assert (x = r) as -> by (apply (span_ids_unique d); congruence). done. }
  assert (Hk : Forall2 span_kept (t_spans d) (map upd (t_spans d))).
  { apply Forall2_fmap_r, Forall_Forall2_diag, Forall_forall. intros x Hin.
    change (span_kept x (upd x)). destruct (Hone x Hin) as [[-> ->]|[-> _]]; [by apply complete_kept|apply span_kept_refl]. }
  assert (Hd1 : tdb_wf d1) by by apply wf_keep_spans.
  eapply spec_bind with (fun _ d' => d' = d1); [by apply spec_ret|]. intros [] ? ->.
  eapply spec_weaken; [by apply end_event_spec|]. intros [] d4 (W & X & S & C & E & Q & Hev). cbn in X, S, C, E, Q.
  split; [|exists (upd r); rw S; split; [by apply list_elem_of_fmap_2|]; destruct (Hone r Hr) as [[-> _]|[_ Hn]]; by [|destruct Hn]].
  split; [done|]. split.
  - split; [| |done| |done].
    + exists (t_executions d), []. rw X app_nil_r. split; [done|]. apply Forall2_refl', execution_kept_refl.
    + exists (map upd (t_spans d)), []. rw S app_nil_r. by split.
    + exists []. rw C app_nil_r. split; [done|]. by intros e ?%not_elem_of_nil.
  - intros Hrec x. rw S. intros (y & -> & Hy)%list_elem_of_fmap. destruct (Hone y Hy) as [[-> ->]|[-> Hne]].
    + destruct (Hrec r Hr) as [H1 _]. split; [exact (has_event_mono d d4 _ E H1)|].
      cbn [complete_row sr_EndedAt sr_ExecutionID sr_ID sr_Status]. intros Hn. rw Hi Hx Nst. apply Hev.
      specialize (Nen Hn). unfold end_event_ids. destruct (sp_EndedAt span); [set_solver|done].
    + exact (span_recorded_mono d d4 y E (Hrec y Hy)).
Qed.

Lemma advances_refl d : tdb_wf d -> advances d d.
Proof. intros H. split; [done|]. split; [apply evolves_refl|done]. Qed.

Lemma insert_span_tx_spec env span d :
  tdb_wf d -> tx_spec (insert_span_tx collate env span) d (fun _ d' => span_stored d span d').
Proof.
  intros Hd. unfold insert_span_tx.
  apply spec_bind with (fun _ d' => d' = d); [by apply spec_call, spec_ret|]. intros [] ? ->.
  apply spec_read, spec_check. intros _. destruct (span_by_id d (sp_ID span)) as [r|] eqn:Hf.
  - destruct (span_by_id_spec _ _ _ Hf) as [Hr Hi].
    eapply spec_bind; [apply check_existing_spec|]. intros v ? (-> & Hx & Hv).
    destruct v; [apply spec_ret; split; [by apply advances_refl|by exists r]|]. destruct (Hv eq_refl) as [Hst _].
    eapply spec_bind; [apply check_refs_spec|]. intros [] ? [-> _]. by apply write_completion_spec with r.
  - eapply spec_bind; [apply check_refs_spec|]. intros [] ? [-> Hrefs]. by apply write_new_span_spec.
Qed.

Lemma in_tx_advances {A} env (body : Tx A) d :
  tdb_wf d -> tx_spec body d (fun _ d' => advances d d') -> advances d (in_tx env body d).2.
Proof.
  intros Hd Hb. destruct (in_tx env body d) as [r d'] eqn:He.
  destruct (in_tx_spec env body d _ r d' Hb He) as [(d1 & -> & Hle & _)|(a & Ha & _)]; [|done].
  cbn [snd]. split; [by apply wf_rollback|]. split; [by apply evolves_rollback|]. done.
Qed.

Lemma InsertSpan_advances env span d : tdb_wf d -> advances d (InsertSpan collate env span d).2.
Proof.
  intros Hd. apply in_tx_advances; [done|]. eapply spec_weaken; [by apply insert_span_tx_spec|]. by intros [] d' [? _].
Qed.
Lemma InsertSpan_stored env span d d' u : tdb_wf d -> InsertSpan collate env span d = (Ok u, d') -> span_stored d span d'.
Proof.
  intros Hd He. destruct (in_tx_spec _ _ _ _ _ _ (insert_span_tx_spec env (normalize_span span) d Hd) He) as [(? & _ & _ & ?)|(a & Ha & _)]; done.
Qed.

Lemma InsertEvent_advances env e d : tdb_wf d -> advances d (InsertEvent env e d).2.
Proof.
  intros Hd. apply in_tx_advances; [done|]. eapply spec_weaken; [apply insertEventTx_spec|].
  intros [] d' [Ho Ha]. split; [exact (event_added_wf _ _ _ _ _ Hd Ho Ha)|].
  destruct (event_added_tables _ _ _ _ _ Ha) as (Hx & Hs & Hc & He).
  split; [exact (event_added_evolves _ _ _ _ _ Ha)|]. intros Hrec r. rw Hs. intros Hr.
  exact (span_recorded_mono d d' r He (Hrec r Hr)).
Qed.

(** * Executions *)

Lemma advances_executions d l :
  tdb_wf d -> NoDup (map xr_ID l) -> (exists old new, l = old ++ new /\ Forall2 execution_kept (t_executions d) old) ->
  advances d (set_executions l d).
Proof.
  intros Hd Hn (old & new & -> & Hk). split; [|split; [|done]].
  - apply wf_executions; [done|done|]. assert (map xr_ID old = map xr_ID (t_executions d)) as Ho.
    { clear -Hk. induction Hk as [|a b l l' Hab _ IH]; [done|]. cbn. rw IH. f_equal. by destruct Hab as [-> |[_ ->]]. }
    intros i Hi. rw map_app Ho. set_solver.
  - split; cbn; try done; [by exists old, new| | |].
    + exists (t_spans d), []. rw app_nil_r. split; [done|]. apply Forall2_refl', span_kept_refl.
    + exists []. by rw app_nil_r.
    + exists []. rw app_nil_r. split; [done|]. by intros e ?%not_elem_of_nil.
Qed.

Lemma GetExecution_db env t id d : (GetExecution env t id d).2 = d.
Proof.
  unfold GetExecution, call, mbind, tx_bind, get_db, throw, mret, tx_ret. by repeat case_match.
Qed.

Lemma UpdateExecutionStatus_advances env t id st en d :
  tdb_wf d -> advances d (UpdateExecutionStatus env t id st en d).2.
Proof.
  intros Hd. unfold UpdateExecutionStatus.
  set (up := fun r => if status_target t id r then set_status st (pg_ts <$> en) r else r).
  assert (Hi : advances d (call env (CallWrite 0) (d0 ← get_db;
      if negb (forallb text_ok [id; t; st] && opt_time_ok en) then throw (Internal "updating execution status")
      else modify (set_executions (map up (t_executions d0))) ;; mret (existsb (status_target t id) (t_executions d0))) d).2).
  { unfold call. destruct (fails _ _); [by apply advances_refl|]. unfold mbind, tx_bind, get_db, modify, mret, tx_ret, throw.
    destruct (negb _); [by apply advances_refl|]. cbn [snd].
    assert (Hids : map xr_ID (map up (t_executions d)) = map xr_ID (t_executions d)).
    { rw map_map. apply map_ext. intros r. unfold up. by destruct (status_target t id r). }
    apply advances_executions; [done|rw Hids; exact (wf_exec_ids d Hd)|].
    exists (map up (t_executions d)), []. rw app_nil_r. split; [done|].
    apply Forall2_fmap_r, Forall_Forall2_diag, Forall_forall. intros r _.
    change (execution_kept r (up r)). unfold up.
    destruct (status_target t id r) eqn:Hs; [|by left]. right. unfold status_target in Hs.
    apply andb_prop in Hs as [_ Hs%bool_decide_eq_true]. done. }
  unfold mbind, tx_bind in *. destruct (call env _ _ d) as [[[]|err] d1]; cbn [snd] in Hi; [done| |done].
  pose proof (GetExecution_db env t id d1) as Hg. destruct (GetExecution _ _ _ d1) as [[x|x] d2]; cbn in Hg; subst d2; [|done].
  by case_bool_decide.
Qed.
Variable tenant_exists : string -> bool.

Lemma InsertExecution_advances env now t e d :
  tdb_wf d -> advances d (InsertExecution tenant_exists env now t e d).2.
Proof.
  intros Hd. unfold InsertExecution.
  assert (Hi : advances d (call env (CallWrite 0) (insert_execution_row tenant_exists t now e) d).2).
  { unfold call. destruct (fails _ _); [by apply advances_refl|].
    unfold insert_execution_row, mbind, tx_bind, get_db, throw, mret, tx_ret, modify.
    destruct (execution_row t now e) as [r|]; [|by apply advances_refl].
    destruct (existsb _ _) eqn:He; [by apply advances_refl|]. destruct (negb _); [by apply advances_refl|].
    cbn [snd]. apply advances_executions; [done| |].
    - rw map_app. apply NoDup_snoc; [exact (wf_exec_ids d Hd)|]. rw list_elem_of_fmap. intros (x & Hxi & Hx).
      pose proof (existsb_false_elem _ _ _ He Hx) as Hf. cbn in Hf. rw bool_decide_eq_false in Hf. congruence.
    - exists (t_executions d), [r]. split; [done|]. apply Forall2_refl', execution_kept_refl. }
  unfold mbind, tx_bind. destruct (call env _ _ d) as [[[]|err] d1]; cbn [snd] in Hi; [done| |done].
  pose proof (GetExecution_db env t (ex_ID e) d1) as Hg. destruct (GetExecution _ _ _ d1) as [[x|x] d2]; cbn in Hg; subst d2; [|done].
  by destruct (_ || _).
Qed.

End Facts.
