(* ===== verification/Ingestion.v ===== *)
(** The ingestion service: api/internal/ingestion/{service,redact}.go and
    redaction.RedactInline.

    The clock is an argument of the operations that read it.  A batch makes
    several store calls: [envs i] is the environment of the i-th one. *)
From S2P Require Import Prelude Errors GoTime Sha256 Json JsonFacts Canonical CanonicalFacts TimeText Float64 Execution Redaction Pricing Postgres TelemetryStore.
Import GoTime.
Local Open Scope Z_scope.

(** * RedactInline *)

(** json.Unmarshal into an [interface{}] reads numbers as float64; json.Marshal
    writes them back.  A number out of range fails the Unmarshal. *)
Fixpoint as_floats (v : json) : option json :=
  match v with
  | JNum lit => f ← parse_float lit; JNum <$> float_text f
  | JArr l =>
      JArr <$> (fix go l := match l with
                            | [] => Some []
                            | x :: l => n ← as_floats x; l' ← go l; Some (n :: l')
                            end) l
  | JObj l =>
      JObj <$> (fix go l := match l with
                            | [] => Some []
                            | (k, x) :: l => n ← as_floats x; l' ← go l; Some ((k, n) :: l')
                            end) l
  | v => Some v
  end.

Definition opens_json (s : string) : bool :=
  match s with String c (String _ _) => is_char 123 c || is_char 91 c | _ => false end.

(** The pre-encoded JSON attempt: the re-encoded text, when something in it was redacted. *)
Definition redact_encoded (s : string) : option string :=
  let trim := TrimSpace s in
  if opens_json trim then
    v ← unmarshal trim;
    decoded ← as_floats v;
    let '(nv, c) := redactValue decoded in
    if c then marshal (sort_keys nv) else None
  else None.

Definition RedactInline (v : json) : json * bool :=
  match v with
  | JNull => (JNull, false)
  | JStr s =>
      match redact_encoded s with
      | Some b => (JStr b, true)
      | None => let '(s', c) := Redact s in (JStr s', c)
      end
  | v => redactValue v
  end.

(** * ingestion/redact.go *)

Definition redactionMarkerKey : string := "redacted".
Definition mark (m : StrMap) : StrMap := Some (<[redactionMarkerKey := "true"]> (default ∅ m)).

Definition redactExecution (e : Execution) : Execution :=
  let '(md, c) := RedactStringMap (ex_Metadata e) in
  MkExecution (ex_ID e) (ex_AgentID e) (ex_AgentName e) (ex_Status e) (ex_RootSpanID e) (ex_Trigger e)
    (ex_StartedAt e) (ex_EndedAt e) (if c then mark md else md) (ex_CreatedAt e).

Definition redactPayload (p : option PayloadRef) : option PayloadRef * bool :=
  match p with
  | None => (None, false)
  | Some p =>
      let '(nv, c) := RedactInline (pl_Inline p) in
      (Some (if c then MkPayloadRef nv (pl_SizeBytes p) (pl_ContentType p) else p), c)
  end.

Definition redactToolCall (d : ToolCallDetail) : ToolCallDetail * bool :=
  let '(i, c1) := redactPayload (tc_Input d) in
  let '(o, c2) := redactPayload (tc_Output d) in
  (MkToolCall (tc_ToolName d) (tc_ToolVersion d) i o (tc_DurationMs d), c1 || c2).

Definition redactModelInvocation (d : ModelInvocationDetail) : ModelInvocationDetail * bool :=
  let '(p, c1) := redactPayload (mi_Prompt d) in
  let '(o, c2) := redactPayload (mi_Completion d) in
  (MkModelInvocation (mi_ModelName d) (mi_ModelProvider d) p o (mi_PromptTokens d) (mi_CompletionTokens d)
     (mi_TotalTokens d) (mi_LatencyMs d) (mi_Temperature d) (mi_SessionID d) (mi_TurnSequence d)
     (mi_PromptName d) (mi_PromptVersion d) (mi_CostUSD d), c1 || c2).

Definition redactStateMutation (d : StateMutationDetail) : StateMutationDetail * bool :=
  let '(b, c1) := redactPayload (sm_BeforeValue d) in
  let '(a, c2) := redactPayload (sm_AfterValue d) in
  (MkStateMutation (sm_Key d) b a (sm_MutationType d), c1 || c2).

Definition redactHumanApproval (d : HumanApprovalDetail) : HumanApprovalDetail * bool :=
  let '(r, c) := Redact (ha_Reasoning d) in
  (MkHumanApproval (ha_ApproverID d) (ha_ApproverName d) (ha_Decision d) (if c then r else ha_Reasoning d) (ha_DecidedAt d), c).

Definition redactPolicyEvaluation (d : PolicyEvaluationDetail) : PolicyEvaluationDetail * bool :=
  let '(m, c) := RedactStringMap (pe_Context d) in
  (MkPolicyEvaluation (pe_PolicyID d) (pe_PolicyName d) (pe_Result d) (pe_Violations d) m, c).

Definition redactError (e : SpanError) : SpanError * bool :=
  let '(m, c1) := Redact (er_Message e) in
  let '(t, c2) := Redact (er_StackTrace e) in
  (MkSpanError (er_Code e) (if c1 then m else er_Message e) (if c2 then t else er_StackTrace e), c1 || c2).

(** [if sp.X != nil { ... }] *)
Definition redact_opt {A} (f : A -> A * bool) (o : option A) : option A * bool :=
  match o with None => (None, false) | Some a => let '(a', c) := f a in (Some a', c) end.

Definition redactSpan (s : Span) : Span :=
  let '(md, c0) := RedactStringMap (sp_Metadata s) in
  let '(tool, c1) := redact_opt redactToolCall (sp_ToolCall s) in
  let '(model, c2) := redact_opt redactModelInvocation (sp_ModelInvocation s) in
  let '(mutation, c3) := redact_opt redactStateMutation (sp_StateMutation s) in
  let '(approval, c4) := redact_opt redactHumanApproval (sp_HumanApproval s) in
  let '(policy, c5) := redact_opt redactPolicyEvaluation (sp_PolicyEvaluation s) in
  let '(error, c6) := redact_opt redactError (sp_Error s) in
  MkSpan (sp_ID s) (sp_ExecutionID s) (sp_ParentSpanID s) (sp_CausedBySpanIDs s) (sp_SpanType s) (sp_Name s)
    (sp_Status s) (sp_StartedAt s) (sp_EndedAt s) (if c0 || c1 || c2 || c3 || c4 || c5 || c6 then mark md else md)
    tool model mutation approval policy error.

Definition redactEvent (e : ExecutionEvent) : ExecutionEvent :=
  let '(md, c0) := RedactStringMap (ee_Metadata e) in
  let '(p, c1) := redactPayload (ee_Payload e) in
  MkExecutionEvent (ee_ID e) (ee_ExecutionID e) (ee_SpanID e) (ee_EventType e) (ee_Timestamp e) (ee_SequenceNumber e)
    p (if c0 || c1 then mark md else md).

(** * service.go *)

Record StartExecutionRequest := MkStartRequest {
  rq_AgentID : string; rq_AgentName : string; rq_Trigger : string; rq_Metadata : StrMap;
  rq_IdempotencyKey : string; rq_StartedAt : option Time
}.

(** [Message] is the text of an error value, or a literal. *)
Inductive Message := Literal (s : string) | ErrorText (e : AppError).
Record IngestError := MkIngestError { ie_EntityID : string; ie_Code : string; ie_Message : Message }.

(** [stableID]: a failed Marshal hashes the empty text. *)
Definition stableID (prefix : string) (value : option json) : string :=
  prefix +:+ "_" +:+ Sha256.hex_encode (firstn 16 (Sha256.Sum256 (default "" (value ≫= marshal)))).

Definition wrap32 (z : Z) : Z := (z + 2 ^ 31) mod 2 ^ 32 - 2 ^ 31.

Section Service.
Context `{Hj : Jsonb}.
Variable tenant_exists : string -> bool.
Variable collate : list string -> list string.
Variable lower : string -> string.
(** The pricing table and its iteration order. *)
Variable active : gmap string pricing.
Variable entries : list (string * pricing).
(** [redactOn] *)
Variable redactOn : bool.

Definition execution_id (now : Time) (tenantID : string) (req : StartExecutionRequest) : string :=
  let fresh := is_empty (rq_IdempotencyKey req) in
  let key := if fresh then formatNano (utc now) else rq_IdempotencyKey req in
  let idTime := if fresh then wrap64 now else 0 in
  stableID "exec" (Some (JArr [JStr tenantID; JStr (rq_AgentID req); JInt idTime; JStr key])).

(** The execution of a request, up to validation. *)
Definition new_execution (now : Time) (tenantID : string) (req : StartExecutionRequest) : Execution :=
  let startedAt := Truncate Microsecond (default now (rq_StartedAt req)) in
  let e := MkExecution (execution_id now tenantID req) (rq_AgentID req) (rq_AgentName req) StatusRunning ""
             (rq_Trigger req) startedAt None (Some (default ∅ (rq_Metadata req))) zeroTime in
  if redactOn then redactExecution e else e.

Definition lift_res {A} (r : res A) : Tx A := match r with Ok a => mret a | Err e => throw e end.

(** [dbnow] is the server's transaction time. *)
Definition StartExecution (env : Env) (now dbnow : Time) (tenantID : string) (req : StartExecutionRequest) : Tx Execution :=
  let exec := new_execution now tenantID req in
  lift_res (ValidateExecution exec) ;;
  stored ← InsertExecution tenant_exists env dbnow tenantID exec;
  if negb (is_none (rq_StartedAt req)) && negb (Equal (ex_StartedAt stored) (ex_StartedAt exec))
  then throw (AlreadyExists "execution with different started_at" (ex_ID stored))
  else mret stored.

Definition set_CostUSD (c : float64) (d : ModelInvocationDetail) : ModelInvocationDetail :=
  MkModelInvocation (mi_ModelName d) (mi_ModelProvider d) (mi_Prompt d) (mi_Completion d) (mi_PromptTokens d)
    (mi_CompletionTokens d) (mi_TotalTokens d) (mi_LatencyMs d) (mi_Temperature d) (mi_SessionID d) (mi_TurnSequence d)
    (mi_PromptName d) (mi_PromptVersion d) c.
Definition set_ModelInvocation (m : option ModelInvocationDetail) (s : Span) : Span :=
  MkSpan (sp_ID s) (sp_ExecutionID s) (sp_ParentSpanID s) (sp_CausedBySpanIDs s) (sp_SpanType s) (sp_Name s)
    (sp_Status s) (sp_StartedAt s) (sp_EndedAt s) (sp_Metadata s) (sp_ToolCall s) m (sp_StateMutation s)
    (sp_HumanApproval s) (sp_PolicyEvaluation s) (sp_Error s).

Definition enrichModelInvocationCost (s : Span) : Span :=
  match sp_ModelInvocation s with
  | None => s
  | Some mi =>
      if negb (feqb (mi_CostUSD mi) fzero) then s
      else if wrap32 (mi_PromptTokens mi + mi_CompletionTokens mi) =? 0 then s
      else set_ModelInvocation (Some (set_CostUSD (EstimateCost lower active entries (mi_ModelName mi) (mi_ModelProvider mi)
                                                      (mi_PromptTokens mi) (mi_CompletionTokens mi)) mi)) s
  end.

(** The defaults of one span of a batch. *)
Definition default_span (executionID : string) (s : Span) : Span :=
  let started := Truncate Microsecond (sp_StartedAt s) in
  let ended := Truncate Microsecond <$> sp_EndedAt s in
  let status := if is_empty (sp_Status s) then (if is_none ended then StatusRunning else StatusCompleted) else sp_Status s in
  let id :=
    if is_empty (sp_ID s)
    then stableID "span" (t ← time_json (utc started);
                          Some (JArr [JStr executionID; string_opt_json (sp_ParentSpanID s); JStr (sp_Name s); JStr (sp_SpanType s); t]))
    else sp_ID s in
  MkSpan id executionID (sp_ParentSpanID s) (sp_CausedBySpanIDs s) (sp_SpanType s) (sp_Name s) status started ended
    (sp_Metadata s) (sp_ToolCall s) (sp_ModelInvocation s) (sp_StateMutation s) (sp_HumanApproval s)
    (sp_PolicyEvaluation s) (sp_Error s).

(** What the store is given for a span of the batch. *)
Definition prepare_span (executionID : string) (s : Span) : Span :=
  let s := enrichModelInvocationCost (default_span executionID s) in
  if redactOn then redactSpan s else s.

(** One iteration of the loop: the error of the span, or none. *)
Definition ingest_span (env : Env) (executionID : string) (o : option Span) : TDB -> option IngestError * TDB := fun d =>
  match o with
  | None => (Some (MkIngestError "" "VALIDATION_ERROR" (Literal "span must not be null")), d)
  | Some s =>
      let s := prepare_span executionID s in
      match ValidateSpan (Some s) with
      | Err e => (Some (MkIngestError (sp_ID s) "VALIDATION_ERROR" (ErrorText e)), d)
      | Ok _ =>
          match InsertSpan collate env s d with
          | (Err e, d) => (Some (MkIngestError (sp_ID s) "STORAGE_ERROR" (ErrorText e)), d)
          | (Ok _, d) => (None, d)
          end
      end
  end.

(** The loop of both batch operations: the count of accepted entries and the errors in order. *)
Fixpoint ingest_loop {A} (step : nat -> A -> TDB -> option IngestError * TDB) (n : nat) (l : list A) (d : TDB)
    : (Z * list IngestError) * TDB :=
  match l with
  | [] => ((0, []), d)
  | x :: l =>
      let '(r, d) := step n x d in
      let '((accepted, errors), d) := ingest_loop step (S n) l d in
      (match r with None => (accepted + 1, errors) | Some e => (accepted, e :: errors) end, d)
  end.

Definition IngestSpans (envs : nat -> Env) (tenantID executionID : string) (spans : list (option Span)) (d : TDB)
    : (Z * list IngestError) * TDB :=
  match GetExecution (envs 0%nat) tenantID executionID d with
  | (Err e, d) => ((0, [MkIngestError executionID "NOT_FOUND" (ErrorText e)]), d)
  | (Ok _, d) => ingest_loop (fun n => ingest_span (envs n) executionID) 1 spans d
  end.

Definition set_event_id (id : string) (e : ExecutionEvent) : ExecutionEvent :=
  MkExecutionEvent id (ee_ExecutionID e) (ee_SpanID e) (ee_EventType e) (ee_Timestamp e) (ee_SequenceNumber e)
    (ee_Payload e) (ee_Metadata e).

Definition prepare_event (executionID : string) (e : ExecutionEvent) : ExecutionEvent :=
  let e := MkExecutionEvent (ee_ID e) executionID (ee_SpanID e) (ee_EventType e) (Truncate Microsecond (ee_Timestamp e)) 0
             (default_content_type <$> ee_Payload e) (Some (default ∅ (ee_Metadata e))) in
  let e := if is_empty (ee_ID e) then set_event_id (stableID "evt" (event_json e)) e else e in
  if redactOn then redactEvent e else e.

Definition ingest_event (env : Env) (executionID : string) (o : option ExecutionEvent) : TDB -> option IngestError * TDB := fun d =>
  match o with
  | None => (Some (MkIngestError "" "VALIDATION_ERROR" (Literal "event must not be null")), d)
  | Some e =>
      let e := prepare_event executionID e in
      match ValidateEvent e with
      | Err err => (Some (MkIngestError (ee_ID e) "VALIDATION_ERROR" (ErrorText err)), d)
      | Ok _ =>
          match InsertEvent env e d with
          | (Err err, d) => (Some (MkIngestError (ee_ID e) "STORAGE_ERROR" (ErrorText err)), d)
          | (Ok _, d) => (None, d)
          end
      end
  end.

Definition IngestEvents (envs : nat -> Env) (tenantID executionID : string) (events : list (option ExecutionEvent)) (d : TDB)
    : (Z * list IngestError) * TDB :=
  match GetExecution (envs 0%nat) tenantID executionID d with
  | (Err e, d) => ((0, [MkIngestError executionID "NOT_FOUND" (ErrorText e)]), d)
  | (Ok _, d) => ingest_loop (fun n => ingest_event (envs n) executionID) 1 events d
  end.

(** [envs 0], [envs 1] and [envs 2]: the first read, the update, the second read. *)
Definition EndExecutionAt (envs : nat -> Env) (now : Time) (tenantID executionID : string) (status : Status)
    (endedAt : option Time) : Tx Execution :=
  if negb (bool_decide (status ∈ [StatusCompleted; StatusFailed; StatusCancelled])) then
    throw (InvalidInput "end status must be COMPLETED, FAILED, or CANCELLED")
  else if match endedAt with Some t => IsZero t | None => false end then throw (Validation "ended_at" "must not be zero")
  else
    let end_ := Truncate Microsecond (default now endedAt) in
    exec ← GetExecution (envs 0%nat) tenantID executionID;
    if is_none endedAt && bool_decide (ex_Status exec = status) && negb (is_none (ex_EndedAt exec)) then mret exec
    else if Before end_ (ex_StartedAt exec) then throw (Validation "ended_at" "must be at or after started_at")
    else
      UpdateExecutionStatus (envs 1%nat) tenantID executionID status (Some end_) ;;
      exec ← GetExecution (envs 2%nat) tenantID executionID;
      if negb (is_none endedAt) && negb (bool_decide (ex_EndedAt exec = Some end_))
      then throw (AlreadyExists "execution with different ended_at" executionID)
      else mret exec.

Definition EndExecution (envs : nat -> Env) (now : Time) (tenantID executionID : string) (status : Status) : Tx Execution :=
  EndExecutionAt envs now tenantID executionID status None.
End Service.
