(* ===== verification/IngestFacts.v ===== *)
(** Facts of the ingestion service: stored metadata reads back, batches account
    for every entry, and nothing reaches another tenant's execution. *)
From S2P Require Import Prelude Errors GoTime Sha256 Json JsonFacts Canonical CanonicalFacts TimeText Float64 Execution Regex Redaction Pricing Postgres AuditStore TelemetryStore TelemetryFacts Ingestion.
Import GoTime.
Local Open Scope Z_scope.

#[local] Opaque GenerateEventID stableID.

(** * String maps survive the JSONB column *)

Section Maps.
Context `{Hj : Jsonb}.

Lemma strmap_members_keys m : map fst (strmap_members m) = map fst (map_to_list m).
Proof. unfold strmap_members. by rw map_map. Qed.

Lemma equiv_strs l m : Forall2 (fun a b => a.1 = b.1 /\ json_equiv a.2 b.2) l (strmap_members m) -> l = strmap_members m.
Proof.
  unfold strmap_members. generalize (map_to_list m). intros k. revert l.
  induction k as [|[a s] k IH]; intros l; inversion 1 as [|[a' v] ? l' ? [Ha Hv] Hl]; subst; [done|].
  cbn in Ha, Hv. subst a'. inversion Hv; subst. cbn. f_equal. by apply IH.
Qed.

Lemma members_read l m :
  l ≡ₚ strmap_members m ->
  forallb (fun kv => match kv.2 with JStr _ | JNull => true | _ => false end) l = true
  /\ list_to_map (map (fun kv => (kv.1, as_string (Some kv.2))) l) = m.
Proof.
  intros Hp. split.
  - rw (forallb_perm _ _ _ Hp). apply forallb_Forall. unfold strmap_members. apply Forall_fmap, Forall_forall. by intros [k v] _.
  - assert (E : map (fun kv => (kv.1, as_string (Some kv.2))) (strmap_members m) = map_to_list m).
    { unfold strmap_members. rw map_map. cbn. etrans; [|apply map_id]. apply map_ext. by intros [k v]. }
    etrans; [|apply list_to_map_to_list]. rw -E. apply list_to_map_proper; [|by rw Hp].
    rw -list_fmap_compose. change (NoDup (map fst l)). rw Hp strmap_members_keys. apply NoDup_fst_map_to_list.
Qed.

Lemma strmap_nesting m : nesting (strmap_json (Some m)) <= maxNestingDepth.
Proof.
  cbn. unfold strmap_members.
  assert (H : forall l : list (string * string), foldr (fun kv n => Z.max (nesting kv.2) n) 0 (map (fun kv => (kv.1, JStr kv.2)) l) = 0).
  { induction l as [|a l IH]; [done|]. cbn. cbn in IH. lia. }
  rw H. done.
Qed.

Lemma strmap_roundtrip `{!JsonbSpec} m w :
  json_wf (strmap_json (Some m)) = true -> stored_json (strmap_json (Some m)) = Some w -> read_strmap w = Some (Some m).
Proof.
  intros Hw. unfold stored_json, marshal. rw (wf_numbers_ok _ Hw). cbn [mbind option_bind].
  rw decode_render; [|done|apply strmap_nesting]. cbn [mbind option_bind]. intros Hs.
  pose proof (jsonb_equiv _ _ Hw Hs) as He. inversion He as [| | | | |l l' k Hp Hf]; subst.
  apply equiv_strs in Hf. subst l'. destruct (members_read l m Hp) as [H1 H2]. cbn [read_strmap]. rw H1.
  unfold as_strmap. by rw H2.
Qed.

Lemma equalJSON_refl v t : canonical_JSON v = Some t -> equalJSON (Some v) (Some v) = true.
Proof. intros H. unfold equalJSON. cbn [mbind option_bind]. rw H. by apply bool_decide_eq_true. Qed.

Lemma strmap_canonable m : canonable (strmap_json (Some m)) = true.
Proof. cbn. apply forallb_Forall. unfold strmap_members. apply Forall_fmap, Forall_forall. by intros [k v] _. Qed.

Lemma strmap_equalJSON m : json_wf (strmap_json (Some m)) = true ->
  equalJSON (Some (strmap_json (Some m))) (Some (strmap_json (Some m))) = true.
Proof.
  intros Hw. eapply equalJSON_refl. rw canonical_JSON_eq; [|done|apply strmap_nesting]. by rw strmap_canonable.
Qed.
End Maps.

(** * Executions *)

Section Executions.
Context `{Hj : Jsonb} (tenant_exists : string -> bool).

Lemma execution_row_fields t now e r :
  execution_row t now e = Some r ->
  xr_ID r = ex_ID e /\ xr_TenantID r = t /\ xr_AgentID r = ex_AgentID e /\ xr_AgentName r = ex_AgentName e
  /\ xr_Trigger r = ex_Trigger e /\ xr_StartedAt r = pg_ts (ex_StartedAt e)
  /\ stored_json (strmap_json (ex_Metadata e)) = Some (xr_Metadata r)
  /\ forallb text_ok [ex_ID e; t; ex_AgentID e; ex_AgentName e; ex_Status e; ex_RootSpanID e; ex_Trigger e] = true
  /\ pg_time_ok (ex_StartedAt e) = true.
Proof.
  unfold execution_row. destruct (_ && _) eqn:Hok; [|done]. intros H. apply bind_Some in H as (md & Hmd & [= <-]).
  apply andb_prop in Hok as [Hok _]. apply andb_prop in Hok as [Hok Ht]. done.
Qed.

Lemma execution_row_intro t now e v :
  forallb text_ok [ex_ID e; t; ex_AgentID e; ex_AgentName e; ex_Status e; ex_RootSpanID e; ex_Trigger e] = true ->
  pg_time_ok (ex_StartedAt e) = true -> ex_EndedAt e = None -> stored_json (strmap_json (ex_Metadata e)) = Some v ->
  exists r, execution_row t now e = Some r.
Proof. intros H1 H2 H3 H4. unfold execution_row. rw H1 H2 H3 H4. cbn. by eexists. Qed.

Lemma execution_row_any t now e r now' :
  execution_row t now e = Some r -> exists r', execution_row t now' e = Some r' /\ xr_ID r' = ex_ID e.
Proof.
  unfold execution_row. destruct (_ && _); [|done]. intros H. apply bind_Some in H as (md & -> & _). cbn. by eexists.
Qed.

(** A successful insert of an execution with a new id adds its row. *)
Lemma InsertExecution_new env now t e x d d' :
  (forall r, r ∈ t_executions d -> xr_ID r <> ex_ID e) ->
  InsertExecution tenant_exists env now t e d = (Ok x, d') ->
  exists r, x = e /\ execution_row t now e = Some r /\ d' = set_executions (t_executions d ++ [r]) d.
Proof.
  intros Hnew. unfold InsertExecution, call, insert_execution_row, mbind, tx_bind, get_db, modify, mret, tx_ret, throw.
  destruct (fails _ _); [done|]. destruct (execution_row t now e) as [r|] eqn:Hr; [|done].
  destruct (execution_row_fields _ _ _ _ Hr) as (Hi & _).
  destruct (existsb _ _) eqn:He.
  { apply existsb_exists in He as (y & Hy & Hyi%bool_decide_eq_true). exfalso. apply (Hnew y); [by apply list_elem_of_In|congruence]. }
  destruct (negb _); [done|]. intros [= <- <-]. by exists r.
Qed.

Lemma find_execution_kept d d' r id t :
  tdb_wf d' -> evolves d d' -> r ∈ t_executions d -> xr_ID r = id -> xr_TenantID r = t ->
  exists r', find_execution d' t id = Some r' /\ execution_kept r r'.
Proof.
  intros Hd Hev Hr Hi Ht. destruct (ev_executions _ _ Hev) as (old & new & He & Hk).
  apply list_elem_of_lookup in Hr as [i Hl]. destruct (Forall2_lookup_l _ _ _ _ _ Hk Hl) as (r' & Hr' & Hkept).
  assert (Hin : r' ∈ t_executions d') by (rw He; apply elem_of_app; left; by eapply list_elem_of_lookup_2).
  assert (xr_ID r' = id /\ xr_TenantID r' = t) as [Hi' Ht'] by (destruct Hkept as [-> |[_ ->]]; done).
  exists r'. split; [|done]. unfold find_execution.
  assert (Hf : r' ∈ filter (fun x => xr_ID x = id /\ xr_TenantID x = t) (t_executions d')) by by apply list_elem_of_filter.
  destruct (filter _ _) as [|y l] eqn:Hfl; [by apply not_elem_of_nil in Hf|]. cbn. f_equal.
  assert (Hy : y ∈ filter (fun x => xr_ID x = id /\ xr_TenantID x = t) (t_executions d')) by (rw Hfl; by left).
  apply list_elem_of_filter in Hy as [[Hyi _] Hy]. pose proof (wf_exec_ids d' Hd) as Hn.
  apply list_elem_of_lookup in Hin as [j Hj1], Hy as [k Hk1].
  assert (j = k); [|congruence]. apply (NoDup_lookup (map xr_ID (t_executions d')) j k id); [done| |]; rw list_lookup_fmap.
  - by rw Hj1 -Hi'.
  - by rw Hk1 -Hyi.
Qed.

(** Re-inserting an execution the database kept answers with the stored one. *)
Lemma InsertExecution_again `{!JsonbSpec} env now now0 t e e0 d d' r m row' :
  tdb_wf d' -> evolves d d' -> r ∈ t_executions d -> execution_row t now0 e0 = Some r ->
  ex_ID e = ex_ID e0 -> ex_AgentID e = ex_AgentID e0 -> ex_AgentName e = ex_AgentName e0 ->
  ex_Trigger e = ex_Trigger e0 -> ex_Metadata e = Some m -> ex_Metadata e0 = Some m ->
  json_wf (strmap_json (Some m)) = true -> (forall c, fails env c = false) ->
  execution_row t now e = Some row' ->
  exists x r', (forall now', InsertExecution tenant_exists env now' t e d' = (Ok x, d'))
    /\ execution_kept r r' /\ x = scanExecution r' (Some m).
Proof.
  intros Hd Hev Hr Hrow Hid Hag Han Htr Hm Hm0 Hw Hf Hnow.
  destruct (execution_row_fields _ _ _ _ Hrow) as (I & T & A & N & G & S & M & Tx0 & _).
  destruct (find_execution_kept d d' r (ex_ID e0) t Hd Hev Hr I T) as (r' & Hfind & Hk).
  rw Hm0 in M. pose proof (strmap_roundtrip m _ Hw M) as Hread.
  exists (scanExecution r' (Some m)), r'. split; [|by split]. intros now'.
  unfold InsertExecution, call, insert_execution_row, mbind, tx_bind, get_db, modify, mret, tx_ret, throw. rw !Hf.
  destruct (execution_row_any _ _ _ _ now' Hnow) as (row2 & -> & Hrid).
  assert (Hex : existsb (fun x => bool_decide (xr_ID x = xr_ID row2)) (t_executions d') = true).
  { apply existsb_exists. exists r'. unfold find_execution in Hfind. apply head_Some_elem_of in Hfind.
    apply list_elem_of_filter in Hfind as [[Hri _] Hin]. split; [by apply list_elem_of_In|]. apply bool_decide_eq_true. congruence. }
  rw Hex. assert (Hget : GetExecution env t (ex_ID e) d' = (Ok (scanExecution r' (Some m)), d')).
  { unfold GetExecution, call, mbind, tx_bind, get_db, mret, tx_ret. rw Hf Hid.
    cbn [forallb] in Tx0. apply andb_prop in Tx0 as [-> Tx1]. apply andb_prop in Tx1 as [-> _]. cbn [andb negb].
    rw Hfind. assert (xr_Metadata r' = xr_Metadata r) as -> by (destruct Hk as [-> |[_ ->]]; done). by rw Hread. }
  rw Hget. cbn [ex_AgentID ex_AgentName ex_Trigger ex_Metadata scanExecution].
  assert (xr_AgentID r' = ex_AgentID e /\ xr_AgentName r' = ex_AgentName e /\ xr_Trigger r' = ex_Trigger e) as (-> & -> & ->).
  { destruct Hk as [-> |[_ ->]]; cbn; split_and!; congruence. }
  rw !bool_decide_eq_true_2; [|done..]. by rw Hm strmap_equalJSON.
Qed.
End Executions.

(** * Batches *)

Section Batches.
Context `{Hj : Jsonb} (collate : list string -> list string) (lower : string -> string)
  (active : gmap string pricing) (entries : list (string * pricing)) (redactOn : bool).

Lemma ingest_loop_count {A} (step : nat -> A -> TDB -> option IngestError * TDB) n l d :
  let '((accepted, errors), _) := ingest_loop step n l d in
  0 <= accepted /\ accepted + Z.of_nat (length errors) = Z.of_nat (length l).
Proof.
  revert n d. induction l as [|x l IH]; intros n d; cbn [ingest_loop]; [done|].
  destruct (step n x d) as [r d1]. specialize (IH (S n) d1). destruct (ingest_loop step (S n) l d1) as [[a e] d2].
  destruct r; cbn [length]; lia.
Qed.

Lemma ingest_loop_advances {A} (step : nat -> A -> TDB -> option IngestError * TDB) n l d :
  (forall n x d, tdb_wf d -> advances d (step n x d).2) -> tdb_wf d -> advances d (ingest_loop step n l d).2.
Proof.
  intros Hs. revert n d. induction l as [|x l IH]; intros n d Hd; cbn [ingest_loop]; [by apply advances_refl|].
  pose proof (Hs n x d Hd) as H1. destruct (step n x d) as [r d1]. cbn [snd] in H1.
  pose proof (IH (S n) d1 (proj1 H1)) as H2. destruct (ingest_loop step (S n) l d1) as [[a e] d2]. cbn [snd] in H2 |- *.
  destruct H1 as (_ & E1 & R1), H2 as (W2 & E2 & R2). split; [done|]. split; [by etrans|auto].
Qed.

(** A batch in which every entry was accepted. *)
Lemma ingest_loop_all {A} (P : A -> TDB -> Prop) (step : nat -> A -> TDB -> option IngestError * TDB) n l d :
  (forall n x d, tdb_wf d -> advances d (step n x d).2) -> (forall x d d', advances d d' -> P x d -> P x d') ->
  (forall n x d, tdb_wf d -> (step n x d).1 = None -> P x (step n x d).2) -> tdb_wf d ->
  let '((accepted, _), d') := ingest_loop step n l d in accepted = Z.of_nat (length l) -> forall x, x ∈ l -> P x d'.
Proof.
  intros Hs Hm Hp. revert n d. induction l as [|x l IH]; intros n d Hd; cbn [ingest_loop]; [by intros _ x ?%not_elem_of_nil|].
  pose proof (Hs n x d Hd) as Ha. pose proof (Hp n x d Hd) as Hx. pose proof (ingest_loop_count step (S n) l (step n x d).2) as Hc.
  pose proof (ingest_loop_advances step (S n) l (step n x d).2 Hs (proj1 Ha)) as Hl.
  destruct (step n x d) as [r d1]. cbn [fst snd] in *. specialize (IH (S n) d1 (proj1 Ha)).
  destruct (ingest_loop step (S n) l d1) as [[a e] d2]. cbn [snd] in Hl. destruct r as [err|]; cbn [length]; [lia|].
  intros Hn y [->|Hy]%elem_of_cons; [by eapply Hm; [exact Hl|]; apply Hx|]. apply IH; [lia|done].
Qed.

Lemma ingest_span_advances env x s d :
  tdb_wf d -> advances d (ingest_span collate lower active entries redactOn env x s d).2.
Proof.
  intros Hd. unfold ingest_span. destruct s as [s|]; [|by apply advances_refl].
  destruct (ValidateSpan _); [|by apply advances_refl].
  pose proof (InsertSpan_advances collate env (prepare_span lower active entries redactOn x s) d Hd) as H.
  by destruct (InsertSpan _ _ _ d) as [[u|e] d'].
Qed.

Lemma ingest_span_stored env x o d :
  tdb_wf d -> (ingest_span collate lower active entries redactOn env x o d).1 = None ->
  exists s, o = Some s
    /\ has_span (ingest_span collate lower active entries redactOn env x o d).2 (sp_ID (prepare_span lower active entries redactOn x s)) x.
Proof.
  intros Hd. unfold ingest_span. destruct o as [s|]; [|done]. destruct (ValidateSpan _); [|done].
  set (p := prepare_span _ _ _ _ _ _). assert (Hx : sp_ExecutionID p = x).
  { unfold p, prepare_span, redactSpan, enrichModelInvocationCost. destruct redactOn; repeat case_match; done. }
  destruct (InsertSpan _ _ _ d) as [[u|e] d'] eqn:Hi; [|done]. cbn. intros _. exists s. split; [done|].
  destruct (InsertSpan_stored collate env p d d' u Hd Hi) as [_ Hh]. by rw Hx in Hh.
Qed.

Lemma ingest_event_advances env x e d :
  tdb_wf d -> advances d (ingest_event redactOn env x e d).2.
Proof.
  intros Hd. unfold ingest_event. destruct e as [e|]; [|by apply advances_refl].
  destruct (ValidateEvent _); [|by apply advances_refl].
  pose proof (InsertEvent_advances env (prepare_event redactOn x e) d Hd) as H.
  by destruct (InsertEvent _ _ d) as [[u|err] d'].
Qed.

Lemma GetExecution_missing env t x d : find_execution d t x = None -> is_ok (GetExecution env t x d).1 = false.
Proof.
  intros H. unfold GetExecution, call, mbind, tx_bind, get_db. destruct (fails _ _); [done|].
  destruct (negb _); [done|]. by rw H.
Qed.

Lemma IngestSpans_advances envs t x spans d :
  tdb_wf d -> advances d (IngestSpans collate lower active entries redactOn envs t x spans d).2.
Proof.
  intros Hd. unfold IngestSpans. pose proof (GetExecution_db (envs 0%nat) t x d) as Hg.
  destruct (GetExecution _ t x d) as [[e|e] d1]; cbn in Hg; subst d1; [|by apply advances_refl].
  apply ingest_loop_advances; [|done]. intros n s d1. apply ingest_span_advances.
Qed.

(** A batch of spans that is accepted in full is stored in full, in an execution of the tenant. *)
Lemma IngestSpans_stored envs t x spans d :
  tdb_wf d -> spans <> [] ->
  let '((accepted, _), d') := IngestSpans collate lower active entries redactOn envs t x spans d in
  accepted = Z.of_nat (length spans) ->
  find_execution d t x <> None
  /\ forall o, o ∈ spans -> exists s, o = Some s /\ has_span d' (sp_ID (prepare_span lower active entries redactOn x s)) x.
Proof.
  intros Hd Hne. unfold IngestSpans. pose proof (GetExecution_db (envs 0%nat) t x d) as Hg.
  pose proof (GetExecution_missing (envs 0%nat) t x d) as Hmiss.
  destruct (GetExecution _ t x d) as [[e|e] d1]; cbn in Hg, Hmiss; subst d1.
  2:{ destruct spans; [done|]. cbn [length]. lia. }
  pose proof (ingest_loop_all (fun o d => exists s, o = Some s /\ has_span d (sp_ID (prepare_span lower active entries redactOn x s)) x)
    (fun n => ingest_span collate lower active entries redactOn (envs n) x) 1 spans d) as H.
  destruct (ingest_loop _ 1 spans d) as [[a errs] d']. intros Ha. split; [intros Hf; by specialize (Hmiss Hf)|].
  apply H; [|..|done|done].
  - intros n s d1. apply ingest_span_advances.
  - intros o d1 d2 (_ & He & _) (s & -> & Hs). exists s. split; [done|]. by eapply has_span_kept.
  - intros n o d1 Hd1 Hn. by apply ingest_span_stored.
Qed.

Lemma IngestEvents_advances envs t x events d :
  tdb_wf d -> advances d (IngestEvents redactOn envs t x events d).2.
Proof.
  intros Hd. unfold IngestEvents. pose proof (GetExecution_db (envs 0%nat) t x d) as Hg.
  destruct (GetExecution _ t x d) as [[e|e] d1]; cbn in Hg; subst d1; [|by apply advances_refl].
  apply ingest_loop_advances; [|done]. intros n s d1. apply ingest_event_advances.
Qed.

Lemma EndExecutionAt_advances envs now t x st en d :
  tdb_wf d -> advances d (EndExecutionAt envs now t x st en d).2.
Proof.
  intros Hd. unfold EndExecutionAt. destruct (negb _); [by apply advances_refl|].
  destruct (match en with Some _ => _ | None => _ end); [by apply advances_refl|].
  cbv zeta. set (end_ := Truncate _ _). unfold mbind, tx_bind at 1.
  pose proof (GetExecution_db (envs 0%nat) t x d) as Hg.
  destruct (GetExecution (envs 0%nat) t x d) as [[e|e] d1]; cbn in Hg; subst d1; [|by apply advances_refl].
  destruct (_ && _); [by apply advances_refl|]. destruct (Before _ _); [by apply advances_refl|].
  unfold tx_bind. pose proof (UpdateExecutionStatus_advances (envs 1%nat) t x st (Some end_) d Hd) as Hu.
  destruct (UpdateExecutionStatus _ _ _ _ _ d) as [[[]|err] d1]; cbn [snd] in Hu; [|done].
  pose proof (GetExecution_db (envs 2%nat) t x d1) as Hg.
  destruct (GetExecution (envs 2%nat) t x d1) as [[e2|e2] d2]; cbn in Hg; subst d2; [|done].
  by destruct (_ && _).
Qed.
Lemma StartExecution_advances tenant_exists env now dbnow t req d :
  tdb_wf d -> advances d (StartExecution tenant_exists redactOn env now dbnow t req d).2.
Proof.
  intros Hd. unfold StartExecution. set (e := new_execution _ _ _ _). unfold mbind, tx_bind.
  destruct (ValidateExecution e); cbn [lift_res]; [|by apply advances_refl]. unfold mret at 1, tx_ret.
  pose proof (InsertExecution_advances tenant_exists env dbnow t e d Hd) as H.
  destruct (InsertExecution _ _ _ _ _ d) as [[x|err] d1]; cbn [snd] in H; [|done]. by destruct (_ && _).
Qed.
End Batches.
