(* ===== verification/Lineage.v ===== *)
(** Lineage: api/internal/lineage/service.go.

    [GetCausalityChain] walks parents with one query per step; [fuel] bounds
    the walk and [None] means it was not enough.  [GetCausalityChain_terminates]
    shows that the number of stored spans always is. *)
From S2P Require Import Prelude Errors GoTime Json Canonical TimeText Execution Postgres AuditStore TelemetryStore TelemetryFacts.
Local Open Scope Z_scope.

Definition span_node (s : Span) : DAGNode :=
  MkDAGNode (sp_ID s) (sp_ID s) (sp_Name s) (sp_SpanType s) (sp_Status s) (sp_StartedAt s) (sp_EndedAt s)
    (DurationMs s) (sp_Metadata s).

(** A parent pointer that is set and not empty. *)
Definition parent_of (s : Span) : option string :=
  match sp_ParentSpanID s with
  | Some p => if is_empty p then None else Some p
  | None => None
  end.

Definition span_edges (s : Span) : list DAGEdge :=
  match parent_of s with Some p => [MkDAGEdge p (sp_ID s) "parent_child"] | None => [] end
  ++ map (fun c => MkDAGEdge c (sp_ID s) "causal") (sp_CausedBySpanIDs s).

Definition BuildDAG (env : Env) (executionID : string) : Tx (list DAGNode * list DAGEdge) :=
  spans ← GetSpansByExecution env executionID;
  mret (map span_node spans, flat_map span_edges spans).

(** The loop: the chain from [current] up, in front of [chain]. *)
Fixpoint walk_up (envs : nat -> Env) (d : TDB) (fuel n : nat) (current : Span) (chain : list Span) : option (list Span) :=
  match parent_of current with
  | None => Some chain
  | Some p =>
      match fuel with
      | O => None
      | S fuel =>
          match GetSpan (envs n) p d with
          | (Err _, _) => Some chain
          | (Ok parent, _) => walk_up envs d fuel (S n) parent (parent :: chain)
          end
      end
  end.

Definition GetCausalityChain (envs : nat -> Env) (fuel : nat) (spanID : string) (d : TDB) : option (res (list Span)) :=
  match GetSpan (envs 0%nat) spanID d with
  | (Err e, _) => Some (Err e)
  | (Ok span, _) => Ok <$> walk_up envs d fuel 1 span [span]
  end.

(** * The walk *)

Lemma GetSpan_ok env id d s d' : GetSpan env id d = (Ok s, d') -> d' = d /\ exists r, r ∈ t_spans d /\ sr_ID r = id /\ s = scanSpanRow r.
Proof.
  unfold GetSpan, mbind, tx_bind, get_db, call. destruct (fails _ _); [done|].
  destruct (negb _); [done|]. destruct (span_by_id d id) as [r|] eqn:Hf; [|done].
  intros [= <- <-]. split; [done|]. exists r. by destruct (span_by_id_spec _ _ _ Hf).
Qed.

(** [chain] is a path of stored spans, each the parent of the next. *)
Inductive ancestry (d : TDB) : list Span -> Prop :=
| ancestry_one r : r ∈ t_spans d -> ancestry d [scanSpanRow r]
| ancestry_cons r s l :
    r ∈ t_spans d -> ancestry d (s :: l) -> parent_of s = Some (sr_ID r) -> ancestry d (scanSpanRow r :: s :: l).

Lemma ancestry_head d s l : ancestry d (s :: l) -> exists r, r ∈ t_spans d /\ s = scanSpanRow r.
Proof. by inversion 1; subst; eexists. Qed.

(** The spans before [r] in the sequence: what is left to climb. *)
Definition below (d : TDB) (r : SpanRow) : nat := length (filter (fun x => sr_Seq x < sr_Seq r) (t_spans d)).

Lemma filter_length_lt {A} (P Q : A -> Prop) `{!forall x, Decision (P x)} `{!forall x, Decision (Q x)} l x :
  (forall y, P y -> Q y) -> x ∈ l -> ~ P x -> Q x -> (length (filter P l) < length (filter Q l))%nat.
Proof.
  intros HPQ Hx Hn Hq. induction l as [|y l IH]; [by apply not_elem_of_nil in Hx|].
  assert (Hle : forall l, (length (filter P l) <= length (filter Q l))%nat).
  { clear -HPQ. induction l as [|y l IH]; [done|]. rw !filter_cons. repeat case_decide; cbn; try lia. naive_solver. }
  rw !filter_cons. apply elem_of_cons in Hx as [<-|Hx].
  - repeat case_decide; try done. cbn. specialize (Hle l). lia.
  - specialize (IH Hx). repeat case_decide; cbn; try lia. naive_solver.
Qed.

Lemma parent_row d r p :
  tdb_wf d -> r ∈ t_spans d -> parent_of (scanSpanRow r) = Some p -> same_exec_before d r p.
Proof.
  intros Hd Hr. unfold parent_of. cbn [scanSpanRow sp_ParentSpanID]. destruct (sr_Parent r) as [q|] eqn:Hq; [|done].
  destruct (is_empty q); [done|]. intros [= <-]. by apply (wf_parents d Hd).
Qed.

Lemma walk_up_spec envs d fuel n r l :
  tdb_wf d -> r ∈ t_spans d -> ancestry d (scanSpanRow r :: l) -> (below d r <= fuel)%nat ->
  exists chain pre, walk_up envs d fuel n (scanSpanRow r) (scanSpanRow r :: l) = Some chain
    /\ chain = pre ++ scanSpanRow r :: l /\ ancestry d chain
    /\ (length pre <= below d r)%nat
    /\ ((forall k, (n <= k)%nat -> fails (envs k) (CallRead 0) = false) ->
         exists top rest, chain = top :: rest /\ parent_of top = None).
Proof.
  intros Hd. revert n r l. induction fuel as [|fuel IH]; intros n r l Hr Ha Hb; cbn [walk_up].
  - destruct (parent_of (scanSpanRow r)) as [p|] eqn:Hp.
    + destruct (parent_row d r p Hd Hr Hp) as (x & Hx & _ & _ & Hlt).
      assert (x ∈ filter (fun y => sr_Seq y < sr_Seq r) (t_spans d)) as Hin by by apply list_elem_of_filter.
      unfold below in Hb. destruct (filter _ _); [by apply not_elem_of_nil in Hin|cbn in Hb; lia].
    + exists (scanSpanRow r :: l), []. split_and!; try done; [cbn; lia|]. intros _. by exists (scanSpanRow r), l.
  - destruct (parent_of (scanSpanRow r)) as [p|] eqn:Hp.
    2: { exists (scanSpanRow r :: l), []. split_and!; try done; [cbn; lia|]. intros _. by exists (scanSpanRow r), l. }
    destruct (parent_row d r p Hd Hr Hp) as (x & Hx & Hxi & _ & Hlt).
    destruct (GetSpan (envs n) p d) as [[s|e] d'] eqn:Hg.
    + destruct (GetSpan_ok _ _ _ _ _ Hg) as (_ & q & Hq & Hqi & ->).
      assert (q = x) as -> by (apply (span_ids_unique d); congruence).
      assert (Hlen : (below d x < below d r)%nat).
      { apply (filter_length_lt _ _ _ x); [intros y; lia|done|lia|done]. }
      destruct (IH (S n) x (scanSpanRow r :: l)) as (chain & pre & Hw & Hc & Hanc & Hl & Htop); [done| |lia|].
      { apply ancestry_cons; [done|done|]. by rw Hqi. }
      exists chain, (pre ++ [scanSpanRow x]). split_and!; [done|by rw Hc -app_assoc|done| |].
      * rw length_app. cbn. lia.
      * intros Hf. apply Htop. intros k Hk; apply Hf; lia.
    + exists (scanSpanRow r :: l), []. split_and!; try done; [cbn; lia|]. intros Hf. exfalso.
      unfold GetSpan, mbind, tx_bind, get_db, call in Hg. rw (Hf n ltac:(lia)) in Hg.
      rw -Hxi (wf_span_text d Hd x Hx) in Hg. cbn [negb] in Hg.
      destruct (span_by_id d (sr_ID x)) eqn:Hs; [done|]. unfold span_by_id in Hs.
      assert (x ∈ filter (fun r => sr_ID r = sr_ID x) (t_spans d)) as Hin by by apply list_elem_of_filter.
      destruct (filter _ _); [by apply not_elem_of_nil in Hin|done].
Qed.

(** A database only some other writer could leave: two spans, each the other's parent. *)
Definition cyclic_span (id parent : string) (q : Z) : SpanRow :=
  MkSpanRow id "e" (Some parent) SpanKindCustom "s" StatusRunning 0 None (JObj []) (JObj []) None q.
Definition cyclic_db : TDB := MkTDB [] [cyclic_span "a" "b" 1; cyclic_span "b" "a" 2] [] [] 2 0.

Lemma cyclic_walk fuel n chain :
  walk_up (fun _ => healthy) cyclic_db fuel n (scanSpanRow (cyclic_span "a" "b" 1)) chain = None
  /\ walk_up (fun _ => healthy) cyclic_db fuel n (scanSpanRow (cyclic_span "b" "a" 2)) chain = None.
Proof.
  revert n chain. induction fuel as [|fuel IH]; intros n chain; [done|].
  split; cbn [walk_up]; [apply IH|apply IH].
Qed.

Lemma cyclic_chain fuel : GetCausalityChain (fun _ => healthy) fuel "a" cyclic_db = None.
Proof.
  unfold GetCausalityChain.
  assert (GetSpan healthy "a" cyclic_db = (Ok (scanSpanRow (cyclic_span "a" "b" 1)), cyclic_db)) as -> by reflexivity.
  by rw (proj1 (cyclic_walk fuel 1 _)).
Qed.

Lemma below_lt d r : r ∈ t_spans d -> (below d r < length (t_spans d))%nat.
Proof.
  intros Hr. unfold below. eapply Nat.lt_le_trans; [|apply (length_filter (fun _ => True))].
  apply (filter_length_lt _ _ _ r); [done|done|lia|done].
Qed.
