(* ===== verification/Query.v ===== *)
(** Reads scoped to a tenant, api/internal/query/service.go, and the replay of an
    execution, api/internal/replay/service.go. *)
From S2P Require Import Prelude Errors GoTime Json Canonical TimeText Execution Postgres AuditStore TelemetryStore TelemetryFacts Lineage.
Import GoTime.
Local Open Scope Z_scope.

Record ListExecutionsRequest := MkListRequest { lr_PageSize : Z; lr_Offset : Z; lr_AgentID : string; lr_Status : string }.
Record ListExecutionsResponse := MkListResponse { ls_Executions : list Execution; ls_Total : Z; ls_PageSize : Z; ls_Offset : Z }.

(** Each operation's store calls run in [envs 0], [envs 1], ... *)
Definition query_GetExecution (envs : nat -> Env) (tenantID executionID : string) : Tx Execution :=
  GetExecution (envs 0%nat) tenantID executionID.

Definition page_size (n : Z) : Z := Z.min 100 (if n <=? 0 then 20 else n).

Definition query_ListExecutions (envs : nat -> Env) (tenantID : string) (req : ListExecutionsRequest) : Tx ListExecutionsResponse :=
  let size := page_size (lr_PageSize req) in
  '(executions, total) ← ListExecutions (envs 0%nat) tenantID (lr_AgentID req) (lr_Status req) size (lr_Offset req);
  mret (MkListResponse executions total size (lr_Offset req)).

Definition query_GetSpan (envs : nat -> Env) (tenantID spanID : string) : Tx (Span * list ExecutionEvent) :=
  span ← GetSpan (envs 0%nat) spanID;
  GetExecution (envs 1%nat) tenantID (sp_ExecutionID span) ;;
  events ← GetEventsBySpan (envs 2%nat) spanID;
  mret (span, events).

Definition query_GetSpansByExecution (envs : nat -> Env) (tenantID executionID : string) : Tx (list Span) :=
  GetExecution (envs 0%nat) tenantID executionID ;;
  GetSpansByExecution (envs 1%nat) executionID.

Definition GetExecutionDAG (envs : nat -> Env) (tenantID executionID : string) : Tx (list DAGNode * list DAGEdge) :=
  GetExecution (envs 0%nat) tenantID executionID ;;
  BuildDAG (envs 1%nat) executionID.

Definition GetSpanEvents (envs : nat -> Env) (tenantID spanID : string) : Tx (list ExecutionEvent) :=
  span ← GetSpan (envs 0%nat) spanID;
  GetExecution (envs 1%nat) tenantID (sp_ExecutionID span) ;;
  GetEventsBySpan (envs 2%nat) spanID.

(** * Replay *)


Record ReplayRequest := MkReplayRequest {
  rr_ExecutionID : string; rr_FromSequence : Z; rr_ToSequence : Z; rr_SpanIDs : list string
}.
Record ReplayResponse := MkReplayResponse {
  rp_DurationMs : Z; rp_Execution : Execution; rp_Frames : list ReplayFrame; rp_TotalFrames : Z
}.

(** [spanMap]: a later span of the same id replaces an earlier one. *)
Definition span_map (spans : list Span) : gmap string Span :=
  fold_left (fun m s => <[sp_ID s := s]> m) spans ∅.

Definition in_sequence_range (req : ReplayRequest) (e : ExecutionEvent) : bool :=
  negb ((0 <? rr_FromSequence req) && (ee_SequenceNumber e <? rr_FromSequence req))
  && negb ((0 <? rr_ToSequence req) && (rr_ToSequence req <? ee_SequenceNumber e)).

(** The two filters. *)
Definition select_events (req : ReplayRequest) (events : list ExecutionEvent) : list ExecutionEvent :=
  let events := match rr_SpanIDs req with [] => events | ids => filter (fun e => ee_SpanID e ∈ ids) events end in
  if (0 <? rr_FromSequence req) || (0 <? rr_ToSequence req)
  then filter (fun e => in_sequence_range req e = true) events else events.

(** Recorded time, then ingestion sequence: the order of [sort.SliceStable]. *)
Definition replay_le (a b : ExecutionEvent) : Prop :=
  ee_Timestamp a < ee_Timestamp b \/ (ee_Timestamp a = ee_Timestamp b /\ ee_SequenceNumber a <= ee_SequenceNumber b).
Global Instance replay_le_dec a b : Decision (replay_le a b).
Proof. unfold replay_le. apply _. Defined.
Definition sort_events (l : list ExecutionEvent) : list ExecutionEvent := merge_sort replay_le l.

Definition non_negative (z : Z) : Z := if z <? 0 then 0 else z.

Definition frame_of (spans : gmap string Span) (started prev : Time) (e : ExecutionEvent) : ReplayFrame :=
  let span := spans !! ee_SpanID e in
  MkReplayFrame (ee_SequenceNumber e) (ee_EventType e) (ee_SpanID e)
    (match span with Some s => sp_Name s | None => "" end) (match span with Some s => sp_SpanType s | None => "" end)
    e (non_negative (Milliseconds (Sub (ee_Timestamp e) prev))) (non_negative (Milliseconds (Sub (ee_Timestamp e) started))).

Fixpoint build_frames (spans : gmap string Span) (started prev : Time) (l : list ExecutionEvent) : list ReplayFrame :=
  match l with
  | [] => []
  | e :: l => frame_of spans started prev e :: build_frames spans started (ee_Timestamp e) l
  end.

Definition replay_duration (exec : Execution) (frames : list ReplayFrame) : Z :=
  let duration := match ex_EndedAt exec with Some t => Milliseconds (Sub t (ex_StartedAt exec)) | None => 0 end in
  let duration := match last frames with
                  | Some f => if duration <? rf_ElapsedMs f then rf_ElapsedMs f else duration
                  | None => duration
                  end in
  non_negative duration.

Definition ReplayExecution (envs : nat -> Env) (tenantID : string) (req : ReplayRequest) : Tx ReplayResponse :=
  exec ← GetExecution (envs 0%nat) tenantID (rr_ExecutionID req);
  events ← GetEventsByExecution (envs 1%nat) (rr_ExecutionID req);
  spans ← GetSpansByExecution (envs 2%nat) (rr_ExecutionID req);
  let frames := build_frames (span_map spans) (ex_StartedAt exec) (ex_StartedAt exec)
                  (sort_events (select_events req events)) in
  mret (MkReplayResponse (replay_duration exec frames) exec frames (Z.of_nat (length frames))).

(** * Facts *)

Global Instance replay_le_trans : Transitive replay_le.
Proof. unfold replay_le. intros a b c. lia. Qed.
Global Instance replay_le_total : Total replay_le.
Proof. unfold replay_le. intros a b. lia. Qed.

Lemma Sub_mono a b s : a <= b -> Sub a s <= Sub b s.
Proof. unfold Sub, saturate. lia. Qed.
Lemma Milliseconds_mono a b : a <= b -> Milliseconds a <= Milliseconds b.
Proof. unfold Milliseconds, Millisecond. intros H. apply Z.quot_le_mono; lia. Qed.
Lemma non_negative_mono a b : a <= b -> non_negative a <= non_negative b.
Proof. unfold non_negative. destruct (Z.ltb_spec a 0), (Z.ltb_spec b 0); lia. Qed.
Lemma non_negative_pos z : 0 <= non_negative z.
Proof. unfold non_negative. destruct (Z.ltb_spec z 0); lia. Qed.

Lemma build_frames_events spans started prev l : map rf_Event (build_frames spans started prev l) = l.
Proof. revert prev. induction l as [|e l IH]; intros prev; cbn; [done|]. by rw IH. Qed.

Lemma build_frames_elem spans started prev l f :
  f ∈ build_frames spans started prev l -> exists e p, e ∈ l /\ f = frame_of spans started p e.
Proof.
  revert prev. induction l as [|e l IH]; intros prev; cbn; [by intros ?%not_elem_of_nil|].
  intros [-> |Hf]%elem_of_cons; [exists e, prev; split; [by left|done]|].
  destruct (IH _ Hf) as (e' & p & He & ->). exists e', p. split; [by right|done].
Qed.

(** The recorded time of the [i]th frame, and of its predecessor; the first one follows the start. *)
Definition frame_time (f : ReplayFrame) : Time := ee_Timestamp (rf_Event f).
Definition time_before (started : Time) (frames : list ReplayFrame) (i : nat) : Time :=
  match i with O => started | S j => match frames !! j with Some g => frame_time g | None => started end end.

Lemma build_frames_times spans started prev l i f :
  build_frames spans started prev l !! i = Some f ->
  rf_ElapsedMs f = non_negative (Milliseconds (Sub (frame_time f) started))
  /\ rf_DeltaMs f = non_negative (Milliseconds (Sub (frame_time f) (time_before prev (build_frames spans started prev l) i))).
Proof.
  revert prev i. induction l as [|e l IH]; intros prev i; [done|]. destruct i as [|i]; cbn; [by intros [= <-]|].
  intros Hf. destruct (IH _ _ Hf) as [He Hd]. split; [done|]. rw Hd. f_equal. f_equal. f_equal.
  destruct i as [|i]; [done|]. cbn. destruct (build_frames spans started (ee_Timestamp e) l !! i) eqn:E; [done|].
  apply lookup_ge_None in E. apply lookup_lt_Some in Hf. lia.
Qed.

(** The elapsed time of the frames never goes back. *)
Lemma build_frames_elapsed spans started prev l :
  StronglySorted replay_le l -> StronglySorted (fun f g => rf_ElapsedMs f <= rf_ElapsedMs g) (build_frames spans started prev l).
Proof.
  intros Hs. revert prev. induction Hs as [|e l Hl IH He]; intros prev; cbn; [constructor|]. constructor; [apply IH|].
  apply Forall_forall. intros f (e' & p & He' & ->)%build_frames_elem. rw Forall_forall in He. specialize (He e' He').
  cbn. apply non_negative_mono, Milliseconds_mono, Sub_mono. destruct He; lia.
Qed.

Lemma last_max {A} (key : A -> Z) l x :
  StronglySorted (fun a b => key a <= key b) l -> x ∈ l -> exists y, last l = Some y /\ key x <= key y.
Proof.
  intros Hs. revert x. induction Hs as [|a l Hl IH Ha]; intros x Hx; [by apply not_elem_of_nil in Hx|].
  destruct l as [|b l]; [exists a; split; [done|]; apply list_elem_of_singleton in Hx; subst; lia|].
  change (last (a :: b :: l)) with (last (b :: l)). apply elem_of_cons in Hx as [-> |Hx]; [|by apply IH].
  destruct (IH b ltac:(by left)) as (y & Hy & Hby). exists y. split; [done|].
  rw Forall_forall in Ha. specialize (Ha b ltac:(by left)). cbn in Ha. lia.
Qed.

Lemma replay_duration_bounds exec frames f :
  StronglySorted (fun f g => rf_ElapsedMs f <= rf_ElapsedMs g) frames ->
  0 <= replay_duration exec frames /\ (f ∈ frames -> rf_ElapsedMs f <= replay_duration exec frames).
Proof.
  intros Hs. unfold replay_duration. split; [apply non_negative_pos|]. intros Hf.
  destruct (last_max rf_ElapsedMs _ _ Hs Hf) as (y & -> & Hy). unfold non_negative.
  repeat case_match; lia.
Qed.
