(* ===== verification/QueryFacts.v ===== *)
(** What the read operations return. *)
From S2P Require Import Prelude Errors GoTime Json Canonical TimeText Execution Postgres AuditStore TelemetryStore TelemetryFacts Lineage Query.
Local Open Scope Z_scope.

Lemma sorted_lookup_lt {A} (R : relation A) l i j a b :
  StronglySorted R l -> l !! i = Some a -> l !! j = Some b -> (i < j)%nat -> R a b.
Proof.
  intros Hs. revert i j. induction Hs as [|x l Hl IH Hx]; intros i j; [done|].
  destruct i as [|i], j as [|j]; cbn; try lia.
  - intros [= ->] Hj _. rw Forall_forall in Hx. apply Hx. by eapply list_elem_of_lookup_2.
  - intros Hi Hj Hlt. apply (IH i j); [done..|lia].
Qed.

(** The execution [x] is one of the tenant's. *)
Definition owned (d : TDB) (t x : string) : Prop :=
  exists r, r ∈ t_executions d /\ xr_ID r = x /\ xr_TenantID r = t.

Lemma GetExecution_ok env t x d e d' :
  GetExecution env t x d = (Ok e, d') -> d' = d /\ owned d t x /\ ex_ID e = x.
Proof.
  unfold GetExecution, call, mbind, tx_bind, get_db. destruct (fails _ _); [done|]. destruct (negb _); [done|].
  destruct (find_execution d t x) as [r|] eqn:Hf; [|done]. destruct (read_strmap _); [|done]. intros [= <- <-].
  unfold find_execution in Hf. apply head_Some_elem_of, list_elem_of_filter in Hf as [[Hi Ht] Hr].
  split; [done|]. split; [by exists r|done].
Qed.

Definition span_view (d : TDB) (r : SpanRow) : Span :=
  match causes_of d (sr_ID r) with [] => scanSpan r | edges => set_CausedBy edges (scanSpan r) end.

Lemma span_view_fields d r :
  sp_ID (span_view d r) = sr_ID r /\ sp_ExecutionID (span_view d r) = sr_ExecutionID r
  /\ sp_ParentSpanID (span_view d r) = sr_Parent r /\ sp_Name (span_view d r) = sr_Name r
  /\ sp_SpanType (span_view d r) = sr_SpanType r /\ sp_CausedBySpanIDs (span_view d r) = causes_of d (sr_ID r).
Proof. unfold span_view. by destruct (causes_of d (sr_ID r)). Qed.

Lemma GetSpansByExecution_ok env x d l d' :
  GetSpansByExecution env x d = (Ok l, d') -> d' = d /\ l = map (span_view d) (execution_spans d x).
Proof.
  unfold GetSpansByExecution, call, mbind, tx_bind, get_db, mret, tx_ret, throw. destruct (fails _ _); [done|].
  destruct (text_ok x); [|done]. destruct (fails _ _); [done|]. intros [= <- <-]. by split.
Qed.

Lemma elem_execution_spans d x r : r ∈ execution_spans d x <-> r ∈ t_spans d /\ sr_ExecutionID r = x.
Proof. unfold execution_spans. rw elem_of_order_by list_elem_of_filter. naive_solver. Qed.

Lemma execution_spans_sorted d x : tdb_wf d -> StronglySorted (key_lt sr_Seq) (execution_spans d x).
Proof.
  intros Hd. unfold execution_spans. assert (Hs : StronglySorted (key_lt sr_Seq) (filter (fun r => sr_ExecutionID r = x) (t_spans d))).
  { apply StronglySorted_filter, (wf_span_order d Hd). }
  by rw order_by_id.
Qed.

Definition execution_events (d : TDB) (x : string) : list EventRow :=
  order_by vr_Seq (filter (fun r => vr_ExecutionID r = x) (t_events d)).

Lemma GetEventsByExecution_ok env x d l d' :
  GetEventsByExecution env x d = (Ok l, d') -> d' = d /\ l = map scanEvent (execution_events d x).
Proof.
  unfold GetEventsByExecution, call, mbind, tx_bind, get_db, mret, tx_ret, throw. destruct (fails _ _); [done|].
  destruct (text_ok x); [|done]. intros [= <- <-]. by split.
Qed.

Lemma elem_execution_events d x r : r ∈ execution_events d x <-> r ∈ t_events d /\ vr_ExecutionID r = x.
Proof. unfold execution_events. rw elem_of_order_by list_elem_of_filter. naive_solver. Qed.

Lemma GetEventsBySpan_ok env s d l d' :
  GetEventsBySpan env s d = (Ok l, d') -> d' = d /\ forall e, e ∈ l -> exists r, r ∈ t_events d /\ vr_SpanID r = s /\ e = scanEvent r.
Proof.
  unfold GetEventsBySpan, call, mbind, tx_bind, get_db, mret, tx_ret, throw. destruct (fails _ _); [done|].
  destruct (text_ok s); [|done]. intros [= <- <-]. split; [done|]. intros e (r & -> & Hr)%list_elem_of_fmap.
  apply elem_of_order_by, list_elem_of_filter in Hr as [? ?]. by exists r.
Qed.

(** An event of a span belongs to the span's execution. *)
Lemma event_execution d r s :
  tdb_wf d -> r ∈ t_events d -> s ∈ t_spans d -> vr_SpanID r = sr_ID s -> vr_ExecutionID r = sr_ExecutionID s.
Proof.
  intros Hd Hr Hs Hi. destruct (proj1 (span_in_execution_spec _ _ _) (wf_events d Hd r Hr)) as (s' & Hs' & Hi' & Hx).
  rw -Hx. by rw (span_ids_unique d s' s Hd Hs' Hs ltac:(congruence)).
Qed.

Lemma GetSpan_span env id d s d' :
  GetSpan env id d = (Ok s, d') -> d' = d /\ exists r, r ∈ t_spans d /\ sr_ID r = id /\ sp_ExecutionID s = sr_ExecutionID r /\ sp_ID s = id.
Proof.
  intros H. destruct (GetSpan_ok _ _ _ _ _ H) as (-> & r & Hr & Hi & ->). split; [done|]. by exists r.
Qed.

(** A bind that answers had both parts answer. *)
Lemma bind_ok {A B} (m : Tx A) (f : A -> Tx B) d b d' :
  (m ≫= f) d = (Ok b, d') -> exists a d1, m d = (Ok a, d1) /\ f a d1 = (Ok b, d').
Proof. unfold mbind, tx_bind. destruct (m d) as [[a|e] d1]; [|done]. by exists a, d1. Qed.

Lemma ListExecutions_ok env t agent st limit offset d l n d' :
  ListExecutions env t agent st limit offset d = (Ok (l, n), d') ->
  d' = d /\ Z.of_nat (length l) <= Z.max 0 limit /\ forall e, e ∈ l -> owned d t (ex_ID e).
Proof.
  unfold ListExecutions. intros (d0 & d1 & [= <- <-] & H)%bind_ok. apply bind_ok in H as ([] & d1 & H1 & H2).
  assert (d1 = d) as ->.
  { unfold call in H1. destruct (fails _ _); [done|]. destruct (forallb _ _); [by injection H1|done]. }
  unfold call in H2. destruct (fails _ _); [done|].
  destruct ((limit <? 0) || (offset <? 0)); injection H2 as <- <- <-;
    [split_and!; [done|cbn; lia|by intros e ?%not_elem_of_nil]|]. split; [done|]. split.
  - rw length_map length_take. lia.
  - intros e (r & -> & Hr)%list_elem_of_fmap. unfold newest_first in Hr.
    match type of Hr with r ∈ take ?a (drop ?b ?m) => assert (Hin : r ∈ m) end.
    { match goal with |- r ∈ ?m => rw -(take_drop (Z.to_nat offset) m) end. apply elem_of_app. right.
      match goal with |- r ∈ ?m => rw -(take_drop (Z.to_nat limit) m) end. apply elem_of_app. by left. }
    apply elem_of_order_by, list_elem_of_filter in Hin as [(Ht & _) Hin]. by exists r.
Qed.
