(* ===== verification/EventFacts.v ===== *)
(** Re-inserting an event: which stored events read back as the event sent. *)
From S2P Require Import Prelude Errors GoTime Sha256 Json JsonFacts Canonical CanonicalFacts AuditModel AuditHash TimeText Execution Regex Redaction Pricing Postgres AuditStore AuditStoreFacts TelemetryStore TelemetryFacts Ingestion IngestFacts.
Import GoTime.
Local Open Scope Z_scope.

#[local] Opaque GenerateEventID stableID.

(** * Marshallable documents of bounded depth *)

Definition jgood (n : Z) (v : json) : Prop := json_wf v = true /\ canonable v = true /\ nesting v <= n.

Lemma jgood_str n s : 0 <= n -> utf8_valid s = true -> jgood n (JStr s).
Proof. by intros Hn Hs. Qed.
Lemma jgood_int n z : 0 <= n -> jgood n (JInt z).
Proof. intros Hn. split; [apply valid_int|]. split; [apply canonable_int|done]. Qed.
Lemma jgood_weaken n m v : n <= m -> jgood n v -> jgood m v.
Proof. intros Hn (?&?&?). split_and!; [done..|lia]. Qed.

Lemma jgood_obj n l :
  0 <= n -> NoDup (map fst l) -> Forall (fun kv => utf8_valid kv.1 = true /\ jgood n kv.2) l -> jgood (n + 1) (JObj l).
Proof.
  intros Hn Hk Hl. rw Forall_forall in Hl. split_and!.
  - cbn [json_wf]. rw bool_decide_eq_true_2; [|done]. rw andb_true_r. apply forallb_Forall, Forall_forall.
    intros kv Hkv. destruct (Hl kv Hkv) as (Hu & Hw & _). cbn. by rw Hu Hw.
  - cbn [canonable]. apply forallb_Forall, Forall_forall. intros kv Hkv. by destruct (Hl kv Hkv) as (_ & _ & Hc & _).
  - cbn [nesting]. clear Hk. assert (H : foldr (fun kv n => Z.max (nesting kv.2) n) 0 l <= n); [|lia].
    induction l as [|kv l IH]; cbn; [done|]. destruct (Hl kv ltac:(by left)) as (_ & _ & _ & Hd).
    assert (foldr (fun kv n => Z.max (nesting kv.2) n) 0 l <= n); [|lia]. apply IH. intros x Hx. apply Hl. by right.
Qed.

Lemma jgood_strmap m : json_wf (strmap_json (Some m)) = true -> jgood 1 (strmap_json (Some m)).
Proof.
  intros Hw. split_and!; [done|apply strmap_canonable|]. cbn. unfold strmap_members.
  assert (H : forall l : list (string * string), foldr (fun kv n => Z.max (nesting kv.2) n) 0 (map (fun kv => (kv.1, JStr kv.2)) l) = 0).
  { induction l as [|a l IH]; [done|]. cbn. cbn in IH. lia. }
  by rw H.
Qed.

Lemma jgood_equalJSON n v w : n <= maxNestingDepth -> jgood n v -> jgood n w -> equalJSON (Some v) (Some w) = true <-> json_equiv v w.
Proof.
  intros Hn (Wv & Cv & Nv) (Ww & Cw & Nw). unfold equalJSON. cbn [mbind option_bind].
  assert (Ev : canonical_JSON v = Some (render (normal_form v))) by (rw canonical_JSON_eq; [by rw Cv|done|lia]).
  assert (Ew : canonical_JSON w = Some (render (normal_form w))) by (rw canonical_JSON_eq; [by rw Cw|done|lia]).
  rw Ev Ew bool_decide_eq_true. eapply canonical_text_eq; done || lia.
Qed.

Lemma jgood_refl n v : jgood n v -> json_equiv v v.
Proof. intros (? & ? & _). by apply json_equiv_refl. Qed.

(** * Times *)

Lemma formatNano_ascii t : ascii_str (formatNano t).
Proof.
  unfold formatNano. destruct (civil_from_days _) as [[y m] d].
  repeat (apply ascii_app; [first [apply ascii_digits_only, appendInt_digits|done]|]). apply ascii_app.
  - unfold fraction_text. destruct (trim_right0_spec _ (digits_are_digits 9 ((zt_instant t + zt_offset t * Minute) mod Second))) as (H & _).
    destruct (trim_right0 _) as [|c r]; [done|]. apply (ascii_app "."); [done|]. by apply ascii_digits_only.
  - unfold offset_text. destruct (_ =? 0); [done|].
    apply ascii_app; [by destruct (_ <? 0)|]. apply ascii_app; [apply ascii_digits_only, appendInt_digits|].
    apply (ascii_app ":"); [done|]. apply ascii_digits_only, appendInt_digits.
Qed.

Lemma time_json_good n t v : 0 <= n -> time_json t = Some v -> jgood n v.
Proof.
  unfold time_json, time_text. destruct (_ && _); [|done]. intros Hn [= <-]. apply jgood_str; [done|].
  apply ascii_utf8, formatNano_ascii.
Qed.

(** * Events as documents *)

(** The payload part of an event: what decides whether a retry is recognised. *)
Definition payload_good (p : option PayloadRef) : Prop :=
  match p with
  | None => True
  | Some p => utf8_valid (pl_ContentType p) = true /\ jgood 9000 (pl_Inline p)
  end.

Lemma omit_forall (P : string * json -> Prop) b k v : (b = false -> P (k, v)) -> Forall P (omit b k v).
Proof. unfold omit. destruct b; intros H; [constructor|]. constructor; [auto|constructor]. Qed.

Lemma payload_json_good p : utf8_valid (pl_ContentType p) = true -> jgood 9000 (pl_Inline p) -> jgood 9001 (payload_json p).
Proof.
  intros Hc Hi. apply (jgood_obj 9000); [done| |].
  - unfold omit. destruct (is_null _), (is_empty _); cbn; repeat constructor; set_solver.
  - apply Forall_app. split; [by apply omit_forall|]. apply Forall_app. split; [by apply Forall_singleton; split; [|apply jgood_int]|].
    apply omit_forall. intros _. split; [done|]. by apply jgood_str.
Qed.

Definition event_texts (e : ExecutionEvent) : list string := [ee_ID e; ee_ExecutionID e; ee_SpanID e; ee_EventType e].

Lemma event_json_good e v m :
  Forall (fun s => utf8_valid s = true) (event_texts e) -> ee_Metadata e = Some m ->
  json_wf (strmap_json (Some m)) = true -> payload_good (ee_Payload e) -> event_json e = Some v -> jgood 9002 v.
Proof.
  intros Ht Hm Hw Hp. unfold event_json. destruct (time_json _) as [ts|] eqn:Hts; [|done]. cbn [mbind option_bind]. intros [= <-].
  unfold event_texts in Ht. rw !Forall_cons in Ht. destruct Ht as (T1 & T2 & T3 & T4 & _). rw Hm. apply (jgood_obj 9001); [done| |].
  - unfold payload_opt. destruct (ee_Payload e); cbn; repeat (constructor; [set_solver|]); constructor.
  - rw !Forall_cons Forall_app Forall_singleton. cbn [fst snd]. split_and!; try done; try (by apply jgood_str).
    + by apply (time_json_good 9001) in Hts.
    + by apply jgood_int.
    + unfold payload_opt. destruct (ee_Payload e) as [p|]; [|constructor]. apply Forall_singleton. split; [done|].
      destruct Hp as [Hc Hi]. by apply payload_json_good.
    + apply (jgood_weaken 1); [done|]. by apply jgood_strmap.
Qed.

(** * Comparing the stored event with the one sent *)

Lemma equiv_keys l m : json_equiv (JObj l) (JObj m) -> map fst l ≡ₚ map fst m.
Proof.
  inversion 1 as [| | | | |? l' ? Hp Hf]; subst. rw Hp. clear Hp H. apply reflexive_eq.
  induction Hf as [|a b l' m [Ha _] _ IH]; [done|]. cbn. by rw Ha IH.
Qed.

Lemma equiv_members l m : Forall2 (fun a b => a.1 = b.1 /\ json_equiv a.2 b.2) l m -> json_equiv (JObj l) (JObj m).
Proof. intros H. by apply equiv_obj with l. Qed.

Lemma members_refl n l : Forall (fun kv => utf8_valid kv.1 = true /\ jgood n kv.2) l ->
  Forall2 (fun a b : member => a.1 = b.1 /\ json_equiv a.2 b.2) l l.
Proof.
  intros H. apply Forall_Forall2_diag. eapply Forall_impl; [exact H|]. intros kv [_ Hg]. cbn. split; [done|]. by apply (jgood_refl n).
Qed.

Lemma payload_json_equiv a b :
  json_equiv (pl_Inline a) (pl_Inline b) -> pl_SizeBytes a = pl_SizeBytes b -> pl_ContentType a = pl_ContentType b ->
  json_equiv (payload_json a) (payload_json b).
Proof.
  intros Hi Hs Hc. unfold payload_json. rw Hs Hc.
  assert (Hn : is_null (pl_Inline a) = is_null (pl_Inline b)) by (by inversion Hi).
  rw Hn. apply equiv_members, Forall2_app; [|apply Forall2_app].
  - unfold omit. destruct (is_null (pl_Inline b)); constructor; [by split|constructor].
  - constructor; [|constructor]. split; [done|]. apply (jgood_refl 0), jgood_int. done.
  - unfold omit. destruct (is_empty _); constructor; [|constructor]. split; [done|constructor].
Qed.

Definition with_payload (p : option PayloadRef) (e : ExecutionEvent) : ExecutionEvent := set_Payload p e.

(** Two versions of an event that differ in their payload only. *)
Lemma event_json_payloads e p q v w :
  Forall (fun s => utf8_valid s = true) (event_texts e) -> (exists m, ee_Metadata e = Some m /\ json_wf (strmap_json (Some m)) = true) ->
  event_json (with_payload p e) = Some v -> event_json (with_payload q e) = Some w ->
  match p, q with
  | None, None => json_equiv v w
  | Some a, Some b => json_equiv (payload_json a) (payload_json b) -> json_equiv v w
  | _, _ => ~ json_equiv v w
  end.
Proof.
  intros Ht (m & Hm & Hw) Hv Hv'. unfold event_json in Hv, Hv'.
  cbn [with_payload set_Payload ee_Timestamp ee_Payload ee_Metadata ee_ID ee_ExecutionID ee_SpanID ee_EventType ee_SequenceNumber] in Hv, Hv'.
  destruct (time_json _) as [ts|] eqn:Hts; [|done]. cbn [mbind option_bind] in Hv, Hv'. injection Hv as <-. injection Hv' as <-.
  unfold event_texts in Ht. rw !Forall_cons in Ht. destruct Ht as (T1 & T2 & T3 & T4 & _).
  assert (Hsame : forall P Q, Forall2 (fun a b : member => a.1 = b.1 /\ json_equiv a.2 b.2) P Q ->
    json_equiv (JObj ([("id", JStr (ee_ID e)); ("execution_id", JStr (ee_ExecutionID e)); ("span_id", JStr (ee_SpanID e));
               ("event_type", JStr (ee_EventType e)); ("timestamp", ts); ("sequence_number", JInt (ee_SequenceNumber e))]
        ++ P ++ [("metadata", strmap_json (ee_Metadata e))]))
      (JObj ([("id", JStr (ee_ID e)); ("execution_id", JStr (ee_ExecutionID e)); ("span_id", JStr (ee_SpanID e));
               ("event_type", JStr (ee_EventType e)); ("timestamp", ts); ("sequence_number", JInt (ee_SequenceNumber e))]
        ++ Q ++ [("metadata", strmap_json (ee_Metadata e))]))).
  { intros P Q HPQ. apply equiv_members, Forall2_app; [|apply Forall2_app; [done|]].
    - apply (members_refl 1). rw !Forall_cons. cbn [fst snd]. split_and!; try done; try (by apply jgood_str).
      + by apply (time_json_good 1) in Hts.
      + by apply jgood_int.
    - apply (members_refl 1), Forall_singleton. rw Hm. split; [done|]. by apply jgood_strmap. }
  destruct p as [a|], q as [b|]; cbn [payload_opt].
  - intros Hab. apply Hsame. constructor; [by split|constructor].
  - intros H%equiv_keys. apply Permutation_length in H. done.
  - intros H%equiv_keys. apply Permutation_length in H. done.
  - by apply Hsame.
Qed.

(** * The two inserts *)

Section Retry.
Context `{Hj : Jsonb}.

Lemma InsertEvent_new e d d' :
  ee_ID e ∉ map vr_ID (t_events d) -> InsertEvent healthy e d = (Ok tt, d') ->
  let n := normalize_event e in
  exists payload r, event_payload n = Some payload /\ event_row n payload (t_event_seq d + 1) = Some r
    /\ d' = set_events (t_events d ++ [r]) (set_event_seq (t_event_seq d + 1) d)
    /\ text_ok (ee_SpanID e) && text_ok (ee_ExecutionID e) = true
    /\ span_in_execution d (ee_ExecutionID e) (ee_SpanID e) = true.
Proof.
  intros Hnew. cbn zeta. unfold InsertEvent, in_tx. cbn [fails healthy]. unfold insertEventTx, call, mbind, tx_bind, get_db. cbn [fails healthy].
  set (n := normalize_event e). change (ee_SpanID n) with (ee_SpanID e). change (ee_ExecutionID n) with (ee_ExecutionID e).
  destruct (text_ok _ && text_ok _) eqn:Ht; [|done]. unfold mret at 1, tx_ret.
  destruct (span_in_execution d _ _) eqn:Ho; cbn [negb]; [|done].
  destruct (event_payload n) as [payload|]; [|done]. unfold insert_event_row, mbind, tx_bind, get_db, modify, throw.
  destruct (nextval healthy 1 (t_event_seq d)) as [q|] eqn:Hq; [|done]. apply nextval_gt in Hq as ->.
  destruct (event_row n payload _) as [r|] eqn:Hr; [|done]. cbn [t_events set_event_seq].
  destruct (existsb _ _) eqn:He.
  - exfalso. apply existsb_exists in He as (x & Hx & Hi%bool_decide_eq_true). apply Hnew.
    destruct (event_row_fields _ _ _ _ Hr) as (Ri & _). apply list_elem_of_fmap. exists x.
    split; [|by apply list_elem_of_In]. rw Hi Ri. done.
  - unfold mret, tx_ret. intros [= <-]. exists payload, r. by split_and!.
Qed.

Lemma head_filter_unique {A} (P : A -> Prop) `{!forall x, Decision (P x)} l x :
  x ∈ l -> P x -> (forall y, y ∈ l -> P y -> y = x) -> head (filter P l) = Some x.
Proof.
  intros Hx Hp Hu. assert (Hin : x ∈ filter P l) by by apply list_elem_of_filter.
  destruct (filter P l) as [|y k] eqn:Hf; [by apply not_elem_of_nil in Hin|]. cbn. f_equal.
  assert (Hy : y ∈ filter P l) by (rw Hf; by left). apply list_elem_of_filter in Hy as [? ?]. auto.
Qed.

Lemma event_row_payload n payload q q' r :
  event_row n payload q = Some r -> exists r', event_row n payload q' = Some r' /\ vr_ID r' = vr_ID r.
Proof.
  unfold event_row. destruct (_ && _); [|done]. intros H. apply bind_Some in H as (md & -> & H).
  apply bind_Some in H as (p & -> & [= <-]). cbn. by eexists.
Qed.

Lemma InsertEvent_again e d payload r :
  let n := normalize_event e in
  let d' := set_events (t_events d ++ [r]) (set_event_seq (t_event_seq d + 1) d) in
  ee_ID e ∉ map vr_ID (t_events d) -> t_event_seq d + 1 < int64_max ->
  event_payload n = Some payload -> event_row n payload (t_event_seq d + 1) = Some r ->
  text_ok (ee_SpanID e) && text_ok (ee_ExecutionID e) = true ->
  span_in_execution d (ee_ExecutionID e) (ee_SpanID e) = true ->
  InsertEvent healthy e d' =
    (if same_event (scanEvent r) n then Ok tt else Err (AlreadyExists "event with different content" (ee_ID e)),
     set_event_seq (t_event_seq d + 2) d').
Proof.
  cbn zeta. set (n := normalize_event e). set (d' := set_events _ _). intros Hnew Hq Hp Hr Ht Ho.
  destruct (event_row_fields _ _ _ _ Hr) as (Ri & _).
  unfold InsertEvent, in_tx. cbn [fails healthy]. unfold insertEventTx, call, mbind, tx_bind, get_db. cbn [fails healthy]. fold n.
  change (ee_SpanID n) with (ee_SpanID e). change (ee_ExecutionID n) with (ee_ExecutionID e). rw Ht. unfold mret at 1, tx_ret.
  change (span_in_execution d' (ee_ExecutionID e) (ee_SpanID e)) with (span_in_execution d (ee_ExecutionID e) (ee_SpanID e)).
  rw Ho Hp. cbn [negb]. unfold insert_event_row, mbind, tx_bind, get_db, modify, throw.
  assert (nextval healthy 1 (t_event_seq d') = Some (t_event_seq d + 2)) as ->.
  { unfold nextval. cbn. destruct (Z.leb_spec int64_max (t_event_seq d + 1)); [lia|]. f_equal. lia. }
  destruct (event_row_payload _ _ _ (t_event_seq d + 2) _ Hr) as (r2 & -> & Hi2).
  assert (existsb (fun x => bool_decide (vr_ID x = vr_ID r2)) (t_events d') = true) as ->.
  { apply existsb_exists. exists r. split; [apply list_elem_of_In; cbn; set_solver|]. by apply bool_decide_eq_true. }
  unfold mret, tx_ret. change (ee_ID n) with (ee_ID e).
  assert (head (filter (fun x => vr_ID x = ee_ID e) (t_events d')) = Some r) as ->.
  { apply head_filter_unique; [cbn; set_solver|by rw Ri|]. intros y [Hy|Hy%list_elem_of_singleton]%elem_of_app Hyi; [|done].
    exfalso. apply Hnew. rw -Hyi. by apply list_elem_of_fmap_2. }
  by destruct (same_event _ _).
Qed.

Lemma stored_strmap `{!JsonbSpec} m w :
  json_wf (strmap_json (Some m)) = true -> stored_json (strmap_json (Some m)) = Some w -> as_strmap (Some w) = Some m.
Proof.
  intros Hw Hs. pose proof (strmap_roundtrip m w Hw Hs) as Hr. destruct w; try done.
  unfold read_strmap in Hr. destruct (forallb _ _); [|done]. congruence.
Qed.

(** The event a reader of the row gets, without its sequence number. *)
Lemma stored_event `{!JsonbSpec} n m payload q r :
  ee_Metadata n = Some m -> json_wf (strmap_json (Some m)) = true -> event_row n payload q = Some r ->
  Truncate Microsecond (ee_Timestamp n) = ee_Timestamp n ->
  exists p, (match payload with None => p = None | Some v => exists w, jsonb v = Some w /\ p = Some w end)
    /\ set_Sequence 0 (scanEvent r)
       = with_payload ((fun w => MkPayloadRef w (payloadSizeOrZero (ee_Payload n)) (payloadContentType (ee_Payload n))) <$> p) (set_Sequence 0 n)
    /\ Forall (fun s => utf8_valid s = true) (event_texts n).
Proof.
  intros Hm Hw. unfold event_row. destruct (_ && _) eqn:Hok; [|done]. intros Hrow Hts. apply bind_Some in Hrow as (md & Hmd & Hrow).
  apply bind_Some in Hrow as (p & Hp & [= <-]). rw Hm in Hmd. pose proof (stored_strmap m md Hw Hmd) as Hread. exists p. split_and!.
  - destruct payload as [v|]; [|by injection Hp]. destruct (jsonb v) as [w|]; [|done]. cbn in Hp. injection Hp as <-. by exists w.
  - unfold scanEvent, set_Sequence, with_payload, set_Payload. cbn -[as_strmap]. unfold pg_ts. by rw Hread Hts Hm.
  - apply andb_prop in Hok as [Ht _]. cbn [forallb] in Ht. repeat (apply andb_prop in Ht as [?Hx Ht]).
    unfold event_texts. rw !Forall_cons. split_and!; try by apply text_ok_utf8. constructor.
Qed.

Lemma equiv_is_null v w : json_equiv v w -> is_null v = is_null w.
Proof. by destruct 1. Qed.

Definition payload_recorded (p : option PayloadRef) : bool :=
  match p with None => true | Some p => negb (is_null (pl_Inline p)) end.

Lemma content_type_default p : payloadContentType (Some (default_content_type p)) = pl_ContentType (default_content_type p).
Proof. unfold payloadContentType, default_content_type, is_empty. by repeat (case_bool_decide; cbn). Qed.

Lemma jsonb_good `{!JsonbSpec} n v w : jgood n v -> jsonb v = Some w -> jgood n w /\ json_equiv w v.
Proof.
  intros (Hv & _ & Hn) Hs. pose proof (jsonb_wf _ _ Hv Hs). pose proof (jsonb_canonable _ _ Hv Hs).
  pose proof (jsonb_nesting _ _ Hv Hs). split; [split_and!; [done..|lia]|by apply jsonb_equiv].
Qed.

(** A stored event is recognised exactly when its payload was stored. *)
Lemma same_event_iff `{!JsonbSpec} e m payload q r v :
  let n := normalize_event e in
  ee_Metadata n = Some m -> json_wf (strmap_json (Some m)) = true -> payload_good (ee_Payload n) ->
  event_json n = Some v -> event_payload n = Some payload -> event_row n payload q = Some r ->
  same_event (scanEvent r) n = payload_recorded (ee_Payload e).
Proof.
  cbn zeta. set (n := normalize_event e). intros Hm Hw Hg Hv Hp Hr.
  destruct (stored_event n m payload q r Hm Hw Hr (Truncate_micro_idem _)) as (p & Hpw & Hold & Htexts).
  unfold same_event. rw Hold. set (b := set_Sequence 0 n).
  assert (Hts : exists ts, time_json (utc (ee_Timestamp b)) = Some ts).
  { unfold event_json in Hv. change (ee_Timestamp b) with (ee_Timestamp n). destruct (time_json _); [by eexists|done]. }
  assert (Hsome : forall p, exists v, event_json (with_payload p b) = Some v).
  { intros p'. destruct Hts as [ts Hts]. unfold event_json. change (ee_Timestamp (with_payload p' b)) with (ee_Timestamp b). rw Hts. by eexists. }
  assert (Hmb : exists m, ee_Metadata b = Some m /\ json_wf (strmap_json (Some m)) = true) by by exists m.
  assert (Hgood : forall p v, payload_good p -> event_json (with_payload p b) = Some v -> jgood 9002 v).
  { intros p' v' Hp' Hv'. by apply (event_json_good (with_payload p' b) v' m). }
  assert (Hcmp : forall p1 p2 v1 v2, payload_good p1 -> payload_good p2 ->
    event_json (with_payload p1 b) = Some v1 -> event_json (with_payload p2 b) = Some v2 ->
    equalJSON (Some v1) (Some v2) = true <-> json_equiv v1 v2).
  { intros p1 p2 v1 v2 G1 G2 E1 E2. apply (jgood_equalJSON 9002); [done|by apply (Hgood p1)|by apply (Hgood p2)]. }
  assert (Hb : b = with_payload (ee_Payload n) b) by done. rw {2}Hb.
  destruct (Hsome (ee_Payload n)) as [v2 E2]. unfold event_payload in Hp.
  change (ee_Payload n) with (default_content_type <$> ee_Payload e) in *.
  destruct (ee_Payload e) as [pe|]; cbn [fmap option_fmap option_map] in *; cbn [payload_recorded].
  2: { injection Hp as <-. subst p. cbn [fmap option_fmap option_map drop_empty_payload with_payload set_Payload ee_Payload].
    change (set_Payload None b) with (with_payload None b). rw E2. apply (Hcmp None None); try done.
    exact (event_json_payloads b None None v2 v2 Htexts Hmb E2 E2). }
  set (pn := default_content_type pe) in *.
  assert (Hin : pl_Inline pn = pl_Inline pe) by (unfold pn, default_content_type; by destruct (is_empty _)). rw Hin in Hp.
  destruct Hg as [Gc Gi].
  destruct (is_null (pl_Inline pe)) eqn:Hnull.
  - injection Hp as <-. subst p. cbn [negb fmap option_fmap option_map drop_empty_payload with_payload set_Payload ee_Payload].
    change (set_Payload None b) with (with_payload None b). destruct (Hsome None) as [v1 E1]. rw E1 E2. apply not_true_is_false.
    rw (Hcmp None (Some pn)); [|done|by split|done|done].
    exact (event_json_payloads b None (Some pn) v1 v2 Htexts Hmb E1 E2).
  - assert (Hdec : payload = Some (pl_Inline pe)).
    { rw Hin in Gi. destruct Gi as (Wi & _ & Ni). unfold marshal in Hp. rw (wf_numbers_ok _ Wi) in Hp. cbn [mbind option_bind] in Hp.
      assert (Hd : decode (render (pl_Inline pe)) = Some (pl_Inline pe)) by (apply decode_render; [done|unfold maxNestingDepth; lia]).
      rw Hd in Hp. cbn [mbind option_bind] in Hp. congruence. }
    subst payload. destruct Hpw as (w & Hw' & ->). rw Hin in Gi. destruct (jsonb_good _ _ _ Gi Hw') as [Gw Ew].
    assert (Hwn : is_null w = false) by (by rw (equiv_is_null _ _ Ew)).
    cbn [negb fmap option_fmap option_map]. set (po := MkPayloadRef w _ _).
    assert (drop_empty_payload (with_payload (Some po) b) = with_payload (Some po) b) as ->.
    { unfold drop_empty_payload. cbn [with_payload set_Payload ee_Payload po pl_Inline]. by rw Hwn. }
    assert (Hct : pl_ContentType po = pl_ContentType pn) by apply content_type_default.
    destruct (Hsome (Some po)) as [v1 E1]. rw E1 E2. apply (Hcmp (Some po) (Some pn)); [split; [by rw Hct|done]|split; [done|by rw Hin]|done|done|].
    apply (event_json_payloads b (Some po) (Some pn) v1 v2 Htexts Hmb E1 E2). apply payload_json_equiv; [by rw Hin|done|done].
Qed.
End Retry.
