(* ===== verification/TelemetryProps.v ===== *)
(** Properties of telemetry: the history the stores keep, retries, tenants,
    lineage, replay and prices. *)
From S2P Require Import Prelude Errors GoTime Sha256 Json JsonFacts Canonical CanonicalFacts TimeText Float64 Execution Regex Redaction Pricing Postgres AuditStore TelemetryStore TelemetryFacts Ingestion IngestFacts Lineage Query QueryFacts.
Import GoTime.
Local Open Scope Z_scope.

#[local] Opaque GenerateEventID stableID.

(** * Histories *)

Section History.
Context `{Hj : Jsonb} (tenant_exists : string -> bool) (collate : list string -> list string)
  (lower : string -> string) (active : gmap string pricing) (entries : list (string * pricing)) (redactOn : bool).

(** One operation of the service, with any arguments, clock and failures. *)
Inductive service_step (d : TDB) : TDB -> Prop :=
| step_start env now dbnow t req :
    service_step d (StartExecution tenant_exists redactOn env now dbnow t req d).2
| step_spans envs t x spans :
    service_step d (IngestSpans collate lower active entries redactOn envs t x spans d).2
| step_events envs t x events :
    service_step d (IngestEvents redactOn envs t x events d).2
| step_end envs now t x status endedAt :
    service_step d (EndExecutionAt envs now t x status endedAt d).2.

Lemma service_step_advances d d' : tdb_wf d -> service_step d d' -> advances d d'.
Proof.
  intros Hd [env now dbnow t req|envs t x spans|envs t x events|envs now t x st en].
  - by apply StartExecution_advances.
  - by apply IngestSpans_advances.
  - by apply IngestEvents_advances.
  - by apply EndExecutionAt_advances.
Qed.

Lemma service_run_advances d d' : tdb_wf d -> rtc service_step d d' -> advances d d'.
Proof.
  intros Hd Hr. revert Hd. induction Hr as [d|d d1 d2 H1 H2 IH]; intros Hd; [by apply advances_refl|].
  destruct (service_step_advances d d1 Hd H1) as (W1 & E1 & R1). destruct (IH W1) as (W2 & E2 & R2).
  split; [done|]. split; [by etrans|auto].
Qed.

(** C14: every database the ingestion service can produce from the empty one, under
    any failures, is well formed: ids are unique, sequences strictly increase,
    parents and causes exist in the same execution and come earlier (so the
    span graph is acyclic), events belong to spans of their execution, and the
    event log has the start of every span and the end of every ended span. *)
Theorem telemetry_invariant d : rtc service_step empty_tdb d -> tdb_wf d /\ recorded d.
Proof.
  intros Hr. destruct (service_run_advances _ _ empty_tdb_wf Hr) as (W & _ & R). split; [done|].
  apply R. by intros r ?%not_elem_of_nil.
Qed.

(** C15: history is append-only.  Along any run of the service every event stays
    at its place in the log, a span keeps its identity and its causes, and a
    span or execution that has reached a terminal status never changes again. *)
Theorem telemetry_append_only d d' :
  tdb_wf d -> rtc service_step d d' ->
  t_events d `prefix_of` t_events d'
  /\ (forall r, r ∈ t_spans d -> exists r', r' ∈ t_spans d' /\ span_kept r r'
        /\ causes_of d' (sr_ID r) = causes_of d (sr_ID r) /\ (sr_Status r <> StatusRunning -> r' = r))
  /\ (forall r, r ∈ t_executions d -> exists r', r' ∈ t_executions d' /\ execution_kept r r'
        /\ (xr_Status r <> StatusRunning -> r' = r)).
Proof.
  intros Hd Hr. destruct (service_run_advances _ _ Hd Hr) as (_ & [He Hs Hv Hc _] & _). split_and!.
  - destruct Hv as [new ->]. by exists new.
  - destruct Hs as (old & new & -> & Hk). intros r Hin. pose proof (list_elem_of_lookup_1 _ _ Hin) as [i Hi].
    destruct (Forall2_lookup_l _ _ _ _ _ Hk Hi) as (r' & Hr' & K). exists r'. split_and!; [|done| |by apply K].
    + apply elem_of_app. left. by eapply list_elem_of_lookup_2.
    + destruct Hc as (nc & Hn & Hf). unfold causes_of. rw Hn filter_app map_app. rw -{2}(app_nil_r (map snd _)). f_equal.
      assert (filter (fun e => e.1 = sr_ID r) nc = []) as ->; [|done].
      destruct (filter _ nc) as [|e l] eqn:Hfl; [done|]. exfalso.
      assert (Hel : e ∈ filter (fun e => e.1 = sr_ID r) nc) by (rw Hfl; by left).
      apply list_elem_of_filter in Hel as [Hx Hel]. apply (Hf e Hel). rw Hx. by apply list_elem_of_fmap_2.
  - destruct He as (old & new & -> & Hk). intros r Hin. apply list_elem_of_lookup in Hin as [i Hi].
    destruct (Forall2_lookup_l _ _ _ _ _ Hk Hi) as (r' & Hr' & K). exists r'. split_and!; [|done|].
    + apply elem_of_app. left. by eapply list_elem_of_lookup_2.
    + intros Hn. by destruct K as [-> |[? _]].
Qed.

(** A batch answers for every entry: the accepted spans (or events) and the
    errors together are as many as the entries, unless the execution is not
    the tenant's, in which case the database is untouched and the only error
    names the execution. *)
Theorem batches_account envs t x spans events d :
  let '((n, errs), d1) := IngestSpans collate lower active entries redactOn envs t x spans d in
  let '((m, errs'), d2) := IngestEvents redactOn envs t x events d in
  ((n + Z.of_nat (length errs) = Z.of_nat (length spans) /\ m + Z.of_nat (length errs') = Z.of_nat (length events))
   \/ (n = 0 /\ m = 0 /\ d1 = d /\ d2 = d /\ map ie_EntityID errs = [x] /\ map ie_EntityID errs' = [x]))
  /\ (find_execution d t x = None -> d1 = d /\ d2 = d /\ map ie_Code errs = ["NOT_FOUND"] /\ map ie_Code errs' = ["NOT_FOUND"]).
Proof.
  unfold IngestSpans, IngestEvents. pose proof (GetExecution_db (envs 0%nat) t x d) as Hg.
  pose proof (GetExecution_missing (envs 0%nat) t x d) as Hm.
  destruct (GetExecution _ t x d) as [[e|e] d1]; cbn in Hg, Hm; subst d1.
  - pose proof (ingest_loop_count (fun n => ingest_span collate lower active entries redactOn (envs n) x) 1 spans d) as H1.
    pose proof (ingest_loop_count (fun n => ingest_event redactOn (envs n) x) 1 events d) as H2.
    destruct (ingest_loop _ 1 spans d) as [[n errs] d1]. destruct (ingest_loop _ 1 events d) as [[m errs'] d2].
    split; [left; lia|]. by intros ?%Hm.
  - split; [by right|done].
Qed.
End History.

(** * A sample run *)

Definition every_tenant (_ : string) : bool := true.
Definition same_text (s : string) : string := s.
Definition byte_order (l : list string) : list string := sort_strings l.
Definition sample_request : StartExecutionRequest :=
  MkStartRequest "agent-1" "Agent" "manual" (Some {["k" := "v"]}) "key-1" (Some 1700000000000000000).
Definition no_detail (id : string) (parent : option string) (causes : list string) (status : Status) (ended : option Time) : Span :=
  MkSpan id "" parent causes SpanKindCustom "step" status 1700000001000000000 ended None None None None None None None.
Definition sample_tool : ToolCallDetail :=
  MkToolCall "search" "" (Some (MkPayloadRef (JStr "q") 3 "")) None 12.
Definition sample_spans : list (option Span) :=
  [Some (no_detail "s1" None [] "" None); Some (no_detail "s2" (Some "s1") ["s1"] "" (Some 1700000002000000000)); None].
Definition sample_event (payload : option PayloadRef) : ExecutionEvent :=
  MkExecutionEvent "ev1" "" "s1" "LOG" 1700000001500000000 0 payload None.
Definition all_healthy (_ : nat) : Env := healthy.

Definition started : res Execution * TDB :=
  @StartExecution jsonb_plain every_tenant true healthy 1700000000500000000 1700000000600000000 "t1" sample_request empty_tdb.
Definition sample_id : string := match started.1 with Ok e => ex_ID e | Err _ => "" end.
Definition with_spans : (Z * list IngestError) * TDB :=
  @IngestSpans jsonb_plain byte_order same_text initialPricing [] true all_healthy "t1" sample_id sample_spans started.2.

Lemma sample_run :
  rtc (@service_step jsonb_plain every_tenant byte_order same_text initialPricing [] true) empty_tdb with_spans.2.
Proof.
  apply rtc_l with started.2.
  - exact (@step_start jsonb_plain every_tenant byte_order same_text initialPricing [] true empty_tdb healthy _ _ _ _).
  - apply rtc_once. exact (@step_spans jsonb_plain every_tenant byte_order same_text initialPricing [] true started.2 _ _ _ _).
Qed.

Definition sample_summary (d : TDB) : list (string * option string) * list (string * string) * list string :=
  (map (fun r => (sr_ID r, sr_Parent r)) (t_spans d), t_causality d, map vr_EventType (t_events d)).

Lemma telemetry_invariant_witness :
  (with_spans.1.1 = 2 /\ sample_summary with_spans.2
     = ([("s1", None); ("s2", Some "s1")], [("s2", "s1")], ["SPAN_STARTED"; "SPAN_STARTED"; "SPAN_ENDED"]))
  /\ tdb_wf with_spans.2 /\ recorded with_spans.2.
Proof. split; [vm_compute; by split|]. exact (telemetry_invariant _ _ _ _ _ _ _ sample_run). Defined.

Definition ended_run : TDB :=
  (@EndExecutionAt all_healthy 1700000009000000000 "t1" sample_id StatusCompleted None with_spans.2).2.

Lemma telemetry_append_only_witness :
  map xr_Status (t_executions ended_run) = [StatusCompleted]
  /\ t_events with_spans.2 `prefix_of` t_events ended_run
  /\ (forall r, r ∈ t_spans with_spans.2 -> exists r', r' ∈ t_spans ended_run /\ span_kept r r'
        /\ causes_of ended_run (sr_ID r) = causes_of with_spans.2 (sr_ID r) /\ (sr_Status r <> StatusRunning -> r' = r))
  /\ (forall r, r ∈ t_executions with_spans.2 -> exists r', r' ∈ t_executions ended_run /\ execution_kept r r'
        /\ (xr_Status r <> StatusRunning -> r' = r)).
Proof.
  split; [vm_compute; done|].
  apply (@telemetry_append_only jsonb_plain every_tenant byte_order same_text initialPricing [] true with_spans.2 ended_run).
  - apply (proj1 (service_run_advances _ _ _ _ _ _ _ _ empty_tdb_wf sample_run)).
  - apply rtc_once. exact (@step_end jsonb_plain every_tenant byte_order same_text initialPricing [] true with_spans.2 _ _ _ _ _ _).
Defined.

(** * Starting an execution twice *)

Section Start.
Context `{Hj : Jsonb} (tenant_exists : string -> bool) (redactOn : bool).

Lemma execution_id_keyed now now' t req :
  rq_IdempotencyKey req <> "" -> execution_id now t req = execution_id now' t req.
Proof. intros H. unfold execution_id, is_empty. by rw bool_decide_eq_false_2. Qed.

Lemma new_execution_fields now t req :
  let e := new_execution redactOn now t req in
  ex_ID e = execution_id now t req /\ ex_AgentID e = rq_AgentID req /\ ex_AgentName e = rq_AgentName req
  /\ ex_Trigger e = rq_Trigger req /\ ex_StartedAt e = Truncate Microsecond (default now (rq_StartedAt req))
  /\ ex_EndedAt e = None /\ ex_Status e = StatusRunning /\ ex_RootSpanID e = ""
  /\ exists m, ex_Metadata e = Some m /\ forall now', ex_Metadata (new_execution redactOn now' t req) = Some m.
Proof.
  unfold new_execution, redactExecution. destruct redactOn; cbn; [|by split_and!; [..|eexists]].
  destruct (existsb _ _); cbn; by split_and!; [..|eexists].
Qed.

Lemma StartExecution_split env now dbnow t req d x d' :
  StartExecution tenant_exists redactOn env now dbnow t req d = (Ok x, d') ->
  let e := new_execution redactOn now t req in
  ValidateExecution e = Ok tt /\ InsertExecution tenant_exists env dbnow t e d = (Ok x, d')
  /\ (rq_StartedAt req <> None -> ex_StartedAt x = ex_StartedAt e).
Proof.
  unfold StartExecution. set (e := new_execution _ _ _ _). unfold mbind, tx_bind.
  destruct (ValidateExecution e) as [[]|err] eqn:Hv; cbn [lift_res]; [|done]. unfold mret at 1, tx_ret.
  destruct (InsertExecution _ _ _ _ _ d) as [[y|err] d1]; [|done].
  destruct (_ && _) eqn:Hc; [done|]. intros [= <- <-]. split_and!; try done. intros Hn.
  destruct (rq_StartedAt req); [|done]. cbn in Hc. apply negb_false_iff in Hc. unfold Equal in Hc. lia.
Qed.

(** Starting an execution is idempotent.  With an idempotency key, a retry at
    any later clock, after whatever the service did in between, answers with
    the execution of the first call (its id, capture time and content) and
    writes nothing. *)
Theorem start_retry `{!JsonbSpec} collate lower active entries env now dbnow t req d e d1 d2 now' dbnow' :
  tdb_wf d -> rq_IdempotencyKey req <> "" ->
  (forall r, r ∈ t_executions d -> xr_ID r <> execution_id now t req) ->
  StartExecution tenant_exists redactOn env now dbnow t req d = (Ok e, d1) ->
  json_wf (strmap_json (ex_Metadata e)) = true ->
  rtc (service_step tenant_exists collate lower active entries redactOn) d1 d2 ->
  0 < now' -> pg_time_ok now' = true ->
  exists e', StartExecution tenant_exists redactOn healthy now' dbnow' t req d2 = (Ok e', d2)
    /\ ex_ID e' = ex_ID e /\ ex_StartedAt e' = ex_StartedAt e /\ ex_AgentID e' = ex_AgentID e
    /\ ex_Metadata e' = ex_Metadata e.
Proof.
  intros Hd Hk Hnew H1 Hw Hr Hpos Hpg.
  destruct (StartExecution_split _ _ _ _ _ _ _ _ H1) as (Hval & Hins & _).
  destruct (new_execution_fields now t req) as (I & A & N & T & S & En & St & Ro & m & M & M').
  set (e0 := new_execution redactOn now t req) in *. rw -I in Hnew.
  destruct (InsertExecution_new _ _ _ _ _ _ _ _ Hnew Hins) as (r & -> & Hrow & ->).
  destruct (new_execution_fields now' t req) as (I2 & A2 & N2 & T2 & S2 & En2 & St2 & Ro2 & _).
  specialize (M' now'). set (e2 := new_execution redactOn now' t req) in *.
  assert (Hid : ex_ID e2 = ex_ID e0) by (rw I I2; by apply execution_id_keyed).
  assert (Hd1 : tdb_wf (set_executions (t_executions d ++ [r]) d)).
  { pose proof (StartExecution_advances redactOn tenant_exists env now dbnow t req d Hd) as Hadv. rw H1 in Hadv. by destruct Hadv. }
  destruct (service_run_advances _ _ _ _ _ _ _ _ Hd1 Hr) as (Hd2 & Hev & _).
  assert (Hts : rq_StartedAt req = None \/ ex_StartedAt e2 = ex_StartedAt e0) by (rw S S2; destruct (rq_StartedAt req); auto).
  assert (Htr : 0 <= Truncate Microsecond now' <= now').
  { pose proof (Truncate_micro_bounds now'). pose proof (Truncate_micro_mono 0 now' ltac:(lia)).
    change (Truncate Microsecond 0) with 0 in *. lia. }
  destruct (execution_row_fields _ _ _ _ Hrow) as (RI & _ & RA & RN & RT & RS & RM & Htext & Hpg0).
  assert (Hrow2 : exists row2, execution_row t 0 e2 = Some row2).
  { rw M in RM. apply execution_row_intro with (xr_Metadata r); [|destruct Hts as [Hnone|Hs]|done|by rw M'].
    - rw Hid A2 N2 T2 St2 Ro2 -A -N -T -St -Ro. done.
    - rw S2 Hnone. cbn. unfold pg_time_ok in *. lia.
    - by rw Hs. }
  destruct Hrow2 as [row2 Hrow2]. rw M in Hw.
  destruct (InsertExecution_again tenant_exists healthy 0 dbnow t e2 e0 (set_executions (t_executions d ++ [r]) d) d2 r m row2)
    as (x & r' & Hins2 & Hkept & ->); try done; [cbn; set_solver|congruence|congruence|congruence|].
  exists (scanExecution r' (Some m)).
  assert (Hsame : xr_StartedAt r' = ex_StartedAt e0 /\ xr_ID r' = ex_ID e0 /\ xr_AgentID r' = ex_AgentID e0).
  { assert (pg_ts (ex_StartedAt e0) = ex_StartedAt e0) as Hpt by (rw S; apply Truncate_micro_idem).
    destruct Hkept as [-> |[_ ->]]; cbn; split_and!; congruence. }
  destruct Hsame as (Hs1 & Hs2 & Hs3). split_and!; try done.
  unfold StartExecution. change (new_execution redactOn now' t req) with e2. unfold mbind, tx_bind.
  assert (ValidateExecution e2 = Ok tt) as ->.
  { unfold ValidateExecution in *. rw A2 En2. rw A En in Hval. destruct (is_empty (rq_AgentID req)); [done|].
    destruct Hts as [Hnone|Hs]; [|by rw Hs]. rw S2 Hnone. change (default now' None) with now'.
    assert (IsZero (Truncate Microsecond now') = false) as ->; [|done]. unfold IsZero, zeroTime, Second. lia. }
  cbn [lift_res]. unfold mret at 1, tx_ret. rw Hins2. cbn [ex_StartedAt scanExecution]. rw Hs1.
  destruct Hts as [Hnone|Hs]; [by rw Hnone|]. rw Hs. unfold Equal. rw Z.eqb_refl. cbn [negb]. by rw andb_false_r.
Qed.
End Start.

Lemma empty_tdb_fresh id r : r ∈ t_executions empty_tdb -> xr_ID r <> id.
Proof. intros Hr. exfalso. exact (not_elem_of_nil r Hr). Qed.

Lemma start_retry_witness :
  exists e', @StartExecution jsonb_plain every_tenant true healthy 1700000099000000000 1700000099000000000 "t1" sample_request with_spans.2
      = (Ok e', with_spans.2)
    /\ ex_ID e' = sample_id /\ ex_StartedAt e' = 1700000000000000000 /\ ex_AgentID e' = "agent-1"
    /\ ex_Metadata e' = Some {["k" := "v"]}.
Proof.
  destruct started as [[e|] d1] eqn:Hs; [|by vm_compute in Hs].
  pose proof (@start_retry jsonb_plain every_tenant true jsonb_plain_spec byte_order same_text initialPricing []
    healthy 1700000000500000000 1700000000600000000 "t1" sample_request empty_tdb e d1 with_spans.2 1700000099000000000 1700000099000000000
    empty_tdb_wf) as H.
  assert (He : e = match started.1 with Ok e => e | Err _ => e end) by by rw Hs.
  assert (Hd1 : d1 = started.2) by by rw Hs.
  destruct H as (e' & H1 & H2 & H3 & H4 & H5).
  - done.
  - exact (empty_tdb_fresh _).
  - exact Hs.
  - rw He. vm_compute. done.
  - rw Hd1. apply rtc_once. exact (@step_spans jsonb_plain every_tenant byte_order same_text initialPricing [] true started.2 _ _ _ _).
  - done.
  - done.
  - exists e'. split_and!; [exact H1|rw H2; unfold sample_id; by rw Hs|rw H3 He; by vm_compute|rw H4 He; by vm_compute|rw H5 He; by vm_compute].
Defined.
