(* ===== verification/TelemetryReads.v ===== *)
(** Properties of the read side and of retries: tenants, the span graph,
    lineage, replay, re-sent events and prices. *)
From S2P Require Import Prelude Errors GoTime Sha256 Json JsonFacts Canonical CanonicalFacts AuditModel AuditHash TimeText Float64 Execution Regex Redaction Pricing Postgres AuditStore TelemetryStore TelemetryFacts Ingestion IngestFacts Lineage Query QueryFacts EventFacts TelemetryProps.
Import GoTime.
Local Open Scope Z_scope.

#[local] Opaque GenerateEventID stableID.

(** * Reading *)

Section Reads.

(** C16: reads stay inside the tenant.  Whatever the query service answers for a
    tenant, the executions, spans and events in the answer all belong to
    executions of that tenant, and a page has at most a hundred entries. *)
Theorem reads_isolated envs t d : tdb_wf d ->
  (forall x e d', query_GetExecution envs t x d = (Ok e, d') -> owned d t (ex_ID e))
  /\ (forall req p d', query_ListExecutions envs t req d = (Ok p, d') ->
       (length (ls_Executions p) <= 100)%nat /\ forall e, e ∈ ls_Executions p -> owned d t (ex_ID e))
  /\ (forall id s l d', query_GetSpan envs t id d = (Ok (s, l), d') ->
       owned d t (sp_ExecutionID s) /\ forall e, e ∈ l -> ee_ExecutionID e = sp_ExecutionID s)
  /\ (forall x l d', query_GetSpansByExecution envs t x d = (Ok l, d') ->
       owned d t x /\ forall s, s ∈ l -> sp_ExecutionID s = x)
  /\ (forall id l d', GetSpanEvents envs t id d = (Ok l, d') -> forall e, e ∈ l -> owned d t (ee_ExecutionID e)).
Proof.
  intros Hd.
  assert (Hspan : forall id s l d' d1 d2 d3 e1, GetSpan (envs 0%nat) id d = (Ok s, d1) ->
    GetExecution (envs 1%nat) t (sp_ExecutionID s) d1 = (Ok e1, d2) -> GetEventsBySpan (envs 2%nat) id d2 = (Ok l, d3) -> d3 = d' ->
    owned d t (sp_ExecutionID s) /\ forall e, e ∈ l -> ee_ExecutionID e = sp_ExecutionID s).
  { intros id s l d' d1 d2 d3 e1 H1 H2 H3 _. apply GetSpan_span in H1 as (-> & r & Hr & Hi & Hx & _).
    apply GetExecution_ok in H2 as (-> & Ho & _). apply GetEventsBySpan_ok in H3 as (_ & H3).
    split; [done|]. intros e He. destruct (H3 e He) as (v & Hv & Hvs & ->). cbn. rw Hx.
    apply (event_execution d v r); [done..|congruence]. }
  split_and!.
  - intros x e d' H. apply GetExecution_ok in H as (_ & Ho & ->). done.
  - intros req p d'. unfold query_ListExecutions. intros ([l n] & d1 & H1 & [= <- <-])%bind_ok. cbn.
    apply ListExecutions_ok in H1 as (_ & Hlen & Ho). split; [|done]. unfold page_size in *. lia.
  - intros id s l d' (s' & d1 & H1 & H)%bind_ok. apply bind_ok in H as (e1 & d2 & H2 & H).
    apply bind_ok in H as (l' & d3 & H3 & [= <- <- <-]). by apply (Hspan id s' l' d3 d1 d2 d3 e1).
  - intros x l d' (e1 & d1 & H1 & H2)%bind_ok. apply GetExecution_ok in H1 as (-> & Ho & _).
    apply GetSpansByExecution_ok in H2 as (_ & ->). split; [done|]. intros s (r & -> & Hr)%list_elem_of_fmap.
    apply elem_execution_spans in Hr as [_ Hx]. by destruct (span_view_fields d r) as (_ & -> & _).
  - intros id l d' (s' & d1 & H1 & H)%bind_ok. apply bind_ok in H as (e1 & d2 & H2 & H3).
    intros e He. destruct (Hspan id s' l d' d1 d2 d' e1 H1 H2 H3 eq_refl) as [Ho Hl]. by rw (Hl e He).
Qed.

Lemma edge_source d x s e :
  tdb_wf d -> s ∈ execution_spans d x -> e ∈ span_edges (span_view d s) ->
  de_TargetSpanID e = sr_ID s /\ exists p, p ∈ execution_spans d x /\ sr_ID p = de_SourceSpanID e /\ sr_Seq p < sr_Seq s.
Proof.
  intros Hd Hs He. apply elem_execution_spans in Hs as [Hs Hx].
  destruct (span_view_fields d s) as (I & X & P & _ & _ & C). unfold span_edges in He. apply elem_of_app in He as [He|He].
  - unfold parent_of in He. rw P in He. destruct (sr_Parent s) as [p|] eqn:Hp; [|by apply not_elem_of_nil in He].
    destruct (is_empty p); [by apply not_elem_of_nil in He|]. apply list_elem_of_singleton in He as ->. cbn. split; [done|].
    destruct (wf_parents d Hd s p Hs Hp) as (q & Hq & Hi & Hqx & Hlt). exists q. rw elem_execution_spans. split_and!; congruence || done.
  - apply list_elem_of_fmap in He as (c & -> & Hc). cbn. split; [done|]. rw C in Hc. unfold causes_of in Hc.
    apply list_elem_of_fmap in Hc as ([a b] & -> & Hab). apply list_elem_of_filter in Hab as [Ha Hab]. cbn in Ha |- *. subst a.
    destruct (wf_causes d Hd _ _ Hab) as (r & Hr & Hri & q & Hq & Hi & Hqx & Hlt).
    rw (span_ids_unique d r s Hd Hr Hs Hri) in Hqx, Hlt. exists q. rw elem_execution_spans. split_and!; congruence || done.
Qed.

(** C17: the DAG of an execution is closed and topologically sorted.  Its nodes are
    the execution's spans, once each, in recording order; both ends of every
    edge are nodes, and the source comes before the target. *)
Theorem dag_topological envs t x d nodes edges d' : tdb_wf d ->
  GetExecutionDAG envs t x d = (Ok (nodes, edges), d') ->
  map dn_ID nodes = map sr_ID (execution_spans d x) /\ NoDup (map dn_ID nodes)
  /\ forall e, e ∈ edges -> exists i j, map dn_ID nodes !! i = Some (de_SourceSpanID e)
       /\ map dn_ID nodes !! j = Some (de_TargetSpanID e) /\ (i < j)%nat.
Proof.
  intros Hd (e1 & d1 & H1 & H2)%bind_ok. apply GetExecution_ok in H1 as (-> & _ & _).
  unfold BuildDAG in H2. apply bind_ok in H2 as (l & d2 & H2 & [= <- <- <-]).
  apply GetSpansByExecution_ok in H2 as (-> & ->).
  assert (Hids : map dn_ID (map span_node (map (span_view d) (execution_spans d x))) = map sr_ID (execution_spans d x)).
  { rw !map_map. apply map_ext. intros r. cbn. by destruct (span_view_fields d r). }
  rw Hids. split; [done|]. split.
  - unfold execution_spans. assert (Hp : map sr_ID (order_by sr_Seq (filter (fun r => sr_ExecutionID r = x) (t_spans d)))
       ≡ₚ map sr_ID (filter (fun r => sr_ExecutionID r = x) (t_spans d))) by by apply Permutation_map, order_by_perm.
    rw Hp. apply NoDup_map_filter. exact (wf_span_ids d Hd).
  - intros e He. apply list_elem_of_In, in_flat_map in He as (s & Hs & He).
    apply list_elem_of_In, list_elem_of_fmap in Hs as (r & -> & Hr). apply list_elem_of_In in He.
    destruct (edge_source d x r e Hd Hr He) as (-> & p & Hp & <- & Hlt).
    apply list_elem_of_lookup in Hp as [i Hi]. apply list_elem_of_lookup in Hr as [j Hj].
    exists i, j. rw !list_lookup_fmap Hi Hj. split_and!; [done..|].
    destruct (decide (i < j)%nat) as [|Hge]; [done|]. exfalso.
    destruct (decide (i = j)) as [->|Hne]; [rw Hi in Hj; injection Hj as ->; lia|].
    pose proof (sorted_lookup_lt _ _ j i r p (execution_spans_sorted d x Hd) Hj Hi ltac:(lia)) as Hs.
    unfold key_lt in Hs. lia.
Qed.

(** The walk up the parents always ends.  Fuel for the number of stored spans is
    enough in every environment; the chain is a path of parents that ends in
    the span asked for, no longer than the table, and when the reads succeed it
    starts at a span without a parent.  (On a cyclic table, which the stores
    cannot produce, no fuel is enough.) *)
Theorem causality_chain_terminates envs fuel id d : tdb_wf d -> (length (t_spans d) <= fuel)%nat ->
  (exists r, GetCausalityChain envs fuel id d = Some r
    /\ forall chain, r = Ok chain ->
         ancestry d chain /\ (sp_ID <$> last chain) = Some id /\ (length chain <= length (t_spans d))%nat
         /\ ((forall n, fails (envs n) (CallRead 0) = false) -> exists top, head chain = Some top /\ parent_of top = None))
  /\ forall n, GetCausalityChain (fun _ => healthy) n "a" cyclic_db = None.
Proof.
  intros Hd Hf. split; [|exact cyclic_chain].
  unfold GetCausalityChain. destruct (GetSpan (envs 0%nat) id d) as [[s|e] d1] eqn:Hg; [|by eexists].
  destruct (GetSpan_ok _ _ _ _ _ Hg) as (-> & r & Hr & Hi & ->).
  pose proof (below_lt d r Hr) as Hb.
  destruct (walk_up_spec envs d fuel 1 r [] Hd Hr ltac:(by constructor) ltac:(lia)) as (chain & pre & Hw & Hc & Ha & Hl & Htop).
  rw Hw. eexists. split; [done|]. intros chain' [= <-]. split_and!; [done| | |].
  - rw Hc last_snoc. cbn. by rw Hi.
  - rw Hc length_app. cbn. lia.
  - intros Hh. destruct (Htop ltac:(by intros k _)) as (top & rest & -> & Hp). by exists top.
Qed.
End Reads.

(** * The read side of the sample run *)

Lemma with_spans_wf : tdb_wf with_spans.2.
Proof. exact (proj1 (service_run_advances _ _ _ _ _ _ _ _ empty_tdb_wf sample_run)). Qed.

(** The answer of a query that succeeded. *)
Definition answered {A} (default : A) (r : res A * TDB) : A := match r.1 with Ok a => a | Err _ => default end.

Lemma answered_ok {A} (default : A) (r : res A * TDB) : is_ok r.1 = true -> r = (Ok (answered default r), r.2).
Proof. by destruct r as [[a|e] d]. Qed.

Lemma reads_isolated_witness :
  (exists l, GetSpanEvents all_healthy "t1" "s2" with_spans.2 = (Ok l, with_spans.2) /\ length l = 2%nat
    /\ forall e, e ∈ l -> owned with_spans.2 "t1" (ee_ExecutionID e))
  /\ is_ok (GetSpanEvents all_healthy "t2" "s2" with_spans.2).1 = false.
Proof.
  split; [|by vm_compute]. exists (answered [] (GetSpanEvents all_healthy "t1" "s2" with_spans.2)).
  assert (Hr : GetSpanEvents all_healthy "t1" "s2" with_spans.2
    = (Ok (answered [] (GetSpanEvents all_healthy "t1" "s2" with_spans.2)), with_spans.2)) by (vm_compute; reflexivity).
  split_and!; [exact Hr|vm_compute; reflexivity|].
  exact (proj2 (proj2 (proj2 (proj2 (reads_isolated all_healthy "t1" with_spans.2 with_spans_wf)))) "s2" _ _ Hr).
Defined.

Lemma dag_topological_witness :
  exists nodes edges, GetExecutionDAG all_healthy "t1" sample_id with_spans.2 = (Ok (nodes, edges), with_spans.2)
    /\ map dn_ID nodes = ["s1"; "s2"] /\ map (fun e => (de_SourceSpanID e, de_TargetSpanID e, de_EdgeType e)) edges = [("s1", "s2", "parent_child"); ("s1", "s2", "causal")]
    /\ NoDup (map dn_ID nodes)
    /\ forall e, e ∈ edges -> exists i j, map dn_ID nodes !! i = Some (de_SourceSpanID e)
       /\ map dn_ID nodes !! j = Some (de_TargetSpanID e) /\ (i < j)%nat.
Proof.
  pose (r := GetExecutionDAG all_healthy "t1" sample_id with_spans.2).
  exists (answered ([], []) r).1, (answered ([], []) r).2.
  assert (Hr : GetExecutionDAG all_healthy "t1" sample_id with_spans.2
    = (Ok ((answered ([], []) r).1, (answered ([], []) r).2), with_spans.2)) by (vm_compute; reflexivity).
  split; [exact Hr|]. split; [vm_compute; reflexivity|]. split; [vm_compute; reflexivity|].
  exact (proj2 (dag_topological all_healthy "t1" sample_id with_spans.2 _ _ _ with_spans_wf Hr)).
Defined.

Lemma causality_chain_terminates_witness :
  exists chain, GetCausalityChain all_healthy 2 "s2" with_spans.2 = Some (Ok chain)
    /\ map sp_ID chain = ["s1"; "s2"] /\ ancestry with_spans.2 chain.
Proof.
  destruct (causality_chain_terminates all_healthy 2 "s2" with_spans.2 with_spans_wf ltac:(vm_compute; lia)) as [(r & Hr & Hc) _].
  assert (Hv : option_map (fun r => match r with Ok c => map sp_ID c | Err _ => [] end)
    (GetCausalityChain all_healthy 2 "s2" with_spans.2) = Some ["s1"; "s2"]) by (vm_compute; reflexivity).
  rw Hr in Hv. destruct r as [chain|e]; [|done]. exists chain. injection Hv as Hv.
  split_and!; [exact Hr|exact Hv|]. by apply Hc.
Defined.

(** * Replay *)

Section ReplayProps.

Lemma span_map_lookup l id s : span_map l !! id = Some s -> s ∈ l /\ sp_ID s = id.
Proof.
  unfold span_map. assert (H : forall m : gmap string Span, fold_left (fun m s => <[sp_ID s := s]> m) l m !! id = Some s -> (s ∈ l /\ sp_ID s = id) \/ m !! id = Some s).
  { induction l as [|x l IH]; intros m; cbn; [auto|]. intros [[? ?]|H]%IH; [left; split; [by right|done]|].
    apply lookup_insert_Some in H as [[? ->]|[_ ?]]; [left; split; [by left|done]|by right]. }
  intros [?|?]%H; [done|]. by rw lookup_empty in H0.
Qed.

Lemma span_map_total l s : s ∈ l -> exists s', span_map l !! sp_ID s = Some s'.
Proof.
  unfold span_map. assert (H : forall m : gmap string Span, is_Some (m !! sp_ID s) \/ s ∈ l -> is_Some (fold_left (fun m s => <[sp_ID s := s]> m) l m !! sp_ID s)).
  { induction l as [|x l IH]; intros m; cbn; [intros [?|?%not_elem_of_nil]; done|]. intros [Hm|[->|Hl]%elem_of_cons]; apply IH.
    - left. rw lookup_insert_is_Some'. by right.
    - left. rw lookup_insert_eq. by eexists.
    - by right. }
  intros Hs. apply (H ∅). by right.
Qed.

(** C18: a replay has one frame per selected event, ordered by recorded time and
    then by ingestion; elapsed times count from the start of the execution and deltas
    from the frame before, neither is negative and elapsed times never go back; the
    duration covers every frame; and each frame carries the name and type of
    the span its event belongs to. *)
Theorem replay_faithful envs t req d p d' : tdb_wf d -> ReplayExecution envs t req d = (Ok p, d') ->
  d' = d /\ owned d t (rr_ExecutionID req)
  /\ map rf_Event (rp_Frames p) ≡ₚ select_events req (map scanEvent (execution_events d (rr_ExecutionID req)))
  /\ StronglySorted replay_le (map rf_Event (rp_Frames p))
  /\ StronglySorted (fun f g => rf_ElapsedMs f <= rf_ElapsedMs g) (rp_Frames p)
  /\ rp_TotalFrames p = Z.of_nat (length (rp_Frames p))
  /\ (forall i f, rp_Frames p !! i = Some f ->
        let started := ex_StartedAt (rp_Execution p) in
        rf_ElapsedMs f = non_negative (Milliseconds (Sub (frame_time f) started))
        /\ rf_DeltaMs f = non_negative (Milliseconds (Sub (frame_time f) (time_before started (rp_Frames p) i))))
  /\ forall f, f ∈ rp_Frames p ->
       0 <= rf_DeltaMs f /\ 0 <= rf_ElapsedMs f <= rp_DurationMs p
       /\ exists s, s ∈ t_spans d /\ sr_ID s = rf_SpanID f /\ sr_Name s = rf_SpanName f /\ sr_SpanType s = rf_SpanType f.
Proof.
  intros Hd (exec & d1 & H1 & H)%bind_ok. apply GetExecution_ok in H1 as (-> & Ho & _).
  apply bind_ok in H as (events & d2 & H2 & H). apply GetEventsByExecution_ok in H2 as (-> & ->).
  apply bind_ok in H as (spans & d3 & H3 & [= <- <-]). apply GetSpansByExecution_ok in H3 as (-> & ->).
  set (x := rr_ExecutionID req) in *. set (sel := select_events _ _). cbn [rp_Frames rp_DurationMs rp_TotalFrames].
  set (frames := build_frames _ _ _ _).
  assert (Hev : map rf_Event frames = sort_events sel) by apply build_frames_events.
  assert (Hs : StronglySorted replay_le (sort_events sel)) by (apply StronglySorted_merge_sort; apply _).
  assert (Hel : StronglySorted (fun f g => rf_ElapsedMs f <= rf_ElapsedMs g) frames) by by apply build_frames_elapsed.
  split_and!; try done; [by rw Hev; apply merge_sort_Permutation|by rw Hev|by intros i f; apply build_frames_times|].
  intros f Hf. destruct (replay_duration_bounds exec frames f Hel) as [_ Hdur].
  destruct (build_frames_elem _ _ _ _ _ Hf) as (e & prev & He & ->). split_and!; [apply non_negative_pos..|by apply Hdur|].
  assert (Hsel : e ∈ map scanEvent (execution_events d x)).
  { unfold sort_events in He. rw merge_sort_Permutation in He. unfold sel, select_events in He.
    assert (Hsub : e ∈ match rr_SpanIDs req with [] => map scanEvent (execution_events d x) | ids => filter (fun e => ee_SpanID e ∈ ids) (map scanEvent (execution_events d x)) end).
    { destruct (_ || _); [by apply list_elem_of_filter in He as [_ He]|done]. }
    destruct (rr_SpanIDs req); [done|]. by apply list_elem_of_filter in Hsub as [_ Hsub]. }
  apply list_elem_of_fmap in Hsel as (v & -> & Hv). apply elem_execution_events in Hv as [Hv Hvx].
  destruct (proj1 (span_in_execution_spec _ _ _) (wf_events d Hd v Hv)) as (s & Hin & Hi & Hx).
  assert (Hview : span_view d s ∈ map (span_view d) (execution_spans d x)).
  { apply list_elem_of_fmap_2, elem_execution_spans. split; [done|congruence]. }
  destruct (span_map_total _ _ Hview) as [s' Hs']. destruct (span_view_fields d s) as (I & _ & _ & N & T & _).
  rw I Hi in Hs'. destruct (span_map_lookup _ _ _ Hs') as [Hin' Hid'].
  apply list_elem_of_fmap in Hin' as (r & -> & Hr). apply elem_execution_spans in Hr as [Hr _].
  destruct (span_view_fields d r) as (I' & _ & _ & N' & T' & _). rw I' in Hid'.
  exists r. unfold frame_of. cbn. rw Hs'. by split_and!.
Qed.
End ReplayProps.

Definition sample_replay : ReplayRequest := MkReplayRequest sample_id 0 0 [].

Lemma replay_faithful_witness :
  exists p, ReplayExecution all_healthy "t1" sample_replay with_spans.2 = (Ok p, with_spans.2)
    /\ map (fun f => (rf_SpanName f, rf_ElapsedMs f)) (rp_Frames p) = [("step", 1000); ("step", 1000); ("step", 2000)]
    /\ StronglySorted replay_le (map rf_Event (rp_Frames p)) /\ rp_TotalFrames p = Z.of_nat (length (rp_Frames p)).
Proof.
  pose (r := ReplayExecution all_healthy "t1" sample_replay with_spans.2).
  pose (p0 := MkReplayResponse 0 (MkExecution "" "" "" "" "" "" 0 None None 0) [] 0).
  exists (answered p0 r).
  assert (Hr : ReplayExecution all_healthy "t1" sample_replay with_spans.2 = (Ok (answered p0 r), with_spans.2)) by (vm_compute; reflexivity).
  split; [exact Hr|]. split; [vm_compute; reflexivity|].
  destruct (replay_faithful all_healthy "t1" sample_replay with_spans.2 _ _ with_spans_wf Hr) as (_ & _ & _ & Hs & _ & Ht & _).
  exact (conj Hs Ht).
Defined.

(** * Re-sent events *)

Section Events.
Context `{Hj : Jsonb}.

(** Sending an event again never changes the log, and is accepted exactly when
    the event has no payload object or a payload with an inline value.  An
    event whose payload object is present but empty is refused on every retry. *)
Theorem event_retry `{!JsonbSpec} e d d' m :
  ee_ID e ∉ map vr_ID (t_events d) -> t_event_seq d + 1 < int64_max ->
  InsertEvent healthy e d = (Ok tt, d') ->
  default ∅ (ee_Metadata e) = m -> json_wf (strmap_json (Some m)) = true ->
  payload_good (default_content_type <$> ee_Payload e) -> event_json (normalize_event e) <> None ->
  t_events (InsertEvent healthy e d').2 = t_events d'
  /\ (InsertEvent healthy e d').1
     = if payload_recorded (ee_Payload e) then Ok tt else Err (AlreadyExists "event with different content" (ee_ID e)).
Proof.
  intros Hnew Hq H1 Hm Hw Hg Hj1. destruct (InsertEvent_new e d d' Hnew H1) as (payload & r & Hp & Hr & -> & Ht & Ho).
  pose proof (InsertEvent_again e d payload r Hnew Hq Hp Hr Ht Ho) as H2. cbn zeta in H2. rw H2. cbn [fst snd t_events set_event_seq].
  split; [done|]. destruct (event_json (normalize_event e)) as [v|] eqn:Hv; [|done].
  assert (Hmn : ee_Metadata (normalize_event e) = Some m) by (cbn; by rw Hm).
  by rw (same_event_iff e m payload _ r v Hmn Hw Hg Hv Hp Hr).
Qed.
End Events.

Definition empty_payload : PayloadRef := MkPayloadRef JNull 0 "".
Definition inline_payload : PayloadRef := MkPayloadRef (JObj [("a", JInt 1)]) 8 "".
Definition of_sample (e : ExecutionEvent) : ExecutionEvent :=
  MkExecutionEvent (ee_ID e) sample_id (ee_SpanID e) (ee_EventType e) (ee_Timestamp e) 0 (ee_Payload e) (ee_Metadata e).

Lemma event_retry_witness :
  map (fun p => let e := of_sample (sample_event p) in
         ((InsertEvent (Hj := jsonb_plain) healthy e with_spans.2).1,
          (InsertEvent (Hj := jsonb_plain) healthy e (InsertEvent (Hj := jsonb_plain) healthy e with_spans.2).2).1))
      [None; Some inline_payload; Some empty_payload]
  = [(Ok tt, Ok tt); (Ok tt, Ok tt); (Ok tt, Err (AlreadyExists "event with different content" "ev1"))].
Proof.
  assert (Hgood : forall p, payload_good (default_content_type <$> p) ->
    is_ok (InsertEvent (Hj := jsonb_plain) healthy (of_sample (sample_event p)) with_spans.2).1 = true ->
    event_json (normalize_event (of_sample (sample_event p))) <> None ->
    (InsertEvent (Hj := jsonb_plain) healthy (of_sample (sample_event p))
      (InsertEvent (Hj := jsonb_plain) healthy (of_sample (sample_event p)) with_spans.2).2).1
    = if payload_recorded p then Ok tt else Err (AlreadyExists "event with different content" "ev1")).
  { intros p Hp Hok Hj. destruct (InsertEvent (Hj := jsonb_plain) healthy (of_sample (sample_event p)) with_spans.2) as [[[]|e] d'] eqn:Hi; [|done].
    refine (proj2 (@event_retry jsonb_plain jsonb_plain_spec (of_sample (sample_event p)) with_spans.2 d' ∅ _ _ Hi eq_refl eq_refl Hp Hj)).
    - change (ee_ID (of_sample (sample_event p))) with "ev1". apply (bool_decide_eq_false_1 _ (Decision0 := list_elem_of_dec _ _)). vm_compute. reflexivity.
    - vm_compute. reflexivity. }
  assert (Hall : forall p q r : option PayloadRef, forall f : option PayloadRef -> res unit * res unit,
    forall a b c, f p = a -> f q = b -> f r = c -> map f [p; q; r] = [a; b; c]) by (intros; subst; reflexivity).
  apply Hall; (apply f_equal2; [vm_compute; reflexivity|]); rw Hgood; solve [vm_compute; done].
Defined.

(** * Prices *)

(** The price of a model does not depend on the order in which the table is
    visited: it is the entry of the longest table key that is a prefix of the
    normalised name (a full match included), if there is one, and a model
    without such a key costs nothing. *)
Theorem price_is_longest_prefix lower active entries entries' :
  entries ≡ₚ map_to_list active -> entries' ≡ₚ map_to_list active ->
  (forall model, lookupPricing lower active entries model = lookupPricing lower active entries' model)
  /\ (forall model p, lookupPricing lower active entries model = Some p <-> priced lower active model p)
  /\ (forall model provider n m, (forall p, ~ priced lower active model p) ->
       EstimateCost lower active entries model provider n m = fzero).
Proof.
  intros H H'. split_and!.
  - intros model. apply option_eq. intros p. by rw !lookupPricing_priced.
  - intros model p. by apply lookupPricing_priced.
  - intros model provider n m Hn. unfold EstimateCost. destruct (lookupPricing _ _ _ _) as [p|] eqn:Hp; [|done].
    apply lookupPricing_priced in Hp; [|done]. by destruct (Hn p).
Qed.

Lemma price_is_longest_prefix_witness :
  let entries := map_to_list initialPricing in
  (forall model, lookupPricing same_text initialPricing entries model = lookupPricing same_text initialPricing (reverse entries) model)
  /\ lookupPricing same_text initialPricing entries "gpt-4o-mini-2024-07-18" = initialPricing !! "gpt-4o-mini"
  /\ initialPricing !! "gpt-4o-mini" <> None.
Proof.
  cbn zeta. split; [|vm_compute; done].
  exact (proj1 (price_is_longest_prefix same_text initialPricing _ _ (Permutation_refl _) (reverse_Permutation _))).
Defined.
