(* ===== verification/FloatFacts.v ===== *)
(** Facts about [float64] values: their text is a JSON number, and reading it
    back gives the same value. *)
From S2P Require Import Prelude Json JsonFacts Canonical CanonicalFacts AuditHash Float64.
Local Open Scope Z_scope.

(** * Literals from their parts *)

Definition int_text (i : string) : Prop := digits_only i /\ (i = "0" \/ leading i).
Definition frac_text (f d : string) : Prop := digits_only d /\ ((f = "" /\ d = "") \/ (f = "." +:+ d /\ d <> "")).
(** The exponent part with its value. *)
Definition exponent_part (e : string) (x : Z) : Prop :=
  (e = "" /\ x = 0)
  \/ exists d, digits_only d /\ d <> "" /\ ((e = "e+" +:+ d /\ x = dec d) \/ (e = "e-" +:+ d /\ x = - dec d)).

Lemma exponent_head e x : exponent_part e x -> match e with String c _ => is_digit c = false /\ is_char 46 c = false | EmptyString => True end.
Proof. intros [[-> _]|(d & _ & _ & [[-> _]|[-> _]])]; [done|by rw str_cons_app..]. Qed.

Lemma scan_exp_part e x : exponent_part e x -> scan_exp e = Some (e, "").
Proof.
  intros [[-> _]|(d & Hd & Hn & [[-> _]|[-> _]])]; [done| |].
  - rw !str_cons_app str_app_nil_l. cbn [scan_exp]. eval_chars. rw (scan_digits_all _ Hd). by destruct d.
  - rw !str_cons_app str_app_nil_l. cbn [scan_exp]. eval_chars. rw (scan_digits_all _ Hd). by destruct d.
Qed.

Lemma scan_frac_part f d e x : frac_text f d -> exponent_part e x -> scan_frac (f +:+ e) = Some (f, e).
Proof.
  intros [Hd [[-> ->]|[-> Hn]]] He; pose proof (exponent_head e x He) as Hh.
  - rw str_app_nil_l. destruct e as [|c e]; [done|]. cbn [scan_frac]. by destruct Hh as [_ ->].
  - rw str_app_assoc str_cons_app str_app_nil_l. cbn [scan_frac]. eval_chars.
    rw (scan_digits_app d e Hd); [by destruct d|]. by destruct e; destruct Hh.
Qed.

Lemma frac_head f d e x : frac_text f d -> exponent_part e x -> match f +:+ e with String c _ => is_digit c = false | EmptyString => True end.
Proof.
  intros [Hd [[-> ->]|[-> Hn]]] He; pose proof (exponent_head e x He) as Hh.
  - rw str_app_nil_l. by destruct e; destruct Hh.
  - by rw str_app_assoc str_cons_app.
Qed.

Lemma scan_int_part i r : int_text i -> match r with String c _ => is_digit c = false | EmptyString => True end ->
  scan_int (i +:+ r) = Some (i, r).
Proof.
  intros [Hd [-> |Hl]] Hr; [done|]. destruct i as [|c i]; [done|]. cbn [leading] in Hl.
  pose proof (scan_digits_app _ r Hd Hr) as Hs. cbn [str_all] in Hd. apply andb_prop in Hd as [Hc _].
  rw str_cons_app in Hs |- *. cbn [scan_int]. by rw Hl Hc Hs.
Qed.

Lemma int_head i : int_text i -> exists c t, i = String c t /\ is_char 45 c = false.
Proof.
  intros [Hd Hl]. destruct i as [|c i]; [destruct Hl as [?|?]; done|]. exists c, i. split; [done|].
  cbn [str_all] in Hd. apply andb_prop in Hd as [Hc%is_digit_val _]. unfold is_char. lia.
Qed.

(** A number assembled from its parts is valid, and its value is read off them. *)
Lemma assembled_number sg i f d e x : is_sign sg -> int_text i -> frac_text f d -> exponent_part e x ->
  valid_number (sg +:+ i +:+ f +:+ e) = true
  /\ literal_value (sg +:+ i +:+ f +:+ e)
     = Some (negb (bool_decide (sg = "")), dec (i +:+ d), x - Z.of_nat (String.length d)).
Proof.
  intros Hs Hi Hf He.
  assert (Hsg : scan_sign (sg +:+ i +:+ f +:+ e) = (sg, i +:+ f +:+ e)).
  { destruct Hs as [-> | ->]; [|done]. rw str_app_nil_l. destruct (int_head i Hi) as (c & t & -> & Hc).
    rw str_cons_app. cbn [scan_sign]. by rw Hc. }
  assert (Hsi : scan_int (i +:+ f +:+ e) = Some (i, f +:+ e)) by (apply scan_int_part; [done|by eapply frac_head]).
  assert (Hsf : scan_frac (f +:+ e) = Some (f, e)) by by eapply scan_frac_part.
  assert (Hse : scan_exp e = Some (e, "")) by by eapply scan_exp_part.
  split.
  - unfold valid_number, scan_number. rw Hsg. rw Hsi. cbn. rw Hsf. cbn. by rw Hse.
  - unfold literal_value. rw Hsg. rw Hsi. cbn. rw Hsf. cbn. rw Hse. cbn. do 2 f_equal.
    + f_equal. f_equal. destruct Hf as [_ [[-> ->]|[-> _]]]; by rw ?str_cons_app ?str_app_nil_l.
    + assert (match f with String _ d0 => d0 | EmptyString => "" end = d) as ->.
      { destruct Hf as [_ [[-> ->]|[-> _]]]; by rw ?str_cons_app ?str_app_nil_l. }
      f_equal. destruct He as [[-> ->]|(w & Hw & Hn & [[-> ->]|[-> ->]])]; [done| |];
        rw !str_cons_app str_app_nil_l; by eval_chars.
Qed.

(** * Rounding does not depend on the fraction's form *)

Lemma log2_ratio_spec n d : 0 < n -> 0 < d ->
  d * 2 ^ Z.max 0 (log2_ratio n d) <= n * 2 ^ Z.max 0 (- log2_ratio n d)
  /\ n * 2 ^ Z.max 0 (- (log2_ratio n d + 1)) < d * 2 ^ Z.max 0 (log2_ratio n d + 1).
Proof.
  intros Hn Hd. unfold log2_ratio. set (l := Z.log2 n - Z.log2 d).
  destruct (Z.log2_spec n Hn) as [N1 N2]. destruct (Z.log2_spec d Hd) as [D1 D2].
  pose proof (Z.log2_nonneg n) as Ln. pose proof (Z.log2_nonneg d) as Ld.
  set (a := Z.log2 n) in *. set (b := Z.log2 d) in *.
  rw Z.pow_succ_r in N2; [|done]. rw Z.pow_succ_r in D2; [|done].
  assert (Hup : n * 2 ^ Z.max 0 (- (l + 1)) < d * 2 ^ Z.max 0 (l + 1)).
  { destruct (Z.le_gt_cases 0 (l + 1)).
    - rw (Z.max_r 0 (l + 1)); [|lia]. rw (Z.max_l 0 (- (l + 1))); [|lia]. rw Z.pow_0_r.
      assert (2 ^ b * 2 ^ (l + 1) = 2 * 2 ^ a) as Heq by (rw -Z.pow_add_r; [rw -Z.pow_succ_r; [f_equal; lia|lia]|lia..]).
      assert (0 < 2 ^ (l + 1)) by (apply Z.pow_pos_nonneg; lia). nia.
    - rw (Z.max_l 0 (l + 1)); [|lia]. rw (Z.max_r 0 (- (l + 1))); [|lia]. rw Z.pow_0_r.
      assert (2 * 2 ^ a * 2 ^ (- (l + 1)) = 2 ^ b) as Heq by (rw -Z.pow_succ_r; [rw -Z.pow_add_r; [f_equal; lia|lia..]|lia]).
      assert (0 < 2 ^ (- (l + 1))) by (apply Z.pow_pos_nonneg; lia). nia. }
  destruct (Z.leb_spec (d * 2 ^ Z.max 0 l) (n * 2 ^ Z.max 0 (- l))) as [Hle|Hgt].
  - by split.
  - replace (l - 1 + 1) with l by lia. split; [|done].
    destruct (Z.le_gt_cases 0 (l - 1)).
    + rw (Z.max_r 0 (l - 1)); [|lia]. rw (Z.max_l 0 (- (l - 1))); [|lia]. rw Z.pow_0_r.
      assert (2 * 2 ^ b * 2 ^ (l - 1) = 2 ^ a) as Heq by (rw -Z.pow_succ_r; [rw -Z.pow_add_r; [f_equal; lia|lia..]|lia]).
      assert (0 < 2 ^ (l - 1)) by (apply Z.pow_pos_nonneg; lia). nia.
    + rw (Z.max_l 0 (l - 1)); [|lia]. rw (Z.max_r 0 (- (l - 1))); [|lia]. rw Z.pow_0_r.
      assert (2 ^ a * 2 ^ (- (l - 1)) = 2 * 2 ^ b) as Heq by (rw -Z.pow_add_r; [rw -Z.pow_succ_r; [f_equal; lia|lia]|lia..]).
      assert (0 < 2 ^ (- (l - 1))) by (apply Z.pow_pos_nonneg; lia). nia.
Qed.

(** [2^l <= n / d]. *)
Definition pow2_le (n d l : Z) : Prop := d * 2 ^ Z.max 0 l <= n * 2 ^ Z.max 0 (- l).

Lemma pow2_le_anti n d l l' : 0 < n -> 0 < d -> l' <= l -> pow2_le n d l -> pow2_le n d l'.
Proof.
  intros Hn Hd Hl. unfold pow2_le. intros H.
  assert (Hp : 2 ^ Z.max 0 l * 2 ^ Z.max 0 (- l') = 2 ^ (l - l') * (2 ^ Z.max 0 l' * 2 ^ Z.max 0 (- l))).
  { rw -!Z.pow_add_r; [|lia..]. f_equal. lia. }
  assert (0 < 2 ^ (l - l')) by (apply Z.pow_pos_nonneg; lia).
  assert (0 < 2 ^ Z.max 0 (- l)) by (apply Z.pow_pos_nonneg; lia).
  assert (0 < 2 ^ Z.max 0 (- l')) by (apply Z.pow_pos_nonneg; lia).
  assert (0 < 2 ^ Z.max 0 l') by (apply Z.pow_pos_nonneg; lia).
  set (A := 2 ^ Z.max 0 l) in *. set (B := 2 ^ Z.max 0 (- l)) in *. set (A' := 2 ^ Z.max 0 l') in *.
  set (B' := 2 ^ Z.max 0 (- l')) in *. set (K := 2 ^ (l - l')) in *.
  assert (d * A * B' <= n * B * B') by nia.
  assert (d * A' * (K * B) <= n * B' * B) by nia.
  assert (d * A' * B <= n * B' * B) by nia. nia.
Qed.

Lemma log2_ratio_unique n d l : 0 < n -> 0 < d -> pow2_le n d l -> ~ pow2_le n d (l + 1) -> log2_ratio n d = l.
Proof.
  intros Hn Hd H1 H2. destruct (log2_ratio_spec n d Hn Hd) as [S1 S2]. set (k := log2_ratio n d) in *.
  destruct (Z.lt_trichotomy k l) as [Hlt|[->|Hgt]]; [|done|].
  - pose proof (pow2_le_anti n d l (k + 1) Hn Hd ltac:(lia) H1) as H. unfold pow2_le in H. lia.
  - exfalso. apply H2. apply (pow2_le_anti n d k); [done..|lia|done].
Qed.

Lemma log2_ratio_scale n d c : 0 < n -> 0 < d -> 0 < c -> log2_ratio (n * c) (d * c) = log2_ratio n d.
Proof.
  intros Hn Hd Hc. destruct (log2_ratio_spec n d Hn Hd) as [S1 S2].
  apply log2_ratio_unique; unfold pow2_le; nia.
Qed.

Lemma div_half_even_scale n d c : 0 < d -> 0 < c -> div_half_even (n * c) (d * c) = div_half_even n d.
Proof.
  intros Hd Hc. unfold div_half_even. rw Z.div_mul_cancel_r; [|lia..]. rw Z.mul_mod_distr_r; [|lia..].
  assert ((2 * (n mod d * c) <? d * c) = (2 * (n mod d) <? d)) as ->.
  { destruct (Z.ltb_spec (2 * (n mod d)) d), (Z.ltb_spec (2 * (n mod d * c)) (d * c)); try done; nia. }
  assert ((2 * (n mod d * c) =? d * c) = (2 * (n mod d) =? d)) as ->; [|done].
  destruct (Z.eqb_spec (2 * (n mod d)) d), (Z.eqb_spec (2 * (n mod d * c)) (d * c)); try done; nia.
Qed.

Lemma round_ratio_scale neg n d c : 0 <= n -> 0 < d -> 0 < c -> round_ratio neg (n * c) (d * c) = round_ratio neg n d.
Proof.
  intros Hn Hd Hc. unfold round_ratio. destruct (Z.eqb_spec n 0) as [->|Hn0]; [done|].
  destruct (Z.eqb_spec (n * c) 0); [nia|]. rw log2_ratio_scale; [|lia..].
  set (e := Z.max (-1074) _).
  replace (n * c * 2 ^ Z.max 0 (- e)) with (n * 2 ^ Z.max 0 (- e) * c) by lia.
  replace (d * c * 2 ^ Z.max 0 e) with (d * 2 ^ Z.max 0 e * c) by lia.
  rw div_half_even_scale; [done| |done]. assert (0 < 2 ^ Z.max 0 e) by (apply Z.pow_pos_nonneg; lia). nia.
Qed.

(** ** Far exponents *)

Lemma round_ratio_huge neg n d : 0 < n -> 0 < d -> pow2_le n d 1100 -> round_ratio neg n d = Inf neg.
Proof.
  intros Hn Hd Hp. unfold round_ratio. destruct (Z.eqb_spec n 0); [lia|].
  assert (1100 <= log2_ratio n d).
  { destruct (log2_ratio_spec n d Hn Hd) as [_ S2]. destruct (Z.le_gt_cases 1100 (log2_ratio n d)) as [|Hlt]; [done|].
    pose proof (pow2_le_anti n d 1100 (log2_ratio n d + 1) Hn Hd ltac:(lia) Hp) as H. unfold pow2_le in H. lia. }
  set (e := Z.max (-1074) _). destruct (_ =? 2 ^ 53).
  - destruct (Z.ltb_spec 971 (e + 1)); [done|lia].
  - destruct (Z.ltb_spec 971 e); [done|lia].
Qed.

Lemma round_ratio_tiny neg n d : 0 < n -> 0 < d -> 2 * n * 2 ^ 1074 < d -> round_ratio neg n d = Fin neg 0 (-1074).
Proof.
  intros Hn Hd Hp. unfold round_ratio. destruct (Z.eqb_spec n 0); [lia|].
  assert (Hl : log2_ratio n d < -1074).
  { destruct (log2_ratio_spec n d Hn Hd) as [S1 _]. destruct (Z.lt_ge_cases (log2_ratio n d) (-1074)) as [|Hge]; [done|].
    pose proof (pow2_le_anti n d _ (-1074) Hn Hd Hge S1) as H. unfold pow2_le in H.
    change (Z.max 0 (-1074)) with 0 in H. change (Z.max 0 (- -1074)) with 1074 in H. rw Z.pow_0_r in H. lia. }
  rw (Z.max_l (-1074)); [|lia]. change (Z.max 0 (- -1074)) with 1074. change (Z.max 0 (-1074)) with 0. rw Z.pow_0_r Z.mul_1_r.
  assert (div_half_even (n * 2 ^ 1074) d = 0) as ->; [|done].
  unfold div_half_even. rw Z.div_small; [|lia]. rw Z.mod_small; [|lia].
  destruct (Z.ltb_spec (2 * (n * 2 ^ 1074)) d); [done|lia].
Qed.

Lemma pow10_pos k : 0 < 10 ^ Z.max 0 k.
Proof. apply Z.pow_pos_nonneg; lia. Qed.

(** [2^l] times a power of ten from the exponent of two. *)
Lemma decimal_tiny m x : 0 < m -> Z.log2 m + 2 + x < -400 -> 2 * (m * 10 ^ Z.max 0 x) * 2 ^ 1074 < 10 ^ Z.max 0 (- x).
Proof.
  intros Hm Hl. pose proof (Z.log2_nonneg m) as Hn. destruct (Z.log2_spec m Hm) as [_ Hm2].
  rw Z.pow_succ_r in Hm2; [|done]. rw (Z.max_l 0 x); [|lia]. rw (Z.max_r 0 (- x)); [|lia]. rw Z.pow_0_r Z.mul_1_r.
  set (L := Z.log2 m) in *. apply Z.lt_le_trans with (10 ^ (403 + L)).
  2: { apply Z.pow_le_mono_r; lia. }
  rw Z.pow_add_r; [|lia..]. assert (2 ^ L <= 10 ^ L) by (apply Z.pow_le_mono_l; lia).
  assert (4 * 2 ^ 1074 < 10 ^ 403) by by vm_compute.
  assert (0 < 2 ^ L) by (apply Z.pow_pos_nonneg; lia).
  set (A := 2 ^ 1074) in *. set (B := 10 ^ 403) in *. assert (0 < A) by by vm_compute.
  apply Z.lt_le_trans with (4 * A * 2 ^ L); [nia|]. nia.
Qed.

Lemma round_decimal_step neg m x : 0 < m -> round_decimal neg (m * 10) x = round_decimal neg m (x + 1).
Proof.
  intros Hm. unfold round_decimal. destruct (Z.eqb_spec (m * 10) 0); [lia|]. destruct (Z.eqb_spec m 0); [lia|].
  assert (Hlog : Z.log2 m + 3 <= Z.log2 (m * 10) <= Z.log2 m + 4).
  { split.
    - apply Z.log2_le_pow2; [lia|]. pose proof (Z.log2_spec m Hm) as [? _]. pose proof (Z.log2_nonneg m).
      rw Z.pow_add_r; [|lia..]. lia.
    - apply Z.lt_succ_r, Z.log2_lt_pow2; [lia|]. pose proof (Z.log2_spec m Hm) as [_ H]. pose proof (Z.log2_nonneg m).
      replace (Z.succ (Z.log2 m + 4)) with (Z.succ (Z.log2 m) + 4) by lia. rw Z.pow_add_r; [|lia..]. lia. }
  destruct (Z.ltb_spec 400 x); destruct (Z.ltb_spec 400 (x + 1)); try lia; [done| |].
  { assert (x = 400) as -> by lia. destruct (Z.ltb_spec (Z.log2 (m * 10) + 1 + 400) (-400)); [pose proof (Z.log2_nonneg m); lia|].
    apply round_ratio_huge; [pose proof (pow10_pos 400); nia|done|]. unfold pow2_le.
    change (Z.max 0 (-1100)) with 0. change (Z.max 0 1100) with 1100. change (Z.max 0 (-400)) with 0. change (Z.max 0 400) with 400.
    rw !Z.pow_0_r !Z.mul_1_r Z.mul_1_l. assert (2 ^ 1100 <= 10 ^ 400) by by vm_compute. set (B := 10 ^ 400) in *. nia. }
  assert (Htiny : Z.log2 m + 2 + x < -400 ->
    round_ratio neg (m * 10 * 10 ^ Z.max 0 x) (10 ^ Z.max 0 (- x)) = Fin neg 0 (-1074)).
  { intros Hl. pose proof (Z.log2_nonneg m) as Hnn. pose proof (decimal_tiny m (x + 1) Hm) as Ht. destruct (Z.lt_ge_cases (Z.log2 m + 2 + (x + 1)) (-400)) as [Hlt|Hge].
    - specialize (Ht Hlt). apply round_ratio_tiny; [pose proof (pow10_pos x); nia|apply pow10_pos|].
      rw (Z.max_l 0 (x + 1)) in Ht; [|lia]. rw (Z.max_r 0 (- (x + 1))) in Ht; [|lia]. rw Z.pow_0_r Z.mul_1_r in Ht.
      rw (Z.max_l 0 x); [|lia]. rw (Z.max_r 0 (- x)); [|lia]. rw Z.pow_0_r.
      replace (- x) with (Z.succ (- (x + 1))) by lia. rw Z.pow_succ_r; [|lia]. lia.
    - assert (Hx : Z.log2 m + x = -403) by lia. destruct (Z.log2_spec m Hm) as [_ Hm2].
      rw Z.pow_succ_r in Hm2; [|done]. apply round_ratio_tiny; [pose proof (pow10_pos x); nia|apply pow10_pos|].
      rw (Z.max_l 0 x); [|lia]. rw (Z.max_r 0 (- x)); [|lia]. rw Z.pow_0_r. set (L := Z.log2 m) in *.
      replace (- x) with (403 + L) by lia. rw Z.pow_add_r; [|lia..].
      assert (2 ^ L <= 10 ^ L) by (apply Z.pow_le_mono_l; lia). assert (40 * 2 ^ 1074 < 10 ^ 403) by by vm_compute.
      assert (0 < 2 ^ L) by (apply Z.pow_pos_nonneg; lia). set (A := 2 ^ 1074) in *. set (B := 10 ^ 403) in *.
      assert (0 < A) by by vm_compute. apply Z.lt_le_trans with (40 * A * 2 ^ L); nia. }
  destruct (Z.ltb_spec (Z.log2 (m * 10) + 1 + x) (-400)); destruct (Z.ltb_spec (Z.log2 m + 1 + (x + 1)) (-400)); try lia; [done|by apply Htiny; lia|].
  destruct (Z.le_gt_cases 0 x).
  - rw !(Z.max_r 0 x) ?(Z.max_r 0 (x + 1)) ?(Z.max_l 0 (- x)) ?(Z.max_l 0 (- (x + 1))); try lia.
    rw Z.pow_add_r; [|lia..]. f_equal. lia.
  - rw (Z.max_l 0 x) ?(Z.max_l 0 (x + 1)) ?(Z.max_r 0 (- x)) ?(Z.max_r 0 (- (x + 1))); try lia.
    rw Z.pow_0_r !Z.mul_1_r. replace (- x) with (Z.succ (- (x + 1))) by lia. rw Z.pow_succ_r; [|lia].
    rw (Z.mul_comm 10). apply round_ratio_scale; [lia|apply Z.pow_pos_nonneg; lia|lia].
Qed.

Lemma round_decimal_scale neg m x k : 0 < m -> 0 <= k -> round_decimal neg (m * 10 ^ k) x = round_decimal neg m (x + k).
Proof.
  intros Hm Hk. revert x. pattern k. apply natlike_ind; [|clear k Hk; intros k Hk IH|done]; intros x.
  - by rw Z.pow_0_r Z.mul_1_r Z.add_0_r.
  - rw Z.pow_succ_r; [|done]. replace (m * (10 * 10 ^ k)) with (m * 10 ^ k * 10) by lia.
    rw round_decimal_step; [|pose proof (Z.pow_pos_nonneg 10 k ltac:(lia) Hk); nia]. rw IH. f_equal. lia.
Qed.

(** * The text of a float *)

Lemma round_ratio_exact neg m e : float_ok (Fin neg m e) = true -> 0 < m ->
  round_ratio neg (m * up e) (up (- e)) = Fin neg m e.
Proof.
  unfold float_ok. intros [[[[_ H2%Z.ltb_lt]%andb_prop H3%Z.leb_le]%andb_prop H4%Z.leb_le]%andb_prop H5]%andb_prop Hm.
  unfold up. set (A := 2 ^ Z.max 0 e). set (B := 2 ^ Z.max 0 (- e)).
  assert (0 < A) by (apply Z.pow_pos_nonneg; lia). assert (0 < B) by (apply Z.pow_pos_nonneg; lia).
  pose proof (Z.log2_nonneg m) as Ln. destruct (Z.log2_spec m Hm) as [L1 L2].
  assert (Hlog : log2_ratio (m * A) B = Z.log2 m + e).
  { assert (HAB : forall l, 0 <= l -> 2 ^ l * A * 2 ^ Z.max 0 (- (l + e)) = B * 2 ^ Z.max 0 (l + e)).
    { intros l Hl. unfold A, B. rw -!Z.pow_add_r; [|lia..]. f_equal. lia. }
    apply log2_ratio_unique; unfold pow2_le; [nia|done| |].
    - rw -(HAB _ Ln). assert (0 < 2 ^ Z.max 0 (- (Z.log2 m + e))) by (apply Z.pow_pos_nonneg; lia). nia.
    - replace (Z.log2 m + e + 1) with (Z.succ (Z.log2 m) + e) by lia. rw -HAB; [|lia].
      assert (0 < 2 ^ Z.max 0 (- (Z.succ (Z.log2 m) + e))) by (apply Z.pow_pos_nonneg; lia).
      set (P := 2 ^ Z.max 0 _) in *. assert (m * A < 2 ^ Z.succ (Z.log2 m) * A) by nia. nia. }
  unfold round_ratio. destruct (Z.eqb_spec (m * A) 0); [nia|]. rw Hlog.
  assert (Hmax : Z.max (-1074) (Z.log2 m + e - 52) = e).
  { assert (Z.log2 m < 53) by (by apply Z.log2_lt_pow2).
    apply orb_prop in H5 as [H5%Z.leb_le|H5%Z.eqb_eq]; [|lia].
    assert (52 <= Z.log2 m) by (by apply Z.log2_le_pow2). lia. }
  rw Hmax. fold A B.
  assert (div_half_even (m * A * B) (B * A) = m) as ->.
  { unfold div_half_even. replace (m * A * B) with (m * (B * A)) by lia. rw Z.div_mul; [|nia]. rw Z.mod_mul; [|nia].
    destruct (Z.ltb_spec (2 * 0) (B * A)); [done|nia]. }
  destruct (Z.eqb_spec m (2 ^ 53)); [lia|]. by destruct (Z.ltb_spec 971 e); [lia|].
Qed.

Lemma round_decimal_exact m e : float_ok (Fin false m e) = true -> 0 < m ->
  round_decimal false (m * up e * 5 ^ Z.max 0 (- e)) (- Z.max 0 (- e)) = Fin false m e.
Proof.
  intros Hok Hm. pose proof (round_ratio_exact false m e Hok Hm) as Hr. unfold up in *.
  set (j := Z.max 0 (- e)) in *. assert (0 <= j) by lia.
  assert (0 < 2 ^ Z.max 0 e) by (apply Z.pow_pos_nonneg; lia). assert (0 < 5 ^ j) by (apply Z.pow_pos_nonneg; lia).
  set (n := m * 2 ^ Z.max 0 e) in *. assert (0 < n) by nia. unfold round_decimal.
  destruct (Z.eqb_spec (n * 5 ^ j) 0); [nia|]. destruct (Z.ltb_spec 400 (- j)); [lia|].
  assert (Hl : 2 * j <= Z.log2 (n * 5 ^ j)).
  { apply Z.log2_le_pow2; [nia|]. rw Z.pow_mul_r; [|lia..]. assert ((2 ^ 2) ^ j <= 5 ^ j) by (apply Z.pow_le_mono_l; lia). nia. }
  destruct (Z.ltb_spec (Z.log2 (n * 5 ^ j) + 1 + - j) (-400)); [lia|].
  rw (Z.max_l 0 (- j)); [|lia]. rw Z.pow_0_r Z.mul_1_r Z.opp_involutive (Z.max_r 0 j); [|lia].
  change 10 with (2 * 5). rw Z.pow_mul_l round_ratio_scale; [done|lia|apply Z.pow_pos_nonneg; lia|done].
Qed.

Lemma round_decimal_sign neg c x m e : round_decimal false c x = Fin false m e -> round_decimal neg c x = Fin neg m e.
Proof.
  unfold round_decimal. destruct (c =? 0); [by intros [= <- <-]|]. destruct (400 <? x); [done|].
  destruct (_ <? -400); [by intros [= <- <-]|]. unfold round_ratio. destruct (_ =? 0); [by intros [= <- <-]|].
  destruct (_ =? 2 ^ 53); (destruct (971 <? _); [done|by intros [= <- <-]]).
Qed.

Lemma round_decimal_nonzero c x m e : 0 < m -> round_decimal false c x = Fin false m e -> c <> 0.
Proof. intros Hm Hr ->. injection Hr as Hr _. lia. Qed.

Lemma try_digits_spec f n d k p c x : 0 < n -> 0 < d ->
  try_digits f n d k p = Some (c, x) -> 0 <= c /\ round_decimal false c x = f.
Proof.
  intros Hn Hd. unfold try_digits. set (num := n * _). set (den := d * _).
  assert (Hlo : 0 <= num / den).
  { apply Z.div_pos; [pose proof (pow10_pos (p - 1 - k)); nia|pose proof (pow10_pos (- (p - 1 - k))); nia]. }
  destruct (2 * (num mod den) <=? den).
  all: case_bool_decide as Ha; [intros [= <- <-]; split; [lia|done]|].
  all: case_bool_decide as Hb; [intros [= <- <-]; split; [lia|done]|done].
Qed.

Lemma shortest_spec m e : float_ok (Fin false m e) = true -> 0 < m ->
  0 < (shortest m e).1 /\ round_decimal false (shortest m e).1 (shortest m e).2 = Fin false m e.
Proof.
  intros Hok Hm. unfold shortest. set (n := m * up e). set (d := up (- e)).
  assert (0 < up e) by (apply Z.pow_pos_nonneg; lia). assert (0 < d) by (apply Z.pow_pos_nonneg; lia).
  assert (0 < n) by nia. generalize (log10_ratio n d) as k. generalize 1 as p. generalize 17%nat as fuel.
  induction fuel as [|fuel IH]; intros p k; cbn [shortest_from fst snd].
  - pose proof (round_decimal_exact m e Hok Hm) as Hr. fold n in Hr. split; [|done].
    assert (0 < 5 ^ Z.max 0 (- e)) by (apply Z.pow_pos_nonneg; lia). nia.
  - destruct (try_digits _ n d k p) as [[c x]|] eqn:Ht; [|apply IH].
    apply try_digits_spec in Ht as [Hc Hr]; [|done..]. cbn [fst snd]. split; [|done].
    pose proof (round_decimal_nonzero _ _ _ _ Hm Hr). lia.
Qed.

Lemma zeros_text n : digits_only (zeros n) /\ String.length (zeros n) = n /\ dec (zeros n) = 0.
Proof.
  induction n as [|n (H1 & H2 & H3)]; [done|]. cbn [zeros]. rw str_cons_app str_app_nil_l.
  split_and!; [done|cbn; by rw H2|by rw dec_cons H3].
Qed.

Lemma dec_zeros_app n d : dec (zeros n +:+ d) = dec d.
Proof. rw dec_app. destruct (zeros_text n) as (_ & _ & ->). lia. Qed.

Lemma pretty_nat_text x : 0 <= x -> digits_only (pretty x : string) /\ (pretty x : string) <> "" /\ dec (pretty x : string) = x.
Proof.
  intros Hx. destruct x as [|p|p]; [done| |lia]. change (pretty (Z.pos p) : string) with (pretty (N.pos p)).
  destruct (pretty_pos_dec p) as [Hd _], (pretty_pos_digits p) as [Hp Hn]. by split_and!.
Qed.

Lemma str_split_digits n s : digits_only s -> (n <= String.length s)%nat ->
  exists a b, str_split n s = (a, b) /\ s = a +:+ b /\ String.length a = n /\ digits_only a /\ digits_only b.
Proof.
  revert s. induction n as [|n IH]; intros s Hs Hl; [exists "", s; by destruct s|].
  destruct s as [|c s]; [cbn in Hl; lia|]. cbn [str_all] in Hs. apply andb_prop in Hs as [Hc Hs].
  destruct (IH s Hs ltac:(cbn in Hl; lia)) as (a & b & Hab & -> & La & Ha & Hb). exists (String c a), b.
  cbn [str_split]. rw Hab. split_and!; [done|done|cbn; by rw La|cbn; by rw Hc|done].
Qed.

(** The four forms of the text all spell the significant digits at the right power. *)
Lemma format_decimal_text sg c x : is_sign sg -> 0 < c ->
  valid_number (sg +:+ format_decimal c x) = true
  /\ exists c' x', literal_value (sg +:+ format_decimal c x) = Some (negb (bool_decide (sg = "")), c', x')
       /\ forall neg, round_decimal neg c' x' = round_decimal neg c x.
Proof.
  intros Hsg Hc. unfold format_decimal. set (P := pretty c : string). set (ds := trim_right0 P).
  assert (HP : digits_only P /\ leading P /\ dec P = c).
  { destruct c as [|p|p]; [lia| |lia]. unfold P. change (pretty (Z.pos p) : string) with (pretty (N.pos p)).
    destruct (pretty_pos_dec p) as [Hd Hl], (pretty_pos_digits p) as [Hp _]. by split_and!. }
  destruct HP as (PD & PL & PV). destruct (trim_right0_spec P PD) as (D1 & D2 & D3 & _). fold ds in D1, D2, D3.
  pose proof (trim_right0_leading P PD PL) as DL. fold ds in DL.
  set (L := String.length P) in *. set (l := String.length ds) in *. set (point := Z.of_nat L + x).
  assert (Hpos : 0 < dec ds).
  { pose proof (dec_range ds D1). destruct (Z.eq_dec (dec ds) 0) as [Hz|]; [rw Hz in D3; lia|lia]. }
  assert (Hval : forall neg, round_decimal neg (dec ds) (x + (Z.of_nat L - Z.of_nat l)) = round_decimal neg c x).
  { intros neg. replace (x + (Z.of_nat L - Z.of_nat l)) with (x + Z.of_nat (L - l)) by lia.
    rw -round_decimal_scale; [|lia..]. by rw -D3 PV. }
  destruct ((point <? -5) || (21 <? point)).
  - destruct (str_split_digits 1 ds D1) as (h & t & Hst & Hht & Lh & Hh & Ht).
    { destruct ds; [done|cbn; lia]. }
    rw Hst. set (ex := point - 1).
    destruct (pretty_nat_text (Z.abs ex) ltac:(lia)) as (E1 & E2 & E3).
    set (f := match t with EmptyString => "" | _ => "." +:+ t end).
    set (e := "e" +:+ (if ex <? 0 then "-" else "+") +:+ (pretty (Z.abs ex) : string)).
    assert (Hi : int_text h).
    { split; [done|]. right. rw Hht in DL. destruct h as [|a h]; [done|]. by rw str_cons_app in DL. }
    assert (Hf : frac_text f t) by (split; [done|]; unfold f; destruct t; [by left|by right]).
    assert (He : exponent_part e ex).
    { right. exists (pretty (Z.abs ex)). split_and!; [done..|]. unfold e. destruct (Z.ltb_spec ex 0); [right|left]; (split; [done|lia]). }
    destruct (assembled_number sg h f t e ex Hsg Hi Hf He) as [V1 V2]. split; [done|].
    exists (dec ds), (ex - Z.of_nat (String.length t)). rw V2. rw -Hht. split; [done|]. intros neg. rw -Hval. f_equal.
    assert (l = 1 + String.length t)%nat by (unfold l; rw Hht str_length_app Lh; done). lia.
  - destruct (Z.leb_spec point 0) as [Hp0|Hp0].
    + set (z := zeros (Z.to_nat (- point))). destruct (zeros_text (Z.to_nat (- point))) as (Z1 & Z2 & Z3). fold z in Z1, Z2, Z3.
      assert (Hf : frac_text ("." +:+ z +:+ ds) (z +:+ ds)).
      { split; [by rw str_all_app Z1 D1|]. right. split; [done|]. intros Hn. apply (f_equal String.length) in Hn.
        rw str_length_app in Hn. destruct ds; [done|]. cbn in Hn. lia. }
      destruct (assembled_number sg "0" ("." +:+ z +:+ ds) (z +:+ ds) "" 0 Hsg) as [V1 V2]; [by split; [|left]|done|by left|].
      rw str_app_nil_r in V1, V2. change ("0." +:+ z +:+ ds) with ("0" +:+ "." +:+ z +:+ ds). split; [done|]. rw V2.
      eexists _, _. split; [done|]. intros neg. rw -Hval. rw str_cons_app str_app_nil_l dec_cons (dec_app z ds) Z3 str_length_app Z2. fold l.
      match goal with |- context [byte_val ?a - 48] => change (byte_val a - 48) with 0 end. f_equal; lia.
    + destruct (Z.leb_spec (Z.of_nat l) point) as [Hlp|Hlp].
      * set (k := Z.to_nat (point - Z.of_nat l)). destruct (zeros_text k) as (Z1 & Z2 & Z3).
        assert (Hi : int_text (ds +:+ zeros k)).
        { split; [by rw str_all_app D1 Z1|]. right. destruct ds; [done|]. by rw str_cons_app. }
        destruct (assembled_number sg (ds +:+ zeros k) "" "" "" 0 Hsg Hi) as [V1 V2]; [by split; [|left]|by left|].
        rw !str_app_nil_r in V1, V2. split; [done|]. rw V2. eexists _, _. split; [done|]. intros neg.
        rw dec_app Z2 Z3. cbn [String.length]. change (Z.of_nat 0) with 0. rw Z.add_0_r Z.sub_0_r round_decimal_scale; [|lia..].
        rw -Hval. f_equal. lia.
      * destruct (str_split_digits (Z.to_nat point) ds D1 ltac:(fold l; lia)) as (a & b & Hst & Hab & La & Ha & Hb). rw Hst.
        assert (Hi : int_text a).
        { split; [done|]. right. rw Hab in DL. destruct a as [|y a]; [cbn in La; lia|]. by rw str_cons_app in DL. }
        assert (Hlen : l = (Z.to_nat point + String.length b)%nat) by (unfold l; by rw Hab str_length_app La).
        assert (Hf : frac_text ("." +:+ b) b) by (split; [done|]; right; split; [done|]; intros ->; cbn in Hlen; lia).
        destruct (assembled_number sg a ("." +:+ b) b "" 0 Hsg Hi Hf) as [V1 V2]; [by left|].
        rw str_app_nil_r in V1, V2. split; [done|]. rw V2. rw -Hab. eexists _, _. split; [done|]. intros neg. rw -Hval.
        f_equal. lia.
Qed.

Lemma float_text_spec neg m e s : float_ok (Fin neg m e) = true -> float_text (Fin neg m e) = Some s ->
  valid_number s = true /\ parse_float s = Some (Fin neg m e).
Proof.
  intros Hok [= <-]. set (sg := if neg then "-" else "").
  assert (Hsg : is_sign sg /\ negb (bool_decide (sg = "")) = neg) by (unfold sg; destruct neg; split; [by right|done|by left|done]).
  destruct Hsg as [Hsg Hneg]. assert (Hok' : float_ok (Fin false m e) = true) by done.
  unfold float_ok in Hok. apply andb_prop in Hok as [[[[Hm%Z.leb_le Hm53%Z.ltb_lt]%andb_prop _]%andb_prop _]%andb_prop Hsub].
  destruct (Z.eqb_spec m 0) as [->|Hm0].
  - destruct (assembled_number sg "0" "" "" "" 0 Hsg) as [V1 V2]; [by split; [|left]|by split; [|left]|by left|].
    rw !str_app_nil_r in V1, V2. split; [done|]. unfold parse_float. rw V2. cbn [mbind option_bind]. rw Hneg.
    apply orb_prop in Hsub as [Hs%Z.leb_le|Hs%Z.eqb_eq]; [lia|]. by rw Hs.
  - destruct (shortest_spec m e Hok' ltac:(lia)) as [Hc Hr]. destruct (shortest m e) as [c x]. cbn [fst snd] in Hc, Hr.
    destruct (format_decimal_text sg c x Hsg Hc) as (V1 & c' & x' & V2 & V3). split; [done|].
    unfold parse_float. rw V2. cbn [mbind option_bind]. by rw Hneg V3 (round_decimal_sign neg c x m e Hr).
Qed.

(** * Parsed floats are well formed *)

Lemma div_half_even_bounds n d q : 0 < d -> q * d <= n -> q <= div_half_even n d.
Proof.
  intros Hd Hq. assert (q <= n / d) by (apply Z.div_le_lower_bound; lia). unfold div_half_even. destruct (_ || _); lia.
Qed.
Lemma div_half_even_upper n d q : 0 < d -> n < q * d -> div_half_even n d <= q.
Proof.
  intros Hd Hq. assert (n / d < q) by (apply Z.div_lt_upper_bound; lia). unfold div_half_even. destruct (_ || _); lia.
Qed.

Lemma round_ratio_ok neg n d : 0 <= n -> 0 < d -> float_ok (round_ratio neg n d) = true.
Proof.
  intros Hn Hd. unfold round_ratio. destruct (Z.eqb_spec n 0); [done|].
  destruct (log2_ratio_spec n d ltac:(lia) Hd) as [S1 S2]. set (l := log2_ratio n d) in *.
  set (e := Z.max (-1074) (l - 52)). set (m := div_half_even _ _).
  assert (HA : 0 < 2 ^ Z.max 0 e) by (apply Z.pow_pos_nonneg; lia).
  assert (HB : 0 < 2 ^ Z.max 0 (- e)) by (apply Z.pow_pos_nonneg; lia).
  assert (Hlo : 0 <= m) by (apply div_half_even_bounds; nia).
  assert (Hhi : m <= 2 ^ 53).
  { apply div_half_even_upper; [nia|]. assert (Hle : l + 1 <= e + 53) by lia.
    assert (Hn' : ~ pow2_le n d (e + 53)).
    { intros H. pose proof (pow2_le_anti n d (e + 53) (l + 1) ltac:(lia) Hd Hle H) as H'. unfold pow2_le in H'. lia. }
    unfold pow2_le in Hn'.
    assert (HP : 2 ^ Z.max 0 (e + 53) * 2 ^ Z.max 0 (- e) = 2 ^ 53 * (2 ^ Z.max 0 e * 2 ^ Z.max 0 (- (e + 53)))).
    { rw -!Z.pow_add_r; [|lia..]. f_equal. lia. }
    assert (0 < 2 ^ Z.max 0 (- (e + 53))) by (apply Z.pow_pos_nonneg; lia).
    set (X := 2 ^ Z.max 0 (e + 53)) in *. set (Y := 2 ^ Z.max 0 (- (e + 53))) in *.
    set (A := 2 ^ Z.max 0 e) in *. set (B := 2 ^ Z.max 0 (- e)) in *. set (K := 2 ^ 53) in *. nia. }
  assert (Hnorm : e = -1074 \/ 2 ^ 52 <= m).
  { destruct (Z.eq_dec e (-1074)) as [|He]; [by left|right]. apply div_half_even_bounds; [nia|].
    assert (Hl : l = e + 52) by lia.
    assert (HP : 2 ^ Z.max 0 l * 2 ^ Z.max 0 (- e) = 2 ^ 52 * (2 ^ Z.max 0 e * 2 ^ Z.max 0 (- l))).
    { rw -!Z.pow_add_r; [|lia..]. f_equal. lia. }
    assert (0 < 2 ^ Z.max 0 (- l)) by (apply Z.pow_pos_nonneg; lia).
    set (X := 2 ^ Z.max 0 l) in *. set (Y := 2 ^ Z.max 0 (- l)) in *.
    set (A := 2 ^ Z.max 0 e) in *. set (B := 2 ^ Z.max 0 (- e)) in *. set (K := 2 ^ 52) in *. nia. }
  destruct (Z.eqb_spec m (2 ^ 53)) as [Hm|Hm].
  - destruct (Z.ltb_spec 971 (e + 1)); [done|]. unfold float_ok.
    change ((0 <=? 2 ^ 52) && (2 ^ 52 <? 2 ^ 53)) with true. change (2 ^ 52 <=? 2 ^ 52) with true.
    cbn [orb andb]. rw andb_true_r. apply andb_true_intro. split; apply Z.leb_le; lia.
  - destruct (Z.ltb_spec 971 e); [done|]. unfold float_ok.
    repeat (apply andb_true_intro; split); try apply Z.leb_le; try apply Z.ltb_lt; lia.
Qed.

Lemma dec_nonneg s : digits_only s -> 0 <= dec s.
Proof. intros H. by destruct (dec_range s H). Qed.

Lemma parse_float_ok lit f : valid_number lit = true -> parse_float lit = Some f ->
  float_ok f = true /\ exists neg m e, f = Fin neg m e.
Proof.
  intros Hv. unfold parse_float. destruct (literal_value lit) as [[[neg m] x]|] eqn:Hl; [|done]. cbn [mbind option_bind].
  assert (Hm : 0 <= m).
  { unfold literal_value in Hl. destruct (scan_sign lit) as [sg s1]. destruct (scan_int s1) as [[i s2]|] eqn:Hi; [|done].
    cbn in Hl. destruct (scan_frac s2) as [[fr s3]|] eqn:Hf; [|done]. cbn in Hl. destruct (scan_exp s3) as [[e s4]|]; [|done].
    cbn in Hl. injection Hl as _ <- _. apply scan_int_spec in Hi as [Hi _]. apply dec_nonneg. rw str_all_app Hi.
    apply scan_frac_spec in Hf as [-> |(d & -> & Hd)]; [done|]. by rw str_cons_app str_app_nil_l. }
  assert (Hok : float_ok (round_decimal neg m x) = true).
  { unfold round_decimal. destruct (m =? 0); [done|]. destruct (400 <? x); [done|]. destruct (_ <? -400); [done|].
    apply round_ratio_ok; [|apply pow10_pos]. pose proof (pow10_pos x). nia. }
  destruct (round_decimal neg m x) as [s m' e'|s|]; [|done..]. intros [= <-]. split; [done|by eexists _, _, _].
Qed.
