(* ===== verification/Outbox.v ===== *)
(** The asynchronous ingest queue: api/internal/ingest/outbox/{store,worker,adapter}.go.

    [ODB] holds the rows of [ingest_receipts] and [ingest_outbox].  JSON columns
    are kept as values: the payload as the server's jsonb value, the ids and
    the validation errors of a receipt as the lists they decode to.  The text
    of an error, which ends with the driver's message, is the parameter
    [errText].  Every store operation runs in an environment, at a server time
    [dbnow] and a worker time [now]. *)
From S2P Require Import Prelude Errors GoTime Json AuditModel AuditHash TimeText Float64 Execution AuditService Postgres AuditStore TelemetryStore.
Import GoTime.
Local Open Scope Z_scope.

(** * json.Marshal and json.Unmarshal of an audit event *)

Definition actor_member (a : Actor) : json :=
  JObj ([("id", JStr (actor_ID a)); ("type", JStr (actor_Type a))] ++ omit (is_empty (actor_Email a)) "email" (JStr (actor_Email a))).
Definition resource_member (r : Resource) : json :=
  JObj ([("id", JStr (resource_ID r)); ("type", JStr (resource_Type r))]
        ++ omit (is_empty (resource_Name r)) "name" (JStr (resource_Name r))).

Definition auditEvent_json (e : AuditEvent) : option json :=
  ts ← time_json (utc (ev_Timestamp e));
  Some (JObj ([("id", JStr (ev_ID e)); ("tenant_id", JStr (ev_TenantID e)); ("timestamp", ts);
               ("actor", actor_member (ev_Actor e)); ("action", JStr (ev_Action e));
               ("resource", resource_member (ev_Resource e)); ("outcome", JStr (ev_Outcome e));
               ("metadata", match ev_Metadata e with None => JNull | Some m => JObj m end);
               ("prev_hash", JStr (ev_PrevHash e)); ("hash", JStr (ev_Hash e))]
              ++ omit (ev_SequenceNumber e =? 0) "sequence_number" (JInt (ev_SequenceNumber e)))).

(** A value decoded into [interface{}]: numbers become [float64]. *)
Fixpoint interface_value (v : json) : option json :=
  match v with
  | JNum lit => f ← parse_float lit; s ← float_text f; Some (JNum s)
  | JArr l =>
      JArr <$> (fix go (l : list json) : option (list json) :=
        match l with [] => Some [] | x :: l => y ← interface_value x; ys ← go l; Some (y :: ys) end) l
  | JObj l =>
      JObj <$> (fix go (l : list (string * json)) : option (list (string * json)) :=
        match l with [] => Some [] | (k, x) :: l => y ← interface_value x; ys ← go l; Some ((k, y) :: ys) end) l
  | _ => Some v
  end.

(** Fields of a struct: absent and null leave the zero value, another type is an error. *)
Definition dec_string (k : string) (m : list member) : option string :=
  match field k m with None | Some JNull => Some "" | Some (JStr s) => Some s | Some _ => None end.
Definition dec_time (k : string) (m : list member) : option Time :=
  match field k m with
  | None | Some JNull => Some zeroTime
  | Some (JStr s) => zt_instant <$> parse_time s
  | Some _ => None
  end.
Definition dec_int64 (k : string) (m : list member) : option Z :=
  match field k m with None | Some JNull => Some 0 | Some (JNum lit) => parse_integer 64 lit | Some _ => None end.
Definition dec_struct (k : string) (m : list member) : option (list member) :=
  match field k m with None | Some JNull => Some [] | Some (JObj m') => Some m' | Some _ => None end.
Definition dec_map (k : string) (m : list member) : option (option metadata) :=
  match field k m with
  | None | Some JNull => Some None
  | Some (JObj m') => v ← interface_value (JObj m'); match v with JObj m'' => Some (Some m'') | _ => None end
  | Some _ => None
  end.

Definition actor_of_json (m : list member) : option Actor :=
  id ← dec_string "id" m; ty ← dec_string "type" m; email ← dec_string "email" m; Some (MkActor id ty email).
Definition resource_of_json (m : list member) : option Resource :=
  id ← dec_string "id" m; ty ← dec_string "type" m; name ← dec_string "name" m; Some (MkResource id ty name).

Definition auditEvent_of_json (v : json) : option AuditEvent :=
  match v with
  | JObj m =>
      id ← dec_string "id" m; tenant ← dec_string "tenant_id" m; ts ← dec_time "timestamp" m;
      actor ← dec_struct "actor" m ≫= actor_of_json; action ← dec_string "action" m;
      resource ← dec_struct "resource" m ≫= resource_of_json; outcome ← dec_string "outcome" m;
      md ← dec_map "metadata" m; prev ← dec_string "prev_hash" m; hash ← dec_string "hash" m;
      seq ← dec_int64 "sequence_number" m;
      Some (MkEvent id tenant ts actor action resource outcome md prev hash seq)
  | _ => None
  end.

(** The payload of a batch and back ([DecodePayload]). *)
Definition marshal_events (events : list AuditEvent) : option json :=
  l ← mapM auditEvent_json events; b ← marshal (JArr l); decode b.
Definition DecodePayload (v : json) : option (list AuditEvent) :=
  match v with
  | JArr l => mapM auditEvent_of_json l
  | JNull => Some []
  | _ => None
  end.

(** * Tables *)

Record ReceiptRow := MkReceiptRow {
  rc_ID : string; rc_TenantID : string; rc_Status : string; rc_Accepted : nat; rc_Rejected : nat;
  rc_EventIDs : list string; rc_Errors : list BatchError; rc_ErrorMessage : option string;
  rc_CreatedAt : Time; rc_CommittedAt : option Time
}.
Record OutboxRow := MkOutboxRow {
  ob_ID : string; ob_ReceiptID : string; ob_TenantID : string; ob_Payload : json; ob_Status : string;
  ob_Attempts : Z; ob_AvailableAt : Time; ob_CreatedAt : Time; ob_ProcessedAt : option Time; ob_Error : option string
}.
Record ODB := MkODB { o_receipts : list ReceiptRow; o_outbox : list OutboxRow }.

(** [Row]: a claimed message. *)
Record Row := MkRow { row_ID : string; row_ReceiptID : string; row_TenantID : string; row_Payload : json; row_Attempts : Z }.
(** [Receipt] *)
Record Receipt := MkReceiptView {
  rp_ID : string; rp_TenantID : string; rp_Status : string; rp_AcceptedCount : nat; rp_RejectedCount : nat;
  rp_EventIDs : list string; rp_Errors : list BatchError; rp_ErrorMessage : string;
  rp_CreatedAt : Time; rp_CommittedAt : option Time
}.

(** * Transactions *)

Definition OTx (A : Type) : Type := ODB -> res A * ODB.
Global Instance otx_ret : MRet OTx := fun _ a d => (Ok a, d).
Global Instance otx_bind : MBind OTx := fun _ _ f m d =>
  match m d with (Ok a, d') => f a d' | (Err e, d') => (Err e, d') end.
Definition o_fail {A} (msg : string) : OTx A := fun d => (Err (Internal msg), d).
(** A statement: refused by the network or by the server ([None]), else the new tables. *)
Definition o_exec (env : Env) (c : Call) (msg : string) (f : ODB -> option ODB) : OTx unit := fun d =>
  if fails env c then (Err (Internal msg), d)
  else match f d with None => (Err (Internal msg), d) | Some d' => (Ok tt, d') end.
Definition o_query {A} (env : Env) (c : Call) (msg : string) (f : ODB -> A) : OTx A := fun d =>
  if fails env c then (Err (Internal msg), d) else (Ok (f d), d).
(** [Begin], the body, [Commit]; the deferred [Rollback] restores the rows. *)
Definition o_tx {A} (env : Env) (beginMsg : string) (commitMsg : A -> string) (body : OTx A) : OTx A := fun d =>
  if fails env CallBegin then (Err (Internal beginMsg), d)
  else match body d with
       | (Err e, _) => (Err e, d)
       | (Ok a, d') => if fails env CallCommit then (Err (Internal (commitMsg a)), commit env d d') else (Ok a, d')
       end.

Definition map_receipt (id : string) (f : ReceiptRow -> ReceiptRow) (d : ODB) : ODB :=
  MkODB (map (fun r => if decide (rc_ID r = id) then f r else r) (o_receipts d)) (o_outbox d).
Definition map_outbox (P : OutboxRow -> bool) (f : OutboxRow -> OutboxRow) (d : ODB) : ODB :=
  MkODB (o_receipts d) (map (fun r => if P r then f r else r) (o_outbox d)).
Definition has_id (id : string) (r : OutboxRow) : bool := bool_decide (ob_ID r = id).

(** The INT range. *)
Definition int4_ok (z : Z) : bool := (- 2 ^ 31 <=? z) && (z <? 2 ^ 31).

Section Store.
Context `{Hj : Jsonb}.
(** The ids in the tenants table. *)
Variable tenant_exists : string -> bool.

Definition insert_receipt (dbnow : Time) (receiptID tenantID : string) (v : BatchResult) (d : ODB) : option ODB :=
  if text_ok receiptID && text_ok tenantID && tenant_exists tenantID
     && int4_ok (Z.of_nat (br_Accepted v)) && int4_ok (Z.of_nat (br_Rejected v))
     && bool_decide (receiptID ∉ map rc_ID (o_receipts d))
  then Some (MkODB (o_receipts d ++ [MkReceiptRow receiptID tenantID "queued" (br_Accepted v) (br_Rejected v) []
                                       (br_Errors v) None dbnow None]) (o_outbox d))
  else None.

Definition insert_outbox (dbnow : Time) (id receiptID tenantID : string) (payload : json) (d : ODB) : option ODB :=
  w ← jsonb payload;
  if text_ok id && text_ok tenantID && bool_decide (receiptID ∈ map rc_ID (o_receipts d)) && bool_decide (id ∉ map ob_ID (o_outbox d))
  then Some (MkODB (o_receipts d) (o_outbox d ++ [MkOutboxRow id receiptID tenantID w "pending" 0 dbnow dbnow None None]))
  else None.

Definition Enqueue (env : Env) (dbnow : Time) (tenantID receiptID : string) (events : list AuditEvent) (validation : BatchResult)
    : OTx unit :=
  match marshal_events events with
  | None => o_fail "marshaling outbox payload"
  | Some payload =>
      o_tx env "begin outbox tx" (fun _ => "commit outbox tx") (
        _ ← o_exec env (CallWrite 0) "inserting ingest receipt" (insert_receipt dbnow receiptID tenantID validation);
        o_exec env (CallWrite 1) "inserting outbox row" (insert_outbox dbnow ("obx_" +:+ receiptID) receiptID tenantID payload))
  end.

Definition receipt_view (r : ReceiptRow) : Receipt :=
  MkReceiptView (rc_ID r) (rc_TenantID r) (rc_Status r) (rc_Accepted r) (rc_Rejected r) (rc_EventIDs r) (rc_Errors r)
    (default "" (rc_ErrorMessage r)) (rc_CreatedAt r) (rc_CommittedAt r).

Definition store_GetReceipt (env : Env) (tenantID receiptID : string) (d : ODB) : res Receipt :=
  if fails env (CallRead 0) then Err (Internal "getting ingest receipt")
  else match head (filter (fun r => rc_ID r = receiptID /\ rc_TenantID r = tenantID) (o_receipts d)) with
       | None => Err (NotFound "ingest_receipt" receiptID)
       | Some r => Ok (receipt_view r)
       end.

(** Adapter.GetReceipt *)
Definition GetReceipt (env : Env) (tenantID receiptID : string) (d : ODB) : res AsyncReceipt :=
  r ← store_GetReceipt env tenantID receiptID d;
  Ok (MkReceipt (rp_ID r) (rp_Status r) (MkBatchResult (rp_AcceptedCount r) (rp_RejectedCount r) (rp_EventIDs r) (rp_Errors r))
        (rp_ErrorMessage r) (rp_CreatedAt r) (rp_CommittedAt r)).

(** ** Claiming *)

(** FOR UPDATE SKIP LOCKED: [locked] are the rows held by open transactions. *)
Definition claimable (dbnow : Time) (locked : gset string) (r : OutboxRow) : bool :=
  bool_decide (ob_Status r = "pending") && (ob_AvailableAt r <=? dbnow) && bool_decide (ob_ID r ∉ locked).
Definition claim_rows (dbnow : Time) (locked : gset string) (limit : nat) (d : ODB) : list OutboxRow :=
  firstn limit (order_by ob_CreatedAt (filter (fun r => claimable dbnow locked r = true) (o_outbox d))).
Definition claimed_row (r : OutboxRow) : Row :=
  MkRow (ob_ID r) (ob_ReceiptID r) (ob_TenantID r) (ob_Payload r) (ob_Attempts r).

Definition set_ob_status (s : string) (r : OutboxRow) : OutboxRow :=
  MkOutboxRow (ob_ID r) (ob_ReceiptID r) (ob_TenantID r) (ob_Payload r) s (ob_Attempts r) (ob_AvailableAt r)
    (ob_CreatedAt r) (ob_ProcessedAt r) (ob_Error r).

Definition ClaimPending (env : Env) (dbnow : Time) (locked : gset string) (limit : nat) : OTx (list Row) :=
  o_tx env "begin claim tx" (fun l => match l with [] => "commit empty claim tx" | _ => "commit claim tx" end) (
    rows ← o_query env (CallRead 0) "claiming outbox rows" (claim_rows dbnow locked limit);
    match rows with
    | [] => mret []
    | _ =>
        let ids := map ob_ID rows in
        _ ← o_exec env (CallWrite 0) "marking outbox processing"
              (fun d => Some (map_outbox (fun r => bool_decide (ob_ID r ∈ ids)) (set_ob_status "processing") d));
        mret (map claimed_row rows)
    end).

(** ** Outcomes *)

Definition mark_done (dbnow : Time) (r : OutboxRow) : OutboxRow :=
  MkOutboxRow (ob_ID r) (ob_ReceiptID r) (ob_TenantID r) (ob_Payload r) "done" (ob_Attempts r) (ob_AvailableAt r)
    (ob_CreatedAt r) (Some dbnow) (ob_Error r).
Definition commit_receipt (dbnow : Time) (ids : list string) (r : ReceiptRow) : ReceiptRow :=
  MkReceiptRow (rc_ID r) (rc_TenantID r) "committed" (rc_Accepted r) (rc_Rejected r) ids (rc_Errors r)
    (rc_ErrorMessage r) (rc_CreatedAt r) (Some dbnow).

Definition MarkCommitted (env : Env) (dbnow : Time) (outboxID receiptID : string) (eventIDs : list string) : OTx unit :=
  o_tx env "begin commit tx" (fun _ => "commit outbox success tx") (
    _ ← o_exec env (CallWrite 0) "marking outbox done" (fun d => Some (map_outbox (has_id outboxID) (mark_done dbnow) d));
    o_exec env (CallWrite 1) "marking receipt committed" (fun d =>
      if forallb text_ok eventIDs then Some (map_receipt receiptID (commit_receipt dbnow eventIDs) d) else None)).

Definition mark_failed (dbnow : Time) (errMsg : string) (attempts : Z) (r : OutboxRow) : OutboxRow :=
  MkOutboxRow (ob_ID r) (ob_ReceiptID r) (ob_TenantID r) (ob_Payload r) "failed" attempts (ob_AvailableAt r)
    (ob_CreatedAt r) (Some dbnow) (Some errMsg).
Definition fail_receipt (errMsg : string) (r : ReceiptRow) : ReceiptRow :=
  MkReceiptRow (rc_ID r) (rc_TenantID r) "failed" (rc_Accepted r) (rc_Rejected r) (rc_EventIDs r) (rc_Errors r)
    (Some errMsg) (rc_CreatedAt r) (rc_CommittedAt r).
Definition mark_pending (attempts : Z) (availableAt : Time) (errMsg : string) (r : OutboxRow) : OutboxRow :=
  MkOutboxRow (ob_ID r) (ob_ReceiptID r) (ob_TenantID r) (ob_Payload r) "pending" attempts availableAt
    (ob_CreatedAt r) (ob_ProcessedAt r) (Some errMsg).

Definition MarkRetry (env : Env) (dbnow now : Time) (outboxID receiptID : string) (attempts maxAttempts : Z) (errMsg : string)
    (backoff : Duration) : OTx unit :=
  let ok := text_ok errMsg && int4_ok attempts in
  o_tx env "begin retry tx" (fun _ => if maxAttempts <=? attempts then "commit outbox fail tx" else "commit outbox retry tx") (
    if maxAttempts <=? attempts then
      _ ← o_exec env (CallWrite 0) "marking outbox failed" (fun d =>
            if ok then Some (map_outbox (has_id outboxID) (mark_failed dbnow errMsg attempts) d) else None);
      o_exec env (CallWrite 1) "marking receipt failed" (fun d => Some (map_receipt receiptID (fail_receipt errMsg) d))
    else
      o_exec env (CallWrite 0) "scheduling outbox retry" (fun d =>
        if ok then Some (map_outbox (has_id outboxID) (mark_pending attempts (pg_ts (now + backoff)) errMsg) d) else None)).

Definition OldestPendingLag (env : Env) (now : Time) (d : ODB) : res Duration :=
  if fails env (CallRead 0) then Err (Internal "outbox lag query")
  else match head (order_by ob_CreatedAt (filter (fun r => ob_Status r = "pending") (o_outbox d))) with
       | None => Ok 0
       | Some r => Ok (Sub now (ob_CreatedAt r))
       end.

Definition stale (dbnow : Time) (olderThan : Duration) (r : OutboxRow) : bool :=
  bool_decide (ob_Status r = "processing") && (ob_AvailableAt r <? dbnow - olderThan).
Definition mark_stale (dbnow : Time) (r : OutboxRow) : OutboxRow :=
  MkOutboxRow (ob_ID r) (ob_ReceiptID r) (ob_TenantID r) (ob_Payload r) "pending" (ob_Attempts r) dbnow
    (ob_CreatedAt r) (ob_ProcessedAt r) (Some "worker timeout / crash").

(** A single statement, committed on its own. *)
Definition ResetStaleProcessing (env : Env) (dbnow : Time) (olderThan : Duration) : OTx Z := fun d =>
  let d' := map_outbox (stale dbnow olderThan) (mark_stale dbnow) d in
  if fails env (CallWrite 0)
  then (Err (Internal "resetting stale processing outbox rows"), if commit_lost env then d' else d)
  else (Ok (Z.of_nat (length (filter (fun r => stale dbnow olderThan r = true) (o_outbox d)))), d').
End Store.

(** * The worker *)

Record WorkerConfig := MkWorkerConfig { wc_BatchSize : Z; wc_MaxAttempts : Z }.
(** NewWorker *)
Definition NewWorker (cfg : WorkerConfig) : WorkerConfig :=
  MkWorkerConfig (if wc_BatchSize cfg <=? 0 then 32 else wc_BatchSize cfg)
                 (if wc_MaxAttempts cfg <=? 0 then 10 else wc_MaxAttempts cfg).

(** What the worker acts on: the queue, the audit log, its subscribers and the alerts sent. *)
Record World {St : Type} := MkWorld {
  wd_queue : ODB; wd_audit : St; wd_subs : Subs; wd_alerts : list (string * string)
}.
Arguments World : clear implicits.

(** The surroundings of one step: of its store call, its clocks, and the error text. *)
Record Surround := MkSurround { su_env : Env; su_dbnow : Time; su_now : Time }.

Section Worker.
Context {St : Type} `{!Repository St}.
Variable errText : AppError -> string.
(** The text of a payload's decoding error. *)
Variable decodeText : json -> string.
Variable alerter : bool.
Variable w : WorkerConfig.

Definition retry_backoff (attempts : Z) : Duration := Z.min (30 * Second) (wrap64 ((attempts + 1) * Second)).

Definition on_queue {A} (f : OTx A) (s : World St) : res A * World St :=
  let '(r, q) := f (wd_queue s) in (r, MkWorld St q (wd_audit s) (wd_subs s) (wd_alerts s)).
Definition quietly {A} (f : OTx A) (s : World St) : World St := (on_queue f s).2.

Definition processRow (su : Surround) (row : Row) (s : World St) : World St :=
  let retry attempts msg backoff :=
    MarkRetry (su_env su) (su_dbnow su) (su_now su) (row_ID row) (row_ReceiptID row) attempts (wc_MaxAttempts w) msg backoff in
  match DecodePayload (row_Payload row) with
  | None => quietly (retry (row_Attempts row + 1) (decodeText (row_Payload row)) Second) s
  | Some events =>
      match CommitBatch (wd_audit s) (row_TenantID row) events with
      | (Err err, st') =>
          let nextAttempts := row_Attempts row + 1 in
          let alerts := if (wc_MaxAttempts w <=? nextAttempts) && alerter
                        then wd_alerts s ++ [(row_TenantID row, row_ReceiptID row)] else wd_alerts s in
          quietly (retry nextAttempts (errText err) (retry_backoff (row_Attempts row)))
            (MkWorld St (wd_queue s) st' (wd_subs s) alerts)
      | (Ok written, st') =>
          let s' := MkWorld St (wd_queue s) st' (wd_subs s) (wd_alerts s) in
          match on_queue (MarkCommitted (su_env su) (su_dbnow su) (row_ID row) (row_ReceiptID row) (map ev_ID written)) s' with
          | (Err _, s'') => s''
          | (Ok _, s'') => MkWorld St (wd_queue s'') (wd_audit s'') (FanoutEvents written (wd_subs s'')) (wd_alerts s'')
          end
      end
  end.

(** [processOnce]: the claim in [sus 0], the [i]-th row in [sus (i+1)]. *)
Fixpoint process_rows (sus : nat -> Surround) (i : nat) (rows : list Row) (s : World St) : World St :=
  match rows with [] => s | r :: rows => process_rows sus (S i) rows (processRow (sus i) r s) end.
Definition processOnce (sus : nat -> Surround) (locked : gset string) (s : World St) : World St :=
  match on_queue (ClaimPending (su_env (sus 0%nat)) (su_dbnow (sus 0%nat)) locked (Z.to_nat (wc_BatchSize w))) s with
  | (Err _, s') => s'
  | (Ok rows, s') => process_rows sus 1 rows s'
  end.

(** One turn of [Run]: poll, measure the lag, and reclaim when that ticker fired. *)
Definition reclaimAge : Duration := 5 * 60 * Second.
Definition run_turn (sus : nat -> Surround) (locked : gset string) (reclaim : option Surround) (s : World St) : World St :=
  let s := processOnce sus locked s in
  match reclaim with
  | None => s
  | Some su => quietly (ResetStaleProcessing (su_env su) (su_dbnow su) reclaimAge) s
  end.
Definition Run (turns : list ((nat -> Surround) * gset string * option Surround)) (s : World St) : World St :=
  fold_left (fun s t => run_turn t.1.1 t.1.2 t.2 s) turns s.
End Worker.
