(* ===== verification/OutboxFacts.v ===== *)
(** The invariant of the ingest queue.

    [queue_ok] relates receipts and messages one to one; every statement of the
    store either appends a pair or updates rows in place, keeping their keys
    ([queue_update]). *)
From S2P Require Import Prelude Errors GoTime Json JsonFacts Canonical CanonicalFacts AuditModel AuditHash TimeText Float64 FloatFacts Execution AuditService Postgres AuditStore AuditStoreFacts AuditServiceFacts AuditIngest AuditRepo TelemetryStore EventFacts Outbox.
Import GoTime.
Local Open Scope Z_scope.

(** * Decoded payloads *)

Definition obj_values (f : json -> option json) (l : list (string * json)) : option (list (string * json)) :=
  mapM (fun kv => y ← f kv.2; Some (kv.1, y)) l.

Lemma interface_arr l : interface_value (JArr l) = JArr <$> mapM interface_value l.
Proof. done. Qed.
Lemma interface_obj l : interface_value (JObj l) = JObj <$> obj_values interface_value l.
Proof.
  cbn. f_equal. unfold obj_values. induction l as [|[k x] l IH]; [done|]. cbn. destruct (interface_value x); [|done].
  cbn. rw IH. by destruct (mapM _ l).
Qed.

Lemma obj_values_keys f l l' : obj_values f l = Some l' -> map fst l' = map fst l.
Proof.
  unfold obj_values. intros H. apply mapM_Some in H. induction H as [|[k x] y l l' Hy Hl IH]; [done|].
  cbn in Hy. destruct (f x); [|done]. injection Hy as <-. cbn. by rw IH.
Qed.

Lemma interface_value_wf v w : interface_value v = Some w -> json_wf v = true -> json_wf w = true /\ nesting w = nesting v.
Proof.
  revert w. induction v as [| | lit | |l IH|l IH] using json_ind'; intros w; try by intros [= <-].
  - cbn [interface_value]. destruct (parse_float lit) as [f|] eqn:Hf; [|done]. cbn [mbind option_bind].
    destruct (float_text f) as [s|] eqn:Hs; [|done]. intros [= <-] Hw.
    destruct (parse_float_ok lit f Hw Hf) as (Hok & neg & m & e & ->). by destruct (float_text_spec neg m e s Hok Hs).
  - rw interface_arr. destruct (mapM interface_value l) as [l'|] eqn:Hm; [|done]. intros [= <-]. cbn [json_wf].
    apply mapM_Some in Hm. intros Hw.
    assert (H : forallb json_wf l' = true /\ foldr (fun x n => Z.max (nesting x) n) 0 l' = foldr (fun x n => Z.max (nesting x) n) 0 l).
    { induction Hm as [|x y l l' Hx Hm IHm]; [done|]. apply Forall_cons in IH as [IHx IHl]. cbn in Hw.
      apply andb_prop in Hw as [Hwx Hwl]. destruct (IHx y Hx Hwx) as [Hy Hn]. destruct (IHm IHl Hwl) as [Hl Hk].
      cbn. by rw Hy Hl Hn Hk. }
    destruct H as [H1 H2]. split; [done|]. cbn. by rw H2.
  - rw interface_obj. destruct (obj_values interface_value l) as [l'|] eqn:Hm; [|done]. intros [= <-]. cbn [json_wf].
    pose proof (obj_values_keys _ _ _ Hm) as Hkeys. rw Hkeys. intros [Hw Hnd]%andb_prop. unfold obj_values in Hm. apply mapM_Some in Hm.
    assert (H : forallb (fun kv => utf8_valid kv.1 && json_wf kv.2) l' = true
      /\ foldr (fun kv n => Z.max (nesting kv.2) n) 0 l' = foldr (fun kv n => Z.max (nesting kv.2) n) 0 l).
    { clear Hkeys Hnd. induction Hm as [|[k x] y l l' Hx Hm IHm]; [done|]. apply Forall_cons in IH as [IHx IHl]. cbn in Hw, Hx, IHx.
      apply andb_prop in Hw as [[Hu Hwx]%andb_prop Hwl]. destruct (interface_value x) as [z|] eqn:Hz; [|done]. injection Hx as <-.
      destruct (IHx z eq_refl Hwx) as [Hy Hn]. destruct (IHm IHl Hwl) as [Hl Hk]. cbn. by rw Hu Hy Hl Hn Hk. }
    destruct H as [H1 H2]. split; [by rw H1 Hnd|]. cbn. by rw H2.
Qed.

(** A payload as the server returns it. *)
Definition payload_wf (w : json) : Prop := json_wf w = true /\ nesting w <= maxNestingDepth.

Lemma foldr_max_le {A} (f : A -> Z) l x : x ∈ l -> f x <= foldr (fun y n => Z.max (f y) n) 0 l.
Proof. induction l as [|y l IH]; [by intros ?%not_elem_of_nil|]. cbn. intros [->|H%IH]%elem_of_cons; lia. Qed.

Lemma field_elem k m v : field k m = Some v -> (k, v) ∈ m.
Proof.
  induction m as [|[k' x] m IH]; [done|]. cbn. case_bool_decide as Hk; [intros [= <-]; subst; by left|]. intros H. right. by apply IH.
Qed.

Lemma decoded_md_ok v e : json_wf v = true -> nesting v <= maxNestingDepth -> auditEvent_of_json v = Some e -> md_ok e = true.
Proof.
  intros Hw Hn. destruct v as [| | | | |m]; try done. cbn [auditEvent_of_json].
  do 7 (intros (? & _ & H)%bind_Some; revert H). intros (md & Hmd & H)%bind_Some. revert H.
  do 3 (intros (? & _ & H)%bind_Some; revert H). intros [= <-]. unfold md_ok, md_of. cbn [ev_Metadata].
  unfold dec_map in Hmd. destruct (field "metadata" m) as [mv|] eqn:Hf; [|by injection Hmd as <-].
  apply field_elem in Hf. destruct mv as [| | | | |m']; try done; [by injection Hmd as <-|].
  apply bind_Some in Hmd as (w & Hi & Hmd). destruct w as [| | | | |m'']; try done. injection Hmd as <-. cbn [default].
  cbn [json_wf] in Hw. apply andb_prop in Hw as [Hw _]. rw forallb_forall in Hw. specialize (Hw _ (proj1 (list_elem_of_In _ _) Hf)).
  cbn in Hw. apply andb_prop in Hw as [_ Hw]. destruct (interface_value_wf _ _ Hi Hw) as [H1 H2]. unfold id. rw H1 H2. cbn [andb].
  apply Z.ltb_lt. pose proof (foldr_max_le (fun kv : member => nesting kv.2) m _ Hf) as Hle. cbn [snd] in Hle.
  cbn [nesting] in Hn. lia.
Qed.

Lemma DecodePayload_md w events : payload_wf w -> DecodePayload w = Some events -> Forall (fun e => md_ok e = true) events.
Proof.
  intros [Hw Hn]. destruct w as [| | | |l|]; try done; [by intros [= <-]|]. cbn [DecodePayload].
  intros H. apply mapM_Some in H. cbn [json_wf] in Hw. cbn [nesting] in Hn.
  assert (Hl : Forall (fun v => json_wf v = true /\ nesting v <= maxNestingDepth) l).
  { apply Forall_forall. intros v Hv. rw forallb_forall in Hw. split; [apply Hw; by apply list_elem_of_In|].
    pose proof (foldr_max_le nesting l v Hv). lia. }
  clear Hw Hn. induction H as [|v e l es He Hes IH]; [constructor|]. apply Forall_cons in Hl as [[H1 H2] Hl].
  constructor; [by apply (decoded_md_ok v)|auto].
Qed.

(** What [prepareBatch] hands to the queue: text and metadata from a request body. *)
Definition queueable (e : AuditEvent) : bool :=
  forallb utf8_valid (event_strings e ++ [ev_Hash e]) && json_wf (JObj (md_of e)) && (nesting (JObj (md_of e)) + 2 <=? maxNestingDepth).

Definition value_ok (n : Z) (v : json) : Prop := json_wf v = true /\ nesting v <= n.

Lemma value_obj n l : NoDup (map fst l) -> Forall (fun kv => utf8_valid kv.1 = true /\ value_ok n kv.2) l -> 0 <= n -> value_ok (n + 1) (JObj l).
Proof.
  intros Hk Hl Hn. rw Forall_forall in Hl. split.
  - cbn [json_wf]. rw bool_decide_eq_true_2; [|done]. rw andb_true_r. apply forallb_Forall, Forall_forall.
    intros kv Hkv. destruct (Hl kv Hkv) as (Hu & Hw & _). cbn. by rw Hu Hw.
  - cbn [nesting]. assert (foldr (fun kv m => Z.max (nesting kv.2) m) 0 l <= n); [|lia].
    clear Hk. induction l as [|kv l IH]; [cbn; lia|]. cbn. destruct (Hl kv ltac:(by left)) as (_ & _ & H).
    assert (foldr (fun kv m => Z.max (nesting kv.2) m) 0 l <= n) by (apply IH; intros x Hx; apply Hl; by right). lia.
Qed.

Lemma value_weaken n m v : n <= m -> value_ok n v -> value_ok m v.
Proof. intros Hn [? ?]. split; [done|lia]. Qed.

Lemma auditEvent_json_ok e v : queueable e = true -> auditEvent_json e = Some v -> value_ok (maxNestingDepth - 1) v.
Proof.
  unfold queueable. intros [[Hs Hw]%andb_prop Hn%Z.leb_le]%andb_prop. unfold auditEvent_json.
  destruct (time_json _) as [ts|] eqn:Hts; [|done]. cbn [mbind option_bind]. intros [= <-].
  apply forallb_Forall in Hs. unfold event_strings in Hs. cbn [app] in Hs. rw !Forall_cons in Hs.
  destruct Hs as (S1 & S2 & S3 & S4 & S5 & S6 & S7 & S8 & S9 & S10 & S11 & S12 & _).
  assert (Hstr : forall s n, 0 <= n -> utf8_valid s = true -> value_ok n (JStr s)) by (intros s n Hn0 Hu; split; [done|cbn; lia]).
  change (maxNestingDepth - 1) with (maxNestingDepth - 2 + 1). apply value_obj; [| |unfold maxNestingDepth; lia].
  - unfold omit. destruct (_ =? 0); cbn; repeat (constructor; [set_solver|]); constructor.
  - assert (Hts' : value_ok (maxNestingDepth - 2) ts).
    { destruct (time_json_good 0 _ _ ltac:(lia) Hts) as (? & _ & ?). split; [done|unfold maxNestingDepth; lia]. }
    assert (Ha : value_ok (maxNestingDepth - 2) (actor_member (ev_Actor e))).
    { unfold actor_member, omit. destruct (is_empty _); (split; [cbn; by rw ?S3 ?S4 ?S5|by vm_compute]). }
    assert (Hr : value_ok (maxNestingDepth - 2) (resource_member (ev_Resource e))).
    { unfold resource_member, omit. destruct (is_empty _); (split; [cbn; by rw ?S7 ?S8 ?S9|by vm_compute]). }
    assert (Hmd : value_ok (maxNestingDepth - 2) (match ev_Metadata e with None => JNull | Some m => JObj m end)).
    { unfold md_of in Hw, Hn. destruct (ev_Metadata e); [|by split]. cbn [default] in Hw, Hn. unfold id in Hw, Hn. split; [done|lia]. }
    assert (H0 : 0 <= maxNestingDepth - 2) by (unfold maxNestingDepth; lia).
    repeat (constructor; [by split; [|first [exact Hts'|exact Ha|exact Hr|exact Hmd|apply Hstr]]|]).
    apply omit_forall. intros _. split; [done|]. split; [apply valid_int|done].
Qed.

Lemma marshal_events_ok events p : Forall (fun e => queueable e = true) events -> marshal_events events = Some p -> payload_wf p.
Proof.
  intros Hq. unfold marshal_events. destruct (mapM auditEvent_json events) as [l|] eqn:Hm; [|done]. cbn [mbind option_bind].
  apply mapM_Some in Hm. assert (Hl : Forall (value_ok (maxNestingDepth - 1)) l).
  { induction Hm as [|e v es l He Hm IH]; [constructor|]. apply Forall_cons in Hq as [Hqe Hq].
    constructor; [by apply (auditEvent_json_ok e)|auto]. }
  assert (Hp : payload_wf (JArr l)).
  { split.
    - cbn [json_wf]. apply forallb_Forall. eapply Forall_impl; [exact Hl|]. by intros v [? _].
    - cbn [nesting]. assert (foldr (fun x n => Z.max (nesting x) n) 0 l <= maxNestingDepth - 1); [|lia].
      clear Hm. induction Hl as [|v l [_ Hv] Hl IH]; cbn; [unfold maxNestingDepth; lia|lia]. }
  destruct Hp as [Hw Hn]. unfold marshal. rw (wf_numbers_ok _ Hw). cbn [mbind option_bind].
  rw decode_render; [by intros [= <-]|done|done].
Qed.

(** * Store operations *)

Lemma o_tx_effect {A} env b c (body : OTx A) d :
  let '(r, d1) := o_tx env b c body d in
  (d1 = d /\ is_ok r = false) \/ exists a, body d = (Ok a, d1) /\ (r = Ok a \/ is_ok r = false).
Proof.
  unfold o_tx. destruct (fails env CallBegin); [by left|]. destruct (body d) as [[a|e] d'] eqn:Hb; [|by left].
  unfold commit. destruct (fails env CallCommit); [|right; exists a; by split; [|left]].
  destruct (commit_lost env); [right; exists a; by split; [|right]|by left].
Qed.

Lemma o_exec_ok env c m f d u d' : o_exec env c m f d = (Ok u, d') -> f d = Some d'.
Proof. unfold o_exec. destruct (fails env c); [done|]. destruct (f d); [|done]. by intros [= _ <-]. Qed.

Lemma o_bind_ok {A B} (m : OTx A) (f : A -> OTx B) d b d' :
  (m ≫= f) d = (Ok b, d') -> exists a d1, m d = (Ok a, d1) /\ f a d1 = (Ok b, d').
Proof. unfold mbind, otx_bind. destruct (m d) as [[a|e] d1]; [|done]. intros H. by exists a, d1. Qed.

(** * The invariant *)

Definition row_key (r : OutboxRow) : string * string * string * json := (ob_ID r, ob_ReceiptID r, ob_TenantID r, ob_Payload r).
Definition receipt_key (c : ReceiptRow) : string * string := (rc_ID c, rc_TenantID c).
Definition waiting (r : OutboxRow) : Prop := ob_Status r = "pending" \/ ob_Status r = "processing".

Section Invariant.
Variable maxAttempts : Z.

Definition message_ok (r : OutboxRow) : Prop :=
  ob_ID r = "obx_" +:+ ob_ReceiptID r /\ payload_wf (ob_Payload r) /\ 0 <= ob_Attempts r
  /\ (waiting r -> ob_Attempts r < maxAttempts)
  /\ (waiting r \/ ob_Status r = "done" \/ ob_Status r = "failed").

(** Receipts and messages correspond one to one; a queued receipt's message waits. *)
Record queue_ok (q : ODB) : Prop := {
  q_receipt_ids : NoDup (map rc_ID (o_receipts q));
  q_row_ids : NoDup (map ob_ID (o_outbox q));
  q_rows : Forall message_ok (o_outbox q);
  q_pairs : map (fun r => (ob_ReceiptID r, ob_TenantID r)) (o_outbox q) = map receipt_key (o_receipts q);
  q_queued : forall r c, r ∈ o_outbox q -> c ∈ o_receipts q -> ob_ReceiptID r = rc_ID c -> rc_Status c = "queued" -> waiting r
}.

(** Rows change in place, keeping their keys. *)
Lemma queue_update q g h :
  queue_ok q ->
  (forall r, r ∈ o_outbox q -> row_key (g r) = row_key r /\ 0 <= ob_Attempts (g r)
     /\ (waiting (g r) -> ob_Attempts (g r) < maxAttempts)
     /\ (waiting (g r) \/ ob_Status (g r) = "done" \/ ob_Status (g r) = "failed")) ->
  (forall c, receipt_key (h c) = receipt_key c) ->
  (forall r c, r ∈ o_outbox q -> c ∈ o_receipts q -> ob_ReceiptID r = rc_ID c -> rc_Status (h c) = "queued" -> waiting (g r)) ->
  queue_ok (MkODB (map h (o_receipts q)) (map g (o_outbox q))).
Proof.
  intros [Q1 Q2 Q3 Q4 Q5] Hg Hh Hq.
  assert (Hrow : forall {B} (f : OutboxRow -> B) (k : string * string * string * json -> B), (forall r, f r = k (row_key r)) ->
    map f (map g (o_outbox q)) = map f (o_outbox q)).
  { intros B f k Hf. rw map_map. apply map_ext_in. intros r Hr%list_elem_of_In. rw !Hf. by destruct (Hg r Hr) as [-> _]. }
  assert (Hrec : forall {B} (f : ReceiptRow -> B) (k : string * string -> B), (forall c, f c = k (receipt_key c)) ->
    map f (map h (o_receipts q)) = map f (o_receipts q)).
  { intros B f k Hf. rw map_map. apply map_ext. intros c. by rw !Hf Hh. }
  split; cbn.
  - by rw (Hrec _ rc_ID fst).
  - by rw (Hrow _ ob_ID (fun k => k.1.1.1)).
  - apply Forall_fmap, Forall_forall. intros r Hr. rw Forall_forall in Q3. destruct (Q3 r Hr) as (R1 & R2 & _).
    destruct (Hg r Hr) as (Hk & H1 & H2 & H3). injection Hk as K1 K2 _ K4. unfold message_ok. cbn. rw K1 K2 K4. by split_and!.
  - rw (Hrow _ (fun r => (ob_ReceiptID r, ob_TenantID r)) (fun k => (k.1.1.2, k.1.2))); [|done]. by rw (Hrec _ receipt_key id).
  - intros r c (r0 & -> & Hr)%list_elem_of_fmap (c0 & -> & Hc)%list_elem_of_fmap. destruct (Hg r0 Hr) as (Hk & _).
    injection Hk as _ -> _ _. pose proof (Hh c0) as Hk. injection Hk as -> _. by apply Hq.
Qed.

Lemma queue_row q r id : queue_ok q -> r ∈ o_outbox q -> ob_ID r = "obx_" +:+ id -> ob_ReceiptID r = id.
Proof. intros Hq Hr Hi. pose proof (q_rows q Hq) as H. rw Forall_forall in H. destruct (H r Hr) as (Hid & _). rw Hid in Hi. by apply str_app_inj_l in Hi. Qed.

Lemma map_outbox_eq P f q : map_outbox P f q = MkODB (map (fun c => c) (o_receipts q)) (map (fun r => if P r then f r else r) (o_outbox q)).
Proof. unfold map_outbox. by rw map_id. Qed.

(** A statement on the messages alone. *)
Lemma queue_map_outbox q P f :
  queue_ok q ->
  (forall r, r ∈ o_outbox q -> P r = true -> row_key (f r) = row_key r /\ waiting (f r) /\ 0 <= ob_Attempts (f r) < maxAttempts) ->
  queue_ok (map_outbox P f q).
Proof.
  intros Hq Hf. rw map_outbox_eq. pose proof (q_rows q Hq) as Hrows. rw Forall_forall in Hrows.
  apply queue_update; [done| |done|].
  - intros r Hr. destruct (P r) eqn:HP; [|destruct (Hrows r Hr) as (_ & _ & ? & ? & ?); done].
    destruct (Hf r Hr HP) as (? & ? & ?). split_and!; [done|lia|intros _; lia|by left].
  - intros r c Hr Hc He Hs. destruct (P r) eqn:HP; [by destruct (Hf r Hr HP) as (_ & ? & _)|]. by apply (q_queued q Hq r c).
Qed.

Lemma has_id_true id r : has_id id r = true <-> ob_ID r = id.
Proof. apply bool_decide_eq_true. Qed.

(** A statement on a message and then one on its receipt. *)
Lemma queue_map_both q id rid f h :
  queue_ok q -> id = "obx_" +:+ rid ->
  (forall r, row_key (f r) = row_key r /\ (ob_Status (f r) = "done" \/ ob_Status (f r) = "failed")) ->
  (forall r, r ∈ o_outbox q -> 0 <= ob_Attempts (f r)) ->
  (forall c, receipt_key (h c) = receipt_key c /\ rc_Status (h c) <> "queued") ->
  queue_ok (map_receipt rid h (map_outbox (has_id id) f q)).
Proof.
  intros Hq -> Hf Ha Hh. pose proof (q_rows q Hq) as Hrows. rw Forall_forall in Hrows.
  change (queue_ok (MkODB (map (fun c => if decide (rc_ID c = rid) then h c else c) (o_receipts q))
                          (map (fun r => if has_id ("obx_" +:+ rid) r then f r else r) (o_outbox q)))).
  assert (Hnw : forall r, ~ waiting (f r)).
  { intros r [Hw|Hw]; destruct (Hf r) as [_ [H|H]]; by rw Hw in H. }
  apply queue_update; [done| | |].
  - intros r Hr. destruct (has_id _ r) eqn:HP; [|destruct (Hrows r Hr) as (_ & _ & ? & ? & ?); done].
    destruct (Hf r) as [? ?]. split_and!; [done|by apply Ha|by intros ?%Hnw|by right].
  - intros c. case_decide; [by destruct (Hh c)|done].
  - intros r c Hr Hc He Hs. destruct (has_id _ r) eqn:HP; [|by case_decide; [by destruct (Hh c) as [_ ?]|by apply (q_queued q Hq r c)]].
    apply has_id_true in HP. apply (queue_row q r rid Hq Hr) in HP. rw decide_True in Hs; [|congruence]. by destruct (Hh c) as [_ ?].
Qed.
End Invariant.

(** * Effects of the operations *)

Section Effects.
Context `{Hj : Jsonb} (tenant_exists : string -> bool).

Lemma Enqueue_effect env dbnow t rid events v q :
  let '(r, q') := Enqueue tenant_exists env dbnow t rid events v q in
  (q' = q /\ is_ok r = false)
  \/ exists payload w, marshal_events events = Some payload /\ jsonb payload = Some w
     /\ rid ∉ map rc_ID (o_receipts q) /\ ("obx_" +:+ rid) ∉ map ob_ID (o_outbox q)
     /\ q' = MkODB (o_receipts q ++ [MkReceiptRow rid t "queued" (br_Accepted v) (br_Rejected v) [] (br_Errors v) None dbnow None])
               (o_outbox q ++ [MkOutboxRow ("obx_" +:+ rid) rid t w "pending" 0 dbnow dbnow None None]).
Proof.
  unfold Enqueue. destruct (marshal_events events) as [payload|] eqn:Hm; [|by left].
  pose proof (o_tx_effect env "begin outbox tx" (fun _ => "commit outbox tx")
    (_ ← o_exec env (CallWrite 0) "inserting ingest receipt" (insert_receipt tenant_exists dbnow rid t v);
     o_exec env (CallWrite 1) "inserting outbox row" (insert_outbox dbnow ("obx_" +:+ rid) rid t payload)) q) as He.
  destruct (o_tx _ _ _ _ q) as [r q']. destruct He as [[-> ?]|([] & Hb & _)]; [by left|right].
  apply o_bind_ok in Hb as ([] & q1 & H1 & H2). apply o_exec_ok in H1, H2.
  unfold insert_receipt in H1. destruct (_ && _) eqn:Hc; [|done]. injection H1 as <-. apply andb_prop in Hc as [_ Hc%bool_decide_eq_true].
  unfold insert_outbox in H2. apply bind_Some in H2 as (w & Hw & H2). destruct (_ && _) eqn:Hc2; [|done]. injection H2 as <-.
  apply andb_prop in Hc2 as [_ Hc2%bool_decide_eq_true]. cbn in Hc2. exists payload, w. by split_and!.
Qed.

Lemma ClaimPending_effect env dbnow locked limit q :
  let '(r, q') := ClaimPending env dbnow locked limit q in
  let rows := claim_rows dbnow locked limit q in
  (q' = q \/ q' = map_outbox (fun r => bool_decide (ob_ID r ∈ map ob_ID rows)) (set_ob_status "processing") q)
  /\ forall l, r = Ok l -> l = map claimed_row rows
       /\ (rows <> [] -> q' = map_outbox (fun r => bool_decide (ob_ID r ∈ map ob_ID rows)) (set_ob_status "processing") q).
Proof.
  unfold ClaimPending. match goal with |- context [o_tx env ?b ?c ?body] => pose proof (o_tx_effect env b c body q) as He;
    destruct (o_tx env b c body q) as [r q'] end. cbn zeta.
  destruct He as [[-> Hr]|(l & Hb & Hr)]; [split; [by left|by intros ? ->]|].
  apply o_bind_ok in Hb as (rows & q1 & H1 & H2). unfold o_query in H1. destruct (fails env (CallRead 0)); [done|].
  injection H1 as H1 <-. assert (Hl : forall l', r = Ok l' -> l' = l) by (intros l' ->; by destruct Hr as [[= ->]|]).
  rw H1 in |- *. destruct rows as [|x rows].
  - injection H2 as <- <-. split; [by left|]. by intros l' ->%Hl.
  - apply o_bind_ok in H2 as ([] & q2 & H2 & H3). apply o_exec_ok in H2. injection H2 as <-. injection H3 as <- <-.
    split; [by right|]. by intros l' ->%Hl.
Qed.

Lemma MarkCommitted_effect env dbnow id rid ids q :
  let '(r, q') := MarkCommitted env dbnow id rid ids q in
  (q' = q /\ is_ok r = false) \/ q' = map_receipt rid (commit_receipt dbnow ids) (map_outbox (has_id id) (mark_done dbnow) q).
Proof.
  unfold MarkCommitted. match goal with |- context [o_tx env ?b ?c ?body] => pose proof (o_tx_effect env b c body q) as He;
    destruct (o_tx env b c body q) as [r q'] end.
  destruct He as [[-> ?]|([] & Hb & _)]; [by left|right]. apply o_bind_ok in Hb as ([] & q1 & H1 & H2).
  apply o_exec_ok in H1, H2. injection H1 as <-. destruct (forallb _ _); [by injection H2|done].
Qed.

Lemma MarkRetry_effect env dbnow now id rid attempts maxAttempts msg backoff q :
  let '(r, q') := MarkRetry env dbnow now id rid attempts maxAttempts msg backoff q in
  (q' = q /\ is_ok r = false)
  \/ (maxAttempts <= attempts /\ q' = map_receipt rid (fail_receipt msg) (map_outbox (has_id id) (mark_failed dbnow msg attempts) q))
  \/ (attempts < maxAttempts /\ q' = map_outbox (has_id id) (mark_pending attempts (pg_ts (now + backoff)) msg) q).
Proof.
  unfold MarkRetry. match goal with |- context [o_tx env ?b ?c ?body] => pose proof (o_tx_effect env b c body q) as He;
    destruct (o_tx env b c body q) as [r q'] end.
  destruct He as [[-> ?]|([] & Hb & _)]; [by left|right]. destruct (Z.leb_spec maxAttempts attempts).
  - left. apply o_bind_ok in Hb as ([] & q1 & H1 & H2). apply o_exec_ok in H1, H2.
    destruct (_ && _); [|done]. injection H1 as <-. by injection H2.
  - right. apply o_exec_ok in Hb. destruct (_ && _); [|done]. by injection Hb.
Qed.

Lemma ResetStale_effect env dbnow age q :
  let q' := (ResetStaleProcessing env dbnow age q).2 in
  q' = q \/ q' = map_outbox (stale dbnow age) (mark_stale dbnow) q.
Proof. unfold ResetStaleProcessing. destruct (fails _ _); [|by right]. destruct (commit_lost env); [by right|by left]. Qed.

(** ** The invariant is kept *)

Variable maxAttempts : Z.
Hypothesis Hmax : 0 < maxAttempts.
Context `{!JsonbSpec}.
Local Abbreviation queue_ok := (queue_ok maxAttempts).

Lemma jsonb_payload p w : payload_wf p -> jsonb p = Some w -> payload_wf w.
Proof. intros [H1 H2] Hw. split; [by apply (jsonb_wf p)|]. by rw (jsonb_nesting p w H1 Hw). Qed.

Lemma Enqueue_ok env dbnow t rid events v q :
  queue_ok q -> Forall (fun e => queueable e = true) events -> queue_ok (Enqueue tenant_exists env dbnow t rid events v q).2.
Proof.
  intros Hq He. pose proof (Enqueue_effect env dbnow t rid events v q) as Hen. destruct (Enqueue _ _ _ _ _ _ _ q) as [r q'].
  destruct Hen as [[-> _]|(payload & w & Hm & Hw & Hrid & Hid & ->)]; [done|]. destruct Hq as [Q1 Q2 Q3 Q4 Q5].
  pose proof (jsonb_payload _ _ (marshal_events_ok _ _ He Hm) Hw) as Hp. split; cbn.
  - rw map_app NoDup_app. split_and!; [done| |by apply NoDup_singleton]. intros x Hx Hy%list_elem_of_singleton. by subst.
  - rw map_app NoDup_app. split_and!; [done| |by apply NoDup_singleton]. intros x Hx Hy%list_elem_of_singleton. by subst.
  - apply Forall_app. split; [done|]. apply Forall_singleton. split_and!; try done. left. by left.
  - rw !map_app Q4. done.
  - assert (Hold : forall r, r ∈ o_outbox q -> ob_ReceiptID r ∈ map rc_ID (o_receipts q)).
    { intros r0 Hr0. assert (Hin : (ob_ReceiptID r0, ob_TenantID r0) ∈ map receipt_key (o_receipts q)).
      { rw -Q4. by apply (list_elem_of_fmap_2 (fun r => (ob_ReceiptID r, ob_TenantID r))). }
      apply list_elem_of_fmap in Hin as (c & Hk & Hc). injection Hk as -> _. by apply list_elem_of_fmap_2. }
    intros r0 c [Hr|Hr%list_elem_of_singleton]%elem_of_app [Hc|Hc%list_elem_of_singleton]%elem_of_app.
    + by apply Q5.
    + subst c. cbn. intros Heq _. exfalso. apply Hrid. rw -Heq. by apply Hold.
    + subst r0. cbn. intros Heq _. by left.
    + subst r0. intros _ _. by left.
Qed.

Lemma unique_message q r x : queue_ok q -> r ∈ o_outbox q -> x ∈ o_outbox q -> ob_ID r = ob_ID x -> r = x.
Proof.
  intros Hq Hr Hx Hi. apply list_elem_of_lookup in Hr as [i Hi'], Hx as [j Hj'].
  assert (i = j) as ->; [|congruence].
  apply (NoDup_lookup _ _ _ (ob_ID r) (q_row_ids _ q Hq)); by rw list_lookup_fmap ?Hi' ?Hj' /= ?Hi.
Qed.

Lemma claim_rows_spec dbnow locked limit q r : r ∈ claim_rows dbnow locked limit q -> r ∈ o_outbox q /\ claimable dbnow locked r = true.
Proof.
  unfold claim_rows. intros Hr. assert (Hin : r ∈ order_by ob_CreatedAt (filter (fun r => claimable dbnow locked r = true) (o_outbox q))).
  { rw -(firstn_skipn limit (order_by _ _)). apply elem_of_app. by left. }
  apply elem_of_order_by, list_elem_of_filter in Hin as [? ?]. done.
Qed.

Lemma ClaimPending_ok env dbnow locked limit q : queue_ok q -> queue_ok (ClaimPending env dbnow locked limit q).2.
Proof.
  intros Hq. pose proof (ClaimPending_effect env dbnow locked limit q) as He.
  destruct (ClaimPending env dbnow locked limit q) as [res q']. cbn zeta in He. destruct He as [[-> | ->] _]; [done|].
  apply queue_map_outbox; [done|]. intros r Hr Hin%bool_decide_eq_true.
  apply list_elem_of_fmap in Hin as (x & Hid & Hx). apply claim_rows_spec in Hx as [Hx Hc].
  rw (unique_message q r x Hq Hr Hx Hid). unfold claimable in Hc. apply andb_prop in Hc as [[Hc%bool_decide_eq_true _]%andb_prop _].
  pose proof (q_rows _ q Hq) as Hrows. rw Forall_forall in Hrows. destruct (Hrows x Hx) as (_ & _ & H1 & H2 & _).
  split_and!; [done|by right|done|]. apply H2. by left.
Qed.

Lemma MarkCommitted_ok env dbnow id rid ids q : queue_ok q -> id = "obx_" +:+ rid -> queue_ok (MarkCommitted env dbnow id rid ids q).2.
Proof.
  intros Hq Hid. pose proof (MarkCommitted_effect env dbnow id rid ids q) as He. destruct (MarkCommitted _ _ _ _ _ q) as [res q'].
  destruct He as [[-> _]| ->]; [done|]. apply queue_map_both; try done.
  - intros r. split; [done|by left].
  - intros r Hr. pose proof (q_rows _ q Hq) as Hrows. rw Forall_forall in Hrows. by destruct (Hrows r Hr) as (_ & _ & ? & _).
Qed.

Lemma MarkRetry_ok env dbnow now id rid attempts msg backoff q :
  queue_ok q -> id = "obx_" +:+ rid -> 0 <= attempts -> queue_ok (MarkRetry env dbnow now id rid attempts maxAttempts msg backoff q).2.
Proof.
  intros Hq Hid Ha. pose proof (MarkRetry_effect env dbnow now id rid attempts maxAttempts msg backoff q) as He.
  destruct (MarkRetry _ _ _ _ _ _ _ _ _ q) as [res q']. destruct He as [[-> _]|[[Hm ->]|[Hm ->]]]; [done| |].
  - apply queue_map_both; try done. intros r. split; [done|by right].
  - apply queue_map_outbox; [done|]. intros r _ _. split_and!; [done|by left|done|done].
Qed.

Lemma ResetStale_ok env dbnow age q : queue_ok q -> queue_ok (ResetStaleProcessing env dbnow age q).2.
Proof.
  intros Hq. pose proof (ResetStale_effect env dbnow age q) as He. cbn zeta in He. destruct He as [-> | ->]; [done|].
  apply queue_map_outbox; [done|]. intros r Hr Hs. unfold stale in Hs. apply andb_prop in Hs as [Hs%bool_decide_eq_true _].
  pose proof (q_rows _ q Hq) as Hrows. rw Forall_forall in Hrows. destruct (Hrows r Hr) as (_ & _ & H1 & H2 & _).
  split_and!; [done|by left|done|]. apply H2. by right.
Qed.
End Effects.
