(* ===== verification/OutboxProps.v ===== *)
(** Properties of the asynchronous ingest path: what receipts promise, under any
    interleaving of clients, workers, crashes and failures, and that a healthy
    worker delivers. *)
From S2P Require Import Prelude Errors GoTime Json JsonFacts Canonical CanonicalFacts AuditModel AuditHash TimeText Float64 FloatFacts Execution AuditService Postgres AuditStore AuditStoreFacts AuditServiceFacts AuditIngest AuditRepo TelemetryStore EventFacts Outbox OutboxFacts.
Import GoTime.
Local Open Scope Z_scope.

Section Run.
Context `{Hj : Jsonb} (tenant_exists : string -> bool) (errText : AppError -> string) (decodeText : json -> string) (alerter : bool).
Variable w : WorkerConfig.

(** The queue and the audit log with the rows the live workers hold. *)
Abbreviation state := (World DB * list Row)%type.
Local Abbreviation process ae su row s :=
  (processRow (Repository0 := pg_repository tenant_exists ae) errText decodeText alerter w su row s).

(** One step of a client, of a worker or of the surroundings. *)
Inductive queue_step : state -> state -> Prop :=
| qs_enqueue env dbnow t rid events v s held :
    Forall (fun e => queueable e = true) events ->
    queue_step (s, held) (quietly (Enqueue tenant_exists env dbnow t rid events v) s, held)
| qs_claim env dbnow locked limit s held rows s' :
    on_queue (ClaimPending env dbnow locked limit) s = (Ok rows, s') -> queue_step (s, held) (s', held ++ rows)
| qs_claim_error env dbnow locked limit s held e s' :
    on_queue (ClaimPending env dbnow locked limit) s = (Err e, s') -> queue_step (s, held) (s', held)
| qs_process ae su row h1 h2 s : queue_step (s, h1 ++ row :: h2) (process ae su row s, h1 ++ h2)
| qs_crash h1 lost h2 s : queue_step (s, h1 ++ lost ++ h2) (s, h1 ++ h2)
| qs_reclaim env dbnow age s held : queue_step (s, held) (quietly (ResetStaleProcessing env dbnow age) s, held)
| qs_append ae t events s held :
    Forall (fun e => md_ok e = true) events ->
    queue_step (s, held)
      (MkWorld DB (wd_queue s) (AppendBatchChained tenant_exists ae (wd_audit s) t events).2 (wd_subs s) (wd_alerts s), held).

(** A committed receipt lists the ids of its batch, and they are on the tenant's chain. *)
Definition honest (q : ODB) (db : DB) : Prop :=
  forall r c, r ∈ o_outbox q -> c ∈ o_receipts q -> ob_ReceiptID r = rc_ID c -> rc_Status c = "committed" ->
  exists events, DecodePayload (ob_Payload r) = Some events /\ rc_EventIDs c = map ev_ID events
    /\ forall id, id ∈ rc_EventIDs c -> id ∈ map ev_ID (chain (db_events db) (rc_TenantID c)).

Record world_ok (s : World DB) : Prop := {
  wo_queue : queue_ok (wc_MaxAttempts w) (wd_queue s);
  wo_db : db_wf (wd_audit s);
  wo_linked : forall t, linked GenesisHash (chain (db_events (wd_audit s)) t);
  wo_honest : honest (wd_queue s) (wd_audit s)
}.

(** A held row is a message of the queue. *)
Definition held_ok (q : ODB) (h : Row) : Prop :=
  (row_ID h, row_ReceiptID h, row_TenantID h, row_Payload h) ∈ map row_key (o_outbox q) /\ 0 <= row_Attempts h.

Definition state_ok (st : state) : Prop := world_ok st.1 /\ Forall (held_ok (wd_queue st.1)) st.2.

(** ** Histories of the queue *)

(** Messages are never lost or changed, receipts keep their identity and counts. *)
Definition queue_keeps (q q' : ODB) : Prop :=
  map row_key (o_outbox q) `prefix_of` map row_key (o_outbox q')
  /\ map receipt_key (o_receipts q) `prefix_of` map receipt_key (o_receipts q').

Global Instance queue_keeps_preorder : PreOrder queue_keeps.
Proof. split; [by intros q|]. intros a b c [? ?] [? ?]. split; by etrans. Qed.

Lemma map_outbox_keeps P f q : (forall r, row_key (f r) = row_key r) -> map row_key (o_outbox (map_outbox P f q)) = map row_key (o_outbox q).
Proof. intros Hf. cbn. rw map_map. apply map_ext. intros r. by destruct (P r). Qed.
Lemma map_receipt_keeps id h q : (forall c, receipt_key (h c) = receipt_key c) ->
  map receipt_key (o_receipts (map_receipt id h q)) = map receipt_key (o_receipts q).
Proof. intros Hf. cbn. rw map_map. apply map_ext. intros r. by case_decide. Qed.

Lemma keeps_eq q q' : map row_key (o_outbox q') = map row_key (o_outbox q) -> map receipt_key (o_receipts q') = map receipt_key (o_receipts q) -> queue_keeps q q'.
Proof. intros H1 H2. unfold queue_keeps. by rw H1 H2. Qed.

Lemma Enqueue_keeps env dbnow t rid events v q : queue_keeps q (Enqueue tenant_exists env dbnow t rid events v q).2.
Proof.
  pose proof (Enqueue_effect tenant_exists env dbnow t rid events v q) as He. destruct (Enqueue _ _ _ _ _ _ _ q) as [r q'].
  destruct He as [[-> _]|(p & w' & _ & _ & _ & _ & ->)]; [done|]. split; cbn; rw map_app; by apply prefix_app_r.
Qed.
Lemma ClaimPending_keeps env dbnow locked limit q : queue_keeps q (ClaimPending env dbnow locked limit q).2.
Proof.
  pose proof (ClaimPending_effect env dbnow locked limit q) as He. destruct (ClaimPending _ _ _ _ q) as [r q']. cbn zeta in He.
  destruct He as [[-> | ->] _]; [done|]. by apply keeps_eq; [apply map_outbox_keeps|].
Qed.
Lemma MarkCommitted_keeps env dbnow id rid ids q : queue_keeps q (MarkCommitted env dbnow id rid ids q).2.
Proof.
  pose proof (MarkCommitted_effect env dbnow id rid ids q) as He. destruct (MarkCommitted _ _ _ _ _ q) as [r q'].
  destruct He as [[-> _]| ->]; [done|]. apply keeps_eq; [by apply map_outbox_keeps|by rw map_receipt_keeps].
Qed.
Lemma MarkRetry_keeps env dbnow now id rid attempts maxA msg backoff q :
  queue_keeps q (MarkRetry env dbnow now id rid attempts maxA msg backoff q).2.
Proof.
  pose proof (MarkRetry_effect env dbnow now id rid attempts maxA msg backoff q) as He.
  destruct (MarkRetry _ _ _ _ _ _ _ _ _ q) as [r q']. destruct He as [[-> _]|[[_ ->]|[_ ->]]]; [done| |].
  - apply keeps_eq; [by apply map_outbox_keeps|by rw map_receipt_keeps].
  - by apply keeps_eq; [apply map_outbox_keeps|].
Qed.
Lemma ResetStale_keeps env dbnow age q : queue_keeps q (ResetStaleProcessing env dbnow age q).2.
Proof.
  pose proof (ResetStale_effect env dbnow age q) as He. cbn zeta in He. destruct He as [-> | ->]; [done|].
  by apply keeps_eq; [apply map_outbox_keeps|].
Qed.

Lemma held_keeps q q' h : queue_keeps q q' -> held_ok q h -> held_ok q' h.
Proof. intros [[k Hk] _] [H1 H2]. split; [|done]. rw Hk. apply elem_of_app. by left. Qed.

Lemma quietly_eq {A} (f : OTx A) (s : World DB) : quietly f s = MkWorld DB (f (wd_queue s)).2 (wd_audit s) (wd_subs s) (wd_alerts s).
Proof. unfold quietly, on_queue. by destruct (f (wd_queue s)). Qed.

(** ** Honesty is kept *)

(** A statement that leaves committed receipts committed only as they were. *)
Lemma honest_update q db g h :
  honest q db -> (forall r, row_key (g r) = row_key r) ->
  (forall c, receipt_key (h c) = receipt_key c /\ (rc_Status (h c) = "committed" -> h c = c)) ->
  honest (MkODB (map h (o_receipts q)) (map g (o_outbox q))) db.
Proof.
  intros Hh Hg Hc r c (r0 & -> & Hr)%list_elem_of_fmap (c0 & -> & Hc0)%list_elem_of_fmap Hid Hs.
  destruct (Hc c0) as [_ He]. specialize (He Hs). rw He in Hid, Hs |- *. pose proof (Hg r0) as Hk. injection Hk as _ K2 _ K4.
  rw K4. apply (Hh r0 c0); congruence.
Qed.

Lemma honest_map_outbox q db P f : honest q db -> (forall r, row_key (f r) = row_key r) -> honest (map_outbox P f q) db.
Proof. intros Hh Hf. rw map_outbox_eq. apply honest_update; [done| |done]. intros r. by destruct (P r). Qed.

Lemma honest_more q db db' : honest q db ->
  (forall t id, id ∈ map ev_ID (chain (db_events db) t) -> id ∈ map ev_ID (chain (db_events db') t)) -> honest q db'.
Proof. intros Hh Hm r c Hr Hc Hid Hs. destruct (Hh r c Hr Hc Hid Hs) as (ev & H1 & H2 & H3). exists ev. split_and!; auto. Qed.

Context `{!JsonbSpec}.
Hypothesis Hmax : 0 < wc_MaxAttempts w.

Lemma Enqueue_honest env dbnow t rid events v q db :
  queue_ok (wc_MaxAttempts w) q -> honest q db -> honest (Enqueue tenant_exists env dbnow t rid events v q).2 db.
Proof.
  intros Hq Hh. pose proof (Enqueue_effect tenant_exists env dbnow t rid events v q) as He. destruct (Enqueue _ _ _ _ _ _ _ q) as [r q'].
  destruct He as [[-> _]|(p & w' & _ & _ & Hrid & _ & ->)]; [done|].
  intros r0 c [Hr|Hr%list_elem_of_singleton]%elem_of_app [Hc|Hc%list_elem_of_singleton]%elem_of_app Hid Hs.
  - by apply (Hh r0 c).
  - by subst c.
  - subst r0. cbn in Hid. exfalso. apply Hrid. rw Hid. by apply list_elem_of_fmap_2.
  - by subst c.
Qed.

Lemma MarkRetry_honest env dbnow now id rid attempts maxA msg backoff q db :
  honest q db -> honest (MarkRetry env dbnow now id rid attempts maxA msg backoff q).2 db.
Proof.
  intros Hh. pose proof (MarkRetry_effect env dbnow now id rid attempts maxA msg backoff q) as He.
  destruct (MarkRetry _ _ _ _ _ _ _ _ _ q) as [r q']. destruct He as [[-> _]|[[_ ->]|[_ ->]]]; [done| |by apply honest_map_outbox].
  change (honest (MkODB (map (fun c => if decide (rc_ID c = rid) then fail_receipt msg c else c) (o_receipts q))
    (map (fun r => if has_id id r then mark_failed dbnow msg attempts r else r) (o_outbox q))) db).
  apply honest_update; [done| |]; [intros x; by destruct (has_id id x)|intros c; by case_decide].
Qed.

Lemma MarkCommitted_honest env dbnow rid tenant payload events q db :
  queue_ok (wc_MaxAttempts w) q -> honest q db ->
  ("obx_" +:+ rid, rid, tenant, payload) ∈ map row_key (o_outbox q) -> DecodePayload payload = Some events ->
  (forall e, e ∈ events -> ev_ID e ∈ map ev_ID (chain (db_events db) tenant)) ->
  honest (MarkCommitted env dbnow ("obx_" +:+ rid) rid (map ev_ID events) q).2 db.
Proof.
  intros Hq Hh Hk Hd Hin. pose proof (MarkCommitted_effect env dbnow ("obx_" +:+ rid) rid (map ev_ID events) q) as He.
  destruct (MarkCommitted _ _ _ _ _ q) as [res q']. destruct He as [[-> _]| ->]; [done|].
  apply list_elem_of_fmap in Hk as (m & Hk & Hm). unfold row_key in Hk. injection Hk as M1 M2 M3 M4.
  intros r c Hr Hc. cbn in Hr, Hc.
  apply list_elem_of_fmap in Hr as (r0 & -> & Hr). apply list_elem_of_fmap in Hc as (c0 & -> & Hc).
  assert (Hkey : row_key (if has_id ("obx_" +:+ rid) r0 then mark_done dbnow r0 else r0) = row_key r0) by by destruct (has_id _ r0).
  injection Hkey as _ K2 _ K4. rw K2 K4. case_decide as Hrid.
  - cbn. intros Hid _. exists events. assert (r0 = m) as ->.
    { apply (unique_message _ q r0 m Hq Hr Hm). pose proof (q_rows _ q Hq) as Hrows. rw Forall_forall in Hrows.
      destruct (Hrows r0 Hr) as (-> & _). congruence. }
    assert (Ht : rc_TenantID c0 = tenant).
    { assert (Hp : (ob_ReceiptID m, ob_TenantID m) ∈ map receipt_key (o_receipts q)).
      { rw -(q_pairs _ q Hq). by apply (list_elem_of_fmap_2 (fun r => (ob_ReceiptID r, ob_TenantID r))). }
      apply list_elem_of_fmap in Hp as (c1 & Hk1 & Hc1). injection Hk1 as H1 H2.
      assert (c1 = c0) as ->; [|congruence]. apply list_elem_of_lookup in Hc as [i Hi], Hc1 as [j Hj1].
      assert (i = j) as ->; [|congruence].
      apply (NoDup_lookup _ _ _ rid (q_receipt_ids _ q Hq)); rw list_lookup_fmap ?Hi ?Hj1 /=; congruence. }
    split_and!; [congruence|done|]. intros id (e & -> & He)%list_elem_of_fmap. rw Ht. by apply Hin.
  - intros Hid Hs. by apply (Hh r0 c0).
Qed.

(** ** Steps keep the invariant *)

Lemma audit_step ae (s : World DB) db' t :
  world_ok s -> extends (H := pg_repository tenant_exists ae) (H0 := pg_spec tenant_exists ae) (wd_audit s) db' t ->
  db_wf db' /\ (forall t', linked GenesisHash (chain (db_events db') t')) /\ honest (wd_queue s) db'.
Proof.
  intros [W1 W2 W3 W4] He. pose proof (fun t' => extends_linked _ _ t t' He) as Hl. destruct He as (Hi & Ho & new & Hc & _).
  cbn in Hi, Ho, Hc, Hl. split_and!; [done|intros t'; by apply Hl|]. eapply honest_more; [done|]. intros t' id Hid.
  destruct (decide (t' = t)) as [-> |Hne]; [|by rw (Ho t' Hne)]. rw Hc map_app. apply elem_of_app. by left.
Qed.

Lemma held_row (q : ODB) h : queue_ok (wc_MaxAttempts w) q -> held_ok q h ->
  row_ID h = "obx_" +:+ row_ReceiptID h /\ payload_wf (row_Payload h) /\ 0 <= row_Attempts h.
Proof.
  intros Hq [(r & Hk & Hr)%list_elem_of_fmap Ha]. injection Hk as K1 K2 K3 K4.
  pose proof (q_rows _ q Hq) as Hrows. rw Forall_forall in Hrows. destruct (Hrows r Hr) as (R1 & R2 & _).
  rw K1 K2 K4. by split_and!.
Qed.

Lemma process_ok ae su row s : world_ok s -> held_ok (wd_queue s) row ->
  world_ok (process ae su row s) /\ queue_keeps (wd_queue s) (wd_queue (process ae su row s)).
Proof.
  intros Hs Hrow. pose proof Hs as [W1 W2 W3 W4]. destruct (held_row _ row W1 Hrow) as (Hid & Hp & Ha).
  unfold processRow. set (retry := fun attempts msg backoff =>
    MarkRetry (su_env su) (su_dbnow su) (su_now su) (row_ID row) (row_ReceiptID row) attempts (wc_MaxAttempts w) msg backoff).
  assert (Hretry : forall s attempts msg backoff, world_ok s -> 0 <= attempts ->
    world_ok (quietly (retry attempts msg backoff) s) /\ queue_keeps (wd_queue s) (wd_queue (quietly (retry attempts msg backoff) s))).
  { intros s' attempts msg backoff [V1 V2 V3 V4] Hatt. rw quietly_eq. split; [split|]; cbn; try done.
    - by apply MarkRetry_ok.
    - by apply MarkRetry_honest.
    - apply MarkRetry_keeps. }
  destruct (DecodePayload (row_Payload row)) as [events|] eqn:Hd; [|apply Hretry; [done|lia]].
  pose proof (DecodePayload_md _ _ Hp Hd) as Hmd.
  destruct (CommitBatch_extends (H := pg_repository tenant_exists ae) (H0 := pg_spec tenant_exists ae)
    (wd_audit s) (row_TenantID row) events W2 Hmd) as [He Ho].
  destruct (CommitBatch (wd_audit s) (row_TenantID row) events) as [[written|err] st']; cbn [fst snd] in He, Ho.
  all: destruct (audit_step ae s st' (row_TenantID row) Hs He) as (Hwf & Hl & Hh).
  - destruct (Ho written eq_refl) as [Hids Hin]. cbn [chain_of pg_spec] in Hin. unfold on_queue. cbn [wd_queue].
    pose proof (MarkCommitted_ok (wc_MaxAttempts w) (su_env su) (su_dbnow su) (row_ID row) (row_ReceiptID row) (map ev_ID written)
      (wd_queue s) W1 Hid) as M1.
    pose proof (MarkCommitted_keeps (su_env su) (su_dbnow su) (row_ID row) (row_ReceiptID row) (map ev_ID written) (wd_queue s)) as M2.
    assert (M3 : honest (MarkCommitted (su_env su) (su_dbnow su) (row_ID row) (row_ReceiptID row) (map ev_ID written) (wd_queue s)).2 st').
    { rw Hids Hid. destruct Hrow as [Hk _]. rw Hid in Hk. by eapply MarkCommitted_honest. }
    destruct (MarkCommitted _ _ _ _ _ (wd_queue s)) as [[[]|e] q']; cbn in M1, M2, M3 |- *; (split; [by split|done]).
  - apply (Hretry (MkWorld DB (wd_queue s) st' (wd_subs s) _)); [by split|lia].
Qed.

Lemma step_ok st st' : state_ok st -> queue_step st st' -> state_ok st' /\ queue_keeps (wd_queue st.1) (wd_queue st'.1).
Proof.
  intros [Hw Hh] Hst. destruct Hst as [env dbnow t rid events v s held Hev|env dbnow locked limit s held rows s' Hc
    |env dbnow locked limit s held e s' Hc|ae su row h1 h2 s|h1 lost h2 s|env dbnow age s held|ae t events s held Hev]; cbn [fst snd] in Hw, Hh |- *.
  all: pose proof Hw as [W1 W2 W3 W4].
  - rw quietly_eq. pose proof (Enqueue_keeps env dbnow t rid events v (wd_queue s)) as Hk. split; [split|done]; cbn.
    + split; cbn; try done; [by apply Enqueue_ok|by apply Enqueue_honest].
    + eapply Forall_impl; [exact Hh|]. intros h. by apply held_keeps.
  - unfold on_queue in Hc. pose proof (ClaimPending_effect env dbnow locked limit (wd_queue s)) as He.
    pose proof (ClaimPending_ok (wc_MaxAttempts w) env dbnow locked limit (wd_queue s) W1) as Hok.
    pose proof (ClaimPending_keeps env dbnow locked limit (wd_queue s)) as Hk.
    destruct (ClaimPending env dbnow locked limit (wd_queue s)) as [r q']. injection Hc as -> <-. cbn in He, Hok, Hk |- *.
    destruct He as [He Hrows]. destruct (Hrows rows eq_refl) as [-> _]. split; [split|done]; cbn.
    + split; cbn; try done. destruct He as [-> | ->]; [done|]. by apply honest_map_outbox.
    + apply Forall_app. split; [eapply Forall_impl; [exact Hh|]; intros h; by apply held_keeps|].
      apply Forall_fmap, Forall_forall. intros r [Hr _]%claim_rows_spec. apply (held_keeps _ _ _ Hk). split; cbn.
      * by apply (list_elem_of_fmap_2 row_key).
      * pose proof (q_rows _ _ W1) as Hq. rw Forall_forall in Hq. by destruct (Hq r Hr) as (_ & _ & ? & _).
  - unfold on_queue in Hc. pose proof (ClaimPending_effect env dbnow locked limit (wd_queue s)) as He.
    pose proof (ClaimPending_ok (wc_MaxAttempts w) env dbnow locked limit (wd_queue s) W1) as Hok.
    pose proof (ClaimPending_keeps env dbnow locked limit (wd_queue s)) as Hk.
    destruct (ClaimPending env dbnow locked limit (wd_queue s)) as [r q']. injection Hc as -> <-. cbn in He, Hok, Hk |- *.
    destruct He as [He _]. split; [split|done]; cbn.
    + split; cbn; try done. destruct He as [-> | ->]; [done|]. by apply honest_map_outbox.
    + eapply Forall_impl; [exact Hh|]. intros h. by apply held_keeps.
  - apply Forall_app in Hh as [Hh1 [Hrow Hh2]%Forall_cons]. destruct (process_ok ae su row s Hw Hrow) as [Hw' Hk].
    split; [split|done]; cbn; [done|]. apply Forall_app.
    split; (eapply Forall_impl; [eassumption|]); intros h; by apply held_keeps.
  - rw !Forall_app in Hh. destruct Hh as (? & _ & ?). split; [split|done]; cbn; [done|]. by apply Forall_app.
  - rw quietly_eq. pose proof (ResetStale_keeps env dbnow age (wd_queue s)) as Hk. split; [split|done]; cbn.
    + split; cbn; try done; [by apply ResetStale_ok|].
      pose proof (ResetStale_effect env dbnow age (wd_queue s)) as He. cbn zeta in He. destruct He as [-> | ->]; [done|]. by apply honest_map_outbox.
    + eapply Forall_impl; [exact Hh|]. intros h. by apply held_keeps.
  - pose proof (append_spec (H := pg_repository tenant_exists ae) (RepositorySpec := pg_spec tenant_exists ae) (wd_audit s) t events W2 Hev) as Ha. cbn in Ha.
    destruct (AppendBatchChained tenant_exists ae (wd_audit s) t events) as [r db']. destruct Ha as (A1 & A2 & A3 & _). cbn.
    destruct (audit_step ae s db' t Hw) as (B1 & B2 & B3); [by split_and!|]. split; [split|done]; cbn; [by split|done].
Qed.

Lemma run_ok st st' : state_ok st -> rtc queue_step st st' -> state_ok st' /\ queue_keeps (wd_queue st.1) (wd_queue st'.1).
Proof.
  intros Hs Hr. revert Hs. induction Hr as [st|st st1 st2 H1 H2 IH]; intros Hs; [by split|].
  destruct (step_ok st st1 Hs H1) as [Hs1 K1]. destruct (IH Hs1) as [Hs2 K2]. split; [done|]. by etrans.
Qed.

(** ** What a receipt promises *)

Definition empty_queue : ODB := MkODB [] [].

Lemma empty_queue_ok n : queue_ok n empty_queue.
Proof. split; cbn; [constructor..|done|by intros r c ?%not_elem_of_nil]. Qed.

Lemma start_ok db subs alerts : db_wf db -> (forall t, linked GenesisHash (chain (db_events db) t)) ->
  state_ok (MkWorld DB empty_queue db subs alerts, []).
Proof.
  intros Hd Hl. split; [|constructor]. split; [apply empty_queue_ok|done|done|]. by intros r c ?%not_elem_of_nil.
Qed.

(** C20: whatever clients, workers, crashes and failing calls do, in any order: every
    audit chain stays linked; each receipt has exactly one message, of the same
    tenant; a queued receipt's message is still to be processed, with attempts
    left; and a committed receipt lists the ids of its batch in order, each of
    them the id of exactly one audit row, in the tenant's chain. *)
Theorem receipts_keep_promises db subs alerts s held :
  db_wf db -> (forall t, linked GenesisHash (chain (db_events db) t)) ->
  rtc queue_step (MkWorld DB empty_queue db subs alerts, []) (s, held) ->
  (forall t, linked GenesisHash (chain (db_events (wd_audit s)) t))
  /\ forall c, c ∈ o_receipts (wd_queue s) -> exists r,
       filter (fun x => ob_ReceiptID x = rc_ID c) (o_outbox (wd_queue s)) = [r] /\ ob_TenantID r = rc_TenantID c
       /\ (rc_Status c = "queued" -> waiting r /\ ob_Attempts r < wc_MaxAttempts w)
       /\ (rc_Status c = "committed" -> exists events, DecodePayload (ob_Payload r) = Some events
            /\ rc_EventIDs c = map ev_ID events
            /\ forall id, id ∈ rc_EventIDs c -> exists e,
                 filter (fun x => ev_ID x = id) (db_events (wd_audit s)) = [e] /\ ev_TenantID e = rc_TenantID c).
Proof.
  intros Hd Hl Hr. pose proof (start_ok db subs alerts Hd Hl) as H0.
  destruct (run_ok _ _ H0 Hr) as [[[W1 W2 W3 W4] _] _]. cbn in W1, W2, W3, W4. split; [done|]. intros c Hc.
  assert (Hp : receipt_key c ∈ map (fun r => (ob_ReceiptID r, ob_TenantID r)) (o_outbox (wd_queue s))).
  { rw (q_pairs _ _ W1). by apply list_elem_of_fmap_2. }
  apply list_elem_of_fmap in Hp as (r & Hk & Hin). injection Hk as K1 K2. exists r. split_and!; [|done| |].
  - assert (Hf : r ∈ filter (fun x => ob_ReceiptID x = rc_ID c) (o_outbox (wd_queue s))) by by apply list_elem_of_filter.
    assert (Hnd : NoDup (filter (fun x => ob_ReceiptID x = rc_ID c) (o_outbox (wd_queue s)))).
    { apply NoDup_filter. exact (NoDup_fmap_1 ob_ID _ (q_row_ids _ _ W1)). }
    assert (Hu : forall x, x ∈ filter (fun x => ob_ReceiptID x = rc_ID c) (o_outbox (wd_queue s)) -> x = r).
    { intros x [Hx Hix]%list_elem_of_filter. apply (unique_message _ _ x r W1 Hix Hin).
      pose proof (q_rows _ _ W1) as Hrows. rw Forall_forall in Hrows. destruct (Hrows x Hix) as (-> & _), (Hrows r Hin) as (-> & _). congruence. }
    destruct (filter _ _) as [|x [|y l]]; [by apply not_elem_of_nil in Hf|by apply list_elem_of_singleton in Hf as ->|].
    exfalso. pose proof (Hu x ltac:(by left)) as ->. pose proof (Hu y ltac:(by right; left)) as ->.
    apply NoDup_cons in Hnd as [Hn _]. apply Hn. by left.
  - intros Hs. pose proof (q_queued _ _ W1 r c Hin Hc (eq_sym K1) Hs) as Hw. split; [done|].
    pose proof (q_rows _ _ W1) as Hrows. rw Forall_forall in Hrows. destruct (Hrows r Hin) as (_ & _ & _ & Ha & _). by apply Ha.
  - intros Hs. destruct (W4 r c Hin Hc (eq_sym K1) Hs) as (ev & E1 & E2 & E3). exists ev. split_and!; [done..|].
    intros id Hid. apply E3, list_elem_of_fmap in Hid as (e & -> & [He Ht]%elem_of_chain). exists e. split; [|done].
    by apply unique_row.
Qed.

(** Nothing enqueued is lost: along every run the messages with their payloads,
    and the receipts with their owners, only grow, in order. *)
Theorem queue_durable st st' : state_ok st -> rtc queue_step st st' -> queue_keeps (wd_queue st.1) (wd_queue st'.1).
Proof. intros Hs Hr. by destruct (run_ok st st' Hs Hr). Qed.

(** ** A healthy round *)

Definition healthy_at (dbnow now : Time) : Surround := MkSurround healthy dbnow now.

Lemma message_updated (q : ODB) f r : queue_ok (wc_MaxAttempts w) q -> r ∈ o_outbox q ->
  (forall x, ob_ID (f x) = ob_ID x) -> f r ∈ o_outbox (map_outbox (has_id (ob_ID r)) f q).
Proof.
  intros Hq Hr Hf. cbn. apply list_elem_of_fmap. exists r. split; [|done]. unfold has_id. by rw bool_decide_eq_true_2.
Qed.

Lemma receipt_updated (q : ODB) rid h c : c ∈ o_receipts q -> rc_ID c = rid -> h c ∈ o_receipts (map_receipt rid h q).
Proof. intros Hc Hid. cbn. apply list_elem_of_fmap. exists c. by rw decide_True. Qed.

Lemma message_receipt (q : ODB) r : queue_ok (wc_MaxAttempts w) q -> r ∈ o_outbox q ->
  exists c, c ∈ o_receipts q /\ rc_ID c = ob_ReceiptID r /\ rc_TenantID c = ob_TenantID r.
Proof.
  intros Hq Hr. assert (Hp : (ob_ReceiptID r, ob_TenantID r) ∈ map receipt_key (o_receipts q)).
  { rw -(q_pairs _ q Hq). by apply (list_elem_of_fmap_2 (fun r => (ob_ReceiptID r, ob_TenantID r))). }
  apply list_elem_of_fmap in Hp as (c & Hk & Hc). injection Hk as -> ->. by exists c.
Qed.

Lemma GetReceipt_found env (q : ODB) c : queue_ok (wc_MaxAttempts w) q -> c ∈ o_receipts q -> fails env (CallRead 0) = false ->
  GetReceipt env (rc_TenantID c) (rc_ID c) q
  = Ok (MkReceipt (rc_ID c) (rc_Status c) (MkBatchResult (rc_Accepted c) (rc_Rejected c) (rc_EventIDs c) (rc_Errors c))
      (default "" (rc_ErrorMessage c)) (rc_CreatedAt c) (rc_CommittedAt c)).
Proof.
  intros Hq Hc Hf. unfold GetReceipt, store_GetReceipt. rw Hf.
  rw (head_filter_unique (fun r => rc_ID r = rc_ID c /\ rc_TenantID r = rc_TenantID c) _ c); [done|done..|].
  intros y Hy [Hi _]. apply list_elem_of_lookup in Hc as [i Hi'], Hy as [j Hj'].
  assert (i = j) as ->; [|congruence].
  apply (NoDup_lookup _ _ _ (rc_ID c) (q_receipt_ids _ q Hq)); by rw list_lookup_fmap ?Hi' ?Hj' /= ?Hi.
Qed.

(** A healthy claim of a single message. *)
Lemma claim_one dbnow locked limit s r : world_ok s -> claim_rows dbnow locked limit (wd_queue s) = [r] ->
  exists s1, on_queue (ClaimPending healthy dbnow locked limit) s = (Ok [claimed_row r], s1)
    /\ world_ok s1 /\ held_ok (wd_queue s1) (claimed_row r) /\ wd_audit s1 = wd_audit s.
Proof.
  intros Hs Hc. assert (Hr : r ∈ o_outbox (wd_queue s)) by (apply (claim_rows_spec dbnow locked limit); rw Hc; by left).
  assert (Hans : (on_queue (ClaimPending healthy dbnow locked limit) s).1 = Ok [claimed_row r]).
  { unfold on_queue, ClaimPending, o_tx, o_query, o_exec, mbind, otx_bind. cbn [fails healthy]. by rw Hc. }
  destruct (on_queue _ s) as [res s1] eqn:Hon. cbn in Hans. subst res. exists s1.
  assert (Hst : queue_step (s, []) (s1, [claimed_row r])) by exact (qs_claim _ _ _ _ s [] _ s1 Hon).
  destruct (step_ok (s, []) (s1, [claimed_row r])) as [[Hw Hh] _]; [by split|done|]. cbn in Hw, Hh.
  apply Forall_cons in Hh as [Hh _]. split_and!; [done..|]. unfold on_queue in Hon. destruct (ClaimPending _ _ _ _ _). by injection Hon as _ <-.
Qed.

(** A healthy commit of events the audit tables accept. *)
Lemma CommitBatch_accepts db t events : db_wf db -> tenant_exists t = true -> text_ok t = true ->
  Forall (fun e => acceptable e = true) events ->
  (forall x e, x ∈ db_events db -> e ∈ events -> ev_ID x = ev_ID e -> ev_TenantID x = t) ->
  db_seq db + Z.of_nat (length events) <= int64_max ->
  exists out db', CommitBatch (Repository0 := pg_repository tenant_exists healthy) db t events = (Ok out, db')
    /\ map ev_ID out = map ev_ID events /\ forall e, e ∈ events -> ev_ID e ∈ map ev_ID (chain (db_events db') t).
Proof.
  intros Hwf Htx Htt Hacc Hown Hseq.
  destruct (append_succeeds tenant_exists db t events Hwf Htx Htt Hacc Hown Hseq) as (out & db' & Happ).
  assert (Hmd : Forall (fun e => md_ok e = true) events) by (eapply Forall_impl; [exact Hacc|]; intros e; apply acceptable_md).
  destruct (CommitBatch_extends (H := pg_repository tenant_exists healthy) (H0 := pg_spec tenant_exists healthy) db t events Hwf Hmd) as [_ Ho].
  assert (Hcb : CommitBatch (Repository0 := pg_repository tenant_exists healthy) db t events = (Ok out, db')).
  { unfold CommitBatch. destruct events as [|e es]; [|exact Happ]. cbn in Happ |- *. exact Happ. }
  rw Hcb in Ho. exists out, db'. split; [done|]. exact (Ho out eq_refl).
Qed.

Lemma MarkCommitted_healthy dbnow id rid ids q : forallb text_ok ids = true ->
  MarkCommitted healthy dbnow id rid ids q = (Ok tt, map_receipt rid (commit_receipt dbnow ids) (map_outbox (has_id id) (mark_done dbnow) q)).
Proof. intros Ht. unfold MarkCommitted, o_tx, o_exec, mbind, otx_bind. cbn [fails healthy]. by rw Ht. Qed.

Lemma acceptable_ids events : Forall (fun e => acceptable e = true) events -> forallb text_ok (map ev_ID events) = true.
Proof.
  intros Hacc. apply forallb_Forall, Forall_fmap. eapply Forall_impl; [exact Hacc|]. intros e. unfold acceptable.
  intros [[[[[[Ht _]%andb_prop _]%andb_prop _]%andb_prop _]%andb_prop _]%andb_prop _]%andb_prop. cbn in Ht. by apply andb_prop in Ht as [? _].
Qed.

(** The receipt of a message just committed. *)
Lemma committed_receipt dbnow q h ids : queue_ok (wc_MaxAttempts w) q -> held_ok q h ->
  let q' := map_receipt (row_ReceiptID h) (commit_receipt dbnow ids) (map_outbox (has_id (row_ID h)) (mark_done dbnow) q) in
  queue_ok (wc_MaxAttempts w) q' ->
  (exists m, m ∈ o_outbox q' /\ ob_ID m = row_ID h /\ ob_Status m = "done")
  /\ exists a, GetReceipt healthy (row_TenantID h) (row_ReceiptID h) q' = Ok a /\ ar_Status a = "committed" /\ br_IDs (ar_Batch a) = ids.
Proof.
  cbn zeta. intros Hq [Hkey _] Hq'. apply list_elem_of_fmap in Hkey as (r1 & Hkey & Hr1). injection Hkey as K1 K2 K3 K4. split.
  - exists (mark_done dbnow r1). split_and!; [|done|done]. cbn [o_outbox map_receipt]. rw K1. by apply message_updated.
  - destruct (message_receipt q r1 Hq Hr1) as (c & Hc & C1 & C2).
    pose proof (receipt_updated (map_outbox (has_id (row_ID h)) (mark_done dbnow) q) (row_ReceiptID h) (commit_receipt dbnow ids) c Hc ltac:(congruence)) as Hc'.
    pose proof (GetReceipt_found healthy _ _ Hq' Hc' eq_refl) as Hg. cbn [rc_TenantID rc_ID commit_receipt] in Hg.
    rw C1 C2 -K2 -K3 in Hg. eexists. split; [exact Hg|]. by split.
Qed.

(** C21: delivery.  When the server and the audit store serve their calls and the claim
    takes one message whose events the audit tables accept, one round of the
    worker puts the events on the tenant's chain, marks the message done, and
    the client polling the receipt sees it committed with the ids of the batch. *)
Theorem delivery dbnow now locked s r events : let t := ob_TenantID r in let sus := fun _ => healthy_at dbnow now in
  world_ok s -> claim_rows dbnow locked (Z.to_nat (wc_BatchSize w)) (wd_queue s) = [r] ->
  DecodePayload (ob_Payload r) = Some events ->
  tenant_exists t = true -> text_ok t = true -> Forall (fun e => acceptable e = true) events ->
  (forall x e, x ∈ db_events (wd_audit s) -> e ∈ events -> ev_ID x = ev_ID e -> ev_TenantID x = t) ->
  db_seq (wd_audit s) + Z.of_nat (length events) <= int64_max ->
  let s' := processOnce (Repository0 := pg_repository tenant_exists healthy) errText decodeText alerter w sus locked s in
  (exists m, m ∈ o_outbox (wd_queue s') /\ ob_ID m = ob_ID r /\ ob_Status m = "done")
  /\ (forall e, e ∈ events -> ev_ID e ∈ map ev_ID (chain (db_events (wd_audit s')) t))
  /\ exists a, GetReceipt healthy t (ob_ReceiptID r) (wd_queue s') = Ok a
       /\ ar_Status a = "committed" /\ br_IDs (ar_Batch a) = map ev_ID events.
Proof.
  cbn zeta. intros Hs Hc Hd Htx Htt Hacc Hown Hseq.
  destruct (claim_one _ _ _ _ _ Hs Hc) as (s1 & Hon & Hs1 & Hh1 & Hdb). rw -Hdb in Hown, Hseq.
  destruct (CommitBatch_accepts _ _ _ (wo_db _ Hs1) Htx Htt Hacc Hown Hseq) as (out & db' & Hcb & Hids & Hin).
  destruct (process_ok healthy (healthy_at dbnow now) (claimed_row r) s1 Hs1 Hh1) as [Hok _].
  unfold processOnce. cbn [su_env su_dbnow healthy_at]. rw Hon. cbn [process_rows].
  unfold processRow in Hok |- *. cbn [claimed_row row_Payload row_TenantID row_ID row_ReceiptID] in Hok |- *. rw Hd in Hok |- *.
  rw Hcb in Hok |- *. unfold on_queue in Hok |- *. cbn [wd_queue su_env su_dbnow healthy_at] in Hok |- *.
  pose proof (acceptable_ids _ Hacc) as Htext. rw Hids (MarkCommitted_healthy dbnow _ _ _ _ Htext) in Hok |- *. cbn [wd_queue wd_audit] in Hok |- *.
  destruct (committed_receipt dbnow (wd_queue s1) (claimed_row r) (map ev_ID events) (wo_queue _ Hs1) Hh1 (wo_queue _ Hok)) as [H1 H2].
  split_and!; [exact H1|exact Hin|exact H2].
Qed.

(** C22: a failed attempt is counted, never lost.  When the audit store refuses the
    batch and the queue can be written, the message either waits again with one
    more attempt, at least a second later, or, once the attempts are used up,
    has failed together with its receipt, and exactly then is the alert raised. *)
Theorem failed_attempt ae dbnow now s row events err st' : world_ok s -> held_ok (wd_queue s) row ->
  DecodePayload (row_Payload row) = Some events ->
  CommitBatch (Repository0 := pg_repository tenant_exists ae) (wd_audit s) (row_TenantID row) events = (Err err, st') ->
  text_ok (errText err) = true -> row_Attempts row + 1 < 2 ^ 31 -> alerter = true ->
  let s' := process ae (healthy_at dbnow now) row s in
  exists m, m ∈ o_outbox (wd_queue s') /\ row_key m = (row_ID row, row_ReceiptID row, row_TenantID row, row_Payload row)
    /\ ob_Attempts m = row_Attempts row + 1 /\ ob_Error m = Some (errText err)
    /\ if wc_MaxAttempts w <=? row_Attempts row + 1
       then ob_Status m = "failed" /\ wd_alerts s' = wd_alerts s ++ [(row_TenantID row, row_ReceiptID row)]
            /\ exists c, c ∈ o_receipts (wd_queue s') /\ rc_ID c = row_ReceiptID row /\ rc_Status c = "failed"
       else ob_Status m = "pending" /\ wd_alerts s' = wd_alerts s
            /\ pg_ts (now + Second) <= ob_AvailableAt m <= pg_ts (now + 30 * Second).
Proof.
  cbn zeta. intros Hs Hrow Hd Hcb Htext Hlt Hal. pose proof (wo_queue _ Hs) as W1.
  destruct (held_row _ row W1 Hrow) as (Hid & _ & Ha). destruct Hrow as [Hkey _].
  apply list_elem_of_fmap in Hkey as (r1 & Hkey & Hr1). pose proof Hkey as Hk. injection Hk as K1 K2 K3 K4.
  unfold processRow. rw Hd Hcb Hal quietly_eq. cbn [wd_queue wd_alerts su_env su_dbnow su_now healthy_at].
  unfold MarkRetry, o_tx, o_exec, mbind, otx_bind. cbn [fails healthy]. rw Htext.
  assert (Hint : int4_ok (row_Attempts row + 1) = true) by (unfold int4_ok; lia). rw Hint. cbn [andb].
  destruct (wc_MaxAttempts w <=? row_Attempts row + 1) eqn:Hmx; cbn [andb fails healthy].
  - unfold commit. cbn [fails healthy snd]. exists (mark_failed dbnow (errText err) (row_Attempts row + 1) r1).
    split_and!; [|done|done|done|done|done|].
    + cbn [o_outbox map_receipt]. rw K1. by apply message_updated.
    + destruct (message_receipt _ r1 W1 Hr1) as (c & Hc & C1 & _). exists (fail_receipt (errText err) c).
      split_and!; [|cbn; congruence|done]. apply receipt_updated; [done|congruence].
  - unfold commit. cbn [fails healthy snd]. eexists. split; [rw K1; by apply message_updated|].
    split_and!; [done..| |]; cbn [ob_AvailableAt mark_pending]; apply Truncate_micro_mono; unfold retry_backoff.
    all: assert (Hw : wrap64 ((row_Attempts row + 1) * Second) = (row_Attempts row + 1) * Second)
      by (apply wrap64_id; unfold int64_min, int64_max, Second; lia); rw Hw; unfold Second; lia.
Qed.
End Run.

(** * A sample run *)

#[local] Existing Instances jsonb_plain jsonb_plain_spec.

Definition queued_event (id : string) (n : json) : AuditEvent :=
  MkEvent id "" 1700000000000000000 (MkActor "u1" ActorHuman "") "read" (MkResource "r1" "doc" "")
    OutcomeSuccess (Some [("n", n)]) "" "" 0.
Definition queued_batch : list AuditEvent := [queued_event "evt_1" (JInt 7); queued_event "evt_2" (JStr "x")].
Definition all_tenants (_ : string) : bool := true.
Definition plain_text (_ : AppError) : string := "refused".
Definition default_worker : WorkerConfig := NewWorker (MkWorkerConfig 0 0).
Definition no_audit : DB := MkDB [] 0.
Definition start_world : World DB := MkWorld DB empty_queue no_audit (MkSubs [] 0) [].
Definition noon : Time := 1700000000000000000.

Definition enqueued : World DB :=
  quietly (Enqueue all_tenants healthy noon "t1" "rcpt_1" queued_batch (MkBatchResult 2 0 [] [])) start_world.
Definition delivered : World DB :=
  processOnce (Repository0 := pg_repository all_tenants healthy) plain_text (fun _ => "") true default_worker
    (fun _ => healthy_at noon noon) ∅ enqueued.
Definition the_message : OutboxRow :=
  default (MkOutboxRow "" "" "" JNull "" 0 0 0 None None) (head (o_outbox (wd_queue enqueued))).
Definition decoded_batch : list AuditEvent := default [] (DecodePayload (ob_Payload the_message)).

Lemma no_audit_wf : db_wf no_audit.
Proof. by split; [|constructor|constructor|constructor]. Qed.

Abbreviation sample_step := (queue_step all_tenants plain_text (fun _ => "") true default_worker).

Lemma enqueued_step : rtc sample_step (start_world, []) (enqueued, []).
Proof. apply rtc_once. exact (qs_enqueue all_tenants _ _ _ _ healthy noon "t1" "rcpt_1" queued_batch _ start_world [] ltac:(repeat constructor; vm_compute; reflexivity)). Qed.

Definition claimed : World DB := (on_queue (ClaimPending healthy noon ∅ 32) enqueued).2.
Definition processed : World DB :=
  processRow (Repository0 := pg_repository all_tenants healthy) plain_text (fun _ => "") true default_worker
    (healthy_at noon noon) (claimed_row the_message) claimed.

Lemma processed_run : rtc sample_step (start_world, []) (processed, []).
Proof.
  etrans; [exact enqueued_step|]. apply rtc_l with (claimed, [claimed_row the_message]).
  - apply (qs_claim all_tenants _ _ _ _ healthy noon ∅ 32 enqueued [] [claimed_row the_message] claimed). vm_compute. reflexivity.
  - apply rtc_once. exact (qs_process all_tenants _ _ _ _ healthy (healthy_at noon noon) (claimed_row the_message) [] [] claimed).
Qed.

Lemma receipts_keep_promises_witness :
  map (fun c => (rc_Status c, rc_EventIDs c)) (o_receipts (wd_queue processed)) = [("committed", ["evt_1"; "evt_2"])]
  /\ forall t, linked GenesisHash (chain (db_events (wd_audit processed)) t).
Proof.
  split; [vm_compute; reflexivity|].
  exact (proj1 (receipts_keep_promises all_tenants plain_text (fun _ => "") true default_worker ltac:(vm_compute; reflexivity)
    no_audit (MkSubs [] 0) [] processed [] no_audit_wf (fun t => eq_refl) processed_run)).
Defined.

Lemma start_world_ok : state_ok default_worker (start_world, []).
Proof. exact (start_ok default_worker no_audit _ _ no_audit_wf (fun t => eq_refl)). Qed.

Lemma queue_durable_witness : queue_keeps (wd_queue start_world) (wd_queue processed).
Proof.
  exact (queue_durable all_tenants plain_text (fun _ => "") true default_worker ltac:(vm_compute; reflexivity)
    (start_world, []) (processed, []) start_world_ok processed_run).
Defined.

Lemma enqueued_ok : world_ok default_worker enqueued.
Proof. exact (proj1 (proj1 (run_ok all_tenants plain_text (fun _ => "") true default_worker ltac:(vm_compute; reflexivity) _ _ start_world_ok enqueued_step))). Qed.

Lemma delivery_witness :
  map ev_ID decoded_batch = ["evt_1"; "evt_2"]
  /\ exists a, GetReceipt healthy "t1" "rcpt_1" (wd_queue delivered) = Ok a /\ ar_Status a = "committed" /\ br_IDs (ar_Batch a) = map ev_ID decoded_batch.
Proof.
  split; [vm_compute; reflexivity|].
  refine (proj2 (proj2 (delivery all_tenants plain_text (fun _ => "") true default_worker ltac:(vm_compute; reflexivity)
    noon noon ∅ enqueued the_message decoded_batch enqueued_ok _ _ _ _ _ _ _))).
  - vm_compute. reflexivity.
  - vm_compute. reflexivity.
  - reflexivity.
  - vm_compute. reflexivity.
  - apply forallb_Forall. vm_compute. reflexivity.
  - intros x e Hx _ _. exfalso. revert Hx. assert (Hnil : db_events (wd_audit enqueued) = []) by (vm_compute; reflexivity).
    rw Hnil. exact (not_elem_of_nil x).
  - vm_compute. discriminate.
Defined.

(** A store that refuses transactions. *)
Definition refusing : Env := MkEnv (fun c => match c with CallBegin => true | _ => false end) false.

Lemma claimed_ok : state_ok default_worker (claimed, [claimed_row the_message]).
Proof.
  refine (proj1 (step_ok all_tenants plain_text (fun _ => "") true default_worker ltac:(vm_compute; reflexivity) (enqueued, []) _ _ _)).
  - exact (conj enqueued_ok (Forall_nil_2 _)).
  - apply (qs_claim all_tenants _ _ _ _ healthy noon ∅ 32 enqueued [] [claimed_row the_message] claimed). vm_compute. reflexivity.
Qed.

Lemma failed_attempt_witness : exists m, ob_Attempts m = 1 /\ ob_Error m = Some "refused" /\ ob_Status m = "pending".
Proof.
  destruct (failed_attempt all_tenants plain_text (fun _ => "") true default_worker refusing noon noon claimed (claimed_row the_message)
    decoded_batch (Internal "beginning audit tx") no_audit (proj1 claimed_ok)) as (m & _ & _ & Ha & He & Hs).
  - exact (Forall_inv (proj2 claimed_ok)).
  - vm_compute. reflexivity.
  - vm_compute. reflexivity.
  - reflexivity.
  - vm_compute. reflexivity.
  - reflexivity.
  - exists m. split; [rw Ha; vm_compute; reflexivity|]. split; [exact He|].
    assert (Hmax : (wc_MaxAttempts default_worker <=? row_Attempts (claimed_row the_message) + 1) = false) by (vm_compute; reflexivity).
    rw Hmax in Hs. exact (proj1 Hs).
Defined.

(** * What the queue does not promise *)

(** Integers beyond 2^53 are rounded on their way through the queue, which decodes
    metadata into [float64]; the synchronous path keeps them. *)
Example outbox_rounds_integers :
  (p ← marshal_events [queued_event "evt_1" (JInt 9007199254740993)]; events ← DecodePayload p; Some (map ev_Metadata events))
  = Some [Some [("n", JNum "9007199254740992")]].
Proof. vm_compute. reflexivity. Qed.

(** A committed receipt can become failed: a slow worker whose message was reclaimed
    and delivered by another one reports its own failure without looking at the
    message's status. *)
Definition one_attempt : WorkerConfig := NewWorker (MkWorkerConfig 1 1).
Definition later : Time := noon + 600 * Second.
Definition reclaimed_twice : World DB :=
  let first := on_queue (ClaimPending healthy noon ∅ 1) enqueued in
  let s := quietly (ResetStaleProcessing healthy later reclaimAge) first.2 in
  let second := on_queue (ClaimPending healthy later ∅ 1) s in
  let process ae row s := processRow (Repository0 := pg_repository all_tenants ae) plain_text (fun _ => "") true one_attempt (healthy_at later later) row s in
  let rows r := match r with Ok l => l | Err _ => [] end in
  let s := fold_left (fun s row => process healthy row s) (rows second.1) second.2 in
  fold_left (fun s row => process refusing row s) (rows first.1) s.

Example committed_receipt_can_fail :
  map (fun c => (rc_Status c, rc_EventIDs c)) (o_receipts (wd_queue reclaimed_twice)) = [("failed", ["evt_1"; "evt_2"])]
  /\ map ev_ID (db_events (wd_audit reclaimed_twice)) = ["evt_1"; "evt_2"].
Proof. vm_compute. by split. Qed.
