(* ===== verification/Tenants.v ===== *)
(** Tenants, their external identities, plans and API keys:
    api/internal/storage/postgres/audit_store.go (the tenant and key part) and
    api/internal/audit/repository.go.

    [TDB] holds the tables [tenants], [tenant_external_identities], [api_keys],
    [plans] and [processed_webhooks].  Every operation runs at a server time
    [dbnow] ([NOW()]) and a process time [now], in an environment that says
    which round trips fail.  BootstrapTenant is one step: its advisory lock on
    the external identity serialises the callers that matter to it. *)
From S2P Require Import Prelude Errors GoTime Json AuditModel Postgres.
Import GoTime.
Local Open Scope Z_scope.

(** * Tables *)

Record TenantRow := MkTenantRow {
  t_ID : string; t_Name : string; t_CreatedAt : Time; t_DeletedAt : option Time;
  t_PlanID : string; t_PeriodEnd : option Time; t_SubStatus : option string; t_Settings : json
}.
Record IdentityRow := MkIdentity { i_Provider : string; i_ExternalID : string; i_TenantID : string }.

(** [Plan]: a row of [plans] as the API shows it. *)
Record Plan := MkPlan {
  pl_ID : string; pl_Name : string; pl_RetentionDays : option Z; pl_MonthlyEventLimit : option Z;
  pl_MonthlyCopilotLimit : option Z; pl_CopilotTranscriptRetentionDays : option Z; pl_Description : string
}.

Record TDB := MkTDB {
  d_tenants : list TenantRow; d_identities : list IdentityRow; d_keys : list APIKey;
  d_plans : list Plan; d_webhooks : list string
}.
Definition with_tenants (l : list TenantRow) (d : TDB) := MkTDB l (d_identities d) (d_keys d) (d_plans d) (d_webhooks d).
Definition with_identities (l : list IdentityRow) (d : TDB) := MkTDB (d_tenants d) l (d_keys d) (d_plans d) (d_webhooks d).
Definition with_keys (l : list APIKey) (d : TDB) := MkTDB (d_tenants d) (d_identities d) l (d_plans d) (d_webhooks d).
Definition with_webhooks (l : list string) (d : TDB) := MkTDB (d_tenants d) (d_identities d) (d_keys d) (d_plans d) l.

Definition tenant_view (t : TenantRow) : Tenant := MkTenant (t_ID t) (t_Name t) (t_CreatedAt t).

(** * Statements *)

(** The default of [tenants.plan_id], a foreign key to [plans]. *)
Definition defaultPlan : string := "oss".

Definition insert_tenant (dbnow : Time) (id name : string) (d : TDB) : option TDB :=
  if text_ok id && text_ok name && bool_decide (id ∉ map t_ID (d_tenants d))
     && bool_decide (defaultPlan ∈ map pl_ID (d_plans d))
  then Some (with_tenants (d_tenants d ++ [MkTenantRow id name dbnow None defaultPlan None None (JObj [])]) d)
  else None.

Definition insert_identity (provider externalID tenantID : string) (d : TDB) : option TDB :=
  if text_ok provider && text_ok externalID && bool_decide (tenantID ∈ map t_ID (d_tenants d))
     && forallb (fun i => negb (bool_decide (i_Provider i = provider /\ i_ExternalID i = externalID))) (d_identities d)
  then Some (with_identities (d_identities d ++ [MkIdentity provider externalID tenantID]) d)
  else None.

(** PRIMARY KEY (id), UNIQUE (key_hash), the CHECK on scope and the foreign key; an
    empty label is stored as NULL and read back empty. *)
Definition insert_key (dbnow : Time) (k : APIKey) (d : TDB) : option TDB :=
  if forallb text_ok [k_ID k; k_Hash k; k_Label k] && bool_decide (k_TenantID k ∈ map t_ID (d_tenants d))
     && Scope_IsValid (k_Scope k)
     && bool_decide (k_ID k ∉ map k_ID (d_keys d)) && bool_decide (k_Hash k ∉ map k_Hash (d_keys d))
  then Some (with_keys (d_keys d ++ [MkKey (k_ID k) (k_TenantID k) (k_Hash k) (k_Scope k) (k_Label k) dbnow None]) d)
  else None.

Definition map_tenant (id : string) (f : TenantRow -> TenantRow) (d : TDB) : TDB :=
  with_tenants (map (fun t => if decide (t_ID t = id /\ t_DeletedAt t = None) then f t else t) (d_tenants d)) d.

Definition set_revoked (at_ : Time) (k : APIKey) : APIKey :=
  MkKey (k_ID k) (k_TenantID k) (k_Hash k) (k_Scope k) (k_Label k) (k_CreatedAt k) (Some at_).
(** UPDATE api_keys SET revoked_at = NOW() WHERE ... AND revoked_at IS NULL, with the rows affected. *)
Definition revoke_where (P : APIKey -> bool) (dbnow : Time) (d : TDB) : nat * TDB :=
  let hit k := P k && bool_decide (k_RevokedAt k = None) in
  (length (filter (fun k => hit k = true) (d_keys d)),
   with_keys (map (fun k => if hit k then set_revoked dbnow k else k) (d_keys d)) d).

(** * Tenants *)

Definition exec (env : Env) (c : Call) (msg : string) (f : TDB -> option TDB) (d : TDB) : res unit * TDB :=
  if fails env c then (Err (Internal msg), d)
  else match f d with None => (Err (Internal msg), d) | Some d' => (Ok tt, d') end.

Definition CreateTenant (env : Env) (dbnow : Time) (t : Tenant) (d : TDB) : res unit * TDB :=
  exec env (CallWrite 0) "inserting tenant" (insert_tenant dbnow (tn_ID t) (tn_Name t)) d.

Definition GetTenant (env : Env) (id : string) (d : TDB) : res Tenant :=
  if fails env (CallRead 0) then Err (Internal "getting tenant")
  else match head (filter (fun t => t_ID t = id /\ t_DeletedAt t = None) (d_tenants d)) with
       | None => Err (NotFound "tenant" id)
       | Some t => Ok (tenant_view t)
       end.

(** tenants t JOIN tenant_external_identities m ON m.tenant_id = t.id, for one identity. *)
Definition identity_tenants (provider externalID : string) (d : TDB) : list TenantRow :=
  m ← filter (fun m => i_Provider m = provider /\ i_ExternalID m = externalID) (d_identities d);
  filter (fun t => t_ID t = i_TenantID m) (d_tenants d).

Definition GetTenantByExternalID (env : Env) (provider externalID : string) (d : TDB) : res Tenant :=
  if fails env (CallRead 0) then Err (Internal "getting tenant by external id")
  else match head (filter (fun t => t_DeletedAt t = None) (identity_tenants provider externalID d)) with
       | None => Err (NotFound "tenant" (provider +:+ ":" +:+ externalID))
       | Some t => Ok (tenant_view t)
       end.

Definition SoftDeleteTenant (env : Env) (dbnow : Time) (id : string) (d : TDB) : res unit * TDB :=
  exec env (CallWrite 0) "soft-deleting tenant" (fun d => Some (map_tenant id (fun t =>
    MkTenantRow (t_ID t) (t_Name t) (t_CreatedAt t) (Some dbnow) (t_PlanID t) (t_PeriodEnd t) (t_SubStatus t) (t_Settings t)) d)) d.

Definition UpdateTenantName (env : Env) (id name : string) (d : TDB) : res unit * TDB :=
  exec env (CallWrite 0) "updating tenant name" (fun d => if text_ok name then Some (map_tenant id (fun t =>
    MkTenantRow (t_ID t) name (t_CreatedAt t) (t_DeletedAt t) (t_PlanID t) (t_PeriodEnd t) (t_SubStatus t) (t_Settings t)) d)
    else None) d.

(** ** BootstrapTenant *)

Record BootstrapInput := MkBootstrap {
  bi_Provider : string; bi_ExternalID : string; bi_TenantID : string; bi_TenantName : string; bi_KeyCandidate : option APIKey
}.

(** The soft-deleted tenants are not excluded here. *)
Definition lookupTenantByExternalTx (env : Env) (provider externalID : string) (d : TDB) : res (option Tenant) :=
  if fails env (CallRead 0) then Err (Internal "looking up tenant by external id in bootstrap")
  else Ok (tenant_view <$> head (identity_tenants provider externalID d)).

Definition active_keys (tenantID : string) (d : TDB) : list APIKey :=
  order_by k_CreatedAt (filter (fun k => k_TenantID k = tenantID /\ k_RevokedAt k = None) (d_keys d)).
Definition firstActiveKeyTx (env : Env) (tenantID : string) (d : TDB) : res (option APIKey) :=
  if fails env (CallRead 1) then Err (Internal "looking up active key in bootstrap")
  else Ok (head (active_keys tenantID d)).

(** The tenant row of the identity, created with its mapping when it is new. *)
Definition ensure_tenant (env : Env) (dbnow : Time) (b : BootstrapInput) (d : TDB) : res (Tenant * TDB) :=
  t ← lookupTenantByExternalTx env (bi_Provider b) (bi_ExternalID b) d;
  match t with
  | Some t => Ok (t, d)
  | None =>
      if bool_decide (bi_TenantID b = "") then Err (InvalidInput "tenant id candidate is required for new tenants")
      else if fails env (CallWrite 0) then Err (Internal "inserting tenant")
      else match insert_tenant dbnow (bi_TenantID b) (bi_TenantName b) d with
           | None => Err (Internal "inserting tenant")
           | Some d =>
               if fails env (CallWrite 1) then Err (Internal "inserting external identity mapping")
               else match insert_identity (bi_Provider b) (bi_ExternalID b) (bi_TenantID b) d with
                    | None => Err (Internal "inserting external identity mapping")
                    | Some d => Ok (MkTenant (bi_TenantID b) (bi_TenantName b) dbnow, d)
                    end
           end
  end.

(** The transaction up to its commit. *)
Definition bootstrap_tx (env : Env) (dbnow : Time) (b : BootstrapInput) (cand : APIKey) (d : TDB)
    : res (Tenant * APIKey * bool * TDB) :=
  '(t, d) ← ensure_tenant env dbnow b d;
  active ← firstActiveKeyTx env (tn_ID t) d;
  match active with
  | Some k => Ok (t, k, false, d)
  | None =>
      let cand := MkKey (k_ID cand) (tn_ID t) (k_Hash cand) (k_Scope cand) (k_Label cand) (k_CreatedAt cand) (k_RevokedAt cand) in
      if fails env (CallWrite 2) then Err (Internal "inserting bootstrap api key")
      else match insert_key dbnow cand d with
           | None => Err (Internal "inserting bootstrap api key")
           | Some d =>
               Ok (t, MkKey (k_ID cand) (k_TenantID cand) (k_Hash cand) (k_Scope cand) (k_Label cand) dbnow (k_RevokedAt cand), true, d)
           end
  end.

Definition BootstrapTenant (env : Env) (dbnow : Time) (b : BootstrapInput) (d : TDB)
    : res (Tenant * APIKey * bool) * TDB :=
  if bool_decide (bi_Provider b = "") || bool_decide (bi_ExternalID b = "") then
    (Err (InvalidInput "provider and external_id are required"), d)
  else match bi_KeyCandidate b with
  | None => (Err (InvalidInput "key candidate is required"), d)
  | Some cand =>
      if fails env CallBegin then (Err (Internal "beginning bootstrap tx"), d)
      else if fails env CallLock || negb (text_ok (bi_Provider b +:+ "|" +:+ bi_ExternalID b))
      then (Err (Internal "acquiring bootstrap lock"), d)
      else match bootstrap_tx env dbnow b cand d with
           | Err e => (Err e, d)
           | Ok (r, d') =>
               if fails env CallCommit then (Err (Internal "committing bootstrap tx"), commit env d d') else (Ok r, d')
           end
  end.

(** * API keys *)

Definition CreateKey (env : Env) (dbnow : Time) (k : APIKey) (d : TDB) : res unit * TDB :=
  exec env (CallWrite 0) "inserting api key" (insert_key dbnow k) d.

Definition GetKeyByID (env : Env) (id : string) (d : TDB) : res APIKey :=
  if fails env (CallRead 0) then Err (Internal "looking up api key")
  else match head (filter (fun k => k_ID k = id) (d_keys d)) with
       | None => Err (NotFound "api_key" "")
       | Some k => Ok k
       end.

(** ORDER BY created_at DESC.  [rows.Err()] is not consulted, so a connection
    that breaks after [n] rows ([cut = Some n]) passes for a shorter list. *)
Definition ListKeys (env : Env) (cut : option nat) (tenantID : string) (d : TDB) : res (list APIKey) :=
  if fails env (CallRead 0) then Err (Internal "listing api keys")
  else let l := rev (order_by k_CreatedAt (filter (fun k => k_TenantID k = tenantID) (d_keys d))) in
       Ok (match cut with None => l | Some n => firstn n l end).

Definition RevokeKey (env : Env) (dbnow : Time) (tenantID id : string) (d : TDB) : res unit * TDB :=
  if fails env (CallWrite 0) then (Err (Internal "revoking api key"), d)
  else let '(n, d') := revoke_where (fun k => bool_decide (k_ID k = id /\ k_TenantID k = tenantID)) dbnow d in
       (if (n =? 0)%nat then Err (NotFound "api_key" id) else Ok tt, d').

Definition RevokeAllKeys (env : Env) (dbnow : Time) (tenantID : string) (d : TDB) : res unit * TDB :=
  if fails env (CallWrite 0) then (Err (Internal "revoking all api keys"), d)
  else (Ok tt, (revoke_where (fun k => bool_decide (k_TenantID k = tenantID)) dbnow d).2).

(** * Plans *)

(** The plan of a live tenant, with the end and the state of its subscription. *)
Definition plan_rows (tenantID : string) (d : TDB) : list (Plan * option Time * option string) :=
  t ← filter (fun t => t_ID t = tenantID /\ t_DeletedAt t = None) (d_tenants d);
  p ← filter (fun p => pl_ID p = t_PlanID t) (d_plans d);
  [(p, t_PeriodEnd t, t_SubStatus t)].

Definition downgrade (tenantID : string) (d : TDB) : TDB :=
  map_tenant tenantID (fun t =>
    MkTenantRow (t_ID t) (t_Name t) (t_CreatedAt t) (t_DeletedAt t) "free" (t_PeriodEnd t) (Some "expired") (t_Settings t)) d.

Definition oss_plan : Plan :=
  MkPlan "oss" "Self-hosted" None None None None "All core features; operator-managed storage and retention.".

Definition GetTenantPlan (env : Env) (ossMode : bool) (now : Time) (tenantID : string) (d : TDB) : res Plan * TDB :=
  if ossMode then (match GetTenant env tenantID d with Err e => Err e | Ok _ => Ok oss_plan end, d)
  else if fails env (CallRead 0) then (Err (Internal "getting tenant plan"), d)
  else match head (plan_rows tenantID d) with
  | None => (Err (NotFound "tenant" tenantID), d)
  | Some (p, periodEnd, _) =>
      if match periodEnd with Some e => Before e now | None => false end && bool_decide (pl_ID p = "pro") then
        (* the UPDATE's error is dropped; plan_id references plans *)
        let d' := if fails env (CallWrite 0) || negb (bool_decide ("free" ∈ map pl_ID (d_plans d))) then d else downgrade tenantID d in
        if fails env (CallRead 1) then (Err (Internal "getting tenant plan fallback"), d')
        else match head (filter (fun p => pl_ID p = "free") (d_plans d')) with
             | None => (Err (Internal "getting tenant plan fallback"), d')
             | Some p => (Ok p, d')
             end
      else (Ok p, d)
  end.

(** * Webhooks *)

(** ON CONFLICT (id) DO NOTHING: true for the first caller. *)
Definition MarkProcessed (env : Env) (id source eventType : string) (d : TDB) : res bool * TDB :=
  if fails env (CallWrite 0) || negb (forallb text_ok [id; source; eventType])
  then (Err (Internal "marking webhook processed"), d)
  else if decide (id ∈ d_webhooks d) then (Ok false, d)
  else (Ok true, with_webhooks (d_webhooks d ++ [id]) d).
