(* ===== verification/TenantFacts.v ===== *)
(** The tenant tables: their invariant, what every operation leaves in place, and
    the contract of BootstrapTenant. *)
From S2P Require Import Prelude Errors GoTime Json AuditModel Postgres Tenants.
Import GoTime.
Local Open Scope Z_scope.

(** * The invariant *)

Definition identity_key (i : IdentityRow) : string * string := (i_Provider i, i_ExternalID i).

Record tdb_ok (d : TDB) : Prop := {
  ok_tenants : NoDup (map t_ID (d_tenants d));
  ok_identities : NoDup (map identity_key (d_identities d));
  ok_identity_fk : Forall (fun i => i_TenantID i ∈ map t_ID (d_tenants d)) (d_identities d);
  ok_key_ids : NoDup (map k_ID (d_keys d));
  ok_key_hashes : NoDup (map k_Hash (d_keys d));
  ok_key_fk : Forall (fun k => k_TenantID k ∈ map t_ID (d_tenants d)) (d_keys d);
  ok_scopes : Forall (fun k => Scope_IsValid (k_Scope k) = true) (d_keys d);
  ok_webhooks : NoDup (d_webhooks d)
}.

(** A key row only ever changes from active to revoked; a tenant row keeps its id and
    its creation time, and stays deleted once it is; the mappings and the webhook ids only grow. *)
Definition key_later (k k' : APIKey) : Prop :=
  k' = k \/ (k_RevokedAt k = None /\ exists t, k' = set_revoked t k).
Definition tenant_later (t t' : TenantRow) : Prop :=
  t_ID t' = t_ID t /\ t_CreatedAt t' = t_CreatedAt t /\ (forall at_, t_DeletedAt t = Some at_ -> t' = t).
Definition grown {A} (R : relation A) (l l' : list A) : Prop := exists l1 l2, l' = l1 ++ l2 /\ Forall2 R l l1.

Record tdb_later (d d' : TDB) : Prop := {
  later_tenants : grown tenant_later (d_tenants d) (d_tenants d');
  later_identities : grown eq (d_identities d) (d_identities d');
  later_keys : grown key_later (d_keys d) (d_keys d');
  later_webhooks : grown eq (d_webhooks d) (d_webhooks d')
}.

#[global] Instance key_later_preorder : PreOrder key_later.
Proof.
  split; [by left|]. intros k1 k2 k3 [->|[H1 [t ->]]]; [done|].
  intros [->|[H2 _]]; [right; eauto|]. done.
Qed.
#[global] Instance tenant_later_preorder : PreOrder tenant_later.
Proof.
  split; [intros t; by split_and!|]. intros t1 t2 t3 (E1&C1&D1) (E2&C2&D2). split_and!; [congruence..|].
  intros a Ha. pose proof (D1 _ Ha) as ->. eauto.
Qed.

Lemma grown_refl {A} (R : relation A) `{!Reflexive R} l : grown R l l.
Proof. exists l, []. split; [by rw app_nil_r|reflexivity]. Qed.
Lemma grown_app {A} (R : relation A) `{!Reflexive R} l l2 : grown R l (l ++ l2).
Proof. exists l, l2. split; [done|reflexivity]. Qed.
Lemma grown_map {A} (R : relation A) f l : (forall x, R x (f x)) -> grown R l (map f l).
Proof.
  intros Hf. exists (map f l), []. split; [by rw app_nil_r|]. induction l; constructor; auto.
Qed.
Lemma grown_trans {A} (R : relation A) `{!Transitive R} l1 l2 l3 : grown R l1 l2 -> grown R l2 l3 -> grown R l1 l3.
Proof.
  intros (a & b & -> & Hab) (c & e & -> & Hce). apply Forall2_app_inv_l in Hce as (c1 & c2 & H1 & H2 & ->).
  exists c1, (c2 ++ e). split; [by rw app_assoc|]. by etrans.
Qed.
Lemma grown_elem {A} (R : relation A) l l' x : grown R l l' -> x ∈ l -> exists y, y ∈ l' /\ R x y.
Proof.
  intros (a & b & -> & Hab) Hx. apply list_elem_of_lookup in Hx as [i Hi].
  destruct (Forall2_lookup_l _ _ _ _ _ Hab Hi) as (y & Hy & Hr).
  exists y. split; [|done]. apply elem_of_app. left. by eapply list_elem_of_lookup_2.
Qed.

#[global] Instance tdb_later_preorder : PreOrder tdb_later.
Proof.
  split.
  - intros d. split; apply grown_refl; apply _.
  - intros d1 d2 d3 [] []. split; eapply grown_trans; eauto; apply _.
Qed.

(** * What the statements do *)

Definition evolves (d d' : TDB) : Prop := (tdb_ok d -> tdb_ok d') /\ tdb_later d d'.
Lemma tdb_evolves_refl d : evolves d d.
Proof. by split. Qed.
Lemma tdb_evolves_trans d1 d2 d3 : evolves d1 d2 -> evolves d2 d3 -> evolves d1 d3.
Proof. intros [A1 B1] [A2 B2]. split; [auto|by etrans]. Qed.

Lemma tdb_later_refl_but_tenants d l : grown tenant_later (d_tenants d) l -> tdb_later d (with_tenants l d).
Proof. intros H. split; [done|apply grown_refl; apply _..]. Qed.

Lemma insert_tenant_spec dbnow id name d d' :
  insert_tenant dbnow id name d = Some d' ->
  id ∉ map t_ID (d_tenants d)
  /\ d' = with_tenants (d_tenants d ++ [MkTenantRow id name dbnow None defaultPlan None None (JObj [])]) d.
Proof.
  unfold insert_tenant. destruct (_ && _) eqn:E; [|done]. intros [= <-].
  apply andb_prop in E as [E _]. apply andb_prop in E as [_ E]. by apply bool_decide_eq_true in E.
Qed.

Lemma insert_tenant_evolves dbnow id name d d' : insert_tenant dbnow id name d = Some d' -> evolves d d'.
Proof.
  intros [Hid ->]%insert_tenant_spec. split.
  - intros []. split; cbn; rw ?map_app; try done; cbn.
    + apply NoDup_app. split_and!; [done| |apply NoDup_singleton].
      intros x Hx ->%list_elem_of_singleton. done.
    + eapply Forall_impl; [exact ok_identity_fk0|]. intros i Hi. apply elem_of_app. by left.
    + eapply Forall_impl; [exact ok_key_fk0|]. intros i Hi. apply elem_of_app. by left.
  - apply tdb_later_refl_but_tenants. apply grown_app. apply _.
Qed.

Lemma insert_identity_spec p e t d d' :
  insert_identity p e t d = Some d' ->
  t ∈ map t_ID (d_tenants d) /\ (p, e) ∉ map identity_key (d_identities d)
  /\ d' = with_identities (d_identities d ++ [MkIdentity p e t]) d.
Proof.
  unfold insert_identity. destruct (_ && _) eqn:E; [|done]. intros [= <-].
  apply andb_prop in E as [E F]. apply andb_prop in E as [_ E]. apply bool_decide_eq_true in E.
  split_and!; [done| |done]. intros (i & Hk & Hi)%list_elem_of_fmap.
  rw forallb_forall in F. specialize (F i). rw -list_elem_of_In in F. specialize (F Hi).
  apply negb_true_iff, bool_decide_eq_false in F. apply F. by injection Hk.
Qed.

Lemma insert_identity_evolves p e t d d' : insert_identity p e t d = Some d' -> evolves d d'.
Proof.
  intros (Ht & Hk & ->)%insert_identity_spec. split.
  - intros []. split; cbn; try done.
    + rw map_app. apply NoDup_app. split_and!; [done| |apply NoDup_singleton].
      intros x Hx ->%list_elem_of_singleton. done.
    + apply Forall_app. split; [done|by apply Forall_singleton].
  - split; cbn; [apply grown_refl; apply _|apply grown_app; apply _|apply grown_refl; apply _..].
Qed.

(** The row [insert_key] adds. *)
Definition key_row (dbnow : Time) (k : APIKey) : APIKey :=
  MkKey (k_ID k) (k_TenantID k) (k_Hash k) (k_Scope k) (k_Label k) dbnow None.

Lemma insert_key_spec dbnow k d d' :
  insert_key dbnow k d = Some d' ->
  k_TenantID k ∈ map t_ID (d_tenants d) /\ Scope_IsValid (k_Scope k) = true
  /\ k_ID k ∉ map k_ID (d_keys d) /\ k_Hash k ∉ map k_Hash (d_keys d)
  /\ d' = with_keys (d_keys d ++ [key_row dbnow k]) d.
Proof.
  unfold insert_key. destruct (_ && _) eqn:E; [|done]. intros [= <-].
  repeat (apply andb_prop in E as [E ?]). rw !bool_decide_eq_true in H H0 H2. done.
Qed.

Lemma insert_key_evolves dbnow k d d' : insert_key dbnow k d = Some d' -> evolves d d'.
Proof.
  intros (Ht & Hs & Hi & Hh & ->)%insert_key_spec. split.
  - intros []. split; cbn; rw ?map_app; try done.
    + apply NoDup_app. split_and!; [done| |apply NoDup_singleton]. by intros x Hx ->%list_elem_of_singleton.
    + apply NoDup_app. split_and!; [done| |apply NoDup_singleton]. by intros x Hx ->%list_elem_of_singleton.
    + apply Forall_app. split; [done|by apply Forall_singleton].
    + apply Forall_app. split; [done|by apply Forall_singleton].
  - split; cbn; [apply grown_refl; apply _..|apply grown_app; apply _|apply grown_refl; apply _].
Qed.

Lemma map_tenant_evolves id f d :
  (forall t, t_ID (f t) = t_ID t /\ t_CreatedAt (f t) = t_CreatedAt t) -> evolves d (map_tenant id f d).
Proof.
  intros Hf. set (g := fun t => if decide (t_ID t = id /\ t_DeletedAt t = None) then f t else t).
  assert (Hg : map t_ID (map g (d_tenants d)) = map t_ID (d_tenants d)).
  { rw map_map. apply map_ext. intros t. unfold g. case_decide; [apply Hf|done]. }
  split.
  - intros []. split; cbn; fold g; rw ?Hg; done.
  - apply tdb_later_refl_but_tenants. cbn. apply grown_map. intros t. case_decide as Ht; [|done].
    destruct (Hf t) as [H1 H2]. split_and!; [done..|]. intros a Ha. by rw (proj2 Ht) in Ha.
Qed.

Lemma revoke_where_evolves P dbnow d : evolves d (revoke_where P dbnow d).2.
Proof.
  unfold revoke_where. cbn. set (g := fun k => if P k && bool_decide (k_RevokedAt k = None) then set_revoked dbnow k else k).
  assert (Hg : forall A (h : APIKey -> A), (forall t k, h (set_revoked t k) = h k) -> map h (map g (d_keys d)) = map h (d_keys d)).
  { intros A h Hh. rw map_map. apply map_ext. intros k. unfold g. by case_match. }
  split.
  - intros []. split; cbn; try done.
    + by rw (Hg _ k_ID).
    + by rw (Hg _ k_Hash).
    + rw Forall_fmap. eapply Forall_impl; [exact ok_key_fk0|]. intros k Hk. cbn. unfold g. by case_match.
    + rw Forall_fmap. eapply Forall_impl; [exact ok_scopes0|]. intros k Hk. cbn. unfold g. by case_match.
  - split; cbn; [apply grown_refl; apply _..| |apply grown_refl; apply _].
    apply grown_map. intros k. unfold g. destruct (P k && _) eqn:E; [|by left]. right.
    apply andb_prop in E as [_ E]. apply bool_decide_eq_true in E. eauto.
Qed.

Lemma exec_evolves env c msg f d :
  (forall d', f d = Some d' -> evolves d d') -> evolves d (exec env c msg f d).2.
Proof.
  intros Hf. unfold exec. destruct (fails env c); [apply tdb_evolves_refl|].
  destruct (f d) as [d'|] eqn:E; [by apply Hf|apply tdb_evolves_refl].
Qed.

(** * Steps *)

(** One operation by one caller.  [u] is the error or the value it answers. *)
Inductive tenant_step (d : TDB) : TDB -> Prop :=
| ts_create env n t : tenant_step d (CreateTenant env n t d).2
| ts_delete env n id : tenant_step d (SoftDeleteTenant env n id d).2
| ts_rename env id name : tenant_step d (UpdateTenantName env id name d).2
| ts_bootstrap env n b : tenant_step d (BootstrapTenant env n b d).2
| ts_create_key env n k : tenant_step d (CreateKey env n k d).2
| ts_revoke env n t id : tenant_step d (RevokeKey env n t id d).2
| ts_revoke_all env n t : tenant_step d (RevokeAllKeys env n t d).2
| ts_plan env oss now t : tenant_step d (GetTenantPlan env oss now t d).2
| ts_webhook env id source ty : tenant_step d (MarkProcessed env id source ty d).2.

Lemma ensure_tenant_evolves env n b d t d' : ensure_tenant env n b d = Ok (t, d') -> evolves d d'.
Proof.
  unfold ensure_tenant, lookupTenantByExternalTx. destruct (fails env (CallRead 0)); [done|]. cbn.
  destruct (head _) as [r|]; cbn; [intros [= _ <-]; apply tdb_evolves_refl|].
  case_bool_decide; [done|]. destruct (fails env _); [done|].
  destruct (insert_tenant n _ _ d) as [d1|] eqn:E1; [|done]. destruct (fails env _); [done|].
  destruct (insert_identity _ _ _ d1) as [d2|] eqn:E2; [|done]. intros [= _ <-].
  eapply tdb_evolves_trans; [by eapply insert_tenant_evolves|by eapply insert_identity_evolves].
Qed.

Lemma bootstrap_tx_inv env n b cand d t k prov d' :
  bootstrap_tx env n b cand d = Ok (t, k, prov, d') ->
  exists d1, ensure_tenant env n b d = Ok (t, d1)
    /\ ((prov = false /\ d' = d1 /\ head (active_keys (tn_ID t) d1) = Some k)
        \/ (prov = true /\ active_keys (tn_ID t) d1 = []
            /\ exists c, k_ID c = k_ID cand /\ k_TenantID c = tn_ID t /\ k_Hash c = k_Hash cand /\ k_Scope c = k_Scope cand
                 /\ k_Label c = k_Label cand /\ insert_key n c d1 = Some d'
                 /\ k = MkKey (k_ID c) (k_TenantID c) (k_Hash c) (k_Scope c) (k_Label c) n (k_RevokedAt cand))).
Proof.
  unfold bootstrap_tx. intros ([t1 d1] & He & H)%result_bind_ok. unfold firstActiveKeyTx in H.
  destruct (fails env (CallRead 1)); [done|]. cbn in H. destruct (head _) as [a|] eqn:Ha.
  - injection H as -> -> <- ->. exists d'. split; [done|]. by left.
  - destruct (fails env (CallWrite 2)); [done|]. destruct (insert_key _ _ _) as [d2|] eqn:Ei; [|done].
    injection H as -> <- <- ->. exists d1. split; [done|]. right. split; [done|].
    split; [by destruct (active_keys _ _)|]. eexists. split_and!; [..|exact Ei|]; done.
Qed.

Lemma bootstrap_tx_evolves env n b cand d t k prov d' : bootstrap_tx env n b cand d = Ok (t, k, prov, d') -> evolves d d'.
Proof.
  intros (d1 & He & [(_ & -> & _)|(_ & _ & c & _ & _ & _ & _ & _ & Hi & _)])%bootstrap_tx_inv.
  - by eapply ensure_tenant_evolves.
  - eapply tdb_evolves_trans; [by eapply ensure_tenant_evolves|by eapply insert_key_evolves].
Qed.

Lemma BootstrapTenant_evolves env n b d : evolves d (BootstrapTenant env n b d).2.
Proof.
  unfold BootstrapTenant. destruct (_ || _); [apply tdb_evolves_refl|].
  destruct (bi_KeyCandidate b) as [cand|]; [|apply tdb_evolves_refl].
  destruct (fails env CallBegin); [apply tdb_evolves_refl|]. destruct (_ || _); [apply tdb_evolves_refl|].
  destruct (bootstrap_tx _ _ _ _ _) as [[[[t k] prov] d']|e] eqn:E; [|apply tdb_evolves_refl].
  apply bootstrap_tx_evolves in E. unfold commit.
  destruct (fails env CallCommit); [destruct (commit_lost env)|]; cbn; [done|apply tdb_evolves_refl|done].
Qed.

Lemma downgrade_evolves t d : evolves d (downgrade t d).
Proof. by apply map_tenant_evolves. Qed.

Lemma GetTenantPlan_evolves env oss now t d : evolves d (GetTenantPlan env oss now t d).2.
Proof.
  unfold GetTenantPlan. destruct oss; [apply tdb_evolves_refl|]. destruct (fails env _); [apply tdb_evolves_refl|].
  destruct (head _) as [[[p e] s]|]; [|apply tdb_evolves_refl]. destruct (_ && _); [|apply tdb_evolves_refl].
  match goal with |- context [if ?c then d else downgrade t d] => set (d' := if c then d else downgrade t d) end.
  assert (Hd : evolves d d').
  { subst d'. destruct (_ || _); [apply tdb_evolves_refl|apply downgrade_evolves]. }
  clearbody d'. destruct (fails env (CallRead 1)); [exact Hd|]. destruct (head _); exact Hd.
Qed.

Lemma MarkProcessed_evolves env id source ty d : evolves d (MarkProcessed env id source ty d).2.
Proof.
  unfold MarkProcessed. destruct (_ || _); [apply tdb_evolves_refl|]. case_decide as Hid; [apply tdb_evolves_refl|].
  split; cbn.
  - intros []. split; cbn; try done. apply NoDup_app. split_and!; [done| |apply NoDup_singleton].
    by intros x Hx ->%list_elem_of_singleton.
  - split; cbn; [apply grown_refl; apply _..|apply grown_app; apply _].
Qed.

Lemma tenant_step_evolves d d' : tenant_step d d' -> evolves d d'.
Proof.
  destruct 1.
  - apply exec_evolves. intros ? H. by eapply insert_tenant_evolves.
  - apply exec_evolves. intros ? [= <-]. by apply map_tenant_evolves.
  - apply exec_evolves. intros ? H. destruct (text_ok name); [|done]. injection H as <-. by apply map_tenant_evolves.
  - apply BootstrapTenant_evolves.
  - apply exec_evolves. intros ? H. by eapply insert_key_evolves.
  - unfold RevokeKey. destruct (fails env _); [apply tdb_evolves_refl|].
    pose proof (revoke_where_evolves (fun k => bool_decide (k_ID k = id /\ k_TenantID k = t)) n d) as H. by destruct (revoke_where _ _ _).
  - unfold RevokeAllKeys. destruct (fails env _); [apply tdb_evolves_refl|]. apply revoke_where_evolves.
  - apply GetTenantPlan_evolves.
  - apply MarkProcessed_evolves.
Qed.

Lemma tenant_steps_evolve d d' : rtc tenant_step d d' -> evolves d d'.
Proof.
  induction 1 as [|d1 d2 d3 H _ IH]; [apply tdb_evolves_refl|].
  eapply tdb_evolves_trans; [by apply tenant_step_evolves|done].
Qed.
