(* ===== verification/TenantProps.v ===== *)
(** What the tenant tables promise: provisioning is idempotent and unique per
    external identity, and revocation and deletion are permanent. *)
From S2P Require Import Prelude Errors GoTime Json AuditModel Postgres Tenants TenantFacts.
Import GoTime.
Local Open Scope Z_scope.

(** * One tenant per identity *)

Lemma identity_tenants_of p e i r d :
  tdb_ok d -> i ∈ d_identities d -> i_Provider i = p -> i_ExternalID i = e ->
  r ∈ d_tenants d -> t_ID r = i_TenantID i -> identity_tenants p e d = [r].
Proof.
  intros Hok Hi Hp He Hr Ht. unfold identity_tenants.
  rw (filter_key identity_key (fun m => i_Provider m = p /\ i_ExternalID m = e) _ i (ok_identities _ Hok) Hi).
  - cbn. rw app_nil_r. apply (filter_key t_ID); [apply Hok|done..|]. intros y Hy. congruence.
  - done.
  - intros y [Hy1 Hy2]. unfold identity_key. congruence.
Qed.

Lemma identity_tenants_cases p e d :
  tdb_ok d ->
  (identity_tenants p e d = [] /\ (p, e) ∉ map identity_key (d_identities d))
  \/ exists r, identity_tenants p e d = [r].
Proof.
  intros Hok. destruct (decide ((p, e) ∈ map identity_key (d_identities d))) as [Hin|Hin].
  - right. apply list_elem_of_fmap in Hin as (i & Hk & Hi). injection Hk as Hp He.
    pose proof (ok_identity_fk _ Hok) as Hfk. rw Forall_forall in Hfk.
    apply Hfk in Hi as Ht. apply list_elem_of_fmap in Ht as (r & Hid & Hr).
    exists r. by eapply identity_tenants_of.
  - left. split; [|done]. unfold identity_tenants.
    destruct (filter _ (d_identities d)) as [|i l] eqn:E; [done|]. exfalso. apply Hin.
    assert (i ∈ filter (fun m => i_Provider m = p /\ i_ExternalID m = e) (d_identities d)) as [[H1 H2] Hi]%list_elem_of_filter
      by (rw E; left). rw -H1 -H2. by apply (list_elem_of_fmap_2 identity_key).
Qed.

(** After [ensure_tenant] the identity has exactly the tenant it answers. *)
Lemma ensure_tenant_spec env n b d t d' :
  tdb_ok d -> ensure_tenant env n b d = Ok (t, d') ->
  (exists row, identity_tenants (bi_Provider b) (bi_ExternalID b) d' = [row] /\ tenant_view row = t
     /\ (Forall (fun r => t_DeletedAt r = None) (identity_tenants (bi_Provider b) (bi_ExternalID b) d) -> t_DeletedAt row = None))
  /\ d_keys d' = d_keys d /\ (identity_tenants (bi_Provider b) (bi_ExternalID b) d <> [] -> d' = d).
Proof.
  intros Hok He. pose proof (proj1 (ensure_tenant_evolves _ _ _ _ _ _ He) Hok) as Hok'. revert He.
  unfold ensure_tenant, lookupTenantByExternalTx. destruct (fails env (CallRead 0)); [done|]. cbn.
  destruct (identity_tenants_cases (bi_Provider b) (bi_ExternalID b) d Hok) as [[Hn Hk]|[r Hr]].
  2: { rw Hr. cbn. intros [= <- <-]. split_and!; [|done..]. exists r. split_and!; [done|done|]. inversion 1; subst. done. }
  rw Hn. cbn. case_bool_decide; [done|]. destruct (fails env _); [done|].
  destruct (insert_tenant n _ _ d) as [d1|] eqn:E1; [|done]. destruct (fails env _); [done|].
  destruct (insert_identity _ _ _ d1) as [d2|] eqn:E2; [|done]. intros [= <- <-].
  apply insert_tenant_spec in E1 as [Hid ->]. apply insert_identity_spec in E2 as (_ & _ & ->).
  split_and!; [|done..]. eexists. split; [eapply identity_tenants_of; [done| | | | |]|split; [|intros _]]; cbn.
  - apply elem_of_app. right. by left.
  - done.
  - done.
  - apply elem_of_app. right. by left.
  - done.
  - done.
  - done.
Qed.

Lemma ensure_tenant_again n b d row :
  identity_tenants (bi_Provider b) (bi_ExternalID b) d = [row] -> ensure_tenant healthy n b d = Ok (tenant_view row, d).
Proof. intros H. unfold ensure_tenant, lookupTenantByExternalTx. cbn. by rw H. Qed.

Lemma active_keys_one t k d : filter (fun x => k_TenantID x = t /\ k_RevokedAt x = None) (d_keys d) = [k] -> active_keys t d = [k].
Proof. intros H. unfold active_keys. rw H. done. Qed.

Lemma active_keys_elem t k d : k ∈ active_keys t d <-> k ∈ d_keys d /\ k_TenantID k = t /\ k_RevokedAt k = None.
Proof. unfold active_keys. rw elem_of_order_by list_elem_of_filter. tauto. Qed.

Lemma active_keys_nil t d : active_keys t d = [] -> filter (fun x => k_TenantID x = t /\ k_RevokedAt x = None) (d_keys d) = [].
Proof. intros H. apply Permutation_nil. rw -H. apply order_by_perm. Qed.

(** The key row a bootstrap leaves as the tenant's first active key. *)
Lemma bootstrap_key env n b cand d t k prov d' :
  bootstrap_tx env n b cand d = Ok (t, k, prov, d') -> tdb_ok d ->
  exists row, head (active_keys (tn_ID t) d') = Some row
    /\ k_ID row = k_ID k /\ k_Hash row = k_Hash k
    /\ (if prov then k_ID k = k_ID cand /\ k_Hash k = k_Hash cand /\ active_keys (tn_ID t) d = []
        else row = k /\ d_keys d' = d_keys d).
Proof.
  intros (d1 & He & Hc)%bootstrap_tx_inv Hok. apply ensure_tenant_spec in He as (_ & Hk & _); [|done].
  destruct Hc as [(-> & -> & Hh)|(-> & Hn & c & H1 & H2 & H3 & H4 & H5 & Hi & ->)].
  - exists k. by split_and!.
  - apply insert_key_spec in Hi as (_ & _ & _ & _ & ->). exists (key_row n c). split_and!; [|done..|].
    + rw (active_keys_one _ (key_row n c)); [done|]. cbn. rw filter_app (active_keys_nil _ _ Hn). cbn.
      rw decide_True; [done|]. done.
    + unfold active_keys in Hn |- *. by rw -Hk.
Qed.

(** C23: BootstrapTenant gives every external identity whose tenant, if it has one, is
    not deleted, one live tenant with an active key.  When it succeeds the identity is
    mapped to exactly the tenant it answers, and GetTenantByExternalID finds it; an
    identity that was mapped before keeps its tenant and no tenant or mapping row
    is written; the tenant's first active key is the one answered, which is the
    candidate exactly when the tenant had no active key; and any later call for the same
    identity, whatever it proposes, answers the same tenant and the same key and writes
    nothing.  When it fails it leaves no trace, unless the commit itself was lost.
    (The organisation of a deleted tenant is the finding [bootstrap_revives_deleted].) *)
Theorem bootstrap_idempotent env n b d :
  tdb_ok d -> Forall (fun r => t_DeletedAt r = None) (identity_tenants (bi_Provider b) (bi_ExternalID b) d) ->
  match BootstrapTenant env n b d with
  | (Ok (t, k, prov), d') =>
      (exists row, identity_tenants (bi_Provider b) (bi_ExternalID b) d' = [row] /\ tenant_view row = t)
      /\ GetTenantByExternalID healthy (bi_Provider b) (bi_ExternalID b) d' = Ok t
      /\ (identity_tenants (bi_Provider b) (bi_ExternalID b) d <> [] ->
          d_tenants d' = d_tenants d /\ d_identities d' = d_identities d)
      /\ (exists row, head (active_keys (tn_ID t) d') = Some row /\ k_ID row = k_ID k /\ k_Hash row = k_Hash k
          /\ (if prov then (exists cand, bi_KeyCandidate b = Some cand /\ k_ID k = k_ID cand /\ k_Hash k = k_Hash cand)
                           /\ active_keys (tn_ID t) d = []
              else row = k /\ d_keys d' = d_keys d)
          /\ (forall n' b', bi_Provider b' = bi_Provider b -> bi_ExternalID b' = bi_ExternalID b -> bi_KeyCandidate b' <> None ->
              BootstrapTenant healthy n' b' d' = (Ok (t, row, false), d')))
  | (Err _, d') => d' = d \/ (fails env CallCommit = true /\ commit_lost env = true)
  end.
Proof.
  intros Hok Hlive. unfold BootstrapTenant at 1. destruct (_ || _) eqn:Ene; [by left|].
  destruct (bi_KeyCandidate b) as [cand|] eqn:Ec; [|by left]. destruct (fails env CallBegin); [by left|].
  destruct (_ || negb _) eqn:El; [by left|].
  destruct (bootstrap_tx env n b cand d) as [[[[t k] prov] d']|e] eqn:E; [|by left]. unfold commit.
  destruct (fails env CallCommit); [destruct (commit_lost env); [by right|by left]|].
  pose proof (bootstrap_key _ _ _ _ _ _ _ _ _ E Hok) as (row & Hh & Hid & Hha & Hprov).
  apply bootstrap_tx_inv in E as (d1 & He & Hc).
  apply ensure_tenant_spec in He as ((tr & Htr & <- & Hdel) & Hk & Hold); [|done]. specialize (Hdel Hlive).
  assert (Htr' : identity_tenants (bi_Provider b) (bi_ExternalID b) d' = [tr]
                 /\ d_tenants d' = d_tenants d1 /\ d_identities d' = d_identities d1).
  { destruct Hc as [(_ & -> & _)|(_ & _ & c & _ & _ & _ & _ & _ & Hi & _)]; [done|].
    by apply insert_key_spec in Hi as (_ & _ & _ & _ & ->). }
  destruct Htr' as (Htr' & Htn & Hidn). split_and!.
  - by exists tr.
  - unfold GetTenantByExternalID. cbn. rw Htr' filter_cons decide_True; done.
  - intros Hne. rw Htn Hidn. by rw (Hold Hne).
  - exists row. split_and!; [done..| |].
    + destruct prov; [|done]. destruct Hprov as (? & ? & ?). split; [by exists cand|done].
    + intros n' b' Hp He Hb. unfold BootstrapTenant. rw Hp He Ene.
      destruct (bi_KeyCandidate b') as [c'|]; [|done].
      apply orb_false_iff in El as [_ El]. change (fails healthy CallLock) with false.
      change (fails healthy CallBegin) with false. rw El. cbn [orb]. unfold bootstrap_tx.
      rw (ensure_tenant_again _ _ _ tr); [cbn; by rw Hh|by rw Hp He].
Qed.

Definition sample_key (i : string) : APIKey := MkKey ("akid_" +:+ i) "" ("hash" +:+ i) "write" "default" 0 None.
Definition sample_boot (i : string) : BootstrapInput :=
  MkBootstrap "better_auth_org" "org_1" ("tnt_" +:+ i) "Acme" (Some (sample_key i)).
Definition empty_tdb : TDB := MkTDB [] [] [] [oss_plan; MkPlan "free" "Free" (Some 30) (Some 30000) None None ""] [].
Lemma empty_tdb_ok : tdb_ok empty_tdb.
Proof. split; constructor. Qed.

Definition sample_tdb : TDB := Eval vm_compute in (BootstrapTenant healthy 5 (sample_boot "1") empty_tdb).2.
Definition booted : Tenant * APIKey * bool :=
  (MkTenant "tnt_1" "Acme" 5, MkKey "akid_1" "tnt_1" "hash1" "write" "default" 5 None, true).
Lemma first_boot : BootstrapTenant healthy 5 (sample_boot "1") empty_tdb = (Ok booted, sample_tdb).
Proof. vm_compute. reflexivity. Qed.

Lemma bootstrap_idempotent_witness :
  BootstrapTenant healthy 9 (sample_boot "2") sample_tdb = (Ok (booted.1, false), sample_tdb).
Proof.
  pose proof (bootstrap_idempotent healthy 5 (sample_boot "1") empty_tdb empty_tdb_ok ltac:(constructor)) as W.
  rw first_boot in W. destruct W as (_ & _ & _ & row & Hh & _ & _ & _ & Hagain).
  rw (Hagain 9 (sample_boot "2") eq_refl eq_refl); [|discriminate].
  vm_compute in Hh. injection Hh as <-. reflexivity.
Defined.

(** * Nothing is taken back *)

(** While its tenant is live, an identity keeps it. *)
Lemma live_identity_kept d d' p e t t' :
  tdb_ok d -> tdb_ok d' -> tdb_later d d' ->
  GetTenantByExternalID healthy p e d = Ok t -> GetTenant healthy (tn_ID t) d' = Ok t' ->
  GetTenantByExternalID healthy p e d' = Ok t'.
Proof.
  intros Hok Hok' Hl. unfold GetTenantByExternalID, GetTenant. cbn.
  destruct (head (filter _ (identity_tenants p e d))) as [r|] eqn:Eh; [|done]. intros [= <-].
  apply head_Some_elem_of, list_elem_of_filter in Eh as [_ Hin].
  destruct (head (filter _ (d_tenants d'))) as [x|] eqn:Ex; [|done]. intros [= <-].
  apply head_Some_elem_of, list_elem_of_filter in Ex as [[Hid Hlive] Hx]. cbn in Hid.
  unfold identity_tenants in Hin. apply list_elem_of_bind in Hin as (i & Hi1 & Hi2).
  apply list_elem_of_filter in Hi1 as [Hir Hrin]. apply list_elem_of_filter in Hi2 as [[Hp He] Hi].
  destruct (grown_elem _ _ _ _ (later_identities _ _ Hl) Hi) as (i' & Hi' & <-).
  rw (identity_tenants_of p e i x d'); [|done|done|done|done|done|congruence]. by rw filter_cons decide_True.
Qed.

(** C24: revocation, deletion and provisioning are permanent.  Over any sequence of
    operations by any callers, failed and lost commits included, the constraints
    of the tables hold; a key that could be looked up still can, with the
    same tenant, secret hash and scope, and once revoked it stays revoked since
    the same instant; an external identity keeps its tenant as long as that is not deleted;
    a deleted tenant stays deleted; and a webhook id that was claimed is never claimed again. *)
Theorem revocation_permanent d d' :
  tdb_ok d -> rtc tenant_step d d' ->
  tdb_ok d'
  /\ (forall id k, GetKeyByID healthy id d = Ok k ->
      exists k', GetKeyByID healthy id d' = Ok k'
        /\ k_ID k' = k_ID k /\ k_TenantID k' = k_TenantID k /\ k_Hash k' = k_Hash k /\ k_Scope k' = k_Scope k
        /\ (k_RevokedAt k <> None -> k' = k))
  /\ (forall p e t t', GetTenantByExternalID healthy p e d = Ok t -> GetTenant healthy (tn_ID t) d' = Ok t' ->
      GetTenantByExternalID healthy p e d' = Ok t')
  /\ (forall id t, GetTenant healthy id d' = Ok t -> id ∈ map t_ID (d_tenants d) -> exists t0, GetTenant healthy id d = Ok t0)
  /\ (forall env id source ty, id ∈ d_webhooks d -> (MarkProcessed env id source ty d').1 <> Ok true).
Proof.
  intros Hok Hs. destruct (tenant_steps_evolve _ _ Hs) as [Hok' Hl]. specialize (Hok' Hok). split; [done|]. split_and!.
  - intros id k. unfold GetKeyByID. cbn. destruct (head (filter _ (d_keys d))) as [k0|] eqn:Eh; [|done]. intros [= ->].
    apply head_Some_elem_of, list_elem_of_filter in Eh as [Hid Hk].
    destruct (grown_elem _ _ _ _ (later_keys _ _ Hl) Hk) as (k' & Hk' & Hlater).
    assert (Hid' : k_ID k' = id) by (destruct Hlater as [->|[_ [t ->]]]; done).
    rw (filter_key k_ID (fun k => k_ID k = id) _ k' (ok_key_ids _ Hok') Hk' Hid'); [cbn|congruence].
    exists k'. destruct Hlater as [->|[Hn [t ->]]]; split_and!; done.
  - intros p e t t' Hg. exact (live_identity_kept d d' p e t t' Hok Hok' Hl Hg).
  - intros id t. unfold GetTenant. cbn. destruct (head (filter _ (d_tenants d'))) as [t'|] eqn:Eh; [|done]. intros _ Hin.
    apply head_Some_elem_of, list_elem_of_filter in Eh as [[Hid Hd] Ht'].
    apply list_elem_of_fmap in Hin as (r & -> & Hr).
    destruct (grown_elem _ _ _ _ (later_tenants _ _ Hl) Hr) as (r' & Hr' & Hid' & _ & Hdel).
    assert (r' = t') as -> by (eapply (NoDup_map_elem t_ID); [apply Hok'|done..|congruence]).
    rw (filter_key t_ID (fun t => t_ID t = t_ID r /\ t_DeletedAt t = None) _ r (ok_tenants _ Hok) Hr); [by eexists|..].
    + split; [done|]. destruct (t_DeletedAt r) as [a|] eqn:Ea; [|done]. pose proof (Hdel _ eq_refl) as ->. congruence.
    + by intros y [].
  - intros env id source ty Hw. destruct (grown_elem _ _ _ _ (later_webhooks _ _ Hl) Hw) as (w & Hw' & ->).
    unfold MarkProcessed. destruct (_ || _); [done|]. by rw decide_True.
Qed.

Lemma sample_tdb_ok : tdb_ok sample_tdb.
Proof.
  pose proof (proj1 (BootstrapTenant_evolves healthy 5 (sample_boot "1") empty_tdb) empty_tdb_ok) as W.
  by rw first_boot in W.
Qed.

Lemma revocation_permanent_witness :
  let d1 := (RevokeKey healthy 7 "tnt_1" "akid_1" sample_tdb).2 in
  let d2 := (BootstrapTenant healthy 9 (sample_boot "2") d1).2 in
  GetKeyByID healthy "akid_1" d2 = Ok (MkKey "akid_1" "tnt_1" "hash1" "write" "default" 5 (Some 7)).
Proof.
  intros d1 d2.
  assert (Hok : tdb_ok d1) by (apply (tenant_step_evolves _ _ (ts_revoke _ healthy 7 "tnt_1" "akid_1")), sample_tdb_ok).
  assert (Hs : rtc tenant_step d1 d2) by (eapply rtc_once, ts_bootstrap).
  destruct (revocation_permanent d1 d2 Hok Hs) as (_ & Hk & _).
  destruct (Hk "akid_1" (MkKey "akid_1" "tnt_1" "hash1" "write" "default" 5 (Some 7)) eq_refl) as (k' & Hg & _ & _ & _ & _ & Hr).
  rw (Hr ltac:(discriminate)) in Hg. exact Hg.
Defined.

(** The bootstrap lookup does not skip deleted tenants: the organisation of a deleted
    tenant does not get a fresh tenant but the deleted one, still deleted, so that
    GetTenantByExternalID answers NotFound as before. *)
Theorem bootstrap_revives_deleted env n b d r :
  tdb_ok d -> identity_tenants (bi_Provider b) (bi_ExternalID b) d = [r] -> t_DeletedAt r <> None ->
  match BootstrapTenant env n b d with
  | (Ok (t, k, prov), d') =>
      t = tenant_view r
      /\ GetTenantByExternalID healthy (bi_Provider b) (bi_ExternalID b) d'
         = Err (NotFound "tenant" (bi_Provider b +:+ ":" +:+ bi_ExternalID b))
  | (Err _, _) => True
  end.
Proof.
  intros Hok Hr Hd. unfold BootstrapTenant. destruct (_ || _); [done|]. destruct (bi_KeyCandidate b) as [cand|]; [|done].
  destruct (fails env CallBegin); [done|]. destruct (_ || negb _); [done|].
  destruct (bootstrap_tx env n b cand d) as [[[[t k] prov] d']|e] eqn:E; [|done]. destruct (fails env CallCommit); [done|].
  apply bootstrap_tx_inv in E as (d1 & He & Hc).
  apply ensure_tenant_spec in He as ((tr & Htr & <- & _) & _ & Hold); [|done].
  assert (d1 = d) as -> by (apply Hold; by rw Hr). rw Hr in Htr. injection Htr as <-. split; [done|].
  assert (Hr' : identity_tenants (bi_Provider b) (bi_ExternalID b) d' = [r]).
  { destruct Hc as [(_ & -> & _)|(_ & _ & c & _ & _ & _ & _ & _ & Hi & _)]; [done|].
    by apply insert_key_spec in Hi as (_ & _ & _ & _ & ->). }
  unfold GetTenantByExternalID. cbn. rw Hr' filter_cons decide_False; [done|done].
Qed.

(** For instance, with a new active key. *)
Example bootstrap_returns_deleted :
  let d1 := (RevokeAllKeys healthy 6 "tnt_1" (SoftDeleteTenant healthy 6 "tnt_1" sample_tdb).2).2 in
  (match BootstrapTenant healthy 9 (sample_boot "2") d1 with
   | (Ok (t, k, prov), d2) => (tn_ID t, k_ID k, prov, GetTenantByExternalID healthy "better_auth_org" "org_1" d2)
   | (Err e, _) => ("", "", false, Err e)
   end)
  = ("tnt_1", "akid_2", true, Err (NotFound "tenant" "better_auth_org:org_1")).
Proof. vm_compute. reflexivity. Qed.
