(* ===== verification/Base64.v ===== *)
(** Go's base64.RawURLEncoding, crypto/hmac over SHA-256, and the [strings]
    functions the credentials are taken apart with. *)
From S2P Require Import Prelude Sha256 Json.
Local Open Scope Z_scope.

(** * base64.RawURLEncoding *)

(** A-Z a-z 0-9 - _ *)
Definition b64_chr (v : Z) : Ascii.ascii :=
  byte_chr (if v <? 26 then 65 + v else if v <? 52 then 71 + v else if v <? 62 then v - 4
            else if v =? 62 then 45 else 95).
Definition b64_val (c : Ascii.ascii) : option Z :=
  let b := byte_val c in
  if in_range 65 90 c then Some (b - 65) else if in_range 97 122 c then Some (b - 71)
  else if in_range 48 57 c then Some (b + 4) else if b =? 45 then Some 62 else if b =? 95 then Some 63 else None.

Fixpoint b64_encode (l : list Z) : string :=
  match l with
  | a :: b :: c :: l =>
      let v := a * 65536 + b * 256 + c in
      String (b64_chr (v / 262144)) (String (b64_chr (v / 4096 mod 64))
        (String (b64_chr (v / 64 mod 64)) (String (b64_chr (v mod 64)) (b64_encode l))))
  | [a; b] =>
      let v := a * 65536 + b * 256 in
      String (b64_chr (v / 262144)) (String (b64_chr (v / 4096 mod 64)) (String (b64_chr (v / 64 mod 64)) ""))
  | [a] => let v := a * 65536 in String (b64_chr (v / 262144)) (String (b64_chr (v / 4096 mod 64)) "")
  | [] => ""
  end.

(** The sextets of the text; carriage returns and newlines are skipped. *)
Fixpoint sextets (s : string) : option (list Z) :=
  match s with
  | EmptyString => Some []
  | String c s =>
      if (byte_val c =? 10) || (byte_val c =? 13) then sextets s
      else v ← b64_val c; l ← sextets s; Some (v :: l)
  end.

(** Unused trailing bits are ignored; a single trailing character is an error. *)
Fixpoint join_sextets (l : list Z) : option (list Z) :=
  match l with
  | a :: b :: c :: d :: l =>
      let v := a * 262144 + b * 4096 + c * 64 + d in
      r ← join_sextets l; Some (v / 65536 :: v / 256 mod 256 :: v mod 256 :: r)
  | [a; b; c] => let v := a * 262144 + b * 4096 + c * 64 in Some [v / 65536; v / 256 mod 256]
  | [a; b] => Some [(a * 262144 + b * 4096) / 65536]
  | [_] => None
  | [] => Some []
  end.

Definition EncodeToString (s : string) : string := b64_encode (str_bytes s).
Definition DecodeString (s : string) : option string := bytes_str <$> (sextets s ≫= join_sextets).

Example base64_samples :
  map EncodeToString ["fooba"; "foob"; "foo"; bytes_str [251; 255]] = ["Zm9vYmE"; "Zm9vYg"; "Zm9v"; "-_8"]
  /\ map DecodeString ["Zm9v" +:+ String (byte_chr 10) "YmE"; "Zm9vY"; "-_9"; "Zg=="] = [Some "fooba"; None; Some (bytes_str [251; 255]); None].
Proof. vm_compute. done. Qed.

(** ** Round trip *)

Definition b64_char (c : Ascii.ascii) : bool := match b64_val c with Some _ => true | None => false end.

Lemma b64_val_chr v : 0 <= v < 64 -> b64_val (b64_chr v) = Some v.
Proof.
  intros Hv. assert (H : forallb (fun n => bool_decide (b64_val (b64_chr (Z.of_nat n)) = Some (Z.of_nat n))) (seq 0 64) = true) by reflexivity.
  rw forallb_forall in H. specialize (H (Z.to_nat v)). rw Z2Nat.id in H; [|lia].
  apply (bool_decide_eq_true _), H. apply in_seq. lia.
Qed.

Lemma sextets_chr v s : 0 <= v < 64 -> sextets (String (b64_chr v) s) = (l ← sextets s; Some (v :: l)).
Proof.
  intros Hv. pose proof (b64_val_chr v Hv) as Hc. cbn [sextets]. rw Hc. cbn.
  assert (E : (byte_val (b64_chr v) =? 10) || (byte_val (b64_chr v) =? 13) = false); [|by rw E].
  unfold b64_val, in_range in Hc. revert Hc. set (z := byte_val (b64_chr v)). intros Hc.
  destruct (Z.eqb_spec z 10) as [->|]; [done|]. by destruct (Z.eqb_spec z 13) as [->|].
Qed.

Lemma b64_chr_char v : 0 <= v < 64 -> b64_char (b64_chr v) = true.
Proof. intros Hv. unfold b64_char. by rw b64_val_chr. Qed.

Definition is_byte (b : Z) : Prop := 0 <= b < 256.

Lemma str_bytes_range s : Forall is_byte (str_bytes s).
Proof. induction s as [|c s IH]; cbn; constructor; [apply byte_val_range|done]. Qed.

Lemma list_ind3 {A} (P : list A -> Prop) :
  P [] -> (forall a, P [a]) -> (forall a b, P [a; b]) -> (forall a b c l, P l -> P (a :: b :: c :: l)) -> forall l, P l.
Proof.
  intros H0 H1 H2 H3. fix IH 1. intros [|a [|b [|c l]]]; [apply H0|apply H1|apply H2|]. apply H3, IH.
Qed.

Lemma b64_sextets_join l :
  Forall is_byte l -> exists m, sextets (b64_encode l) = Some m /\ join_sextets m = Some l.
Proof.
  induction l as [|a|a b|a b c l IH] using list_ind3; unfold is_byte; intros Hl.
  - by exists [].
  - apply Forall_cons in Hl as [Hl _]. eexists. cbn [b64_encode]. cbv zeta.
    rw !sextets_chr; [split; [reflexivity|]; cbn; do 2 f_equal; dlia|dlia..].
  - apply Forall_cons in Hl as [Ha [Hb _]%Forall_cons]. eexists. cbn [b64_encode]. cbv zeta.
    rw !sextets_chr; [split; [reflexivity|]; cbn; f_equal; f_equal; [dlia|f_equal; dlia]|dlia..].
  - apply Forall_cons in Hl as [Ha [Hb [Hc Hl]%Forall_cons]%Forall_cons].
    destruct (IH Hl) as (m & Hm & Hj). eexists. cbn [b64_encode]. cbv zeta.
    rw !sextets_chr; [rw Hm; split; [reflexivity|]; cbn; rw Hj; cbn; f_equal; f_equal; [dlia|f_equal; [dlia|f_equal; dlia]]|dlia..].
Qed.

Lemma DecodeString_EncodeToString s : DecodeString (EncodeToString s) = Some s.
Proof.
  unfold DecodeString, EncodeToString. destruct (b64_sextets_join (str_bytes s) (str_bytes_range s)) as (m & -> & Hj).
  cbn. rw Hj. cbn. by rw bytes_str_bytes.
Qed.

Lemma b64_encode_chars l : Forall is_byte l -> str_all b64_char (b64_encode l) = true.
Proof.
  induction l as [|a|a b|a b c l IH] using list_ind3; unfold is_byte; intros Hl; cbn [b64_encode str_all]; cbv zeta.
  - done.
  - apply Forall_cons in Hl as [Hl _]. rw !b64_chr_char; [done|dlia..].
  - apply Forall_cons in Hl as [Ha [Hb _]%Forall_cons]. rw !b64_chr_char; [done|dlia..].
  - apply Forall_cons in Hl as [Ha [Hb [Hc Hl]%Forall_cons]%Forall_cons].
    rw !b64_chr_char; [by rw (IH Hl)|dlia..].
Qed.

Lemma EncodeToString_chars s : str_all b64_char (EncodeToString s) = true.
Proof. apply b64_encode_chars, str_bytes_range. Qed.

(** * crypto/hmac with sha256.New *)

Definition hmac_block : nat := 64.
Definition hmac_key (key : string) : list Z :=
  let k := if (hmac_block <? String.length key)%nat then Sha256.Sum256 key else str_bytes key in
  k ++ repeat 0 (hmac_block - length k).
Definition HMAC (key data : string) : string :=
  let xor p := bytes_str (map (Z.lxor p) (hmac_key key)) in
  bytes_str (Sha256.Sum256 (xor 0x5c +:+ bytes_str (Sha256.Sum256 (xor 0x36 +:+ data)))).

Example hmac_rfc4231 :
  firstn 8 (str_bytes (HMAC "Jefe" "what do ya want for nothing?")) = [0x5b; 0xdc; 0xc1; 0x46; 0xbf; 0x60; 0x75; 0x4e].
Proof. vm_compute. reflexivity. Qed.

(** * strings *)

Definition TrimPrefix (s p : string) : string :=
  if has_prefix p s then (str_split (String.length p) s).2 else s.

(** The text around the first, or the last, separator. *)
Fixpoint Cut (sep : Ascii.ascii) (s : string) : option (string * string) :=
  match s with
  | EmptyString => None
  | String c s => if decide (c = sep) then Some ("", s) else '(a, b) ← Cut sep s; Some (String c a, b)
  end.
Fixpoint LastCut (sep : Ascii.ascii) (s : string) : option (string * string) :=
  match s with
  | EmptyString => None
  | String c s =>
      match LastCut sep s with
      | Some (a, b) => Some (String c a, b)
      | None => if decide (c = sep) then Some ("", s) else None
      end
  end.

(** [strings.SplitN(s, sep, n)] for a one-byte separator. *)
Fixpoint SplitN (s : string) (sep : Ascii.ascii) (n : nat) : list string :=
  match n with
  | O => []
  | S O => [s]
  | S n => match Cut sep s with None => [s] | Some (a, b) => a :: SplitN b sep n end
  end.

Definition dot : Ascii.ascii := byte_chr 46.
Definition underscore : Ascii.ascii := byte_chr 95.
#[global] Arguments dot : simpl never.
#[global] Arguments underscore : simpl never.

Example split_samples :
  SplitN "shr_01J_a_b" underscore 3 = ["shr"; "01J"; "a_b"] /\ SplitN "x" dot 2 = ["x"]
  /\ LastCut dot "a.b.c" = Some ("a.b", "c") /\ TrimPrefix "tkt_x" "tkt_" = "x".
Proof. vm_compute. done. Qed.

Definition free_of (c : Ascii.ascii) (s : string) : bool := str_all (fun d => negb (bool_decide (d = c))) s.

Lemma Cut_app sep a b : free_of sep a = true -> Cut sep (a +:+ String sep b) = Some (a, b).
Proof.
  unfold free_of. induction a as [|c a IH]; cbn [str_all]; intros Ha.
  - rw str_app_nil_l. cbn. by rw decide_True.
  - apply andb_prop in Ha as [Hc%negb_true_iff%bool_decide_eq_false Ha]. rw str_cons_app. cbn.
    rw decide_False; [|done]. by rw IH.
Qed.

Lemma Cut_spec sep s a b : Cut sep s = Some (a, b) -> s = a +:+ String sep b /\ free_of sep a = true.
Proof.
  revert a b. induction s as [|c s IH]; intros a b; cbn; [done|]. case_decide as Hc.
  - intros [= <- <-]. by subst c.
  - destruct (Cut sep s) as [[a' b']|]; [|done]. cbn. intros [= <- <-].
    destruct (IH _ _ eq_refl) as [-> Ha]. split; [done|]. unfold free_of in *. cbn. by rw bool_decide_eq_false_2.
Qed.

Lemma LastCut_free sep b : free_of sep b = true -> LastCut sep b = None.
Proof.
  unfold free_of. induction b as [|c b IH]; cbn; [done|]. intros [Hc%negb_true_iff%bool_decide_eq_false Hb]%andb_prop.
  rw IH; [|done]. by rw decide_False.
Qed.

Lemma LastCut_app sep a b : free_of sep b = true -> LastCut sep (a +:+ String sep b) = Some (a, b).
Proof.
  intros Hb. induction a as [|c a IH].
  - rw str_app_nil_l. cbn. rw LastCut_free; [|done]. by rw decide_True.
  - rw str_cons_app. cbn. by rw IH.
Qed.

Lemma TrimPrefix_app p s : TrimPrefix (p +:+ s) p = s.
Proof.
  unfold TrimPrefix. assert (has_prefix p (p +:+ s) = true) as -> by (apply has_prefix_spec; by exists s).
  induction p as [|c p IH]; [by destruct s|]. rw str_cons_app. cbn [str_split String.length]. by destruct (str_split _ _).
Qed.

Lemma TrimPrefix_spec p s : has_prefix p s = true -> s = p +:+ TrimPrefix s p.
Proof. intros Hp. apply has_prefix_spec in Hp as [t ->]. by rw TrimPrefix_app. Qed.

Lemma b64_free_of_dot s : str_all b64_char s = true -> free_of dot s = true.
Proof. apply str_all_impl. intros c Hc. apply negb_true_iff, bool_decide_eq_false. by intros ->. Qed.
