(* ===== verification/KeyCache.v ===== *)
(** The key store interface (audit.KeyStore), its PostgreSQL implementation and the
    in-process cache in front of it: api/internal/auth/keycache.go.

    A cache is shared by the goroutines of one process, and the database by all
    processes.  [cache_step] interleaves them: a lookup that misses reads the
    clock, then the database, then takes the lock to store the entry, and
    anything can happen in between; so it is with the steps of a RevokeKey
    ([revoke_call]). *)
From S2P Require Import Prelude Errors GoTime Json AuditModel Postgres Tenants TenantFacts TenantProps.
Import GoTime.
Local Open Scope Z_scope.

(** * audit.KeyStore *)

Class KeyStore (S : Type) := {
  ks_CreateKey : APIKey -> S -> res unit * S;
  ks_GetKeyByID : string -> S -> res APIKey * S;
  ks_ListKeys : string -> S -> res (list APIKey) * S;
  ks_RevokeKey : string -> string -> S -> res unit * S;
  ks_RevokeAllKeys : string -> S -> res unit * S
}.

(** AuditStore as a KeyStore, in one environment, at one server time. *)
Definition pg_keystore (env : Env) (cut : option nat) (dbnow : Time) : KeyStore TDB := {|
  ks_CreateKey := CreateKey env dbnow;
  ks_GetKeyByID id d := (GetKeyByID env id d, d);
  ks_ListKeys t d := (ListKeys env cut t d, d);
  ks_RevokeKey := RevokeKey env dbnow;
  ks_RevokeAllKeys := RevokeAllKeys env dbnow
|}.

(** * CachedKeyStore *)

Record cacheEntry := MkEntry { ce_key : APIKey; ce_expiry : Time }.
Record CachedKeyStore (S : Type) := MkCached { c_inner : S; c_items : gmap string cacheEntry }.
Arguments MkCached {S} _ _.
Arguments c_inner {S} _.
Arguments c_items {S} _.

Definition NewCachedKeyStore {S} (inner : S) (ttl : Duration) : CachedKeyStore S * Duration :=
  (MkCached inner ∅, if ttl <=? 0 then 60 * Second else ttl).

Module Cached.
Section Cached.
Context {S : Type} `{Inner : KeyStore S} (ttl : Duration).

(** The read under [RLock]. *)
Definition cache_lookup (now : Time) (id : string) (items : gmap string cacheEntry) : option APIKey :=
  ent ← items !! id; if Before now (ce_expiry ent) then Some (ce_key ent) else None.
(** The write under [Lock]; [now] is the time read before the lookup. *)
Definition cache_store (now : Time) (id : string) (k : APIKey) (items : gmap string cacheEntry) : gmap string cacheEntry :=
  <[id := MkEntry k (now + ttl)]> items.

Definition GetKeyByID (now : Time) (id : string) (c : CachedKeyStore S) : res APIKey * CachedKeyStore S :=
  match cache_lookup now id (c_items c) with
  | Some k => (Ok k, c)
  | None =>
      match ks_GetKeyByID id (c_inner c) with
      | (Err e, s) => (Err e, MkCached s (c_items c))
      | (Ok k, s) => (Ok k, MkCached s (cache_store now id k (c_items c)))
      end
  end.

Definition CreateKey (k : APIKey) (c : CachedKeyStore S) : res unit * CachedKeyStore S :=
  let '(r, s) := ks_CreateKey k (c_inner c) in (r, MkCached s (c_items c)).
Definition ListKeys (tenantID : string) (c : CachedKeyStore S) : res (list APIKey) * CachedKeyStore S :=
  let '(r, s) := ks_ListKeys tenantID (c_inner c) in (r, MkCached s (c_items c)).

Definition delete_keys (keys : list APIKey) (items : gmap string cacheEntry) : gmap string cacheEntry :=
  fold_left (fun m k => delete (k_ID k) m) keys items.
Definition invalidateTenant (tenantID : string) (c : CachedKeyStore S) : CachedKeyStore S :=
  match ks_ListKeys tenantID (c_inner c) with
  | (Err _, s) => MkCached s (c_items c)
  | (Ok keys, s) => MkCached s (delete_keys keys (c_items c))
  end.

Definition RevokeKey (tenantID id : string) (c : CachedKeyStore S) : res unit * CachedKeyStore S :=
  match ks_RevokeKey tenantID id (c_inner c) with
  | (Err e, s) => (Err e, MkCached s (c_items c))
  | (Ok _, s) => (Ok tt, invalidateTenant tenantID (MkCached s (c_items c)))
  end.
Definition RevokeAllKeys (tenantID : string) (c : CachedKeyStore S) : res unit * CachedKeyStore S :=
  match ks_RevokeAllKeys tenantID (c_inner c) with
  | (Err e, s) => (Err e, MkCached s (c_items c))
  | (Ok _, s) => (Ok tt, invalidateTenant tenantID (MkCached s (c_items c)))
  end.
End Cached.

(** CachedKeyStore implements KeyStore. *)
Definition cached_keystore {S} (Inner : KeyStore S) (ttl : Duration) (now : Time) : KeyStore (CachedKeyStore S) := {|
  ks_CreateKey := CreateKey;
  ks_GetKeyByID := GetKeyByID ttl now;
  ks_ListKeys := ListKeys;
  ks_RevokeKey := RevokeKey;
  ks_RevokeAllKeys := RevokeAllKeys
|}.
End Cached.
Import Cached.

(** * Interleavings *)

Section Run.
Variable ttl : Duration.

(** The clock, the database, the entries, and the keys read but not stored yet,
    each with the time its lookup started. *)
Record CState := MkCState {
  s_clock : Time; s_db : TDB; s_items : gmap string cacheEntry; s_fetched : list (string * APIKey * Time)
}.

Inductive cache_step : CState -> CState -> Prop :=
| cs_tick now now' d m f : now <= now' -> cache_step (MkCState now d m f) (MkCState now' d m f)
| cs_db now d d' m f : tenant_step d d' -> cache_step (MkCState now d m f) (MkCState now d' m f)
| cs_fetch now t0 env id k d m f :
    t0 <= now -> Tenants.GetKeyByID env id d = Ok k ->
    cache_step (MkCState now d m f) (MkCState now d m ((id, k, t0) :: f))
| cs_store now d m f1 id k t0 f2 :
    cache_step (MkCState now d m (f1 ++ (id, k, t0) :: f2)) (MkCState now d (cache_store ttl t0 id k m) (f1 ++ f2))
| cs_forget now d m f1 x f2 : cache_step (MkCState now d m (f1 ++ x :: f2)) (MkCState now d m (f1 ++ f2))
| cs_invalidate now keys d m f : cache_step (MkCState now d m f) (MkCState now d (delete_keys keys m) f).

(** A RevokeKey call and its invalidateTenant, from the state of the UPDATE to the
    state of the return: anything may happen between the UPDATE, the SELECT that
    lists the tenant's keys (cut short after [cut] rows) and the deletion under the lock.
    The flag says whether the deletion happened. *)
Definition set_db (d : TDB) (s : CState) : CState := MkCState (s_clock s) d (s_items s) (s_fetched s).
Definition set_items (m : gmap string cacheEntry) (s : CState) : CState := MkCState (s_clock s) (s_db s) m (s_fetched s).
Inductive revoke_call (env : Env) (cut : option nat) (n : Time) (t id : string) : CState -> res unit -> bool -> CState -> Prop :=
| rc_failed s e d' :
    Tenants.RevokeKey env n t id (s_db s) = (Err e, d') ->
    revoke_call env cut n t id s (Err e) false (set_db d' s)
| rc_unlisted s d' s1 e :
    Tenants.RevokeKey env n t id (s_db s) = (Ok tt, d') -> rtc cache_step (set_db d' s) s1 ->
    Tenants.ListKeys env cut t (s_db s1) = Err e ->
    revoke_call env cut n t id s (Ok tt) false s1
| rc_invalidated s d' s1 keys s2 :
    Tenants.RevokeKey env n t id (s_db s) = (Ok tt, d') -> rtc cache_step (set_db d' s) s1 ->
    Tenants.ListKeys env cut t (s_db s1) = Ok keys -> rtc cache_step s1 s2 ->
    revoke_call env cut n t id s (Ok tt) true (set_items (delete_keys keys (s_items s2)) s2).

(** No lookup of [id] still holds an unrevoked row it has not stored. *)
Definition settled (id : string) (s : CState) : Prop :=
  Forall (fun x => x.1.1 = id -> k_RevokedAt x.1.2 <> None) (s_fetched s).

(** No entry outlives the clock by more than the time to live. *)
Definition bounded (s : CState) : Prop :=
  (forall id e, s_items s !! id = Some e -> ce_expiry e <= s_clock s + ttl)
  /\ Forall (fun x => x.2 <= s_clock s) (s_fetched s).

(** The entries of [id]: revoked, or to expire by [limit]. *)
Definition stale_until (id : string) (limit : Time) (s : CState) : Prop :=
  (forall e, s_items s !! id = Some e -> k_RevokedAt (ce_key e) <> None \/ ce_expiry e <= limit)
  /\ Forall (fun x => x.1.1 = id -> k_RevokedAt x.1.2 <> None \/ x.2 + ttl <= limit) (s_fetched s).

Lemma delete_keys_lookup keys m id e : delete_keys keys m !! id = Some e -> m !! id = Some e.
Proof.
  unfold delete_keys. revert m. induction keys as [|k keys IH]; intros m; cbn; [done|].
  intros H%IH. apply lookup_delete_Some in H as [_ H]. done.
Qed.

Lemma cache_step_bounded s s' : bounded s -> cache_step s s' -> bounded s'.
Proof.
  intros [Hi Hf] Hs. unfold bounded. destruct Hs; cbn in *.
  - split; [intros i e He; specialize (Hi _ _ He); lia|]. eapply Forall_impl; [exact Hf|]. cbn. intros; lia.
  - by split.
  - split; [done|]. by constructor.
  - apply Forall_app in Hf as [Hf1 [Hx Hf2]%Forall_cons]. split; [|by apply Forall_app].
    intros i e He. unfold cache_store in He. apply lookup_insert_Some in He as [[_ <-]|[_ He]]; cbn in *; [lia|eauto].
  - split; [done|]. apply Forall_app in Hf as [Hf1 [_ Hf2]%Forall_cons]. by apply Forall_app.
  - split; [|done]. intros i e He%delete_keys_lookup. eauto.
Qed.

(** Revoked in the database. *)
Definition revoked (id : string) (d : TDB) : Prop :=
  exists k, k ∈ d_keys d /\ k_ID k = id /\ k_RevokedAt k <> None.

Lemma revoked_later id d d' : revoked id d -> tdb_later d d' -> revoked id d'.
Proof.
  intros (k & Hk & Hid & Hr) Hl. destruct (grown_elem _ _ _ _ (later_keys _ _ Hl) Hk) as (k' & Hk' & [->|[Hn _]]); [|done].
  by exists k.
Qed.

Lemma revoked_answer env id d k : tdb_ok d -> revoked id d -> Tenants.GetKeyByID env id d = Ok k -> k_RevokedAt k <> None.
Proof.
  intros Hok (k0 & Hk & Hid & Hr). unfold Tenants.GetKeyByID. destruct (fails env _); [done|].
  rw (filter_key k_ID (fun k => k_ID k = id) _ k0 (ok_key_ids _ Hok) Hk Hid); [|congruence]. cbn. by intros [= <-].
Qed.

Record since_revoked (id : string) (T : Time) (s : CState) : Prop := {
  sr_ok : tdb_ok (s_db s);
  sr_revoked : revoked id (s_db s);
  sr_stale : stale_until id (T + ttl) s
}.

Lemma cache_step_since id T s s' : since_revoked id T s -> cache_step s s' -> since_revoked id T s'.
Proof.
  intros [Hok Hr [Hi Hf]] Hs. destruct Hs; cbn in *.
  - by split.
  - destruct (tenant_step_evolves _ _ H) as [Hok' Hl]. split; cbn; [auto|by eapply revoked_later|done].
  - split; cbn; [done..|]. split; [done|]. constructor; [|done]. cbn. intros ->. left. by eapply revoked_answer.
  - split; cbn; [done..|]. apply Forall_app in Hf as [Hf1 [Hx Hf2]%Forall_cons]. cbn in Hx. split; [|by apply Forall_app].
    intros e He. unfold cache_store in He. cbn in He. apply lookup_insert_Some in He as [[-> <-]|[_ He]]; cbn; auto.
  - split; cbn; [done..|]. apply Forall_app in Hf as [Hf1 [_ Hf2]%Forall_cons]. split; [done|by apply Forall_app].
  - split; cbn; [done..|]. split; [|done]. intros e He%delete_keys_lookup. auto.
Qed.
End Run.

(** * The functions are runs of the interleaving *)

Lemma cached_get_steps ttl env cut n now id d m r d' m' f :
  Cached.GetKeyByID (Inner := pg_keystore env cut n) ttl now id (MkCached d m) = (r, MkCached d' m') ->
  d' = d /\ rtc (cache_step ttl) (MkCState now d m f) (MkCState now d m' f)
  /\ (forall k, r = Ok k -> cache_lookup now id m = Some k \/ Tenants.GetKeyByID env id d = Ok k).
Proof.
  unfold Cached.GetKeyByID. cbn. destruct (cache_lookup now id m) as [k|] eqn:E.
  - intros [= <- <- <-]. split_and!; [done|reflexivity|]. intros k' [= ->]. by left.
  - destruct (Tenants.GetKeyByID env id d) as [k|e] eqn:Eg; intros [= <- <- <-]; (split; [done|]).
    + split; [|intros k' [= ->]; by right].
      eapply rtc_l; [by apply (cs_fetch ttl now now env id k)|].
      apply rtc_once. apply (cs_store ttl now d m [] id k now f).
    + split; [reflexivity|done].
Qed.

(** The function on its own is a call with nothing in between, and a call is a run. *)
Lemma cached_revoke_call ttl env cut n t id d m r d' m' f now :
  Cached.RevokeKey (Inner := pg_keystore env cut n) t id (MkCached d m) = (r, MkCached d' m') ->
  exists b, revoke_call ttl env cut n t id (MkCState now d m f) r b (MkCState now d' m' f).
Proof.
  unfold Cached.RevokeKey, invalidateTenant. cbn.
  destruct (Tenants.RevokeKey env n t id d) as [[[]|e] d1] eqn:Er.
  - cbn. destruct (Tenants.ListKeys env cut t d1) as [keys|e] eqn:El; intros [= <- <- <-].
    + exists true. by apply (rc_invalidated ttl env cut n t id (MkCState now d m f) d1 (MkCState now d1 m f) keys (MkCState now d1 m f)).
    + exists false. by apply (rc_unlisted ttl env cut n t id (MkCState now d m f) d1 (MkCState now d1 m f) e).
  - intros [= <- <- <-]. exists false. by apply (rc_failed ttl env cut n t id (MkCState now d m f) e d1).
Qed.
Lemma cs_set_db ttl d' s : tenant_step (s_db s) d' -> cache_step ttl s (set_db d' s).
Proof. destruct s. apply cs_db. Qed.
Lemma revoke_call_runs ttl env cut n t id s r b s' :
  revoke_call ttl env cut n t id s r b s' -> rtc (cache_step ttl) s s'.
Proof.
  intros Hc. pose proof (ts_revoke (s_db s) env n t id) as Hs.
  destruct Hc as [s e d' Hr|s d' s1 e Hr H1 _|s d' s1 keys s2 Hr H1 _ H2]; rw Hr in Hs; cbn in Hs.
  - by apply rtc_once, cs_set_db.
  - eapply rtc_l; [by apply cs_set_db|done].
  - eapply rtc_l; [by apply cs_set_db|]. etrans; [exact H1|]. eapply rtc_r; [exact H2|]. destruct s2. apply cs_invalidate.
Qed.

Lemma bounded_runs ttl s s' : bounded ttl s -> rtc (cache_step ttl) s s' -> bounded ttl s'.
Proof. intros Hb. induction 1; [done|]. by apply IHrtc, (cache_step_bounded ttl x). Qed.

Lemma since_revoked_runs ttl id T s s' : since_revoked ttl id T s -> rtc (cache_step ttl) s s' -> since_revoked ttl id T s'.
Proof. intros Hb. induction 1; [done|]. by eapply IHrtc, cache_step_since. Qed.

Lemma bounded_since ttl id s :
  tdb_ok (s_db s) -> revoked id (s_db s) -> bounded ttl s -> since_revoked ttl id (s_clock s) s.
Proof.
  intros Hok Hr [Hi Hf]. split; [done..|]. split.
  - intros e He. right. eauto.
  - eapply Forall_impl; [exact Hf|]. cbn. intros x Hx _. right. lia.
Qed.

Lemma clock_runs ttl s s' : rtc (cache_step ttl) s s' -> s_clock s <= s_clock s'.
Proof. induction 1 as [|? ? ? Hs _ IH]; [lia|]. destruct Hs; cbn in *; lia. Qed.

Lemma db_runs ttl s s' : rtc (cache_step ttl) s s' -> rtc tenant_step (s_db s) (s_db s').
Proof. induction 1 as [|? ? ? Hs _ IH]; [done|]. destruct Hs; cbn in *; try done. by eapply rtc_l. Qed.

Lemma revoke_where_done (P : APIKey -> bool) n d k :
  k ∈ d_keys d -> P k = true -> revoked (k_ID k) (revoke_where P n d).2.
Proof.
  intros Hk HP. cbn. destruct (k_RevokedAt k) as [a|] eqn:Ea.
  - exists k. split_and!; [|done|by rw Ea]. apply list_elem_of_fmap. exists k. split; [|done].
    rw bool_decide_eq_false_2; [by rw andb_false_r|by rw Ea].
  - exists (set_revoked n k). split_and!; [|done|done]. apply list_elem_of_fmap. exists k. split; [|done].
    rw HP. by rw bool_decide_eq_true_2.
Qed.

Lemma delete_keys_gone keys m k : k ∈ keys -> delete_keys keys m !! k_ID k = None.
Proof.
  intros Hk. destruct (delete_keys keys m !! k_ID k) as [e|] eqn:E; [|done]. exfalso. revert m E.
  unfold delete_keys. induction keys as [|x keys IH]; intros m; [by apply not_elem_of_nil in Hk|]. cbn.
  apply elem_of_cons in Hk as [<-|Hk]; [|by apply IH]. intros E.
  apply (delete_keys_lookup keys) in E. by rw lookup_delete_eq in E.
Qed.

(** The key of a revocation that found its row. *)
Lemma RevokeKey_ok env n t id d d' :
  tdb_ok d -> Tenants.RevokeKey env n t id d = (Ok tt, d') -> revoked id d' /\ exists k, k ∈ d_keys d' /\ k_ID k = id /\ k_TenantID k = t.
Proof.
  intros Hok. unfold Tenants.RevokeKey. destruct (fails env _); [done|].
  set (P := fun k => bool_decide (k_ID k = id /\ k_TenantID k = t)). unfold revoke_where. cbn.
  destruct (filter _ (d_keys d)) as [|k l] eqn:Ef; [done|]. intros [= <-].
  assert (k ∈ filter (fun k => P k && bool_decide (k_RevokedAt k = None) = true) (d_keys d)) as [Hh Hk]%list_elem_of_filter by (rw Ef; left).
  apply andb_prop in Hh as [HP Hn%bool_decide_eq_true]. pose proof HP as [Hid Ht]%bool_decide_eq_true. split.
  - rw -Hid. by apply (revoke_where_done P).
  - exists (set_revoked n k). split; [|done]. apply list_elem_of_fmap. exists k. split; [|done].
    rw HP. by rw bool_decide_eq_true_2.
Qed.

Lemma ListKeys_elem env t d l k : Tenants.ListKeys env None t d = Ok l -> k ∈ d_keys d -> k_TenantID k = t -> k ∈ l.
Proof.
  unfold Tenants.ListKeys. destruct (fails env _); [done|]. intros [= <-] Hk Ht.
  rw list_elem_of_In -in_rev -list_elem_of_In elem_of_order_by. by apply list_elem_of_filter.
Qed.

(** * Staleness *)

(** What a lookup at a state answers. *)
Lemma since_revoked_lookup ttl id T s env cut n k :
  since_revoked ttl id T s -> T + ttl <= s_clock s ->
  (Cached.GetKeyByID (Inner := pg_keystore env cut n) ttl (s_clock s) id (MkCached (s_db s) (s_items s))).1 = Ok k ->
  k_RevokedAt k <> None.
Proof.
  intros [Hok Hrev [Hi _]] Hclock. destruct (Cached.GetKeyByID _ _ _ _) as [r [d' m']] eqn:E. cbn. intros ->.
  apply (cached_get_steps ttl env cut n _ _ _ _ _ _ _ []) in E as (_ & _ & Hk). destruct (Hk k eq_refl) as [Hc|Hg].
  - unfold cache_lookup in Hc. destruct (s_items s !! id) as [e|] eqn:Ee; [|done]. cbn in Hc.
    unfold Before in Hc. destruct (Z.ltb_spec (s_clock s) (ce_expiry e)); [|done]. injection Hc as <-.
    destruct (Hi _ eq_refl) as [?|?]; [done|lia].
  - by eapply revoked_answer.
Qed.

(** A call that deleted: the key is revoked in the database and no entry is left. *)
Lemma revoke_call_deletes ttl env n t id s s' :
  tdb_ok (s_db s) -> revoke_call ttl env None n t id s (Ok tt) true s' ->
  tdb_ok (s_db s') /\ revoked id (s_db s') /\ s_items s' !! id = None.
Proof.
  intros Hok. inversion 1 as [| |? d' s1 keys s2 Hr H1 Hl H2]; subst.
  pose proof (proj1 (tenant_step_evolves _ _ (ts_revoke (s_db s) env n t id)) Hok) as Hok'. rw Hr in Hok'. cbn in Hok'.
  destruct (RevokeKey_ok _ _ _ _ _ _ Hok Hr) as [Hrev (k & Hk & <- & Ht)].
  destruct (tenant_steps_evolve _ _ (db_runs _ _ _ H1)) as [Ho1 Hl1]. cbn in Ho1, Hl1.
  destruct (tenant_steps_evolve _ _ (db_runs _ _ _ H2)) as [Ho2 Hl2]. split_and!; [by auto| |].
  - cbn. eapply revoked_later; [|exact Hl2]. by eapply revoked_later.
  - destruct (grown_elem _ _ _ _ (later_keys _ _ Hl1) Hk) as (k1 & Hk1 & Hlater).
    assert (k_ID k1 = k_ID k /\ k_TenantID k1 = t) as [<- Ht1] by (by destruct Hlater as [->|[_ [a ->]]]).
    apply delete_keys_gone. by eapply ListKeys_elem.
Qed.

(** C25: a revoked key stops working.  From an empty cache, run lookups, revocations
    and writes by other processes in any interleaving.  (1) Once the key is revoked in
    the database, by anyone, every lookup that starts [ttl] or more later answers the
    revoked row or an error, whatever invalidations were lost and whichever earlier
    lookups stored their row late.  (2) It stops at once, for this process and for good,
    when a RevokeKey through this cache succeeds, its listing of the tenant
    comes back whole, and no lookup that read the row before the revocation is still
    to store it at the call's return; otherwise only the bound of (1) is promised.
    The UPDATE, the listing and the deletion of RevokeKey are separate steps here. *)
Theorem revoked_key_expires ttl t0 d0 s1 s2 id :
  tdb_ok d0 -> rtc (cache_step ttl) (MkCState t0 d0 ∅ []) s1 ->
  (revoked id (s_db s1) -> rtc (cache_step ttl) s1 s2 -> s_clock s1 + ttl <= s_clock s2 ->
   forall env cut n k,
    (Cached.GetKeyByID (Inner := pg_keystore env cut n) ttl (s_clock s2) id (MkCached (s_db s2) (s_items s2))).1 = Ok k ->
    k_RevokedAt k <> None)
  /\ (forall env n t s', revoke_call ttl env None n t id s1 (Ok tt) true s' -> settled id s' ->
   rtc (cache_step ttl) s' s2 ->
   forall env' cut n' k,
    (Cached.GetKeyByID (Inner := pg_keystore env' cut n') ttl (s_clock s2) id (MkCached (s_db s2) (s_items s2))).1 = Ok k ->
    k_RevokedAt k <> None).
Proof.
  intros Hok H1. assert (Hok1 : tdb_ok (s_db s1)) by (by eapply tenant_steps_evolve; [eapply db_runs|]). split.
  - intros Hrev H2 Hclock env cut n k.
    assert (Hb : bounded ttl s1) by (eapply bounded_runs; [|exact H1]; split; [done|constructor]).
    apply since_revoked_lookup with (T := s_clock s1); [|done].
    by eapply since_revoked_runs; [apply bounded_since|].
  - intros env n t s' Hc Hset H2 env' cut n' k.
    destruct (revoke_call_deletes _ _ _ _ _ _ _ Hok1 Hc) as (Hok' & Hrev' & Hgone).
    apply since_revoked_lookup with (T := s_clock s' - ttl); [|pose proof (clock_runs _ _ _ H2); lia].
    eapply since_revoked_runs; [|exact H2]. split; [done|done|]. split; [by rw Hgone|].
    eapply Forall_impl; [exact Hset|]. cbn. intros x Hx Hid. left. auto.
Qed.

(** The key is cached at 10.  Revoked by another process at 12 it is refused from 72 on;
    revoked through this cache at 12 it is refused at once. *)
Lemma revoked_key_expires_witness :
  let k := MkKey "akid_1" "tnt_1" "hash1" "write" "default" 5 None in
  let d1 := (Tenants.RevokeKey healthy 12 "tnt_1" "akid_1" sample_tdb).2 in
  let m := cache_store 60 10 "akid_1" k ∅ in
  let answer now d m := (Cached.GetKeyByID (Inner := pg_keystore healthy None 0) 60 now "akid_1" (MkCached d m)).1 in
  answer 69 d1 m = Ok k
  /\ (forall k', answer 72 d1 m = Ok k' -> k_RevokedAt k' <> None)
  /\ (forall k', answer 12 d1 (delete_keys [set_revoked 12 k] m) = Ok k' -> k_RevokedAt k' <> None).
Proof.
  intros k d1 m answer. split; [vm_compute; reflexivity|].
  assert (H0 : rtc (cache_step 60) (MkCState 10 sample_tdb ∅ []) (MkCState 12 sample_tdb m [])).
  { eapply rtc_l; [by apply (cs_fetch 60 10 10 healthy "akid_1" k)|].
    eapply rtc_l; [by apply (cs_store 60 10 _ _ [] "akid_1" k 10 [])|]. by apply rtc_once, (cs_tick 60 10 12). }
  assert (H1 : rtc (cache_step 60) (MkCState 10 sample_tdb ∅ []) (MkCState 12 d1 m []))
    by (eapply rtc_r; [exact H0|apply cs_db, ts_revoke]).
  assert (Hr : revoked "akid_1" d1).
  { exists (set_revoked 12 k). split; [|done]. vm_compute. left. }
  assert (H2 : rtc (cache_step 60) (MkCState 12 d1 m []) (MkCState 72 d1 m [])) by (by apply rtc_once, cs_tick).
  assert (Hc : revoke_call 60 healthy None 12 "tnt_1" "akid_1" (MkCState 12 sample_tdb m []) (Ok tt) true
                 (MkCState 12 d1 (delete_keys [set_revoked 12 k] m) [])).
  { apply (rc_invalidated 60 healthy None 12 "tnt_1" "akid_1" (MkCState 12 sample_tdb m []) d1 (MkCState 12 d1 m [])
      [set_revoked 12 k] (MkCState 12 d1 m [])); [vm_compute; reflexivity|done|vm_compute; reflexivity|done]. }
  split; intros k'.
  - exact (proj1 (revoked_key_expires 60 10 sample_tdb _ _ "akid_1" sample_tdb_ok H1) Hr H2 ltac:(cbn; lia) healthy None 0 k').
  - exact (proj2 (revoked_key_expires 60 10 sample_tdb _ _ "akid_1" sample_tdb_ok H0) healthy 12 "tnt_1" _ Hc
      ltac:(constructor) (rtc_refl _ _) healthy None 0 k').
Defined.

(** Why (2) asks that the lookups be settled: a lookup reads the row at 10, RevokeKey
    runs at 12 and deletes, and the lookup then stores what it read; the key is
    answered unrevoked until 70. *)
Example late_store_outlives_revocation :
  let k := MkKey "akid_1" "tnt_1" "hash1" "write" "default" 5 None in
  let '(r, c) := Cached.RevokeKey (Inner := pg_keystore healthy None 12) "tnt_1" "akid_1" (MkCached sample_tdb ∅) in
  let m := cache_store 60 10 "akid_1" k (c_items c) in
  r = Ok tt
  /\ (Cached.GetKeyByID (Inner := pg_keystore healthy None 12) 60 69 "akid_1" (MkCached (c_inner c) m)).1 = Ok k
  /\ is_ok (Tenants.GetKeyByID healthy "akid_1" (c_inner c)) = true
  /\ (Cached.GetKeyByID (Inner := pg_keystore healthy None 12) 60 70 "akid_1" (MkCached (c_inner c) m)).1
     = Ok (set_revoked 12 k).
Proof. vm_compute. by split_and!. Qed.
