(* ===== verification/Auth.v ===== *)
(** Authentication of HTTP requests: api/internal/auth/{key,context,middleware,jwt,dual,share,sse_ticket}.go,
    with the share links of api/internal/share/store.go that ShareAuth consults.

    A handler takes a request, its context and the state of the stores to a
    response; a middleware is a function from handlers to handlers, as in Go.
    bcrypt, the JWT library and the stores are parameters: [bcrypt_compare] and
    [bcrypt_generate] for golang.org/x/crypto/bcrypt, [ParseWithClaims] for
    golang-jwt with the process's JWKS.  Logs and metrics are not kept. *)
From S2P Require Import Prelude Errors GoTime Sha256 Json AuditModel TimeText Execution AuditService Outbox Postgres Tenants KeyCache Base64.
Import GoTime.
Local Open Scope Z_scope.

(** * HTTP *)

Record Request := MkRequest { rq_Header : string -> string; rq_Query : string -> string }.
(** The body is the value handed to json.Encode, [None] when it cannot be encoded. *)
Record Response := MkResponse { rs_Status : Z; rs_Headers : list (string * string); rs_Body : option json }.

Definition json_type : string * string := ("Content-Type", "application/json").
Definition error_body (msg : string) : json := JObj [("error", JStr msg)].
Definition writeUnauthorized (msg : string) : Response :=
  MkResponse 401 [json_type; ("WWW-Authenticate", apos "Bearer realm='fact0'")] (Some (error_body msg)).
Definition writeForbidden (msg : string) : Response := MkResponse 403 [json_type] (Some (error_body msg)).
Definition writeAuthError (msg : string) : Response :=
  MkResponse 401 [json_type; ("WWW-Authenticate", apos "Bearer realm='fact0', error='invalid_token'")] (Some (error_body msg)).
Definition writeErrorJSON (status : Z) (msg : string) : Response := MkResponse status [json_type] (Some (error_body msg)).
(** [http.NotFound] writes plain text. *)
Definition http_NotFound : Response := MkResponse 404 [("Content-Type", "text/plain; charset=utf-8")] (Some (JStr "404 page not found")).

(** * context.go *)

Record Principal := MkPrincipal { p_UserID : string; p_OrgID : string; p_Role : string; p_PlatformRole : string }.
Record ShareContext := MkShareContext { sc_LinkID : string; sc_TenantID : string; sc_From : option Time; sc_To : option Time }.

(** The values of a request's context.  The principal is a pointer that may be nil. *)
Record Ctx := MkCtx {
  cx_Tenant : option string; cx_Scope : option string; cx_KeyID : option string;
  cx_Principal : option (option Principal); cx_Share : option ShareContext
}.
Definition background : Ctx := MkCtx None None None None None.

Definition WithTenant (c : Ctx) (tenantID scope keyID : string) : Ctx :=
  MkCtx (Some tenantID) (Some scope) (Some keyID) (cx_Principal c) (cx_Share c).
Definition TenantFromContext (c : Ctx) : string := default "" (cx_Tenant c).
Definition ScopeFromContext (c : Ctx) : string := default "" (cx_Scope c).
Definition KeyIDFromContext (c : Ctx) : string := default "" (cx_KeyID c).
Definition WithPrincipal (c : Ctx) (p : option Principal) : Ctx :=
  MkCtx (cx_Tenant c) (cx_Scope c) (cx_KeyID c) (Some p) (cx_Share c).
(** [(ptr, ok)], and the test [ok && p != nil]. *)
Definition PrincipalFromContext (c : Ctx) : option (option Principal) := cx_Principal c.
Definition principal (c : Ctx) : option Principal := mjoin (PrincipalFromContext c).
Definition WithShare (c : Ctx) (sc : ShareContext) : Ctx :=
  let c := WithTenant c (sc_TenantID sc) ScopeRead ("share:" +:+ sc_LinkID sc) in
  MkCtx (cx_Tenant c) (cx_Scope c) (cx_KeyID c) (cx_Principal c) (Some sc).
Definition ShareFromContext (c : Ctx) : option ShareContext := cx_Share c.

Definition Handler (S : Type) : Type := Request -> Ctx -> S -> Response * S.
Definition Middleware (S : Type) : Type := Handler S -> Handler S.

(** * key.go *)

Definition KeyPrefixLive : string := "f0_live_".
Definition KeyPrefixLegacy : string := "alk_live_".
Definition keyPrefixes : list string := [KeyPrefixLive; KeyPrefixLegacy].
Definition rawSecretBytes : nat := 32.

Definition Hash (rawKey : string) : string := hex_encode (Sha256.Sum256 rawKey).

Definition LooksLikeKey (s : string) : bool :=
  existsb (fun p => has_prefix p s && (String.length p + 10 <=? String.length s)%nat) keyPrefixes.

Section Keys.
Variable bcrypt_compare : string -> string -> bool.
Variable bcrypt_generate : string -> option string.

(** [entropy]: what crypto/rand delivers, [None] when it fails. *)
Definition GenerateKey (entropy : option string) (id : string) : option (string * string) :=
  b ← entropy;
  let secret := EncodeToString b in
  hash ← bcrypt_generate secret;
  Some (KeyPrefixLive +:+ id +:+ String dot secret, hash).

Definition VerifyAPIKey (token storedHash : string) : string * bool :=
  if negb (has_prefix KeyPrefixLive token) then ("", false)
  else match SplitN (TrimPrefix token KeyPrefixLive) dot 2 with
       | [id; secret] => (id, bcrypt_compare storedHash secret)
       | _ => ("", false)
       end.

(** * middleware.go *)

Definition bearerToken (r : Request) : string :=
  let h := rq_Header r "Authorization" in
  if bool_decide (h = "") then ""
  else if negb (has_prefix "Bearer " h) then ""
  else TrimSpace (TrimPrefix h "Bearer ").

Definition APIKey_mw {S} `{KeyStore S} : Middleware S := fun next r c s =>
  let raw := bearerToken r in
  if negb (LooksLikeKey raw) then (writeUnauthorized "missing or malformed api key", s)
  else match SplitN (TrimPrefix raw KeyPrefixLive) dot 2 with
  | [id; _] =>
      match ks_GetKeyByID id s with
      | (Err _, s) => (writeUnauthorized "invalid api key", s)
      | (Ok k, s) =>
          if negb (VerifyAPIKey raw (k_Hash k)).2 then (writeUnauthorized "invalid api key", s)
          else if bool_decide (k_RevokedAt k <> None) then (writeUnauthorized "api key revoked", s)
          else next r (WithTenant c (k_TenantID k) (k_Scope k) (k_ID k)) s
      end
  | _ => (writeUnauthorized "invalid api key format", s)
  end.

Definition RequireWrite {S} : Middleware S := fun next r c s =>
  if negb (Scope_CanWrite (ScopeFromContext c)) then (writeForbidden "write scope required", s) else next r c s.

Definition RoleOwner : string := "owner".
Definition RoleAdmin : string := "admin".
Definition RoleMember : string := "member".
Definition AdminRoles : list string := [RoleOwner; RoleAdmin].

Definition RequireWriteOrAdmin {S} : Middleware S := fun next r c s =>
  match principal c with
  | Some p =>
      if negb (bool_decide (p_Role p = RoleOwner)) && negb (bool_decide (p_Role p = RoleAdmin))
      then (writeForbidden "admin role required to perform this action", s) else next r c s
  | None =>
      if negb (Scope_CanWrite (ScopeFromContext c)) then (writeForbidden "write scope required to perform this action", s)
      else next r c s
  end.

(** * jwt.go *)

Record claims := MkClaims {
  cl_Issuer : string; cl_Subject : string; cl_ActiveOrganizationID : string; cl_Role : string;
  cl_PlatformRole : string; cl_AuthorizedParty : string
}.
(** The claims of a token whose signature and dates check out, and [tok.Valid]. *)
Variable ParseWithClaims : string -> option (claims * bool).

Record Verifier := MkVerifier { v_issuer : string; v_azpAllow : list string }.

Definition Verify (v : Verifier) (tokenStr : string) : option Principal :=
  match ParseWithClaims tokenStr with
  | None => None
  | Some (c, valid) =>
      if negb valid then None
      else if negb (bool_decide (v_issuer v = "")) && negb (bool_decide (cl_Issuer c = v_issuer v)) then None
      else if (0 <? length (v_azpAllow v))%nat && negb (bool_decide (cl_AuthorizedParty c = ""))
              && negb (existsb (fun allow => bool_decide (allow = cl_AuthorizedParty c)) (v_azpAllow v)) then None
      else if bool_decide (TrimSpace (cl_Subject c) = "") then None
      else Some (MkPrincipal (cl_Subject c) (cl_ActiveOrganizationID c) (cl_Role c) (cl_PlatformRole c))
  end.

(** A nil verifier answers 404 to everything. *)
Definition RequireJWT {S} (v : option Verifier) : Middleware S := fun next r c s =>
  match v with
  | None => (http_NotFound, s)
  | Some v =>
      let raw := bearerToken r in
      if bool_decide (raw = "") then (writeAuthError "missing bearer token", s)
      else match Verify v raw with
           | None => (writeAuthError "invalid or expired token", s)
           | Some p => next r (WithPrincipal c (Some p)) s
           end
  end.

Definition RequireOrg {S} : Middleware S := fun next r c s =>
  match principal c with
  | None => (writeAuthError "not authenticated", s)
  | Some p =>
      if bool_decide (TrimSpace (p_OrgID p) = "")
      then (writeErrorJSON 412 "no active organization - create or select one in the dashboard", s)
      else next r c s
  end.

Definition RequireRole {S} (allowed : list string) : Middleware S := fun next r c s =>
  match principal c with
  | None => (writeAuthError "not authenticated", s)
  | Some p =>
      if negb (bool_decide (p_Role p ∈ allowed)) then (writeErrorJSON 403 "insufficient organization role", s) else next r c s
  end.

Definition PlatformRolesAll : list string := ["founder"; "support"; "viewer"].
Definition PlatformRolesSupportUp : list string := ["founder"; "support"].
Definition RequirePlatformRole {S} (allowed : list string) : Middleware S := fun next r c s =>
  match principal c with
  | None => (writeAuthError "not authenticated", s)
  | Some p =>
      if negb (bool_decide (p_PlatformRole p ∈ allowed)) then (writeErrorJSON 403 "insufficient platform role", s) else next r c s
  end.

(** * dual.go *)

Definition ProviderBetterAuthOrg : string := "better_auth_org".

Section Dual.
Context {S : Type} `{KeyStore S} (tenants : string -> string -> S -> res Tenant).

(** The bridge from a verified principal to a read-only tenant context. *)
Definition jwtBridge : Middleware S := fun next r c s =>
  match principal c with
  | None => (writeErrorJSON 412 "no active organization", s)
  | Some p =>
      if bool_decide (p_OrgID p = "") then (writeErrorJSON 412 "no active organization", s)
      else match tenants ProviderBetterAuthOrg (p_OrgID p) s with
           | Err _ => (writeErrorJSON 404 "tenant not provisioned - POST /v1/me/bootstrap first", s)
           | Ok t => next r (WithTenant c (tn_ID t) ScopeRead ("user:" +:+ p_UserID p)) s
           end
  end.

Definition DualAuth (v : option Verifier) : Middleware S := fun next r c s =>
  if LooksLikeKey (bearerToken r) then APIKey_mw next r c s else RequireJWT v (jwtBridge next) r c s.
End Dual.
End Keys.

(** * sse_ticket.go *)

Record SSETicket := MkTicket { tk_TenantID : string; tk_Scope : string; tk_ExpiresAt : Time }.

(** The HMAC key; [entropy] is used without a secret. *)
Definition NewSSETicketStore (entropy secret : string) : string :=
  if bool_decide (secret <> "") then bytes_str (Sha256.Sum256 secret) else entropy.

Definition sign (key data : string) : string := EncodeToString (HMAC key data).
(** [Time.Unix]: whole seconds. *)
Definition Unix (t : Time) : Z := t / Second.

Definition ticketPayload_json (tenantID scope : string) (exp : Z) : json :=
  JObj [("t", JStr tenantID); ("s", JStr scope); ("e", JInt exp)].

Definition Issue (key : string) (now : Time) (tenantID scope : string) (ttl : Duration) : option string :=
  raw ← marshal (ticketPayload_json tenantID scope (Unix (now + ttl)));
  let b64 := EncodeToString raw in
  Some ("tkt_" +:+ b64 +:+ String dot (sign key b64)).

(** The decoded payload; null leaves it zero. *)
Definition ticketPayload_of_json (v : json) : option (string * string * Z) :=
  match v with
  | JNull => Some ("", "", 0)
  | JObj m => t ← dec_string "t" m; s ← dec_string "s" m; e ← dec_int64 "e" m; Some (t, s, e)
  | _ => None
  end.

Definition Consume (key : string) (now : Time) (tok : string) : option SSETicket :=
  '(b64, sig) ← LastCut dot (TrimPrefix tok "tkt_");
  if negb (bool_decide (sig = sign key b64)) then None
  else
    payload ← DecodeString b64;
    v ← unmarshal payload;
    '(t, s, e) ← ticketPayload_of_json v;
    if e <? Unix now then None else Some (MkTicket t s (e * Second)).

Definition SSEAuth {S} `{KeyStore S} (bcrypt_compare : string -> string -> bool) (key : string) (now : Time) : Middleware S :=
  fun next r c s =>
    let tok := rq_Query r "ticket" in
    if bool_decide (tok <> "") then
      match Consume key now tok with
      | None => (writeUnauthorized "invalid or expired sse ticket", s)
      | Some t => next r (WithTenant c (tk_TenantID t) (tk_Scope t) "ticket") s
      end
    else APIKey_mw bcrypt_compare next r c s.
