(* ===== verification/AuthFacts.v ===== *)
(** What a credential grants: minted keys and tickets are accepted, and a request
    reaches a handler only with the context its credential stands for. *)
From S2P Require Import Prelude Errors GoTime Sha256 Json JsonFacts Canonical CanonicalFacts AuditModel AuditHash TimeText Execution AuditService Outbox Postgres Tenants TenantFacts TenantProps KeyCache Base64 Auth.
Import GoTime.
Local Open Scope Z_scope.

(** * Tokens *)

(** Text that starts and ends with an ASCII character other than white space is not trimmed. *)
Definition solid (c : Ascii.ascii) : bool := in_range 33 126 c.

Lemma trim_front_solid runes n c s :
  forallb (fun r => match r with String d _ => negb (solid d) | EmptyString => false end) runes = true ->
  solid c = true -> trim_front runes n (String c s) = String c s.
Proof.
  intros Hr Hc. destruct n as [|n]; [done|]. cbn.
  destruct (List.find _ _) as [r|] eqn:E; [|done]. apply List.find_some in E as [Hin Hp].
  rw forallb_forall in Hr. specialize (Hr _ Hin). destruct r as [|d r]; [done|].
  unfold has_prefix in Hp. cbn in Hp. destruct (Ascii.ascii_dec d c) as [->|]; [|done]. by rw Hc in Hr.
Qed.

Lemma str_rev_onto_spec s acc : str_rev_onto s acc = str_rev s +:+ acc.
Proof.
  unfold str_rev. revert acc. induction s as [|c s IH]; intros acc; cbn; [done|].
  rw (IH (String c acc)) (IH (String c "")). rw str_app_assoc. done.
Qed.
Lemma str_rev_cons c s : str_rev (String c s) = str_rev s +:+ String c "".
Proof. unfold str_rev at 1. cbn. apply str_rev_onto_spec. Qed.
Lemma str_rev_app a b : str_rev (a +:+ b) = str_rev b +:+ str_rev a.
Proof.
  induction a as [|c a IH]; [by rw str_app_nil_l str_app_nil_r|].
  by rw str_cons_app !str_rev_cons IH str_app_assoc.
Qed.
Lemma str_rev_involutive s : str_rev (str_rev s) = s.
Proof. induction s as [|c s IH]; [done|]. by rw str_rev_cons str_rev_app IH. Qed.

Lemma TrimSpace_solid c s d : solid c = true -> solid d = true -> TrimSpace (String c (s +:+ String d "")) = String c (s +:+ String d "").
Proof.
  intros Hc Hd. unfold TrimSpace. cbv zeta. rw (trim_front_solid space_runes _ c); [|vm_compute; reflexivity|done].
  rw -str_cons_app str_rev_app. change (str_rev (String d "")) with (String d "").
  change (String d "" +:+ str_rev (String c s)) with (String d (str_rev (String c s))).
  rw (trim_front_solid _ _ d); [|vm_compute; reflexivity|done].
  change (String d (str_rev (String c s))) with (String d "" +:+ str_rev (String c s)).
  rw str_rev_app str_rev_involutive. done.
Qed.

Lemma bearerToken_of r c s d :
  rq_Header r "Authorization" = "Bearer " +:+ String c (s +:+ String d "") -> solid c = true -> solid d = true ->
  bearerToken r = String c (s +:+ String d "").
Proof.
  intros Hh Hc Hd. unfold bearerToken. rw Hh. rw bool_decide_eq_false_2; [|done].
  assert (has_prefix "Bearer " ("Bearer " +:+ String c (s +:+ String d "")) = true) as -> by (apply has_prefix_spec; eauto).
  cbn [negb]. rw TrimPrefix_app. by apply TrimSpace_solid.
Qed.

Lemma str_snoc s : s <> "" -> exists t d, s = t +:+ String d "".
Proof.
  induction s as [|c s IH]; [done|]. intros _. destruct s as [|c' s].
  - exists "", c. done.
  - destruct IH as (t & d & ->); [done|]. exists (String c t), d. done.
Qed.

Lemma str_all_snoc P t d : str_all P (t +:+ String d "") = true -> P d = true.
Proof. rw str_all_app. cbn. intros [_ H]%andb_prop. by rw andb_true_r in H. Qed.

Lemma b64_char_solid c : b64_char c = true -> solid c = true.
Proof.
  unfold b64_char, b64_val, solid. destruct (in_range 65 90 c) eqn:E1; [unfold in_range in *; lia|].
  destruct (in_range 97 122 c) eqn:E2; [unfold in_range in *; lia|].
  destruct (in_range 48 57 c) eqn:E3; [unfold in_range in *; lia|]. unfold in_range.
  destruct (Z.eqb_spec (byte_val c) 45); [lia|]. destruct (Z.eqb_spec (byte_val c) 95); [lia|done].
Qed.

Section Keys.
Variable bcrypt_compare : string -> string -> bool.
Variable bcrypt_generate : string -> option string.
(** bcrypt accepts the password it hashed, up to its 72 bytes. *)
Hypothesis bcrypt_ok : forall p h, (String.length p <= 72)%nat -> bcrypt_generate p = Some h -> bcrypt_compare h p = true.

Lemma encode_length b : String.length (EncodeToString b) = ((4 * String.length b + 2) / 3)%nat.
Proof.
  unfold EncodeToString. rw -(str_bytes_length b). induction (str_bytes b) as [|x|x y|x y z l IH] using list_ind3; [done..|].
  cbn [b64_encode String.length length]. cbv zeta. cbn [String.length]. rw IH.
  replace (4 * S (S (S (length l))) + 2)%nat with ((4 * length l + 2) + 4 * 3)%nat by lia.
  rw Nat.div_add; lia.
Qed.

Lemma token_parts id secret :
  free_of dot id = true -> SplitN (TrimPrefix (KeyPrefixLive +:+ id +:+ String dot secret) KeyPrefixLive) dot 2 = [id; secret].
Proof. intros Hid. rw TrimPrefix_app. cbn. by rw Cut_app. Qed.

(** The token of a fresh key parses to its id and passes the check against its hash. *)
Lemma GenerateKey_verifies b id token hash :
  String.length b = rawSecretBytes -> free_of dot id = true ->
  GenerateKey bcrypt_generate (Some b) id = Some (token, hash) ->
  VerifyAPIKey bcrypt_compare token hash = (id, true) /\ LooksLikeKey token = true
  /\ exists secret, token = KeyPrefixLive +:+ id +:+ String dot secret
       /\ str_all b64_char secret = true /\ String.length secret = 43%nat.
Proof.
  intros Hb Hid. unfold GenerateKey. cbn [mbind option_bind]. intros Hg. cbv zeta in Hg.
  destruct (bcrypt_generate (EncodeToString b)) as [h|] eqn:Eh; [|done]. cbn in Hg. injection Hg as <- <-.
  pose proof (encode_length b) as Hl. rw Hb in Hl. change ((4 * rawSecretBytes + 2) / 3)%nat with 43%nat in Hl.
  set (secret := EncodeToString b) in *.
  assert (Hp : has_prefix KeyPrefixLive (KeyPrefixLive +:+ id +:+ String dot secret) = true) by (apply has_prefix_spec; eauto).
  split_and!.
  - unfold VerifyAPIKey. rw Hp. cbn [negb]. rw token_parts; [|done]. f_equal. apply bcrypt_ok; [lia|done].
  - unfold LooksLikeKey, keyPrefixes. cbn [existsb]. rw Hp. rw !str_length_app. cbn [String.length].
    apply orb_true_iff. left. apply andb_true_iff. split; [done|]. apply Nat.leb_le. lia.
  - exists secret. split_and!; [done|apply EncodeToString_chars|done].
Qed.
End Keys.

(** * Tickets *)

Lemma unmarshal_render v : json_wf v = true -> nesting v <= maxNestingDepth -> unmarshal (render v) = Some v.
Proof.
  intros Hwf Hn. unfold unmarshal. rw -{2}(str_app_nil_r (render v)).
  by rw (parses_wf v Hwf); [|lia|lia|].
Qed.

Lemma parse_integer_printed z :
  parse_integer 64 (pretty z) = if (z <? - 2 ^ 63) || (2 ^ 63 - 1 <? z) then None else Some z.
Proof.
  unfold parse_integer. destruct z as [|p|p]; [done| |].
  - destruct (pretty_pos_dec p) as [Hd Hl], (pretty_pos_digits p) as [Hp Hn].
    change (pretty (Z.pos p) : string) with (pretty (N.pos p)). set (t := pretty (N.pos p)) in *. clearbody t.
    destruct t as [|c t]; [done|]. cbn [scan_sign].
    assert (is_char 45 c = false) as ->.
    { cbn in Hp. apply andb_prop in Hp as [Hp _]. unfold is_char, is_digit, in_range in *. lia. }
    cbn [str_all] in Hp |- *. rw Hp Hd. change (is_empty (String c t)) with false. change (is_empty "") with true. done.
  - destruct (pretty_pos_dec p) as [Hd Hl], (pretty_pos_digits p) as [Hp Hn].
    change (pretty (Z.neg p) : string) with ("-" +:+ pretty (N.pos p)). set (t := pretty (N.pos p)) in *. clearbody t.
    change (scan_sign ("-" +:+ t)) with ("-", t). cbv iota. rw Hp Hd.
    destruct t as [|c t]; [done|]. change (is_empty (String c t)) with false. change (is_empty "-") with false. done.
Qed.
Lemma parse_integer_pretty z : int64_min <= z <= int64_max -> parse_integer 64 (pretty z) = Some z.
Proof.
  unfold int64_min, int64_max. intros Hz. rw parse_integer_printed.
  rw (proj2 (Z.ltb_ge z (- 2 ^ 63))); [|lia]. by rw (proj2 (Z.ltb_ge (2 ^ 63 - 1) z)); [|lia].
Qed.

Lemma ticket_payload_roundtrip t s e :
  utf8_valid t = true -> utf8_valid s = true -> int64_min <= e <= int64_max ->
  exists raw, marshal (ticketPayload_json t s e) = Some raw
    /\ (v ← unmarshal raw; ticketPayload_of_json v) = Some (t, s, e).
Proof.
  intros Ht Hs He. exists (render (ticketPayload_json t s e)).
  assert (Hwf : json_wf (ticketPayload_json t s e) = true).
  { unfold ticketPayload_json, JInt. cbn [json_wf forallb fst snd]. rw Ht Hs valid_int.
    apply andb_true_iff. split; [reflexivity|]. apply bool_decide_eq_true. cbn. repeat constructor; set_solver. }
  split.
  - unfold marshal, ticketPayload_json, JInt. cbn [numbers_ok forallb snd]. by rw valid_int.
  - rw unmarshal_render; [|done|]. 2: { unfold ticketPayload_json, JInt. done. }
    set (m := [("t", JStr t); ("s", JStr s); ("e", JInt e)]).
    change (dec_string "t" m ≫= (fun t => dec_string "s" m ≫= fun s => dec_int64 "e" m ≫= fun e => Some (t, s, e)) = Some (t, s, e)).
    assert (dec_string "t" m = Some t) as -> by reflexivity. assert (dec_string "s" m = Some s) as -> by reflexivity.
    assert (dec_int64 "e" m = parse_integer 64 (pretty e)) as -> by reflexivity. by rw parse_integer_pretty.
Qed.

Lemma Consume_Issue key now t s ttl tok :
  utf8_valid t = true -> utf8_valid s = true -> int64_min <= Unix (now + ttl) <= int64_max ->
  Issue key now t s ttl = Some tok ->
  tok <> "" /\ forall now', Consume key now' tok
    = if Unix (now + ttl) <? Unix now' then None else Some (MkTicket t s (Unix (now + ttl) * Second)).
Proof.
  intros Ht Hs He. destruct (ticket_payload_roundtrip t s _ Ht Hs He) as (raw & Hm & Hu).
  unfold Issue. rw Hm. cbn [mbind option_bind]. intros Hi. cbv zeta in Hi.
  apply (inj Some) in Hi. subst tok. split; [done|]. intros now'. unfold Consume.
  rw TrimPrefix_app. rw LastCut_app; [|apply b64_free_of_dot, EncodeToString_chars]. cbn [mbind option_bind].
  rw bool_decide_eq_true_2; [|done]. cbn [negb]. rw DecodeString_EncodeToString. cbn [mbind option_bind].
  destruct (unmarshal raw) as [v|]; [|done]. cbn in Hu |- *. by rw Hu.
Qed.

Lemma Consume_signed key now tok t :
  Consume key now tok = Some t ->
  exists b64, LastCut dot (TrimPrefix tok "tkt_") = Some (b64, sign key b64) /\ Unix now * Second <= tk_ExpiresAt t.
Proof.
  unfold Consume. destruct (LastCut _ _) as [[b64 sig]|]; [|done]. cbn [mbind option_bind].
  case_bool_decide as Hs; [|done]. cbn [negb]. destruct (DecodeString b64) as [pl|]; [|done]. cbn [mbind option_bind].
  destruct (unmarshal pl) as [v|]; [|done]. cbn [mbind option_bind].
  destruct (ticketPayload_of_json v) as [[[t' s] e]|]; [|done]. cbn [mbind option_bind].
  destruct (Z.ltb_spec e (Unix now)); [done|]. intros [= <-]. exists b64. split; [by rw Hs|]. cbn. unfold Second. lia.
Qed.
