(* ===== verification/ShareLinks.v ===== *)
(** Read-only share links and the tenants' alert settings:
    api/internal/share/{store,quota_settings}.go, and the middleware that
    admits a link's bearer, api/internal/auth/share.go.

    [ShareDB] is the table [share_links] next to the tenant tables, whose
    [settings] column the store also keeps.  PostgreSQL keeps microseconds. *)
From S2P Require Import Prelude Errors GoTime Sha256 Json AuditModel TimeText Execution Postgres Tenants KeyCache Base64 Auth.
Import GoTime.
Local Open Scope Z_scope.

(** [Link]; the token is set only on creation. *)
Record Link := MkLink {
  l_ID : string; l_TenantID : string; l_CreatedBy : string; l_Label : string; l_Scope : string; l_Token : string;
  l_FilterFrom : option Time; l_FilterTo : option Time; l_ExpiresAt : Time; l_RevokedAt : option Time;
  l_LastAccessed : option Time; l_AccessCount : Z; l_CreatedAt : Time
}.
Record CreateInput := MkCreate { ci_Label : string; ci_FilterFrom : option Time; ci_FilterTo : option Time; ci_ExpiresAt : Time }.

(** A row: the link and its secret hash, NULL for links older than the column. *)
Record LinkRow := MkLinkRow { lr_Link : Link; lr_SecretHash : option string }.
Record ShareDB := MkShareDB { sd_links : list LinkRow; sd_tenants : TDB }.

Definition set_Token (tok : string) (l : Link) : Link :=
  MkLink (l_ID l) (l_TenantID l) (l_CreatedBy l) (l_Label l) (l_Scope l) tok (l_FilterFrom l) (l_FilterTo l)
    (l_ExpiresAt l) (l_RevokedAt l) (l_LastAccessed l) (l_AccessCount l) (l_CreatedAt l).
Definition set_link_revoked (at_ : Time) (r : LinkRow) : LinkRow :=
  let l := lr_Link r in
  MkLinkRow (MkLink (l_ID l) (l_TenantID l) (l_CreatedBy l) (l_Label l) (l_Scope l) (l_Token l) (l_FilterFrom l) (l_FilterTo l)
    (l_ExpiresAt l) (Some at_) (l_LastAccessed l) (l_AccessCount l) (l_CreatedAt l)) (lr_SecretHash r).
Definition count_access (at_ : Time) (r : LinkRow) : LinkRow :=
  let l := lr_Link r in
  MkLinkRow (MkLink (l_ID l) (l_TenantID l) (l_CreatedBy l) (l_Label l) (l_Scope l) (l_Token l) (l_FilterFrom l) (l_FilterTo l)
    (l_ExpiresAt l) (l_RevokedAt l) (Some at_) (l_AccessCount l + 1) (l_CreatedAt l)) (lr_SecretHash r).

(** * store.go: links *)

(** Rows affected by an UPDATE on the links that satisfy [P]. *)
Definition update_links (P : LinkRow -> bool) (f : LinkRow -> LinkRow) (d : ShareDB) : nat * ShareDB :=
  (length (filter (fun r => P r = true) (sd_links d)),
   MkShareDB (map (fun r => if P r then f r else r) (sd_links d)) (sd_tenants d)).

Definition insert_link (dbnow : Time) (id tenantID createdBy secretHash : string) (inp : CreateInput) (d : ShareDB)
    : option ShareDB :=
  if forallb text_ok [id; createdBy; ci_Label inp; secretHash] && bool_decide (tenantID ∈ map t_ID (d_tenants (sd_tenants d)))
     && bool_decide (id ∉ map (fun r => l_ID (lr_Link r)) (sd_links d)) && (String.length secretHash <=? 64)%nat
     && pg_time_ok (ci_ExpiresAt inp) && forallb pg_time_ok (option_list (ci_FilterFrom inp) ++ option_list (ci_FilterTo inp))
  then Some (MkShareDB (sd_links d ++
    [MkLinkRow (MkLink id tenantID createdBy (ci_Label inp) "read" "" (pg_ts <$> ci_FilterFrom inp)
                  (pg_ts <$> ci_FilterTo inp) (pg_ts (ci_ExpiresAt inp)) None None 0 dbnow) (Some secretHash)])
    (sd_tenants d))
  else None.

Definition find_link (P : LinkRow -> bool) (d : ShareDB) : option LinkRow := head (filter (fun r => P r = true) (sd_links d)).
Definition scan_link (env : Env) (o : option LinkRow) : res LinkRow :=
  if fails env (CallRead 0) then Err (Internal "scanning share link")
  else match o with None => Err (NotFound "share_link" "") | Some r => Ok r end.

Definition link_is (id : string) (r : LinkRow) : bool := bool_decide (l_ID (lr_Link r) = id).
Definition link_of (tenantID : string) (r : LinkRow) : bool := bool_decide (l_TenantID (lr_Link r) = tenantID).

Definition Get (env : Env) (tenantID id : string) (d : ShareDB) : res Link :=
  lr_Link <$> scan_link env (find_link (fun r => link_is id r && link_of tenantID r) d).
Definition GetByID (env : Env) (id : string) (d : ShareDB) : res Link := lr_Link <$> scan_link env (find_link (link_is id) d).
Definition GetByIDWithSecret (env : Env) (id : string) (d : ShareDB) : res (Link * string) :=
  (fun r => (lr_Link r, default "" (lr_SecretHash r))) <$> scan_link env (find_link (link_is id) d).

(** [id] is the fresh ULID, [entropy] what crypto/rand delivers. *)
Definition Create (env : Env) (dbnow : Time) (id : string) (entropy : option string) (tenantID createdBy : string)
    (inp : CreateInput) (d : ShareDB) : res Link * ShareDB :=
  match entropy with
  | None => (Err (Internal "generating share link secret"), d)
  | Some b =>
      let secretStr := EncodeToString b in
      if fails env (CallWrite 0) then (Err (Internal "creating share link"), d)
      else match insert_link dbnow id tenantID createdBy (Hash secretStr) inp d with
           | None => (Err (Internal "creating share link"), d)
           | Some d => (set_Token (id +:+ "_" +:+ secretStr) <$> Get env tenantID id d, d)
           end
  end.

Definition List_links (env : Env) (tenantID : string) (d : ShareDB) : res (list Link) :=
  if fails env (CallRead 0) then Err (Internal "listing share links")
  else Ok (rev (order_by l_CreatedAt (map lr_Link (filter (fun r => link_of tenantID r = true) (sd_links d))))).

Definition Revoke (env : Env) (dbnow : Time) (tenantID id : string) (d : ShareDB) : res unit * ShareDB :=
  if fails env (CallWrite 0) then (Err (Internal "revoking share link"), d)
  else let '(n, d') := update_links (fun r => link_is id r && link_of tenantID r && bool_decide (l_RevokedAt (lr_Link r) = None))
                         (set_link_revoked dbnow) d in
       (if (n =? 0)%nat then Err (NotFound "share_link" id) else Ok tt, d').

(** The count is an INT: the update fails at 2^31 - 1. *)
Definition accessible (dbnow : Time) (id : string) (r : LinkRow) : bool :=
  link_is id r && bool_decide (l_RevokedAt (lr_Link r) = None) && (dbnow <? l_ExpiresAt (lr_Link r)).
Definition RecordAccess (env : Env) (dbnow : Time) (id : string) (d : ShareDB) : res unit * ShareDB :=
  if fails env (CallWrite 1)
     || existsb (fun r => accessible dbnow id r && (2 ^ 31 - 1 <=? l_AccessCount (lr_Link r))) (sd_links d)
  then (Err (Internal "recording share access"), d)
  else let '(n, d') := update_links (accessible dbnow id) (count_access dbnow) d in
       (if (n =? 0)%nat then Err (NotFound "share_link" id) else Ok tt, d').

(** The nil link is not valid. *)
Definition Valid (l : option Link) (now : Time) : bool :=
  match l with
  | None => false
  | Some l => if bool_decide (l_RevokedAt l <> None) then false else Before now (l_ExpiresAt l)
  end.

(** * store.go: settings *)

Record TenantSettings := MkSettings {
  ts_AlertWebhookURL : string; ts_AlertEmail : string; ts_QuotaAlertMonth : string; ts_QuotaAlertLevel : Z
}.
Definition settings_json (s : TenantSettings) : json :=
  JObj (omit (is_empty (ts_AlertWebhookURL s)) "alert_webhook_url" (JStr (ts_AlertWebhookURL s))
        ++ omit (is_empty (ts_AlertEmail s)) "alert_email" (JStr (ts_AlertEmail s))
        ++ omit (is_empty (ts_QuotaAlertMonth s)) "quota_alert_month" (JStr (ts_QuotaAlertMonth s))
        ++ omit (ts_QuotaAlertLevel s =? 0) "quota_alert_level" (JInt (ts_QuotaAlertLevel s))).
(** Unmarshal's error is dropped: members of another type leave their field zero. *)
Definition settings_of_json (v : json) : TenantSettings :=
  let m := members_of v in
  MkSettings (as_string (field "alert_webhook_url" m)) (as_string (field "alert_email" m))
    (as_string (field "quota_alert_month" m)) (as_integer 64 (field "quota_alert_level" m)).

Definition GetSettings (env : Env) (tenantID : string) (d : ShareDB) : res TenantSettings :=
  if fails env (CallRead 0) then Err (Internal "loading tenant settings")
  else match head (filter (fun t => t_ID t = tenantID) (d_tenants (sd_tenants d))) with
       | None => Err (Internal "loading tenant settings")
       | Some t => Ok (settings_of_json (t_Settings t))
       end.

Definition with_settings (v : json) (t : TenantRow) : TenantRow :=
  MkTenantRow (t_ID t) (t_Name t) (t_CreatedAt t) (t_DeletedAt t) (t_PlanID t) (t_PeriodEnd t) (t_SubStatus t) v.

(** The whole column is replaced.  [errText] is the text of the driver's error. *)
Definition UpdateSettings `{Jsonb} (errText : string) (env : Env) (tenantID : string) (settings : TenantSettings) (d : ShareDB)
    : res unit * ShareDB :=
  match b ← marshal (settings_json settings); decode b with
  | None => (Err (Internal "marshaling tenant settings"), d)
  | Some raw =>
      if fails env (CallWrite 0) then (Err (Internal ("updating tenant settings: " +:+ errText)), d)
      else match jsonb raw with
           | None => (Err (Internal ("updating tenant settings: " +:+ errText)), d)
           | Some v =>
               let hit t := bool_decide (t_ID t = tenantID) in
               if existsb hit (d_tenants (sd_tenants d)) then
                 (Ok tt, MkShareDB (sd_links d)
                   (with_tenants (map (fun t => if hit t then with_settings v t else t) (d_tenants (sd_tenants d))) (sd_tenants d)))
               else (Err (NotFound "tenant" tenantID), d)
           end
  end.

(** * quota_settings.go *)

Record QuotaAlertSettings := MkQuotaAlert { qa_AlertEmail : string; qa_QuotaAlertMonth : string; qa_QuotaAlertLevel : Z }.

Definition GetQuotaAlertSettings (env : Env) (tenantID : string) (d : ShareDB) : res QuotaAlertSettings :=
  s ← GetSettings env tenantID d; Ok (MkQuotaAlert (ts_AlertEmail s) (ts_QuotaAlertMonth s) (ts_QuotaAlertLevel s)).
Definition UpdateQuotaAlertSettings `{Jsonb} (errText : string) (env : Env) (tenantID : string) (q : QuotaAlertSettings) (d : ShareDB)
    : res unit * ShareDB :=
  match GetSettings env tenantID d with
  | Err e => (Err e, d)
  | Ok s => UpdateSettings errText env tenantID
              (MkSettings (ts_AlertWebhookURL s) (qa_AlertEmail q) (qa_QuotaAlertMonth q) (qa_QuotaAlertLevel q)) d
  end.

(** * auth/share.go *)

Class ShareLinkResolver (S : Type) := {
  sl_GetByIDWithSecret : string -> S -> res (Link * string);
  sl_RecordAccess : string -> S -> res unit * S
}.
Definition share_resolver (env : Env) (dbnow : Time) : ShareLinkResolver ShareDB := {|
  sl_GetByIDWithSecret := GetByIDWithSecret env;
  sl_RecordAccess := RecordAccess env dbnow
|}.

(** The header, else the bearer token, else the query. *)
Definition share_token (r : Request) : string :=
  let tok := rq_Header r "X-Fact0-Share-Token" in
  let tok := if bool_decide (tok = "") && bool_decide (bearerToken r <> "") then bearerToken r else tok in
  if bool_decide (tok = "") then rq_Query r "share" else tok.

Definition ShareAuth {S} `{ShareLinkResolver S} (now : Time) : Middleware S := fun next r c s =>
  let tok := share_token r in
  if bool_decide (tok = "") then (writeUnauthorized "missing share token", s)
  else match SplitN tok underscore 3 with
  | [p0; p1; secretStr] =>
      match sl_GetByIDWithSecret (p0 +:+ "_" +:+ p1) s with
      | Err _ => (writeUnauthorized "invalid share link", s)
      | Ok (link, secretHash) =>
          if negb (bool_decide (Hash secretStr = secretHash)) then (writeUnauthorized "invalid share secret", s)
          else if negb (Valid (Some link) now) then (writeErrorJSON 410 "share link expired or revoked", s)
          else
            let '(_, s) := sl_RecordAccess (l_ID link) s in
            next r (WithShare c (MkShareContext (l_ID link) (l_TenantID link) (l_FilterFrom link) (l_FilterTo link))) s
      end
  | _ => (writeUnauthorized "invalid share token format", s)
  end.

(** The requested range within the link's window; the zero time is an open end. *)
Definition MergeShareRange (c : Ctx) (from to : Time) : Time * Time :=
  match ShareFromContext c with
  | None => (from, to)
  | Some sc =>
      (match sc_From sc with Some f => if IsZero from || After f from then f else from | None => from end,
       match sc_To sc with Some t => if IsZero to || Before t to then t else to | None => to end)
  end.
