(* ===== verification/Limits.v ===== *)
(** The monthly event cap and its quota mails: api/internal/audit/limit.go.

    The limiter is written against its stores' interfaces ([LimiterStores]);
    [pg_limiter_stores] is the wiring of the server, over the tenant tables, the
    audit log and the settings of share/quota_settings.go.  The mails handed to
    the notifier are a list. *)
From S2P Require Import Prelude Errors GoTime Json AuditModel Execution Postgres AuditStore Tenants ShareLinks.
Import GoTime.
Local Open Scope Z_scope.

Class LimiterStores (S : Type) := {
  ls_GetTenantPlan : string -> S -> res Plan * S;
  ls_CountEventsThisMonth : string -> S -> res Z;
  ls_GetQuotaAlertSettings : string -> S -> res QuotaAlertSettings;
  ls_UpdateQuotaAlertSettings : string -> QuotaAlertSettings -> S -> res unit * S;
  ls_GetTenant : string -> S -> res Tenant
}.

(** QuotaNotifier.QuotaAlert's arguments. *)
Record QuotaMail := MkMail { qm_TenantID : string; qm_Workspace : string; qm_Used : Z; qm_Limit : Z; qm_Percentage : Z }.

(** Which of the limiter's dependencies are wired (not nil), and the override. *)
Record MonthlyLimiter := MkLimiter {
  ml_plans : bool; ml_stats : bool; ml_settings : bool; ml_notify : bool; ml_tenants : bool; ml_OverrideFreeLimit : Z
}.

(** Format("2006-01") of a UTC instant. *)
Definition month_text (now : Time) : string :=
  let '(y, m, _) := civil_from_days (now / Day) in appendInt 4 y +:+ "-" +:+ appendInt 2 m.

Section Limiter.
Context {S : Type} `{LimiterStores S} (l : MonthlyLimiter) (now : Time) (tenantID : string).

(** The stores and the mails sent so far. *)
Abbreviation lstate := (S * list QuotaMail)%type.

Definition workspaceName (s : S) : string :=
  if ml_tenants l then
    match ls_GetTenant tenantID s with
    | Ok t => if bool_decide (tn_Name t <> "") then tn_Name t else tenantID
    | Err _ => tenantID
    end
  else tenantID.

(** The alert threshold the usage has reached, if any. *)
Definition quota_level (used limit : Z) : option Z :=
  let pct := Z.quot (wrap64 (used * 100)) limit in
  if limit <=? used then Some 100
  else if ((limit =? 30000) && (25000 <=? used)) || (negb (limit =? 30000) && (83 <=? pct)) then Some 83
  else if ((limit =? 30000) && (20000 <=? used)) || (negb (limit =? 30000) && (66 <=? pct)) then Some 66
  else None.

(** Sends unless this month's level was already reached; the update's error is dropped. *)
Definition notify_at (level used limit percentage : Z) (st : lstate) : lstate :=
  let '(s, sent) := st in
  match ls_GetQuotaAlertSettings tenantID s with
  | Err _ => st
  | Ok settings =>
      if bool_decide (qa_AlertEmail settings = "") then st
      else if bool_decide (qa_QuotaAlertMonth settings = month_text now) && (level <=? qa_QuotaAlertLevel settings) then st
      else
        let sent := sent ++ [MkMail tenantID (workspaceName s) used limit percentage] in
        let '(_, s) := ls_UpdateQuotaAlertSettings tenantID (MkQuotaAlert (qa_AlertEmail settings) (month_text now) level) s in
        (s, sent)
  end.

Definition maybeNotifyQuota (used limit : Z) (st : lstate) : lstate :=
  if negb (ml_settings l) || negb (ml_notify l) || (limit <=? 0) then st
  else match quota_level used limit with
       | None => st
       | Some level => notify_at level used limit (Z.quot (wrap64 (used * 100)) limit) st
       end.

Definition maybeNotifyQuotaExceeded (used limit : Z) (st : lstate) : lstate :=
  if negb (ml_settings l) || negb (ml_notify l) then st else notify_at 100 used limit 100 st.

(** The cap that applies: the override replaces the free plan's. *)
Definition effective_limit (plan : Plan) : option Z :=
  if bool_decide (pl_ID plan = "free") && (0 <? ml_OverrideFreeLimit l) then Some (ml_OverrideFreeLimit l)
  else pl_MonthlyEventLimit plan.

Definition Check (incoming : Z) (st : lstate) : res unit * lstate :=
  if negb (ml_plans l) || negb (ml_stats l) || bool_decide (tenantID = "") || (incoming <=? 0) then (Ok tt, st)
  else
    let '(s, sent) := st in
    match ls_GetTenantPlan tenantID s with
    | (Err e, s) => (Err e, (s, sent))
    | (Ok plan, s) =>
        match effective_limit plan with
        | None => (Ok tt, (s, sent))
        | Some limit =>
            if limit <=? 0 then (Ok tt, (s, sent))
            else match ls_CountEventsThisMonth tenantID s with
            | Err e => (Err e, (s, sent))
            | Ok used =>
                let st := maybeNotifyQuota used limit (s, sent) in
                if limit <? wrap64 (used + incoming) then
                  (Err (MonthlyLimitExceeded limit used), maybeNotifyQuotaExceeded (wrap64 (used + incoming)) limit st)
                else (Ok tt, st)
            end
        end
    end.
End Limiter.

(** The server's wiring. *)
Record LimiterDB := MkLimiterDB { lb_share : ShareDB; lb_audit : DB }.

Definition on_share {A} (f : ShareDB -> A * ShareDB) (s : LimiterDB) : A * LimiterDB :=
  let '(a, d) := f (lb_share s) in (a, MkLimiterDB d (lb_audit s)).

(** [env i] is the environment of the i-th store method. *)
Definition pg_limiter_stores `{Jsonb} (env : nat -> Env) (ossMode : bool) (errText : string) (now : Time) : LimiterStores LimiterDB := {|
  ls_GetTenantPlan t := on_share (fun d =>
    let '(r, td) := GetTenantPlan (env 0%nat) ossMode now t (sd_tenants d) in (r, MkShareDB (sd_links d) td));
  ls_CountEventsThisMonth t s := CountEventsThisMonth (env 1%nat) (lb_audit s) now t;
  ls_GetQuotaAlertSettings t s := GetQuotaAlertSettings (env 2%nat) t (lb_share s);
  ls_UpdateQuotaAlertSettings t q := on_share (UpdateQuotaAlertSettings errText (env 3%nat) t q);
  ls_GetTenant t s := GetTenant (env 4%nat) t (sd_tenants (lb_share s))
|}.
