(* ===== verification/LimitProps.v ===== *)
(** The cap is a bound and its mails are few. *)
From S2P Require Import Prelude Errors GoTime Json JsonFacts Canonical CanonicalFacts AuditModel AuditHash Execution Postgres AuditStore AuditStoreFacts Tenants TenantFacts TenantProps ShareLinks Base64 Auth AuthFacts Limits.
Import GoTime.
Local Open Scope Z_scope.

(** * What Check decides *)

Section Cap.
Context {S : Type} `{LimiterStores S} (l : MonthlyLimiter) (now : Time) (t : string).

Lemma Check_spec incoming s sent :
  ml_plans l = true -> ml_stats l = true -> t <> "" -> 0 < incoming ->
  Check l now t incoming (s, sent) =
  match ls_GetTenantPlan t s with
  | (Err e, s1) => (Err e, (s1, sent))
  | (Ok plan, s1) =>
      match effective_limit l plan with
      | None => (Ok tt, (s1, sent))
      | Some limit =>
          if limit <=? 0 then (Ok tt, (s1, sent))
          else match ls_CountEventsThisMonth t s1 with
               | Err e => (Err e, (s1, sent))
               | Ok used =>
                   let st := maybeNotifyQuota l now t used limit (s1, sent) in
                   if limit <? wrap64 (used + incoming)
                   then (Err (MonthlyLimitExceeded limit used), maybeNotifyQuotaExceeded l now t (wrap64 (used + incoming)) limit st)
                   else (Ok tt, st)
               end
      end
  end.
Proof.
  intros Hp Hs Ht Hi. unfold Check. rw Hp Hs. rw bool_decide_eq_false_2; [|done]. cbn [negb orb].
  by destruct (Z.leb_spec incoming 0); [lia|].
Qed.

(** A state invariant of the stores that the settings' updates keep. *)
Lemma notify_at_keeps (P : S -> Prop) level used limit pct s sent :
  (forall q s, P s -> P (ls_UpdateQuotaAlertSettings t q s).2) -> P s -> P (notify_at l now t level used limit pct (s, sent)).1.
Proof.
  intros Hu Hs. unfold notify_at. destruct (ls_GetQuotaAlertSettings t s) as [q|]; [|done].
  case_bool_decide; [done|]. destruct (_ && _); [done|].
  specialize (Hu (MkQuotaAlert (qa_AlertEmail q) (month_text now) level) s Hs). by destruct (ls_UpdateQuotaAlertSettings _ _ _).
Qed.

Lemma notifies_keep (P : S -> Prop) used limit s sent :
  (forall q s, P s -> P (ls_UpdateQuotaAlertSettings t q s).2) -> P s ->
  P (maybeNotifyQuota l now t used limit (s, sent)).1 /\ P (maybeNotifyQuotaExceeded l now t used limit (s, sent)).1.
Proof.
  intros Hu Hs. unfold maybeNotifyQuota, maybeNotifyQuotaExceeded. split.
  - destruct (_ || _); [done|]. destruct (quota_level used limit); [by apply notify_at_keeps|done].
  - destruct (_ || _); [done|]. by apply notify_at_keeps.
Qed.
End Cap.

(** * The cap *)

(** The tenant's events dated this month or later. *)
Definition month_count (now : Time) (t : string) (db : DB) : Z :=
  Z.of_nat (length (filter (fun e => ev_TenantID e = t /\ month_start now <= ev_Timestamp e) (db_events db))).

Lemma fresh_length seen events : (length (fresh seen events) <= length events)%nat.
Proof. revert seen. induction events as [|e es IH]; intros seen; cbn; [done|]. case_decide; cbn; [|specialize (IH ({[ev_ID e]} ∪ seen)); lia]. specialize (IH seen). lia. Qed.

(** The audit log is not touched by the limiter's stores. *)
Lemma pg_update_audit `{Hj : Jsonb} env oss err now t q s :
  lb_audit (ls_UpdateQuotaAlertSettings (LimiterStores := pg_limiter_stores env oss err now) t q s).2 = lb_audit s.
Proof. cbn. unfold on_share. by destruct (UpdateQuotaAlertSettings _ _ _ _ _). Qed.
Lemma pg_plan_audit `{Hj : Jsonb} env oss err now t s :
  lb_audit (ls_GetTenantPlan (LimiterStores := pg_limiter_stores env oss err now) t s).2 = lb_audit s.
Proof. cbn. unfold on_share. by destruct (GetTenantPlan _ _ _ _ _). Qed.

Lemma append_count `{Hj : Jsonb} tenant_exists ae now t db events :
  month_count now t (AppendBatchChained tenant_exists ae db t events).2 <= month_count now t db + Z.of_nat (length events).
Proof.
  pose proof (append_effect tenant_exists ae db t events) as He.
  destruct (AppendBatchChained tenant_exists ae db t events) as [r db']. destruct He as (_ & [[He _]|(out & Ht & _)]).
  - cbn. unfold month_count. rw He. lia.
  - apply append_tx_ok in Ht as (stored & Hr & Hf & _). unfold month_count. rw Hr. rw filter_app length_app Nat2Z.inj_add.
    pose proof (length_filter (fun e => ev_TenantID e = t /\ month_start now <= ev_Timestamp e) stored) as Hl.
    apply Forall2_length in Hf. unfold batch_links in Hf. rw link_all_length in Hf.
    pose proof (fresh_length (tenant_ids (db_events db) t) events) as Hfl. rw Hf in Hfl. cbn -[month_start]. lia.
Qed.

(** Check stores no event, whatever it answers. *)
Lemma Check_keeps_audit `{Hj : Jsonb} env oss err l now t n s sent :
  lb_audit (Check (H := pg_limiter_stores env oss err now) l now t n (s, sent)).2.1 = lb_audit s.
Proof.
  unfold Check. destruct (_ || _); [done|]. pose proof (pg_plan_audit env oss err now t s) as Ha.
  destruct (ls_GetTenantPlan (LimiterStores := pg_limiter_stores env oss err now) t s) as [[plan|e] s1]; [|exact Ha].
  cbn [snd] in Ha.
  destruct (effective_limit l plan) as [limit|]; [|done]. destruct (limit <=? 0); [done|].
  destruct (ls_CountEventsThisMonth t s1) as [used|e]; [|done].
  assert (K : forall used limit x sent, lb_audit x = lb_audit s ->
      lb_audit (maybeNotifyQuota (H := pg_limiter_stores env oss err now) l now t used limit (x, sent)).1 = lb_audit s
      /\ lb_audit (maybeNotifyQuotaExceeded (H := pg_limiter_stores env oss err now) l now t used limit (x, sent)).1 = lb_audit s).
  { intros u li x se Hx. apply (notifies_keep (H := pg_limiter_stores env oss err now) l now t (fun y => lb_audit y = lb_audit s)); [|done].
    intros q y Hy. by rw pg_update_audit. }
  pose proof (proj1 (K used limit s1 sent Ha)) as K1. destruct (maybeNotifyQuota _ _ _ _ _ _) as [s2 sent2]. cbn in K1.
  destruct (limit <? _); [|done]. exact (proj2 (K _ limit s2 sent2 K1)).
Qed.

(** C29: the monthly cap bounds what is stored.  Let a tenant with a cap have at most that many events
    dated this month.  If Check admits a batch, storing the batch, whatever part of it succeeds, leaves
    at most the cap; a batch that would not fit is refused with MonthlyLimitExceeded, a 429
    that states the cap and the usage, and a batch that fits is refused only when the
    usage could not be read.  Check itself stores no event. *)
Theorem cap_is_a_bound `{Hj : Jsonb} env oss err l now t events s sent plan s1 limit :
  ml_plans l = true -> ml_stats l = true -> t <> "" -> events <> [] -> Z.of_nat (length events) < 2 ^ 62 ->
  ls_GetTenantPlan (LimiterStores := pg_limiter_stores env oss err now) t s = (Ok plan, s1) ->
  effective_limit l plan = Some limit -> 0 < limit < 2 ^ 62 -> month_count now t (lb_audit s) <= limit ->
  let '(r, (s', _)) := Check (H := pg_limiter_stores env oss err now) l now t (Z.of_nat (length events)) (s, sent) in
  lb_audit s' = lb_audit s
  /\ (r = Ok tt -> forall tenant_exists ae, month_count now t (AppendBatchChained tenant_exists ae (lb_audit s') t events).2 <= limit)
  /\ (r <> Ok tt -> fails (env 1%nat) (CallRead 0) = true
        \/ (limit < month_count now t (lb_audit s) + Z.of_nat (length events)
            /\ r = Err (MonthlyLimitExceeded limit (month_count now t (lb_audit s)))
            /\ HTTPStatus (error_code (MonthlyLimitExceeded limit (month_count now t (lb_audit s)))) = 429)).
Proof.
  intros Hp Hst Ht He Hlen Hplan Hlim Hpos Hc.
  assert (0 < Z.of_nat (length events)) by (destruct events; [done|cbn; lia]).
  rw (Check_spec (H := pg_limiter_stores env oss err now)); [|done..]. rw Hplan Hlim.
  destruct (Z.leb_spec limit 0); [lia|]. pose proof (pg_plan_audit env oss err now t s) as Ha. rw Hplan in Ha. cbn in Ha.
  cbn [ls_CountEventsThisMonth pg_limiter_stores]. unfold CountEventsThisMonth.
  destruct (fails (env 1%nat) (CallRead 0)); [split_and!; [done|done|by left]|].
  cbv zeta. rw Ha. change (Z.of_nat (length (filter _ _))) with (month_count now t (lb_audit s)).
  assert (Hmc : 0 <= month_count now t (lb_audit s)) by (unfold month_count; lia).
  rw wrap64_id; [|unfold int64_min, int64_max; lia].
  set (P := fun x => lb_audit x = lb_audit s).
  assert (Hu : forall q x, P x -> P (ls_UpdateQuotaAlertSettings (LimiterStores := pg_limiter_stores env oss err now) t q x).2)
    by (intros q x Hx; unfold P; by rw pg_update_audit).
  pose proof (proj1 (notifies_keep (H := pg_limiter_stores env oss err now) l now t P (month_count now t (lb_audit s)) limit s1 sent Hu Ha)) as K1.
  destruct (maybeNotifyQuota _ _ _ _ _ _) as [s2 sent2]. cbn in K1.
  destruct (Z.ltb_spec limit (month_count now t (lb_audit s) + Z.of_nat (length events))).
  - pose proof (proj2 (notifies_keep (H := pg_limiter_stores env oss err now) l now t P
      (month_count now t (lb_audit s) + Z.of_nat (length events)) limit s2 sent2 Hu K1)) as K2.
    destruct (maybeNotifyQuotaExceeded _ _ _ _ _ _) as [s3 sent3]. split_and!; [exact K2|done|]. intros _. right. by split_and!.
  - split_and!; [exact K1| |done]. intros _ te ae. rw K1.
    pose proof (append_count te ae now t (lb_audit s) events). lia.
Qed.

Definition capped_tdb : TDB :=
  with_tenants [MkTenantRow "tnt_1" "Acme" 5 None "free" None None (JObj [("alert_email", JStr "ops@acme.test")])] sample_tdb.
Definition capped : LimiterDB := MkLimiterDB (MkShareDB [] capped_tdb) (MkDB [] 0).
Definition sample_limiter : MonthlyLimiter := MkLimiter true true true true true 1.
Definition sample_event (id : string) : AuditEvent :=
  MkEvent id "tnt_1" 0 (MkActor "a" "human" "") "x" (MkResource "r" "doc" "") "success" None "" "" 0.

Lemma cap_is_a_bound_witness :
  let stores := pg_limiter_stores (H := jsonb_plain) (fun _ => healthy) false "" 0 in
  (Check (H := stores) sample_limiter 0 "tnt_1" 1 (capped, [])).1 = Ok tt
  /\ (forall te ae, month_count 0 "tnt_1" (AppendBatchChained (Hj := jsonb_plain) te ae (MkDB [] 0) "tnt_1" [sample_event "e1"]).2 <= 1)
  /\ (Check (H := stores) sample_limiter 0 "tnt_1" 2 (capped, [])).1 = Err (MonthlyLimitExceeded 1 0).
Proof.
  intros stores. split; [vm_compute; reflexivity|]. split.
  - pose proof (cap_is_a_bound (Hj := jsonb_plain) (fun _ => healthy) false "" sample_limiter 0 "tnt_1" [sample_event "e1"] capped []
      (MkPlan "free" "Free" (Some 30) (Some 30000) None None "") capped 1 eq_refl eq_refl ltac:(discriminate) ltac:(discriminate)
      ltac:(cbn; lia) eq_refl eq_refl ltac:(lia) ltac:(vm_compute; discriminate)) as W.
    change (Z.of_nat (length [sample_event "e1"])) with 1 in W.
    assert (Hc : Check (H := stores) sample_limiter 0 "tnt_1" 1 (capped, []) = (Ok tt, (capped, []))) by (vm_compute; reflexivity).
    unfold stores in Hc. rw Hc in W. exact (proj1 (proj2 W) eq_refl).
  - vm_compute. reflexivity.
Defined.

(** * The mails *)

(** What the notifications of one tenant rely on its settings store for, in the month [m]: an update
    succeeds and is read back, and plan lookups leave the settings alone. *)
Class SettingsLaws {S} `{LimiterStores S} (t m : string) (Inv : S -> Prop) := {
  law_update s q level : Inv s -> ls_GetQuotaAlertSettings t s = Ok q -> 0 <= level <= 100 ->
    exists s', ls_UpdateQuotaAlertSettings t (MkQuotaAlert (qa_AlertEmail q) m level) s = (Ok tt, s') /\ Inv s'
      /\ ls_GetQuotaAlertSettings t s' = Ok (MkQuotaAlert (qa_AlertEmail q) m level);
  law_plan s : Inv s -> Inv (ls_GetTenantPlan t s).2
    /\ ls_GetQuotaAlertSettings t (ls_GetTenantPlan t s).2 = ls_GetQuotaAlertSettings t s
}.

Section Mails.
Context {S : Type} `{LimiterStores S} (l : MonthlyLimiter) (t m : string) (Inv : S -> Prop) `{!SettingsLaws t m Inv}.

(** The thresholds this month's record has not passed. *)
Definition levels_left (q : QuotaAlertSettings) : nat :=
  if bool_decide (qa_QuotaAlertMonth q = m) then
    if 100 <=? qa_QuotaAlertLevel q then 0%nat else if 83 <=? qa_QuotaAlertLevel q then 1%nat
    else if 66 <=? qa_QuotaAlertLevel q then 2%nat else 3%nat
  else 3%nat.
Definition mails_left (s : S) : nat :=
  match ls_GetQuotaAlertSettings t s with Ok q => levels_left q | Err _ => 0%nat end.

(** Each mail passes a threshold. *)
Definition thrifty (st st' : S * list QuotaMail) : Prop :=
  Inv st'.1 /\ (length st'.2 + mails_left st'.1 <= length st.2 + mails_left st.1)%nat.

Lemma thrifty_trans a b c : thrifty a b -> thrifty b c -> thrifty a c.
Proof. unfold thrifty. intros [_ H1] [H2 H3]. split; [done|lia]. Qed.

Lemma notify_at_thrifty now level used limit pct s sent :
  month_text now = m -> level = 66 \/ level = 83 \/ level = 100 -> Inv s ->
  thrifty (s, sent) (notify_at l now t level used limit pct (s, sent)).
Proof.
  intros Hm Hl Hs. unfold notify_at. destruct (ls_GetQuotaAlertSettings t s) as [q|e] eqn:Eq; [|by split].
  case_bool_decide; [by split|]. rw Hm. destruct (_ && _) eqn:Ed; [by split|].
  destruct (law_update s q level Hs Eq) as (s' & -> & Hs' & Hg); [lia|]. split; [done|].
  unfold mails_left. cbn [fst snd]. rw Eq Hg length_app. unfold levels_left. cbn [qa_QuotaAlertMonth qa_QuotaAlertLevel length].
  rw (bool_decide_eq_true_2 (m = m)); [|done]. case_bool_decide; cbn [andb] in Ed; repeat case_match; lia.
Qed.

Lemma quota_level_values used limit level : quota_level used limit = Some level -> level = 66 \/ level = 83 \/ level = 100.
Proof. unfold quota_level. repeat case_match; intros [= <-]; auto. Qed.

Lemma Check_thrifty now incoming s sent :
  month_text now = m -> Inv s -> thrifty (s, sent) (Check l now t incoming (s, sent)).2.
Proof.
  intros Hm Hs. unfold Check. destruct (_ || _); [by split|].
  destruct (law_plan s Hs) as [Hi Hg]. destruct (ls_GetTenantPlan t s) as [r s1]. cbn in Hi, Hg.
  assert (H1 : thrifty (s, sent) (s1, sent)) by (split; [done|]; unfold mails_left; cbn; by rw Hg).
  destruct r as [plan|e]; [|done]. destruct (effective_limit l plan) as [limit|]; [|done]. destruct (limit <=? 0); [done|].
  destruct (ls_CountEventsThisMonth t s1) as [used|e]; [|done].
  assert (H2 : thrifty (s1, sent) (maybeNotifyQuota l now t used limit (s1, sent))).
  { unfold maybeNotifyQuota. destruct (_ || _); [by split|]. destruct (quota_level used limit) as [lv|] eqn:El; [|by split].
    apply notify_at_thrifty; [done|by eapply quota_level_values|done]. }
  destruct (maybeNotifyQuota _ _ _ _ _ _) as [s2 sent2] eqn:E2. destruct (limit <? _); [|by eapply thrifty_trans].
  eapply thrifty_trans; [exact H1|]. eapply thrifty_trans; [exact H2|]. unfold maybeNotifyQuotaExceeded.
  cbn [snd]. destruct (_ || _); [split; [apply H2|done]|]. apply notify_at_thrifty; [done|auto|apply H2].
Qed.

(** A month of checks, one after the other. *)
Definition run_checks (reqs : list (Time * Z)) (st : S * list QuotaMail) : S * list QuotaMail :=
  fold_left (fun st r => (Check l r.1 t r.2 st).2) reqs st.

(** A tenant gets at most three quota mails a month.  Over any number of checks in
    one calendar month, one after the other, over a settings store that keeps what it is given, the mails sent
    number at most the thresholds (66, 83 and 100 percent) that the month's record has not passed
    yet, so never more than three. *)
Theorem quota_mails_bounded reqs s sent :
  Inv s -> Forall (fun r => month_text r.1 = m) reqs ->
  (length (run_checks reqs (s, sent)).2 <= length sent + mails_left s)%nat /\ (mails_left s <= 3)%nat.
Proof.
  intros Hs Hm. split.
  - assert (Ht : thrifty (s, sent) (run_checks reqs (s, sent))); [|destruct Ht as [_ Ht]; cbn in Ht; lia].
    revert s sent Hs. unfold run_checks. induction Hm as [|[now n] reqs Hr _ IH]; intros s sent Hs; [by split|]. cbn [fold_left fst snd].
    pose proof (Check_thrifty now n s sent Hr Hs) as Hc. destruct (Check l now t n (s, sent)).2 as [s1 sent1].
    eapply thrifty_trans; [exact Hc|]. apply IH, Hc.
  - unfold mails_left, levels_left. repeat case_match; lia.
Qed.
End Mails.

(** * The laws hold of the server's stores *)

Lemma settings_roundtrip s :
  forallb utf8_valid [ts_AlertWebhookURL s; ts_AlertEmail s; ts_QuotaAlertMonth s] = true ->
  int64_min <= ts_QuotaAlertLevel s <= int64_max ->
  (b ← marshal (settings_json s); decode b) = Some (settings_json s)
  /\ canonable (settings_json s) = true /\ settings_of_json (settings_json s) = s.
Proof.
  destruct s as [url email mo lv]. cbn [forallb ts_AlertWebhookURL ts_AlertEmail ts_QuotaAlertMonth ts_QuotaAlertLevel].
  intros Hs Hl. apply andb_prop in Hs as [H1 Hs]. apply andb_prop in Hs as [H2 Hs]. apply andb_prop in Hs as [H3 _].
  pose proof (parse_integer_pretty lv Hl) as Hi. pose proof (valid_int lv) as Hv. pose proof (canonable_int lv) as Hc.
  assert (Hw : json_wf (settings_json (MkSettings url email mo lv)) = true
    /\ numbers_ok (settings_json (MkSettings url email mo lv)) = true
    /\ canonable (settings_json (MkSettings url email mo lv)) = true
    /\ nesting (settings_json (MkSettings url email mo lv)) <= maxNestingDepth
    /\ settings_of_json (settings_json (MkSettings url email mo lv)) = MkSettings url email mo lv).
  { unfold settings_json, JInt in *. cbn [ts_AlertWebhookURL ts_AlertEmail ts_QuotaAlertMonth ts_QuotaAlertLevel].
    set (lit := pretty lv) in *. clearbody lit. unfold settings_of_json, is_empty.
    destruct (bool_decide_reflect (url = "")) as [->|_]; destruct (bool_decide_reflect (email = "")) as [->|_];
      destruct (bool_decide_reflect (mo = "")) as [->|_]; destruct (Z.eqb_spec lv 0) as [->|_];
      unfold omit; cbn [app members_of];
      (split; [cbn [json_wf forallb fst snd]; rw ?H1 ?H2 ?H3 ?Hv; reflexivity|]);
      (split; [cbn [numbers_ok forallb snd]; rw ?Hv; reflexivity|]);
      (split; [cbn [canonable forallb snd] in Hc |- *; rw ?Hc; reflexivity|]);
      (split; [unfold maxNestingDepth; cbn; lia|]); f_equal; try reflexivity;
      change (default 0 (parse_integer 64 lit) = lv); by rw Hi. }
  destruct Hw as (Hwf & Hn & Hca & Hne & Hr). split_and!; [|done|done].
  unfold marshal. rw Hn. cbn [mbind option_bind]. by apply decode_render.
Qed.

(** Some row has the id, and its settings are text. *)
Definition settings_text (t : string) (s : LimiterDB) : Prop :=
  exists row, head (filter (fun x => t_ID x = t) (d_tenants (sd_tenants (lb_share s)))) = Some row
    /\ forallb utf8_valid [ts_AlertWebhookURL (settings_of_json (t_Settings row)); ts_AlertEmail (settings_of_json (t_Settings row));
                           ts_QuotaAlertMonth (settings_of_json (t_Settings row))] = true.

Lemma head_filter_map t (f : TenantRow -> TenantRow) l :
  (forall x, t_ID (f x) = t_ID x) ->
  head (filter (fun x => t_ID x = t) (map f l)) = f <$> head (filter (fun x => t_ID x = t) l).
Proof.
  intros Hf. induction l as [|x l IH]; [done|]. cbn [map]. rw !filter_cons Hf. by case_decide.
Qed.

Section Pg.
Variables (oss : bool) (err : string) (now : Time) (t m : string).
Hypothesis Hm : utf8_valid m = true.
Local Abbreviation stores := (pg_limiter_stores (H := jsonb_plain) (fun _ => healthy) oss err now).

Lemma GetSettings_row s :
  GetSettings healthy t (lb_share s)
  = match head (filter (fun x => t_ID x = t) (d_tenants (sd_tenants (lb_share s)))) with
    | None => Err (Internal "loading tenant settings")
    | Some row => Ok (settings_of_json (t_Settings row))
    end.
Proof. done. Qed.

Lemma UpdateSettings_row q s row :
  forallb utf8_valid [ts_AlertWebhookURL q; ts_AlertEmail q; ts_QuotaAlertMonth q] = true ->
  int64_min <= ts_QuotaAlertLevel q <= int64_max ->
  head (filter (fun x => t_ID x = t) (d_tenants (sd_tenants s))) = Some row ->
  exists s', UpdateSettings (H := jsonb_plain) err healthy t q s = (Ok tt, s')
    /\ head (filter (fun x => t_ID x = t) (d_tenants (sd_tenants s'))) = Some (with_settings (settings_json q) row).
Proof.
  intros Hq Hl Hr. destruct (settings_roundtrip q Hq Hl) as (Hrt & Hc & _). unfold UpdateSettings. rw Hrt.
  change (fails healthy (CallWrite 0)) with false. cbn [mbind option_bind]. unfold jsonb, jsonb_plain. rw Hc.
  set (hit := fun x => bool_decide (t_ID x = t)). pose proof Hr as Hin.
  apply head_Some_elem_of, list_elem_of_filter in Hin as [Hid Hin].
  assert (existsb hit (d_tenants (sd_tenants s)) = true) as ->.
  { apply existsb_exists. exists row. split; [by apply list_elem_of_In|by apply bool_decide_eq_true_2]. }
  eexists. split; [done|]. cbn [sd_tenants with_tenants d_tenants].
  rw head_filter_map; [rw Hr; cbn; unfold hit; by rw bool_decide_eq_true_2|]. intros x. by case_bool_decide.
Qed.

Lemma pg_settings_laws : SettingsLaws (H := stores) t m (settings_text t).
Proof.
  split.
  - intros s q level (row & Hr & Ht) Hg Hl. cbn [ls_GetQuotaAlertSettings pg_limiter_stores] in Hg.
    unfold GetQuotaAlertSettings in Hg. rw GetSettings_row Hr in Hg. cbn [mbind result_bind] in Hg. injection Hg as <-.
    set (q' := MkSettings (ts_AlertWebhookURL (settings_of_json (t_Settings row))) (ts_AlertEmail (settings_of_json (t_Settings row))) m level).
    assert (Hq : forallb utf8_valid [ts_AlertWebhookURL q'; ts_AlertEmail q'; ts_QuotaAlertMonth q'] = true).
    { revert Ht. unfold q'. cbn [forallb ts_AlertWebhookURL ts_AlertEmail ts_QuotaAlertMonth]. rw Hm.
      intros [-> [-> _]%andb_prop]%andb_prop. done. }
    assert (Hlv : int64_min <= ts_QuotaAlertLevel q' <= int64_max) by (cbn; unfold int64_min, int64_max; lia).
    destruct (UpdateSettings_row q' (lb_share s) row Hq Hlv Hr) as (d' & Hu & Hr').
    exists (MkLimiterDB d' (lb_audit s)). cbn [ls_UpdateQuotaAlertSettings ls_GetQuotaAlertSettings pg_limiter_stores qa_AlertEmail].
    unfold on_share, UpdateQuotaAlertSettings. rw GetSettings_row Hr. cbn [qa_AlertEmail qa_QuotaAlertMonth qa_QuotaAlertLevel].
    fold q'. rw Hu. destruct (settings_roundtrip q' Hq Hlv) as (_ & _ & Hback). split_and!; [done| |].
    + exists (with_settings (settings_json q') row). cbn [lb_share t_Settings with_settings]. by rw Hback.
    + unfold GetQuotaAlertSettings. rw GetSettings_row. cbn [lb_share]. rw Hr'. cbn [t_Settings with_settings mbind result_bind]. by rw Hback.
  - intros s Hs. cbn [ls_GetTenantPlan ls_GetQuotaAlertSettings pg_limiter_stores]. unfold on_share.
    assert (Hd : exists f, d_tenants (GetTenantPlan healthy oss now t (sd_tenants (lb_share s))).2 = map f (d_tenants (sd_tenants (lb_share s)))
                           /\ (forall x, t_ID (f x) = t_ID x) /\ forall x, t_Settings (f x) = t_Settings x).
    { assert (Hid : exists f : TenantRow -> TenantRow, d_tenants (sd_tenants (lb_share s)) = map f (d_tenants (sd_tenants (lb_share s)))
          /\ (forall x, t_ID (f x) = t_ID x) /\ forall x, t_Settings (f x) = t_Settings x) by (exists id; by rw map_id).
      unfold GetTenantPlan. destruct oss; [exact Hid|]. cbn [fails healthy]. destruct (head _) as [[[p e] u]|]; [|exact Hid].
      destruct (_ && _); [|exact Hid]. match goal with |- context [if ?c then sd_tenants ?a else downgrade ?b ?d] => destruct c end.
      - destruct (head _); exact Hid.
      - destruct (head _); (eexists; split; [reflexivity|]; split; intros x; by case_decide). }
    destruct (GetTenantPlan _ _ _ _ _) as [r td]. cbn [snd] in Hd. destruct Hd as (f & Hf & Hfid & Hfs). split.
    + destruct Hs as (row & Hr & Ht). exists (f row). cbn [snd lb_share sd_tenants]. rw Hf head_filter_map; [|done]. rw Hr. by rw Hfs.
    + cbn [snd]. unfold GetQuotaAlertSettings. rw !GetSettings_row. cbn [lb_share sd_tenants]. rw Hf head_filter_map; [|done].
      destruct (head _) as [row|]; [|done]. cbn [fmap option_fmap option_map]. by rw Hfs.
Qed.
End Pg.

Lemma quota_mails_bounded_witness :
  let stores := pg_limiter_stores (H := jsonb_plain) (fun _ => healthy) false "" 0 in
  (length (run_checks (H := stores) sample_limiter "tnt_1" [(0%Z, 2%Z); (5%Z, 1%Z); (9%Z, 7%Z)] (capped, [])).2 <= 3)%nat
  /\ (run_checks (H := stores) sample_limiter "tnt_1" [(0%Z, 2%Z); (5%Z, 1%Z); (9%Z, 7%Z)] (capped, [])).2 = [MkMail "tnt_1" "Acme" 2 1 100].
Proof.
  intros stores. split; [|vm_compute; reflexivity].
  assert (Hs : settings_text "tnt_1" capped) by (eexists; split; [reflexivity|vm_compute; reflexivity]).
  assert (Hm : Forall (fun r : Time * Z => month_text r.1 = "1970-01") [(0%Z, 2%Z); (5%Z, 1%Z); (9%Z, 7%Z)]) by (repeat constructor).
  destruct (quota_mails_bounded (H := stores) sample_limiter "tnt_1" "1970-01" (settings_text "tnt_1")
    (SettingsLaws0 := pg_settings_laws false "" 0 "tnt_1" "1970-01" eq_refl) _ capped [] Hs Hm) as [W1 W2].
  cbn [length] in W1. lia.
Defined.
