(* ===== verification/AuditList.v ===== *)
(** The filtered listing of audit events: [buildAuditFilter] and [AuditStore.List]
    of storage/postgres/audit_store.go.

    A WHERE clause is the value of its argument, which the server may refuse, and
    the rows it keeps; the text of a JSON container under [->>] is the
    parameter [container_text].  Pages are taken from the rows in descending
    chain order.  The lemmas say what the listing selects, in which order, and how
    its pages tile it. *)
From S2P Require Import Prelude Errors GoTime Json JsonFacts Execution AuditModel AuditHash Postgres AuditStore AuditStoreFacts.
Import GoTime.
Local Open Scope Z_scope.

(** * LIKE *)

(** strings.HasSuffix(s, '*') with strings.TrimSuffix. *)
Fixpoint cut_star (s : string) : option string :=
  match s with
  | EmptyString => None
  | String c EmptyString => if is_char 42 c then Some EmptyString else None
  | String c s => String c <$> cut_star s
  end.

(** The replacer: a backslash before each backslash, percent sign and underscore. *)
Definition special (c : Ascii.ascii) : bool := is_char 92 c || is_char 37 c || is_char 95 c.
Fixpoint escape_like (s : string) : string :=
  match s with
  | EmptyString => EmptyString
  | String c s => if special c then String BS (String c (escape_like s)) else String c (escape_like s)
  end.

(** PostgreSQL's LIKE with its default escape character.  An unescaped underscore, which
    the code never sends, is taken to match one byte. *)
Fixpoint like (p s : string) {struct p} : bool :=
  match p with
  | EmptyString => bool_decide (s = EmptyString)
  | String c p' =>
      if is_char 37 c then
        (fix any (s : string) : bool :=
           like p' s || match s with EmptyString => false | String _ s => any s end) s
      else if is_char 95 c then match s with EmptyString => false | String _ s => like p' s end
      else if is_char 92 c then
        match p', s with
        | String d p'', String x s => bool_decide (d = x) && like p'' s
        | _, _ => false
        end
      else match s with EmptyString => false | String x s => bool_decide (c = x) && like p' s end
  end.

(** * The WHERE clauses *)

(** [->>]: NULL for a missing member and for a JSON null. *)
Definition json_text (container_text : json -> string) (v : json) : option string :=
  match v with
  | JNull => None
  | JBool b => Some (if b then "true" else "false")
  | JNum n => Some n
  | JStr s => Some s
  | v => Some (container_text v)
  end.

(** [metadata->>'session_id'] *)
Definition session_text (container_text : json -> string) (e : AuditEvent) : option string :=
  m ← ev_Metadata e; v ← field "session_id" m; json_text container_text v.

Record Clause := MkClause { cl_arg : bool; cl_keeps : AuditEvent -> bool }.
Definition text_clause (arg : string) (col : AuditEvent -> string) : Clause :=
  MkClause (text_ok arg) (fun e => bool_decide (col e = arg)).
Definition when (b : bool) (c : Clause) : list Clause := if b then [c] else [].

Definition session_clause (container_text : json -> string) (id : string) : Clause :=
  MkClause (text_ok id) (fun e =>
    bool_decide (session_text container_text e = Some id)
    || bool_decide (resource_Type (ev_Resource e) = "claude_code.session") && bool_decide (resource_ID (ev_Resource e) = id)).

Definition action_clause (action : string) : Clause :=
  match cut_star action with
  | Some prefix => let p := escape_like prefix +:+ "%" in MkClause (text_ok p) (fun e => like p (ev_Action e))
  | None => text_clause action ev_Action
  end.

Definition buildAuditFilter (container_text : json -> string) (tenantID : string) (f : Filter) : list Clause :=
  [text_clause tenantID ev_TenantID]
  ++ when (negb (is_empty (f_SessionID f))) (session_clause container_text (f_SessionID f))
  ++ when (negb (is_empty (f_ActorID f))) (text_clause (f_ActorID f) (fun e => actor_ID (ev_Actor e)))
  ++ when (negb (is_empty (f_ActorType f))) (text_clause (f_ActorType f) (fun e => actor_Type (ev_Actor e)))
  ++ when (negb (is_empty (f_Action f))) (action_clause (f_Action f))
  ++ when (negb (is_empty (f_ResourceID f))) (text_clause (f_ResourceID f) (fun e => resource_ID (ev_Resource e)))
  ++ when (negb (is_empty (f_Outcome f))) (text_clause (f_Outcome f) ev_Outcome)
  ++ when (negb (IsZero (f_From f))) (MkClause (pg_time_ok (f_From f)) (fun e => pg_ts (f_From f) <=? ev_Timestamp e))
  ++ when (negb (IsZero (f_To f))) (MkClause (pg_time_ok (f_To f)) (fun e => ev_Timestamp e <=? pg_ts (f_To f))).

Definition keeps (cs : list Clause) (e : AuditEvent) : bool := forallb (fun c => cl_keeps c e) cs.

(** * List *)

(** ORDER BY sequence_number DESC of the rows the clauses keep. *)
Definition listing (container_text : json -> string) (rows : list AuditEvent) (tenantID : string) (f : Filter) : list AuditEvent :=
  rev (order_by ev_SequenceNumber (filter (fun e => keeps (buildAuditFilter container_text tenantID f) e = true) rows)).

(** LIMIT and OFFSET.  A negative offset is an error the server raises while the rows are
    read; [rows.Err()] is not consulted, so it passes for an empty page. *)
Definition page (size offset : Z) (l : list AuditEvent) : list AuditEvent :=
  if offset <? 0 then [] else firstn (Z.to_nat size) (skipn (Z.to_nat offset) l).

(** A connection that breaks after [n] rows ([cut = Some n]) passes for a shorter page. *)
Definition List (container_text : json -> string) (env : Env) (cut : option nat) (db : DB) (tenantID : string) (f : Filter)
    : res (list AuditEvent * Z) :=
  let f := Filter_Normalise f in
  if fails env (CallRead 0) || negb (forallb cl_arg (buildAuditFilter container_text tenantID f))
  then Err (Internal "counting audit events")
  else
    let l := listing container_text (db_events db) tenantID f in
    if fails env (CallRead 1) then Err (Internal "listing audit events")
    else
      let p := page (f_PageSize f) (Filter_Offset f) l in
      Ok (match cut with None => p | Some n => firstn n p end, Z.of_nat (length l)).

Example like_samples :
  map (fun '(p, s) => like p s) [("agent.%", "agent.tool_call"); ("agent.%", "agents"); ("%a%b", "xxaxxb"); ("a\_b", "a_b"); ("a\_b", "axb"); ("%", "")]
  = [true; false; true; true; false; true]
  /\ escape_like "50%_off\" = "50\%\_off\\" /\ cut_star "agent.*" = Some "agent." /\ cut_star "a*b" = None.
Proof. vm_compute. done. Qed.

(** * What it selects *)


(** * Globs *)

Lemma cut_star_spec s p : cut_star s = Some p <-> s = p +:+ "*".
Proof.
  revert p. induction s as [|c s IH]; intros p; cbn [cut_star].
  - split; [done|]. destruct p; intros E; inversion E.
  - destruct s as [|d s].
    + unfold is_char. destruct (Z.eqb_spec (byte_val c) 42) as [E|E].
      * assert (c = byte_chr 42) as -> by (apply byte_val_inj; by rw E).
        split; [by intros [= <-]|]. destruct p as [|x p]; [done|]. rw str_cons_app. intros Hp. injection Hp as _ Hp. by destruct p.
      * split; [done|]. destruct p as [|x p]; [intros [= ->]; done|]. rw str_cons_app. intros Hp. injection Hp as _ Hp. by destruct p.
    + set (s' := String d s) in *. assert (Hne : s' <> "") by done. clearbody s'. split.
      * destruct (cut_star s') as [q|] eqn:E; [|done]. intros [= <-]. rw str_cons_app. f_equal. by apply IH.
      * destruct p as [|x p]; [|rw str_cons_app; intros [= -> Hp]; by rw (proj2 (IH p) Hp)].
        rw str_app_nil_l. by intros [= _ E].
Qed.

Lemma like_percent p s :
  like (String (byte_chr 37) p) s = like p s || match s with EmptyString => false | String _ s => like (String (byte_chr 37) p) s end.
Proof. by destruct s. Qed.

Lemma like_escape p s : like (escape_like p +:+ "%") s = has_prefix p s.
Proof.
  revert s. induction p as [|c p IH]; intros s.
  - assert (H : forall s, like "%" s = true).
    { clear s. change "%" with (String (byte_chr 37) ""). induction s as [|x s IHs]; [done|]. rw like_percent. by rw IHs orb_true_r. }
    rw str_app_nil_l H. by destruct s.
  - cbn [escape_like]. destruct (special c) eqn:Hs; rw !str_cons_app.
    + change (like (String BS (String c (escape_like p +:+ "%"))) s)
        with (match s with String x s => bool_decide (c = x) && like (escape_like p +:+ "%") s | _ => false end).
      destruct s as [|x s]; [done|]. rw IH. unfold has_prefix. cbn [String.prefix].
      destruct (Ascii.ascii_dec c x) as [->|Hne]; [by rw bool_decide_eq_true_2|by rw bool_decide_eq_false_2].
    + unfold special in Hs. apply orb_false_iff in Hs as [[H1 H2]%orb_false_iff H3].
      cbn [like]. rw H1 H2 H3. destruct s as [|x s]; [done|]. rw IH. unfold has_prefix. cbn [String.prefix].
      destruct (Ascii.ascii_dec c x) as [->|Hne]; [by rw bool_decide_eq_true_2|by rw bool_decide_eq_false_2].
Qed.

(** * What is selected *)

(** The pattern of an action filter: a trailing star is a wildcard, nothing else is. *)
Definition glob (pattern action : string) : Prop :=
  action = pattern \/ exists p u, pattern = p +:+ "*" /\ action = p +:+ u.

(** The rows a filter asks for. *)
Record wanted (container_text : json -> string) (t : string) (f : Filter) (e : AuditEvent) : Prop := {
  wt_tenant : ev_TenantID e = t;
  wt_session : f_SessionID f = "" \/ session_text container_text e = Some (f_SessionID f)
    \/ (resource_Type (ev_Resource e) = "claude_code.session" /\ resource_ID (ev_Resource e) = f_SessionID f);
  wt_actor : f_ActorID f = "" \/ actor_ID (ev_Actor e) = f_ActorID f;
  wt_actor_type : f_ActorType f = "" \/ actor_Type (ev_Actor e) = f_ActorType f;
  wt_action : f_Action f = "" \/ glob (f_Action f) (ev_Action e);
  wt_resource : f_ResourceID f = "" \/ resource_ID (ev_Resource e) = f_ResourceID f;
  wt_outcome : f_Outcome f = "" \/ ev_Outcome e = f_Outcome f;
  wt_from : IsZero (f_From f) = true \/ pg_ts (f_From f) <= ev_Timestamp e;
  wt_to : IsZero (f_To f) = true \/ ev_Timestamp e <= pg_ts (f_To f)
}.

Lemma action_clause_spec a e : cl_keeps (action_clause a) e = true <-> glob a (ev_Action e).
Proof.
  unfold action_clause, glob. destruct (cut_star a) as [p|] eqn:E; cbn [cl_keeps].
  - rw like_escape has_prefix_spec. apply cut_star_spec in E. split.
    + intros [u Hu]. right. by exists p, u.
    + intros [->|(q & u & Ha & Hu)]; [by exists "*"|]. exists u. rw Hu. f_equal.
      enough (Some q = Some p) as [= ->]; [done|]. transitivity (cut_star a); [symmetry|]; by apply cut_star_spec.
  - cbn. rw bool_decide_eq_true. split; [by left|]. intros [?|(q & u & Ha & _)]; [done|].
    apply cut_star_spec in Ha. congruence.
Qed.

Lemma keeps_app c d e : keeps (c ++ d) e = keeps c e && keeps d e.
Proof. unfold keeps. apply forallb_app. Qed.

Lemma keeps_when b c e : keeps (when b c) e = true <-> (b = false \/ cl_keeps c e = true).
Proof. destruct b; cbn; [rw andb_true_r|]; naive_solver. Qed.

Lemma keeps_text s col e : keeps (when (negb (is_empty s)) (text_clause s col)) e = true <-> (s = "" \/ col e = s).
Proof. rw keeps_when negb_false_iff. unfold is_empty. cbn. by rw !bool_decide_eq_true. Qed.

Lemma keeps_wanted ct t f e : keeps (buildAuditFilter ct t f) e = true <-> wanted ct t f e.
Proof.
  unfold buildAuditFilter. rw !keeps_app. rw !andb_true_iff. rw !keeps_text. rw !keeps_when. rw !negb_false_iff.
  rw action_clause_spec. unfold is_empty. rw !bool_decide_eq_true. cbn [cl_keeps session_clause].
  rw orb_true_iff andb_true_iff. rw !bool_decide_eq_true. rw !Z.leb_le.
  split.
  - intros ([H1 _] & H2 & H3 & H4 & H5 & H6 & H7 & H8 & H9). by split.
  - intros [H1 H2 H3 H4 H5 H6 H7 H8 H9]. split; [done|]. by split_and!.
Qed.

(** * The order and the pages *)

Lemma elem_of_rev {A} (x : A) l : x ∈ rev l <-> x ∈ l.
Proof. rw !list_elem_of_In. symmetry. apply in_rev. Qed.

Lemma elem_of_listing ct rows t f e : e ∈ listing ct rows t f <-> e ∈ rows /\ wanted ct t f e.
Proof. unfold listing. rw elem_of_rev elem_of_order_by list_elem_of_filter keeps_wanted. tauto. Qed.

(** Newest first. *)
Definition later_first (a b : AuditEvent) : Prop := ev_SequenceNumber b < ev_SequenceNumber a.

Lemma StronglySorted_rev {A} (R S : A -> A -> Prop) l :
  (forall a b, R a b -> S b a) -> StronglySorted R l -> StronglySorted S (rev l).
Proof.
  intros HRS. induction 1 as [|a l Hl IH Ha]; [constructor|]. cbn. apply StronglySorted_app_2; [|done|repeat constructor].
  intros x y Hx ->%list_elem_of_singleton. apply HRS. rw Forall_forall in Ha. apply Ha. by rw elem_of_rev in Hx.
Qed.

Lemma listing_sorted ct rows t f : NoDup (map seq_key rows) -> StronglySorted later_first (listing ct rows t f).
Proof.
  intros Hn. unfold listing. eapply StronglySorted_rev; [|apply sorted_le_lt; [apply order_by_sorted|]].
  - by intros a b.
  - rw (order_by_perm ev_SequenceNumber _). revert Hn. generalize rows. clear rows. intros rows Hn.
    assert (Hk : forall l : list AuditEvent, Forall (fun e => ev_TenantID e = t) l -> NoDup (map seq_key l) -> NoDup (map ev_SequenceNumber l)).
    { intros l Hf. induction Hf as [|x l Hx Hf IH]; [constructor|]. cbn. intros [Hni Hd]%NoDup_cons. constructor; [|by apply IH].
      intros (y & Hy & Hin)%list_elem_of_fmap. apply Hni. apply list_elem_of_fmap. exists y. split; [|done].
      unfold seq_key. rw Forall_forall in Hf. by rw Hx (Hf y Hin) Hy. }
    apply Hk.
    + apply Forall_forall. intros e [He _]%list_elem_of_filter. apply keeps_wanted in He. apply (wt_tenant _ _ _ _ He).
    + clear Hk. induction rows as [|x rows IH]; [constructor|]. cbn in Hn. apply NoDup_cons in Hn as [Hx Hn].
      rw filter_cons. case_decide; [|by apply IH]. cbn. constructor; [|by apply IH].
      intros (y & Hy & [_ Hin]%list_elem_of_filter)%list_elem_of_fmap. apply Hx. rw Hy. by apply list_elem_of_fmap_2.
Qed.

(** The first [k] pages of a size are the first entries of the listing. *)
Lemma pages_tile (l : list AuditEvent) size k :
  0 < size -> concat (map (fun i => page size (Z.of_nat i * size) l) (seq 0 k)) = firstn (k * Z.to_nat size) l.
Proof.
  intros Hs. induction k as [|k IH]; [done|]. rw seq_S map_app concat_app IH. cbn [map concat]. rw app_nil_r Nat.add_0_l.
  unfold page. destruct (Z.ltb_spec (Z.of_nat k * size) 0); [lia|].
  assert (Z.to_nat (Z.of_nat k * size) = k * Z.to_nat size)%nat as -> by nia.
  replace (S k * Z.to_nat size)%nat with (k * Z.to_nat size + Z.to_nat size)%nat by lia.
  by rw take_take_drop.
Qed.

Definition set_page (n size : Z) (f : Filter) : Filter :=
  MkFilter (f_SessionID f) (f_ActorID f) (f_ActorType f) (f_Action f) (f_ResourceID f) (f_Outcome f) (f_From f) (f_To f) n size.

(** The offset of the [i]th page does not overflow on any reachable page. *)
Lemma page_offset f i size : 0 < size -> Z.of_nat i * size < 2 ^ 62 -> Filter_Offset (set_page (Z.of_nat i + 1) size f) = Z.of_nat i * size.
Proof.
  intros Hs Hi. unfold Filter_Offset. cbn [f_Page f_PageSize set_page].
  rw (wrap64_id (Z.of_nat i + 1 - 1)); [|unfold int64_min, int64_max; nia].
  rw wrap64_id; [lia|unfold int64_min, int64_max; nia].
Qed.

(** Normalising the page leaves the selection alone. *)
Lemma wanted_normalise ct t f e : wanted ct t (Filter_Normalise f) e <-> wanted ct t f e.
Proof. split; intros [H1 H2 H3 H4 H5 H6 H7 H8 H9]; by split. Qed.

Lemma elem_of_firstn {A} (x : A) n l : x ∈ firstn n l -> x ∈ l.
Proof. intros (i & Hi & _)%elem_of_take. by eapply list_elem_of_lookup_2. Qed.
Lemma elem_of_page {e size offset l} : e ∈ page size offset l -> e ∈ l.
Proof.
  unfold page. destruct (offset <? 0); [by intros ?%not_elem_of_nil|]. intros He%elem_of_firstn.
  rw -(take_drop (Z.to_nat offset) l). apply elem_of_app. by right.
Qed.
