(* ===== verification/AuditHttp.v ===== *)
(** The audit HTTP surface: transport/rest/audit_handler.go with the response
    helpers of transport/rest/middleware.go.

    [Site] is everything a request can change: the tenants, share links and
    audit log behind the limiter, the ingest queue, the live subscribers, and the
    mails and chain alerts sent.  A handler is an [Auth.Handler] over it, so the
    middlewares of Auth.v compose with it.  The request body is an argument,
    already decoded ([None] when the decoder refuses it); the i-th store call of a
    request runs in [envs i].  The PDF and the evidence pack are documents of
    other libraries and are left out, with the SSE loop. *)
From S2P Require Import Prelude Errors GoTime Json JsonFacts Canonical CanonicalFacts AuditModel AuditHash TimeText Execution Redaction AuditService Postgres AuditStore AuditStoreFacts AuditWalk AuditServiceFacts AuditRepo Outbox Tenants KeyCache ShareLinks Auth Limits AuditList.
Import GoTime.
Local Open Scope Z_scope.

(** * Numbers of a query, and time.Parse(time.RFC3339, .) *)

Definition atoiOr (s : string) (d : Z) : Z := if is_empty s then d else default d (Atoi s).

(** One or two digits. *)
Definition short_digits (s : string) : option (Z * string) :=
  match fixed_digits 2 s with Some r => Some r | None => fixed_digits 1 s end.
(** A fraction the layout does not show: a point or a comma, then digits. *)
Definition loose_fraction (s : string) : Z * string :=
  match s with
  | String c r =>
      if is_char 46 c || is_char 44 c then
        match scan_digits r with
        | (EmptyString, _) => (0, s)
        | (d, r) => (dec (str_split 9 (d +:+ "000000000")).1, r)
        end
      else (0, s)
  | EmptyString => (0, s)
  end.
(** Offsets of 24 hours and 60 minutes pass. *)
Definition loose_offset (s : string) : option Z :=
  match s with
  | String c r =>
      if is_char 90 c then (if is_empty r then Some 0 else None)
      else if is_char 43 c || is_char 45 c then
        '(h, r) ← fixed_digits 2 r; r ← char_then 58 r; '(m, r) ← fixed_digits 2 r;
        if is_empty r && (h <=? 24) && (m <=? 60) then Some (if is_char 45 c then - (h * 60 + m) else h * 60 + m) else None
      else None
  | EmptyString => None
  end.
Definition parse_rfc3339 (s : string) : option Time :=
  '(y, s) ← fixed_digits 4 s; s ← char_then 45 s;
  '(mo, s) ← fixed_digits 2 s; s ← char_then 45 s;
  '(d, s) ← fixed_digits 2 s; s ← char_then 84 s;
  '(h, s) ← short_digits s; s ← char_then 58 s;
  '(mi, s) ← fixed_digits 2 s; s ← char_then 58 s;
  '(se, s) ← fixed_digits 2 s;
  let '(ns, s) := loose_fraction s in
  off ← loose_offset s;
  if (1 <=? mo) && (mo <=? 12) && (1 <=? d) && (d <=? days_in_month y mo) && (h <? 24) && (mi <? 60) && (se <? 60)
  then Some ((days_from_civil (y, mo, d) * 86400 + h * 3600 + mi * 60 + se) * Second + ns - off * Minute) else None.

Example parse_rfc3339_samples :
  map parse_rfc3339 ["2023-11-14T22:13:20Z"; "2023-11-14T9:13:20,5+00:00"; "2023-02-29T00:00:00Z"; "2023-11-14T22:13:20"]
  = [Some 1700000000000000000; Some 1699953200500000000; None; None]
  /\ map (fun s => atoiOr s 7) ["12"; "+3"; "-4"; "x"; ""; "9223372036854775808"] = [12; 3; -4; 7; 7; 7].
Proof. vm_compute. done. Qed.

(** * Responses *)

Definition writeJSON (status : Z) (data : option json) : Response := MkResponse status [json_type] data.
Definition writeError (status : Z) (message : string) : Response := writeJSON status (Some (error_body message)).

(** [Error.Message] of a domain error is the parameter [message]. *)
Definition writeAppError (message : AppError -> string) (e : AppError) : Response :=
  match e with
  | MonthlyLimitExceeded limit used =>
      writeJSON 429 (Some (JObj [("error", JStr "monthly_limit_exceeded"); ("limit", JInt limit); ("used", JInt used)]))
  | e => writeJSON (HTTPStatus (error_code e))
           (Some (JObj [("error", JObj [("code", JStr (code_string (error_code e))); ("message", JStr (message e))])]))
  end.

(** ** The values that are encoded *)

Fixpoint all_some {A} (l : list (option A)) : option (list A) :=
  match l with [] => Some [] | o :: l => x ← o; xs ← all_some l; Some (x :: xs) end.

(** A nil slice is null. *)
Definition nil_null (l : list json) : json := match l with [] => JNull | l => JArr l end.
Definition batchError_json (errText : AppError -> string) (b : BatchError) : json :=
  JObj [("index", JInt (Z.of_nat (bt_Index b))); ("code", JStr (bt_Code b)); ("message", JStr (errText (bt_Message b)))].
Definition batch_members (errText : AppError -> string) (ids : json) (b : BatchResult) : list member :=
  [("accepted", JInt (Z.of_nat (br_Accepted b))); ("rejected", JInt (Z.of_nat (br_Rejected b))); ("ids", ids)]
  ++ omit (match br_Errors b with [] => true | _ => false end) "errors" (JArr (map (batchError_json errText) (br_Errors b))).
Definition batchResult_json (errText : AppError -> string) (b : BatchResult) : json :=
  JObj (batch_members errText (nil_null (map JStr (br_IDs b))) b).
(** [stored]: the receipt was read back, so its ids are never a nil slice. *)
Definition asyncReceipt_json (errText : AppError -> string) (stored : bool) (r : AsyncReceipt) : option json :=
  created ← time_json (utc (ar_CreatedAt r));
  committed ← opt_member "committed_at" (fun t => time_json (utc t)) (ar_CommittedAt r);
  let ids := map JStr (br_IDs (ar_Batch r)) in
  Some (JObj ([("receipt_id", JStr (ar_ReceiptID r)); ("status", JStr (ar_Status r))]
              ++ batch_members errText (if stored then JArr ids else nil_null ids) (ar_Batch r)
              ++ omit (is_empty (ar_ErrorMessage r)) "error_message" (JStr (ar_ErrorMessage r))
              ++ [("created_at", created)] ++ committed)).

Definition brokenEvent_json (b : BrokenEvent) : option json :=
  ts ← time_json (utc (be_Timestamp b));
  Some (JObj [("event_id", JStr (be_EventID b)); ("sequence_number", JInt (be_SequenceNumber b)); ("timestamp", ts);
              ("action", JStr (be_Action b)); ("actor_id", JStr (be_ActorID b)); ("reason", JStr (be_Reason b))]).
(** The bounds are instants here; Go prints one that the client sent in the client's zone. *)
Definition verifyResult_json (r : VerifyResult) : option json :=
  from ← time_json (utc (vr_From r)); to ← time_json (utc (vr_To r));
  broken ← all_some (map brokenEvent_json (vr_AllBrokenEvents r));
  Some (JObj ([("valid", JBool (vr_Valid r)); ("tenant_id", JStr (vr_TenantID r));
               ("events_checked", JInt (Z.of_nat (vr_EventsChecked r))); ("root_hash", JStr (vr_RootHash r));
               ("from", from); ("to", to)]
              ++ omit (is_empty (vr_FirstBrokenEventID r)) "first_broken_event_id" (JStr (vr_FirstBrokenEventID r))
              ++ omit (is_empty (vr_Reason r)) "reason" (JStr (vr_Reason r))
              ++ omit (match broken with [] => true | _ => false end) "all_broken_events" (JArr broken)
              ++ omit (Nat.eqb (vr_BrokenCount r) 0) "broken_count" (JInt (Z.of_nat (vr_BrokenCount r))))).

(** A map: json.Marshal sorts its keys. *)
Definition listPage_json (events : list AuditEvent) (total page size : Z) : option json :=
  l ← all_some (map auditEvent_json events);
  Some (JObj [("events", nil_null l); ("page", JInt page); ("page_size", JInt size); ("total", JInt total)]).
Definition reanchored_json (e : AuditEvent) : json :=
  JObj [("meta_event_id", JStr (ev_ID e)); ("meta_event_seq", JInt (ev_SequenceNumber e)); ("status", JStr "reanchored")].

(** * The state and the request's event *)

(** The arguments of Alerter.ChainBreak. *)
Record ChainBreak := MkChainBreak { cb_TenantID : string; cb_Workspace : string; cb_BrokenCount : nat; cb_Reason : string }.
Record Site := MkSite {
  si_limits : LimiterDB; si_queue : ODB; si_subs : Subs; si_mails : list QuotaMail; si_breaks : list ChainBreak
}.
Definition si_audit (s : Site) : DB := lb_audit (si_limits s).
Definition si_share (s : Site) : ShareDB := lb_share (si_limits s).
Definition si_tenants (s : Site) : TDB := sd_tenants (si_share s).
Definition set_audit (db : DB) (s : Site) : Site :=
  MkSite (MkLimiterDB (si_share s) db) (si_queue s) (si_subs s) (si_mails s) (si_breaks s).
Definition tenant_known (s : Site) (t : string) : bool := bool_decide (t ∈ map t_ID (d_tenants (si_tenants s))).

Record wireEvent := MkWire {
  we_ID : string; we_Timestamp : option Time; we_Actor : Actor; we_Action : string; we_Resource : Resource;
  we_Outcome : string; we_Metadata : option metadata
}.
Definition toDomain (w : wireEvent) : AuditEvent :=
  MkEvent (we_ID w) "" (default zeroTime (we_Timestamp w)) (we_Actor w) (we_Action w) (we_Resource w) (we_Outcome w)
    (we_Metadata w) "" "" 0.

(** AuditHandlerConfig with what the service was built with. *)
Record AuditHandler := MkAuditHandler {
  ah_ossMode : bool; ah_asyncDefault : bool; ah_limiter : option MonthlyLimiter; ah_alerter : bool; ah_tenants : bool;
  ah_queue : bool;              (** an enqueuer and a receipt store are configured *)
  ah_serviceAsync : bool        (** Service.AsyncDefault *)
}.

(** * Handlers *)

Section Handlers.
Context `{Hj : Jsonb} (h : AuditHandler).
(** What a request draws: redaction is configured, its clocks and fresh ids, and its store calls. *)
Variable redactOn : bool.
Variable clock : nat -> Time.
Variable NewEventID : nat -> string.
Variable NewReceiptID : string.
Variables now dbnow : Time.
Variable envs : nat -> Env.
(** The cut of a listing's rows, and the texts of containers, errors and messages. *)
Variable cut : option nat.
Variable container_text : json -> string.
Variables errText message : AppError -> string.

(** ** The service's operations on a site *)

Definition repository (s : Site) : Repository DB := pg_repository (tenant_known s) (envs 0%nat).

Definition with_service {A} (s : Site) (r : A * DB * Subs) : A * Site :=
  let '(a, db, sb) := r in
  (a, MkSite (MkLimiterDB (si_share s) db) (si_queue s) sb (si_mails s) (si_breaks s)).
Definition svc_Log (t : string) (e : option AuditEvent) (s : Site) : res AuditEvent * Site :=
  with_service s (Log (Repository0 := repository s) redactOn clock NewEventID (si_audit s) (si_subs s) t e).
Definition svc_LogBatch (t : string) (l : list (option AuditEvent)) (s : Site) : res BatchResult * Site :=
  with_service s (LogBatch (Repository0 := repository s) redactOn clock NewEventID (si_audit s) (si_subs s) t l).
Definition svc_EnqueueBatch (t : string) (l : list (option AuditEvent)) (s : Site) : res AsyncReceipt * Site :=
  let enqueue q t id events v := Enqueue (tenant_known s) (envs 1%nat) dbnow t id events v q in
  let '(r, q) := EnqueueBatch redactOn clock NewEventID (if ah_queue h then Some enqueue else None) NewReceiptID (si_queue s) t l in
  (r, MkSite (si_limits s) q (si_subs s) (si_mails s) (si_breaks s)).
Definition svc_reanchor (r : res AuditEvent * DB) (s : Site) : res AuditEvent * Site := (r.1, set_audit r.2 s).

(** ** Ingest *)

Definition checkMonthlyLimit (t : string) (incoming : Z) (s : Site) : res unit * Site :=
  if ah_ossMode h then (Ok tt, s)
  else match ah_limiter h with
       | None => (Ok tt, s)
       | Some l =>
           let stores := pg_limiter_stores (fun i => envs (10 + i)%nat) (ah_ossMode h) "" now in
           let '(r, (db, mails)) := Check (H := stores) l now t incoming (si_limits s, si_mails s) in
           (r, MkSite db (si_queue s) (si_subs s) mails (si_breaks s))
       end.

Definition isSyncRequest (r : Request) : bool :=
  bool_decide (rq_Header r "X-Fact0-Sync" = "true") || bool_decide (rq_Query r "sync" = "true").
Definition useAsync (r : Request) : bool :=
  if ah_ossMode h then false else if isSyncRequest r then false else if ah_asyncDefault h then true else ah_serviceAsync h.

(** The caller's events after [prepareBatch], which fills in the valid ones through their pointers. *)
Fixpoint normalised (i : nat) (l : list (option AuditEvent)) : list (option AuditEvent) :=
  match l with
  | [] => []
  | e :: l =>
      match Validate e, e with
      | Ok _, Some e => Some (applyRedaction redactOn (applyDefaults clock NewEventID i e))
      | _, _ => e
      end :: normalised (S i) l
  end.
Definition after_enqueue (t : string) (l : list (option AuditEvent)) : list (option AuditEvent) :=
  if ah_queue h && is_ok (prepareBatch redactOn clock NewEventID t l) then normalised 0 l else l.

Definition enqueueBatch (t : string) (events : list (option AuditEvent)) (s : Site) : Response * Site :=
  match svc_EnqueueBatch t events s with
  | (Ok receipt, s) => (writeJSON 202 (asyncReceipt_json errText false receipt), s)
  | (Err _, s) =>
      match svc_LogBatch t (after_enqueue t events) s with
      | (Err e, s) => (writeAppError message e, s)
      | (Ok res, s) => (writeJSON 200 (Some (batchResult_json errText res)), s)
      end
  end.

Definition logEvent (body : option wireEvent) : Handler Site := fun r c s =>
  match body with
  | None => (writeError 400 "invalid request body", s)
  | Some w =>
      let t := TenantFromContext c in
      match checkMonthlyLimit t 1 s with
      | (Err e, s) => (writeAppError message e, s)
      | (Ok _, s) =>
          if useAsync r then enqueueBatch t [Some (toDomain w)] s
          else match svc_Log t (Some (toDomain w)) s with
               | (Err e, s) => (writeAppError message e, s)
               | (Ok out, s) => (writeJSON 201 (auditEvent_json out), s)
               end
      end
  end.

Definition logBatch (body : option (list wireEvent)) : Handler Site := fun r c s =>
  match body with
  | None => (writeError 400 "invalid request body", s)
  | Some ws =>
      let t := TenantFromContext c in
      let events := map (fun w => Some (toDomain w)) ws in
      match checkMonthlyLimit t (Z.of_nat (length events)) s with
      | (Err e, s) => (writeAppError message e, s)
      | (Ok _, s) =>
          if useAsync r then enqueueBatch t events s
          else match svc_LogBatch t events s with
               | (Err e, s) => (writeAppError message e, s)
               | (Ok res, s) => (writeJSON 200 (Some (batchResult_json errText res)), s)
               end
      end
  end.

(** MountWrite. *)
Definition post_event (body : option wireEvent) : Handler Site := RequireWrite (logEvent body).
Definition post_batch (body : option (list wireEvent)) : Handler Site := RequireWrite (logBatch body).

(** ** Reads *)

Definition getReceipt (id : string) : Handler Site := fun _ c s =>
  let r := if ah_queue h then GetReceipt (envs 0%nat) (TenantFromContext c) id (si_queue s) else Err (NotFound "ingest_receipt" id) in
  (match r with Err e => writeAppError message e | Ok r => writeJSON 200 (asyncReceipt_json errText true r) end, s).

Definition applyShareListFilter (c : Ctx) (from to : Time) : Time * Time :=
  match ShareFromContext c with
  | None => (from, to)
  | Some sc =>
      (match sc_From sc with Some f => if IsZero from || After f from then f else from | None => from end,
       match sc_To sc with Some t => if IsZero to || Before t to then t else to | None => to end)
  end.

(** A bound of the query: absent, a time, or unreadable. *)
Definition query_time (r : Request) (key : string) : option Time :=
  let v := rq_Query r key in if is_empty v then Some zeroTime else parse_rfc3339 v.

Definition request_filter (r : Request) : Filter :=
  MkFilter (rq_Query r "session_id") (rq_Query r "actor_id") (rq_Query r "actor_type") (rq_Query r "action")
    (rq_Query r "resource_id") (rq_Query r "outcome") zeroTime zeroTime
    (atoiOr (rq_Query r "page") 1) (atoiOr (rq_Query r "page_size") 50).
Definition set_range (range : Time * Time) (f : Filter) : Filter :=
  MkFilter (f_SessionID f) (f_ActorID f) (f_ActorType f) (f_Action f) (f_ResourceID f) (f_Outcome f) range.1 range.2
    (f_Page f) (f_PageSize f).

Definition listEvents : Handler Site := fun r c s =>
  match query_time r "from", query_time r "to" with
  | None, _ => (writeError 400 "from must be RFC3339", s)
  | _, None => (writeError 400 "to must be RFC3339", s)
  | Some from, Some to =>
      let f := set_range (applyShareListFilter c from to) (request_filter r) in
      (match List container_text (envs 0%nat) cut (si_audit s) (TenantFromContext c) f with
       | Err e => writeAppError message e
       | Ok (events, total) => writeJSON 200 (listPage_json events total (f_Page f) (f_PageSize f))
       end, s)
  end.

Definition getEvent (id : string) : Handler Site := fun _ c s =>
  (match AuditStore.Get (envs 0%nat) (si_audit s) (TenantFromContext c) id with
   | Err e => writeAppError message e
   | Ok e =>
       let outside := match ShareFromContext c with
                      | None => false
                      | Some sc => match sc_From sc with Some f => Before (ev_Timestamp e) f | None => false end
                                   || match sc_To sc with Some t => After (ev_Timestamp e) t | None => false end
                      end in
       if outside then writeError 404 "not found" else writeJSON 200 (auditEvent_json e)
   end, s).

(** ** Verification *)

Definition parseRange (r : Request) (c : Ctx) : string + Time * Time :=
  match query_time r "from", query_time r "to" with
  | None, _ => inl "from must be RFC3339"
  | _, None => inl "to must be RFC3339"
  | Some from, Some to => inr (MergeShareRange c from to)
  end.

Definition maybeAlertVerify (t : string) (res : VerifyResult) (s : Site) : Site :=
  if negb (ah_alerter h) || vr_Valid res then s
  else
    let first := vr_FirstBrokenEventID res in
    let broken := if Nat.eqb (vr_BrokenCount res) 0 && negb (is_empty first) then 1%nat else vr_BrokenCount res in
    let reason := if is_empty (vr_Reason res) && negb (is_empty first) then "first break at " +:+ first else vr_Reason res in
    let workspace :=
      if ah_tenants h then
        match GetTenant (envs 2%nat) t (si_tenants s) with
        | Ok tn => if negb (is_empty (tn_Name tn)) then tn_Name tn else t
        | Err _ => t
        end
      else t in
    MkSite (si_limits s) (si_queue s) (si_subs s) (si_mails s) (si_breaks s ++ [MkChainBreak t workspace broken reason]).

(** The answer of a verification; [None] never happens ([verify_answers]). *)
Definition answer_verify (t : string) (r : option (res VerifyResult)) (s : Site) : Response * Site :=
  match r with
  | None => (writeError 500 "internal server error", s)
  | Some (Err e) => (writeAppError message e, s)
  | Some (Ok res) => (writeJSON 200 (verifyResult_json res), maybeAlertVerify t res s)
  end.
Definition verify : Handler Site := fun r c s =>
  let t := TenantFromContext c in
  match parseRange r c with
  | inl msg => (writeError 400 msg, s)
  | inr (from, to) =>
      answer_verify t
        (if bool_decide (rq_Query r "scan_all" = "true")
         then VerifyDeep (Repository0 := repository s) (si_audit s) t from to
         else AuditService.Verify (Repository0 := repository s) (si_audit s) t from to) s
  end.
Definition verifyOne (id : string) : Handler Site := fun _ c s =>
  (match VerifyOne (Repository0 := repository s) (si_audit s) (TenantFromContext c) id with
   | Err e => writeAppError message e
   | Ok res => writeJSON 200 (verifyResult_json res)
   end, s).

(** ** Re-anchoring *)

Definition answer_reanchor (r : res AuditEvent * Site) : Response * Site :=
  match r with
  | (Err e, s) => (writeAppError message e, s)
  | (Ok e, s) => (writeJSON 200 (Some (reanchored_json e)), s)
  end.
Definition reanchorChain (body : option (string * string)) : Handler Site := fun _ c s =>
  match body with
  | None => (writeError 400 "invalid request body", s)
  | Some (first, reason) =>
      if is_empty first then (writeError 400 "first_broken_event_id required", s)
      else if is_empty reason then (writeError 400 "reason required", s)
      else answer_reanchor (svc_reanchor
             (ReanchorChain (Repository0 := repository s) clock NewEventID (si_audit s) (TenantFromContext c) first reason) s)
  end.
Definition reanchorAll (body : option string) : Handler Site := fun _ c s =>
  match body with
  | None => (writeError 400 "invalid request body", s)
  | Some reason =>
      if is_empty reason then (writeError 400 "reason required", s)
      else match ReanchorAll (Repository0 := repository s) clock NewEventID (si_audit s) (TenantFromContext c) reason with
           | None => (writeError 500 "internal server error", s)
           | Some r => answer_reanchor (svc_reanchor r s)
           end
  end.

(** ** Exports: the quota and the record of an export *)

(** The bounds are already formatted: [Format] keeps the zone the client wrote. *)
Definition export_event (c : Ctx) (from to : string) (outcome : string) : AuditEvent :=
  let '(id, type) := match principal c with Some p => (p_UserID p, ActorHuman) | None => ("system", ActorSystem) end in
  MkEvent "" "" zeroTime (MkActor id type "") "audit.export" (MkResource "evidence_pack" "compliance_pack" "Compliance Export")
    outcome (Some [("export_from", JStr from); ("export_to", JStr to)]) "" "" 0.
Definition logExportAudit (c : Ctx) (t : string) (from to : string) (outcome : string) (s : Site) : Site :=
  (svc_Log t (Some (export_event c from to outcome)) s).2.

Definition export_cap (plan : string) : option (string * Z) :=
  if bool_decide (plan = "free") then Some ("Free", 5) else if bool_decide (plan = "pro") then Some ("Pro", 50)
  else if bool_decide (plan = "team") then Some ("Team", 200) else None.
Definition export_message (name : string) (cap : Z) : string :=
  name +:+ " plan is limited to " +:+ pretty cap +:+ " evidence exports per month. Please upgrade your workspace to a higher plan to get more compliance pack downloads.".
(** The exports of the last thirty days against the plan's cap; any failure lets the export pass. *)
Definition checkExportLimit (t : string) (s : Site) : res unit * Site :=
  if ah_ossMode h || negb (ah_tenants h) then (Ok tt, s)
  else
    let '(r, td) := GetTenantPlan (envs 3%nat) (ah_ossMode h) now t (si_tenants s) in
    let s := MkSite (MkLimiterDB (MkShareDB (sd_links (si_share s)) td) (si_audit s)) (si_queue s) (si_subs s) (si_mails s) (si_breaks s) in
    (match r with
     | Err _ => Ok tt
     | Ok plan =>
         match export_cap (pl_ID plan) with
         | None => Ok tt
         | Some (name, cap) =>
             match List container_text (envs 4%nat) None (si_audit s) t
                     (MkFilter "" "" "" "audit.export" "" OutcomeSuccess (now - 30 * Day) zeroTime 0 1) with
             | Err _ => Ok tt
             | Ok (_, total) => if cap <=? total then Err (InvalidInput (export_message name cap)) else Ok tt
             end
         end
     end, s).
End Handlers.

(** * The ingestion routes of main.go *)

Definition site_tenants {A} (f : TDB -> A * TDB) (s : Site) : A * Site :=
  let '(a, td) := f (si_tenants s) in
  (a, MkSite (MkLimiterDB (MkShareDB (sd_links (si_share s)) td) (si_audit s)) (si_queue s) (si_subs s) (si_mails s) (si_breaks s)).
(** The key store over a site's tenant tables. *)
Definition site_keystore (env : Env) (dbnow : Time) : KeyStore Site :=
  let ks := pg_keystore env None dbnow in {|
    ks_CreateKey k := site_tenants (ks_CreateKey (KeyStore := ks) k);
    ks_GetKeyByID id := site_tenants (ks_GetKeyByID (KeyStore := ks) id);
    ks_ListKeys t := site_tenants (ks_ListKeys (KeyStore := ks) t);
    ks_RevokeKey t id := site_tenants (ks_RevokeKey (KeyStore := ks) t id);
    ks_RevokeAllKeys t := site_tenants (ks_RevokeAllKeys (KeyStore := ks) t)
  |}.
(** auth.APIKey in front of a MountWrite route; no rate limiter is configured. *)
Definition ingest_route (bcrypt_compare : string -> string -> bool) (env : Env) (dbnow : Time) (route : Handler Site) : Handler Site :=
  APIKey_mw (H := site_keystore env dbnow) bcrypt_compare route.
