(* ===== verification/AuditHttpProps.v ===== *)
(** The audit HTTP surface end to end: what a posted event does to the site, and
    what a listing answers. *)
From S2P Require Import Prelude Errors GoTime Json JsonFacts Canonical CanonicalFacts AuditModel AuditHash TimeText Execution Redaction AuditService Postgres AuditStore AuditStoreFacts AuditWalk AuditServiceFacts AuditIngest AuditRepo Outbox OutboxFacts Tenants TenantFacts TenantProps KeyCache ShareLinks Auth AuthFacts AuthProps Limits LimitProps AuditList AuditHttp.
Import GoTime.
Local Open Scope Z_scope.

Section Http.
Context `{Hj : Jsonb} `{Hspec : !JsonbSpec} (h : AuditHandler).
Variable redactOn : bool.
Variable clock : nat -> Time.
Variable NewEventID : nat -> string.
Variable NewReceiptID : string.
Variables now dbnow : Time.
Variable envs : nat -> Env.
Variables errText message : AppError -> string.

Definition site_chain (s : Site) (t : string) : list AuditEvent := chain (db_events (si_audit s)) t.
Definition site_linked (s : Site) : Prop := forall t, linked GenesisHash (site_chain s t).

(** A step on behalf of tenant [t]: chains stay linked, only [t]'s grows, only messages of [t] are queued. *)
Record acts_for (t : string) (s s' : Site) : Prop := {
  af_wf : db_wf (si_audit s');
  af_others : forall t', t' <> t -> site_chain s' t' = site_chain s t';
  af_grows : exists new, site_chain s' t = site_chain s t ++ new
               /\ linked (last_hash GenesisHash (site_chain s t)) new;
  af_queue : forall m, m ∈ o_outbox (si_queue s') -> m ∈ o_outbox (si_queue s) \/ ob_TenantID m = t;
  af_kept : forall m, m ∈ o_outbox (si_queue s) -> m ∈ o_outbox (si_queue s')
}.

Lemma acts_for_same t s s' :
  db_wf (si_audit s) -> si_audit s' = si_audit s -> si_queue s' = si_queue s -> acts_for t s s'.
Proof.
  intros Hw Ha Hq. split; rw ?Ha ?Hq; auto.
  - unfold site_chain. by rw Ha.
  - unfold site_chain. rw Ha. exists []. by rw app_nil_r.
Qed.

Lemma acts_for_linked t s s' : acts_for t s s' -> site_linked s -> site_linked s'.
Proof.
  intros [_ Ho (new & Hn & Hl) _ _] Hs t'. destruct (decide (t' = t)) as [-> |Hne]; [|by rw Ho].
  rw Hn. by apply linked_app.
Qed.

Lemma acts_for_trans t s1 s2 s3 : acts_for t s1 s2 -> acts_for t s2 s3 -> acts_for t s1 s3.
Proof.
  intros [A1 A2 (n1 & A3 & A4) A5 A6] [B1 B2 (n2 & B3 & B4) B5 B6]. split; [done|..].
  - intros t' Ht. by rw B2 // A2.
  - exists (n1 ++ n2). rw B3 A3 app_assoc. split; [done|]. apply linked_app. split; [done|].
    rw A3 in B4. unfold last_hash in *. rw last_app in B4. by destruct (last n1).
  - intros m Hm. destruct (B5 m Hm); [by apply A5|by right].
  - auto.
Qed.

(** ** The pieces of a request *)

Lemma limit_keeps t n s :
  let '(r, s') := checkMonthlyLimit h now envs t n s in
  si_audit s' = si_audit s /\ si_queue s' = si_queue s /\ si_subs s' = si_subs s.
Proof.
  unfold checkMonthlyLimit. destruct (ah_ossMode h) eqn:Ho; [done|]. destruct (ah_limiter h) as [l|]; [|done].
  pose proof (Check_keeps_audit (fun i => envs (10 + i)%nat) false "" l now t n (si_limits s) (si_mails s)) as Hc.
  destruct (Check _ _ _ _ _) as [r [db mails]]. cbn in Hc |- *. by split_and!.
Qed.
Local Abbreviation spec s := (pg_spec (tenant_known s) (envs 0%nat)).

Lemma svc_Log_acts t e s :
  db_wf (si_audit s) -> (forall x, e = Some x -> md_ok x = true) ->
  let '(r, s') := svc_Log redactOn clock NewEventID envs t e s in
  acts_for t s s' /\ si_queue s' = si_queue s
  /\ forall out, r = Ok out -> ev_ID out ∈ map ev_ID (site_chain s' t).
Proof.
  intros Hw Hm. unfold svc_Log, repository.
  pose proof (Log_extends (H0 := spec s) redactOn clock NewEventID (si_audit s) (si_subs s) t e Hw Hm) as He.
  destruct (Log _ _ _ _ _ _ _) as [[r db] sb]. cbn. destruct He as ((E1 & E2 & E3) & Hr & _). split_and!; [|done|].
  - split; [exact E1|exact E2|exact E3|by left|done].
  - intros out ->. by destruct Hr.
Qed.

Lemma svc_LogBatch_acts t l s :
  db_wf (si_audit s) -> Forall (fun o => forall x, o = Some x -> md_ok x = true) l ->
  let '(r, s') := svc_LogBatch redactOn clock NewEventID envs t l s in
  acts_for t s s' /\ si_queue s' = si_queue s
  /\ forall b, r = Ok b -> (br_Accepted b + br_Rejected b = length l)%nat
       /\ Forall (fun id => id ∈ map ev_ID (site_chain s' t)) (br_IDs b).
Proof.
  intros Hw Hm. unfold svc_LogBatch, repository.
  pose proof (LogBatch_extends (H0 := spec s) redactOn clock NewEventID (si_audit s) (si_subs s) t l Hw Hm) as He.
  destruct (LogBatch _ _ _ _ _ _ _) as [[r db] sb]. cbn. destruct He as ((E1 & E2 & E3) & Hr). split_and!; [|done|].
  - split; [exact E1|exact E2|exact E3|by left|done].
  - intros b ->. by destruct Hr as (? & _ & ?).
Qed.

(** A receipt that is answered names a message in the queue, unless every event was rejected. *)
Lemma svc_EnqueueBatch_acts t l s :
  db_wf (si_audit s) ->
  let '(r, s') := svc_EnqueueBatch h redactOn clock NewEventID NewReceiptID dbnow envs t l s in
  acts_for t s s' /\ si_audit s' = si_audit s
  /\ forall rc, r = Ok rc -> ar_ReceiptID rc = NewReceiptID
       /\ ((exists m, m ∈ o_outbox (si_queue s') /\ ob_TenantID m = t /\ ob_ReceiptID m = NewReceiptID)
           \/ Forall (fun o => is_ok (Validate o) = false) l).
Proof.
  intros Hw. unfold svc_EnqueueBatch, EnqueueBatch. destruct (ah_queue h).
  2:{ split_and!; [by apply acts_for_same|done|done]. }
  destruct (prepareBatch _ _ _ t l) as [[v valid]|e] eqn:Hp.
  2:{ split_and!; [by apply acts_for_same|done|done]. }
  destruct valid as [|e es].
  { split_and!; [by apply acts_for_same|done|]. intros rc [= <-]. split; [done|right]. by apply (prepareBatch_none _ _ _ _ _ _ Hp). }
  set (v' := MkBatchResult _ _ _ _).
  pose proof (Enqueue_effect (tenant_known s) (envs 1%nat) dbnow t NewReceiptID (e :: es) v' (si_queue s)) as He.
  destruct (Enqueue _ _ _ _ _ _ _ _) as [[[]|err] q].
  - destruct He as [[_ ?]|(payload & w & _ & _ & _ & _ & Hq)]; [done|]. split_and!; [|done|].
    + split; cbn; [done|done|exists []; by rw app_nil_r| |]; rw Hq; cbn; intros m; rw elem_of_app; [|by left].
      intros [?| ->%list_elem_of_singleton]; [by left|by right].
    + intros rc [= <-]. split; [done|left]. eexists. split; [cbn; rw Hq; cbn; apply elem_of_app; right; by left|done].
  - destruct He as [[Hq _]|(payload & w & _ & _ & _ & _ & Hq)]; (split_and!; [|done|done]); split; cbn; rw ?Hq; cbn; try done.
    + exists []. by rw app_nil_r.
    + by left.
    + exists []. by rw app_nil_r.
    + intros m. rw elem_of_app. intros [?| ->%list_elem_of_singleton]; [by left|by right].
    + intros m. rw elem_of_app. by left.
Qed.

(** ** The routes *)

Lemma normalised_md i l :
  Forall (fun o => forall x, o = Some x -> md_ok x = true) l ->
  Forall (fun o => forall x, o = Some x -> md_ok x = true) (normalised redactOn clock NewEventID i l).
Proof.
  intros Hl. revert i. induction Hl as [|o l Ho Hl IH]; intros i; cbn; constructor; [|by apply IH].
  destruct o as [e|]; [|by destruct (Validate _)]. destruct (Validate (Some e)); [|exact Ho].
  intros x [= <-]. by apply applyRedaction_md, applyDefaults_md, Ho.
Qed.
Lemma normalised_length i l : length (normalised redactOn clock NewEventID i l) = length l.
Proof. revert i. induction l as [|o l IH]; intros i; cbn; [done|]. by rw IH. Qed.
Lemma after_enqueue_length t l : length (after_enqueue h redactOn clock NewEventID t l) = length l.
Proof. unfold after_enqueue. destruct (_ && _); [apply normalised_length|done]. Qed.

Lemma writeAppError_status e : 400 <= rs_Status (writeAppError message e).
Proof. by destruct e. Qed.

(** What the three successes of an ingestion route promise about the tenant and its [n] events. *)
Record ingest_answer (t : string) (l : list (option AuditEvent)) (resp : Response) (s' : Site) : Prop := {
  ia_created : rs_Status resp = 201 ->
    exists e, rs_Body resp = auditEvent_json e /\ ev_ID e ∈ map ev_ID (site_chain s' t);
  ia_queued : rs_Status resp = 202 ->
    (exists m, m ∈ o_outbox (si_queue s') /\ ob_TenantID m = t /\ ob_ReceiptID m = NewReceiptID)
    \/ Forall (fun o => is_ok (Validate o) = false) l;
  ia_done : rs_Status resp = 200 ->
    exists b, rs_Body resp = Some (batchResult_json errText b) /\ (br_Accepted b + br_Rejected b = length l)%nat
      /\ Forall (fun id => id ∈ map ev_ID (site_chain s' t)) (br_IDs b)
}.

Lemma ingest_answer_error t l resp s' : 400 <= rs_Status resp -> ingest_answer t l resp s'.
Proof. intros H. split; intros E; rw E in H; lia. Qed.
Lemma ingest_answer_app t l e s' : ingest_answer t l (writeAppError message e) s'.
Proof. apply ingest_answer_error, writeAppError_status. Qed.

Local Abbreviation mds l := (Forall (fun o => forall x, o = Some x -> md_ok x = true) l).

Lemma batch_lands t l s : db_wf (si_audit s) -> mds l ->
  let '(resp, s') := match svc_LogBatch redactOn clock NewEventID envs t l s with
                     | (Err e, s) => (writeAppError message e, s)
                     | (Ok res, s) => (writeJSON 200 (Some (batchResult_json errText res)), s)
                     end in acts_for t s s' /\ ingest_answer t l resp s'.
Proof.
  intros Hw Hm. pose proof (svc_LogBatch_acts t l s Hw Hm) as Hb.
  destruct (svc_LogBatch _ _ _ _ _ _ s) as [[b|e] s']; destruct Hb as (Ha & _ & Hb); (split; [done|]); [|apply ingest_answer_app].
  split; [done|done|]. intros _. exists b. split; [done|]. by apply Hb.
Qed.

Lemma enqueue_lands t l s : db_wf (si_audit s) -> mds l ->
  let '(resp, s') := enqueueBatch h redactOn clock NewEventID NewReceiptID dbnow envs errText message t l s in
  acts_for t s s' /\ ingest_answer t l resp s'.
Proof.
  intros Hw Hm. unfold enqueueBatch. pose proof (svc_EnqueueBatch_acts t l s Hw) as He.
  destruct (svc_EnqueueBatch _ _ _ _ _ _ _ _ _ s) as [[rc|e] s1]; destruct He as (Ha & Hs & He).
  - split; [done|]. split; [done| |done]. intros _. by apply (He rc).
  - assert (Hm' : mds (after_enqueue h redactOn clock NewEventID t l)).
    { unfold after_enqueue. destruct (_ && _); [by apply normalised_md|done]. }
    assert (Hw1 : db_wf (si_audit s1)) by (by rw Hs).
    pose proof (batch_lands t _ s1 Hw1 Hm') as Hb. destruct (svc_LogBatch _ _ _ _ _ _ s1) as [[b|e'] s2];
      destruct Hb as [Hb1 Hb2]; (split; [by eapply acts_for_trans|]); [|apply ingest_answer_app].
    destruct Hb2 as [B1 B2 B3]. split; [done|done|]. by rw -(after_enqueue_length t l).
Qed.

Lemma logEvent_lands body r c s :
  db_wf (si_audit s) -> (forall w, body = Some w -> md_ok (toDomain w) = true) ->
  let '(resp, s') := logEvent h redactOn clock NewEventID NewReceiptID now dbnow envs errText message body r c s in
  acts_for (TenantFromContext c) s s' /\ ingest_answer (TenantFromContext c) (option_list (Some <$> (toDomain <$> body))) resp s'.
Proof.
  intros Hw Hm. unfold logEvent. destruct body as [w|]; [|split; [by apply acts_for_same|by apply ingest_answer_error]].
  set (t := TenantFromContext c). pose proof (limit_keeps t 1 s) as Hk.
  destruct (checkMonthlyLimit _ _ _ t 1 s) as [[u|e] s1]; destruct Hk as (Ka & Kq & _);
    [|split; [by apply acts_for_same|by apply ingest_answer_app]].
  assert (Hw1 : db_wf (si_audit s1)) by (by rw Ka). assert (H1 : acts_for t s s1) by (by apply acts_for_same).
  assert (Hmd : md_ok (toDomain w) = true) by auto. destruct (useAsync h r).
  - assert (Hmm : mds [Some (toDomain w)]) by (repeat constructor; by intros x [= <-]).
    pose proof (enqueue_lands t _ s1 Hw1 Hmm) as He. destruct (enqueueBatch _ _ _ _ _ _ _ _ _ _ _ s1) as [resp s2].
    destruct He. split; [by eapply acts_for_trans|done].
  - assert (Hmm : forall x, Some (toDomain w) = Some x -> md_ok x = true) by (by intros x [= <-]).
    pose proof (svc_Log_acts t (Some (toDomain w)) s1 Hw1 Hmm) as Hl. destruct (svc_Log _ _ _ _ _ _ s1) as [[out|e] s2];
      destruct Hl as (Ha & _ & Ho); (split; [by eapply acts_for_trans|]); [|apply ingest_answer_app].
    split; [|done|done]. intros _. exists out. split; [done|]. by apply Ho.
Qed.

Lemma logBatch_lands body r c s :
  db_wf (si_audit s) -> (forall ws, body = Some ws -> Forall (fun w => md_ok (toDomain w) = true) ws) ->
  let '(resp, s') := logBatch h redactOn clock NewEventID NewReceiptID now dbnow envs errText message body r c s in
  acts_for (TenantFromContext c) s s'
  /\ ingest_answer (TenantFromContext c) (map (fun w => Some (toDomain w)) (default [] body)) resp s'.
Proof.
  intros Hw Hm. unfold logBatch. destruct body as [ws|]; [|split; [by apply acts_for_same|by apply ingest_answer_error]].
  set (t := TenantFromContext c). cbn [default from_option]. unfold id. set (l := map _ ws).
  pose proof (limit_keeps t (Z.of_nat (length l)) s) as Hk.
  destruct (checkMonthlyLimit _ _ _ t _ s) as [[u|e] s1]; destruct Hk as (Ka & Kq & _);
    [|split; [by apply acts_for_same|by apply ingest_answer_app]].
  assert (Hw1 : db_wf (si_audit s1)) by (by rw Ka). assert (H1 : acts_for t s s1) by (by apply acts_for_same).
  assert (Hmd : mds l).
  { apply Forall_forall. intros o (w & -> & Hin)%list_elem_of_fmap x [= <-]. specialize (Hm ws eq_refl).
    rw Forall_forall in Hm. by apply Hm. }
  destruct (useAsync h r).
  - pose proof (enqueue_lands t _ s1 Hw1 Hmd) as He. destruct (enqueueBatch _ _ _ _ _ _ _ _ _ _ _ s1) as [resp s2].
    destruct He. split; [by eapply acts_for_trans|done].
  - pose proof (batch_lands t _ s1 Hw1 Hmd) as Hl. destruct (svc_LogBatch _ _ _ _ _ _ s1) as [[b|e] s2]; destruct Hl as [Ha Hi];
      (split; [by eapply acts_for_trans|exact Hi]).
Qed.

(** Behind APIKey and RequireWrite, over a store whose reads change nothing: a request is stopped, or
    runs the handler for the tenant of a write key it presents. *)
Lemma write_route_cases {S} `{KeyStore S} (keys : S -> list AuditModel.APIKey) bcrypt_compare next r c s :
  (forall id k s', ks_GetKeyByID id s = (Ok k, s') -> k_ID k = id /\ k ∈ keys s) ->
  (forall id k s', ks_GetKeyByID id s = (k, s') -> s' = s) ->
  (exists resp, rs_Status resp ∈ [401; 403] /\ APIKey_mw bcrypt_compare (RequireWrite next) r c s = (resp, s))
  \/ exists k, k ∈ keys s /\ presents bcrypt_compare r k /\ k_Scope k = ScopeWrite
       /\ APIKey_mw bcrypt_compare (RequireWrite next) r c s = next r (WithTenant c (k_TenantID k) (k_Scope k) (k_ID k)) s.
Proof.
  intros Hid Hsame. destruct (APIKey_mw_cases bcrypt_compare r c s) as [(msg & s' & Hn)|(k & s' & Hk & Hp & Hn)].
  - intros id k s' Hk. by apply Hid in Hk as [? _].
  - left. rw Hn. exists (writeUnauthorized msg). split; [cbn; set_solver|]. f_equal.
    apply (APIKey_refusal_keeps _ _ _ _ _ _ Hsame Hn).
  - pose proof (Hsame _ _ _ Hk) as ->. apply Hid in Hk as [_ Hk].
    rw Hn. unfold RequireWrite. cbn [ScopeFromContext cx_Scope WithTenant default].
    unfold Scope_CanWrite. cbn. destruct (decide (k_Scope k = ScopeWrite)) as [Hs|Hs].
    + right. exists k. rw bool_decide_eq_true_2; [|done]. done.
    + left. rw bool_decide_eq_false_2; [|done]. cbn. eexists. split; [|reflexivity]. cbn. set_solver.
Qed.
Lemma site_key_read env id s k s' : ks_GetKeyByID (KeyStore := site_keystore env dbnow) id s = (k, s') ->
  s' = s /\ forall x, k = Ok x -> k_ID x = id /\ x ∈ d_keys (si_tenants s).
Proof.
  destruct s as [[[ln td] au] q sb m b]. cbn. unfold site_tenants. cbn. intros [= <- <-]. split; [done|]. intros x Hk.
  unfold GetKeyByID in Hk. destruct (fails env _); [done|]. destruct (head _) as [y|] eqn:E; [|done]. injection Hk as ->.
  by apply head_Some_elem_of, list_elem_of_filter in E as [? ?].
Qed.
Lemma ingest_route_cases bcrypt_compare env next r c s :
  (exists resp, rs_Status resp ∈ [401; 403] /\ ingest_route bcrypt_compare env dbnow (RequireWrite next) r c s = (resp, s))
  \/ exists k, k ∈ d_keys (si_tenants s) /\ presents bcrypt_compare r k /\ k_Scope k = ScopeWrite
       /\ ingest_route bcrypt_compare env dbnow (RequireWrite next) r c s
          = next r (WithTenant c (k_TenantID k) (k_Scope k) (k_ID k)) s.
Proof.
  apply (write_route_cases (H := site_keystore env dbnow) (fun s => d_keys (si_tenants s))).
  - intros id k s' [_ Hk]%site_key_read. by apply Hk.
  - by intros id k s' [-> _]%site_key_read.
Qed.

(** C30: a posted event lands in its own tenant's chain or nowhere.  On a site whose chains are linked,
    a request to POST /v1/events or /v1/events/batch, whatever its body and whichever calls fail,
    leaves every chain linked.  Either it is answered 401 or 403 and nothing changes, or it presents a
    stored, unrevoked key with write scope and only that key's tenant gains rows and messages; and then a
    201 names an event of that chain, a 200 accounts for every event of the batch and lists ids of that
    chain, and a 202 names a receipt whose message is queued, unless every event was invalid. *)
Theorem posted_events_land bcrypt_compare env r c s ev batch :
  db_wf (si_audit s) -> site_linked s ->
  (forall w, ev = Some w -> md_ok (toDomain w) = true) ->
  (forall ws, batch = Some ws -> Forall (fun w => md_ok (toDomain w) = true) ws) ->
  let lands route l :=
    let '(resp, s') := ingest_route bcrypt_compare env dbnow route r c s in
    site_linked s'
    /\ ((s' = s /\ rs_Status resp ∈ [401; 403])
        \/ exists k, k ∈ d_keys (si_tenants s) /\ presents bcrypt_compare r k /\ k_Scope k = ScopeWrite
             /\ acts_for (k_TenantID k) s s' /\ ingest_answer (k_TenantID k) l resp s') in
  lands (post_event h redactOn clock NewEventID NewReceiptID now dbnow envs errText message ev)
    (option_list (Some <$> (toDomain <$> ev)))
  /\ lands (post_batch h redactOn clock NewEventID NewReceiptID now dbnow envs errText message batch)
    (map (fun w => Some (toDomain w)) (default [] batch)).
Proof.
  intros Hw Hl He Hb. cbv zeta. split; unfold post_event, post_batch.
  - destruct (ingest_route_cases bcrypt_compare env (logEvent h redactOn clock NewEventID NewReceiptID now dbnow envs errText message ev) r c s)
      as [(resp & Hs & ->)|(k & Hk & Hp & Hsc & ->)]; [by split; [|left]|].
    pose proof (logEvent_lands ev r (WithTenant c (k_TenantID k) (k_Scope k) (k_ID k)) s Hw He) as H.
    destruct (logEvent _ _ _ _ _ _ _ _ _ _ _ _ _ s) as [resp s']. destruct H as [Ha Hi].
    split; [by eapply acts_for_linked|right; by exists k].
  - destruct (ingest_route_cases bcrypt_compare env (logBatch h redactOn clock NewEventID NewReceiptID now dbnow envs errText message batch) r c s)
      as [(resp & Hs & ->)|(k & Hk & Hp & Hsc & ->)]; [by split; [|left]|].
    pose proof (logBatch_lands batch r (WithTenant c (k_TenantID k) (k_Scope k) (k_ID k)) s Hw Hb) as H.
    destruct (logBatch _ _ _ _ _ _ _ _ _ _ _ _ _ s) as [resp s']. destruct H as [Ha Hi].
    split; [by eapply acts_for_linked|right; by exists k].
Qed.
End Http.

(** ** A site with one key *)

Definition sample_site : Site := MkSite (MkLimiterDB (MkShareDB [] minted_tdb) (MkDB [] 0)) (MkODB [] []) (MkSubs [] 0) [] [].
Definition sample_handler : AuditHandler := MkAuditHandler false true None false true true true.
Definition sample_wire : wireEvent :=
  MkWire "evt_1" (Some 1700000000000000000) (MkActor "u1" "human" "") "doc.read" (MkResource "d1" "doc" "") "success" None.
Definition sample_post (async : bool) : Request :=
  MkRequest (fun k => if decide (k = "Authorization") then "Bearer " +:+ sample_token
                      else if decide (k = "X-Fact0-Sync") then (if async then "" else "true") else "") (fun _ => "").
Definition no_text (_ : AppError) : string := "".

Lemma sample_site_wf : db_wf (si_audit sample_site) /\ site_linked sample_site.
Proof. split; [split; [done|constructor..]|]. by intros t. Qed.

Lemma posted_events_land_witness :
  let route := post_event (Hj := jsonb_plain) sample_handler true (fun _ => 0) (fun _ => "evt_9") "rcpt_1" 0 0 (fun _ => healthy) no_text no_text (Some sample_wire) in
  (let '(resp, s') := ingest_route toy_compare healthy 0 route (sample_post false) background sample_site in
   site_linked s'
   /\ ((s' = sample_site /\ rs_Status resp ∈ [401; 403])
       \/ exists k, k ∈ d_keys (si_tenants sample_site) /\ presents toy_compare (sample_post false) k /\ k_Scope k = ScopeWrite
            /\ acts_for (k_TenantID k) sample_site s' /\ ingest_answer "rcpt_1" no_text (k_TenantID k) [Some (toDomain sample_wire)] resp s'))
  /\ (let '(resp, s') := ingest_route toy_compare healthy 0 route (sample_post true) background sample_site in
      rs_Status resp = 202 /\ map ob_TenantID (o_outbox (si_queue s')) = ["tnt_1"]).
Proof.
  intros route. split; [|vm_compute; split; reflexivity].
  exact (proj1 (posted_events_land (Hj := jsonb_plain) (Hspec := jsonb_plain_spec) sample_handler true (fun _ => 0) (fun _ => "evt_9") "rcpt_1" 0 0
    (fun _ => healthy) no_text no_text toy_compare healthy (sample_post false) background sample_site (Some sample_wire) None
    (proj1 sample_site_wf) (proj2 sample_site_wf) ltac:(intros w [= <-]; reflexivity) ltac:(intros ws E; discriminate E))).
Defined.

(** * Listings *)

Section Listing.
Context (container_text : json -> string) (envs : nat -> Env) (message : AppError -> string).

(** The window of the share link a request came through. *)
Definition in_share_window (c : Ctx) (e : AuditEvent) : Prop :=
  forall sc, ShareFromContext c = Some sc ->
    (forall w, sc_From sc = Some w -> IsZero w = false -> pg_ts w <= ev_Timestamp e)
    /\ (forall w, sc_To sc = Some w -> IsZero w = false -> ev_Timestamp e <= pg_ts w).

Lemma share_filter_window c from to f e :
  wanted container_text (TenantFromContext c) (set_range (applyShareListFilter c from to) f) e -> in_share_window c e.
Proof.
  intros Hw sc Hsc. pose proof (wt_from _ _ _ _ Hw) as Hf. pose proof (wt_to _ _ _ _ Hw) as Ht.
  unfold set_range in Hf, Ht. cbn [f_From f_To] in Hf, Ht. unfold applyShareListFilter in Hf, Ht. rw Hsc in Hf, Ht. cbn [fst snd] in Hf, Ht.
  clear Hw Hsc. split; intros w Hw Hz; rw Hw in Hf, Ht; unfold IsZero in *.
  - unfold After in Hf. assert (Hm : forall x, w <= x -> pg_ts x <= ev_Timestamp e -> pg_ts w <= ev_Timestamp e).
    { intros x Hx. pose proof (Truncate_micro_mono _ _ Hx). unfold pg_ts. lia. }
    destruct (from =? zeroTime) eqn:E; cbn [orb] in Hf; [destruct Hf; [congruence|done]|].
    destruct (Z.ltb_spec from w); [destruct Hf; [congruence|done]|]. destruct Hf; [congruence|by apply (Hm from)].
  - unfold Before in Ht. assert (Hm : forall x, x <= w -> ev_Timestamp e <= pg_ts x -> ev_Timestamp e <= pg_ts w).
    { intros x Hx. pose proof (Truncate_micro_mono _ _ Hx). unfold pg_ts. lia. }
    destruct (to =? zeroTime) eqn:E; cbn [orb] in Ht; [destruct Ht; [congruence|done]|].
    destruct (Z.ltb_spec w to); [destruct Ht; [congruence|done]|]. destruct Ht; [congruence|by apply (Hm to)].
Qed.

(** The filter a request asks for, with its two bounds parsed. *)
Definition query_filter (r : Request) (from to : Time) : Filter :=
  MkFilter (rq_Query r "session_id") (rq_Query r "actor_id") (rq_Query r "actor_type") (rq_Query r "action")
    (rq_Query r "resource_id") (rq_Query r "outcome") from to (atoiOr (rq_Query r "page") 1) (atoiOr (rq_Query r "page_size") 50).
(** A zero bound of a link is no bound. *)
Definition share_bounded (c : Ctx) : Prop :=
  forall sc, ShareFromContext c = Some sc -> sc_From sc <> Some zeroTime /\ sc_To sc <> Some zeroTime.

(** A link's window narrows the query's. *)
Lemma share_range_window c r from to e :
  share_bounded c ->
  wanted container_text (TenantFromContext c) (set_range (applyShareListFilter c from to) (query_filter r from to)) e
  <-> wanted container_text (TenantFromContext c) (query_filter r from to) e /\ in_share_window c e.
Proof.
  intros Hb. split.
  - intros Hw. split; [|exact (share_filter_window c from to _ e Hw)]. destruct Hw as [H1 H2 H3 H4 H5 H6 H7 Hf Ht].
    split; [done..| |]; cbn [set_range query_filter f_From f_To] in *; unfold applyShareListFilter in Hf, Ht;
      destruct (ShareFromContext c) as [sc|] eqn:Es; [|done| |done]; destruct (Hb sc Es) as [Hbf Hbt]; cbn [fst snd] in *.
    + destruct (sc_From sc) as [w|]; [|done]. unfold IsZero, After in *. destruct (Z.eqb_spec from zeroTime); [by left|]. cbn [orb] in Hf.
      destruct (Z.ltb_spec from w); destruct Hf as [Hz%Z.eqb_eq|Hf]; [by rw Hz in Hbf| |done|by right]. right.
      pose proof (Truncate_micro_mono from w ltac:(lia)). unfold pg_ts in *. lia.
    + destruct (sc_To sc) as [w|]; [|done]. unfold IsZero, Before in *. destruct (Z.eqb_spec to zeroTime); [by left|]. cbn [orb] in Ht.
      destruct (Z.ltb_spec w to); destruct Ht as [Hz%Z.eqb_eq|Ht]; [by rw Hz in Hbt| |done|by right]. right.
      pose proof (Truncate_micro_mono w to ltac:(lia)). unfold pg_ts in *. lia.
  - intros [[H1 H2 H3 H4 H5 H6 H7 Hf Ht] Hin]. split; [done..| |]; cbn [set_range query_filter f_From f_To] in *; unfold applyShareListFilter;
      destruct (ShareFromContext c) as [sc|] eqn:Es; [|done| |done]; destruct (Hin sc Es) as [Hsf Hst]; destruct (Hb sc Es) as [Hbf Hbt]; cbn [fst snd].
    + destruct (sc_From sc) as [w|]; [|done]. destruct (_ || _); [|done]. right. apply (Hsf w eq_refl).
      apply Z.eqb_neq. intros ->. by apply Hbf.
    + destruct (sc_To sc) as [w|]; [|done]. destruct (_ || _); [|done]. right. apply (Hst w eq_refl).
      apply Z.eqb_neq. intros ->. by apply Hbt.
Qed.

(** The pages of one size tile a listing. *)
Lemma listing_tiles rows t f size k :
  0 < size <= 1000 -> Z.of_nat k * size < 2 ^ 62 ->
  concat (map (fun i => page size (Filter_Offset (set_page (Z.of_nat i + 1) size f)) (listing container_text rows t f)) (seq 0 k))
  = firstn (k * Z.to_nat size) (listing container_text rows t f).
Proof.
  intros Hs Hk. rw -pages_tile; [|lia]. f_equal. apply map_ext_in. intros i Hi%in_seq. by rw page_offset; [|lia|nia].
Qed.

(** C31: a listing is exact.  GET /v1/events (and its share-link twin) changes nothing.  A
    from or to that does not parse is a 400; with both parsed and the reads and their
    arguments sound it answers 200, and a 200 carries the number of rows of the
    caller's tenant that satisfy every filter of the query (session, actor, actor type,
    action with a trailing star as its only wildcard, resource, outcome, from, to) and
    lie in the window of the link the request came through, with the
    requested page of them, newest first, cut short only by a broken connection.
    The pages of one size, one after the other, are the whole listing. *)
Theorem listing_exact cut r c s resp s' :
  db_wf (si_audit s) -> listEvents envs cut container_text message r c s = (resp, s') ->
  let rows := db_events (si_audit s) in
  let t := TenantFromContext c in
  s' = s
  /\ (query_time r "from" = None -> resp = writeError 400 "from must be RFC3339")
  /\ (query_time r "from" <> None -> query_time r "to" = None -> resp = writeError 400 "to must be RFC3339")
  /\ (forall from to, query_time r "from" = Some from -> query_time r "to" = Some to ->
        let f := set_range (applyShareListFilter c from to) (query_filter r from to) in
        let all := listing container_text rows t (Filter_Normalise f) in
        ((forall k, fails (envs 0%nat) (CallRead k) = false) ->
         forallb cl_arg (buildAuditFilter container_text t (Filter_Normalise f)) = true -> rs_Status resp = 200)
        /\ (rs_Status resp = 200 -> exists p,
           rs_Body resp = listPage_json p (Z.of_nat (length all)) (f_Page f) (f_PageSize f)
           /\ (forall e, e ∈ all <-> e ∈ rows /\ wanted container_text t f e)
           /\ (share_bounded c -> forall e, e ∈ all <-> e ∈ rows /\ wanted container_text t (query_filter r from to) e /\ in_share_window c e)
           /\ StronglySorted later_first all
           /\ p `prefix_of` page (f_PageSize (Filter_Normalise f)) (Filter_Offset (Filter_Normalise f)) all
           /\ (cut = None -> p = page (f_PageSize (Filter_Normalise f)) (Filter_Offset (Filter_Normalise f)) all)
           /\ Forall (in_share_window c) p))
  /\ (forall f size k, 0 < size <= 1000 -> Z.of_nat k * size < 2 ^ 62 ->
        concat (map (fun i => page size (Filter_Offset (set_page (Z.of_nat i + 1) size f)) (listing container_text rows t f)) (seq 0 k))
        = firstn (k * Z.to_nat size) (listing container_text rows t f)).
Proof.
  intros Hwf. unfold listEvents. intros Hl. cbv zeta.
  assert (Htile := listing_tiles (db_events (si_audit s)) (TenantFromContext c)).
  destruct (query_time r "from") as [from|]; [|injection Hl as <- <-; by split_and!].
  destruct (query_time r "to") as [to|]; [|injection Hl as <- <-; by split_and!].
  change (set_range (applyShareListFilter c from to) (request_filter r))
    with (set_range (applyShareListFilter c from to) (query_filter r from to)) in Hl.
  injection Hl as Hr <-. split_and!; [done|done|done| |exact Htile]. intros ? ? [= <-] [= <-].
  pose proof (share_range_window c r from to) as Hwin. pose proof (share_filter_window c from to (query_filter r from to)) as Hsh.
  set (f := set_range _ _) in Hr, Hwin, Hsh |- *.
  unfold List in Hr. split; [intros Hf Ha; rw !Hf Ha in Hr; cbn [orb negb] in Hr; by subst resp|]. intros Hst.
  destruct (_ || _); [subst resp; done|]. destruct (fails _ _); [subst resp; done|].
  set (all := listing _ _ _ _) in Hr |- *. set (q := page _ _ all) in Hr |- *. eexists.
  assert (Hin : forall e, e ∈ all <-> e ∈ db_events (si_audit s) /\ wanted container_text (TenantFromContext c) f e)
    by (intros e; unfold all; by rw elem_of_listing (wanted_normalise container_text)).
  split_and!; [by rw -Hr|done| |apply listing_sorted, Hwf| | |].
  - intros Hb e. by rw Hin Hwin.
  - destruct cut as [n|]; [|done]. exists (skipn n q). symmetry. apply take_drop.
  - by intros ->.
  - apply Forall_forall. intros e He. apply Hsh, Hin.
    apply (elem_of_page (size := f_PageSize (Filter_Normalise f)) (offset := Filter_Offset (Filter_Normalise f))).
    destruct cut; [by apply elem_of_firstn in He|done].
Qed.
End Listing.

Definition listed_row (id action : string) (q : Z) : AuditEvent :=
  MkEvent id "tnt_1" (q * Second) (MkActor "u1" "human" "") action (MkResource "d1" "doc" "") "success" None "p" "h" q.
(** Four rows of one tenant, one second apart, and a link on the middle two. *)
Definition listed_site : Site :=
  set_audit (MkDB [listed_row "e1" "doc.read" 1; listed_row "e2" "doc.read" 2; listed_row "e3" "docs" 3; listed_row "e4" "doc.write" 4] 4) sample_site.
Definition listed_ctx : Ctx := WithShare background (MkShareContext "shr_1" "tnt_1" (Some (2 * Second)) (Some (4 * Second))).
Definition list_request : Request :=
  MkRequest (fun _ => "") (fun k => if decide (k = "action") then "doc.*" else if decide (k = "page_size") then "1" else "").

Lemma listing_exact_witness :
  let answer := listEvents (fun _ => healthy) None render no_text list_request listed_ctx listed_site in
  rs_Status answer.1 = 200 /\ rs_Body answer.1 = listPage_json [listed_row "e4" "doc.write" 4] 2 1 1.
Proof.
  intros answer.
  assert (Hw : db_wf (si_audit listed_site)).
  { split; [done|vm_compute; repeat constructor; set_solver..|]. apply Forall_forall. intros e He.
    repeat (apply elem_of_cons in He as [->|He]; [split; [vm_compute; reflexivity|cbn; lia]|]). by apply not_elem_of_nil in He. }
  destruct (listing_exact render (fun _ => healthy) no_text None list_request listed_ctx listed_site answer.1 answer.2 Hw eq_refl)
    as (_ & _ & _ & H & _).
  destruct (H zeroTime zeroTime eq_refl eq_refl) as [Hok Hbody].
  assert (Hst : rs_Status answer.1 = 200) by (apply Hok; [done|vm_compute; reflexivity]).
  split; [exact Hst|]. destruct (Hbody Hst) as (p & -> & _ & _ & _ & _ & Hp & _). rw (Hp eq_refl). vm_compute. reflexivity.
Defined.
