(* ===== verification/Collector.v ===== *)
(** The Claude Code plugin: what the collector captures and how it reduces it.
    src/claude-code-plugin/collector/{config,hookinput,state,transcript,redact,resource,otel}.go
    and the payload types of src/sdk/go/{audit,telemetry}.go.

    A json.RawMessage is its text, empty when absent.  A Go map[string]any is the
    list of its members, in any order: Marshal sorts them. *)
From S2P Require Import Prelude Sha256 Json Float64 AuditModel TimeText Execution.
Local Open Scope Z_scope.

(** * Strings *)

Definition Sha256Hex (s : string) : string := Sha256.hex_encode (Sha256.Sum256 s).

Definition RuneStart (c : Ascii.ascii) : bool := negb (is_cont c).
Fixpoint rune_cut (n : nat) (s : string) : nat :=
  match n with
  | O => O
  | S m => match String.get n s with Some c => if RuneStart c then n else rune_cut m s | None => n end
  end.
(** At most [n] bytes, cut before a rune. *)
Definition truncate (s : string) (n : nat) : string :=
  if Nat.leb (String.length s) n then s else (str_split (rune_cut n s) s).1.

(** [strings.EqualFold] against ASCII text: letters fold, and so do the long s and the Kelvin sign. *)
Fixpoint fold_case (s : string) : string :=
  match s with
  | String a r =>
      match r with
      | String b r1 =>
          if is_char 0xC5 a && is_char 0xBF b then String (byte_chr 115) (fold_case r1)
          else match r1 with
               | String c r2 =>
                   if is_char 0xE2 a && is_char 0x84 b && is_char 0xAA c then String (byte_chr 107) (fold_case r2)
                   else String (ascii_lower a) (fold_case r)
               | EmptyString => String (ascii_lower a) (fold_case r)
               end
      | EmptyString => String (ascii_lower a) ""
      end
  | EmptyString => ""
  end.
Definition EqualFold (s ascii : string) : bool := bool_decide (fold_case s = fold_case ascii).

Definition slash : Ascii.ascii := byte_chr 47.
Fixpoint trim_slashes (rev : string) : string :=
  match rev with String c r => if bool_decide (c = slash) then trim_slashes r else rev | EmptyString => "" end.
Fixpoint until_slash (rev : string) : string :=
  match rev with String c r => if bool_decide (c = slash) then "" else String c (until_slash r) | EmptyString => "" end.
(** [filepath.Base]. *)
Definition Base (path : string) : string :=
  if is_empty path then "." else
  let base := str_rev (until_slash (trim_slashes (str_rev path))) in
  if is_empty base then "/" else base.

Example string_samples :
  map (fun n => truncate (apos "a" +:+ encode_rune 233 +:+ "b") n) [0; 1; 2; 3; 4; 5]%nat
    = [""; "a"; "a"; "a" +:+ encode_rune 233; "a" +:+ encode_rune 233 +:+ "b"; "a" +:+ encode_rune 233 +:+ "b"]
  /\ map (fun s => EqualFold s "PermissionDenied") ["permissionDENIED"; "PermissionDenie"; "Permi" +:+ bytes_str [0xC5; 0xBF] +:+ "sionDenied"]
     = [true; false; true]
  /\ map Base ["/a/b.go"; "b/"; "//"; ""] = ["b.go"; "b"; "/"; "."].
Proof. vm_compute. done. Qed.

(** * Configuration *)

Definition CaptureHash : string := "hash".
Definition CaptureMetadata : string := "metadata".
Definition CaptureRawMode : string := "raw".

Record Config := MkConfig {
  cf_APIKey : string; cf_BaseURL : string; cf_ActorID : string; cf_ActorEmail : string; cf_CaptureMode : string;
  cf_Disabled : bool; cf_StateDir : string; cf_SpoolMaxBytes : Z; cf_RequestMaxBytes : Z
}.
Definition RawCapture (c : Config) : bool := bool_decide (cf_CaptureMode c = CaptureRawMode).
Definition set_CaptureMode (m : string) (c : Config) : Config :=
  MkConfig (cf_APIKey c) (cf_BaseURL c) (cf_ActorID c) (cf_ActorEmail c) m (cf_Disabled c) (cf_StateDir c)
    (cf_SpoolMaxBytes c) (cf_RequestMaxBytes c).

Definition isTruthy (lower : string -> string) (s : string) : bool :=
  bool_decide (ToLower lower (TrimSpace s) ∈ ["1"; "true"; "yes"; "on"]).
(** The two branches on the legacy flag answer the same mode. *)
Definition captureModeFromEnv (lower getenv : string -> string) : string :=
  let mode := ToLower lower (TrimSpace (getenv "FACT0_CC_CAPTURE_MODE")) in
  if bool_decide (mode ∈ [CaptureHash; CaptureMetadata; CaptureRawMode]) then mode
  else if negb (is_empty mode) then CaptureRawMode
  else if isTruthy lower (getenv "FACT0_CC_CAPTURE_RAW") then CaptureRawMode
  else CaptureRawMode.

Definition positiveBytes (getenv : string -> string) (name : string) (fallback : Z) : Z :=
  match Atoi (TrimSpace (getenv name)) with Some v => if v <=? 0 then fallback else v | None => fallback end.
(** [home]: the state directory under the user's home. *)
Definition LoadConfig (lower getenv : string -> string) (home : string) : Config :=
  let env name := TrimSpace (getenv name) in
  let or v d := if is_empty v then d else v in
  MkConfig (env "FACT0_API_KEY") (or (env "FACT0_BASE_URL") "http://localhost:8000") (env "FACT0_CC_ACTOR_ID")
    (env "FACT0_CC_ACTOR_EMAIL") (captureModeFromEnv lower getenv) (isTruthy lower (getenv "FACT0_CC_DISABLED"))
    (or (env "FACT0_CC_STATE_DIR") home) (positiveBytes getenv "FACT0_CC_SPOOL_MAX_BYTES" (Z.shiftl 256 20))
    (positiveBytes getenv "FACT0_CC_REQUEST_MAX_BYTES" (Z.shiftl 4 20)).

(** * Captured data *)

Abbreviation RawMessage := string.

Record AssistantMessage := MkMessage {
  am_ID : string; am_Source : string; am_UUID : string; am_Timestamp : string; am_Model : string; am_Content : RawMessage
}.
Record TurnStats := MkTurnStats {
  ts_TurnID : string; ts_ResponseText : string; ts_InputTokens : Z; ts_OutputTokens : Z; ts_Model : string;
  ts_Messages : list AssistantMessage; ts_CaptureStatus : string; ts_CaptureReason : string
}.

Record HookInput := MkHook {
  hi_SessionID : string; hi_AgentTranscriptPath : string; hi_TranscriptPath : string; hi_Cwd : string;
  hi_PermissionMode : string; hi_HookEventName : string; hi_ToolName : string; hi_ToolInput : RawMessage;
  hi_ToolResponse : RawMessage; hi_ToolUseID : string; hi_Prompt : string; hi_Source : string; hi_Message : string;
  hi_AgentType : string; hi_AgentID : string; hi_Reason : string; hi_Error : string; hi_Timestamp : string;
  hi_LastAssistantMessage : option string; hi_CapturedTurn : option TurnStats; hi_TotalCostUSD : float64;
  hi_DurationMs : Z; hi_Usage : RawMessage
}.
Definition set_tool (name : string) (input : RawMessage) (i : HookInput) : HookInput :=
  MkHook (hi_SessionID i) (hi_AgentTranscriptPath i) (hi_TranscriptPath i) (hi_Cwd i) (hi_PermissionMode i)
    (hi_HookEventName i) name input (hi_ToolResponse i) (hi_ToolUseID i) (hi_Prompt i) (hi_Source i) (hi_Message i)
    (hi_AgentType i) (hi_AgentID i) (hi_Reason i) (hi_Error i) (hi_Timestamp i) (hi_LastAssistantMessage i)
    (hi_CapturedTurn i) (hi_TotalCostUSD i) (hi_DurationMs i) (hi_Usage i).
Definition set_capture (timestamp : string) (turn : option TurnStats) (i : HookInput) : HookInput :=
  MkHook (hi_SessionID i) (hi_AgentTranscriptPath i) (hi_TranscriptPath i) (hi_Cwd i) (hi_PermissionMode i)
    (hi_HookEventName i) (hi_ToolName i) (hi_ToolInput i) (hi_ToolResponse i) (hi_ToolUseID i) (hi_Prompt i)
    (hi_Source i) (hi_Message i) (hi_AgentType i) (hi_AgentID i) (hi_Reason i) (hi_Error i) timestamp
    (hi_LastAssistantMessage i) turn (hi_TotalCostUSD i) (hi_DurationMs i) (hi_Usage i).

Record SpanStart := MkSpanStart {
  ss_SpanID : string; ss_Name : string; ss_StartedAt : string; ss_Metadata : option (gmap string string);
  ss_Input : RawMessage; ss_ParentSpanID : string
}.
(** A nil map and an empty one cannot be told apart here: both are written as absent. *)
Record SessionState := MkState {
  st_SessionID : string; st_ExecutionKey : string; st_ExecutionID : string; st_TurnSpanID : string;
  st_PendingSpans : gmap string SpanStart; st_CompletedTools : gmap string bool; st_Closed : bool
}.

(** * Payloads of the SDK *)

(** The SDK's Actor and Resource have the server's fields and tags. *)
Record AuditEventInput := MkAuditInput {
  ai_ID : string; ai_Timestamp : string; ai_Actor : Actor; ai_Action : string; ai_Resource : Resource;
  ai_Outcome : string; ai_Metadata : list member
}.
Record StartExecutionRequest := MkStartRequest {
  sr_AgentID : string; sr_AgentName : string; sr_Trigger : string; sr_Metadata : gmap string string;
  sr_IdempotencyKey : string; sr_StartedAt : string
}.
Abbreviation SpanPayload := (list member).

(** One field set is used, selected by [dl_Kind]. *)
Record DeadLetter := MkLetter {
  dl_Kind : string; dl_Audit : option AuditEventInput; dl_ExecutionID : string; dl_Spans : list SpanPayload;
  dl_Status : string; dl_EndedAt : string
}.
Definition dlKindAudit : string := "audit".
Definition dlKindSpans : string := "spans".
Definition dlKindEndExecution : string := "end_execution".
Definition audit_letter (e : AuditEventInput) : DeadLetter := MkLetter dlKindAudit (Some e) "" [] "" "".
Definition spans_letter (executionID : string) (spans : list SpanPayload) : DeadLetter :=
  MkLetter dlKindSpans None executionID spans "" "".
Definition end_letter (executionID status endedAt : string) : DeadLetter :=
  MkLetter dlKindEndExecution None executionID [] status endedAt.

(** Go maps as Marshal writes them, at every depth: each key once, in order. *)
Fixpoint map_value (v : json) : json :=
  match v with
  | JArr l => JArr (map map_value l)
  | JObj m => JObj (merge_sort key_order (obj_of_members (map (fun kv => (kv.1, map_value kv.2)) m)))
  | v => v
  end.
(** [jsonString]: a map as JSON text. *)
Definition jsonString (m : list member) : string := default "" (marshal (map_value (JObj m))).

(** * Reduction: redact.go *)

Definition locatorKeys : list string := ["command"; "file_path"; "notebook_path"; "path"; "pattern"; "url"; "query"].
Definition locatorPreviewLen : nat := 200.
Definition strlen (s : string) : json := JInt (Z.of_nat (String.length s)).

Definition redact_string (key mode t : string) : json :=
  if bool_decide (mode = CaptureRawMode) then JStr t
  else if bool_decide (mode = CaptureMetadata) && bool_decide (key ∈ locatorKeys) then
    if Nat.ltb locatorPreviewLen (String.length t) then
      JObj [("preview", JStr (truncate t locatorPreviewLen)); ("sha256", JStr (Sha256Hex t)); ("len", strlen t);
            ("truncated", JBool true)]
    else JStr t
  else JObj [("sha256", JStr (Sha256Hex t)); ("len", strlen t)].
Fixpoint redactValue (mode key : string) (v : json) {struct v} : json :=
  match v with
  | JStr t => redact_string key mode t
  | JObj m => JObj (map (fun kv => (kv.1, redactValue mode kv.1 kv.2)) m)
  | JArr l => JArr (map (redactValue mode key) l)
  | v => v
  end.

Definition RedactInput (raw : RawMessage) (mode : string) : list member :=
  if is_empty raw then []
  else match decode raw with
       | None => [("value", redactValue mode "" (JStr raw))]
       | Some v => match redactValue mode "" v with JObj m => m | v => [("value", v)] end
       end.
Definition SummarizeOutput (raw : RawMessage) (mode : string) : list member :=
  RedactInput raw (if bool_decide (mode = CaptureMetadata) then CaptureHash else mode).

(** * What a tool call is about: resource.go *)

Definition stringField (m : list member) (key : string) : string := as_string (field key m).
(** json.Unmarshal into a map: only an object fills it. *)
Definition object_members (raw : RawMessage) : list member :=
  if is_empty raw then [] else match unmarshal raw with Some (JObj m) => m | _ => [] end.

Definition ResourceFromTool (toolName : string) (toolInput : RawMessage) (mode : string) : Resource :=
  let fields := object_members toolInput in
  let hashOnly := bool_decide (mode = CaptureHash) in
  if bool_decide (toolName = "Bash") then
    let cmd := stringField fields "command" in
    MkResource (Sha256Hex cmd) "shell.command" (if hashOnly then "" else truncate cmd locatorPreviewLen)
  else if bool_decide (toolName ∈ ["Read"; "Edit"; "Write"; "MultiEdit"; "NotebookEdit"]) then
    let path := stringField fields "file_path" in
    let path := if is_empty path then stringField fields "notebook_path" else path in
    if is_empty path then MkResource toolName "claude_code.tool" toolName
    else if hashOnly then MkResource (Sha256Hex path) "file" ""
    else MkResource path "file" (Base path)
  else if has_prefix "mcp__" toolName then MkResource toolName "mcp.tool" toolName
  else MkResource toolName "claude_code.tool" toolName.

(** * Model usage: otel.go *)

(** A float64 or a json.Number. *)
Definition usageNumber (o : option json) : option float64 :=
  match o with Some (JNum lit) => parse_float lit | _ => None end.
(** Unmarshal into a map fails when a number overflows float64. *)
Fixpoint floats_ok (v : json) : bool :=
  match v with
  | JNum lit => bool_decide (parse_float lit <> None)
  | JArr l => forallb floats_ok l
  | JObj m => forallb (fun kv => floats_ok kv.2) m
  | _ => true
  end.
Definition usage_members (usage : RawMessage) : list member :=
  let m := object_members usage in if floats_ok (JObj m) then m else [].

Fixpoint first_string (keys : list string) (m : list member) : option string :=
  match keys with
  | [] => None
  | k :: keys => let s := stringField m k in if is_empty s then first_string keys m else Some s
  end.
Fixpoint copyToken (keys : list string) (dst : string) (m : list member) : list member :=
  match keys with
  | [] => []
  | k :: keys =>
      match usageNumber (field k m) with
      | Some v => [(dst, match float_text v with Some t => JNum t | None => JNull end)]
      | None => copyToken keys dst m
      end
  end.

(** [spanID] is the fresh id of the span, [clock] the time when the hook carries none. *)
Definition MaybeModelInvocationSpan (spanID clock : string) (i : HookInput) (executionID parentSpanID : string)
    : option SpanPayload :=
  let usage := usage_members (hi_Usage i) in
  if negb (flt fzero (hi_TotalCostUSD i)) && match usage with [] => true | _ => false end then None
  else
    let mi := [("model_name", JStr (default "claude" (first_string ["model"; "model_name"] usage)));
               ("cost_usd", match float_text (hi_TotalCostUSD i) with Some t => JNum t | None => JNull end)]
              ++ copyToken ["input_tokens"; "prompt_tokens"] "prompt_tokens" usage
              ++ copyToken ["output_tokens"; "completion_tokens"] "completion_tokens" usage
              ++ copyToken ["total_tokens"; "total"] "total_tokens" usage in
    let now := if is_empty (hi_Timestamp i) then clock else hi_Timestamp i in
    Some ([("id", JStr spanID); ("execution_id", JStr executionID); ("span_type", JStr "MODEL_INVOCATION");
           ("name", JStr "model_invocation"); ("status", JStr "COMPLETED"); ("started_at", JStr now);
           ("ended_at", JStr now); ("model_invocation", JObj mi); ("metadata", JObj [])]
          ++ omit (is_empty parentSpanID) "parent_span_id" (JStr parentSpanID)).

(** Whether a tool call failed, from its response or its error text. *)
Definition toolCallFailed (i : HookInput) : bool :=
  if negb (is_empty (hi_Error i)) then true
  else if is_empty (hi_ToolResponse i) then false
  else match decode (hi_ToolResponse i) with
       | Some (JObj resp) =>
           match field "is_error" resp with Some (JBool true) => true | _ => false end
           || match field "success" resp with Some (JBool false) => true | _ => false end
           || match field "status" resp with Some (JStr s) => EqualFold s "error" | _ => false end
           || negb (is_empty (stringField resp "error"))
           || match field "exit_code" resp with
              | Some (JNum lit) => match parse_float lit with Some f => negb (feqb f fzero) | None => false end
              | _ => false
              end
       | _ => false
       end.
