(* ===== verification/Transcript.v ===== *)
(** The assistant's side of a turn, read from Claude's transcript:
    src/claude-code-plugin/collector/{transcript,transcript_capture}.go.

    A transcript is the text of a file of JSON records, one per line.  Records are
    decoded as json.Unmarshal fills structs: keys match up to case, null leaves a
    field alone, a value of the wrong type is an error. *)
From S2P Require Import Prelude Sha256 Json AuditModel TimeText Execution Collector.
Local Open Scope Z_scope.

(** * Decoding into structs *)

(** The members of an object with the text of their values. *)
Fixpoint raw_members (fuel : nat) (s : string) : option (list (string * RawMessage)) :=
  match fuel, skip_ws s with
  | S f, String q s1 =>
      '(k, r) ← parse_str (S (String.length s1)) s1;
      match skip_ws r with
      | String _ t =>
          let v := skip_ws t in
          '(_, r') ← parse_value (S (2 * String.length v)) 0 v;
          let raw := (str_split (String.length v - String.length r') v).1 in
          match skip_ws r' with
          | String c t' => if is_char 44 c then l ← raw_members f t'; Some ((k, raw) :: l) else Some [(k, raw)]
          | EmptyString => None
          end
      | EmptyString => None
      end
  | _, _ => None
  end.
(** [None] is an error; null leaves the target alone. *)
Definition raw_object (s : RawMessage) : option (list (string * RawMessage)) :=
  match unmarshal s with
  | Some JNull => Some []
  | Some (JObj []) => Some []
  | Some (JObj _) =>
      match skip_ws s with String _ t => raw_members (String.length t) t | EmptyString => None end
  | _ => None
  end.

Definition fold_members {A V} (upd : string -> V -> A -> option A) (m : list (string * V)) (a : A) : option A :=
  foldl (fun acc kv => a ← acc; upd kv.1 kv.2 a) (Some a) m.
Definition to_string (v : option json) (old : string) : option string :=
  match v with Some (JStr s) => Some s | Some JNull => Some old | _ => None end.
Definition to_bool (v : option json) (old : bool) : option bool :=
  match v with Some (JBool b) => Some b | Some JNull => Some old | _ => None end.
Definition to_int64 (v : option json) (old : Z) : option Z :=
  match v with Some (JNum lit) => parse_integer 64 lit | Some JNull => Some old | _ => None end.

Record contentBlock := MkBlock { cb_Type : string; cb_Text : string }.
Definition block_of (v : json) : option contentBlock :=
  match v with
  | JNull => Some (MkBlock "" "")
  | JObj m => fold_members (fun k v b =>
      if EqualFold k "type" then t ← to_string (Some v) (cb_Type b); Some (MkBlock t (cb_Text b))
      else if EqualFold k "text" then t ← to_string (Some v) (cb_Text b); Some (MkBlock (cb_Type b) t)
      else Some b) m (MkBlock "" "")
  | _ => None
  end.
Fixpoint blocks_of_list (l : list json) : option (list contentBlock) :=
  match l with [] => Some [] | v :: l => b ← block_of v; bs ← blocks_of_list l; Some (b :: bs) end.
(** json.Unmarshal into a string, and into a slice of blocks. *)
Definition text_of (raw : RawMessage) : option string := to_string (unmarshal raw) "".
Definition blocks_of (raw : RawMessage) : option (list contentBlock) :=
  match unmarshal raw with Some JNull => Some [] | Some (JArr l) => blocks_of_list l | _ => None end.
Definition block_texts (l : list contentBlock) : list string :=
  map cb_Text (filter (fun b => cb_Type b = "text") l).

Record Usage := MkUsage { us_InputTokens : Z; us_OutputTokens : Z; us_CacheRead : Z; us_CacheCreation : Z }.
Record transcriptLine := MkLine {
  tl_Type : string; tl_UUID : string; tl_Timestamp : string; tl_IsMeta : bool;
  tm_ID : string; tm_Model : string; tm_Content : RawMessage; tm_Usage : Usage
}.
Definition usage_member (k : string) (v : json) (u : Usage) : option Usage :=
  if EqualFold k "input_tokens" then
    n ← to_int64 (Some v) (us_InputTokens u); Some (MkUsage n (us_OutputTokens u) (us_CacheRead u) (us_CacheCreation u))
  else if EqualFold k "output_tokens" then
    n ← to_int64 (Some v) (us_OutputTokens u); Some (MkUsage (us_InputTokens u) n (us_CacheRead u) (us_CacheCreation u))
  else if EqualFold k "cache_read_input_tokens" then
    n ← to_int64 (Some v) (us_CacheRead u); Some (MkUsage (us_InputTokens u) (us_OutputTokens u) n (us_CacheCreation u))
  else if EqualFold k "cache_creation_input_tokens" then
    n ← to_int64 (Some v) (us_CacheCreation u); Some (MkUsage (us_InputTokens u) (us_OutputTokens u) (us_CacheRead u) n)
  else Some u.
Definition message_member (k : string) (raw : RawMessage) (l : transcriptLine) : option transcriptLine :=
  let set id model content usage :=
    MkLine (tl_Type l) (tl_UUID l) (tl_Timestamp l) (tl_IsMeta l) id model content usage in
  if EqualFold k "id" then x ← to_string (unmarshal raw) (tm_ID l); Some (set x (tm_Model l) (tm_Content l) (tm_Usage l))
  else if EqualFold k "model" then
    x ← to_string (unmarshal raw) (tm_Model l); Some (set (tm_ID l) x (tm_Content l) (tm_Usage l))
  else if EqualFold k "content" then Some (set (tm_ID l) (tm_Model l) raw (tm_Usage l))
  else if EqualFold k "usage" then
    match unmarshal raw with
    | Some JNull => Some l
    | Some (JObj m) => u ← fold_members usage_member m (tm_Usage l); Some (set (tm_ID l) (tm_Model l) (tm_Content l) u)
    | _ => None
    end
  else Some l.
Definition line_member (k : string) (raw : RawMessage) (l : transcriptLine) : option transcriptLine :=
  let set type uuid timestamp meta :=
    MkLine type uuid timestamp meta (tm_ID l) (tm_Model l) (tm_Content l) (tm_Usage l) in
  if EqualFold k "type" then
    x ← to_string (unmarshal raw) (tl_Type l); Some (set x (tl_UUID l) (tl_Timestamp l) (tl_IsMeta l))
  else if EqualFold k "uuid" then
    x ← to_string (unmarshal raw) (tl_UUID l); Some (set (tl_Type l) x (tl_Timestamp l) (tl_IsMeta l))
  else if EqualFold k "timestamp" then
    x ← to_string (unmarshal raw) (tl_Timestamp l); Some (set (tl_Type l) (tl_UUID l) x (tl_IsMeta l))
  else if EqualFold k "isMeta" then
    x ← to_bool (unmarshal raw) (tl_IsMeta l); Some (set (tl_Type l) (tl_UUID l) (tl_Timestamp l) x)
  else if EqualFold k "message" then m ← raw_object raw; fold_members message_member m l
  else Some l.
Definition line_of (raw : string) : option transcriptLine :=
  m ← raw_object raw; fold_members line_member m (MkLine "" "" "" false "" "" "" (MkUsage 0 0 0 0)).

(** * Reading a turn *)

Definition realUserPrompt (raw : RawMessage) : bool :=
  match text_of raw with
  | Some _ => true
  | None => match blocks_of raw with
            | None => false
            | Some l => negb (existsb (fun b => bool_decide (cb_Type b = "tool_result")) l)
                        && existsb (fun b => negb (is_empty (cb_Type b))) l
            end
  end.

Definition newline : Ascii.ascii := byte_chr 10.
(** [ReadBytes] up to each newline; a last line without one is a piece too. *)
Fixpoint split_lines (s : string) : list string :=
  match s with
  | EmptyString => []
  | String c r =>
      if bool_decide (c = newline) then String c "" :: split_lines r
      else match split_lines r with [] => [String c ""] | l :: ls => String c l :: ls end
  end.

Record turn_usage := MkTurnUsage { tu_in : Z; tu_out : Z; tu_model : string }.
(** The variables of the reading loop. *)
Record Reading := MkReading {
  rd_TurnID : string; rd_Messages : list AssistantMessage; rd_order : list string; rd_usages : gmap string turn_usage;
  rd_seen : gmap string bool; rd_texts : list string; rd_partial : string
}.
Definition set_partial (p : string) (r : Reading) : Reading :=
  MkReading (rd_TurnID r) (rd_Messages r) (rd_order r) (rd_usages r) (rd_seen r) (rd_texts r) p.

(** A user prompt starts a turn afresh. *)
Definition read_prompt (raw : string) (line : transcriptLine) : Reading :=
  MkReading (if is_empty (tl_UUID line) then "prompt-" +:+ Sha256Hex raw else tl_UUID line) [] [] ∅ ∅ [] "".

Definition merge_usage (line : transcriptLine) (old : turn_usage) : turn_usage :=
  let u := tm_Usage line in
  let input := wrap64 (us_InputTokens u + us_CacheRead u + us_CacheCreation u) in
  MkTurnUsage (if input =? 0 then tu_in old else input)
    (if us_OutputTokens u <? tu_out old then tu_out old else us_OutputTokens u)
    (if is_empty (tm_Model line) then tu_model old else tm_Model line).

(** New content of a message. *)
Definition read_content (id : string) (line : transcriptLine) (r : Reading) : Reading :=
  let content := tm_Content line in
  if is_empty content then set_partial "assistant record has no supported content" r
  else
    let message := MkMessage id "" (tl_UUID line) (tl_Timestamp line) (tm_Model line) content in
    let with_texts texts partial :=
      MkReading (rd_TurnID r) (rd_Messages r ++ [message]) (rd_order r) (rd_usages r) (rd_seen r) (rd_texts r ++ texts) partial in
    match blocks_of content, text_of content with
    | Some blocks, _ => with_texts (block_texts blocks) (rd_partial r)
    | None, Some text => with_texts [text] (rd_partial r)
    | None, None => with_texts [] "assistant content format unavailable"
    end.
Definition read_assistant (raw : string) (line : transcriptLine) (r : Reading) : Reading :=
  let id := if is_empty (tm_ID line) then tl_UUID line else tm_ID line in
  let partial := if is_empty id then "assistant record lacks message identity" else rd_partial r in
  let id := if is_empty id then "record-" +:+ Sha256Hex raw else id in
  let order := match rd_usages r !! id with Some _ => rd_order r | None => rd_order r ++ [id] end in
  let usages := <[id := merge_usage line (default (MkTurnUsage 0 0 "") (rd_usages r !! id))]> (rd_usages r) in
  let recordKey := tl_UUID line +:+ "|" +:+ Sha256Hex (tm_Content line) in
  let known := negb (is_empty (tl_UUID line)) in
  if known && default false (rd_seen r !! recordKey) then
    MkReading (rd_TurnID r) (rd_Messages r) order usages (rd_seen r) (rd_texts r) partial
  else read_content id line
         (MkReading (rd_TurnID r) (rd_Messages r) order usages (<[recordKey := known]> (rd_seen r)) (rd_texts r) partial).

(** One record; [true] stops the reading: the target turn is over. *)
Definition read_line (targetTurn raw : string) (r : Reading) : Reading * bool :=
  match line_of raw with
  | None => (set_partial "transcript contains malformed or incomplete JSON records" r, false)
  | Some line =>
      let prompt := bool_decide (tl_Type line = "user") && negb (tl_IsMeta line) && realUserPrompt (tm_Content line) in
      if prompt && negb (is_empty targetTurn) && bool_decide (rd_TurnID r = targetTurn) then (r, true)
      else
        let r := if prompt then read_prompt raw line else r in
        (if bool_decide (tl_Type line = "assistant") && (is_empty targetTurn || bool_decide (rd_TurnID r = targetTurn))
         then read_assistant raw line r else r, false)
  end.
Fixpoint read_lines (targetTurn : string) (pieces : list string) (readErr : option string) (r : Reading) : Reading :=
  match pieces with
  | [] => match readErr with Some e => set_partial ("transcript read failed: " +:+ e) r | None => r end
  | raw :: pieces =>
      let '(r, stop) := read_line targetTurn raw r in
      if stop then r else read_lines targetTurn pieces readErr r
  end.

(** The totals of a turn: output is summed, the last input and model count. *)
Definition total_usage (r : Reading) (acc : turn_usage) (id : string) : turn_usage :=
  let u := default (MkTurnUsage 0 0 "") (rd_usages r !! id) in
  MkTurnUsage (if 0 <? tu_in u then tu_in u else tu_in acc) (wrap64 (tu_out acc + tu_out u))
    (if is_empty (tu_model u) then tu_model acc else tu_model u).
Definition turn_stats (r : Reading) : TurnStats * bool :=
  match rd_Messages r with
  | [] => (MkTurnStats (rd_TurnID r) "" 0 0 "" [] "unavailable"
             (if is_empty (rd_partial r) then "no assistant messages found for the latest turn" else rd_partial r), false)
  | messages =>
      let u := foldl (total_usage r) (MkTurnUsage 0 0 "") (rd_order r) in
      (MkTurnStats (rd_TurnID r) (concat_with (String newline "") (rd_texts r)) (tu_in u) (tu_out u) (tu_model u) messages
         (if is_empty (rd_partial r) then "complete" else "partial") (rd_partial r), true)
  end.

(** A file at the moment it is read: why it cannot be opened, or its text and
    the error that ends the reading. *)
Inductive TranscriptFile := Unopened (err : string) | Opened (content : string) (readErr : option string).

Definition maxTranscriptBytes : Z := Z.shiftl 256 20.
Definition unavailable (reason : string) : TurnStats := MkTurnStats "" "" 0 0 "" [] "unavailable" reason.
Definition ReadTurnFromTranscriptTurn (files : string -> TranscriptFile) (path targetTurn : string) : TurnStats * bool :=
  if is_empty path then (unavailable "transcript path not supplied", false)
  else match files path with
       | Unopened err => (unavailable ("transcript unreadable: " +:+ err), false)
       | Opened content readErr =>
           let start partial := MkReading "" [] [] ∅ ∅ [] partial in
           let excess := Z.of_nat (String.length content) - maxTranscriptBytes in
           turn_stats
             (if 0 <? excess then
                read_lines targetTurn (tail (split_lines (str_split (Z.to_nat excess) content).2)) readErr
                  (start "transcript exceeds 256 MiB read window; earlier content unavailable")
              else read_lines targetTurn (split_lines content) readErr (start ""))
       end.
Definition ReadTurnFromTranscript (files : string -> TranscriptFile) (path : string) : TurnStats * bool :=
  ReadTurnFromTranscriptTurn files path "".

(** * The final message of the hook *)

Definition lastMessageText (s : TurnStats) : string :=
  match last (ts_Messages s) with
  | None => ""
  | Some m =>
      match text_of (am_Content m), blocks_of (am_Content m) with
      | Some plain, _ => plain
      | None, Some blocks => concat_with (String newline "") (block_texts blocks)
      | None, None => ""
      end
  end.
Definition finalTranscriptPresent (i : HookInput) : bool :=
  match hi_LastAssistantMessage i, hi_CapturedTurn i with
  | Some final, Some turn =>
      match last (ts_Messages turn) with
      | Some m => is_empty (am_Source m) && bool_decide (lastMessageText turn = final)
      | None => false
      end
  | _, _ => false
  end.

Definition set_status (status reason : string) (s : TurnStats) : TurnStats :=
  MkTurnStats (ts_TurnID s) (ts_ResponseText s) (ts_InputTokens s) (ts_OutputTokens s) (ts_Model s) (ts_Messages s) status reason.
(** The hook's final text becomes a message of its own. *)
Definition append_final (final event timestamp : string) (s : TurnStats) : TurnStats :=
  let raw := default "" (marshal (JArr [JObj [("text", JStr final); ("type", JStr "text")]])) in
  let sep := if negb (is_empty (ts_ResponseText s)) && negb (is_empty final) then String newline "" else "" in
  MkTurnStats (ts_TurnID s) (ts_ResponseText s +:+ sep +:+ final) (ts_InputTokens s) (ts_OutputTokens s) (ts_Model s)
    (ts_Messages s ++ [MkMessage ("hook-final-" +:+ Sha256Hex final) (event +:+ "_hook") "" timestamp "" raw])
    (ts_CaptureStatus s) (ts_CaptureReason s).
Definition applyFinalAssistant (i : HookInput) (event : string) : HookInput :=
  let turn := default (unavailable "transcript unavailable") (hi_CapturedTurn i) in
  let i := set_capture (hi_Timestamp i) (Some turn) i in
  let put t := set_capture (hi_Timestamp i) (Some t) i in
  match hi_LastAssistantMessage i with
  | None =>
      if bool_decide (ts_CaptureStatus turn = "complete") then
        put (set_status "partial" "hook did not supply final assistant text; transcript completeness cannot be confirmed" turn)
      else i
  | Some final =>
      if finalTranscriptPresent i then i
      else
        let fresh := match last (ts_Messages turn) with Some m => is_empty (am_Source m) | None => true end in
        put (set_status "partial" "final text captured from hook; final transcript blocks or usage not yet available"
               (if fresh then append_final final event (hi_Timestamp i) turn else turn))
  end.

(** A transcript shows the captured turn: by its id, or by its first message. *)
Definition sameTurn (captured : option TurnStats) (fresh : TurnStats) : bool :=
  let target := match captured with Some t => ts_TurnID t | None => "" end in
  if negb (is_empty target) then bool_decide (ts_TurnID fresh = target)
  else match captured with
       | Some t => match ts_Messages t with
                   | m :: _ => existsb (fun x => bool_decide (am_ID x = am_ID m)) (ts_Messages fresh)
                   | [] => true
                   end
       | None => true
       end.
(** [reads]: the file at each look before the two seconds are over. *)
Fixpoint refine_loop (reads : list (string -> TranscriptFile)) (path : string) (i : HookInput) (event : string) : HookInput :=
  match reads with
  | [] => applyFinalAssistant i event
  | files :: reads =>
      let target := match hi_CapturedTurn i with Some t => ts_TurnID t | None => "" end in
      let fresh := (ReadTurnFromTranscriptTurn files path target).1 in
      let candidate := set_capture (hi_Timestamp i) (Some fresh) i in
      if sameTurn (hi_CapturedTurn i) fresh && finalTranscriptPresent candidate then candidate
      else refine_loop reads path i event
  end.
Definition refineCapturedTurn (reads : list (string -> TranscriptFile)) (i : HookInput) (event : string) : HookInput :=
  if match hi_LastAssistantMessage i with None => true | Some _ => finalTranscriptPresent i end then applyFinalAssistant i event
  else
    let path := if bool_decide (event = "subagent-stop") then hi_AgentTranscriptPath i else hi_TranscriptPath i in
    if is_empty path then applyFinalAssistant i event else refine_loop reads path i event.

Example transcript_sample :
  let user := "{'type':'user','uuid':'u1','message':{'content':'fix it'}}" in
  let said := "{'type':'assistant','uuid':'a1','message':{'id':'m1','model':'opus', 'content': [{'type':'text','text':'done'}],'usage':{'input_tokens':7,'output_tokens':5}}}" in
  let nl := String newline "" in
  let file := apos (user +:+ nl +:+ said +:+ nl +:+ said +:+ nl) in
  (ReadTurnFromTranscript (fun _ => Opened file None) "t.jsonl").1
  = MkTurnStats "u1" "done" 7 5 "opus" [MkMessage "m1" "" "a1" "" "opus" (apos "[{'type':'text','text':'done'}]")] "complete" "".
Proof. vm_compute. reflexivity. Qed.
