(* ===== verification/Hooks.v ===== *)
(** What the plugin makes of each hook:
    src/claude-code-plugin/collector/mapping.go, with the recording helpers of deadletter.go.

    A handler runs inside a [hookTransaction]: it updates the session state and
    lists the operations to deliver.  Its only call to the server is
    StartExecution, so a handler is a [Prog]: a tree that may ask for that
    call.  The collector always prepares hooks this way; the direct delivery
    that the helpers fall back to without a transaction is reached by tests only. *)
From S2P Require Import Prelude Json Float64 AuditModel TimeText Execution Collector Transcript.
Local Open Scope Z_scope.

(** An error, and whether it is a permanentDeliveryError. *)
Record gerr := MkErr { ge_permanent : bool; ge_text : string }.
Definition plain (text : string) : gerr := MkErr false text.

Inductive Prog (A : Type) : Type :=
| Done (a : A)
| CallStart (r : StartExecutionRequest) (k : result gerr (list member) -> Prog A).
Arguments Done {A} a.
Arguments CallStart {A} r k.
Fixpoint prog_bind {A B} (f : A -> Prog B) (p : Prog A) : Prog B :=
  match p with Done a => f a | CallStart r k => CallStart r (fun x => prog_bind f (k x)) end.

Record hookTransaction := MkTx {
  tx_State : SessionState; tx_Operations : list DeadLetter; tx_ID : string; tx_Timestamp : string; tx_Input : HookInput;
  tx_Err : option gerr;
  tx_fresh : nat                (** how many random span ids have been drawn *)
}.

(** The handlers' monad. *)
Definition H (A : Type) : Type := hookTransaction -> Prog (A * hookTransaction).
Global Instance H_ret : MRet H := fun _ a t => Done (a, t).
Global Instance H_bind : MBind H := fun _ _ f m t => prog_bind (fun '(a, t) => f a t) (m t).
Definition tx_get {A} (f : hookTransaction -> A) : H A := fun t => Done (f t, t).
Definition set_State (s : SessionState) : H unit := fun t =>
  Done (tt, MkTx s (tx_Operations t) (tx_ID t) (tx_Timestamp t) (tx_Input t) (tx_Err t) (tx_fresh t)).
Definition set_Err (e : gerr) : H unit := fun t =>
  Done (tt, MkTx (tx_State t) (tx_Operations t) (tx_ID t) (tx_Timestamp t) (tx_Input t) (Some e) (tx_fresh t)).
Definition record_op (op : DeadLetter) : H unit := fun t =>
  Done (tt, MkTx (tx_State t) (tx_Operations t ++ [op]) (tx_ID t) (tx_Timestamp t) (tx_Input t) (tx_Err t) (tx_fresh t)).
Definition start_call (r : StartExecutionRequest) : H (result gerr (list member)) := fun t =>
  CallStart r (fun x => Done (x, t)).

(** Field updates of the session state. *)
Definition with_ids (session key exec turn : string) (s : SessionState) : SessionState :=
  MkState session key exec turn (st_PendingSpans s) (st_CompletedTools s) (st_Closed s).
Definition set_ExecutionKey (k : string) (s : SessionState) : SessionState :=
  with_ids (st_SessionID s) k (st_ExecutionID s) (st_TurnSpanID s) s.
Definition set_ExecutionID (id : string) (s : SessionState) : SessionState :=
  with_ids (st_SessionID s) (st_ExecutionKey s) id (st_TurnSpanID s) s.
Definition set_TurnSpanID (id : string) (s : SessionState) : SessionState :=
  with_ids (st_SessionID s) (st_ExecutionKey s) (st_ExecutionID s) id s.
Definition set_SessionID (id : string) (s : SessionState) : SessionState :=
  with_ids id (st_ExecutionKey s) (st_ExecutionID s) (st_TurnSpanID s) s.
Definition set_Pending (p : gmap string SpanStart) (s : SessionState) : SessionState :=
  MkState (st_SessionID s) (st_ExecutionKey s) (st_ExecutionID s) (st_TurnSpanID s) p (st_CompletedTools s) (st_Closed s).
Definition set_Completed (c : gmap string bool) (s : SessionState) : SessionState :=
  MkState (st_SessionID s) (st_ExecutionKey s) (st_ExecutionID s) (st_TurnSpanID s) (st_PendingSpans s) c (st_Closed s).
Definition set_Closed (c : bool) (s : SessionState) : SessionState :=
  MkState (st_SessionID s) (st_ExecutionKey s) (st_ExecutionID s) (st_TurnSpanID s) (st_PendingSpans s) (st_CompletedTools s) c.
Definition fresh_state (sessionID : string) : SessionState := MkState sessionID "" "" "" ∅ ∅ false.
Definition update (f : SessionState -> SessionState) : H unit := s ← tx_get tx_State; set_State (f s).

Record GitInfo := MkGit { gi_Branch : string; gi_Commit : string; gi_Remote : string }.

Section Hooks.
Variable cfg : Config.
(** Outside the program: the clock's text, random span ids, git, the environment, Unicode case, transcripts. *)
Variable clock : string.
Variable span_ids : nat -> string.
Variable git : string -> GitInfo.
Variable getenv : string -> string.
Variable lower : string -> string.
Variable files : string -> TranscriptFile.

Definition newSpanID : H string := fun t =>
  Done (span_ids (tx_fresh t),
        MkTx (tx_State t) (tx_Operations t) (tx_ID t) (tx_Timestamp t) (tx_Input t) (tx_Err t) (S (tx_fresh t))).
Definition hookTime : H string :=
  ts ← tx_get tx_Timestamp; mret (if is_empty ts then clock else ts).
Definition ReadGitInfo (cwd : string) : GitInfo := if is_empty cwd then MkGit "" "" "" else git cwd.

Definition HumanActor : Actor :=
  let id := if negb (is_empty (cf_ActorID cfg)) then cf_ActorID cfg
            else if negb (is_empty (getenv "USER")) then getenv "USER"
            else if negb (is_empty (getenv "USERNAME")) then getenv "USERNAME" else "unknown" in
  MkActor id "human" (cf_ActorEmail cfg).
Definition AgentActor : Actor := MkActor "claude-code" "agent" "".
Definition systemActor : Actor := MkActor "claude-code" "system" "".

(** * Recording operations *)

(** [strings.TrimPrefix(id, "span_")] under a new prefix. *)
Definition event_id (span : string) : string :=
  "evt_" +:+ (if has_prefix "span_" span then (str_split 5 span).2 else span).
Definition set_members (new m : list member) : list member := foldl (fun m kv => obj_set kv.1 kv.2 m) m new.

Definition auditLog (actor : Actor) (action : string) (resource : Resource) (outcome : string) (md : list member) : H unit :=
  span ← newSpanID;
  timestamp ← tx_get tx_Timestamp;
  session ← tx_get (fun t => hi_SessionID (tx_Input t));
  exec ← tx_get (fun t => st_ExecutionID (tx_State t));
  record_op (audit_letter (MkAuditInput (event_id span) timestamp actor action resource outcome
    (set_members [("capture_mode", JStr (cf_CaptureMode cfg)); ("session_id", JStr session); ("execution_id", JStr exec)] md))).

Definition requestLimit : Z :=
  if (0 <? cf_RequestMaxBytes cfg) && (cf_RequestMaxBytes cfg <? Z.shiftl 4 20) then cf_RequestMaxBytes cfg else Z.shiftl 4 20.
Definition spans_body (spans : list SpanPayload) : json := JObj [("spans", JArr (map (fun m => map_value (JObj m)) spans))].
(** Length of the JSON text; a value that cannot be marshalled has none. *)
Definition body_size (v : json) : Z := Z.of_nat (String.length (default "" (marshal v))).
(** The batches of one call: split at span boundaries, where the next span would not fit. *)
Fixpoint span_batches (batch spans : list SpanPayload) : list (list SpanPayload) :=
  match spans with
  | [] => match batch with [] => [] | _ => [batch] end
  | span :: spans =>
      match batch with
      | [] => span_batches [span] spans
      | _ => if requestLimit <? body_size (spans_body (batch ++ [span])) then batch :: span_batches [span] spans
             else span_batches (batch ++ [span]) spans
      end
  end.
Fixpoint record_ops (ops : list DeadLetter) : H unit :=
  match ops with [] => mret tt | op :: ops => record_op op;; record_ops ops end.
Definition ingestSpans (executionID : string) (spans : list SpanPayload) : H unit :=
  record_ops (map (spans_letter executionID) (span_batches [] spans)).
Definition endExecution (executionID status : string) : H unit :=
  now ← hookTime; record_op (end_letter executionID status now).

(** * Starting an execution *)

Definition executionIDFromResponse (resp : list member) : string :=
  let id := stringField resp "id" in if is_empty id then stringField resp "execution_id" else id.
Definition start_metadata (i : HookInput) (lazy : bool) : gmap string string :=
  let md := <["session_id" := hi_SessionID i]> (<["cwd" := hi_Cwd i]> (<["permission_mode" := hi_PermissionMode i]>
              (<["source" := hi_Source i]> ∅))) in
  let md := if lazy then <["lazy_start" := "true"]> md else md in
  let gi := ReadGitInfo (hi_Cwd i) in
  if is_empty (gi_Branch gi) && is_empty (gi_Commit gi) then md
  else <["git_branch" := gi_Branch gi]> (<["git_commit" := gi_Commit gi]> (<["git_remote" := gi_Remote gi]> md)).
Definition startExecution (i : HookInput) (trigger key : string) (lazy : bool) : H (result gerr string) :=
  resp ← start_call (MkStartRequest "claude-code" "Claude Code" trigger (start_metadata i lazy) key (hi_Timestamp i));
  mret (executionIDFromResponse <$> resp).

Definition executionKey : H string :=
  s ← tx_get tx_State;
  if is_empty (st_ExecutionKey s) then
    id ← tx_get tx_ID; update (set_ExecutionKey ("cc-" +:+ id));; mret ("cc-" +:+ id)
  else mret (st_ExecutionKey s).

Definition reopen (i : HookInput) : H unit :=
  update (fun s => if st_Closed s then fresh_state (hi_SessionID i) else s).
Definition ensureExecution (i : HookInput) : H string :=
  reopen i;;
  s ← tx_get tx_State;
  if negb (is_empty (st_ExecutionID s)) then mret (st_ExecutionID s)
  else
    key ← executionKey;
    r ← startExecution i "lazy" key true;
    match r with
    | Ok "" => set_Err (plain "execution start unavailable: <nil>");; mret ""
    | Ok id => update (set_ExecutionID id);; mret id
    | Err e => set_Err (plain ("execution start unavailable: " +:+ ge_text e));; mret ""
    end.

(** * The handlers *)

Definition session_resource (i : HookInput) : Resource := MkResource (hi_SessionID i) "claude_code.session" "".
Definition str_member (k v : string) : member := (k, JStr v).
Definition fail (e : gerr) : H (option gerr) := mret (Some e).
Definition ok (m : H unit) : H (option gerr) := m;; mret None.
Definition is_hash : bool := bool_decide (cf_CaptureMode cfg = CaptureHash).

Definition git_members (gi : GitInfo) : list member :=
  if is_empty (gi_Branch gi) && is_empty (gi_Commit gi) then []
  else [str_member "git_branch" (gi_Branch gi); str_member "git_commit" (gi_Commit gi); str_member "git_remote" (gi_Remote gi)].

Definition HandleSessionStart (i : HookInput) : H (option gerr) :=
  reopen i;;
  s ← tx_get tx_State;
  r ← (if is_empty (st_ExecutionID s) then
         key ← executionKey; startExecution i (hi_Source i) key false
       else mret (Ok (st_ExecutionID s)));
  match r with
  | Err e => fail e
  | Ok "" => fail (plain "backend omitted execution id")
  | Ok id =>
      update (fun s => set_Closed false (set_ExecutionID id (set_SessionID (hi_SessionID i) s)));;
      ok (auditLog HumanActor "claude_code.session.start" (session_resource i) "success"
            ([str_member "cwd" (hi_Cwd i); str_member "permission_mode" (hi_PermissionMode i);
              str_member "source" (hi_Source i); str_member "execution_id" id] ++ git_members (ReadGitInfo (hi_Cwd i))))
  end.

Definition prompt_member (i : HookInput) : list member := if is_hash then [] else [str_member "prompt" (hi_Prompt i)].
(** The members every recorded span starts with. *)
Definition span_head (id exec kind name status started : string) : SpanPayload :=
  [str_member "id" id; str_member "execution_id" exec; str_member "span_type" kind; str_member "name" name;
   str_member "status" status; str_member "started_at" started].
Definition parent_member (parent : string) : SpanPayload :=
  omit (is_empty parent) "parent_span_id" (JStr parent).

Definition adopt_session (i : HookInput) : H unit :=
  update (fun s => if is_empty (st_SessionID s) then set_SessionID (hi_SessionID i) s else s).
Definition HandleUserPrompt (i : HookInput) : H (option gerr) :=
  adopt_session i;;
  _ ← ensureExecution i;
  turn ← newSpanID;
  now ← hookTime;
  let kept : gmap string string := <["session_id" := hi_SessionID i]> (<["capture_mode" := cf_CaptureMode cfg]> ∅) in
  let kept := if is_hash then kept else <["prompt" := hi_Prompt i]> kept in
  update (fun s => set_Pending (<["__turn__" := MkSpanStart turn "turn" now (Some kept) "" ""]> (st_PendingSpans s))
                     (set_TurnSpanID turn s));;
  exec ← tx_get (fun t => st_ExecutionID (tx_State t));
  (if is_empty exec then mret tt
   else ingestSpans exec [span_head turn exec "CUSTOM" "turn" "RUNNING" now
          ++ [("metadata", JObj ([str_member "session_id" (hi_SessionID i); str_member "capture_mode" (cf_CaptureMode cfg)]
                                 ++ prompt_member i))]]);;
  ok (auditLog HumanActor "claude_code.prompt.submit" (session_resource i) "success"
        ([str_member "cwd" (hi_Cwd i); str_member "prompt_sha256" (Sha256Hex (hi_Prompt i));
          ("prompt_len", strlen (hi_Prompt i))] ++ prompt_member i)).

Definition pendingKey (i : HookInput) : string := if is_empty (hi_ToolUseID i) then hi_ToolName i else hi_ToolUseID i.
Definition completed (i : HookInput) (s : SessionState) : bool :=
  negb (is_empty (hi_ToolUseID i)) && default false (st_CompletedTools s !! pendingKey i).
Definition zero_start : SpanStart := MkSpanStart "" "" "" None "" "".

Definition HandlePreTool (i : HookInput) : H (option gerr) :=
  adopt_session i;;
  s ← tx_get tx_State;
  if completed i s then mret None
  else if bool_decide (is_Some (st_PendingSpans s !! pendingKey i)) then mret None
  else
    id ← newSpanID;
    now ← hookTime;
    update (set_Pending (<[pendingKey i := MkSpanStart id (hi_ToolName i) now None (hi_ToolInput i) (st_TurnSpanID s)]>
                           (st_PendingSpans s)));;
    exec ← ensureExecution i;
    if is_empty exec then mret None
    else
      s ← tx_get tx_State;
      let start := default zero_start (st_PendingSpans s !! pendingKey i) in
      let input := jsonString (RedactInput (hi_ToolInput i) (cf_CaptureMode cfg)) in
      let kept : gmap string string := <["tool_input" := input]> (<["tool_use_id" := hi_ToolUseID i]>
        (<["session_id" := hi_SessionID i]> (<["capture_mode" := cf_CaptureMode cfg]> ∅))) in
      let start := MkSpanStart (ss_SpanID start) (ss_Name start) (ss_StartedAt start) (Some kept) (ss_Input start) (ss_ParentSpanID start) in
      set_State (set_Pending (<[pendingKey i := start]> (st_PendingSpans s)) s);;
      ok (ingestSpans (st_ExecutionID s)
            [span_head (ss_SpanID start) (st_ExecutionID s) "TOOL_CALL" (ss_Name start) "RUNNING" (ss_StartedAt start)
             ++ [("metadata", JObj (strmap_members kept))] ++ parent_member (st_TurnSpanID s)]).

Definition capturedError (e : string) : string := if RawCapture cfg then e else truncate e 500.
Definition error_member (failed : bool) (i : HookInput) : list member :=
  if failed && negb (is_empty (hi_Error i)) && negb is_hash then [str_member "error" (capturedError (hi_Error i))] else [].

(** The span of a finished call. *)
Definition tool_span (span : SpanStart) (exec endedAt : string) (failed : bool) (i : HookInput) : SpanPayload :=
  let mode := cf_CaptureMode cfg in
  span_head (ss_SpanID span) exec "TOOL_CALL" (ss_Name span) (if failed then "FAILED" else "COMPLETED") (ss_StartedAt span)
  ++ [str_member "ended_at" endedAt;
      ("metadata", JObj ([str_member "tool_input" (jsonString (RedactInput (hi_ToolInput i) mode));
                          str_member "output" (jsonString (SummarizeOutput (hi_ToolResponse i) mode));
                          str_member "tool_use_id" (hi_ToolUseID i); str_member "session_id" (hi_SessionID i);
                          str_member "capture_mode" mode] ++ error_member failed i))]
  ++ parent_member (ss_ParentSpanID span).
Definition handlePostTool (i : HookInput) (forceError : bool) : H (option gerr) :=
  s ← tx_get tx_State;
  let key := pendingKey i in
  if completed i s then mret None
  else
    span ← match st_PendingSpans s !! key with
           | Some span => mret span
           | None => id ← newSpanID; now ← hookTime; mret (MkSpanStart id (hi_ToolName i) now None "" (st_TurnSpanID s))
           end;
    let i := set_tool (if is_empty (hi_ToolName i) then ss_Name span else hi_ToolName i)
               (if is_empty (hi_ToolInput i) then ss_Input span else hi_ToolInput i) i in
    set_State (set_Completed (if is_empty (hi_ToolUseID i) then st_CompletedTools s else <[key := true]> (st_CompletedTools s))
                 (set_Pending (delete key (st_PendingSpans s)) s));;
    execID ← ensureExecution i;
    exec ← tx_get (fun t => st_ExecutionID (tx_State t));
    let failed := forceError || toolCallFailed i in
    endedAt ← hookTime;
    mi ← newSpanID;
    (if is_empty execID then mret tt
     else ingestSpans execID (tool_span span exec endedAt failed i
            :: match MaybeModelInvocationSpan mi clock i exec (ss_ParentSpanID span) with Some m => [m] | None => [] end));;
    ok (auditLog AgentActor ("claude_code.tool." +:+ ToLower lower (hi_ToolName i))
          (ResourceFromTool (hi_ToolName i) (hi_ToolInput i) (cf_CaptureMode cfg)) (if failed then "error" else "success")
          ([str_member "session_id" (hi_SessionID i); str_member "tool_use_id" (hi_ToolUseID i); str_member "execution_id" exec;
            ("tool_input", JObj (RedactInput (hi_ToolInput i) (cf_CaptureMode cfg)));
            ("tool_response", JObj (SummarizeOutput (hi_ToolResponse i) (cf_CaptureMode cfg)))] ++ error_member failed i)).
Definition HandlePostTool (i : HookInput) : H (option gerr) := handlePostTool i false.
Definition HandlePostToolFailure (i : HookInput) : H (option gerr) := handlePostTool i true.

(** A span that starts and ends now, under the active turn. *)
Definition point_span (exec kind name : string) (md : list member) : H unit :=
  now ← hookTime; id ← newSpanID; turn ← tx_get (fun t => st_TurnSpanID (tx_State t));
  ingestSpans exec [span_head id exec kind name "COMPLETED" now ++ [str_member "ended_at" now; ("metadata", JObj md)]
                    ++ parent_member turn].

Definition HandlePermission (i : HookInput) : H (option gerr) :=
  let denied := EqualFold (hi_HookEventName i) "PermissionDenied" in
  let decision := if denied then "denied" else "requested" in
  exec ← ensureExecution i;
  (if is_empty exec then mret tt
   else point_span exec "HUMAN_APPROVAL" ("permission:" +:+ hi_ToolName i)
          [str_member "tool" (hi_ToolName i); str_member "decision" decision]);;
  exec ← tx_get (fun t => st_ExecutionID (tx_State t));
  ok (auditLog HumanActor (if denied then "claude_code.permission.denied" else "claude_code.permission.request")
        (ResourceFromTool (hi_ToolName i) (hi_ToolInput i) (cf_CaptureMode cfg)) (if denied then "failure" else "success")
        [str_member "session_id" (hi_SessionID i); str_member "tool_name" (hi_ToolName i); str_member "decision" decision;
         str_member "execution_id" exec]).

Definition HandleNotification (i : HookInput) : H (option gerr) :=
  ok (auditLog systemActor "claude_code.notification" (session_resource i) "success" [str_member "message" (hi_Message i)]).

(** ** The assistant's response *)

Definition message_json (m : AssistantMessage) : json :=
  JObj ([str_member "id" (am_ID m)] ++ omit (is_empty (am_Source m)) "source" (JStr (am_Source m))
        ++ omit (is_empty (am_UUID m)) "uuid" (JStr (am_UUID m))
        ++ omit (is_empty (am_Timestamp m)) "timestamp" (JStr (am_Timestamp m))
        ++ omit (is_empty (am_Model m)) "model" (JStr (am_Model m)) ++ [("content", default JNull (decode (am_Content m)))]).
Definition messages_json (l : list AssistantMessage) : json :=
  match l with [] => JNull | _ => JArr (map message_json l) end.
Definition turnResponsePreviewLen : nat := 1500.
(** The response under the capture mode. *)
Definition response_members (stats : TurnStats) : list member :=
  if RawCapture cfg then [str_member "response" (ts_ResponseText stats); ("messages", messages_json (ts_Messages stats))]
  else if bool_decide (cf_CaptureMode cfg = CaptureMetadata) then
    [str_member "response" (truncate (ts_ResponseText stats) turnResponsePreviewLen);
     ("response_truncated", JBool (Nat.ltb turnResponsePreviewLen (String.length (ts_ResponseText stats))))]
  else [].
Definition response_digest (stats : TurnStats) : list member :=
  [("response_len", strlen (ts_ResponseText stats)); str_member "response_sha256" (Sha256Hex (ts_ResponseText stats));
   str_member "capture_status" (ts_CaptureStatus stats); str_member "capture_reason" (ts_CaptureReason stats)].

Definition HandleSubagentStop (i : HookInput) : H (option gerr) :=
  exec ← ensureExecution i;
  (if is_empty exec then mret tt
   else point_span exec "CUSTOM" ("subagent:" +:+ hi_AgentType i)
          [str_member "agent_type" (hi_AgentType i); str_member "agent_id" (hi_AgentID i)]);;
  let stats := match hi_CapturedTurn i with Some s => s | None => (ReadTurnFromTranscript files (hi_AgentTranscriptPath i)).1 end in
  ok (auditLog AgentActor "claude_code.subagent.stop" (session_resource i) "success"
        ([str_member "agent_type" (hi_AgentType i); str_member "agent_id" (hi_AgentID i)] ++ response_digest stats
         ++ response_members stats)).

Definition model_span (id exec turn now : string) (stats : TurnStats) : SpanPayload :=
  let model := if is_empty (ts_Model stats) then "claude" else ts_Model stats in
  span_head id exec "MODEL_INVOCATION" "model_invocation" "COMPLETED" now
  ++ [str_member "ended_at" now; ("metadata", JObj []);
      ("model_invocation", JObj [str_member "model_name" model; str_member "model_provider" "anthropic";
         ("prompt_tokens", JInt (ts_InputTokens stats)); ("completion_tokens", JInt (ts_OutputTokens stats));
         ("total_tokens", JInt (wrap64 (ts_InputTokens stats + ts_OutputTokens stats)))])]
  ++ parent_member turn.
Definition emitTurnComplete (i : HookInput) (exec turn : string) (stats : TurnStats) : H unit :=
  auditLog AgentActor "claude_code.turn.complete" (session_resource i) "success"
    ([str_member "session_id" (hi_SessionID i); str_member "execution_id" exec; str_member "model" (ts_Model stats);
      ("input_tokens", JInt (ts_InputTokens stats)); ("output_tokens", JInt (ts_OutputTokens stats))]
     ++ response_digest stats ++ response_members stats);;
  if negb (is_empty exec) && ((0 <? ts_InputTokens stats) || (0 <? ts_OutputTokens stats)) then
    now ← hookTime; id ← newSpanID; ingestSpans exec [model_span id exec turn now stats]
  else mret tt.

Definition HandleStop (i : HookInput) : H (option gerr) :=
  exec ← ensureExecution i;
  s ← tx_get tx_State;
  turn ← match st_PendingSpans s !! "__turn__" with
         | None => mret ""
         | Some turn =>
             now ← hookTime;
             (if is_empty exec then mret tt
              else ingestSpans exec [span_head (ss_SpanID turn) exec "CUSTOM" "turn" "COMPLETED" (ss_StartedAt turn)
                     ++ [str_member "ended_at" now; ("metadata", strmap_json (ss_Metadata turn))]]);;
             update (fun s => set_Pending (delete "__turn__" (st_PendingSpans s)) s);; mret (ss_SpanID turn)
         end;
  update (set_TurnSpanID "");;
  let stats := match hi_CapturedTurn i with Some s => s | None => (ReadTurnFromTranscript files (hi_TranscriptPath i)).1 end in
  ok (emitTurnComplete i exec turn stats).

(** A span left open when its session ends. *)
Definition cancelled_span (exec now : string) (kv : string * SpanStart) : SpanPayload :=
  let '(key, p) := kv in
  let md := <["capture_status" := "partial"]> (<["capture_reason" := "session ended before completion hook"]> (default ∅ (ss_Metadata p))) in
  span_head (ss_SpanID p) exec (if bool_decide (key = "__turn__") then "CUSTOM" else "TOOL_CALL") (ss_Name p) "CANCELLED" (ss_StartedAt p)
  ++ [str_member "ended_at" now; ("metadata", JObj (strmap_members md))] ++ parent_member (ss_ParentSpanID p).
Definition pending_sorted (s : SessionState) : list (string * SpanStart) :=
  merge_sort (fun a b => String.le a.1 b.1) (map_to_list (st_PendingSpans s)).

Definition HandleSessionEnd (i : HookInput) : H (option gerr) :=
  s ← tx_get tx_State;
  let exec := st_ExecutionID s in
  now ← hookTime;
  (if negb (is_empty exec) && negb (bool_decide (st_PendingSpans s = ∅)) then
     ingestSpans exec (map (cancelled_span exec now) (pending_sorted s))
   else mret tt);;
  (if is_empty exec then mret tt else endExecution exec "COMPLETED");;
  let gi := ReadGitInfo (hi_Cwd i) in
  auditLog HumanActor "claude_code.session.end" (session_resource i) "success"
    ([str_member "reason" (hi_Reason i); str_member "execution_id" exec]
     ++ if is_empty (gi_Commit gi) then []
        else [str_member "git_commit_end" (gi_Commit gi); str_member "git_branch" (gi_Branch gi)]);;
  update (set_Closed true);;
  mret None.

Definition dispatchHook (event : string) (i : HookInput) : H (option gerr) :=
  if bool_decide (event = "session-start") then HandleSessionStart i
  else if bool_decide (event = "prompt") then HandleUserPrompt i
  else if bool_decide (event = "pre-tool") then HandlePreTool i
  else if bool_decide (event = "post-tool") then HandlePostTool i
  else if bool_decide (event = "post-tool-failure") then HandlePostToolFailure i
  else if bool_decide (event = "permission") then HandlePermission i
  else if bool_decide (event = "notify") then HandleNotification i
  else if bool_decide (event = "subagent-stop") then HandleSubagentStop i
  else if bool_decide (event = "stop") then HandleStop i
  else if bool_decide (event = "session-end") then HandleSessionEnd i
  else fail (plain ("unsupported hook " +:+ render (JStr event))).
End Hooks.
