(* ===== verification/HashMode.v ===== *)
(** What hash mode lets out of the machine.

    Two hooks that differ only in texts the mode hides ([hidden]) make the
    collector send the same requests and record the same operations: the handlers
    are related program by program ([prog_rel]), in states that differ in hidden
    texts only ([tx_alike]). *)
From S2P Require Import Prelude Json Float64 AuditModel TimeText Execution Collector Transcript Hooks.
Local Open Scope Z_scope.

(** * Hidden texts *)

(** Of a hidden text its digest and its length are sent. *)
Definition alike (s s' : string) : Prop := Sha256Hex s = Sha256Hex s' /\ String.length s = String.length s'.
Fixpoint similar (v v' : json) {struct v} : Prop :=
  match v, v' with
  | JStr s, JStr s' => alike s s'
  | JArr l, JArr l' =>
      (fix all (l l' : list json) : Prop :=
         match l, l' with [], [] => True | x :: l, x' :: l' => similar x x' /\ all l l' | _, _ => False end) l l'
  | JObj m, JObj m' =>
      (fix all (m m' : list member) : Prop :=
         match m, m' with
         | [], [] => True
         | (k, x) :: m, (k', x') :: m' => k = k' /\ similar x x' /\ all m m'
         | _, _ => False
         end) m m'
  | _, _ => v = v'
  end.
Definition similar_decoded (dec : string -> option json) (r r' : RawMessage) : Prop :=
  match dec r, dec r' with Some v, Some v' => similar v v' | None, None => alike r r' | _, _ => False end.
Definition alike_raw (r r' : RawMessage) : Prop :=
  r = r' \/ is_empty r = false /\ is_empty r' = false /\ similar_decoded decode r r' /\ similar_decoded unmarshal r r'.

Lemma alike_refl s : alike s s.
Proof. done. Qed.
Lemma alike_empty s s' : alike s s' -> is_empty s = is_empty s'.
Proof. intros [_ H]. by destruct s, s'. Qed.
Lemma similar_refl v : similar v v.
Proof.
  induction v as [|b|lit|s|l IH|m IH] using json_ind'; cbn; try done.
  - induction IH as [|x l Hx _ IH]; [done|]. by split.
  - induction IH as [|[k x] m Hx _ IH]; [done|]. by split_and!.
Qed.

(** Reduction in hash mode forgets what [similar] forgets. *)
Lemma redact_similar v : forall v' k k', similar v v' -> redactValue CaptureHash k v = redactValue CaptureHash k' v'.
Proof.
  induction v as [|b|lit|s|l IH|m IH] using json_ind'; intros [|b'|lit'|s'|l'|m'] k k' H; cbn in H; try done; try by injection H as ->.
  - destruct H as [Hd Hl]. cbn. unfold redact_string, strlen. change (bool_decide (CaptureHash = CaptureRawMode)) with false.
    change (bool_decide (CaptureHash = CaptureMetadata)) with false. cbn [andb]. by rw Hd Hl.
  - cbn. f_equal. revert l' H. induction IH as [|x l Hx _ IH]; intros [|x' l'] H; try done. destruct H as [H1 H2]. cbn.
    by rw (Hx x' k k' H1) (IH l' H2).
  - cbn. f_equal. revert m' H. induction IH as [|[key x] m Hx _ IH]; intros [|[key' x'] m'] H; try done.
    destruct H as (-> & H1 & H2). cbn. by rw (Hx x' key' key' H1) (IH m' H2).
Qed.
Lemma RedactInput_alike r r' : alike_raw r r' -> RedactInput r CaptureHash = RedactInput r' CaptureHash.
Proof.
  intros [-> |(H1 & H2 & Hd & _)]; [done|]. unfold RedactInput, similar_decoded in *. rw H1 H2.
  destruct (decode r) as [v|], (decode r') as [v'|]; try done.
  - by rw (redact_similar v v' "" "" Hd).
  - by rw (redact_similar (JStr r) (JStr r') "" "" Hd).
Qed.
Lemma Summarize_alike r r' : alike_raw r r' -> SummarizeOutput r CaptureHash = SummarizeOutput r' CaptureHash.
Proof. apply RedactInput_alike. Qed.

Lemma field_similar m : forall m' k, similar (JObj m) (JObj m') ->
  match field k m, field k m' with Some v, Some v' => similar v v' | None, None => True | _, _ => False end.
Proof.
  induction m as [|[key x] m IH]; intros [|[key' x'] m'] k H; try done. destruct H as (-> & Hx & Hm). cbn.
  case_bool_decide; [done|]. by apply IH.
Qed.
Lemma stringField_similar m m' k : similar (JObj m) (JObj m') -> alike (stringField m k) (stringField m' k).
Proof.
  intros H. pose proof (field_similar m m' k H) as Hf. unfold stringField. destruct (field k m) as [v|], (field k m') as [v'|]; try done.
  destruct v, v'; try done; by injection Hf as ->.
Qed.
Lemma object_alike r r' : alike_raw r r' -> similar (JObj (object_members r)) (JObj (object_members r')).
Proof.
  intros [-> |(H1 & H2 & _ & Hu)]; [apply similar_refl|]. unfold object_members, similar_decoded in *. rw H1 H2.
  destruct (unmarshal r) as [v|], (unmarshal r') as [v'|]; try done. by destruct v, v'.
Qed.
Lemma Resource_alike name r r' : alike_raw r r' -> ResourceFromTool name r CaptureHash = ResourceFromTool name r' CaptureHash.
Proof.
  intros H. apply object_alike in H. unfold ResourceFromTool. set (m := object_members r) in *. set (m' := object_members r') in *.
  pose proof (stringField_similar m m' "command" H) as [Hc _].
  pose proof (stringField_similar m m' "file_path" H) as Hf. pose proof (stringField_similar m m' "notebook_path" H) as Hn.
  pose proof (alike_empty _ _ Hf) as Ef. pose proof (alike_empty _ _ Hn) as En. clearbody m m'. cbv zeta.
  change (bool_decide (CaptureHash = CaptureHash)) with true. rw Hc Ef.
  destruct (is_empty (stringField m' "file_path")) eqn:E; rw ?Ef ?E ?En; [destruct Hn as [Hs _]|destruct Hf as [Hs _]]; by rw Hs.
Qed.

(** * Hooks and states that differ in hidden texts *)

Definition alike_turn (s s' : TurnStats) : Prop :=
  ts_InputTokens s = ts_InputTokens s' /\ ts_OutputTokens s = ts_OutputTokens s' /\ ts_Model s = ts_Model s'
  /\ ts_CaptureStatus s = ts_CaptureStatus s' /\ ts_CaptureReason s = ts_CaptureReason s'
  /\ alike (ts_ResponseText s) (ts_ResponseText s').
(** [i] with other content. *)
Definition with_content (input response : RawMessage) (prompt error : string) (final : option string)
    (turn : option TurnStats) (i : HookInput) : HookInput :=
  MkHook (hi_SessionID i) (hi_AgentTranscriptPath i) (hi_TranscriptPath i) (hi_Cwd i) (hi_PermissionMode i)
    (hi_HookEventName i) (hi_ToolName i) input response (hi_ToolUseID i) prompt (hi_Source i) (hi_Message i)
    (hi_AgentType i) (hi_AgentID i) (hi_Reason i) error (hi_Timestamp i) final turn (hi_TotalCostUSD i)
    (hi_DurationMs i) (hi_Usage i).
(** The error text and the messages of the turn are not sent at all; that a call failed is. *)
Definition hidden (i i' : HookInput) : Prop :=
  i' = with_content (hi_ToolInput i') (hi_ToolResponse i') (hi_Prompt i') (hi_Error i') (hi_LastAssistantMessage i')
         (hi_CapturedTurn i') i
  /\ alike_raw (hi_ToolInput i) (hi_ToolInput i') /\ alike_raw (hi_ToolResponse i) (hi_ToolResponse i')
  /\ alike (hi_Prompt i) (hi_Prompt i') /\ toolCallFailed i = toolCallFailed i'
  /\ option_Forall2 alike_turn (hi_CapturedTurn i) (hi_CapturedTurn i').

Definition alike_start (s s' : SpanStart) : Prop :=
  s' = MkSpanStart (ss_SpanID s) (ss_Name s) (ss_StartedAt s) (ss_Metadata s) (ss_Input s') (ss_ParentSpanID s)
  /\ alike_raw (ss_Input s) (ss_Input s').
Definition alike_pending (p p' : gmap string SpanStart) : Prop := forall k, option_Forall2 alike_start (p !! k) (p' !! k).
Definition state_alike (s s' : SessionState) : Prop :=
  s' = set_Pending (st_PendingSpans s') s /\ alike_pending (st_PendingSpans s) (st_PendingSpans s').
Definition tx_alike (t t' : hookTransaction) : Prop :=
  state_alike (tx_State t) (tx_State t') /\ hi_SessionID (tx_Input t) = hi_SessionID (tx_Input t')
  /\ tx_Operations t = tx_Operations t' /\ tx_Err t = tx_Err t' /\ tx_ID t = tx_ID t'
  /\ tx_Timestamp t = tx_Timestamp t' /\ tx_fresh t = tx_fresh t'.

(** * Related programs *)

Inductive prog_rel {A} (R : A -> A -> Prop) : Prog A -> Prog A -> Prop :=
| rel_done a a' : R a a' -> prog_rel R (Done a) (Done a')
| rel_start r k k' : (forall x, prog_rel R (k x) (k' x)) -> prog_rel R (CallStart r k) (CallStart r k').
(** Handlers that answer related values and keep states alike. *)
Definition hrel {A} (R : A -> A -> Prop) (m m' : H A) : Prop :=
  forall t t', tx_alike t t' -> prog_rel (fun x y => R x.1 y.1 /\ tx_alike x.2 y.2) (m t) (m' t').

Lemma prog_bind_rel {A B} (R : A -> A -> Prop) (S : B -> B -> Prop) f f' p p' :
  prog_rel R p p' -> (forall a a', R a a' -> prog_rel S (f a) (f' a')) -> prog_rel S (prog_bind f p) (prog_bind f' p').
Proof. intros Hp Hf. induction Hp as [a a' Ha|r k k' _ IH]; cbn; [by apply Hf|]. by constructor. Qed.
Lemma hrel_bind {A B} (R : A -> A -> Prop) (S : B -> B -> Prop) (m m' : H A) (f f' : A -> H B) :
  hrel R m m' -> (forall a a', R a a' -> hrel S (f a) (f' a')) -> hrel S (m ≫= f) (m' ≫= f').
Proof.
  intros Hm Hf t t' Ht. unfold mbind, H_bind. eapply prog_bind_rel; [by apply Hm|]. intros [a u] [a' u'] [Ha Hu]. by apply Hf.
Qed.
Lemma hrel_ret {A} (R : A -> A -> Prop) a a' : R a a' -> hrel R (mret a : H A) (mret a').
Proof. intros Ha t t' Ht. by constructor. Qed.
Lemma hrel_get {A} (R : A -> A -> Prop) (f f' : hookTransaction -> A) :
  (forall t t', tx_alike t t' -> R (f t) (f' t')) -> hrel R (tx_get f) (tx_get f').
Proof. intros Hf t t' Ht. constructor. split; [by apply Hf|done]. Qed.

Lemma hrel_eq {A} (m : H A) : hrel eq m m -> hrel eq m m.
Proof. done. Qed.
Lemma state_alike_refl s : state_alike s s.
Proof.
  split; [by destruct s|]. intros k. destruct (st_PendingSpans s !! k) as [x|]; constructor. split; [by destruct x|by left].
Qed.
(** An update that keeps the pending spans, or treats them alike. *)
Lemma state_alike_pending s s' p p' : state_alike s s' -> alike_pending p p' -> state_alike (set_Pending p s) (set_Pending p' s').
Proof. intros [-> _] Hp. by split. Qed.

Lemma state_alike_inv s s' : state_alike s s' -> exists p', s' = set_Pending p' s /\ alike_pending (st_PendingSpans s) p'.
Proof. intros [H Hp]. by exists (st_PendingSpans s'). Qed.
Lemma alike_insert p p' k x x' : alike_pending p p' -> alike_start x x' -> alike_pending (<[k := x]> p) (<[k := x']> p').
Proof. intros Hp Hx j. rw !lookup_insert. case_decide; [by constructor|apply Hp]. Qed.
Lemma alike_delete p p' k : alike_pending p p' -> alike_pending (delete k p) (delete k p').
Proof. intros Hp j. rw !lookup_delete. case_decide; [constructor|apply Hp]. Qed.
Lemma alike_known p p' k : alike_pending p p' -> is_Some (p !! k) <-> is_Some (p' !! k).
Proof. intros Hp. destruct (Hp k); split; intros []; by eexists. Qed.
Lemma alike_start_refl x : alike_start x x.
Proof. split; [by destruct x|by left]. Qed.
Lemma alike_lookup p p' k : alike_pending p p' -> alike_start (default zero_start (p !! k)) (default zero_start (p' !! k)).
Proof. intros Hp. destruct (Hp k); [done|apply alike_start_refl]. Qed.

(** A start without its input, which nothing that ends a session looks at. *)
Definition no_input (x : SpanStart) : SpanStart :=
  MkSpanStart (ss_SpanID x) (ss_Name x) (ss_StartedAt x) (ss_Metadata x) "" (ss_ParentSpanID x).
Lemma alike_no_input p p' : alike_pending p p' -> no_input <$> p = no_input <$> p'.
Proof. intros Hp. apply map_eq. intros k. rw !lookup_fmap. by destruct (Hp k) as [x x' [-> _]|]. Qed.
Lemma alike_is_empty p p' : alike_pending p p' -> p = ∅ <-> p' = ∅.
Proof. intros Hp%alike_no_input. rw -(fmap_empty_iff no_input p) -(fmap_empty_iff no_input p'). by rw Hp. Qed.

Definition key_before (x y : string * SpanStart) : Prop := String.le x.1 y.1.
#[local] Instance key_before_trans : Transitive key_before.
Proof. intros x y z. unfold key_before. apply transitivity. Qed.
#[local] Instance key_before_total : Total key_before.
Proof. intros x y. apply String.le_total. Qed.
Lemma pending_keys s s' : alike_pending (st_PendingSpans s) (st_PendingSpans s') ->
  map (prod_map id no_input) (pending_sorted s) = map (prod_map id no_input) (pending_sorted s').
Proof.
  intros Hp%alike_no_input.
  assert (Hperm : forall u, map (prod_map id no_input) (pending_sorted u) ≡ₚ map_to_list (no_input <$> st_PendingSpans u)).
  { intros u. unfold pending_sorted. rw merge_sort_Permutation. by rw map_to_list_fmap. }
  assert (Hsort : forall u, StronglySorted key_before (map (prod_map id no_input) (pending_sorted u))).
  { intros u. assert (H : StronglySorted key_before (pending_sorted u)) by (apply (StronglySorted_merge_sort key_before); apply _).
    induction H as [|x l _ IH Hx]; cbn; [constructor|]. constructor; [done|]. by apply Forall_map. }
  apply (StronglySorted_unique_strong key_before); [|apply Hsort|apply Hsort|by rw !Hperm Hp].
  intros [k x] [k' x'] H1 H2 L1 L2. rw Hperm elem_of_map_to_list in H1. rw Hperm elem_of_map_to_list -Hp in H2.
  assert (k = k') as <- by (by apply (anti_symm String.le)). rw H1 in H2. by injection H2 as ->.
Qed.
Lemma cancelled_no_input exec now x : cancelled_span exec now x = cancelled_span exec now (prod_map id no_input x).
Proof. by destruct x. Qed.
Lemma cancelled_alike exec now s s' : alike_pending (st_PendingSpans s) (st_PendingSpans s') ->
  map (cancelled_span exec now) (pending_sorted s) = map (cancelled_span exec now) (pending_sorted s').
Proof.
  intros Hp%pending_keys. rw !(map_ext _ _ (cancelled_no_input exec now)) -(map_map (prod_map id no_input)) Hp. by rw map_map.
Qed.

(** A step that answers and changes every field but the state in the same way. *)
Ltac plain_step :=
  intros t t' (Hs & Hi & Ho & He & Hid & Ht & Hf); constructor; cbn; unfold tx_alike; cbn;
  rw ?Ho ?He ?Hid ?Ht ?Hf; by split.

Lemma rel_set_State s s' : state_alike s s' -> hrel eq (set_State s) (set_State s').
Proof. intros Hs0. plain_step. Qed.
Lemma rel_get_State : hrel state_alike (tx_get tx_State) (tx_get tx_State).
Proof. apply hrel_get. by intros t t' [? _]. Qed.
Lemma rel_update f f' : (forall s s', state_alike s s' -> state_alike (f s) (f' s')) -> hrel eq (update f) (update f').
Proof. intros Hf. eapply hrel_bind; [apply rel_get_State|]. intros s s' Hs. by apply rel_set_State, Hf. Qed.
Lemma rel_record op : hrel eq (record_op op) (record_op op).
Proof. plain_step. Qed.
Lemma rel_record_ops ops : hrel eq (record_ops ops) (record_ops ops).
Proof. induction ops as [|op ops IH]; cbn; [by apply hrel_ret|]. eapply hrel_bind; [apply rel_record|]. by intros. Qed.
Lemma rel_start_call r : hrel eq (start_call r) (start_call r).
Proof. intros t t' Ht. constructor. intros x. by constructor. Qed.
Lemma rel_set_Err e : hrel eq (set_Err e) (set_Err e).
Proof. plain_step. Qed.

Section Handlers.
Variable cfg : Config.
Variable clock : string.
Variable span_ids : nat -> string.
Variable git : string -> GitInfo.
Variable getenv : string -> string.
Variable lower : string -> string.
Variable files : string -> TranscriptFile.
Hypothesis Hmode : cf_CaptureMode cfg = CaptureHash.

Lemma rel_newSpanID : hrel eq (newSpanID span_ids) (newSpanID span_ids).
Proof. plain_step. Qed.
Lemma rel_hookTime : hrel eq (hookTime clock) (hookTime clock).
Proof.
  eapply (hrel_bind eq); [apply hrel_get; by intros t t' (_ & _ & _ & _ & _ & -> & _)|]. intros ts _ <-. by apply hrel_ret.
Qed.
Lemma rel_get_exec : hrel eq (tx_get (fun t => st_ExecutionID (tx_State t))) (tx_get (fun t => st_ExecutionID (tx_State t))).
Proof. apply hrel_get. by intros t t' [[-> _] _]. Qed.
Lemma rel_get_turn : hrel eq (tx_get (fun t => st_TurnSpanID (tx_State t))) (tx_get (fun t => st_TurnSpanID (tx_State t))).
Proof. apply hrel_get. by intros t t' [[-> _] _]. Qed.
Lemma rel_auditLog actor action resource outcome md :
  hrel eq (auditLog cfg span_ids actor action resource outcome md) (auditLog cfg span_ids actor action resource outcome md).
Proof.
  eapply (hrel_bind eq); [apply rel_newSpanID|]. intros span _ <-.
  eapply (hrel_bind eq); [apply hrel_get; by intros t t' (_ & _ & _ & _ & _ & -> & _)|]. intros ts _ <-.
  eapply (hrel_bind eq); [apply hrel_get; by intros t t' (_ & -> & _)|]. intros session _ <-.
  eapply (hrel_bind eq); [apply rel_get_exec|]. intros exec _ <-. apply rel_record.
Qed.
Lemma rel_ingest exec spans : hrel eq (ingestSpans cfg exec spans) (ingestSpans cfg exec spans).
Proof. apply rel_record_ops. Qed.
Lemma rel_end exec status : hrel eq (endExecution clock exec status) (endExecution clock exec status).
Proof. eapply (hrel_bind eq); [apply rel_hookTime|]. intros now _ <-. apply rel_record. Qed.
Lemma rel_ok (m m' : H unit) : hrel eq m m' -> hrel eq (ok m) (ok m').
Proof. intros Hm. eapply (hrel_bind eq); [done|]. intros. by apply hrel_ret. Qed.
Lemma rel_if {A} (R : A -> A -> Prop) (b : bool) (m m' n n' : H A) :
  hrel R m m' -> hrel R n n' -> hrel R (if b then m else n) (if b then m' else n').
Proof. by destruct b. Qed.

(** ** The content of a hook replaced *)

Section Content.
Variables (i : HookInput) (input response : RawMessage) (prompt error : string) (final : option string) (turn : option TurnStats).
Local Abbreviation i' := (with_content input response prompt error final turn i).

Lemma rel_executionKey : hrel eq executionKey executionKey.
Proof.
  eapply hrel_bind; [apply rel_get_State|]. intros s s' [-> Hp]. cbn. apply rel_if; [|by apply hrel_ret].
  eapply (hrel_bind eq); [apply hrel_get; by intros t t' (_ & _ & _ & _ & -> & _)|]. intros id _ <-.
  eapply (hrel_bind eq); [|intros; by apply hrel_ret]. apply rel_update. intros u u' [-> Hu]. by split.
Qed.
Lemma rel_startExecution trigger key lazy :
  hrel eq (startExecution git i trigger key lazy) (startExecution git i' trigger key lazy).
Proof. eapply (hrel_bind eq); [apply rel_start_call|]. intros resp _ <-. by apply hrel_ret. Qed.
Lemma rel_reopen : hrel eq (reopen i) (reopen i').
Proof. apply rel_update. intros s s' [-> Hp]. cbn. destruct (st_Closed s); [apply state_alike_refl|by split]. Qed.
Lemma rel_ensure : hrel eq (ensureExecution git i) (ensureExecution git i').
Proof.
  eapply (hrel_bind eq); [apply rel_reopen|]. intros _ _ _.
  eapply hrel_bind; [apply rel_get_State|]. intros s s' [-> Hp]. cbn. apply rel_if; [by apply hrel_ret|].
  eapply (hrel_bind eq); [apply rel_executionKey|]. intros key _ <-.
  eapply (hrel_bind eq); [apply rel_startExecution|]. intros [[|c id]|e] _ <-.
  - eapply (hrel_bind eq); [apply rel_set_Err|]. intros. by apply hrel_ret.
  - eapply (hrel_bind eq); [|intros; by apply hrel_ret]. apply rel_update. intros u u' [-> Hu]. by split.
  - eapply (hrel_bind eq); [apply rel_set_Err|]. intros. by apply hrel_ret.
Qed.
Lemma rel_adopt : hrel eq (adopt_session i) (adopt_session i').
Proof. apply rel_update. intros s s' [-> Hp]. cbn. by destruct (is_empty _). Qed.
Lemma rel_point exec kind name md : hrel eq (point_span cfg clock span_ids exec kind name md) (point_span cfg clock span_ids exec kind name md).
Proof.
  eapply (hrel_bind eq); [apply rel_hookTime|]. intros now _ <-. eapply (hrel_bind eq); [apply rel_newSpanID|]. intros id _ <-.
  eapply (hrel_bind eq); [apply rel_get_turn|]. intros t _ <-. apply rel_ingest.
Qed.

Lemma rel_SessionStart : hrel eq (HandleSessionStart cfg span_ids git getenv i) (HandleSessionStart cfg span_ids git getenv i').
Proof.
  eapply (hrel_bind eq); [apply rel_reopen|]. intros _ _ _.
  eapply hrel_bind; [apply rel_get_State|]. intros s s' [-> Hp]. cbn.
  eapply (hrel_bind eq).
  { apply rel_if; [|by apply hrel_ret]. eapply (hrel_bind eq); [apply rel_executionKey|]. intros key _ <-. apply rel_startExecution. }
  intros [[|c id]|e] _ <-; [by apply hrel_ret| |by apply hrel_ret].
  eapply (hrel_bind eq); [|intros; apply rel_ok, rel_auditLog]. apply rel_update. intros u u' [-> Hu]. by split.
Qed.
End Content.

Section Hidden.
Variables (i : HookInput) (input response : RawMessage) (prompt error : string) (final : option string) (turn : option TurnStats).
Local Abbreviation i' := (with_content input response prompt error final turn i).

Hypothesis Hinput : alike_raw (hi_ToolInput i) input.
Hypothesis Hresponse : alike_raw (hi_ToolResponse i) response.
Hypothesis Hprompt : alike (hi_Prompt i) prompt.
Hypothesis Hfailed : toolCallFailed i = toolCallFailed i'.
Hypothesis Hturn : option_Forall2 alike_turn (hi_CapturedTurn i) turn.

Lemma hash_on : is_hash cfg = true.
Proof. unfold is_hash. by rw bool_decide_eq_true_2. Qed.
Lemma no_prompt j : prompt_member cfg j = [].
Proof. unfold prompt_member. by rw hash_on. Qed.
Lemma no_error failed j : error_member cfg failed j = [].
Proof. unfold error_member. rw hash_on. by rw andb_false_r. Qed.

Lemma rel_UserPrompt : hrel eq (HandleUserPrompt cfg clock span_ids git getenv i) (HandleUserPrompt cfg clock span_ids git getenv i').
Proof.
  destruct Hprompt as [Hd Hl]. unfold HandleUserPrompt. rw !no_prompt hash_on.
  change (hi_Prompt i') with prompt. unfold strlen. rw Hd Hl.
  eapply (hrel_bind eq); [apply rel_adopt|]. intros _ _ _. eapply (hrel_bind eq); [apply rel_ensure|]. intros _ _ _.
  eapply (hrel_bind eq); [apply rel_newSpanID|]. intros id _ <-. eapply (hrel_bind eq); [apply rel_hookTime|]. intros now _ <-.
  eapply (hrel_bind eq).
  { apply rel_update. intros s s' (p' & -> & Hp)%state_alike_inv. cbn. split; [done|]. apply alike_insert; [done|apply alike_start_refl]. }
  intros _ _ _. eapply (hrel_bind eq); [apply rel_get_exec|]. intros exec _ <-.
  eapply (hrel_bind eq); [|intros; apply rel_ok, rel_auditLog]. apply rel_if; [by apply hrel_ret|apply rel_ingest].
Qed.

Lemma rel_PreTool : hrel eq (HandlePreTool cfg clock span_ids git i) (HandlePreTool cfg clock span_ids git i').
Proof.
  unfold HandlePreTool. change (hi_ToolInput i') with input. rw Hmode -(RedactInput_alike _ _ Hinput).
  eapply (hrel_bind eq); [apply rel_adopt|]. intros _ _ _.
  eapply hrel_bind; [apply rel_get_State|]. intros s s' (p' & -> & Hp)%state_alike_inv.
  change (completed i' (set_Pending p' s)) with (completed i s). cbn [st_PendingSpans st_TurnSpanID set_Pending].
  apply rel_if; [by apply hrel_ret|]. change (pendingKey i') with (pendingKey i).
  rw (bool_decide_ext _ _ (alike_known _ _ (pendingKey i) Hp)). apply rel_if; [by apply hrel_ret|].
  eapply (hrel_bind eq); [apply rel_newSpanID|]. intros id _ <-. eapply (hrel_bind eq); [apply rel_hookTime|]. intros now _ <-.
  eapply (hrel_bind eq).
  { apply rel_update. intros u u' Hu. eapply state_alike_pending; [done|].
    apply state_alike_inv in Hu as (q' & -> & Hq). by apply alike_insert. }
  intros _ _ _. eapply (hrel_bind eq); [apply rel_ensure|]. intros exec _ <-. apply rel_if; [by apply hrel_ret|].
  eapply hrel_bind; [apply rel_get_State|]. intros u u' (q' & -> & Hq)%state_alike_inv.
  cbn [st_PendingSpans st_ExecutionID st_TurnSpanID set_Pending].
  destruct (alike_lookup _ _ (pendingKey i) Hq) as [Ex Hx]. rw Ex. cbn [ss_SpanID ss_Name ss_StartedAt ss_Input ss_ParentSpanID].
  eapply (hrel_bind eq).
  { apply rel_set_State. split; [done|]. cbn. apply alike_insert; [done|]. by split. }
  intros _ _ _. apply rel_ok, rel_ingest.
Qed.

(** A call without a kept span has none to take its input from. *)
Lemma rel_span s p' : alike_pending (st_PendingSpans s) p' ->
  hrel alike_start
    (match st_PendingSpans s !! pendingKey i with
     | Some span => mret span
     | None => id ← newSpanID span_ids; now ← hookTime clock; mret (MkSpanStart id (hi_ToolName i) now None "" (st_TurnSpanID s))
     end)
    (match p' !! pendingKey i with
     | Some span => mret span
     | None => id ← newSpanID span_ids; now ← hookTime clock; mret (MkSpanStart id (hi_ToolName i) now None "" (st_TurnSpanID s))
     end).
Proof.
  intros Hp. destruct (Hp (pendingKey i)) as [x x' Hx|]; [by apply hrel_ret|].
  eapply (hrel_bind eq); [apply rel_newSpanID|]. intros id _ <-. eapply (hrel_bind eq); [apply rel_hookTime|]. intros now _ <-.
  apply hrel_ret, alike_start_refl.
Qed.
Lemma alike_raw_empty r r' : alike_raw r r' -> is_empty r = is_empty r'.
Proof. by intros [-> |(-> & -> & _)]. Qed.

Lemma tool_span_alike x x' exec endedAt failed name r1 r2 : alike_start x x' -> alike_raw r1 r2 ->
  tool_span cfg x exec endedAt failed (set_tool name r1 i) = tool_span cfg x' exec endedAt failed (set_tool name r2 i').
Proof.
  intros [-> _] Hr. unfold tool_span. rw !no_error Hmode. cbn [ss_SpanID ss_Name ss_StartedAt ss_ParentSpanID].
  change (hi_ToolInput (set_tool name r1 i)) with r1. change (hi_ToolInput (set_tool name r2 i')) with r2.
  change (hi_ToolResponse (set_tool name r1 i)) with (hi_ToolResponse i). change (hi_ToolResponse (set_tool name r2 i')) with response.
  by rw (RedactInput_alike _ _ Hr) (Summarize_alike _ _ Hresponse).
Qed.

Lemma rel_PostTool force : hrel eq (handlePostTool cfg clock span_ids git lower i force) (handlePostTool cfg clock span_ids git lower i' force).
Proof.
  unfold handlePostTool. eapply hrel_bind; [apply rel_get_State|]. intros s s' (p' & -> & Hp)%state_alike_inv.
  change (completed i' (set_Pending p' s)) with (completed i s). change (pendingKey i') with (pendingKey i).
  cbn [st_PendingSpans st_TurnSpanID st_CompletedTools set_Pending].
  apply rel_if; [by apply hrel_ret|]. eapply hrel_bind; [by apply rel_span|]. intros x x' [Ex Hx]. rw Ex.
  cbn [ss_Name ss_Input ss_ParentSpanID].
  set (r1 := if is_empty (hi_ToolInput i) then ss_Input x else hi_ToolInput i).
  set (r2 := if is_empty (hi_ToolInput i') then ss_Input x' else hi_ToolInput i').
  assert (Hr : alike_raw r1 r2).
  { unfold r1, r2. change (hi_ToolInput i') with input. rw -(alike_raw_empty _ _ Hinput). by destruct (is_empty _). }
  change (hi_ToolName i') with (hi_ToolName i). set (name := if is_empty (hi_ToolName i) then ss_Name x else hi_ToolName i).
  change (hi_ToolUseID (set_tool name r2 i')) with (hi_ToolUseID (set_tool name r1 i)). clearbody r1 r2 name.
  eapply (hrel_bind eq); [apply rel_set_State|].
  { split; [done|]. by apply alike_delete. }
  intros _ _ _. eapply (hrel_bind eq); [apply (rel_ensure (set_tool name r1 i))|]. intros execID _ <-.
  eapply (hrel_bind eq); [apply rel_get_exec|]. intros exec _ <-.
  eapply (hrel_bind eq); [apply rel_hookTime|]. intros endedAt _ <-. eapply (hrel_bind eq); [apply rel_newSpanID|]. intros mi _ <-.
  change (toolCallFailed (set_tool name r1 i)) with (toolCallFailed i). change (toolCallFailed (set_tool name r2 i')) with (toolCallFailed i').
  rw -Hfailed -Ex -(tool_span_alike x x' _ _ _ _ r1 r2) //.
  eapply (hrel_bind eq); [apply rel_if; [by apply hrel_ret|apply rel_ingest]|]. intros _ _ _. rw !no_error Hmode.
  change (hi_ToolInput (set_tool name r1 i)) with r1. change (hi_ToolInput (set_tool name r2 i')) with r2.
  change (hi_ToolResponse (set_tool name r1 i)) with (hi_ToolResponse i). change (hi_ToolResponse (set_tool name r2 i')) with response.
  rw -(RedactInput_alike _ _ Hr) -(Summarize_alike _ _ Hresponse).
  change (hi_ToolName (set_tool name r2 i')) with (hi_ToolName (set_tool name r1 i)). rw -(Resource_alike _ _ _ Hr).
  apply rel_ok, rel_auditLog.
Qed.

Lemma rel_Permission : hrel eq (HandlePermission cfg clock span_ids git getenv i) (HandlePermission cfg clock span_ids git getenv i').
Proof.
  unfold HandlePermission. change (hi_ToolInput i') with input. rw Hmode -(Resource_alike _ _ _ Hinput).
  eapply (hrel_bind eq); [apply rel_ensure|]. intros exec _ <-.
  eapply (hrel_bind eq); [apply rel_if; [by apply hrel_ret|apply rel_point]|]. intros _ _ _.
  eapply (hrel_bind eq); [apply rel_get_exec|]. intros e _ <-. apply rel_ok, rel_auditLog.
Qed.

Lemma rel_Notification : hrel eq (HandleNotification cfg span_ids i) (HandleNotification cfg span_ids i').
Proof. apply rel_ok, rel_auditLog. Qed.

Lemma no_response stats : response_members cfg stats = [].
Proof. unfold response_members, RawCapture. by rw Hmode. Qed.
Lemma digest_alike s s' : alike_turn s s' -> response_digest s = response_digest s'.
Proof. intros (_ & _ & _ & H1 & H2 & Hd & Hl). unfold response_digest, strlen. by rw H1 H2 Hd Hl. Qed.
Lemma turn_alike path : alike_turn
  (match hi_CapturedTurn i with Some s => s | None => (ReadTurnFromTranscript files path).1 end)
  (match turn with Some s => s | None => (ReadTurnFromTranscript files path).1 end).
Proof. by destruct Hturn. Qed.

Lemma rel_SubagentStop : hrel eq (HandleSubagentStop cfg clock span_ids git files i) (HandleSubagentStop cfg clock span_ids git files i').
Proof.
  unfold HandleSubagentStop. eapply (hrel_bind eq); [apply rel_ensure|]. intros exec _ <-.
  eapply (hrel_bind eq); [apply rel_if; [by apply hrel_ret|apply rel_point]|]. intros _ _ _. rw !no_response.
  change (hi_CapturedTurn i') with turn. change (hi_AgentTranscriptPath i') with (hi_AgentTranscriptPath i).
  rw (digest_alike _ _ (turn_alike (hi_AgentTranscriptPath i))). apply rel_ok, rel_auditLog.
Qed.

Lemma rel_emit exec turnSpan stats stats' : alike_turn stats stats' ->
  hrel eq (emitTurnComplete cfg clock span_ids i exec turnSpan stats) (emitTurnComplete cfg clock span_ids i' exec turnSpan stats').
Proof.
  intros Ht. unfold emitTurnComplete. rw !no_response -(digest_alike _ _ Ht). destruct Ht as (H1 & H2 & H3 & _).
  unfold model_span. rw -H1 -H2 -H3. eapply (hrel_bind eq); [apply rel_auditLog|]. intros _ _ _. apply rel_if; [|by apply hrel_ret].
  eapply (hrel_bind eq); [apply rel_hookTime|]. intros now _ <-. eapply (hrel_bind eq); [apply rel_newSpanID|]. intros id _ <-.
  apply rel_ingest.
Qed.
Lemma rel_Stop : hrel eq (HandleStop cfg clock span_ids git files i) (HandleStop cfg clock span_ids git files i').
Proof.
  unfold HandleStop. eapply (hrel_bind eq); [apply rel_ensure|]. intros exec _ <-.
  eapply hrel_bind; [apply rel_get_State|]. intros s s' (p' & -> & Hp)%state_alike_inv. cbn [st_PendingSpans set_Pending].
  eapply (hrel_bind eq).
  - destruct (Hp "__turn__") as [x x' [-> Hx]|]; [|by apply hrel_ret]. cbn [ss_SpanID ss_StartedAt ss_Metadata].
    eapply (hrel_bind eq); [apply rel_hookTime|]. intros now _ <-.
    eapply (hrel_bind eq); [apply rel_if; [by apply hrel_ret|apply rel_ingest]|]. intros _ _ _.
    eapply (hrel_bind eq); [|intros; by apply hrel_ret]. apply rel_update. intros u u' Hu.
    eapply state_alike_pending; [done|]. apply alike_delete. by destruct Hu.
  - intros turnSpan _ <-. eapply (hrel_bind eq).
    { apply rel_update. intros u u' (q' & -> & Hq)%state_alike_inv. by split. }
    intros _ _ _. apply rel_ok, rel_emit. exact (turn_alike (hi_TranscriptPath i)).
Qed.

Lemma rel_SessionEnd : hrel eq (HandleSessionEnd cfg clock span_ids git getenv i) (HandleSessionEnd cfg clock span_ids git getenv i').
Proof.
  unfold HandleSessionEnd. eapply hrel_bind; [apply rel_get_State|]. intros s s' [Es Hp].
  assert (st_ExecutionID s' = st_ExecutionID s) as -> by by rw Es.
  eapply (hrel_bind eq); [apply rel_hookTime|]. intros now _ <-.
  rw (bool_decide_ext _ _ (alike_is_empty _ _ Hp)) (cancelled_alike _ _ _ _ Hp).
  eapply (hrel_bind eq); [apply rel_if; [apply rel_ingest|by apply hrel_ret]|]. intros _ _ _.
  eapply (hrel_bind eq); [apply rel_if; [by apply hrel_ret|apply rel_end]|]. intros _ _ _.
  eapply (hrel_bind eq); [apply rel_auditLog|]. intros _ _ _.
  eapply (hrel_bind eq); [|intros; by apply hrel_ret]. apply rel_update. intros u u' (q' & -> & Hq)%state_alike_inv. by split.
Qed.

Lemma rel_dispatch event : hrel eq (dispatchHook cfg clock span_ids git getenv lower files event i)
                                   (dispatchHook cfg clock span_ids git getenv lower files event i').
Proof.
  unfold dispatchHook. repeat (apply rel_if; [eauto using rel_SessionStart, rel_UserPrompt, rel_PreTool, rel_PostTool,
    rel_Permission, rel_Notification, rel_SubagentStop, rel_Stop, rel_SessionEnd|]). by apply hrel_ret.
Qed.
End Hidden.

(** C35: Hash mode hides content.  Two hooks that differ in nothing but the texts of
    the prompt, the tool's input and response and the assistant's answer, with the
    same digests and lengths, and in error texts, messages and the hook's final text
    however they like, start the same executions, whatever these answer, and record
    the same operations or fail with the same error; their sessions differ in
    hidden texts only, so that this goes on for the hooks that follow. *)
Theorem hash_mode_hides event i j t t' :
  hidden i j -> tx_alike t t' ->
  prog_rel (fun x y => x.1 = y.1 /\ tx_Operations x.2 = tx_Operations y.2 /\ tx_Err x.2 = tx_Err y.2 /\ tx_alike x.2 y.2)
    (dispatchHook cfg clock span_ids git getenv lower files event i t)
    (dispatchHook cfg clock span_ids git getenv lower files event j t').
Proof.
  intros (Hj & Hi & Hr & Hp & Hf & Ht) Htx. rw Hj. rw Hj in Hf.
  pose proof (rel_dispatch i _ _ _ _ (hi_LastAssistantMessage j) _ Hi Hr Hp Hf Ht event t t' Htx) as H.
  induction H as [x y [He Hx]|r k k' _ IH]; [|by constructor]. constructor. split; [done|]. pose proof Hx as (_ & _ & Ho & Her & _). by split_and!.
Qed.
End Handlers.

(** * A sample *)

Definition sample_failure (error answer : string) (input : RawMessage) : HookInput :=
  MkHook "s1" "" "" "/work" "" "" "Bash" (apos input) "" "tu1" "" "" "" "" "" "" error "2026-01-01T00:00:01Z" (Some answer) None
    fzero 0 "".
Definition sample_hash : Config := MkConfig "key" "http://fact0" "me" "" CaptureHash false "/state" 0 0.
Definition sample_tx (i : HookInput) : hookTransaction := MkTx (fresh_state "s1") [] "hook1" "2026-01-01T00:00:01Z" i None 0.
(** A failed call with its secrets in the error text. *)
Lemma hash_mode_hides_witness :
  let i := sample_failure "no such user: alice" "It failed for alice." "{'command':'id'}" in
  let j := sample_failure "no such user: bob" "Bob is unknown." "{ 'command' : 'id' }" in
  let dispatch h := dispatchHook sample_hash "" (fun n => "span_" +:+ pretty n) (fun _ => MkGit "" "" "") (fun _ => "") id
    (fun _ => Unopened "no such file") "post-tool-failure" h (sample_tx h) in
  i <> j
  /\ prog_rel (fun x y => x.1 = y.1 /\ tx_Operations x.2 = tx_Operations y.2 /\ tx_Err x.2 = tx_Err y.2 /\ tx_alike x.2 y.2)
       (dispatch i) (dispatch j).
Proof.
  split; [by intros [=]|]. apply hash_mode_hides; [done| |].
  - split_and!; [done| |by left|done|done|constructor]. right. by vm_compute.
  - split_and!; try done. apply state_alike_refl.
Defined.
