(* ===== verification/Journal.v ===== *)
(** The plugin's write-ahead journal on disk: src/claude-code-plugin/collector/{spool,state}.go.

    A spool file is the envelope its JSON text was written from; [reread] is what
    decoding that text gives back, and Journal theorems justify it.  Temporary
    files are kept by their sizes: they are never read, but the budget counts
    them.  A locked write runs through a list of [fate]s, one per system call,
    so that it can fail or be killed at every point. *)
From S2P Require Import Prelude Json Float64 AuditModel GoTime TimeText Execution Collector Transcript Hooks.
Local Open Scope Z_scope.

Record hookEnvelope := MkEnvelope {
  he_ID : string; he_Event : string; he_Input : HookInput; he_ReceivedAt : string; he_CaptureMode : string;
  he_Prepared : bool; he_State : option SessionState; he_Operations : list DeadLetter; he_Next : Z; he_Attempts : Z;
  he_LastError : string; he_Permanent : bool; he_ConfigKey : string
}.
Definition set_progress (next attempts : Z) (lastError : string) (permanent : bool) (key : string) (e : hookEnvelope)
    : hookEnvelope :=
  MkEnvelope (he_ID e) (he_Event e) (he_Input e) (he_ReceivedAt e) (he_CaptureMode e) (he_Prepared e) (he_State e)
    (he_Operations e) next attempts lastError permanent key.
Definition set_input (i : HookInput) (e : hookEnvelope) : hookEnvelope :=
  MkEnvelope (he_ID e) (he_Event e) i (he_ReceivedAt e) (he_CaptureMode e) (he_Prepared e) (he_State e)
    (he_Operations e) (he_Next e) (he_Attempts e) (he_LastError e) (he_Permanent e) (he_ConfigKey e).
Definition set_prepared (s : SessionState) (ops : list DeadLetter) (e : hookEnvelope) : hookEnvelope :=
  MkEnvelope (he_ID e) (he_Event e) (he_Input e) (he_ReceivedAt e) (he_CaptureMode e) true (Some s)
    ops (he_Next e) (he_Attempts e) (he_LastError e) (he_Permanent e) (he_ConfigKey e).

(** * Encoding *)

(** An empty raw message is written as null. *)
Definition raw_json (r : RawMessage) : json := default JNull (decode r).
Definition omit_str (k v : string) : list member := omit (is_empty v) k (JStr v).
Definition map_json {A} (f : A -> json) (m : gmap string A) : json :=
  JObj (map (fun kv => (kv.1, f kv.2)) (merge_sort (fun a b => String.le a.1 b.1) (map_to_list m))).
Definition nonempty_map {A} (k : string) (f : A -> json) (m : gmap string A) : list member :=
  match map_to_list m with [] => [] | _ => [(k, map_json f m)] end.

Definition assistant_json (m : AssistantMessage) : json :=
  JObj ([str_member "id" (am_ID m)] ++ omit_str "source" (am_Source m) ++ omit_str "uuid" (am_UUID m)
        ++ omit_str "timestamp" (am_Timestamp m) ++ omit_str "model" (am_Model m) ++ [("content", raw_json (am_Content m))]).
Definition turnStats_json (t : TurnStats) : json :=
  JObj (omit_str "turn_id" (ts_TurnID t)
        ++ [str_member "response_text" (ts_ResponseText t); ("input_tokens", JInt (ts_InputTokens t));
            ("output_tokens", JInt (ts_OutputTokens t))]
        ++ omit_str "model" (ts_Model t)
        ++ omit (match ts_Messages t with [] => true | _ => false end) "messages" (JArr (map assistant_json (ts_Messages t)))
        ++ [str_member "capture_status" (ts_CaptureStatus t)] ++ omit_str "capture_reason" (ts_CaptureReason t)).
Definition hookInput_json (i : HookInput) : option json :=
  cost ← float_json (hi_TotalCostUSD i);
  Some (JObj ([str_member "session_id" (hi_SessionID i)]
        ++ omit_str "agent_transcript_path" (hi_AgentTranscriptPath i)
        ++ [str_member "transcript_path" (hi_TranscriptPath i); str_member "cwd" (hi_Cwd i);
            str_member "permission_mode" (hi_PermissionMode i); str_member "hook_event_name" (hi_HookEventName i);
            str_member "tool_name" (hi_ToolName i); ("tool_input", raw_json (hi_ToolInput i));
            ("tool_response", raw_json (hi_ToolResponse i)); str_member "tool_use_id" (hi_ToolUseID i);
            str_member "prompt" (hi_Prompt i); str_member "source" (hi_Source i); str_member "message" (hi_Message i);
            str_member "agent_type" (hi_AgentType i); str_member "agent_id" (hi_AgentID i);
            str_member "reason" (hi_Reason i); str_member "error" (hi_Error i)]
        ++ omit_str "timestamp" (hi_Timestamp i)
        ++ match hi_LastAssistantMessage i with Some s => [str_member "last_assistant_message" s] | None => [] end
        ++ match hi_CapturedTurn i with Some t => [("fact0_captured_turn", turnStats_json t)] | None => [] end
        ++ omit (feqb (hi_TotalCostUSD i) fzero) "total_cost_usd" cost
        ++ omit (hi_DurationMs i =? 0) "duration_ms" (JInt (hi_DurationMs i))
        ++ omit (is_empty (hi_Usage i)) "usage" (raw_json (hi_Usage i)))).

Definition spanStart_json (s : SpanStart) : json :=
  JObj ([str_member "span_id" (ss_SpanID s); str_member "name" (ss_Name s); str_member "started_at" (ss_StartedAt s)]
        ++ match ss_Metadata s with Some m => nonempty_map "metadata" JStr m | None => [] end
        ++ omit (is_empty (ss_Input s)) "input" (raw_json (ss_Input s)) ++ omit_str "parent_span_id" (ss_ParentSpanID s)).
Definition sessionState_json (s : SessionState) : json :=
  JObj ([str_member "session_id" (st_SessionID s)] ++ omit_str "execution_key" (st_ExecutionKey s)
        ++ [str_member "execution_id" (st_ExecutionID s)] ++ omit_str "turn_span_id" (st_TurnSpanID s)
        ++ nonempty_map "pending_spans" spanStart_json (st_PendingSpans s)
        ++ nonempty_map "completed_tools" JBool (st_CompletedTools s)
        ++ omit (negb (st_Closed s)) "closed" (JBool (st_Closed s))).

Definition actor_json (a : Actor) : json :=
  JObj ([str_member "id" (actor_ID a); str_member "type" (actor_Type a)] ++ omit_str "email" (actor_Email a)).
Definition resource_json (r : Resource) : json :=
  JObj ([str_member "id" (resource_ID r); str_member "type" (resource_Type r)] ++ omit_str "name" (resource_Name r)).
Definition auditInput_json (e : AuditEventInput) : json :=
  JObj (omit_str "id" (ai_ID e) ++ omit_str "timestamp" (ai_Timestamp e)
        ++ [("actor", actor_json (ai_Actor e)); str_member "action" (ai_Action e);
            ("resource", resource_json (ai_Resource e)); str_member "outcome" (ai_Outcome e)]
        ++ omit (match ai_Metadata e with [] => true | _ => false end) "metadata" (map_value (JObj (ai_Metadata e)))).
(** saved_at and attempts belong to the legacy dead letters: an operation of the journal keeps the zero values. *)
Definition deadLetter_json (d : DeadLetter) : json :=
  JObj ([str_member "kind" (dl_Kind d); str_member "saved_at" ""; ("attempts", JInt 0)]
        ++ match dl_Audit d with Some e => [("audit", auditInput_json e)] | None => [] end
        ++ omit_str "execution_id" (dl_ExecutionID d)
        ++ omit (match dl_Spans d with [] => true | _ => false end) "spans" (JArr (map (fun m => map_value (JObj m)) (dl_Spans d)))
        ++ omit_str "status" (dl_Status d) ++ omit_str "ended_at" (dl_EndedAt d)).
Definition hookEnvelope_json (e : hookEnvelope) : option json :=
  input ← hookInput_json (he_Input e);
  Some (JObj ([str_member "id" (he_ID e); str_member "event" (he_Event e); ("input", input);
               str_member "received_at" (he_ReceivedAt e)]
        ++ omit_str "capture_mode" (he_CaptureMode e) ++ [("prepared", JBool (he_Prepared e))]
        ++ match he_State e with Some s => [("state", sessionState_json s)] | None => [] end
        ++ omit (match he_Operations e with [] => true | _ => false end) "operations" (JArr (map deadLetter_json (he_Operations e)))
        ++ [("next", JInt (he_Next e)); ("attempts", JInt (he_Attempts e))]
        ++ omit_str "last_error" (he_LastError e) ++ omit (negb (he_Permanent e)) "permanent" (JBool (he_Permanent e))
        ++ omit_str "config_key" (he_ConfigKey e))).

(** * Decoding *)

Definition as_bool (o : option json) : bool := match o with Some (JBool b) => b | _ => false end.
(** A raw message takes the text of any value, null included. *)
Definition as_raw (o : option json) : RawMessage := match o with Some v => render v | None => "" end.
Definition as_opt_string (o : option json) : option string := match o with Some (JStr s) => Some s | _ => None end.
Definition as_list {A} (f : json -> A) (o : option json) : list A := match o with Some (JArr l) => map f l | _ => [] end.
Definition as_map {A} (f : json -> A) (o : option json) : gmap string A :=
  match o with Some (JObj m) => list_to_map (map (fun kv => (kv.1, f kv.2)) m) | _ => ∅ end.

Definition assistant_of_json (v : json) : AssistantMessage :=
  let m := members_of v in
  MkMessage (as_string (field "id" m)) (as_string (field "source" m)) (as_string (field "uuid" m))
    (as_string (field "timestamp" m)) (as_string (field "model" m)) (as_raw (field "content" m)).
Definition turnStats_of_json (m : list member) : TurnStats :=
  MkTurnStats (as_string (field "turn_id" m)) (as_string (field "response_text" m)) (as_integer 64 (field "input_tokens" m))
    (as_integer 64 (field "output_tokens" m)) (as_string (field "model" m)) (as_list assistant_of_json (field "messages" m))
    (as_string (field "capture_status" m)) (as_string (field "capture_reason" m)).
Definition hookInput_of_json (m : list member) : HookInput :=
  let str k := as_string (field k m) in
  MkHook (str "session_id") (str "agent_transcript_path") (str "transcript_path") (str "cwd") (str "permission_mode")
    (str "hook_event_name") (str "tool_name") (as_raw (field "tool_input" m)) (as_raw (field "tool_response" m))
    (str "tool_use_id") (str "prompt") (str "source") (str "message") (str "agent_type") (str "agent_id") (str "reason")
    (str "error") (str "timestamp") (as_opt_string (field "last_assistant_message" m))
    (as_ref turnStats_of_json (field "fact0_captured_turn" m)) (as_float (field "total_cost_usd" m))
    (as_integer 64 (field "duration_ms" m)) (as_raw (field "usage" m)).
Definition spanStart_of_json (v : json) : SpanStart :=
  let m := members_of v in
  MkSpanStart (as_string (field "span_id" m)) (as_string (field "name" m)) (as_string (field "started_at" m))
    (as_strmap (field "metadata" m)) (as_raw (field "input" m)) (as_string (field "parent_span_id" m)).
Definition sessionState_of_json (m : list member) : SessionState :=
  MkState (as_string (field "session_id" m)) (as_string (field "execution_key" m)) (as_string (field "execution_id" m))
    (as_string (field "turn_span_id" m)) (as_map spanStart_of_json (field "pending_spans" m))
    (as_map (fun v => as_bool (Some v)) (field "completed_tools" m)) (as_bool (field "closed" m)).
Definition actor_of_json (m : list member) : Actor :=
  MkActor (as_string (field "id" m)) (as_string (field "type" m)) (as_string (field "email" m)).
Definition resource_of_json (m : list member) : Resource :=
  MkResource (as_string (field "id" m)) (as_string (field "type" m)) (as_string (field "name" m)).
Definition as_members (o : option json) : list member := match o with Some v => members_of v | None => [] end.
Definition auditInput_of_json (m : list member) : AuditEventInput :=
  MkAuditInput (as_string (field "id" m)) (as_string (field "timestamp" m)) (actor_of_json (as_members (field "actor" m)))
    (as_string (field "action" m)) (resource_of_json (as_members (field "resource" m))) (as_string (field "outcome" m))
    (as_members (field "metadata" m)).
Definition deadLetter_of_json (v : json) : DeadLetter :=
  let m := members_of v in
  MkLetter (as_string (field "kind" m)) (as_ref auditInput_of_json (field "audit" m)) (as_string (field "execution_id" m))
    (as_list members_of (field "spans" m)) (as_string (field "status" m)) (as_string (field "ended_at" m)).
Definition hookEnvelope_of_json (v : json) : hookEnvelope :=
  let m := members_of v in
  MkEnvelope (as_string (field "id" m)) (as_string (field "event" m)) (hookInput_of_json (as_members (field "input" m)))
    (as_string (field "received_at" m)) (as_string (field "capture_mode" m)) (as_bool (field "prepared" m))
    (as_ref sessionState_of_json (field "state" m)) (as_list deadLetter_of_json (field "operations" m))
    (as_integer 64 (field "next" m)) (as_integer 64 (field "attempts" m)) (as_string (field "last_error" m))
    (as_bool (field "permanent" m)) (as_string (field "config_key" m)).

(** * What a reader finds *)

Definition norm_raw (r : RawMessage) : RawMessage := render (raw_json r).
Definition norm_optional (r : RawMessage) : RawMessage := if is_empty r then "" else norm_raw r.
Definition norm_members (m : list member) : list member := members_of (map_value (JObj m)).
Definition norm_message (m : AssistantMessage) : AssistantMessage :=
  MkMessage (am_ID m) (am_Source m) (am_UUID m) (am_Timestamp m) (am_Model m) (norm_raw (am_Content m)).
Definition norm_turn (t : TurnStats) : TurnStats :=
  MkTurnStats (ts_TurnID t) (ts_ResponseText t) (ts_InputTokens t) (ts_OutputTokens t) (ts_Model t)
    (map norm_message (ts_Messages t)) (ts_CaptureStatus t) (ts_CaptureReason t).
Definition norm_input (i : HookInput) : HookInput :=
  MkHook (hi_SessionID i) (hi_AgentTranscriptPath i) (hi_TranscriptPath i) (hi_Cwd i) (hi_PermissionMode i)
    (hi_HookEventName i) (hi_ToolName i) (norm_raw (hi_ToolInput i)) (norm_raw (hi_ToolResponse i)) (hi_ToolUseID i)
    (hi_Prompt i) (hi_Source i) (hi_Message i) (hi_AgentType i) (hi_AgentID i) (hi_Reason i) (hi_Error i) (hi_Timestamp i)
    (hi_LastAssistantMessage i) (norm_turn <$> hi_CapturedTurn i)
    (if feqb (hi_TotalCostUSD i) fzero then fzero else hi_TotalCostUSD i) (hi_DurationMs i) (norm_optional (hi_Usage i)).
Definition norm_start (s : SpanStart) : SpanStart :=
  MkSpanStart (ss_SpanID s) (ss_Name s) (ss_StartedAt s)
    (match ss_Metadata s with Some m => if bool_decide (m = ∅) then None else Some m | None => None end)
    (norm_optional (ss_Input s)) (ss_ParentSpanID s).
Definition norm_state (s : SessionState) : SessionState :=
  MkState (st_SessionID s) (st_ExecutionKey s) (st_ExecutionID s) (st_TurnSpanID s) (norm_start <$> st_PendingSpans s)
    (st_CompletedTools s) (st_Closed s).
Definition norm_audit (e : AuditEventInput) : AuditEventInput :=
  MkAuditInput (ai_ID e) (ai_Timestamp e) (ai_Actor e) (ai_Action e) (ai_Resource e) (ai_Outcome e) (norm_members (ai_Metadata e)).
Definition norm_letter (d : DeadLetter) : DeadLetter :=
  MkLetter (dl_Kind d) (norm_audit <$> dl_Audit d) (dl_ExecutionID d) (map norm_members (dl_Spans d)) (dl_Status d) (dl_EndedAt d).
Definition reread (e : hookEnvelope) : hookEnvelope :=
  MkEnvelope (he_ID e) (he_Event e) (norm_input (he_Input e)) (he_ReceivedAt e) (he_CaptureMode e) (he_Prepared e)
    (norm_state <$> he_State e) (map norm_letter (he_Operations e)) (he_Next e) (he_Attempts e) (he_LastError e)
    (he_Permanent e) (he_ConfigKey e).

(** * The disk *)

Inductive spool_file := Spooled (e : hookEnvelope) | Corrupt (size : Z).
Inductive state_file := Saved (s : SessionState) | CorruptState.
Record Disk := MkDisk {
  dk_spool : gmap string spool_file;    (** spool/, by path *)
  dk_temps : list Z;                    (** sizes of the temporary files in spool/ *)
  dk_sessions : gmap string state_file; (** session-*.json *)
  dk_marker : option string             (** the reason in capture-error.json *)
}.
Definition set_spool (f : gmap string spool_file) (d : Disk) : Disk := MkDisk f (dk_temps d) (dk_sessions d) (dk_marker d).
Definition set_temps (l : list Z) (d : Disk) : Disk := MkDisk (dk_spool d) l (dk_sessions d) (dk_marker d).
Definition set_session (path : string) (s : option state_file) (d : Disk) : Disk :=
  MkDisk (dk_spool d) (dk_temps d) (partial_alter (fun _ => s) path (dk_sessions d)) (dk_marker d).
Definition set_marker (reason : string) (d : Disk) : Disk := MkDisk (dk_spool d) (dk_temps d) (dk_sessions d) (Some reason).

(** What becomes of a system call or a request: it works; it fails without effect;
    its effect takes place but an error comes back; or the process is killed
    before it, after [n] bytes where it writes. *)
Inductive fate := Works | Breaks (msg : string) | Loses (msg : string) | Dies (n : Z).

Definition spoolLimit (c : Config) : Z := if 0 <? cf_SpoolMaxBytes c then cf_SpoolMaxBytes c else Z.shiftl 256 20.
Definition configKey (c : Config) : string :=
  let bar := "|" in
  Sha256Hex (cf_BaseURL c +:+ bar +:+ cf_CaptureMode c +:+ bar +:+ pretty (requestLimit c) +:+ bar
             +:+ pretty (spoolLimit c) +:+ bar +:+ cf_APIKey c).

Definition envelope_text (e : hookEnvelope) : option string := v ← hookEnvelope_json e; marshal v.
Definition envelope_size (e : hookEnvelope) : Z := Z.of_nat (String.length (default "" (envelope_text e))).
Definition file_size (f : spool_file) : Z := match f with Spooled e => envelope_size e | Corrupt n => n end.
Definition total (l : list Z) : Z := foldr Z.add 0 l.
(** The bytes in the spool directory, the target excepted. *)
Definition spool_bytes (d : Disk) (path : string) : Z :=
  total (map (fun kv => file_size kv.2) (map_to_list (delete path (dk_spool d)))) + total (dk_temps d).

(** What a run of system calls ends with: an answer or the process's death, and the disk. *)
Abbreviation Outcome := (option (option gerr) * Disk)%type.
(** The deferred removal of the temporary file after an error: it may fail too. *)
Definition drop_temp (size : Z) (err : gerr) (temps : list Z) (fs : list fate) (d : Disk) : Outcome :=
  match fs with
  | [] | Works :: _ => (Some (Some err), set_temps temps d)
  | Breaks _ :: _ => (Some (Some err), set_temps (size :: temps) d)
  | Loses _ :: _ => (Some (Some err), set_temps temps d)
  | Dies _ :: _ => (None, set_temps (size :: temps) d)
  end.
(** The part of writeEnvelope under the spool lock, one fate for each of: taking the
    lock and listing the directory, creating the temporary file, filling it,
    renaming it, syncing the directory. *)
Definition write_locked (c : Config) (path : string) (e : hookEnvelope) (size : Z) (fs : list fate) (d : Disk) : Outcome :=
  let temps := dk_temps d in
  let renamed := set_spool (<[path := Spooled e]> (dk_spool d)) d in
  let pop (fs : list fate) := match fs with [] => (Works, []) | f :: fs => (f, fs) end in
  match pop fs with
  | (Dies _, _) => (None, d)
  | (Breaks m, _) | (Loses m, _) => (Some (Some (plain m)), d)
  | (Works, fs) =>
      let used := spool_bytes d path + size in
      if spoolLimit c <? used then
        (Some (Some (plain ("spool full: " +:+ pretty used +:+ " bytes would exceed " +:+ pretty (spoolLimit c)
                            +:+ "; existing records retained"))), d)
      else match pop fs with
      | (Dies _, _) => (None, d)
      | (Breaks m, _) | (Loses m, _) => (Some (Some (plain m)), d)
      | (Works, fs) =>
      match pop fs with
      | (Dies n, _) => (None, set_temps (Z.max 0 (Z.min n size) :: temps) d)
      | (Breaks m, fs) => drop_temp 0 (plain m) temps fs d
      | (Loses m, fs) => drop_temp size (plain m) temps fs d
      | (Works, fs) =>
      match pop fs with
      | (Dies _, _) => (None, set_temps (size :: temps) d)
      | (Breaks m, fs) => drop_temp size (plain m) temps fs d
      | (Loses m, _) => (Some (Some (plain m)), renamed)
      | (Works, fs) =>
      match pop fs with
      | (Dies _, _) => (None, renamed)
      | (Breaks m, _) | (Loses m, _) => (Some (Some (plain m)), renamed)
      | (Works, _) => (Some None, renamed)
      end end end end
  end.
Definition writeEnvelope_run (c : Config) (path : string) (e : hookEnvelope) (fs : list fate) (d : Disk) : Outcome :=
  match envelope_text e with
  | None => (Some (Some (plain "json: unsupported value")), d)
  | Some text => write_locked c path e (Z.of_nat (String.length text)) fs d
  end.

(** * Capturing a hook *)

(** The text of decodeHook's input as a HookInput; keys match up to case. *)
Definition values_of (k : string) (m : list (string * RawMessage)) : list RawMessage :=
  map snd (filter (fun kv => EqualFold kv.1 k = true) m).
Definition fold_values {A} (dec : RawMessage -> A -> option A) (k : string) (zero : A) (m : list (string * RawMessage))
    : option A :=
  foldl (fun acc raw => a ← acc; dec raw a) (Some zero) (values_of k m).
Definition get_string (k : string) (m : list (string * RawMessage)) : option string :=
  fold_values (fun raw old => to_string (unmarshal raw) old) k "" m.
Definition get_raw (k : string) (m : list (string * RawMessage)) : option RawMessage :=
  fold_values (fun raw _ => Some raw) k "" m.
Definition get_float (k : string) (m : list (string * RawMessage)) : option float64 :=
  fold_values (fun raw old => match unmarshal raw with
                              | Some (JNum lit) => parse_float lit | Some JNull => Some old | _ => None end) k fzero m.
Definition get_int64 (k : string) (m : list (string * RawMessage)) : option Z :=
  fold_values (fun raw old => to_int64 (unmarshal raw) old) k 0 m.
Definition get_pointer {A} (dec : RawMessage -> option A) (k : string) (m : list (string * RawMessage)) : option (option A) :=
  fold_values (fun raw _ => match unmarshal raw with Some JNull => Some None | _ => Some <$> dec raw end) k None m.

(** A captured turn comes from enqueueHook; one in the hook's own text is kept by its known members. *)
Definition turn_of_raw (raw : RawMessage) : option TurnStats :=
  match unmarshal raw with Some (JObj m) => Some (turnStats_of_json m) | _ => None end.
Definition hookInput_of_raw (raw : RawMessage) : option HookInput :=
  m ← raw_object raw;
  session ← get_string "session_id" m; agentPath ← get_string "agent_transcript_path" m;
  path ← get_string "transcript_path" m; cwd ← get_string "cwd" m; mode ← get_string "permission_mode" m;
  name ← get_string "hook_event_name" m; tool ← get_string "tool_name" m; input ← get_raw "tool_input" m;
  response ← get_raw "tool_response" m; use_id ← get_string "tool_use_id" m; prompt ← get_string "prompt" m;
  source ← get_string "source" m; message ← get_string "message" m; agentType ← get_string "agent_type" m;
  agentID ← get_string "agent_id" m; reason ← get_string "reason" m; error ← get_string "error" m;
  ts ← get_string "timestamp" m;
  final ← get_pointer (fun raw => to_string (unmarshal raw) "") "last_assistant_message" m;
  turn ← get_pointer turn_of_raw "fact0_captured_turn" m; cost ← get_float "total_cost_usd" m;
  duration ← get_int64 "duration_ms" m; usage ← get_raw "usage" m;
  Some (MkHook session agentPath path cwd mode name tool input response use_id prompt source message agentType agentID
          reason error ts final turn cost duration usage).

(** The texts of decoding errors are abbreviated. *)
Definition decodeHook (c : Config) (stdin : string) : result gerr HookInput :=
  if spoolLimit c <? Z.of_nat (String.length stdin) then Err (plain ("hook exceeds spool capacity " +:+ pretty (spoolLimit c)))
  else match parse_value (S (2 * String.length stdin)) 0 stdin with
       | None => Err (plain "invalid JSON")
       | Some (_, rest) =>
           match hookInput_of_raw (str_split (String.length stdin - String.length rest) stdin).1 with
           | None => Err (plain "json: cannot unmarshal")
           | Some i => if is_empty (hi_SessionID i) then Err (plain "missing session_id") else Ok i
           end
       end.

(** The hook as it is queued: stamped, with the turn it ends. *)
Definition captured_input (files : string -> TranscriptFile) (clock event : string) (i : HookInput) : HookInput :=
  let i := if is_empty (hi_Timestamp i) then set_capture clock (hi_CapturedTurn i) i else i in
  if bool_decide (event ∈ ["stop"; "subagent-stop"]) then
    let path := if bool_decide (event = "subagent-stop") then hi_AgentTranscriptPath i else hi_TranscriptPath i in
    applyFinalAssistant (set_capture (hi_Timestamp i) (Some (ReadTurnFromTranscript files path).1) i) event
  else i.
Definition new_envelope (c : Config) (files : string -> TranscriptFile) (clock id event : string) (i : HookInput) : hookEnvelope :=
  MkEnvelope id event (captured_input files clock event i) clock (cf_CaptureMode c) false None [] 0 0 "" false "".
(** [spool/hook-<nanoseconds, 20 digits>-<id>.json]. *)
Definition hook_path (nanos : Z) (id : string) : string := "hook-" +:+ GoTime.digits 20 nanos +:+ "-" +:+ id +:+ ".json".
Definition is_hook_path (p : string) : bool := has_prefix "hook-" p && has_prefix (str_rev ".json") (str_rev p).
Definition enqueueHook (c : Config) (files : string -> TranscriptFile) (clock id : string) (nanos : Z) (event : string)
    (i : HookInput) (fs : list fate) (d : Disk) : Outcome :=
  writeEnvelope_run c (hook_path nanos id) (new_envelope c files clock id event i) fs d.
