(* ===== verification/Spool.v ===== *)
(** The plugin's delivery worker: src/claude-code-plugin/collector/{spool,deadletter,main}.go over
    the SDK's client, src/sdk/go/{client,audit,telemetry}.go.

    The worker is a program on a [World]: the disk, the server, and what is still
    to happen to the worker ([wd_turns]).  Every system call and every request
    takes a [turn]: other processes capture hooks and other clients use the server
    meanwhile, and then the call works, fails, loses its answer, or the worker is
    killed.  [None] is a killed worker; what it did stays.  [wd_log] records the
    requests the server handled and the operations the worker saw accepted.

    The deadline of the context shows as failing calls.  An execution id is taken to
    make a well-formed URL, and waiting times are not kept. *)
From S2P Require Import Prelude Json JsonFacts Float64 AuditModel GoTime TimeText Execution Base64 Collector Transcript Hooks Journal.
Local Open Scope Z_scope.

(** * The world *)

Record HttpRequest := MkHttp { hr_method : string; hr_path : string; hr_body : option json }.
(** [ha_value] is the JSON value the body holds, [None] when it is not exactly one. *)
Record HttpAnswer := MkAnswer { ha_status : Z; ha_text : string; ha_value : option json }.

(** A hook captured by another process. *)
Record Capture := MkCapture {
  cp_config : Config; cp_files : string -> TranscriptFile; cp_clock : string; cp_id : string; cp_nanos : Z;
  cp_event : string; cp_input : HookInput; cp_fates : list fate
}.
Definition cp_path (c : Capture) : string := hook_path (cp_nanos c) (cp_id c).

(** What the preparation of a hook draws from outside the program. *)
Record Prep := MkPrep {
  pr_clock : string; pr_span_ids : nat -> string; pr_git : string -> GitInfo; pr_getenv : string -> string;
  pr_lower : string -> string; pr_files : string -> TranscriptFile; pr_reads : list (string -> TranscriptFile)
}.

(** The operation a request delivers: the hook's file and the operation's index. *)
Abbreviation label := (option (string * nat)).
Inductive entry :=
| Reached (l : label) (r : HttpRequest) (a : HttpAnswer)
| Accepted (path : string) (i : nat)
| Finished (path : string).     (** the hook's file was removed *)

Section Worker.
Context {St : Type}.
(** The server. *)
Variable serve : HttpRequest -> St -> HttpAnswer * St.
Variable prep0 : Prep.

Record turn := MkTurn {
  tn_captures : list Capture; tn_clients : St -> St; tn_fates : list fate; tn_prep : Prep
}.
Definition quiet_turn : turn := MkTurn [] id [] prep0.
Record World := MkWorld { wd_disk : Disk; wd_server : St; wd_turns : list turn; wd_log : list entry }.

(** A path carries 128 random bits: one that has been used is not drawn again. *)
Definition entry_path (e : entry) : option string :=
  match e with Reached l _ _ => fst <$> l | Accepted p _ | Finished p => Some p end.
Definition unused (path : string) (d : Disk) (log : list entry) : bool :=
  bool_decide (dk_spool d !! path = None) && bool_decide (Some path ∉ map entry_path log).
Definition run_capture (log : list entry) (d : Disk) (c : Capture) : Disk :=
  if unused (cp_path c) d log then
    (enqueueHook (cp_config c) (cp_files c) (cp_clock c) (cp_id c) (cp_nanos c) (cp_event c) (cp_input c) (cp_fates c) d).2
  else d.
Definition run_captures (log : list entry) (l : list Capture) (d : Disk) : Disk := foldl (run_capture log) d l.

Definition M (A : Type) : Type := World -> option A * World.
Global Instance M_ret : MRet M := fun _ a w => (Some a, w).
Global Instance M_bind : MBind M := fun _ _ f m w => match m w with (Some a, w) => f a w | (None, w) => (None, w) end.
Definition die {A} : M A := fun w => (None, w).
Definition get_disk : M Disk := fun w => (Some (wd_disk w), w).
Definition on_disk (f : Disk -> Disk) : M unit := fun w =>
  (Some tt, MkWorld (f (wd_disk w)) (wd_server w) (wd_turns w) (wd_log w)).
Definition locked {A} (f : Disk -> option A * Disk) : M A := fun w =>
  let '(r, d) := f (wd_disk w) in (r, MkWorld d (wd_server w) (wd_turns w) (wd_log w)).
Definition note (e : entry) : M unit := fun w =>
  (Some tt, MkWorld (wd_disk w) (wd_server w) (wd_turns w) (wd_log w ++ [e])).
Definition next : M turn := fun w =>
  match wd_turns w with
  | [] => (Some quiet_turn, w)
  | t :: ts => (Some t, MkWorld (run_captures (wd_log w) (tn_captures t) (wd_disk w)) (tn_clients t (wd_server w)) ts (wd_log w))
  end.
Definition next_fate : M fate := t ← next; mret (default Works (head (tn_fates t))).

(** A system call: its effect on the disk, and its error. *)
Definition syscall (f : Disk -> Disk) : M (option gerr) :=
  x ← next_fate;
  match x with
  | Works => on_disk f;; mret None
  | Breaks m => mret (Some (plain m))
  | Loses m => on_disk f;; mret (Some (plain m))
  | Dies _ => die
  end.

(** * The SDK's client *)

(** The request reaches the server, which handles it. *)
Definition exchange (l : label) (r : HttpRequest) : M HttpAnswer := fun w =>
  let '(a, s) := serve r (wd_server w) in
  (Some a, MkWorld (wd_disk w) s (wd_turns w) (wd_log w ++ [Reached l r a])).

Definition MaxRetries : nat := 2.
(** A waiting time cut short by the deadline is an error. *)
Definition retryWait : M (option gerr) := syscall id.
Definition decoded (a : HttpAnswer) : result gerr (list member) :=
  match ha_value a with
  | Some (JObj m) => Ok m
  | Some JNull => Ok []
  | _ => Err (plain "invalid JSON response")
  end.
Definition status_text (r : HttpRequest) (a : HttpAnswer) : string :=
  hr_method r +:+ " " +:+ hr_path r +:+ ": " +:+ pretty (ha_status a).

(** One attempt: an answer for good, or an error worth another attempt. *)
Definition attempt (l : label) (r : HttpRequest) : M (result gerr (list member) + gerr) :=
  x ← next_fate;
  match x with
  | Dies _ => die
  | Breaks m => mret (inr (plain m))
  | Loses m => _ ← exchange l r; mret (inr (plain m))
  | Works =>
      a ← exchange l r;
      mret (if ha_status a <? 300 then inl (decoded a)
            else if negb (ha_status a =? 429) && (ha_status a <? 500) then
              inl (Err (plain (status_text r a +:+ " " +:+ ha_text a)))
            else inr (plain (status_text r a)))
  end.
Fixpoint attempts (retries : nat) (l : label) (r : HttpRequest) : M (result gerr (list member)) :=
  x ← attempt l r;
  match x, retries with
  | inl answer, _ => mret answer
  | inr lastErr, O => mret (Err lastErr)
  | inr _, S retries => e ← retryWait; match e with Some e => mret (Err e) | None => attempts retries l r end
  end.
Definition doJSON (l : label) (r : HttpRequest) : M (result gerr (list member)) :=
  match hr_body r with
  | Some body => match marshal body with
                 | None => mret (Err (plain "json: unsupported value"))
                 | Some _ => attempts MaxRetries l r
                 end
  | None => attempts MaxRetries l r
  end.

Definition LogBatch_request (events : list AuditEventInput) : HttpRequest :=
  MkHttp "POST" "/v1/events/batch" (Some (JObj [("events", JArr (map auditInput_json events))])).
Definition IngestSpans_request (executionID : string) (spans : list SpanPayload) : HttpRequest :=
  MkHttp "POST" ("/api/v1/executions/" +:+ executionID +:+ "/spans") (Some (spans_body spans)).
Definition end_body (status endedAt : string) : json := JObj (omit_str "ended_at" endedAt ++ [str_member "status" status]).
Definition EndExecutionAt_request (executionID status endedAt : string) : HttpRequest :=
  MkHttp "PUT" ("/api/v1/executions/" +:+ executionID +:+ "/end") (Some (end_body status endedAt)).
Definition StartExecution_request (r : StartExecutionRequest) : HttpRequest :=
  MkHttp "POST" "/api/v1/executions"
    (Some (JObj ([str_member "agent_id" (sr_AgentID r)] ++ omit_str "agent_name" (sr_AgentName r)
                 ++ omit_str "trigger" (sr_Trigger r) ++ nonempty_map "metadata" JStr (sr_Metadata r)
                 ++ omit_str "idempotency_key" (sr_IdempotencyKey r) ++ omit_str "started_at" (sr_StartedAt r)))).

(** * Delivering an operation *)

Definition permanent (text : string) : gerr := MkErr true text.
Fixpoint contains (sub s : string) : bool :=
  has_prefix sub s || match s with String _ r => contains sub r | EmptyString => false end.
Definition isPermanentDelivery (e : gerr) : bool :=
  ge_permanent e || contains ": 400 " (ge_text e) || contains ": 413 " (ge_text e) || contains ": 422 " (ge_text e).

(** A count that is not an int64 is read as 0 (ParseInt saturates a large one: no count is that large). *)
Definition checkAcceptance (resp : list member) (countField : string) (want : Z) : option gerr :=
  match field "errors" resp with
  | Some (JArr (x :: l)) =>
      Some (permanent ("batch item rejection: " +:+ default "" (marshal (map_value (JArr (x :: l))))))
  | _ =>
      if match usageNumber (field "rejected" resp) with Some n => flt fzero n | None => false end then
        Some (permanent "audit batch rejected items")
      else match field countField resp with
           | Some (JNum lit) =>
               let n := default 0 (parse_integer 64 lit) in
               if n =? want then None
               else Some (permanent ("backend accepted " +:+ pretty n +:+ " of " +:+ pretty want +:+ " items"))
           | _ => Some (plain ("backend response missing " +:+ countField +:+ "; acceptance unconfirmed"))
           end
  end.

(** The request of an operation, or why it has none. *)
Definition op_request (d : DeadLetter) : result gerr HttpRequest :=
  if bool_decide (dl_Kind d = dlKindAudit) then
    match dl_Audit d with
    | None => Err (permanent "missing audit payload")
    | Some e => Ok (LogBatch_request [e])
    end
  else if bool_decide (dl_Kind d = dlKindSpans) then
    if is_empty (dl_ExecutionID d) || match dl_Spans d with [] => true | _ => false end then
      Err (permanent "missing span payload or execution id")
    else Ok (IngestSpans_request (dl_ExecutionID d) (dl_Spans d))
  else if bool_decide (dl_Kind d = dlKindEndExecution) then
    if is_empty (dl_ExecutionID d) then Err (permanent "missing execution id")
    else Ok (EndExecutionAt_request (dl_ExecutionID d) (dl_Status d) (dl_EndedAt d))
  else Err (permanent ("unknown operation kind " +:+ render (JStr (dl_Kind d)))).
(** What the answer must confirm. *)
Definition accepts (kind : string) (spans : nat) (resp : list member) : option gerr :=
  if bool_decide (kind = dlKindAudit) then checkAcceptance resp "accepted" 1
  else if bool_decide (kind = dlKindSpans) then checkAcceptance resp "accepted_count" (Z.of_nat spans)
  else None.
Definition op_accepted (d : DeadLetter) : list member -> option gerr := accepts (dl_Kind d) (length (dl_Spans d)).
Definition deliverDeadLetter (l : label) (d : DeadLetter) : M (option gerr) :=
  match op_request d with
  | Err e => mret (Some e)
  | Ok r => resp ← doJSON l r;
            mret (match resp with Err e => Some e | Ok m => op_accepted d m end)
  end.

Definition operationBody (d : DeadLetter) : json :=
  if bool_decide (dl_Kind d = dlKindAudit) then
    JObj [("events", JArr [match dl_Audit d with Some e => auditInput_json e | None => JNull end])]
  else if bool_decide (dl_Kind d = dlKindSpans) then spans_body (dl_Spans d)
  else if bool_decide (dl_Kind d = dlKindEndExecution) then end_body (dl_Status d) (dl_EndedAt d)
  else JNull.
Definition deliverOperation (c : Config) (l : label) (d : DeadLetter) : M (option gerr) :=
  match marshal (operationBody d) with
  | None => mret (Some (permanent "json: unsupported value"))
  | Some data =>
      let n := Z.of_nat (String.length data) in
      if requestLimit c <? n then
        mret (Some (permanent ("payload too large: " +:+ pretty n +:+ " bytes exceeds request limit "
                               +:+ pretty (requestLimit c) +:+ "; full operation retained")))
      else deliverDeadLetter l d
  end.

(** * Files *)

(** The spool lock is held from the first call on: no capture interferes. *)
Definition writeEnvelope (c : Config) (path : string) (e : hookEnvelope) : M (option gerr) :=
  t ← next; locked (writeEnvelope_run c path e (tn_fates t)).

(** A rune outside the allowed set becomes an underscore. *)
Definition name_char (c : Ascii.ascii) : bool :=
  in_range 97 122 c || in_range 65 90 c || in_range 48 57 c || is_char 45 c || is_char 95 c || is_char 46 c.
Fixpoint safe_chars (fuel : nat) (s : string) : string :=
  match fuel, s with
  | S fuel, String c _ =>
      String (if name_char c then c else underscore) (safe_chars fuel (str_split (Nat.max 1 (rune_len s)) s).2)
  | _, _ => ""
  end.
Definition safeSessionID (id : string) : string :=
  if is_empty id then "default"
  else
    let mapped := safe_chars (String.length id) id in
    let digest := (str_split 16 (Sha256Hex id)).1 in
    if bool_decide (mapped ∈ [""; "."; ".."]) then "default-" +:+ digest
    else if bool_decide (mapped = id) then mapped else mapped +:+ "-" +:+ digest.
Definition StatePath (sessionID : string) : string := "session-" +:+ safeSessionID sessionID +:+ ".json".

Definition LoadState (sessionID : string) : M (result gerr SessionState) :=
  x ← syscall id;
  d ← get_disk;
  mret (match x with
        | Some e => Err e
        | None => match dk_sessions d !! StatePath sessionID with
                  | None => Ok (fresh_state sessionID)
                  | Some CorruptState => Err (plain "corrupt session state")
                  | Some (Saved s) => let s := norm_state s in
                                      Ok (if is_empty (st_SessionID s) then set_SessionID sessionID s else s)
                  end
        end).
(** Written to a temporary file and renamed: one step. *)
Definition SaveState (s : SessionState) : M (option gerr) := syscall (set_session (StatePath (st_SessionID s)) (Some (Saved s))).
Definition ClearState (sessionID : string) : M (option gerr) := syscall (set_session (StatePath sessionID) None).

(** The marker is best effort. *)
Definition recordCaptureFailure (message : string) : M unit :=
  _ ← syscall (set_marker (if Nat.ltb 4096 (String.length message)
                            then truncate message 4096 +:+ " (diagnostic truncated; queued payloads are unchanged)" else message));
  mret tt.

(** * Preparing a hook *)

Fixpoint interp {A} (p : Prog A) : M A :=
  match p with
  | Done a => mret a
  | CallStart r k => x ← doJSON None (StartExecution_request r); interp (k x)
  end.

Definition dispatch (c : Config) (p : Prep) (e : hookEnvelope) (s : SessionState) : Prog (option gerr * hookTransaction) :=
  dispatchHook c (pr_clock p) (pr_span_ids p) (pr_git p) (pr_getenv p) (pr_lower p) (pr_files p) (he_Event e) (he_Input e)
    (MkTx s [] (he_ID e) (hi_Timestamp (he_Input e)) (he_Input e) None 0).
Definition refined (p : Prep) (e : hookEnvelope) : hookEnvelope :=
  if bool_decide (he_Event e ∈ ["stop"; "subagent-stop"]) then
    set_input (refineCapturedTurn (pr_reads p) (he_Input e) (he_Event e)) e
  else e.
(** The envelope as it is left, and the error. *)
Definition prepareHook (c : Config) (e : hookEnvelope) : M (hookEnvelope * option gerr) :=
  t ← next;
  let p := tn_prep t in
  let c := if is_empty (he_CaptureMode e) then c else set_CaptureMode (he_CaptureMode e) c in
  let e := refined p e in
  st ← LoadState (hi_SessionID (he_Input e));
  match st with
  | Err err => mret (e, Some err)
  | Ok s =>
      r ← interp (dispatch c p e s);
      let '(err, tx) := r in
      mret (match err, tx_Err tx with
            | Some err, _ | None, Some err => (e, Some err)
            | None, None => (set_prepared (tx_State tx) (tx_Operations tx) e, None)
            end)
  end.

(** * Draining *)

(** How the delivery of one hook ends: everything delivered, the session blocked, or the run over. *)
Inductive delivery := Delivered (e : hookEnvelope) | Blocked (err : gerr) | Stopped (err : gerr).

Fixpoint deliver_ops (c : Config) (path : string) (e : hookEnvelope) (i : nat) (ops : list DeadLetter) : M delivery :=
  match ops with
  | [] => mret (Delivered e)
  | op :: ops =>
      err ← deliverOperation c (Some (path, i)) op;
      match err with
      | Some err =>
          let perm := isPermanentDelivery err in
          _ ← writeEnvelope c path (set_progress (he_Next e) (wrap64 (he_Attempts e + 1)) (ge_text err) perm (configKey c) e);
          recordCaptureFailure (ge_text err);;
          mret (if perm then Blocked err else Stopped err)
      | None =>
          note (Accepted path i);;
          let e := set_progress (he_Next e + 1) (he_Attempts e) "" false (he_ConfigKey e) e in
          werr ← writeEnvelope c path e;
          match werr with
          | Some err => recordCaptureFailure (ge_text err);; mret (Stopped err)
          | None => deliver_ops c path e (S i) ops
          end
      end
  end.

Definition remove_file (path : string) : M (option gerr) :=
  let remove := on_disk (fun d => set_spool (delete path (dk_spool d)) d);; note (Finished path) in
  x ← next_fate;
  match x with
  | Works => remove;; mret None
  | Breaks m => mret (Some (plain m))
  | Loses m => remove;; mret (Some (plain m))
  | Dies _ => die
  end.
(** A delivered hook leaves the queue; the state of a closed session goes with it. *)
Definition finish_hook (path : string) (e : hookEnvelope) : M (option gerr) :=
  err ← remove_file path;
  match err with
  | Some err => recordCaptureFailure (ge_text err);; mret (Some err)
  | None =>
      _ ← syscall id;
      match he_State e with
      | Some s => if st_Closed s then _ ← ClearState (hi_SessionID (he_Input e)); mret None else mret None
      | None => mret None
      end
  end.
Definition save_state (e : hookEnvelope) : M (option gerr) :=
  match he_State e with
  | None => mret None
  | Some s => err ← SaveState s;
              match err with Some err => recordCaptureFailure (ge_text err);; mret (Some err) | None => mret None end
  end.

(** From a readable journal on: prepare it if need be, deliver what is left, remove it. *)
Definition deliver_rest (c : Config) (path : string) (e : hookEnvelope) : M delivery :=
  err ← save_state e;
  match err with
  | Some err => mret (Stopped err)
  | None =>
      r ← deliver_ops c path e (Z.to_nat (he_Next e)) (drop (Z.to_nat (he_Next e)) (he_Operations e));
      match r with
      | Delivered e =>
          err ← finish_hook path e;
          mret (match err with Some err => Stopped err | None => Delivered e end)
      | r => mret r
      end
  end.
Definition prepare_failed (c : Config) (path : string) (e : hookEnvelope) (err : gerr) : M delivery :=
  _ ← writeEnvelope c path (set_progress (he_Next e) (wrap64 (he_Attempts e + 1)) (ge_text err) (he_Permanent e) (he_ConfigKey e) e);
  recordCaptureFailure (ge_text err);;
  mret (Stopped err).
Definition process_hook (c : Config) (path : string) (e : hookEnvelope) : M delivery :=
  if he_Prepared e then deliver_rest c path e
  else
    r ← prepareHook c e;
    let '(e, err) := r in
    match err with
    | Some err => prepare_failed c path e err
    | None =>
        werr ← writeEnvelope c path e;
        match werr with
        | Some err => prepare_failed c path e err
        | None => deliver_rest c path e
        end
    end.

Definition invalid (e : hookEnvelope) : bool :=
  is_empty (he_ID e) || is_empty (hi_SessionID (he_Input e)) || (he_Next e <? 0)
  || (Z.of_nat (length (he_Operations e)) <? he_Next e).
(** What the loop over the files does after one: go on, go on with the session blocked, or return. *)
Inductive drain_step := Continue | Block (session : string) (err : gerr) | Return (err : gerr).
(** The decoder refuses a journal nested too deeply. *)
Definition readable (e : hookEnvelope) : bool :=
  match hookEnvelope_json e with Some v => nesting v <=? maxNestingDepth | None => true end.
Definition stop_at (what : string) : M drain_step := recordCaptureFailure what;; mret (Return (plain what)).

Definition drain_entry (c : Config) (path : string) (blocked : gset string) : M drain_step :=
  expired ← syscall id;
  match expired with
  | Some err => mret (Return err)
  | None =>
      if negb (is_hook_path path) then mret Continue
      else
        err ← syscall id;
        d ← get_disk;
        match err, dk_spool d !! path with
        | Some err, _ => mret (Return err)
        | None, None => mret (Return (plain "no such file"))
        | None, Some (Corrupt _) => stop_at ("unreadable journal retained: " +:+ path)
        | None, Some (Spooled e) =>
            if negb (readable e) then stop_at ("unreadable journal retained: " +:+ path) else
            let e := reread e in
            let session := hi_SessionID (he_Input e) in
            if invalid e then stop_at ("invalid journal retained: " +:+ path)
            else if bool_decide (session ∈ blocked) then mret Continue
            else if he_Permanent e && bool_decide (he_ConfigKey e = configKey c) then
              mret (Block session (plain ("hook " +:+ he_ID e +:+ " requires configuration/repair: " +:+ he_LastError e)))
            else
              r ← process_hook c path e;
              mret (match r with Stopped err => Return err | Blocked err => Block session err | Delivered _ => Continue end)
        end
  end.
Fixpoint drain_entries (c : Config) (paths : list string) (blocked : gset string) (retained : option gerr) : M (option gerr) :=
  match paths with
  | [] => mret retained
  | path :: paths =>
      s ← drain_entry c path blocked;
      match s with
      | Return err => mret (Some err)
      | Block session err => drain_entries c paths ({[session]} ∪ blocked) (Some err)
      | Continue => drain_entries c paths blocked retained
      end
  end.
(** Under the drain lock: one worker at a time. *)
Definition drainHooks (c : Config) : M (option gerr) :=
  err ← syscall id;
  match err with
  | Some err => mret (Some err)
  | None =>
      err ← syscall id;
      match err with
      | Some err => mret (Some err)
      | None => d ← get_disk; drain_entries c (sort_strings (map fst (map_to_list (dk_spool d)))) ∅ None
      end
  end.

(** * The command line *)

(** The exit code of the collector.  [status] and [verify] print what they find and are not here;
    the hook's event and input come from Claude, its id and time from the system. *)
Definition run_command (c : Config) (files : string -> TranscriptFile) (clock id : string) (nanos : Z)
    (event stdin : string) : M Z :=
  if cf_Disabled c then mret (if bool_decide (event = "flush") then 1 else 0)
  else if is_empty (cf_APIKey c) then
    if bool_decide (event = "flush") then mret 1
    else recordCaptureFailure "FACT0_API_KEY is not set; hook was not captured";; mret 0
  else if bool_decide (event = "flush") then
    err ← drainHooks c; mret (match err with Some _ => 1 | None => 0 end)
  else
    match decodeHook c stdin with
    | Err e => recordCaptureFailure ("parse hook: " +:+ ge_text e);; mret 0
    | Ok i =>
        t ← next;
        err ← locked (enqueueHook c files clock id nanos event i (tn_fates t));
        match err with
        | Some e => recordCaptureFailure (ge_text e);; mret 0
        | None =>
            err ← syscall (fun d => d);
            match err with
            | Some e => recordCaptureFailure ("hook retained; could not start delivery worker: " +:+ ge_text e);; mret 0
            | None => mret 0
            end
        end
    end.
End Worker.
Arguments World St : clear implicits.
Arguments turn St : clear implicits.
