(* ===== verification/JournalFacts.v ===== *)
(** Facts of the plugin's journal: what is written reads back, and re-reading an
    operation does not change the request it stands for. *)
From S2P Require Import Prelude Json JsonFacts Canonical CanonicalFacts Float64 FloatFacts AuditModel TimeText Execution IngestFacts AuthFacts Collector Transcript Hooks Journal.
Local Open Scope Z_scope.

(** * Maps *)

Lemma obj_set_key_list k v l :
  (map fst (obj_set k v l) = map fst l) \/ ((k ∉ map fst l) /\ map fst (obj_set k v l) = map fst l ++ [k]).
Proof.
  induction l as [|[k' v'] l IH]; cbn.
  - right. split; [by intros ?%not_elem_of_nil|done].
  - destruct (decide (k = k')) as [-> |Hne]; cbn; [by left|].
    destruct IH as [-> |[Hn ->]]; [by left|right]. split; [|done]. by intros [?|?]%elem_of_cons.
Qed.
Lemma obj_of_members_keys l : NoDup (map fst (obj_of_members l)).
Proof.
  unfold obj_of_members. assert (H : NoDup (map fst ([] : list (string * json)))) by constructor. revert H.
  generalize (@nil (string * json)) as acc. induction l as [|[k v] l IH]; intros acc H; cbn; [done|].
  apply IH. destruct (obj_set_key_list k v acc) as [-> |[Hin ->]]; [done|]. apply NoDup_app. split; [done|]. split.
  - intros x Hx ->%list_elem_of_singleton. by destruct Hin.
  - apply NoDup_singleton.
Qed.
Lemma obj_set_values (P : json -> Prop) k v l : P v -> Forall (fun kv => P kv.2) l -> Forall (fun kv => P kv.2) (obj_set k v l).
Proof.
  intros Hv. induction 1 as [|[k' v'] l Hx Hl IH]; cbn; [by repeat constructor|].
  case_decide; by constructor.
Qed.
Lemma obj_of_members_values (P : json -> Prop) l : Forall (fun kv => P kv.2) l -> Forall (fun kv => P kv.2) (obj_of_members l).
Proof.
  intros H. unfold obj_of_members. assert (H0 : Forall (fun kv => P kv.2) ([] : list (string * json))) by constructor. revert H0.
  generalize (@nil (string * json)) as acc. induction H as [|[k v] l Hx Hl IH]; intros acc H0; cbn; [done|].
  apply IH. by apply obj_set_values.
Qed.

Lemma map_id_Forall {A} (f : A -> A) l : Forall (fun x => f x = x) l -> map f l = l.
Proof. induction 1 as [|x l Hx Hl IH]; cbn; [done|]. by rw Hx IH. Qed.

Lemma map_value_idem v : map_value (map_value v) = map_value v.
Proof.
  induction v as [| | | |l IH|m IH] using json_ind'; cbn; try done.
  - f_equal. rw map_map. by apply map_ext_Forall.
  - f_equal. set (L := merge_sort key_order (obj_of_members (map (fun kv => (kv.1, map_value kv.2)) m))).
    assert (HL : Forall (fun kv : string * json => map_value kv.2 = kv.2) L).
    { unfold L. rw merge_sort_Permutation. apply (obj_of_members_values (fun v => map_value v = v)).
      apply Forall_map. eapply Forall_impl; [exact IH|]. by intros [k v]. }
    assert (Hk : NoDup (map fst L)).
    { unfold L. erewrite Permutation_map; [apply obj_of_members_keys|apply merge_sort_Permutation]. }
    rw (map_id_Forall (fun kv => (kv.1, map_value kv.2))); [|eapply Forall_impl; [exact HL|]; intros [k v]; cbn; by intros ->].
    rw obj_of_members_nodup //. unfold L. apply sort_members_eq; [done|]. apply merge_sort_Permutation.
Qed.
Lemma map_value_members m : JObj (norm_members m) = map_value (JObj m).
Proof. done. Qed.
Lemma norm_members_idem m : norm_members (norm_members m) = norm_members m.
Proof. unfold norm_members at 1. by rw map_value_members map_value_idem. Qed.

(** * Reading members *)

Lemma field_app k l m : field k (l ++ m) = match field k l with Some v => Some v | None => field k m end.
Proof. induction l as [|[k' v] l IH]; cbn; [done|]. by destruct (bool_decide _). Qed.
Lemma field_omit k b k' v : field k (omit b k' v) = if b then None else if bool_decide (k = k') then Some v else None.
Proof. unfold omit. destruct b; [done|]. cbn. by destruct (bool_decide _). Qed.
Lemma field_omit_str k k' v :
  field k (omit_str k' v) = if is_empty v then None else if bool_decide (k = k') then Some (JStr v) else None.
Proof. apply field_omit. Qed.
Lemma field_nonempty {A} k k' (f : A -> json) m :
  field k (nonempty_map k' f m) = if bool_decide (k = k') then match map_to_list m with [] => None | _ => Some (map_json f m) end else None.
Proof. unfold nonempty_map. destruct (map_to_list m); cbn; by destruct (bool_decide _). Qed.
Lemma as_string_omit v : as_string (if is_empty v then None else Some (JStr v)) = v.
Proof. unfold is_empty. case_bool_decide; by subst. Qed.

Lemma as_integer_JInt z : int64_min <= z <= int64_max -> as_integer 64 (Some (JInt z)) = z.
Proof. intros Hz. cbn. by rw parse_integer_pretty. Qed.

(** Look a key up in the members of a struct: skip the other keys, decide the omitted member. *)
Ltac eval_keys :=
  repeat match goal with
         | |- context [@bool_decide (@eq string ?a ?b) ?d] =>
             is_ground a; is_ground b;
             let r := eval vm_compute in (@bool_decide (@eq string a b) d) in
             change (@bool_decide (@eq string a b) d) with r
         end; cbv iota.
Lemma if_none {A} (b : bool) : (if b then None else None) = @None A.
Proof. by destruct b. Qed.
Lemma some_none {A} (o : option A) : match o with Some v => Some v | None => None end = o.
Proof. by destruct o. Qed.
Ltac read_member :=
  repeat progress (rw ?field_app ?field_omit_str ?field_omit ?field_nonempty; cbn [field app str_member members_of];
                   eval_keys; rw ?if_none ?some_none; cbv iota).
Ltac omitted := rw ?as_string_omit; try done.

Lemma list_back {A} (f : json -> A) (g : A -> json) (h : A -> A) l :
  Forall (fun x => f (g x) = h x) l ->
  as_list f (if match l with [] => true | _ => false end then None else Some (JArr (map g l))) = map h l.
Proof. destruct 1 as [|x l Hx Hl]; [done|]. cbn. rw Hx map_map. f_equal. by apply map_ext_Forall. Qed.
Lemma members_back {A} (f : json -> A) (g : A -> json) (h : A -> A) (m : gmap string A) :
  (forall k x, m !! k = Some x -> f (g x) = h x) ->
  list_to_map (map (fun kv => (kv.1, f kv.2)) (members_of (map_json g m))) = h <$> m.
Proof.
  intros Hfg. unfold map_json. cbn [members_of]. rw map_map. cbn. set (L := merge_sort _ _).
  assert (HL : L ≡ₚ map_to_list m) by apply merge_sort_Permutation.
  assert (E : map (fun x : string * A => (x.1, f (g x.2))) L = (prod_map id h) <$> L).
  { apply map_ext_Forall. rw HL. apply Forall_forall. intros [k x] Hx. apply elem_of_map_to_list in Hx.
    unfold prod_map. cbn. by rw (Hfg k x). }
  rw E list_to_map_fmap. f_equal. etrans; [|apply list_to_map_to_list]. apply list_to_map_proper; [|done].
  rw HL. apply NoDup_fst_map_to_list.
Qed.
Lemma map_back {A} (f : json -> A) (g : A -> json) (h : A -> A) (m : gmap string A) :
  (forall k x, m !! k = Some x -> f (g x) = h x) ->
  as_map f (match map_to_list m with [] => None | _ => Some (map_json g m) end) = h <$> m.
Proof.
  intros Hfg. destruct (map_to_list m) as [|x l] eqn:E.
  - apply map_to_list_empty_iff in E. subst. cbn. by rw fmap_empty.
  - cbn [as_map]. by rw -(members_back f g h m Hfg).
Qed.
Lemma strmap_back (m : gmap string string) :
  as_strmap (match map_to_list m with [] => None | _ => Some (map_json JStr m) end) = if bool_decide (m = ∅) then None else Some m.
Proof.
  destruct (map_to_list m) as [|x l] eqn:E.
  - apply map_to_list_empty_iff in E. by rw bool_decide_true.
  - rw bool_decide_false; [|intros ->; by rw map_to_list_empty in E]. cbn [as_strmap map_json]. f_equal.
    etrans; [apply (members_back (fun v => as_string (Some v)) JStr id m); by intros|]. apply map_fmap_id.
Qed.

Lemma message_back m : assistant_of_json (assistant_json m) = norm_message m.
Proof. unfold assistant_of_json, assistant_json, norm_message. cbn [members_of]. f_equal; read_member; omitted. Qed.
Lemma turn_back t :
  int64_min <= ts_InputTokens t <= int64_max -> int64_min <= ts_OutputTokens t <= int64_max ->
  turnStats_of_json (members_of (turnStats_json t)) = norm_turn t.
Proof.
  intros H1 H2. unfold turnStats_of_json, turnStats_json, norm_turn. cbn [members_of].
  f_equal; read_member; omitted; try by apply as_integer_JInt.
  apply list_back, Forall_forall. intros m _. apply message_back.
Qed.

Definition turn_ok (t : TurnStats) : Prop :=
  int64_min <= ts_InputTokens t <= int64_max /\ int64_min <= ts_OutputTokens t <= int64_max.
(** Integers fit their type; the cost is a number JSON can write. *)
Definition input_ok (i : HookInput) : Prop :=
  int64_min <= hi_DurationMs i <= int64_max /\ float_ok (hi_TotalCostUSD i) = true
  /\ forall t, hi_CapturedTurn i = Some t -> turn_ok t.
Definition envelope_ok (e : hookEnvelope) : Prop :=
  input_ok (he_Input e) /\ int64_min <= he_Next e <= int64_max /\ int64_min <= he_Attempts e <= int64_max.

Lemma float_back f v : float_ok f = true -> float_json f = Some v -> as_float (Some v) = f.
Proof.
  intros Hok Hv. destruct f as [neg m e| |]; [|done|done]. unfold float_json in Hv. destruct (float_text _) as [s|] eqn:E; [|done].
  injection Hv as <-. cbn. by destruct (float_text_spec neg m e s Hok E) as [_ ->].
Qed.
Lemma input_back i v : input_ok i -> hookInput_json i = Some v -> hookInput_of_json (members_of v) = norm_input i.
Proof.
  intros (Hd & Hf & Ht) Hv. unfold hookInput_json in Hv. destruct (float_json _) as [cost|] eqn:E; [|done].
  apply float_back in E; [|done]. injection Hv as <-. unfold hookInput_of_json, norm_input. cbn [members_of].
  destruct (hi_LastAssistantMessage i) as [final|], (hi_CapturedTurn i) as [t|].
  all: f_equal; read_member; omitted; try by (unfold norm_optional; destruct (is_empty (hi_Usage i))).
  all: try by destruct (feqb _ _).
  all: try by (destruct (Z.eqb_spec (hi_DurationMs i) 0) as [-> |]; [done|]; apply as_integer_JInt).
  all: destruct (Ht t eq_refl) as [Hi Ho]; cbn [fmap option_fmap option_map]; rw -turn_back //.
Qed.

Lemma start_back s : spanStart_of_json (spanStart_json s) = norm_start s.
Proof.
  unfold spanStart_of_json, spanStart_json, norm_start. cbn [members_of].
  destruct (ss_Metadata s) as [m|].
  all: f_equal; read_member; omitted; try by (unfold norm_optional; destruct (is_empty (ss_Input s))).
  apply strmap_back.
Qed.
Lemma state_back s : sessionState_of_json (members_of (sessionState_json s)) = norm_state s.
Proof.
  unfold sessionState_of_json, sessionState_json, norm_state. cbn [members_of].
  f_equal; read_member; omitted.
  - apply map_back. intros. apply start_back.
  - etrans; [apply (map_back _ JBool id); by intros|]. apply map_fmap_id.
  - by destruct (st_Closed s).
Qed.
Lemma audit_back e : auditInput_of_json (members_of (auditInput_json e)) = norm_audit e.
Proof.
  unfold auditInput_of_json, auditInput_json, norm_audit. cbn [members_of].
  f_equal; read_member; omitted.
  - unfold actor_of_json, actor_json, as_members. cbn [members_of]. destruct (ai_Actor e) as [x y z]. cbn [actor_ID actor_Type actor_Email].
    f_equal; read_member; omitted.
  - unfold resource_of_json, resource_json, as_members. cbn [members_of]. destruct (ai_Resource e) as [x y z].
    cbn [resource_ID resource_Type resource_Name]. f_equal; read_member; omitted.
  - destruct (ai_Metadata e) eqn:E; [done|]. by cbn [as_members].
Qed.
Lemma letter_back d : deadLetter_of_json (deadLetter_json d) = norm_letter d.
Proof.
  unfold deadLetter_of_json, deadLetter_json, norm_letter. cbn [members_of].
  destruct (dl_Audit d) as [e|].
  all: f_equal; read_member; omitted.
  1: cbn [as_ref fmap option_fmap option_map]; rw -audit_back; done.
  all: apply list_back, Forall_forall; intros m _; done.
Qed.

(** A journal file read back is the envelope it was written from, in the form [reread]. *)
Lemma envelope_back e v : envelope_ok e -> hookEnvelope_json e = Some v -> hookEnvelope_of_json v = reread e.
Proof.
  intros (Hi & Hn & Ha) Hv. unfold hookEnvelope_json in Hv. destruct (hookInput_json _) as [input|] eqn:E; [|done].
  apply input_back in E; [|done]. injection Hv as <-. unfold hookEnvelope_of_json, reread. cbn [members_of].
  destruct (he_State e) as [s|].
  all: f_equal; read_member; omitted; try by apply as_integer_JInt.
  all: try by destruct (he_Permanent e).
  all: try (apply list_back, Forall_forall; intros d _; apply letter_back).
  cbn [as_ref fmap option_fmap option_map]. rw -state_back. done.
Qed.

(** * Re-reading an operation *)

Lemma foldl_set_nonempty l acc : acc <> [] -> foldl (fun acc kv => obj_set kv.1 kv.2 acc) acc l <> [].
Proof.
  revert acc. induction l as [|[k v] l IH]; intros acc Ha; cbn; [done|]. apply IH.
  destruct acc as [|[k2 v2] acc]; cbn; [done|by case_decide].
Qed.
Lemma obj_of_members_nil l : obj_of_members l = [] -> l = [].
Proof. destruct l as [|[k v] l]; [done|]. intros H. by destruct (foldl_set_nonempty l [(k, v)] ltac:(done) H). Qed.
Lemma norm_members_nil m : match norm_members m with [] => true | _ => false end = match m with [] => true | _ => false end.
Proof.
  destruct m as [|x m]; [done|]. destruct (norm_members (x :: m)) as [|y l] eqn:E; [|done]. exfalso.
  unfold norm_members in E. cbn [members_of map_value] in E.
  assert (H := merge_sort_Permutation key_order (obj_of_members (map (fun kv => (kv.1, map_value kv.2)) (x :: m)))).
  rw E in H. apply Permutation_nil_l in H. symmetry in H. by apply obj_of_members_nil in H.
Qed.
Lemma norm_audit_json e : auditInput_json (norm_audit e) = auditInput_json e.
Proof.
  unfold auditInput_json, norm_audit. cbn [ai_ID ai_Timestamp ai_Actor ai_Action ai_Resource ai_Outcome ai_Metadata].
  by rw -map_value_members norm_members_idem map_value_members norm_members_nil.
Qed.
Lemma letter_spans d : map (fun m => map_value (JObj m)) (dl_Spans (norm_letter d)) = map (fun m => map_value (JObj m)) (dl_Spans d).
Proof.
  unfold norm_letter. cbn [dl_Spans]. rw map_map. apply map_ext. intros m. by rw -!map_value_members norm_members_idem.
Qed.

