(* ===== verification/SpoolFacts.v ===== *)
(** What the plugin's worker does to its spool.

    [N] relates two worlds between which nothing of the queue changed but new
    captures; [F path] those between which only the hook at [path] was worked
    on.  [legal] is the order in which the requests of a hook may reach the
    server, [Inv] the invariant of spool and log, [evolves] what becomes of every
    hook. *)
From S2P Require Import Prelude Json JsonFacts Float64 AuditModel TimeText Execution Base64 Collector Transcript Hooks Journal JournalFacts Spool.
Local Open Scope Z_scope.

(** * The requests of a hook *)

Inductive hook_event := Sent (i : nat) (r : HttpRequest) (a : HttpAnswer) | Acked (i : nat) | Removed.
Definition event_of (path : string) (e : entry) : option hook_event :=
  match e with
  | Reached (Some (p, i)) r a => if decide (p = path) then Some (Sent i r a) else None
  | Reached None _ _ => None
  | Accepted p i => if decide (p = path) then Some (Acked i) else None
  | Finished p => if decide (p = path) then Some Removed else None
  end.
Definition events (path : string) (log : list entry) : list hook_event := omap (event_of path) log.

(** An operation by its request and the answer it needs. *)
Definition signature : Type := result gerr HttpRequest * string * nat.
Definition op_sig (d : DeadLetter) : signature := (op_request d, dl_Kind d, length (dl_Spans d)).
Definition sigs (e : hookEnvelope) : list signature := map op_sig (he_Operations e).
Definition accepted_by (s : signature) (a : HttpAnswer) : Prop :=
  ha_status a < 300 /\ exists m, decoded a = Ok m /\ accepts s.1.2 s.2 m = None.

(** The operations below [k] have been accepted, each after the one before it; every request is
    that of its operation, of one that is next or was sent before. *)
Inductive legal (ss : list signature) : nat -> list hook_event -> Prop :=
| legal_nil : legal ss 0 []
| legal_sent k l i s r a :
    legal ss k l -> (i <= k)%nat -> ss !! i = Some s -> s.1.1 = Ok r -> legal ss k (l ++ [Sent i r a])
| legal_acked k l i s r a :
    legal ss k l -> (i <= k)%nat -> ss !! i = Some s -> Sent i r a ∈ l -> accepted_by s a ->
    legal ss (Nat.max k (S i)) (l ++ [Acked i]).
(** Every operation was accepted, and then the file was removed. *)
Definition complete (ss : list signature) (l : list hook_event) : Prop :=
  exists l0, l = l0 ++ [Removed] /\ legal ss (length ss) l0.

Lemma legal_bound ss k l : legal ss k l -> (k <= length ss)%nat.
Proof. induction 1 as [|k l i s r a _ IH _ Hs _|k l i s r a _ IH _ Hs _ _]; try lia; apply lookup_lt_Some in Hs; lia. Qed.
Lemma legal_accepted ss k l j : legal ss k l -> (j < k)%nat ->
  exists s r a, ss !! j = Some s /\ s.1.1 = Ok r /\ Sent j r a ∈ l /\ accepted_by s a.
Proof.
  intros H. assert (Hr : forall l i r a k, legal ss k l -> Sent i r a ∈ l -> exists s, ss !! i = Some s /\ s.1.1 = Ok r).
  { clear. intros l i r a k. induction 1 as [|k l i' s r' a' _ IH _ Hs Hr|k l i' s r' a' _ IH _ _ _ _]; intros Hin.
    - by apply not_elem_of_nil in Hin.
    - apply elem_of_app in Hin as [Hin|Hin]; [by apply IH|]. apply list_elem_of_singleton in Hin as [= -> -> _]. by exists s.
    - apply elem_of_app in Hin as [Hin|Hin]; [by apply IH|]. by apply list_elem_of_singleton in Hin. }
  induction H as [|k l i s r a _ IH _ _ _|k l i s r a Hl IH Hi Hs Hin Hacc]; intros Hj; [lia| |].
  - destruct (IH Hj) as (s' & r' & a' & ? & ? & ? & ?). exists s', r', a'. split_and!; [done|done| |done]. apply elem_of_app. by left.
  - destruct (decide (j < k)%nat) as [Hjk|Hjk].
    + destruct (IH Hjk) as (s' & r' & a' & ? & ? & ? & ?). exists s', r', a'. split_and!; [done|done| |done]. apply elem_of_app. by left.
    + assert (j = i) as -> by lia. destruct (Hr _ _ _ _ _ Hl Hin) as (s' & Hs' & Hr'). rw Hs in Hs'. injection Hs' as <-.
      exists s, r, a. split_and!; [done|done| |done]. apply elem_of_app. by left.
Qed.
Lemma complete_accepted ss l i s : complete ss l -> ss !! i = Some s ->
  exists r a, s.1.1 = Ok r /\ Sent i r a ∈ l /\ accepted_by s a.
Proof.
  intros (l0 & -> & Hl) Hs. destruct (legal_accepted _ _ _ i Hl) as (s' & r & a & Hs' & Hr & Hin & Hacc).
  { by eapply lookup_lt_Some. }
  rw Hs in Hs'. injection Hs' as <-. exists r, a. split_and!; [done| |done]. apply elem_of_app. by left.
Qed.
Lemma legal_queued ss k l : legal ss k l -> Removed ∉ l.
Proof. induction 1; [apply not_elem_of_nil|..]; set_solver. Qed.
Lemma legal_sents ss k l i s l' :
  legal ss k l -> (i <= k)%nat -> ss !! i = Some s ->
  Forall (fun x => exists r a, x = Sent i r a /\ s.1.1 = Ok r) l' -> legal ss k (l ++ l').
Proof.
  intros Hl Hi Hs. induction l' as [|x l' IH] using rev_ind; intros Hf; [by rw app_nil_r|].
  apply Forall_app in Hf as [Hf Hx]. inversion Hx as [|? ? (r & a & -> & Hr) _]; subst.
  rw app_assoc. by eapply legal_sent; [apply IH| | |].
Qed.

Lemma events_app path l l' : events path (l ++ l') = events path l ++ events path l'.
Proof. apply omap_app. Qed.
Lemma event_of_path path e x : event_of path e = Some x -> entry_path e = Some path.
Proof. destruct e as [[[p i]|] r a|p i|p]; cbn; try done; by case_decide; [subst|]. Qed.
Lemma events_nil path log : Some path ∉ map entry_path log -> events path log = [].
Proof.
  induction log as [|e log IH]; cbn; [done|]. intros H. destruct (event_of path e) as [x|] eqn:E.
  - apply event_of_path in E. destruct H. rw E. by left.
  - apply IH. intros Hin. destruct H. by right.
Qed.
Lemma events_other path l : Forall (fun x => entry_path x <> Some path) l -> events path l = [].
Proof.
  intros Hf. apply events_nil. intros Hin. apply list_elem_of_fmap in Hin as (x & Hx & Hin).
  rw Forall_forall in Hf. by destruct (Hf x Hin).
Qed.

(** * The disk *)

Definition fresh_file (f : spool_file) : Prop :=
  exists e, f = Spooled e /\ he_Prepared e = false /\ he_Next e = 0.

Lemma write_run_effect c path e fs d r d' :
  writeEnvelope_run c path e fs d = (r, d') ->
  (dk_spool d' = dk_spool d \/ dk_spool d' = <[path := Spooled e]> (dk_spool d))
  /\ (r = Some None -> dk_spool d' = <[path := Spooled e]> (dk_spool d)).
Proof.
  unfold writeEnvelope_run. destruct (envelope_text e) as [text|]; [|by intros [= <- <-]; split; [left|]].
  unfold write_locked, drop_temp. intros H. repeat case_match; simplify_eq; cbn; (split; [|done]); auto.
Qed.

Lemma new_envelope_fresh c files clock id event i :
  fresh_file (Spooled (new_envelope c files clock id event i)).
Proof. by eexists. Qed.

Lemma run_capture_effect log c d p :
  (dk_spool d !! p <> None -> dk_spool (run_capture log d c) !! p = dk_spool d !! p)
  /\ (dk_spool d !! p = None ->
      dk_spool (run_capture log d c) !! p = None
      \/ (events p log = [] /\ exists f, dk_spool (run_capture log d c) !! p = Some f /\ fresh_file f)).
Proof.
  unfold run_capture. destruct (unused (cp_path c) d log) eqn:Hu; [|by split; [|left]].
  apply andb_true_iff in Hu as [Hn%bool_decide_eq_true Hl%bool_decide_eq_true].
  unfold enqueueHook. fold (cp_path c). set (e := new_envelope _ _ _ _ _ _).
  destruct (writeEnvelope_run _ _ _ _ _) as [r d'] eqn:He. cbn.
  apply write_run_effect in He as [[-> | ->] _]; [by split; [|left]|].
  destruct (decide (p = cp_path c)) as [-> |Hne].
  - split; [done|]. intros _. right. split; [by apply events_nil|]. exists (Spooled e).
    rw lookup_insert_eq. split; [done|]. apply new_envelope_fresh.
  - rw lookup_insert_ne //. by split; [|left].
Qed.
Lemma run_captures_effect log l d p :
  (dk_spool d !! p <> None -> dk_spool (run_captures log l d) !! p = dk_spool d !! p)
  /\ (dk_spool d !! p = None ->
      dk_spool (run_captures log l d) !! p = None
      \/ (events p log = [] /\ exists f, dk_spool (run_captures log l d) !! p = Some f /\ fresh_file f)).
Proof.
  unfold run_captures. revert d. induction l as [|c l IH]; intros d; cbn [foldl]; [by split; [|left]|].
  destruct (run_capture_effect log c d p) as [H1 H2], (IH (run_capture log d c)) as [I1 I2]. split.
  - intros Hp. rw -(H1 Hp). apply I1. by rw (H1 Hp).
  - intros Hp. destruct (H2 Hp) as [H|(Hl & f & Hf & Hfr)]; [by apply I2|]. right. split; [done|]. exists f.
    rw I1; [|by rw Hf]. by split.
Qed.

(** * Steps that leave the queue alone *)

Create HintDb neutral.

Section Worker.
Context {St : Type}.
Variable serve : HttpRequest -> St -> HttpAnswer * St.
Variable prep0 : Prep.
Local Abbreviation W := (World St).
Implicit Types (w : W).

Definition spool_at (p : string) (w : W) : option spool_file := dk_spool (wd_disk w) !! p.
Definition history (p : string) (w : W) : list hook_event := events p (wd_log w).

(** What other processes may do to the hook at [p] between two worlds. *)
Definition undisturbed (p : string) (w w' : W) : Prop :=
  (spool_at p w <> None -> spool_at p w' = spool_at p w)
  /\ (spool_at p w = None ->
      spool_at p w' = None \/ (history p w = [] /\ exists f, spool_at p w' = Some f /\ fresh_file f))
  /\ history p w' = history p w.
Definition logs (P : entry -> Prop) (w w' : W) : Prop := exists l, wd_log w' = wd_log w ++ l /\ Forall P l.

(** Only the hook at [path] was worked on. *)
Definition F (path : string) (w w' : W) : Prop :=
  (forall p, p <> path -> undisturbed p w w')
  /\ logs (fun x => entry_path x = Some path \/ entry_path x = None) w w'.
(** No hook was worked on. *)
Definition N (w w' : W) : Prop := (forall p, undisturbed p w w') /\ logs (fun x => entry_path x = None) w w'.

Lemma undisturbed_refl p w : undisturbed p w w.
Proof. by split_and!; [|left|]. Qed.
Lemma undisturbed_trans p w1 w2 w3 : undisturbed p w1 w2 -> undisturbed p w2 w3 -> undisturbed p w1 w3.
Proof.
  intros (A1 & A2 & A3) (B1 & B2 & B3). split_and!.
  - intros H. by rw B1 ?A1.
  - intros H. destruct (A2 H) as [H2|(Hh & f & Hf & Hfr)].
    + destruct (B2 H2) as [H3|(Hh & Hf)]; [by left|right]. by rw -A3.
    + right. split; [done|]. exists f. rw B1; [|by rw Hf]. by split.
  - by rw B3.
Qed.
Lemma logs_trans P w1 w2 w3 : logs P w1 w2 -> logs P w2 w3 -> logs P w1 w3.
Proof.
  intros (l1 & E1 & F1) (l2 & E2 & F2). exists (l1 ++ l2). rw E2 E1 app_assoc. split; [done|]. by apply Forall_app.
Qed.
Lemma logs_refl P w : logs P w w.
Proof. exists []. by rw app_nil_r. Qed.
Lemma F_refl path w : F path w w.
Proof. split; [intros; apply undisturbed_refl|apply logs_refl]. Qed.
Lemma F_trans path w1 w2 w3 : F path w1 w2 -> F path w2 w3 -> F path w1 w3.
Proof. intros [A1 A2] [B1 B2]. split; [|by eapply logs_trans]. intros p Hp. eapply undisturbed_trans; eauto. Qed.
Lemma N_refl w : N w w.
Proof. split; [intros; apply undisturbed_refl|apply logs_refl]. Qed.
Lemma N_trans w1 w2 w3 : N w1 w2 -> N w2 w3 -> N w1 w3.
Proof. intros [A1 A2] [B1 B2]. split; [|by eapply logs_trans]. intros p. eapply undisturbed_trans; eauto. Qed.
Lemma N_F path w w' : N w w' -> F path w w'.
Proof.
  intros [A (l & E & Hl)]. split; [by intros|]. exists l. split; [done|]. eapply Forall_impl; [exact Hl|]. by right.
Qed.

(** A new log and new spool entries make a neutral step. *)
Lemma N_same w w' : dk_spool (wd_disk w') = dk_spool (wd_disk w) -> logs (fun x => entry_path x = None) w w' -> N w w'.
Proof.
  intros Hd Hl. split; [|done]. intros p. unfold undisturbed, spool_at, history. rw Hd. split_and!; [done|by left|].
  destruct Hl as (l & -> & Hl). rw events_app (events_other p l) ?app_nil_r //.
  eapply Forall_impl; [exact Hl|]. cbn. by intros x ->.
Qed.

Lemma bind_eq {A B} (m : M A) (f : A -> M B) w :
  (m ≫= f) w = match m w with (Some a, w1) => f a w1 | (None, w1) => (None, w1) end.
Proof. done. Qed.
Definition neutral {A} (m : M A) : Prop := forall w, N w (m w).2.
Lemma neutral_bind {A B} (m : M A) (f : A -> M B) : neutral m -> (forall a, neutral (f a)) -> neutral (m ≫= f).
Proof.
  intros Hm Hf w. unfold mbind, M_bind. specialize (Hm w). destruct (m w) as [[a|] w1]; cbn in *; [|done].
  eapply N_trans; [exact Hm|apply Hf].
Qed.
Lemma neutral_ret {A} (a : A) : neutral (mret a : M A).
Proof. intros w. apply N_refl. Qed.
Lemma neutral_die {A} : neutral (die : M A).
Proof. intros w. apply N_refl. Qed.
Lemma neutral_get_disk : neutral (get_disk : M Disk).
Proof. intros w. apply N_refl. Qed.
Lemma neutral_next : neutral (next prep0).
Proof.
  intros w. unfold next. destruct (wd_turns w) as [|t ts]; [apply N_refl|]. cbn. split.
  - intros p. unfold undisturbed, spool_at, history. cbn.
    destruct (run_captures_effect (wd_log w) (tn_captures t) (wd_disk w) p) as [H1 H2]. by split_and!.
  - exists []. by rw app_nil_r.
Qed.
Lemma neutral_fate : neutral (next_fate prep0).
Proof. apply neutral_bind; [apply neutral_next|]. intros. apply neutral_ret. Qed.
Lemma neutral_on_disk f : (forall d, dk_spool (f d) = dk_spool d) -> neutral (on_disk f : M unit).
Proof. intros Hf w. apply N_same; cbn; [done|]. exists []. by rw app_nil_r. Qed.
Lemma neutral_syscall f : (forall d, dk_spool (f d) = dk_spool d) -> neutral (syscall prep0 f).
Proof.
  intros Hf. apply neutral_bind; [apply neutral_fate|]. intros [|m|m|n]; try apply neutral_ret; try apply neutral_die.
  all: apply neutral_bind; [by apply neutral_on_disk|intros; apply neutral_ret].
Qed.
Lemma neutral_exchange r : neutral (exchange serve None r).
Proof.
  intros w. unfold exchange. destruct (serve r (wd_server w)) as [a s]. apply N_same; [done|].
  exists [Reached None r a]. split; [done|]. by constructor.
Qed.
#[local] Hint Resolve neutral_bind neutral_ret neutral_die neutral_get_disk neutral_next neutral_fate neutral_syscall
  neutral_exchange : neutral.

Lemma neutral_attempt r : neutral (attempt serve prep0 None r).
Proof.
  apply neutral_bind; [apply neutral_fate|]. intros [|m|m|n]; auto with neutral.
  all: apply neutral_bind; [apply neutral_exchange|]; intros; apply neutral_ret.
Qed.
Lemma neutral_attempts n r : neutral (attempts serve prep0 n None r).
Proof.
  induction n as [|n IH]; cbn; (apply neutral_bind; [apply neutral_attempt|]); intros [x|x]; auto with neutral.
  apply neutral_bind; [by apply neutral_syscall|]. intros [e|]; auto with neutral.
Qed.
Lemma neutral_doJSON r : neutral (doJSON serve prep0 None r).
Proof. unfold doJSON. repeat case_match; auto using neutral_attempts with neutral. Qed.
Lemma neutral_interp {A} (p : Prog A) : neutral (interp serve prep0 p).
Proof.
  induction p as [a|r k IH]; cbn [interp]; [apply neutral_ret|]. apply neutral_bind; [apply neutral_doJSON|]. intros x. apply IH.
Qed.
Lemma neutral_record msg : neutral (recordCaptureFailure prep0 msg).
Proof. apply neutral_bind; [by apply neutral_syscall|]. intros. apply neutral_ret. Qed.
Lemma neutral_load s : neutral (LoadState prep0 s).
Proof. apply neutral_bind; [by apply neutral_syscall|]. intros. apply neutral_bind; auto with neutral. Qed.
Lemma neutral_save_state e : neutral (save_state prep0 e).
Proof.
  unfold save_state. destruct (he_State e) as [s|]; [|apply neutral_ret].
  apply neutral_bind; [by apply neutral_syscall|]. intros [err|]; [|apply neutral_ret].
  apply neutral_bind; [apply neutral_record|]. intros. apply neutral_ret.
Qed.
Lemma neutral_prepare c e : neutral (prepareHook serve prep0 c e).
Proof.
  apply neutral_bind; [apply neutral_next|]. intros t. apply neutral_bind; [apply neutral_load|].
  intros [s|err]; [|apply neutral_ret]. apply neutral_bind; [apply neutral_interp|]. intros [err tx]. apply neutral_ret.
Qed.

(** * Steps on one hook *)

Lemma F_at path w w' l :
  (forall p, p <> path -> spool_at p w' = spool_at p w) -> wd_log w' = wd_log w ++ l ->
  Forall (fun x => entry_path x = Some path \/ entry_path x = None) l -> F path w w'.
Proof.
  intros Hs Hl Hf. split; [|by exists l]. intros p Hp. unfold undisturbed. rw (Hs p Hp). split_and!; [done|by left|].
  unfold history. rw Hl events_app (events_other p l) ?app_nil_r //.
  eapply Forall_impl; [exact Hf|]. cbn. by intros x [-> | ->] ?; simplify_eq.
Qed.

(** Sending a request for an operation: it may reach the server several times. *)
Definition sends (path : string) (i : nat) (r : HttpRequest) (ok : option (list member)) (w w' : W) : Prop :=
  F path w w' /\ (spool_at path w <> None -> spool_at path w' = spool_at path w)
  /\ exists l, history path w' = history path w ++ l /\ Forall (fun x => exists a, x = Sent i r a) l
     /\ forall m, ok = Some m -> exists a, Sent i r a ∈ l /\ ha_status a < 300 /\ decoded a = Ok m.

Lemma sends_neutral path i r w w' : N w w' -> sends path i r None w w'.
Proof.
  intros H. split_and!; [by apply N_F| |]; destruct H as [Hp _]; destruct (Hp path) as (H1 & _ & H3); [done|].
  exists []. rw app_nil_r. by split_and!.
Qed.
Lemma sends_trans path i r ok w1 w2 w3 : sends path i r None w1 w2 -> sends path i r ok w2 w3 -> sends path i r ok w1 w3.
Proof.
  intros (A1 & A2 & l1 & A3 & A4 & _) (B1 & B2 & l2 & B3 & B4 & B5). split_and!; [by eapply F_trans| |].
  - intros H. by rw B2 ?A2.
  - exists (l1 ++ l2). rw B3 A3 app_assoc. split; [done|]. split; [by apply Forall_app|].
    intros m Hm. destruct (B5 m Hm) as (a & Ha & ?). exists a. split; [|done]. apply elem_of_app. by right.
Qed.
Lemma sends_exchange path i r w a w' :
  exchange serve (Some (path, i)) r w = (Some a, w') ->
  sends path i r None w w' /\ (forall m, ha_status a < 300 -> decoded a = Ok m -> sends path i r (Some m) w w').
Proof.
  unfold exchange. destruct (serve r (wd_server w)) as [a0 s]. intros [= -> <-]. cbn.
  assert (HF : F path w (MkWorld (wd_disk w) s (wd_turns w) (wd_log w ++ [Reached (Some (path, i)) r a]))).
  { eapply F_at; [done|done|]. constructor; [by left|done]. }
  assert (HL : history path (MkWorld (wd_disk w) s (wd_turns w) (wd_log w ++ [Reached (Some (path, i)) r a]))
               = history path w ++ [Sent i r a]).
  { unfold history. cbn [wd_log]. rw events_app. cbn. by rw decide_True. }
  split; [|intros m Hs Hd]; (split_and!; [done|done|]); exists [Sent i r a]; (split_and!; [done|by repeat econstructor|]).
  - done.
  - intros m' [= <-]. exists a. split; [by left|done].
Qed.

Lemma attempt_sends path i r w :
  let '(o, w') := attempt serve prep0 (Some (path, i)) r w in
  sends path i r (match o with Some (inl (Ok m)) => Some m | _ => None end) w w'.
Proof.
  unfold attempt. rw bind_eq. pose proof (neutral_fate w) as Hn. destruct (next_fate prep0 w) as [[x|] w1]; cbn in Hn |- *.
  2: by apply sends_neutral.
  destruct x as [|m|m|n]; [|by apply sends_neutral| |by apply sends_neutral].
  all: rw bind_eq; destruct (exchange serve (Some (path, i)) r w1) as [[a|] w2] eqn:E; [|unfold exchange in E; by destruct (serve _ _)].
  all: apply sends_exchange in E as [E1 E2].
  2: by eapply sends_trans; [apply sends_neutral|].
  destruct (ha_status a <? 300) eqn:Hs.
  - apply Z.ltb_lt in Hs. destruct (decoded a) as [m|e] eqn:Hd; cbn.
    + eapply sends_trans; [by apply sends_neutral|]. by apply E2.
    + by eapply sends_trans; [apply sends_neutral|].
  - cbn. destruct (_ && _); by (eapply sends_trans; [apply sends_neutral|]).
Qed.
Lemma attempts_sends n path i r w :
  let '(o, w') := attempts serve prep0 n (Some (path, i)) r w in
  sends path i r (match o with Some (Ok m) => Some m | _ => None end) w w'.
Proof.
  revert w. induction n as [|n IH]; intros w; cbn [attempts]; rw bind_eq; pose proof (attempt_sends path i r w) as Ha;
    destruct (attempt _ _ _ _ w) as [[[[m|e]|e]|] w1]; cbn; try done.
  unfold retryWait. rw bind_eq. pose proof (neutral_syscall id ltac:(done) w1) as Hn. destruct (syscall prep0 id w1) as [[[e'|]|] w2]; cbn in *.
  - by eapply sends_trans; [|apply sends_neutral].
  - specialize (IH w2). destruct (attempts _ _ _ _ _ w2) as [o w3]. eapply sends_trans; [|exact IH].
    by eapply sends_trans; [|apply sends_neutral].
  - by eapply sends_trans; [|apply sends_neutral].
Qed.

(** Delivering an operation: only its own request is sent, and it counts as delivered only when the server accepted it. *)
Lemma deliver_sends c path i op w :
  let '(o, w') := deliverOperation serve prep0 c (Some (path, i)) op w in
  F path w w' /\ (spool_at path w <> None -> spool_at path w' = spool_at path w)
  /\ exists l, history path w' = history path w ++ l
     /\ Forall (fun x => exists r a, x = Sent i r a /\ (op_sig op).1.1 = Ok r) l
     /\ (o = Some None -> exists r a, Sent i r a ∈ l /\ accepted_by (op_sig op) a).
Proof.
  assert (Hstay : forall e, e <> None -> F path w w /\ (spool_at path w <> None -> spool_at path w = spool_at path w)
    /\ exists l, history path w = history path w ++ l
     /\ Forall (fun x => exists r a, x = Sent i r a /\ (op_sig op).1.1 = Ok r) l
     /\ (@Some (option gerr) e = Some None -> exists r a, Sent i r a ∈ l /\ accepted_by (op_sig op) a)).
  { intros e He. split_and!; [apply F_refl|done|]. exists []. rw app_nil_r. by split_and!; [| |intros [= ->]]. }
  unfold deliverOperation. destruct (marshal _) as [data|]; [|by apply Hstay]. destruct (_ <? _); [by apply Hstay|].
  unfold deliverDeadLetter. destruct (op_request op) as [r|e] eqn:Hr; [|by apply Hstay].
  assert (Hd : let '(o, w') := doJSON serve prep0 (Some (path, i)) r w in
               sends path i r (match o with Some (Ok m) => Some m | _ => None end) w w').
  { unfold doJSON. destruct (hr_body r) as [body|]; [destruct (marshal body)|]; [apply attempts_sends| |apply attempts_sends].
    by apply sends_neutral, N_refl. }
  rw bind_eq. destruct (doJSON _ _ _ _ w) as [[[m|e]|] w1].
  all: destruct Hd as (H1 & H2 & l & H3 & H4 & H5); cbn; (split_and!; [done|done|]); exists l; (split_and!; [done| |]).
  1, 3, 5: eapply Forall_impl; [exact H4|]; intros x [a ->]; by exists r, a.
  - intros [= Ho]. destruct (H5 m eq_refl) as (a & Ha & Hst & Hdec). exists r, a. split; [done|]. split; [done|].
    exists m. by split.
  - done.
  - done.
Qed.

(** Writing the envelope of [path]: it is there or the old file is. *)
Lemma write_spec c path e w f : spool_at path w = Some f ->
  let '(o, w') := writeEnvelope prep0 c path e w in
  F path w w' /\ history path w' = history path w
  /\ (spool_at path w' = Some f \/ spool_at path w' = Some (Spooled e))
  /\ (o = Some None -> spool_at path w' = Some (Spooled e)).
Proof.
  intros Hf. unfold writeEnvelope. rw bind_eq. pose proof (neutral_next w) as Hn.
  destruct (next prep0 w) as [[t|] w1]; cbn in Hn.
  2:{ destruct Hn as [Hp Hl]. split_and!; [by apply N_F|by destruct (Hp path) as (_ & _ & ?)| |done].
      left. destruct (Hp path) as (H & _). by rw H Hf. }
  assert (H1 : spool_at path w1 = Some f) by (destruct Hn as [Hp _]; destruct (Hp path) as (H & _); by rw H Hf).
  assert (H2 : history path w1 = history path w) by (destruct Hn as [Hp _]; by destruct (Hp path) as (_ & _ & ?)).
  unfold locked. destruct (writeEnvelope_run c path e (tn_fates t) (wd_disk w1)) as [r d] eqn:E.
  apply write_run_effect in E as [E1 E2]. cbn. split_and!.
  - eapply F_trans; [by apply N_F|]. eapply (F_at _ _ _ []); [|by rw app_nil_r|constructor].
    intros p Hp. unfold spool_at. cbn. destruct E1 as [-> | ->]; [done|]. by rw lookup_insert_ne.
  - done.
  - unfold spool_at in *. cbn. destruct E1 as [-> | ->]; [by left|right]. by rw lookup_insert_eq.
  - intros [= ->]. unfold spool_at. cbn. by rw E2 // lookup_insert_eq.
Qed.

(** The same hook, further on: a prepared one keeps its operations. *)
Definition same_hook (e e' : hookEnvelope) : Prop :=
  he_ID e' = he_ID e /\ he_Event e' = he_Event e /\ hi_SessionID (he_Input e') = hi_SessionID (he_Input e)
  /\ (he_Prepared e = true -> he_Prepared e' = true /\ sigs e' = sigs e /\ he_Next e <= he_Next e').
Lemma same_hook_refl e : same_hook e e.
Proof. by split_and!. Qed.
Lemma same_hook_trans e1 e2 e3 : same_hook e1 e2 -> same_hook e2 e3 -> same_hook e1 e3.
Proof.
  intros (A1 & A2 & A3 & A4) (B1 & B2 & B3 & B4). split_and!; [congruence..|]. intros H. destruct (A4 H) as (C1 & C2 & C3).
  destruct (B4 C1) as (D1 & D2 & D3). split_and!; [done|congruence|lia].
Qed.

(** How far a queued hook is: what it says of its operations agrees with what reached the server. *)
Definition hook_inv (e : hookEnvelope) (h : list hook_event) : Prop :=
  if he_Prepared e then
    0 <= he_Next e <= Z.of_nat (length (he_Operations e))
    /\ exists k, legal (sigs e) k h /\ (Z.to_nat (he_Next e) <= k)%nat
  else h = [] /\ he_Next e = 0.
Lemma hook_inv_queued e h : hook_inv e h -> Removed ∉ h.
Proof.
  unfold hook_inv. destruct (he_Prepared e); [|intros [-> _]; apply not_elem_of_nil].
  intros (_ & k & Hl & _). by eapply legal_queued.
Qed.
Definition file_inv (f : option spool_file) (h : list hook_event) : Prop :=
  match f with
  | Some (Spooled e) => hook_inv e h
  | Some (Corrupt _) => h = []
  | None => h = [] \/ exists ss, complete ss h
  end.
Definition Inv (w : W) : Prop := forall p, file_inv (spool_at p w) (history p w).

Lemma sigs_reread e : sigs (reread e) = sigs e.
Proof.
  unfold sigs, reread. cbn [he_Operations]. rw map_map. apply map_ext. intros d. unfold op_sig. f_equal; [f_equal|].
  - unfold op_request, norm_letter. cbn [dl_Kind dl_Audit dl_ExecutionID dl_Spans dl_Status dl_EndedAt].
    pose proof (letter_spans d) as Hs. unfold norm_letter in Hs. cbn [dl_Spans] in Hs.
    repeat case_bool_decide; try done.
    + destruct (dl_Audit d) as [x|]; [|done]. cbn [fmap option_fmap option_map]. unfold LogBatch_request. cbn [map].
      by rw norm_audit_json.
    + unfold IngestSpans_request, spans_body. rw Hs. by destruct (dl_Spans d).
  - cbn. by rw length_map.
Qed.
Lemma hook_inv_reread e h : hook_inv e h -> hook_inv (reread e) h.
Proof.
  unfold hook_inv. rw sigs_reread. unfold reread. cbn [he_Prepared he_Next he_Operations]. by rw length_map.
Qed.
Lemma same_hook_reread e e' : same_hook (reread e) e' -> same_hook e e'.
Proof. unfold same_hook. rw sigs_reread. done. Qed.

(** The hook is still queued, or gone with every operation accepted. *)
Definition queued (path : string) (e : hookEnvelope) (w : W) : Prop :=
  exists e', spool_at path w = Some (Spooled e') /\ same_hook e e' /\ hook_inv e' (history path w).
Definition delivered (path : string) (e : hookEnvelope) (w : W) : Prop :=
  spool_at path w = None /\ exists ss, (he_Prepared e = true -> ss = sigs e) /\ complete ss (history path w).

Section InHand.
(** The progress the file showed when the hook was taken up. *)
Variable lo : Z.

(** A prepared envelope in memory, [i] operations into its delivery, ahead of the file by one at most. *)
Definition in_hand (path : string) (e : hookEnvelope) (i : nat) (w : W) : Prop :=
  he_Prepared e = true /\ he_Next e = Z.of_nat i /\ (i <= length (he_Operations e))%nat
  /\ exists e1, spool_at path w = Some (Spooled e1) /\ he_Prepared e1 = true /\ sigs e1 = sigs e /\ he_ID e1 = he_ID e
       /\ he_Event e1 = he_Event e /\ hi_SessionID (he_Input e1) = hi_SessionID (he_Input e) /\ 0 <= lo /\ lo <= he_Next e1 <= Z.of_nat i
       /\ exists k, legal (sigs e) k (history path w) /\ (i <= k)%nat.

Lemma sigs_progress n a l p k e : sigs (set_progress n a l p k e) = sigs e.
Proof. done. Qed.
Lemma length_sigs e : length (sigs e) = length (he_Operations e).
Proof. apply length_map. Qed.

Lemma in_hand_queued path e i w : in_hand path e i w ->
  exists e1, spool_at path w = Some (Spooled e1) /\ he_Prepared e1 = true /\ same_hook e1 e /\ hook_inv e1 (history path w).
Proof.
  intros (Hp & Hn & Hi & e1 & H1 & H2 & H3 & H4 & H5 & H6 & H0 & H7 & k & Hl & Hk). exists e1. split_and!; [done|done| |].
  - unfold same_hook. split_and!; [done..|]. intros _. split_and!; [done|done|lia].
  - unfold hook_inv. rw H2. rw -(length_sigs e1) H3 length_sigs. split; [lia|]. exists k. split; [done|lia].
Qed.

(** Writing an in-memory envelope that says no more than what was accepted. *)
Lemma write_in_hand c path e e' i w :
  in_hand path e i w -> he_Prepared e' = true -> sigs e' = sigs e -> he_ID e' = he_ID e -> he_Event e' = he_Event e ->
  hi_SessionID (he_Input e') = hi_SessionID (he_Input e) -> he_Next e' = Z.of_nat i ->
  let '(o, w') := writeEnvelope prep0 c path e' w in F path w w' /\ history path w' = history path w /\ in_hand path e' i w'.
Proof.
  intros (Hp & Hn & Hi & e1 & H1 & H2 & H3 & H4 & H5 & H6 & H0 & H7 & k & Hl & Hk) E1 E2 E3 E4 E5 E6.
  pose proof (write_spec c path e' w _ H1) as Hw. destruct (writeEnvelope _ _ _ _ _) as [o w'].
  destruct Hw as (W1 & W2 & W3 & _). split_and!; [done|done|]. split_and!; [done|done|by rw -length_sigs E2 length_sigs|].
  rw E2 W2. destruct W3 as [W3|W3]; [exists e1|exists e']; (split_and!; [done|congruence|congruence|congruence|congruence|congruence|done|lia|lia|]);
    by exists k.
Qed.
Lemma in_hand_neutral path e i w w' : N w w' -> in_hand path e i w -> in_hand path e i w'.
Proof.
  intros [Hd _] (Hp & Hn & Hi & e1 & H1 & H2 & H3 & H4 & H5 & H6 & H0 & H7 & k & Hl & Hk). destruct (Hd path) as (D1 & _ & D3).
  split_and!; [done|done|done|]. exists e1. rw D3 (D1 ltac:(by rw H1)).
  split_and!; [done|done|done|done|done|done|done|lia|lia|]. by exists k.
Qed.

(** After the request of operation [i]: in hand still, and one further when it was accepted. *)
Lemma deliver_in_hand c path e i op w :
  in_hand path e i w -> he_Operations e !! i = Some op ->
  let '(o, w') := deliverOperation serve prep0 c (Some (path, i)) op w in
  F path w w' /\ in_hand path e i w'
  /\ (o = Some None -> exists r a, op_request op = Ok r /\ Sent i r a ∈ history path w' /\ accepted_by (op_sig op) a).
Proof.
  intros (Hp & Hn & Hi & e1 & H1 & H2 & H3 & H4 & H5 & H6 & H0 & H7 & k & Hl & Hk) Hop.
  pose proof (deliver_sends c path i op w) as Hd. destruct (deliverOperation _ _ _ _ _ _) as [o w'].
  destruct Hd as (D1 & D2 & l & D3 & D4 & D5).
  assert (Hs : sigs e !! i = Some (op_sig op)) by (unfold sigs; by rw list_lookup_fmap Hop).
  split_and!; [done| |].
  - split_and!; [done|done|done|]. exists e1. rw (D2 ltac:(by rw H1)). split_and!; [done|done|done|done|done|done|done|lia|lia|].
    exists k. rw D3. split; [|done]. by eapply legal_sents.
  - intros Ho. destruct (D5 Ho) as (r & a & Ha & Hacc). exists r, a. split_and!; [| |done].
    + rw Forall_forall in D4. by destruct (D4 _ Ha) as (r' & a' & [= -> ->] & ?).
    + rw D3. apply elem_of_app. by right.
Qed.

Lemma note_accepted path e i op r a w :
  in_hand path e i w -> he_Operations e !! i = Some op -> op_request op = Ok r -> Sent i r a ∈ history path w ->
  accepted_by (op_sig op) a ->
  let w' := (note (Accepted path i) w).2 in
  F path w w' /\ in_hand path e i w'
  /\ exists k, legal (sigs e) k (history path w') /\ (S i <= k)%nat.
Proof.
  intros (Hp & Hn & Hi & e1 & H1 & H2 & H3 & H4 & H5 & H6 & H0 & H7 & k & Hl & Hk) Hop Hr Ha Hacc w'.
  assert (Hs : sigs e !! i = Some (op_sig op)) by (unfold sigs; by rw list_lookup_fmap Hop).
  assert (Hh : history path w' = history path w ++ [Acked i]).
  { unfold history, w'. cbn [note snd wd_log]. rw events_app. cbn. by rw decide_True. }
  assert (Hl' : legal (sigs e) (Nat.max k (S i)) (history path w')) by (rw Hh; by eapply legal_acked).
  split_and!.
  - eapply F_at; [done|done|]. constructor; [by left|done].
  - split_and!; [done|done|done|]. exists e1. split_and!; [done|done|done|done|done|done|done|lia|lia|]. exists (Nat.max k (S i)). split; [done|lia].
  - exists (Nat.max k (S i)). split; [done|lia].
Qed.

(** Once accepted, the next progress may be written. *)
Lemma advance_in_hand c path e i w :
  in_hand path e i w -> (i < length (he_Operations e))%nat ->
  (exists k, legal (sigs e) k (history path w) /\ (S i <= k)%nat) ->
  let e' := set_progress (he_Next e + 1) (he_Attempts e) "" false (he_ConfigKey e) e in
  let '(o, w') := writeEnvelope prep0 c path e' w in
  F path w w' /\ in_hand path e' (S i) w'.
Proof.
  intros (Hp & Hn & Hi & e1 & H1 & H2 & H3 & H4 & H5 & H6 & H0 & H7 & _) Hlt (k & Hl & Hk) e'.
  assert (Hin : in_hand path e' (S i) w).
  { split_and!; [done|cbn; lia|done|]. exists e1. split_and!; [done|done|done|done|done|done|done|lia|lia|]. by exists k. }
  pose proof (write_in_hand c path e' e' (S i) w Hin) as Hw. destruct (writeEnvelope _ _ _ _ _) as [o w'].
  destruct Hw as (W1 & _ & W3); try done. cbn. lia.
Qed.

Definition delivered_in_hand (path : string) (e : hookEnvelope) (o : option delivery) (w' : W) : Prop :=
  match o with
  | Some (Delivered e') => in_hand path e' (length (he_Operations e')) w' /\ sigs e' = sigs e /\ he_ID e' = he_ID e
       /\ he_Event e' = he_Event e /\ hi_SessionID (he_Input e') = hi_SessionID (he_Input e)
  | _ => exists i e', in_hand path e' i w' /\ sigs e' = sigs e /\ he_ID e' = he_ID e
       /\ he_Event e' = he_Event e /\ hi_SessionID (he_Input e') = hi_SessionID (he_Input e)
  end.

Lemma deliver_ops_spec c path ops : forall e i w,
  in_hand path e i w -> drop i (he_Operations e) = ops ->
  let '(o, w') := deliver_ops serve prep0 c path e i ops w in F path w w' /\ delivered_in_hand path e o w'.
Proof.
  induction ops as [|op ops IH]; intros e i w Hin Hd; cbn [deliver_ops].
  { cbn. split; [apply F_refl|]. split; [|done]. assert (i = length (he_Operations e)) as <-; [|done].
    apply (f_equal length) in Hd. rw length_drop in Hd. cbn in Hd. destruct Hin as (_ & _ & ? & _). lia. }
  assert (Hop : he_Operations e !! i = Some op) by (by rw -(take_drop i (he_Operations e)) Hd lookup_app_r length_take;
    [destruct Hin as (_ & _ & ? & _); replace (i - _)%nat with 0%nat by lia|destruct Hin as (_ & _ & ? & _); lia]).
  rw bind_eq. pose proof (deliver_in_hand c path e i op w Hin Hop) as H1. destruct (deliverOperation _ _ _ _ _ w) as [[err|] w1].
  2: destruct H1 as (F1 & I1 & _); (split; [done|]); by exists i, e.
  destruct H1 as (F1 & I1 & Hacc). destruct err as [err|].
  - rw bind_eq. set (e' := set_progress _ _ _ _ _ e).
    pose proof (write_in_hand c path e e' i w1 I1) as Hw. destruct (writeEnvelope _ _ _ e' _) as [o2 w2].
    destruct Hw as (F2 & _ & I2); [apply I1|done|done|done|done|apply I1|].
    destruct o2 as [werr|]; [|split; [by eapply F_trans|by exists i, e']].
    rw bind_eq. pose proof (neutral_record (ge_text err) w2) as Hr. destruct (recordCaptureFailure _ _ w2) as [o3 w3]. cbn in Hr.
    assert (HF : F path w w3) by (eapply F_trans; [by eapply F_trans|by apply N_F]).
    assert (HI : in_hand path e' i w3) by (by eapply in_hand_neutral).
    destruct o3; cbn; [destruct (isPermanentDelivery err)|]; (split; [done|]); by exists i, e'.
  - destruct (Hacc eq_refl) as (r & a & Hr & Ha & Hac). destruct (note_accepted path e i op r a w1 I1 Hop Hr Ha Hac) as (F2 & I2 & Hk).
    rw bind_eq. cbn [note]. cbn [note snd] in F2, I2, Hk. set (w2 := MkWorld _ _ _ _) in *.
    rw bind_eq. pose proof (advance_in_hand c path e i w2 I2 ltac:(by eapply lookup_lt_Some) Hk) as Hw.
    cbv zeta in Hw. set (e' := set_progress _ _ _ _ _ e) in *. destruct (writeEnvelope _ _ _ e' w2) as [o3 w3].
    destruct Hw as [F3 I3].
    assert (HF : F path w w3) by (eapply F_trans; [by eapply F_trans|done]).
    destruct o3 as [[werr|]|].
    + rw bind_eq. pose proof (neutral_record (ge_text werr) w3) as Hrec. destruct (recordCaptureFailure _ _ w3) as [o4 w4]. cbn in Hrec.
      assert (HI : in_hand path e' (S i) w4) by (by eapply in_hand_neutral).
      destruct o4; (split; [eapply F_trans; [done|by apply N_F]|by exists (S i), e']).
    + specialize (IH e' (S i) w3 I3). destruct (deliver_ops _ _ _ _ _ _ _ w3) as [o4 w4].
      destruct IH as [F4 D4]; [by pose proof (drop_S _ _ _ Hop) as E; rw Hd in E; injection E as ->|].
      split; [by eapply F_trans|exact D4].
    + split; [done|]. by exists (S i), e'.
Qed.

(** The file is gone and everything was accepted. *)
Definition gone (path : string) (e : hookEnvelope) (w : W) : Prop :=
  spool_at path w = None /\ complete (sigs e) (history path w).
Lemma gone_neutral path e w w' : N w w' -> gone path e w -> gone path e w'.
Proof.
  intros [Hp _] [H1 H2]. destruct (Hp path) as (_ & P2 & P3). unfold gone. rw P3. split; [|done].
  destruct (P2 H1) as [?|[He _]]; [done|]. destruct H2 as (l0 & E & _). rw E in He. by destruct l0.
Qed.
Lemma remove_spec path e w :
  in_hand path e (length (he_Operations e)) w ->
  let '(o, w') := remove_file prep0 path w in
  F path w w' /\ match o with
                 | Some None => gone path e w'
                 | _ => in_hand path e (length (he_Operations e)) w' \/ gone path e w'
                 end.
Proof.
  intros Hin. unfold remove_file. rw bind_eq. pose proof (neutral_fate w) as Hn.
  destruct (next_fate prep0 w) as [[x|] w1]; cbn in Hn.
  2: split; [by apply N_F|left; by eapply in_hand_neutral].
  assert (I1 : in_hand path e (length (he_Operations e)) w1) by by eapply in_hand_neutral.
  set (w2 := MkWorld (set_spool (delete path (dk_spool (wd_disk w1))) (wd_disk w1)) (wd_server w1) (wd_turns w1)
               (wd_log w1 ++ [Finished path])).
  assert (HF : F path w w2).
  { eapply F_trans; [by apply N_F|]. eapply F_at; [|done|constructor; [by left|done]].
    intros p Hp. unfold spool_at. cbn. by rw lookup_delete_ne. }
  assert (HC : gone path e w2).
  { split; [unfold spool_at; cbn; by rw lookup_delete_eq|]. destruct I1 as (_ & _ & _ & e1 & _ & _ & _ & _ & _ & _ & _ & _ & k & Hl & Hk).
    exists (history path w1). split; [unfold history, w2; cbn [wd_log]; rw events_app; cbn; by rw decide_True|].
    pose proof (legal_bound _ _ _ Hl) as Hb. rw length_sigs in Hb. rw length_sigs. by replace (length (he_Operations e)) with k by lia. }
  destruct x as [|m|m|n]; cbn; (split; [first [exact HF|by apply N_F]|]); first [exact HC|by left|by right].
Qed.
Lemma then_neutral {A} path e (m : M A) w0 w :
  F path w0 w -> (in_hand path e (length (he_Operations e)) w \/ gone path e w) -> neutral m ->
  F path w0 (m w).2 /\ (in_hand path e (length (he_Operations e)) (m w).2 \/ gone path e (m w).2)
  /\ (gone path e w -> gone path e (m w).2).
Proof.
  intros HF Hc Hm. specialize (Hm w). split_and!; [by eapply F_trans; [|apply N_F]| |by apply gone_neutral].
  destruct Hc; [left; by eapply in_hand_neutral|right; by eapply gone_neutral].
Qed.
Lemma finish_spec path e w :
  in_hand path e (length (he_Operations e)) w ->
  let '(o, w') := finish_hook prep0 path e w in
  F path w w' /\ (in_hand path e (length (he_Operations e)) w' \/ gone path e w') /\ (o = Some None -> gone path e w').
Proof.
  intros Hin. unfold finish_hook. rw bind_eq. pose proof (remove_spec path e w Hin) as Hr.
  destruct (remove_file prep0 path w) as [[[err|]|] w1]; destruct Hr as [F1 C1]; [| |by split_and!].
  - assert (Hm : neutral (recordCaptureFailure prep0 (ge_text err);; mret (Some err) : M (option gerr)))
      by (apply neutral_bind; [apply neutral_record|intros; apply neutral_ret]).
    destruct (then_neutral path e _ w w1 F1 C1 Hm) as (F2 & C2 & G2). rw bind_eq in F2, C2 |- *.
    destruct (recordCaptureFailure _ _ w1) as [[]  w2]; cbn in *; by split_and!.
  - set (m := (_ ← syscall prep0 id; _) : M (option gerr)).
    assert (Hm : neutral m).
    { apply neutral_bind; [by apply neutral_syscall|]. intros _. destruct (he_State e) as [s|]; [|apply neutral_ret].
      destruct (st_Closed s); [|apply neutral_ret]. apply neutral_bind; [by apply neutral_syscall|intros; apply neutral_ret]. }
    destruct (then_neutral path e m w w1 F1 (or_intror C1) Hm) as (F2 & C2 & G2). change (m w1) with (m w1) in *.
    destruct (m w1) as [o w2]. cbn in *. split_and!; auto.
Qed.
End InHand.

(** ** From the file to the file *)

(** An envelope of the same hook. *)
Definition of_hook (e0 e : hookEnvelope) : Prop :=
  he_ID e = he_ID e0 /\ he_Event e = he_Event e0 /\ hi_SessionID (he_Input e) = hi_SessionID (he_Input e0)
  /\ (he_Prepared e0 = true -> sigs e = sigs e0).
Lemma hand_queued lo path e0 e i w :
  in_hand lo path e i w -> of_hook e0 e -> (he_Prepared e0 = true -> he_Next e0 <= lo) -> queued path e0 w.
Proof.
  intros Hin (H1 & H2 & H3 & H4) Hlo. destruct (in_hand_queued _ _ _ _ _ Hin) as (e1 & E1 & E2 & _ & E4).
  exists e1. split_and!; [done| |done]. destruct Hin as (_ & _ & _ & e2 & D1 & _ & D3 & D4 & D5 & D6 & _ & D7 & _).
  rw E1 in D1. injection D1 as <-. split_and!; [congruence..|]. intros Hp. split_and!; [done|by rw D3 H4|].
  specialize (Hlo Hp). lia.
Qed.
Lemma gone_delivered path e0 e w : gone path e w -> of_hook e0 e -> delivered path e0 w.
Proof. intros [H1 H2] (_ & _ & _ & H). split; [done|]. exists (sigs e). split; [|done]. intros Hp. by apply H. Qed.

Definition settled (path : string) (e0 : hookEnvelope) (o : option delivery) (w' : W) : Prop :=
  (queued path e0 w' \/ delivered path e0 w') /\ forall e, o = Some (Delivered e) -> delivered path e0 w'.

Lemma deliver_rest_spec lo c path e0 e w :
  in_hand lo path e (Z.to_nat (he_Next e)) w -> of_hook e0 e -> (he_Prepared e0 = true -> he_Next e0 <= lo) ->
  let '(o, w') := deliver_rest serve prep0 c path e w in F path w w' /\ settled path e0 o w'.
Proof.
  intros Hin He Hlo. assert (Hq : forall w' i e', in_hand lo path e' i w' -> of_hook e0 e' -> queued path e0 w' \/ delivered path e0 w')
    by (intros; left; by eapply hand_queued).
  unfold deliver_rest. rw bind_eq. pose proof (neutral_save_state e w) as Hn. destruct (save_state prep0 e w) as [o1 w1]. cbn in Hn.
  assert (I1 := in_hand_neutral _ _ _ _ _ _ Hn Hin). assert (F1 := N_F path _ _ Hn).
  destruct o1 as [[err|]|]; [by (split; [|split; [by eapply Hq|done]])| |by (split; [|split; [by eapply Hq|done]])].
  rw bind_eq. pose proof (deliver_ops_spec lo c path _ e _ w1 I1 eq_refl) as Hd.
  destruct (deliver_ops _ _ _ _ _ _ _ w1) as [o2 w2]. destruct Hd as [F2 D2].
  assert (F12 : F path w w2) by by eapply F_trans.
  assert (Hof : forall e', sigs e' = sigs e -> he_ID e' = he_ID e -> he_Event e' = he_Event e ->
    hi_SessionID (he_Input e') = hi_SessionID (he_Input e) -> of_hook e0 e').
  { destruct He as (A1 & A2 & A3 & A4). intros e' B1 B2 B3 B4. split_and!; [congruence..|]. intros Hp. by rw B1 A4. }
  destruct o2 as [[e'|err|err]|]; [|destruct D2 as (i & e' & I2 & B1 & B2 & B3 & B4);
    split; [done|split; [eapply Hq; [exact I2|by apply Hof]|done]]..].
  destruct D2 as (I2 & B1 & B2 & B3 & B4). specialize (Hof e' B1 B2 B3 B4).
  rw bind_eq. pose proof (finish_spec lo path e' w2 I2) as Hf. destruct (finish_hook _ _ _ w2) as [o3 w3]. destruct Hf as (F3 & C3 & G3).
  assert (F13 : F path w w3) by by eapply F_trans.
  assert (Hs : queued path e0 w3 \/ delivered path e0 w3)
    by (destruct C3 as [C3|C3]; [by eapply Hq|right; by eapply gone_delivered]).
  destruct o3 as [[err|]|]; (split; [done|split; [done|]]); try done.
  intros e2 _. eapply gone_delivered; [by apply G3|done].
Qed.

Lemma applyFinal_session i ev : hi_SessionID (applyFinalAssistant i ev) = hi_SessionID i.
Proof. unfold applyFinalAssistant. repeat case_match; done. Qed.
Lemma refine_loop_session reads path i ev : hi_SessionID (refine_loop reads path i ev) = hi_SessionID i.
Proof. induction reads as [|f reads IH]; cbn; [apply applyFinal_session|]. by destruct (_ && _). Qed.
Lemma refined_session p e : hi_SessionID (he_Input (refined p e)) = hi_SessionID (he_Input e).
Proof.
  unfold refined. case_bool_decide; [|done]. cbn [set_input he_Input]. unfold refineCapturedTurn.
  repeat case_match; rw ?applyFinal_session ?refine_loop_session //.
Qed.
Lemma refined_same p e : he_ID (refined p e) = he_ID e /\ he_Event (refined p e) = he_Event e /\ he_Next (refined p e) = he_Next e
  /\ he_Prepared (refined p e) = he_Prepared e.
Proof. unfold refined. by case_bool_decide. Qed.

Lemma prepare_keeps c e w e' err w' : prepareHook serve prep0 c e w = (Some (e', err), w') ->
  he_ID e' = he_ID e /\ he_Event e' = he_Event e /\ hi_SessionID (he_Input e') = hi_SessionID (he_Input e) /\ he_Next e' = he_Next e
  /\ (err = None -> he_Prepared e' = true).
Proof.
  unfold prepareHook. rw bind_eq. destruct (next prep0 w) as [[t|] w1]; [|done]. rw bind_eq.
  destruct (LoadState _ _ w1) as [[[s|er]|] w2]; [| |done].
  2:{ intros [= <- <- <-]. destruct (refined_same (tn_prep t) e) as (R1 & R2 & R3 & R4). by rw refined_session R1 R2 R3. }
  rw bind_eq. destruct (interp _ _ _ w2) as [[[er tx]|] w3]; [|done].
  destruct (refined_same (tn_prep t) e) as (R1 & R2 & R3 & R4).
  destruct er as [er|]; [|destruct (tx_Err tx) as [er|]]; intros [= <- <- <-]; cbn; by rw refined_session R1 R2 R3.
Qed.

Lemma queued_here path e w : spool_at path w = Some (Spooled e) -> hook_inv e (history path w) -> queued path e w.
Proof. intros H1 H2. exists e. split_and!; [done|apply same_hook_refl|done]. Qed.
Lemma queued_neutral path e w w' : N w w' -> queued path e w -> queued path e w'.
Proof.
  intros [Hp _] (e' & H1 & H2 & H3). destruct (Hp path) as (P1 & _ & P3). exists e'. rw P3. split_and!; [|done|done].
  by rw P1 ?H1.
Qed.

(** A hook nothing was sent for, and an envelope of it in memory. *)
Lemma prepare_failed_spec c path e0 e err w :
  queued path e0 w -> he_Prepared e0 = false -> history path w = [] -> he_Next e = 0 -> of_hook e0 e ->
  let '(o, w') := prepare_failed prep0 c path e err w in F path w w' /\ settled path e0 o w'.
Proof.
  intros (e1 & Hd & Hs & Hi) Hp Hh Hn (A1 & A2 & A3 & _). unfold prepare_failed. rw bind_eq. set (e' := set_progress _ _ _ _ _ e).
  pose proof (write_spec c path e' w _ Hd) as Hw. destruct (writeEnvelope _ _ _ e' w) as [o1 w1]. destruct Hw as (F1 & H1 & D1 & _).
  assert (Q1 : queued path e0 w1).
  { destruct D1 as [D1|D1]; [exists e1; by rw H1|exists e']. split_and!; [done|split_and!; [done..|by rw Hp]|].
    rw H1 Hh. unfold hook_inv. subst e'. cbn [he_Prepared set_progress he_Next he_Operations].
    destruct (he_Prepared e); [|done]. rw Hn. split; [lia|]. exists 0%nat. split; [constructor|lia]. }
  destruct o1 as [werr|]; [|split; [done|split; [by left|done]]].
  rw bind_eq. pose proof (neutral_record (ge_text err) w1) as Hr. destruct (recordCaptureFailure _ _ w1) as [o2 w2]. cbn in Hr.
  assert (F2 : F path w w2) by (eapply F_trans; [done|by apply N_F]). assert (Q2 := queued_neutral _ _ _ _ Hr Q1).
  destruct o2; (split; [done|split; [by left|done]]).
Qed.

(** Working on the hook of a file that was read. *)
Lemma process_hook_spec c path e0 w :
  spool_at path w = Some (Spooled e0) -> hook_inv e0 (history path w) ->
  let '(o, w') := process_hook serve prep0 c path (reread e0) w in F path w w' /\ settled path e0 o w'.
Proof.
  intros Hd Hi. unfold process_hook. change (he_Prepared (reread e0)) with (he_Prepared e0).
  assert (Hr : of_hook e0 (reread e0)) by (split_and!; [done..|]; intros _; apply sigs_reread).
  destruct (he_Prepared e0) eqn:Hp.
  - apply (deliver_rest_spec (he_Next e0)); [|done|done]. unfold hook_inv in Hi. rw Hp in Hi. destruct Hi as (Hb & k & Hl & Hk).
    split_and!; [done|cbn; lia|cbn; rw length_map; lia|]. exists e0. rw sigs_reread. cbn. split_and!; [done..|lia|lia|lia|]. by exists k.
  - rw bind_eq. pose proof (neutral_prepare c (reread e0) w) as Hn. pose proof (prepare_keeps c (reread e0) w) as Hk.
    unfold hook_inv in Hi. rw Hp in Hi. destruct Hi as [Hh H0].
    destruct (prepareHook serve prep0 c (reread e0) w) as [[[e err]|] w1]; cbn in Hn.
    2:{ split; [by apply N_F|]. split; [|done]. left. eapply queued_neutral; [exact Hn|]. apply queued_here; [done|].
        unfold hook_inv. by rw Hp. }
    destruct (Hk _ _ _ eq_refl) as (K1 & K2 & K3 & K4 & K5). cbn in K1, K2, K3, K4.
    assert (Hof : of_hook e0 e) by (split_and!; [done..|by rw Hp]).
    destruct Hn as [Hx Hl]. destruct (Hx path) as (X1 & _ & X3). rw Hd Hh in X1, X3.
    assert (F1 : F path w w1) by (apply N_F; by split).
    assert (Q1 : queued path e0 w1).
    { apply queued_here; [by rw X1|]. rw X3. unfold hook_inv. by rw Hp. }
    destruct err as [err|].
    { pose proof (prepare_failed_spec c path e0 e err w1 Q1 Hp X3 ltac:(lia) Hof) as Hf.
      destruct (prepare_failed _ _ _ _ _ w1) as [o w3]. destruct Hf. split; [by eapply F_trans|done]. }
    rw bind_eq. pose proof (write_spec c path e w1 (Spooled e0) ltac:(by rw X1)) as Hw.
    destruct (writeEnvelope prep0 c path e w1) as [o2 w2]. destruct Hw as (F2 & W2 & W3 & W4). rw X3 in W2.
    assert (F12 : F path w w2) by by eapply F_trans. specialize (K5 eq_refl).
    assert (I0 : hook_inv e []).
    { unfold hook_inv. rw K5 K4. split; [lia|]. exists 0%nat. split; [constructor|lia]. }
    assert (Q2 : queued path e0 w2).
    { destruct W3 as [W3|W3]; [apply queued_here; [done|]; rw W2; unfold hook_inv; by rw Hp|].
      exists e. rw W2. split_and!; [done| |done]. split_and!; [done..|by rw Hp]. }
    destruct o2 as [[err|]|]; [| |split; [done|split; [by left|done]]].
    { pose proof (prepare_failed_spec c path e0 e err w2 Q2 Hp W2 ltac:(lia) Hof) as Hf.
      destruct (prepare_failed _ _ _ _ _ w2) as [o w3]. destruct Hf. split; [by eapply F_trans|done]. }
    pose proof (deliver_rest_spec 0 c path e0 e w2) as Hf. destruct (deliver_rest _ _ _ _ _ w2) as [o w3].
    destruct Hf as [F3 S3]; [|done|by rw Hp|split; [by eapply F_trans|done]].
    split_and!; [done|lia|lia|]. exists e. split_and!; [by apply W4|done..|lia|lia|].
    exists 0%nat. rw W2. split; [constructor|lia].
Qed.

(** * Draining *)

(** What becomes of the file at [p]: a queued hook stays queued, no further back, or was delivered in
    full; what is unreadable stays; what was delivered does not come back. *)
Definition evolves (p : string) (w w' : W) : Prop :=
  (forall e, spool_at p w = Some (Spooled e) -> queued p e w' \/ delivered p e w')
  /\ (forall n, spool_at p w = Some (Corrupt n) -> spool_at p w' = spool_at p w /\ history p w' = history p w)
  /\ (spool_at p w = None -> history p w <> [] -> spool_at p w' = None /\ history p w' = history p w).

Lemma undisturbed_evolves p w w' :
  file_inv (spool_at p w) (history p w) -> undisturbed p w w' ->
  evolves p w w' /\ file_inv (spool_at p w') (history p w').
Proof.
  intros Hi (U1 & U2 & U3). unfold evolves. rw U3. split; [split_and!|].
  - intros e He. left. apply queued_here; [by rw U1 ?He|]. rw U3. by rw He in Hi.
  - intros n Hn. by rw U1 ?Hn.
  - intros Hn Hh. destruct (U2 Hn) as [?|[? _]]; done.
  - destruct (spool_at p w) as [f|] eqn:E; [by rw U1|]. destruct (U2 eq_refl) as [-> |(Hh & f & -> & e & -> & Hp & H0)]; [done|].
    rw Hh. cbn. unfold hook_inv. by rw Hp.
Qed.
Lemma queued_inv p e w : queued p e w -> file_inv (spool_at p w) (history p w).
Proof. intros (e' & -> & _ & H). exact H. Qed.
Lemma delivered_inv p e w : delivered p e w -> file_inv (spool_at p w) (history p w).
Proof. intros (-> & ss & _ & H). right. by exists ss. Qed.

Definition session_of (e : hookEnvelope) : string := hi_SessionID (he_Input e).

Lemma settled_evolves p e w o w' : spool_at p w = Some (Spooled e) -> settled p e o w' ->
  evolves p w w' /\ file_inv (spool_at p w') (history p w').
Proof.
  intros He [Hs _]. split.
  - split_and!; rw He; [by intros e0 [= <-]|done|done].
  - destruct Hs; [by eapply queued_inv|by eapply delivered_inv].
Qed.

(** One file of the listing. *)
Definition entry_done (path : string) (f : spool_file) (blocked : gset string) (o : option drain_step) (w w' : W) : Prop :=
  F path w w' /\ evolves path w w' /\ file_inv (spool_at path w') (history path w')
  /\ forall e, f = Spooled e ->
       (session_of e ∈ blocked -> undisturbed path w w')
       /\ match o with
          | Some Continue => is_hook_path path = true -> session_of e ∈ blocked \/ delivered path e w'
          | Some (Block s _) => s = session_of e
          | _ => True
          end.
Lemma entry_idle path f blocked o w w' :
  file_inv (spool_at path w) (history path w) -> N w w' ->
  (forall e, f = Spooled e -> match o with
                              | Some Continue => is_hook_path path = true -> session_of e ∈ blocked
                              | Some (Block s _) => s = session_of e
                              | _ => True
                              end) -> entry_done path f blocked o w w'.
Proof.
  intros Hi Hn Ho. assert (Hu := proj1 Hn path). destruct (undisturbed_evolves _ _ _ Hi Hu). split_and!; [by apply N_F|done|done|].
  intros e He. split; [done|]. specialize (Ho e He). destruct o as [[]|]; auto.
Qed.
Lemma neutral_stop what : neutral (stop_at prep0 what).
Proof. apply neutral_bind; [apply neutral_record|]. intros. apply neutral_ret. Qed.

Lemma drain_entry_spec c path blocked f w :
  spool_at path w = Some f -> file_inv (Some f) (history path w) ->
  let '(o, w') := drain_entry serve prep0 c path blocked w in entry_done path f blocked o w w'.
Proof.
  intros Hf Hi. assert (Hi0 : file_inv (spool_at path w) (history path w)) by by rw Hf.
  unfold drain_entry. rw bind_eq. pose proof (neutral_syscall id ltac:(done) w) as N1.
  destruct (syscall prep0 id w) as [[[err|]|] w1]; cbn in N1; [by apply entry_idle| |by apply entry_idle].
  destruct (is_hook_path path) eqn:Hh; [|apply entry_idle; [done|done|by rw Hh]]. cbn [negb].
  rw bind_eq. pose proof (neutral_syscall id ltac:(done) w1) as N2.
  destruct (syscall prep0 id w1) as [[err|] w2]; cbn in N2; assert (N12 : N w w2) by by eapply N_trans.
  2: by apply entry_idle.
  rw bind_eq. cbn [get_disk]. destruct (proj1 N12 path) as (U1 & _ & U3). rw Hf in U1. specialize (U1 ltac:(done)).
  change (dk_spool (wd_disk w2) !! path) with (spool_at path w2). rw U1. destruct err as [err|]; [by apply entry_idle|].
  assert (Hstop : forall what, let '(o, w') := stop_at prep0 what w2 in entry_done path f blocked o w w').
  { intros what. pose proof (neutral_stop what w2) as N3. unfold stop_at in *. rw bind_eq in N3 |- *.
    destruct (recordCaptureFailure _ _ w2) as [[]  w3]; cbn in *; (apply entry_idle; [done|by eapply N_trans|done]). }
  destruct f as [e|n]; [|apply Hstop]. destruct (negb (readable e)); [apply Hstop|]. destruct (invalid (reread e)); [apply Hstop|].
  change (hi_SessionID (he_Input (reread e))) with (session_of e).
  case_bool_decide as Hb; [apply entry_idle; [done|done|by intros ? [= <-]]|].
  destruct (_ && _); [apply entry_idle; [done|done|by intros ? [= <-]]|].
  rw bind_eq. rw -U3 in Hi. pose proof (process_hook_spec c path e w2 U1 Hi) as Hp.
  destruct (process_hook _ _ _ _ _ w2) as [o w3]. destruct Hp as [F3 S3].
  destruct (settled_evolves _ _ _ _ _ Hf S3). destruct S3 as [_ S3].
  assert (HF : F path w w3) by (eapply F_trans; [by apply N_F|done]).
  destruct o as [[e'|err|err]|]; (split_and!; [done|done|done|]); intros e0 [= <-]; (split; [done|]); try done.
  intros _. right. by eapply S3.
Qed.

Lemma undisturbed_queued p e w w' : undisturbed p w w' -> queued p e w -> queued p e w'.
Proof. intros (P1 & _ & P3) (e' & H1 & H2 & H3). exists e'. rw P3. split_and!; [|done|done]. by rw P1 ?H1. Qed.
Lemma complete_nonempty ss l : complete ss l -> l <> [].
Proof. intros (l0 & -> & _). by destruct l0. Qed.
Lemma queued_trans p e e' w : same_hook e e' -> queued p e' w -> queued p e w.
Proof. intros Hs (e2 & H1 & H2 & H3). exists e2. split_and!; [done|by eapply same_hook_trans|done]. Qed.
Lemma delivered_trans p e e' w : same_hook e e' -> delivered p e' w -> delivered p e w.
Proof.
  intros (_ & _ & _ & Hs) (H1 & ss & H2 & H3). split; [done|]. exists ss. split; [|done]. intros Hp.
  destruct (Hs Hp) as (Hp' & <- & _). by apply H2.
Qed.
Lemma evolves_delivered p e w w' : evolves p w w' -> delivered p e w -> delivered p e w' /\ history p w' = history p w.
Proof.
  intros (_ & _ & H3) (D1 & ss & D2 & D3). destruct (H3 D1 (complete_nonempty _ _ D3)) as [E1 E2].
  split; [|done]. split; [done|]. exists ss. by rw E2.
Qed.
Lemma hook_evolves_trans p w1 w2 w3 : evolves p w1 w2 -> evolves p w2 w3 -> evolves p w1 w3.
Proof.
  intros (A1 & A2 & A3) B. pose proof B as (B1 & B2 & B3). split_and!.
  - intros e He. destruct (A1 e He) as [(e2 & Q1 & Q2 & Q3)|Hd]; [|right; by eapply evolves_delivered].
    destruct (B1 e2 Q1); [left; by eapply queued_trans|right; by eapply delivered_trans].
  - intros n Hn. destruct (A2 n Hn) as [C1 C2]. rw -C1 in Hn. destruct (B2 n Hn). split; congruence.
  - intros Hn Hh. destruct (A3 Hn Hh) as [C1 C2]. rw -C2 in Hh. destruct (B3 C1 Hh). split; congruence.
Qed.
Lemma entry_all path f blocked o w w' : spool_at path w = Some f -> Inv w -> entry_done path f blocked o w w' ->
  (forall p, evolves p w w') /\ Inv w'.
Proof.
  intros Hf Hi ([HF _] & H2 & H3 & _).
  assert (H : forall p, evolves p w w' /\ file_inv (spool_at p w') (history p w')).
  { intros p. destruct (decide (p = path)) as [-> |Hne]; [done|]. apply undisturbed_evolves; [apply Hi|by apply HF]. }
  by split; intros p; destruct (H p).
Qed.
End Worker.
#[export] Hint Resolve neutral_bind neutral_ret neutral_die neutral_get_disk neutral_next neutral_fate neutral_syscall
  neutral_exchange : neutral.
