(* ===== verification/SpoolOrder.v ===== *)
(** Draining the spool.

    [drain_entries_spec] lifts what SpoolFacts.v shows of one file to a listing; [in_order]
    is first come, first served among the hooks of a session; [progress], what a
    drain does to the whole spool, composes. *)
From S2P Require Import Prelude Json Float64 AuditModel TimeText Execution Base64 Collector Transcript Hooks Journal JournalFacts Spool SpoolFacts.
Local Open Scope Z_scope.

Definition before {A} (x y : A) (l : list A) : Prop := exists a b, l = a ++ x :: b /\ y ∈ b.
Lemma before_cons {A} (x y z : A) l : before x y (z :: l) -> (x = z /\ y ∈ l) \/ before x y l.
Proof. intros (a & b & E & H). destruct a as [|z' a]; injection E as -> ->; [by left|right]. by exists a, b. Qed.
Lemma before_in {A} (x y : A) l : before x y l -> x ∈ l /\ y ∈ l.
Proof. intros (a & b & -> & H). split; apply elem_of_app; right; [by left|by right]. Qed.

Section Drain.
Context {St : Type}.
Variable serve : HttpRequest -> St -> HttpAnswer * St.
Variable prep0 : Prep.
Local Abbreviation W := (World St).
Implicit Types (w : W).

(** Nothing is sent for the hook at [p2] before the hook at [p1] is delivered in full, and nothing for [p1] after. *)
Definition in_order (p1 p2 : string) (e1 : hookEnvelope) (w w' : W) : Prop :=
  exists l1 l2, wd_log w' = wd_log w ++ l1 ++ l2 /\ events p2 l1 = [] /\ events p1 l2 = []
    /\ (events p2 l2 <> [] -> delivered p1 e1 w').

Lemma history_log p w w' l : wd_log w' = wd_log w ++ l -> history p w' = history p w -> events p l = [].
Proof.
  unfold history. intros ->. rw events_app. intros H. apply (f_equal length) in H. rw length_app in H.
  apply length_zero_iff_nil. lia.
Qed.
(** The later hook was not worked on. *)
Lemma in_order_idle p1 p2 e1 w w' l : wd_log w' = wd_log w ++ l -> history p2 w' = history p2 w -> in_order p1 p2 e1 w w'.
Proof. intros Hl Hh. exists l, []. rw app_nil_r. split_and!; [done|by eapply history_log|done|done]. Qed.
(** The earlier hook was delivered, and not worked on any more. *)
Lemma in_order_after p1 p2 e1 w w1 w2 l1 l2 :
  wd_log w1 = wd_log w ++ l1 -> wd_log w2 = wd_log w1 ++ l2 -> history p2 w1 = history p2 w -> history p1 w2 = history p1 w1 ->
  delivered p1 e1 w2 -> in_order p1 p2 e1 w w2.
Proof.
  intros E1 E2 H1 H2 Hd. exists l1, l2. rw E2 E1 app_assoc. split_and!; [done|by eapply history_log|by eapply history_log|done].
Qed.
(** After something that worked on neither. *)
Lemma in_order_step p1 p2 e1 w w1 w2 l :
  wd_log w1 = wd_log w ++ l -> history p2 w1 = history p2 w -> in_order p1 p2 e1 w1 w2 -> in_order p1 p2 e1 w w2.
Proof.
  intros E1 H1 (l1 & l2 & E & A & B & C). exists (l ++ l1), l2. rw E E1 !app_assoc events_app A (history_log _ _ _ _ E1 H1).
  by split_and!.
Qed.

Definition untouched (paths : list string) (blocked : gset string) (p : string) (w : W) : Prop :=
  p ∉ paths \/ exists e, spool_at p w = Some (Spooled e) /\ session_of e ∈ blocked.

(** What a drain of the listing [paths] does. *)
Definition drained (paths : list string) (blocked : gset string) (w w' : W) : Prop :=
  (forall p, untouched paths blocked p w -> undisturbed p w w')
  /\ (forall p, evolves p w w') /\ Inv w' /\ (exists l, wd_log w' = wd_log w ++ l)
  /\ forall p1 p2 e1 e2, before p1 p2 paths -> is_hook_path p1 = true ->
       spool_at p1 w = Some (Spooled e1) -> spool_at p2 w = Some (Spooled e2) -> session_of e1 = session_of e2 ->
       in_order p1 p2 e1 w w'.

Lemma drained_nil paths blocked w : Inv w -> drained paths blocked w w.
Proof.
  intros Hi. split_and!; [intros; apply undisturbed_refl| |done|exists []; by rw app_nil_r|].
  - intros p. apply undisturbed_evolves; [apply Hi|apply undisturbed_refl].
  - intros. eapply (in_order_idle _ _ _ _ _ []); [by rw app_nil_r|done].
Qed.
(** The run ends at the file [path]. *)
Lemma drained_end path f paths blocked o w w' :
  path ∉ paths -> spool_at path w = Some f -> Inv w -> entry_done path f blocked o w w' -> drained (path :: paths) blocked w w'.
Proof.
  intros Hnd Hf Hi Hd. destruct (entry_all _ _ _ _ _ _ Hf Hi Hd) as [He Hi']. destruct Hd as ([HF (l & Hl & _)] & _ & _ & Ho).
  split_and!; [|done|done|by exists l|].
  - intros p [Hp|(e & Hs & Hb)]; [apply HF; by intros -> ; apply Hp; left|].
    destruct (decide (p = path)) as [-> |Hne]; [|by apply HF]. rw Hf in Hs. injection Hs as ->. destruct (Ho e eq_refl) as [Hu _]. by apply Hu.
  - intros p1 p2 e1 e2 Hb _ _ _ _. eapply in_order_idle; [done|]. destruct (HF p2) as (_ & _ & ?); [|done].
    intros ->. apply before_cons in Hb as [[_ ?]|Hb]; [done|]. by apply before_in in Hb as [_ ?].
Qed.

(** The run goes on after the file [path], with the sessions [blocked']. *)
Lemma drained_cons path f paths blocked blocked' o w w1 w2 :
  path ∉ paths -> spool_at path w = Some f -> Inv w -> (forall p, p ∈ paths -> spool_at p w <> None) ->
  entry_done path f blocked o w w1 ->
  match o with
  | Some Continue => blocked' = blocked
  | Some (Block s _) => blocked' = {[s]} ∪ blocked
  | _ => False
  end ->
  drained paths blocked' w1 w2 -> drained (path :: paths) blocked w w2.
Proof.
  intros Hnd Hf Hi Hall Hd Hb' (R1 & R2 & R3 & (l2 & R4) & R5). destruct (entry_all _ _ _ _ _ _ Hf Hi Hd) as [He _].
  destruct Hd as ([HF (l1 & Hl & _)] & _ & _ & Ho).
  assert (Hsub : blocked ⊆ blocked') by (destruct o as [[]|]; subst; set_solver).
  assert (Hkeep : forall p e, p ≠ path -> spool_at p w = Some (Spooled e) -> spool_at p w1 = Some (Spooled e)).
  { intros p e Hne Hs. destruct (HF p Hne) as (U & _). by rw U Hs. }
  split_and!; [| |done|exists (l1 ++ l2); by rw R4 Hl app_assoc|].
  - intros p Hu. apply (undisturbed_trans _ _ w1).
    + destruct (decide (p = path)) as [-> |Hne]; [|by apply HF].
      destruct Hu as [[]|(e & Hs & Hb)]; [by left|]. rw Hf in Hs. injection Hs as ->. destruct (Ho e eq_refl) as [Hu _]. by apply Hu.
    + apply R1. destruct (decide (p = path)) as [-> |Hne]; [by left|].
      destruct Hu as [Hp|(e & Hs & Hb)]; [left; intros ?; apply Hp; by right|right; exists e]. split; [by apply Hkeep|set_solver].
  - intros p. eapply hook_evolves_trans; [apply He|apply R2].
  - intros p1 p2 e1 e2 Hb Hh H1 H2 Hs.
    assert (Hne : p2 ≠ path) by (intros ->; apply before_cons in Hb as [[_ ?]|Hb]; [done|]; by apply before_in in Hb as [_ ?]).
    destruct (HF p2 Hne) as (_ & _ & Hh2). apply before_cons in Hb as [[-> Hin]|Hb].
    + rw Hf in H1. injection H1 as ->. destruct (Ho e1 eq_refl) as [_ Ho'].
      assert (Hblk : session_of e1 ∈ blocked' \/ delivered path e1 w1)
        by (destruct o as [[]|]; subst; try done; [by apply Ho'|left; set_solver]).
      destruct Hblk as [Hb|Hdel].
      * eapply (in_order_idle _ _ _ _ _ (l1 ++ l2)); [by rw R4 Hl app_assoc|]. rw -Hh2. apply R1. right. exists e2. rw -Hs. by split; [apply Hkeep|].
      * destruct (evolves_delivered _ _ _ _ (R2 path) Hdel). by eapply in_order_after.
    + assert (Hne1 : p1 ≠ path) by (intros ->; by apply before_in in Hb as [? _]).
      eapply in_order_step; [done|done|]. eapply R5; [done|done|by apply Hkeep|by apply Hkeep|done].
Qed.

Lemma drain_entries_spec c paths : NoDup paths -> forall blocked retained w,
  Inv w -> (forall p, p ∈ paths -> spool_at p w <> None) ->
  let '(_, w') := drain_entries serve prep0 c paths blocked retained w in drained paths blocked w w'.
Proof.
  induction 1 as [|path paths Hnd Hnd' IH]; intros blocked retained w Hi Hall; [by apply drained_nil|]. cbn [drain_entries].
  destruct (spool_at path w) as [f|] eqn:Hf; [|by destruct (Hall path); [left|]].
  rw bind_eq. pose proof (drain_entry_spec serve prep0 c path blocked f w Hf) as Hd.
  destruct (drain_entry _ _ _ _ _ w) as [o w1]. specialize (Hd ltac:(rw -Hf; apply Hi)).
  destruct (entry_all _ _ _ _ _ _ Hf Hi Hd) as [_ Hi1].
  assert (Hall' : forall p, p ∈ paths -> spool_at p w <> None) by (intros; apply Hall; by right).
  assert (Hall1 : forall p, p ∈ paths -> spool_at p w1 <> None).
  { intros p Hp. destruct Hd as ([HF _] & _). destruct (HF p) as (U & _); [by intros ->|]. rw U; by apply Hall'. }
  destruct o as [[|s err|err]|]; [| |by eapply drained_end..].
  - specialize (IH blocked retained w1 Hi1 Hall1). destruct (drain_entries _ _ _ _ _ _ w1) as [o2 w2]. by eapply drained_cons.
  - specialize (IH ({[s]} ∪ blocked) (Some err) w1 Hi1 Hall1). destruct (drain_entries _ _ _ _ _ _ w1) as [o2 w2]. by eapply drained_cons.
Qed.

(** A run over the whole listing, in the order of the names. *)
Lemma before_sorted (l : list string) x y :
  StronglySorted String.le l -> x ∈ l -> y ∈ l -> x <> y -> String.le x y -> before x y l.
Proof.
  induction 1 as [|z l Hs IH Hz]; intros Hx Hy Hne Hle; [by apply not_elem_of_nil in Hx|].
  apply elem_of_cons in Hx as [-> |Hx]; apply elem_of_cons in Hy as [-> |Hy]; [done|by exists [], l| |].
  - rw Forall_forall in Hz. destruct Hne. by apply (anti_symm String.le); [|apply Hz].
  - destruct IH as (a & b & -> & Hb); [done..|]. by exists (z :: a), b.
Qed.
Definition spool_listing (d : Disk) : list string := sort_strings (map fst (map_to_list (dk_spool d))).
Lemma spool_listing_in d p : p ∈ spool_listing d <-> dk_spool d !! p <> None.
Proof.
  unfold spool_listing, sort_strings. rw merge_sort_Permutation. rw list_elem_of_fmap. split.
  - intros ([k f] & -> & H). apply elem_of_map_to_list in H. by rw H.
  - intros H. destruct (dk_spool d !! p) as [f|] eqn:E; [|done]. exists (p, f). by rw elem_of_map_to_list.
Qed.
Lemma spool_listing_NoDup d : NoDup (spool_listing d).
Proof. unfold spool_listing, sort_strings. rw merge_sort_Permutation. apply NoDup_fst_map_to_list. Qed.

(** What becomes of the spool between two worlds. *)
Definition keeps_order (w w' : W) : Prop :=
  forall p1 p2 e1 e2, is_hook_path p1 = true -> p1 <> p2 -> String.le p1 p2 ->
    spool_at p1 w = Some (Spooled e1) -> spool_at p2 w = Some (Spooled e2) -> session_of e1 = session_of e2 ->
    in_order p1 p2 e1 w w'.
Definition progress (w w' : W) : Prop :=
  (forall p, evolves p w w') /\ Inv w' /\ (exists l, wd_log w' = wd_log w ++ l) /\ keeps_order w w'.

Lemma N_progress w w' : Inv w -> N w w' -> progress w w'.
Proof.
  intros Hi [Hu (l & Hl & _)].
  assert (H : forall p, evolves p w w' /\ file_inv (spool_at p w') (history p w'))
    by (intros p; by apply undisturbed_evolves).
  split_and!; [apply H|intros p; apply H|by exists l|]. intros p1 p2 e1 e2 _ _ _ _ _ _. eapply in_order_idle; [done|].
  by destruct (Hu p2) as (_ & _ & ?).
Qed.

(** A queued hook nothing was sent for is queued still. *)
Lemma queued_still p e w w' : file_inv (spool_at p w) (history p w) -> spool_at p w = Some (Spooled e) ->
  evolves p w w' -> history p w' = history p w -> queued p e w'.
Proof.
  intros Hi He (H & _) Hh. destruct (H e He) as [|(_ & ss & _ & l0 & E & _)]; [done|]. rw Hh in E. rw He in Hi. cbn in Hi.
  destruct (hook_inv_queued _ _ Hi). rw E. apply elem_of_app. right. by left.
Qed.

(** Progress composes. *)
Lemma progress_trans w1 w2 w3 : Inv w1 -> progress w1 w2 -> progress w2 w3 -> progress w1 w3.
Proof.
  intros Hi (A1 & A2 & (l1 & A3) & A4) (B1 & B2 & (l2 & B3) & B4).
  split_and!; [|done|exists (l1 ++ l2); by rw B3 A3 app_assoc|].
  { intros p. by eapply hook_evolves_trans. }
  intros p1 p2 e1 e2 Hh Hne Hle H1 H2 Hs. destruct (A4 p1 p2 e1 e2 Hh Hne Hle H1 H2 Hs) as (m1 & m2 & E & M1 & M2 & M3).
  destruct (decide (events p2 m2 = [])) as [M0|M0].
  - assert (E2 : history p2 w2 = history p2 w1).
    { unfold history. by rw E !events_app M1 M0 !app_nil_r. }
    destruct (queued_still p2 e2 w1 w2 (Hi p2) H2 (A1 p2) E2) as (e2' & Q2 & (_ & _ & S2 & _) & _).
    destruct (A1 p1) as (C & _). destruct (C e1 H1) as [(e1' & Q1 & S1 & I1)|D1].
    + pose proof S1 as (_ & _ & S1' & _).
      destruct (B4 p1 p2 e1' e2' Hh Hne Hle Q1 Q2) as (n1 & n2 & F1 & N1 & N2 & N3); [unfold session_of in *; congruence|].
      exists (m1 ++ m2 ++ n1), n2. rw F1 E -!app_assoc !events_app M1 M0 N1. split_and!; [done|done|done|].
      intros Hn. eapply delivered_trans; [done|]. by apply N3.
    + destruct (evolves_delivered _ _ _ _ (B1 p1) D1) as [D2 Hp1].
      eapply (in_order_after _ _ _ _ w2 _ (m1 ++ m2)); [done|done|done|done|done].
  - destruct (evolves_delivered _ _ _ _ (B1 p1) (M3 M0)) as [D2 Hp1]. exists m1, (m2 ++ l2).
    rw B3 E -!app_assoc events_app M2 (history_log _ _ _ _ B3 Hp1). by split_and!.
Qed.

Lemma drainHooks_progress c w : Inv w -> progress w (drainHooks serve prep0 c w).2.
Proof.
  intros Hi. unfold drainHooks. rw bind_eq. pose proof (neutral_syscall prep0 id ltac:(done) w) as N1.
  destruct (syscall prep0 id w) as [[[err|]|] w1]; cbn in N1; [by apply N_progress| |by apply N_progress].
  rw bind_eq. pose proof (neutral_syscall prep0 id ltac:(done) w1) as N2.
  destruct (syscall prep0 id w1) as [[[err|]|] w2]; cbn in N2; assert (N12 := N_trans _ _ _ N1 N2); [by apply N_progress| |by apply N_progress].
  pose proof (N_progress _ _ Hi N12) as P. eapply progress_trans; [done|exact P|]. destruct P as (_ & Hi2 & _).
  rw bind_eq. cbn [get_disk]. fold (spool_listing (wd_disk w2)).
  pose proof (drain_entries_spec c (spool_listing (wd_disk w2)) (spool_listing_NoDup _) ∅ None w2 Hi2) as Hd.
  destruct (drain_entries _ _ _ _ _ _ w2) as [o w3]. destruct Hd as (_ & D2 & D3 & D4 & D5); [by intros p Hp; apply spool_listing_in|].
  split_and!; [done|done|done|]. intros p1 p2 e1 e2 Hh Hne Hle H1 H2 Hs. apply (D5 p1 p2 e1 e2); [|done..].
  apply before_sorted; [apply StronglySorted_merge_sort; apply _|apply spool_listing_in; by rw /spool_at in H1; rw H1| |done|done].
  apply spool_listing_in. by rw /spool_at in H2; rw H2.
Qed.
End Drain.
