(* ===== verification/SpoolKeeps.v ===== *)
(** Properties of a world through the worker.

    What the primitive steps keep (an interfering turn, a log entry, a tame write to
    the disk, a journal write, a request) is kept by every part of the worker,
    whatever fails on the way: [stays_drain].  With it the spool's budget: [within]
    bounds the queued hooks and the leftover temporary files of a disk, and
    [limits_drain] says that the worker preserves it. *)
From S2P Require Import Prelude Json JsonFacts Float64 TimeText Execution AuditModel Base64 Collector Transcript Hooks Journal Spool.
Local Open Scope Z_scope.

(** Session files, the marker, or a journal that is removed. *)
Definition tame (f : Disk -> Disk) : Prop :=
  (forall d, dk_spool (f d) = dk_spool d /\ dk_temps (f d) = dk_temps d)
  \/ exists path, f = fun d => set_spool (delete path (dk_spool d)) d.

Create HintDb stays.

Section Keeps.
Context {St : Type}.
Variable serve : HttpRequest -> St -> HttpAnswer * St.
Variable prep0 : Prep.
(** The invariant, and the configurations a worker may run under. *)
Variable I : World St -> Prop.
Variable C : Config -> Prop.

Definition stays {A} (m : M A) : Prop := forall w, I w -> I (m w).2.

Hypothesis stays_next : stays (next prep0).
Hypothesis stays_note : forall e, (forall l r a, e <> Reached l r a) -> stays (note e : M unit).
Hypothesis stays_on_disk : forall f, tame f -> stays (on_disk f : M unit).
Hypothesis stays_exchange : forall l r, stays (exchange serve l r).
Hypothesis stays_write : forall c path e, C c -> stays (writeEnvelope prep0 c path e).

Lemma stays_bind {A B} (m : M A) (f : A -> M B) : stays m -> (forall a, stays (f a)) -> stays (m ≫= f).
Proof.
  intros Hm Hf w Hw. unfold mbind, M_bind. specialize (Hm w Hw). destruct (m w) as [[a|] w1]; cbn in *; [|done]. by apply Hf.
Qed.
Lemma stays_ret {A} (a : A) : stays (mret a : M A).
Proof. by intros w. Qed.
Lemma stays_die {A} : stays (die : M A).
Proof. by intros w. Qed.
Lemma stays_get_disk : stays (get_disk : M Disk).
Proof. by intros w. Qed.
Lemma stays_fate : stays (next_fate prep0).
Proof. apply stays_bind; [apply stays_next|]. intros. apply stays_ret. Qed.
Lemma stays_syscall f : tame f -> stays (syscall prep0 f).
Proof.
  intros Hf. apply stays_bind; [apply stays_fate|]. intros [|m|m|n]; try apply stays_ret; try apply stays_die.
  all: apply stays_bind; [by apply stays_on_disk|intros; apply stays_ret].
Qed.
Lemma tame_id : tame id.
Proof. by left. Qed.
Lemma tame_marker m : tame (set_marker m).
Proof. by left. Qed.
Lemma tame_session p s : tame (set_session p s).
Proof. by left. Qed.
Lemma tame_delete path : tame (fun d => set_spool (delete path (dk_spool d)) d).
Proof. right. by exists path. Qed.
Lemma stays_accepted path i : stays (note (Accepted path i) : M unit).
Proof. by apply stays_note. Qed.
Lemma stays_finished path : stays (note (Finished path) : M unit).
Proof. by apply stays_note. Qed.
#[local] Hint Resolve stays_bind stays_ret stays_die stays_get_disk stays_accepted stays_finished stays_next stays_fate
  stays_syscall stays_on_disk stays_exchange stays_write tame_id tame_marker tame_session tame_delete : stays.

(** Part by part: every bind, every branch. *)
Ltac stay := repeat first
  [ done
  | progress (auto 3 with stays)
  | match goal with |- stays (mbind _ _) => apply stays_bind; intros end
  | match goal with |- stays (match ?x with _ => _ end) => destruct x end
  | match goal with |- stays (let '_ := ?x in _) => destruct x end ].

Lemma stays_record msg : stays (recordCaptureFailure prep0 msg).
Proof. unfold recordCaptureFailure. stay. Qed.
Lemma stays_attempt l r : stays (attempt serve prep0 l r).
Proof. unfold attempt. stay. Qed.
#[local] Hint Resolve stays_record stays_attempt : stays.
Lemma stays_attempts n l r : stays (attempts serve prep0 n l r).
Proof. induction n as [|n IH]; cbn [attempts]; unfold retryWait; stay. Qed.
#[local] Hint Resolve stays_attempts : stays.
Lemma stays_doJSON l r : stays (doJSON serve prep0 l r).
Proof. unfold doJSON. stay. Qed.
#[local] Hint Resolve stays_doJSON : stays.
Lemma stays_deliver c l d : stays (deliverOperation serve prep0 c l d).
Proof. unfold deliverOperation, deliverDeadLetter. stay. Qed.
Lemma stays_interp {A} (p : Prog A) : stays (interp serve prep0 p).
Proof. induction p as [a|r k IH]; cbn [interp]; stay. Qed.
#[local] Hint Resolve stays_deliver stays_interp : stays.
Lemma stays_prepare c e : stays (prepareHook serve prep0 c e).
Proof. unfold prepareHook, LoadState. stay. Qed.
Lemma stays_save_state e : stays (save_state prep0 e).
Proof. unfold save_state, SaveState. stay. Qed.
#[local] Hint Resolve stays_prepare stays_save_state : stays.
Lemma stays_deliver_ops c path ops : C c -> forall e i, stays (deliver_ops serve prep0 c path e i ops).
Proof. intros Hc. induction ops as [|op ops IH]; intros e i; cbn [deliver_ops]; stay. Qed.
Lemma stays_remove path : stays (remove_file prep0 path).
Proof. unfold remove_file. stay. Qed.
#[local] Hint Resolve stays_deliver_ops stays_remove : stays.
Lemma stays_finish path e : stays (finish_hook prep0 path e).
Proof. unfold finish_hook, ClearState. stay. Qed.
#[local] Hint Resolve stays_finish : stays.
Lemma stays_process c path e : C c -> stays (process_hook serve prep0 c path e).
Proof. intros Hc. unfold process_hook, prepare_failed, deliver_rest. stay. Qed.
#[local] Hint Resolve stays_process : stays.
Lemma stays_drain_entry c path blocked : C c -> stays (drain_entry serve prep0 c path blocked).
Proof. intros Hc. unfold drain_entry, stop_at. stay. Qed.
#[local] Hint Resolve stays_drain_entry : stays.
Lemma stays_drain c : C c -> stays (drainHooks serve prep0 c).
Proof.
  intros Hc. assert (Hl : forall paths blocked retained, stays (drain_entries serve prep0 c paths blocked retained)).
  { induction paths as [|path paths IH]; intros; cbn [drain_entries]; stay. }
  unfold drainHooks. stay.
Qed.
End Keeps.


(** * Sizes *)

Definition sizes (m : gmap string spool_file) : Z := total (map (fun kv => file_size kv.2) (map_to_list m)).
Definition within (L : Z) (d : Disk) : Prop :=
  sizes (dk_spool d) <= L /\ 0 <= total (dk_temps d) <= L /\ forall p n, dk_spool d !! p <> Some (Corrupt n).

Lemma total_perm l l' : l ≡ₚ l' -> total l = total l'.
Proof. induction 1; cbn; unfold total in *; lia. Qed.
Lemma envelope_size_nonneg e : 0 <= envelope_size e.
Proof. unfold envelope_size. lia. Qed.
Lemma sizes_delete m p f : m !! p = Some f -> sizes m = file_size f + sizes (delete p m).
Proof. intros H. unfold sizes. by rw -(total_perm _ _ (Permutation_map _ (map_to_list_delete _ _ _ H))). Qed.
Lemma sizes_insert m p f : sizes (<[p := f]> m) = file_size f + sizes (delete p m).
Proof. rw (sizes_delete _ p f) ?lookup_insert_eq // delete_insert_eq //. Qed.
Lemma sizes_nonneg m : (forall p n, m !! p <> Some (Corrupt n)) -> 0 <= sizes m.
Proof.
  intros H. unfold sizes. assert (Hf : Forall (fun kv => 0 <= file_size kv.2) (map_to_list m)).
  { apply Forall_forall. intros [p f] Hin. apply elem_of_map_to_list in Hin. destruct f as [e|n]; [apply envelope_size_nonneg|by destruct (H p n)]. }
  induction Hf as [|x l Hx _ IH]; cbn; unfold total in *; lia.
Qed.
Lemma delete_sound (m : gmap string spool_file) p : (forall q n, m !! q <> Some (Corrupt n)) -> forall q n, delete p m !! q <> Some (Corrupt n).
Proof. intros H q n. rw lookup_delete. case_decide; [done|apply H]. Qed.
Lemma sizes_delete_le m p : (forall q n, m !! q <> Some (Corrupt n)) -> sizes (delete p m) <= sizes m.
Proof.
  intros H. destruct (m !! p) as [f|] eqn:E; [|by rw delete_id].
  rw (sizes_delete _ _ _ E). destruct f as [e|n]; [|by destruct (H p n)]. pose proof (envelope_size_nonneg e). cbn. lia.
Qed.

(** * Writing a journal *)

Section Budget.
Variable L : Z.

Lemma within_temps d temps : within L d -> 0 <= total temps <= L -> within L (set_temps temps d).
Proof. intros (H1 & _ & H3) [? ?]. by split_and!. Qed.
Lemma within_rename d path e : within L d -> sizes (delete path (dk_spool d)) + envelope_size e <= L ->
  within L (set_spool (<[path := Spooled e]> (dk_spool d)) d).
Proof.
  intros (H1 & H2 & H3) H. split_and!; [cbn; rw sizes_insert; cbn; lia|apply H2|apply H2|]. cbn.
  intros p n. rw lookup_insert. case_decide; [done|apply H3].
Qed.
Lemma within_drop size err fs d r d' :
  within L d -> 0 <= size -> size + total (dk_temps d) <= L -> drop_temp size err (dk_temps d) fs d = (r, d') -> within L d'.
Proof.
  intros H Hs Ht. destruct H as (H1 & H2 & H3). unfold drop_temp.
  destruct fs as [|[]]; intros [= <- <-]; (apply within_temps; [done|]); cbn; unfold total in *; lia.
Qed.
End Budget.

Section Writes.
Variable L : Z.

Lemma within_write c path e fs d r d' :
  spoolLimit c = L -> within L d -> writeEnvelope_run c path e fs d = (r, d') -> within L d'.
Proof.
  intros Hc Hw. unfold writeEnvelope_run. destruct (envelope_text e) as [text|] eqn:Et; [|by intros [= <- <-]].
  assert (Hs : envelope_size e = Z.of_nat (String.length text)) by (unfold envelope_size; by rw Et).
  rw -Hs. pose proof (envelope_size_nonneg e) as H0. unfold write_locked. rw Hc.
  pose proof Hw as (H1 & H2 & H3).
  pose proof (sizes_nonneg _ (delete_sound _ path H3)) as Hd.
  intros Hrun. repeat case_match; simplify_eq; try done.
  all: match goal with H : (_ <? _) = false |- _ => apply Z.ltb_ge in H; unfold spool_bytes in H end.
  all: fold (sizes (delete path (dk_spool d))) in *.
  all: first [by (apply within_rename; [done|lia])
             | by (eapply within_drop; [done| | |exact Hrun]; lia)
             | by (apply within_temps; [done|]; cbn; unfold total in *; lia)].
Qed.
Lemma within_capture log d c : spoolLimit (cp_config c) = L -> within L d -> within L (run_capture log d c).
Proof.
  intros Hc Hw. unfold run_capture, enqueueHook. destruct (unused _ _ _); [|done].
  destruct (writeEnvelope_run _ _ _ _ d) as [r d'] eqn:E. by eapply within_write.
Qed.
Lemma within_captures log l d : Forall (fun c => spoolLimit (cp_config c) = L) l -> within L d -> within L (run_captures log l d).
Proof.
  unfold run_captures. intros Hf. revert d. induction Hf as [|c l Hc _ IH]; intros d Hw; cbn; [done|]. apply IH. by apply within_capture.
Qed.
End Writes.

(** * The worker *)

Section Worker.
Context {St : Type}.
Variable serve : HttpRequest -> St -> HttpAnswer * St.
Variable prep0 : Prep.
Variable L : Z.

Definition budgeted (t : turn St) : Prop := Forall (fun c => spoolLimit (cp_config c) = L) (tn_captures t).
Definition in_limits (w : World St) : Prop := within L (wd_disk w) /\ Forall budgeted (wd_turns w).

Lemma limits_next : stays in_limits (next prep0).
Proof.
  intros w [H1 H2]. unfold next. destruct (wd_turns w) as [|t ts] eqn:E; [by split; [|rw E]|].
  inversion H2; subst. split; [by apply within_captures|done].
Qed.
Lemma limits_disk f : tame f -> stays in_limits (on_disk f : M unit).
Proof.
  intros Hf w [(H1 & H2 & H3) H4]. split; [|done]. cbn. destruct Hf as [Hf|(path & ->)].
  - destruct (Hf (wd_disk w)) as [E1 E2]. unfold within. by rw E1 E2.
  - pose proof (sizes_delete_le _ path H3). split_and!; cbn; [lia|apply H2|apply H2|by apply delete_sound].
Qed.
Lemma limits_write c path e : spoolLimit c = L -> stays in_limits (writeEnvelope prep0 c path e).
Proof.
  intros Hc. apply stays_bind; [apply limits_next|]. intros t w [H1 H2]. unfold locked.
  destruct (writeEnvelope_run c path e (tn_fates t) (wd_disk w)) as [r d] eqn:E. split; [by eapply within_write|done].
Qed.
Lemma limits_drain c : spoolLimit c = L -> stays in_limits (drainHooks serve prep0 c).
Proof.
  apply (stays_drain serve prep0 in_limits (fun c => spoolLimit c = L)); [apply limits_next|by intros e He w Hw|apply limits_disk| |apply limits_write].
  intros l r w Hw. unfold exchange. by destruct (serve r (wd_server w)).
Qed.
End Worker.
