(* ===== verification/SpoolProps.v ===== *)
(** What the plugin's spool promises.

    [run] is the life of a spool from an empty directory: captures, drains and
    other use of the server in any order, drains that fail or are killed at any
    system call included. *)
From S2P Require Import Prelude Json JsonFacts CanonicalFacts Float64 AuditModel TimeText Execution Base64 Collector Transcript Hooks Journal JournalFacts Spool SpoolFacts SpoolOrder SpoolKeeps.
Local Open Scope Z_scope.

Section System.
Context {St : Type}.
Variable serve : HttpRequest -> St -> HttpAnswer * St.
Variable prep0 : Prep.

(** One process after the other; what runs while a worker does is in its turns. *)
Inductive action := Hook (c : Capture) | Others (f : St -> St) | Flush (c : Config) (turns : list (turn St)).
Definition act (w : World St) (a : action) : World St :=
  match a with
  | Hook c => MkWorld (run_capture (wd_log w) (wd_disk w) c) (wd_server w) [] (wd_log w)
  | Others f => MkWorld (wd_disk w) (f (wd_server w)) [] (wd_log w)
  | Flush c turns => (drainHooks serve prep0 c (MkWorld (wd_disk w) (wd_server w) turns (wd_log w))).2
  end.
Definition run : World St -> list action -> World St := foldl act.
Definition start (s : St) : World St := MkWorld (MkDisk ∅ [] ∅ None) s [] [].

Lemma act_progress w a : Inv w -> progress w (act w a).
Proof.
  intros Hi. destruct a as [c|f|c turns]; cbn [act].
  - apply N_progress; [done|]. split; [|exists []; by rw app_nil_r]. intros p.
    destruct (run_capture_effect (wd_log w) c (wd_disk w) p) as [H1 H2]. by split_and!.
  - apply N_progress; [done|]. apply N_same; [done|]. exists []. by rw app_nil_r.
  - by apply (drainHooks_progress serve prep0 c (MkWorld (wd_disk w) (wd_server w) turns (wd_log w))).
Qed.
Lemma run_progress l : forall w, Inv w -> progress w (run w l).
Proof.
  induction l as [|a l IH]; intros w Hi; cbn; [by apply N_progress, N_refl|].
  pose proof (act_progress w a Hi) as P. eapply progress_trans; [done|exact P|]. apply IH, P.
Qed.
Lemma start_inv s : Inv (start s).
Proof. intros p. by left. Qed.
Lemma run_inv s l : Inv (run (start s) l).
Proof. apply run_progress, start_inv. Qed.

(** C33: A captured hook is never lost.  Whatever is captured, drained, refused,
    unanswered or killed after its file was written, the file is still there, at
    least as far as it was, with a progress that never says more than was accepted;
    or it is gone after every one of its operations was sent and accepted.  The
    operations are accepted in order, none before the one it follows, whatever is
    sent again is the request it was, and a hook that was prepared stays its
    requests for good. *)
Theorem hooks_are_kept s early late path e :
  let w := run (start s) early in
  let w' := run w late in
  spool_at path w = Some (Spooled e) ->
  queued path e w'
  \/ spool_at path w' = None /\ exists ss, (he_Prepared e = true -> ss = sigs e) /\ complete ss (history path w')
     /\ forall i sg, ss !! i = Some sg -> exists r a, sg.1.1 = Ok r /\ Sent i r a ∈ history path w' /\ accepted_by sg a.
Proof.
  intros w w' He. destruct (run_progress late w (run_inv s early)) as (H & _). destruct (H path) as (Hp & _).
  destruct (Hp e He) as [|(Hn & ss & Hs & Hc)]; [by left|right]. split; [done|]. exists ss. split_and!; [done|done|].
  intros i sg Hi. by eapply complete_accepted.
Qed.

(** C34: First come, first served within a session.  Of two queued hooks of a session
    nothing is sent for the later one until the earlier one was delivered in full and
    its file removed, in whatever runs follow; and then nothing is sent for the
    earlier one any more. *)
Theorem sessions_in_order s early late p1 p2 e1 e2 :
  let w := run (start s) early in
  let w' := run w late in
  is_hook_path p1 = true -> p1 <> p2 -> String.le p1 p2 ->
  spool_at p1 w = Some (Spooled e1) -> spool_at p2 w = Some (Spooled e2) -> session_of e1 = session_of e2 ->
  exists l1 l2, wd_log w' = wd_log w ++ l1 ++ l2 /\ events p2 l1 = [] /\ events p1 l2 = []
    /\ (events p2 l2 <> [] -> spool_at p1 w' = None /\ exists ss, complete ss (history p1 w')).
Proof.
  intros w w' Hh Hne Hle H1 H2 Hs. destruct (run_progress late w (run_inv s early)) as (_ & _ & _ & H).
  destruct (H p1 p2 e1 e2 Hh Hne Hle H1 H2 Hs) as (l1 & l2 & E & A & B & C). exists l1, l2. split_and!; [done..|].
  intros Hn. destruct (C Hn) as (D & ss & _ & Hc). split; [done|]. by exists ss.
Qed.
(** What a capture or a drain may write. *)
Definition in_budget (L : Z) (a : action) : Prop :=
  match a with
  | Hook c => spoolLimit (cp_config c) = L
  | Others _ => True
  | Flush c turns => spoolLimit c = L /\ Forall (budgeted L) turns
  end.
Lemma act_ok L w a : in_budget L a -> within L (wd_disk w) -> within L (wd_disk (act w a)).
Proof.
  destruct a as [c|f|c turns]; cbn [in_budget act]; [intros; by apply within_capture|done|]. intros [Hc Ht] Hw.
  by apply (limits_drain serve prep0 L c Hc (MkWorld (wd_disk w) (wd_server w) turns (wd_log w))).
Qed.

(** C36: The queue stays in its budget.  With one limit for all processes, the journals
    of the hooks never take more than the limit together, and the temporary files
    killed processes leave behind take no more than the limit either, whatever fails
    while they are written. *)
Theorem spool_bounded L s l :
  0 <= L -> Forall (in_budget L) l ->
  let d := wd_disk (run (start s) l) in sizes (dk_spool d) <= L /\ 0 <= total (dk_temps d) <= L.
Proof.
  intros HL Hf d. assert (H : within L d); [|by destruct H as (? & ? & _)]. unfold d, run. clear d.
  assert (H0 : within L (wd_disk (start s))) by (split_and!; cbn; [done|lia|lia|]; intros p n; by rw lookup_empty).
  revert H0. generalize (start s) as w. induction Hf as [|a l Ha _ IH]; intros w Hw; cbn; [done|]. apply IH. by apply act_ok.
Qed.
End System.

(** C37: A journal reads back as it was written: its text decodes to the value that was
    printed, that value to the envelope with its raw members compacted and its maps in
    order ([reread]), and the requests of its operations are the ones that were
    queued. *)
Theorem journal_roundtrip e v :
  envelope_ok e -> hookEnvelope_json e = Some v -> json_wf v = true -> readable e = true ->
  envelope_text e = Some (render v) /\ decode (render v) = Some v /\ hookEnvelope_of_json v = reread e
  /\ sigs (reread e) = sigs e.
Proof.
  intros Hok Hv Hwf Hr. unfold envelope_text, readable in *. rw Hv in Hr |- *. apply Z.leb_le in Hr. split_and!.
  - cbn. unfold marshal. by rw wf_numbers_ok.
  - by apply decode_render.
  - by apply envelope_back.
  - apply sigs_reread.
Qed.

(** * Samples *)

Definition sample_serve (r : HttpRequest) (n : nat) : HttpAnswer * nat :=
  (MkAnswer 200 "" (Some (JObj [("id", JStr "exec_1"); ("accepted", JInt 1); ("accepted_count", JInt 1)])), S n).
Definition sample_prep : Prep :=
  MkPrep "2026-01-01T00:00:00Z" (fun n => "span_" +:+ pretty n) (fun _ => MkGit "" "" "") (fun _ => "") (fun s => s)
    (fun _ => Unopened "no such file") [].
Definition sample_limited (limit : Z) : Config := MkConfig "key" "http://fact0" "me" "" "raw" false "/state" limit 0.
Definition sample_hook (tool : string) : HookInput :=
  MkHook "s1" "" "" "/work" "" "" tool "" "" (if is_empty tool then "" else "tu1") "do it" "startup" "" "" "" "" ""
    "2026-01-01T00:00:01Z" None None fzero 0 "".
Definition sample_capture (limit n : Z) (event tool : string) : Capture :=
  MkCapture (sample_limited limit) (fun _ => Unopened "no such file") "2026-01-01T00:00:00Z" ("hook" +:+ pretty n) n event
    (sample_hook tool) [].
(** Two hooks; a worker is killed between the answer to the first one's operation and the progress it was to write. *)
Definition sample_early : list (@action nat) :=
  [Hook (sample_capture 0 1 "session-start" ""); Hook (sample_capture 0 2 "prompt" "");
   Flush (sample_limited 0) (repeat (quiet_turn sample_prep) 10 ++ [MkTurn [] id [Dies 0] sample_prep])].
Definition sample_late : list (@action nat) :=
  [Flush (sample_limited 0) [MkTurn [sample_capture 0 3 "stop" ""] id [] sample_prep]; Flush (sample_limited 0) []].
Definition sample_world : World nat := run sample_serve sample_prep (start 0%nat) sample_early.
Definition sample_end : World nat := run sample_serve sample_prep sample_world sample_late.
Definition sample_path (n : Z) : string := hook_path n ("hook" +:+ pretty n).
Definition sample_envelope (n : Z) : hookEnvelope :=
  match spool_at (sample_path n) sample_world with
  | Some (Spooled e) => e
  | _ => new_envelope (sample_limited 0) (fun _ => Unopened "") "" "" "" (sample_hook "")
  end.

(** The operation is sent again, as it was. *)
Lemma hooks_are_kept_witness :
  spool_at (sample_path 1) sample_world = Some (Spooled (sample_envelope 1))
  /\ he_Next (sample_envelope 1) = 0 /\ length (history (sample_path 1) sample_world) = 2%nat
  /\ length (history (sample_path 1) sample_end) = 5%nat
  /\ (queued (sample_path 1) (sample_envelope 1) sample_end
      \/ spool_at (sample_path 1) sample_end = None /\ exists ss,
           (he_Prepared (sample_envelope 1) = true -> ss = sigs (sample_envelope 1))
           /\ complete ss (history (sample_path 1) sample_end)
           /\ forall i sg, ss !! i = Some sg ->
                exists r a, sg.1.1 = Ok r /\ Sent i r a ∈ history (sample_path 1) sample_end /\ accepted_by sg a).
Proof.
  split_and!; [vm_compute; reflexivity..|].
  apply (hooks_are_kept sample_serve sample_prep 0%nat sample_early sample_late (sample_path 1) (sample_envelope 1)).
  vm_compute. reflexivity.
Defined.

Lemma sessions_in_order_witness :
  exists l1 l2, wd_log sample_end = wd_log sample_world ++ l1 ++ l2 /\ events (sample_path 2) l1 = []
    /\ events (sample_path 1) l2 = []
    /\ (events (sample_path 2) l2 <> [] ->
        spool_at (sample_path 1) sample_end = None /\ exists ss, complete ss (history (sample_path 1) sample_end)).
Proof.
  apply (sessions_in_order sample_serve sample_prep 0%nat sample_early sample_late (sample_path 1) (sample_path 2)
           (sample_envelope 1) (sample_envelope 2)).
  all: vm_compute; first [reflexivity | discriminate | exact I].
Defined.

(** Two captures and a drain that is killed while it writes. *)
Definition sample_killed : list (@action nat) :=
  [Hook (sample_capture 2000 1 "session-start" ""); Hook (sample_capture 2000 2 "prompt" "");
   Flush (sample_limited 2000) (repeat (quiet_turn sample_prep) 7 ++ [MkTurn [] id [Works; Works; Dies 100] sample_prep])].
Lemma spool_bounded_witness :
  map (fun n => total (dk_temps (wd_disk (run sample_serve sample_prep (start 0%nat) (take n sample_killed))))) [2; 3]%nat = [0; 100]
  /\ (sizes (dk_spool (wd_disk (run sample_serve sample_prep (start 0%nat) sample_killed))) <= 2000
      /\ 0 <= total (dk_temps (wd_disk (run sample_serve sample_prep (start 0%nat) sample_killed))) <= 2000).
Proof.
  split; [vm_compute; reflexivity|].
  apply (spool_bounded sample_serve sample_prep 2000 0%nat sample_killed); [lia|]. unfold sample_killed. repeat constructor.
Defined.

Lemma journal_roundtrip_witness :
  let e := sample_envelope 1 in
  exists v, hookEnvelope_json e = Some v /\ he_Prepared e = true /\ length (he_Operations e) = 1%nat
    /\ envelope_text e = Some (render v) /\ decode (render v) = Some v /\ hookEnvelope_of_json v = reread e
    /\ sigs (reread e) = sigs e.
Proof.
  intros e. exists (default JNull (hookEnvelope_json e)). split_and!; [vm_compute; reflexivity..|].
  apply (journal_roundtrip e (default JNull (hookEnvelope_json e))); [|vm_compute; reflexivity..].
  refine (conj (conj _ (conj _ _)) (conj _ _)); [split; vm_compute; discriminate|vm_compute; reflexivity| |split; vm_compute; discriminate..].
  intros t Ht. vm_compute in Ht. discriminate.
Defined.

(** * A queue that never drains *)

(** The budget counts the journal a worker is about to write like a new capture.  A
    hook that was accepted because it fits, but whose prepared journal does not, is
    neither delivered nor dropped: every further run fails at the same write and
    leaves everything as it was. *)
Definition wedged : World nat :=
  run sample_serve sample_prep (start 0%nat)
    [Hook (sample_capture 1400 1 "session-start" ""); Hook (sample_capture 1400 2 "prompt" "");
     Flush (sample_limited 1400) []].
Lemma wedged_spool n :
  run sample_serve sample_prep wedged (repeat (Flush (sample_limited 1400) []) n) = wedged
  /\ spool_bytes (wd_disk wedged) "" = 441
  /\ exists e, spool_at (sample_path 2) wedged = Some (Spooled e) /\ he_Prepared e = false.
Proof.
  split; [|split; [vm_compute; reflexivity|]].
  - induction n as [|n IH]; [done|]. cbn [repeat run foldl].
    replace (act sample_serve sample_prep wedged (Flush (sample_limited 1400) [])) with wedged; [exact IH|]. vm_compute. reflexivity.
  - eexists. split; vm_compute; reflexivity.
Qed.
