(* ===== verification/CopilotStore.v ===== *)
(** The dashboard assistant's tables: api/internal/storage/postgres/copilot_store.go
    and the types of api/internal/copilot/model.go.

    [CDB] holds [copilot_sessions], [copilot_messages], [copilot_activity] and
    [copilot_usage], in insertion order.  [dbnow] is [NOW()], the start of the
    statement's transaction.  [scan] is the order in which the server reads rows: an
    ORDER BY keeps it among ties, a LIMIT without ORDER BY cuts it. *)
From S2P Require Import Prelude Errors GoTime Json JsonFacts Canonical TimeText Execution Postgres AuditStore TelemetryStore.
Import GoTime.
Local Open Scope Z_scope.

(** * Types *)

Record Session := MkSession {
  cs_ID : string; cs_TenantID : string; cs_UserID : string; cs_OrgID : string; cs_Title : string;
  cs_CreatedAt : Time; cs_UpdatedAt : Time
}.
(** [Parts] is a raw JSON text, here the value it denotes; [None] is the empty one. *)
Record Message := MkMessage {
  cm_ID : string; cm_SessionID : string; cm_TenantID : string; cm_Role : string; cm_Content : string;
  cm_Parts : option json; cm_Redacted : bool; cm_CreatedAt : Time
}.
Record MessageInput := MkMessageInput { mi_ID : string; mi_Role : string; mi_Content : string; mi_Parts : option json }.
Record Activity := MkActivity {
  ca_ID : string; ca_TenantID : string; ca_SessionID : string; ca_UserID : string; ca_Action : string;
  ca_ActorType : string; ca_Outcome : string; ca_Metadata : option (gmap string json); ca_CreatedAt : Time
}.

(** * Tables *)

(** The title column is nullable. *)
Record SessionRow := MkSessionRow { sr_Session : Session; sr_Title : option string }.
Record ActivityRow := MkActivityRow { ar_Activity : Activity; ar_Metadata : option json }.
Record UsageRow := MkUsageRow { us_TenantID : string; us_UserID : string; us_Period : string; us_Count : Z }.
Record CDB := MkCDB {
  c_sessions : list SessionRow; c_messages : list Message; c_activity : list ActivityRow; c_usage : list UsageRow
}.
Definition with_sessions l d := MkCDB l (c_messages d) (c_activity d) (c_usage d).
Definition with_messages l d := MkCDB (c_sessions d) l (c_activity d) (c_usage d).
Definition with_activity l d := MkCDB (c_sessions d) (c_messages d) l (c_usage d).
Definition with_usage l d := MkCDB (c_sessions d) (c_messages d) (c_activity d) l.

Definition session_id (r : SessionRow) : string := cs_ID (sr_Session r).

Section Store.
Context `{Hj : Jsonb}.
Variable tenant_exists : string -> bool.
Variable scan : forall A : Type, list A -> list A.

(** * Sessions *)

Definition set_session_title (title : string) (s : Session) : Session :=
  MkSession (cs_ID s) (cs_TenantID s) (cs_UserID s) (cs_OrgID s) title (cs_CreatedAt s) (cs_UpdatedAt s).
Definition set_updated (t : Time) (s : Session) : Session :=
  MkSession (cs_ID s) (cs_TenantID s) (cs_UserID s) (cs_OrgID s) (cs_Title s) (cs_CreatedAt s) t.
(** NULLIF(v, ''). *)
Definition nullif_empty (v : string) : option string := if is_empty v then None else Some v.
(** A scanned row: a NULL title leaves the field empty. *)
Definition scan_session (r : SessionRow) : Session := set_session_title (default "" (sr_Title r)) (sr_Session r).

Definition CreateSession (env : Env) (sess : Session) (d : CDB) : res unit * CDB :=
  if fails env (CallWrite 0)
     || negb (forallb text_ok [cs_ID sess; cs_TenantID sess; cs_UserID sess; cs_OrgID sess; cs_Title sess])
     || negb (pg_time_ok (cs_CreatedAt sess) && pg_time_ok (cs_UpdatedAt sess))
     || negb (tenant_exists (cs_TenantID sess))
     || bool_decide (cs_ID sess ∈ map session_id (c_sessions d))
  then (Err (Internal "inserting copilot session"), d)
  else
    let row := MkSession (cs_ID sess) (cs_TenantID sess) (cs_UserID sess) (cs_OrgID sess) ""
                 (pg_ts (cs_CreatedAt sess)) (pg_ts (cs_UpdatedAt sess)) in
    (Ok tt, with_sessions (c_sessions d ++ [MkSessionRow row (nullif_empty (cs_Title sess))]) d).

Definition owned (tenantID userID : string) (r : SessionRow) : bool :=
  bool_decide (cs_TenantID (sr_Session r) = tenantID) && bool_decide (cs_UserID (sr_Session r) = userID).
Definition owned_session (tenantID userID sessionID : string) (r : SessionRow) : bool :=
  bool_decide (session_id r = sessionID) && owned tenantID userID r.

Definition GetSession (env : Env) (tenantID userID sessionID : string) (d : CDB) : res Session :=
  if fails env (CallRead 0) || negb (forallb text_ok [sessionID; tenantID; userID])
  then Err (Internal "getting copilot session")
  else match List.find (owned_session tenantID userID sessionID) (c_sessions d) with
       | None => Err (NotFound "copilot_session" sessionID)
       | Some r => Ok (scan_session r)
       end.

(** ORDER BY updated_at DESC LIMIT 20. *)
Definition ListSessions (env : Env) (tenantID userID : string) (since : Time) (d : CDB) : res (list Session) :=
  if fails env (CallRead 0) || negb (forallb text_ok [tenantID; userID] && pg_time_ok since)
  then Err (Internal "listing copilot sessions")
  else Ok (firstn 20 (order_by (fun s => - cs_UpdatedAt s) (map scan_session (scan _ (filter (fun r =>
         owned tenantID userID r = true /\ pg_ts since <= cs_UpdatedAt (sr_Session r)) (c_sessions d)))))).

Definition touch_row (dbnow : Time) (title : string) (r : SessionRow) : SessionRow :=
  MkSessionRow (set_updated dbnow (sr_Session r))
    (match sr_Title r with
     | None => nullif_empty title
     | Some t => if is_empty t then nullif_empty title else Some t
     end).
Definition TouchSession (env : Env) (dbnow : Time) (tenantID userID sessionID title : string) (d : CDB) : res unit * CDB :=
  if fails env (CallWrite 1) || negb (forallb text_ok [sessionID; tenantID; userID; title])
  then (Err (Internal "touching copilot session"), d)
  else
    let hit := owned_session tenantID userID sessionID in
    (if existsb hit (c_sessions d) then Ok tt else Err (NotFound "copilot_session" sessionID),
     with_sessions (map (fun r => if hit r then touch_row dbnow title r else r) (c_sessions d)) d).

(** * Messages *)

Definition valid_role (r : string) : bool := bool_decide (r ∈ ["user"; "assistant"; "tool"]).

(** The row of one message: primary key, CHECK on the role, foreign key. *)
Definition insert_message (dbnow : Time) (tenantID sessionID : string) (m : MessageInput) (d : CDB) : option CDB :=
  if forallb text_ok [mi_ID m; sessionID; tenantID; mi_Role m; mi_Content m] && valid_role (mi_Role m)
     && bool_decide (sessionID ∈ map session_id (c_sessions d)) && bool_decide (mi_ID m ∉ map cm_ID (c_messages d))
  then
    parts ← match mi_Parts m with None => Some None | Some v => Some <$> jsonb v end;
    Some (with_messages (c_messages d ++
      [MkMessage (mi_ID m) sessionID tenantID (mi_Role m) (mi_Content m) parts false dbnow]) d)
  else None.
Fixpoint insert_messages (dbnow : Time) (tenantID sessionID : string) (l : list MessageInput) (d : CDB) : option CDB :=
  match l with
  | [] => Some d
  | m :: l => d' ← insert_message dbnow tenantID sessionID m d; insert_messages dbnow tenantID sessionID l d'
  end.

(** One transaction: every row carries its start as [created_at]. *)
Definition AppendMessages (env : Env) (dbnow : Time) (tenantID sessionID : string) (msgs : list MessageInput) (d : CDB)
    : res unit * CDB :=
  if fails env CallBegin then (Err (Internal "begin tx"), d)
  else match (if fails env (CallWrite 0) then None else insert_messages dbnow tenantID sessionID msgs d) with
       | None => (Err (Internal "inserting copilot message"), d)
       | Some d' => (if fails env CallCommit then Err (Internal "commit tx") else Ok tt, commit env d d')
       end.

Definition ListMessages (env : Env) (tenantID userID sessionID : string) (d : CDB) : res (list Message) :=
  if fails env (CallRead 1) || negb (forallb text_ok [sessionID; tenantID; userID])
  then Err (Internal "listing copilot messages")
  else Ok (order_by cm_CreatedAt (scan _ (filter (fun m =>
         cm_SessionID m = sessionID /\ cm_TenantID m = tenantID
         /\ Exists (fun s => session_id s = sessionID /\ cs_UserID (sr_Session s) = userID) (c_sessions d)) (c_messages d)))).

(** * Activity *)

(** A nil or empty map is stored as NULL. *)
Definition activity_meta (m : option (gmap string json)) : option (option json) :=
  match m with
  | None => Some None
  | Some m => if decide (m = ∅) then Some None else Some <$> stored_json (sort_keys (JObj (map_to_list m)))
  end.
Definition InsertActivity (env : Env) (a : Activity) (d : CDB) : res unit * CDB :=
  match (match ca_Metadata a with Some m => marshal (sort_keys (JObj (map_to_list m))) | None => Some "" end) with
  | None => (Err (Internal "marshaling copilot activity metadata"), d)
  | Some _ =>
      if fails env (CallWrite 2)
         || negb (forallb text_ok [ca_ID a; ca_TenantID a; ca_SessionID a; ca_UserID a; ca_Action a; ca_ActorType a; ca_Outcome a])
         || negb (bool_decide (ca_ActorType a ∈ ["human"; "agent"; "system"]) && bool_decide (ca_Outcome a ∈ ["success"; "failure"; "error"]))
         || negb (pg_time_ok (ca_CreatedAt a)) || negb (tenant_exists (ca_TenantID a))
         || negb (bool_decide (ca_SessionID a ∈ map session_id (c_sessions d)))
         || bool_decide (ca_ID a ∈ map (fun r => ca_ID (ar_Activity r)) (c_activity d))
      then (Err (Internal "inserting copilot activity"), d)
      else match activity_meta (ca_Metadata a) with
           | None => (Err (Internal "inserting copilot activity"), d)
           | Some v =>
               let row := MkActivity (ca_ID a) (ca_TenantID a) (ca_SessionID a) (ca_UserID a) (ca_Action a) (ca_ActorType a)
                            (ca_Outcome a) None (pg_ts (ca_CreatedAt a)) in
               (Ok tt, with_activity (c_activity d ++ [MkActivityRow row v]) d)
           end
  end.

(** * Usage *)

Definition usage_key (tenantID userID period : string) (r : UsageRow) : bool :=
  bool_decide (us_TenantID r = tenantID) && bool_decide (us_UserID r = userID) && bool_decide (us_Period r = period).
Definition usage_of (tenantID userID period : string) (d : CDB) : Z :=
  match List.find (usage_key tenantID userID period) (c_usage d) with Some r => us_Count r | None => 0 end.

Definition GetUsage (env : Env) (tenantID userID period : string) (d : CDB) : res Z :=
  if fails env (CallRead 0) || negb (forallb text_ok [tenantID; userID; period])
  then Err (Internal "getting copilot usage") else Ok (usage_of tenantID userID period d).

(** An upsert; [message_count] is an INT. *)
Definition IncrementUsage (env : Env) (tenantID userID period : string) (d : CDB) : res Z * CDB :=
  let key := usage_key tenantID userID period in
  if fails env (CallWrite 0) || negb (forallb text_ok [tenantID; userID; period])
     || negb (tenant_exists tenantID) || (2 ^ 31 - 1 <=? usage_of tenantID userID period d)
  then (Err (Internal "incrementing copilot usage"), d)
  else
    let n := usage_of tenantID userID period d + 1 in
    (Ok n, with_usage
       (if existsb key (c_usage d)
        then map (fun r => if key r then MkUsageRow (us_TenantID r) (us_UserID r) (us_Period r) n else r) (c_usage d)
        else c_usage d ++ [MkUsageRow tenantID userID period n]) d).
End Store.
