(* ===== verification/Copilot.v ===== *)
(** The dashboard assistant: api/internal/copilot/{service,repository}.go.

    The service is written against its repository's interface ([Repository]) and an
    optional plan store; [pg_copilot] is the Postgres repository.  Clock readings and
    fresh identifiers are arguments. *)
From S2P Require Import Prelude Errors GoTime Sha256 Json JsonFacts Canonical TimeText Execution Postgres AuditStore CopilotStore.
Import GoTime Sha256.
Local Open Scope Z_scope.

(** * Interfaces *)

Record Repository (S : Type) := MkRepository {
  rp_CreateSession : Session -> S -> res unit * S;
  rp_GetSession : string -> string -> string -> S -> res Session;
  rp_ListSessions : string -> string -> Time -> S -> res (list Session);
  rp_TouchSession : string -> string -> string -> string -> S -> res unit * S;
  rp_AppendMessages : string -> string -> list MessageInput -> S -> res unit * S;
  rp_ListMessages : string -> string -> string -> S -> res (list Message);
  rp_InsertActivity : Activity -> S -> res unit * S;
  rp_GetUsage : string -> string -> string -> S -> res Z;
  rp_IncrementUsage : string -> string -> string -> S -> res Z * S
}.
Arguments MkRepository {S}.
Arguments rp_CreateSession {S}. Arguments rp_GetSession {S}. Arguments rp_ListSessions {S}.
Arguments rp_TouchSession {S}. Arguments rp_AppendMessages {S}. Arguments rp_ListMessages {S}.
Arguments rp_InsertActivity {S}. Arguments rp_GetUsage {S}. Arguments rp_IncrementUsage {S}.

(** The store in one environment; [dbnow 0] and [dbnow 1] are the start times of its writes. *)
Definition pg_copilot `{Jsonb} (tenant_exists : string -> bool) (scan : forall A, list A -> list A) (env : Env) (dbnow : nat -> Time)
    : Repository CDB :=
  {| rp_CreateSession := CopilotStore.CreateSession tenant_exists env;
     rp_GetSession := CopilotStore.GetSession env;
     rp_ListSessions := CopilotStore.ListSessions scan env;
     rp_TouchSession := TouchSession env (dbnow 1%nat);
     rp_AppendMessages := CopilotStore.AppendMessages env (dbnow 0%nat);
     rp_ListMessages := CopilotStore.ListMessages scan env;
     rp_InsertActivity := InsertActivity tenant_exists env;
     rp_GetUsage := GetUsage env;
     rp_IncrementUsage := CopilotStore.IncrementUsage tenant_exists env |}.

Record Principal := MkPrincipal { pr_UserID : string; pr_OrgID : string }.
Record CopilotPlan := MkCopilotPlan { cp_ID : string; cp_MonthlyCopilotLimit : option Z }.
Record ActivityInput := MkActivityInput {
  ai_Action : string; ai_SessionID : string; ai_Outcome : string; ai_ActorType : string; ai_Metadata : option (gmap string json)
}.
Record CopilotQuota := MkQuota { cq_Used : Z; cq_Limit : option Z; cq_ResetsAt : string; cq_Plan : string }.

Definition ActionSessionStarted : string := "copilot.session.started".
Definition ActionQuerySubmitted : string := "copilot.query.submitted".
Definition maxTitleLen : nat := 120.
Definition maxMetadataField : nat := 512.

(** * Text *)

(** [[]rune(s)], each rune as [string] writes it back: an invalid byte is U+FFFD. *)
Fixpoint runes_from (fuel : nat) (s : string) : list string :=
  match fuel, s with
  | O, _ | _, EmptyString => []
  | S fuel, _ =>
      match rune_len s with
      | O => RuneError :: runes_from fuel (str_split 1 s).2
      | n => let '(r, rest) := str_split n s in r :: runes_from fuel rest
      end
  end.
Definition runes (s : string) : list string := runes_from (String.length s) s.
Definition concat_runes (l : list string) : string := foldr String.append "" l.

(** The text trimmed, and at most [n] runes of it. *)
Definition truncate (s : string) (n : nat) : string :=
  let s := TrimSpace s in
  let l := runes s in
  if (length l <=? n)%nat then s else concat_runes (firstn (n - 1) l) +:+ encode_rune 0x2026.

Definition hashContent (s : string) : string := hex_encode (Sum256 s).

Definition sanitize_value (v : json) : json := match v with JStr x => JStr (truncate x maxMetadataField) | v => v end.
Definition sanitizeMetadata (m : option (gmap string json)) : gmap string json :=
  match m with None => ∅ | Some m => sanitize_value <$> m end.

(** What [logActivity] stores as metadata. *)
Definition activity_metadata (inp : ActivityInput) : gmap string json :=
  let meta := sanitizeMetadata (ai_Metadata inp) in
  let meta :=
    if bool_decide (ai_Action inp = ActionQuerySubmitted) then
      match meta !! "content_hash" with
      | Some _ => meta
      | None =>
          match meta !! "content" with
          | Some (JStr str) => delete "content" (<["content_hash" := JStr (hashContent str)]> meta)
          | _ => meta
          end
      end
    else meta in
  <["session_id" := JStr (ai_SessionID inp)]> meta.

(** * Months *)

(** Format("2006-01"). *)
Definition currentPeriod (now : Time) : string :=
  let '(y, m, _) := civil_from_days (now / Day) in appendInt 4 y +:+ "-" +:+ appendInt 2 m.
Definition nextPeriodStart (now : Time) : Time :=
  let '(y, m, _) := civil_from_days (now / Day) in
  days_from_civil (if m =? 12 then (y + 1, 1, 1) else (y, m + 1, 1)) * Day.
(** Format(time.RFC3339) of an instant on a whole second. *)
Definition rfc3339 (t : Time) : string := formatNano (utc t).

Section Service.
Context {S : Type}.
Variable repo : Repository S.
Variable plans : option (string -> res CopilotPlan).
Variable sessionTTL : Duration.

Definition assertResumeWindow (now : Time) (sess : Session) : res unit :=
  if Before (cs_UpdatedAt sess) (now - sessionTTL) then Err (NotFound "copilot_session" (cs_ID sess)) else Ok tt.

Definition resumable (now : Time) (p : Principal) (tenantID sessionID : string) (s : S) : res Session :=
  sess ← rp_GetSession repo tenantID (pr_UserID p) sessionID s;
  _ ← assertResumeWindow now sess; Ok sess.

Definition logActivity (now : Time) (id : string) (tenantID : string) (p : Principal) (inp : ActivityInput) (s : S)
    : res unit * S :=
  if is_empty (ai_Action inp) then (Err (Validation "action" "must not be empty"), s)
  else if is_empty (ai_SessionID inp) then (Err (Validation "session_id" "must not be empty"), s)
  else
    let actorType := if is_empty (ai_ActorType inp) then "human" else ai_ActorType inp in
    if negb (bool_decide (actorType ∈ ["human"; "agent"; "system"]))
    then (Err (Validation "actor_type" "must be human|agent|system"), s)
    else
      let outcome := if is_empty (ai_Outcome inp) then "success" else ai_Outcome inp in
      if negb (bool_decide (outcome ∈ ["success"; "failure"; "error"]))
      then (Err (Validation "outcome" "must be success|failure|error"), s)
      else rp_InsertActivity repo (MkActivity id tenantID (ai_SessionID inp) (pr_UserID p) (ai_Action inp) actorType outcome
                                     (Some (activity_metadata inp)) now) s.

(** The activity row is best effort. *)
Definition CreateSession (now now' : Time) (id activityID : string) (p : Principal) (tenantID : string) (s : S)
    : res Session * S :=
  if is_empty (pr_UserID p) || is_empty (pr_OrgID p) then (Err (InvalidInput "user and org required"), s)
  else if is_empty tenantID then (Err (InvalidInput "tenant_id required"), s)
  else
    let sess := MkSession id tenantID (pr_UserID p) (pr_OrgID p) "" now now in
    match rp_CreateSession repo sess s with
    | (Err e, s) => (Err e, s)
    | (Ok _, s) =>
        let '(_, s) := logActivity now' activityID tenantID p
                         (MkActivityInput ActionSessionStarted id "success" "human" None) s in
        (Ok sess, s)
    end.

Definition GetSession (now : Time) (p : Principal) (tenantID sessionID : string) (s : S) : res Session :=
  resumable now p tenantID sessionID s.

Definition ListSessions (now : Time) (p : Principal) (tenantID : string) (s : S) : res (list Session) :=
  rp_ListSessions repo tenantID (pr_UserID p) (now - sessionTTL) s.

(** The loop over the messages: [ids] are the identifiers minted for those without one. *)
Fixpoint prepare (i : nat) (ids : nat -> string) (msgs : list MessageInput) : res (list MessageInput) :=
  match msgs with
  | [] => Ok []
  | m :: l =>
      let role := TrimSpace (mi_Role m) in
      if negb (valid_role role) then Err (Validation "role" "must be user|assistant|tool")
      else l' ← prepare (Datatypes.S i) ids l;
           Ok (MkMessageInput (if is_empty (mi_ID m) then ids i else mi_ID m) role (mi_Content m) (mi_Parts m) :: l')
  end.

Definition titled (m : MessageInput) : bool :=
  bool_decide (mi_Role m = "user") && negb (is_empty (TrimSpace (mi_Content m))).
Definition pick_title (title : string) (msgs : list MessageInput) : string :=
  if is_empty title then match List.find titled msgs with Some m => truncate (mi_Content m) maxTitleLen | None => title end
  else title.

Definition AppendMessages (now : Time) (ids : nat -> string) (p : Principal) (tenantID sessionID : string)
    (msgs : list MessageInput) (s : S) : res unit * S :=
  match msgs with
  | [] => (Err (InvalidInput "messages required"), s)
  | _ =>
      match (sess ← resumable now p tenantID sessionID s; msgs ← prepare 0 ids msgs; Ok (sess, msgs)) with
      | Err e => (Err e, s)
      | Ok (sess, msgs) =>
          match rp_AppendMessages repo tenantID sessionID msgs s with
          | (Err e, s) => (Err e, s)
          | (Ok _, s) => rp_TouchSession repo tenantID (pr_UserID p) sessionID (pick_title (cs_Title sess) msgs) s
          end
      end
  end.

Definition ListMessages (now : Time) (p : Principal) (tenantID sessionID : string) (s : S) : res (list Message) :=
  _ ← resumable now p tenantID sessionID s;
  rp_ListMessages repo tenantID (pr_UserID p) sessionID s.

(** [LogAudit] is the same function. *)
Definition LogActivity (now : Time) (id : string) (p : Principal) (tenantID : string) (inp : ActivityInput) (s : S)
    : res unit * S :=
  match (if is_empty (ai_SessionID inp) then Ok tt
         else _ ← rp_GetSession repo tenantID (pr_UserID p) (ai_SessionID inp) s; Ok tt) with
  | Err e => (Err e, s)
  | Ok _ => logActivity now id tenantID p inp s
  end.

(** The free plan's limit is in the code, whatever the plan row says. *)
Definition CheckQuota (now : Time) (p : Principal) (tenantID : string) (s : S) : res CopilotQuota :=
  used ← rp_GetUsage repo tenantID (pr_UserID p) (currentPeriod now) s;
  let quota limit plan := MkQuota used (if bool_decide (plan = "free") then Some 6 else limit)
                            (rfc3339 (nextPeriodStart now)) plan in
  match plans with
  | None => Ok (quota None "free")
  | Some get =>
      match get tenantID with
      | Err _ => Ok (MkQuota used None (rfc3339 (nextPeriodStart now)) "free")
      | Ok plan => Ok (quota (cp_MonthlyCopilotLimit plan) (cp_ID plan))
      end
  end.

Definition IncrementUsage (now : Time) (p : Principal) (tenantID : string) (s : S) : res Z * S :=
  rp_IncrementUsage repo tenantID (pr_UserID p) (currentPeriod now) s.
End Service.

(** [NewService]: the resume window in nanoseconds, on 64 bits. *)
Definition resume_window (sessionTTLDays : Z) : Duration :=
  wrap64 ((if sessionTTLDays <=? 0 then 7 else sessionTTLDays) * 24 * Hour).

Example copilot_text :
  truncate "  hello world  " 5 = "hell" +:+ encode_rune 0x2026 /\ truncate " hi " 5 = "hi"
  /\ currentPeriod 1709210096123456789 = "2024-02"
  /\ rfc3339 (nextPeriodStart 1703980800000000000) = "2024-01-01T00:00:00Z".
Proof. vm_compute. done. Qed.
