(* ===== verification/CopilotHttp.v ===== *)
(** The assistant's HTTP API: transport/rest/copilot_handler.go, behind RequireJWT
    and RequireOrg.

    A site is the tenant tables and the assistant's.  The request body is an argument,
    already decoded; the path parameter too.  The i-th store call of a request runs in
    [envs i] and the i-th reading of the clock is [clock i]. *)
From S2P Require Import Prelude Errors GoTime Json JsonFacts Canonical AuditModel TimeText Execution Postgres AuditStore CopilotStore Copilot Tenants Auth AuditHttp.
Import GoTime.
Local Open Scope Z_scope.

Record CopilotSite := MkSite { st_tenants : Tenants.TDB; st_copilot : CDB }.
Definition with_copilot (d : CDB) (s : CopilotSite) : CopilotSite := MkSite (st_tenants s) d.

(** * What is encoded *)

Definition session_json (s : Session) : option json :=
  created ← time_json (utc (cs_CreatedAt s)); updated ← time_json (utc (cs_UpdatedAt s));
  Some (JObj ([("id", JStr (cs_ID s)); ("tenant_id", JStr (cs_TenantID s)); ("user_id", JStr (cs_UserID s)); ("org_id", JStr (cs_OrgID s))]
              ++ omit (is_empty (cs_Title s)) "title" (JStr (cs_Title s))
              ++ [("created_at", created); ("updated_at", updated)])).
Definition message_json (m : Message) : option json :=
  created ← time_json (utc (cm_CreatedAt m));
  Some (JObj ([("id", JStr (cm_ID m)); ("session_id", JStr (cm_SessionID m)); ("tenant_id", JStr (cm_TenantID m)); ("role", JStr (cm_Role m));
               ("content", JStr (cm_Content m))]
              ++ match cm_Parts m with None => [] | Some v => [("parts", v)] end
              ++ [("redacted", JBool (cm_Redacted m)); ("created_at", created)])).
Definition quota_json (q : CopilotQuota) : json :=
  JObj [("used", JInt (cq_Used q)); ("limit", match cq_Limit q with None => JNull | Some z => JInt z end);
        ("resets_at", JStr (cq_ResetsAt q)); ("plan", JStr (cq_Plan q))].
Definition status_ok : json := JObj [("status", JStr "ok")].

Section Handlers.
Context `{Jsonb}.
Variable message : AppError -> string.
Variable tenant_exists : string -> bool.
Variable scan : forall A, list A -> list A.
Variable plans : option (string -> res CopilotPlan).
Variable sessionTTL : Duration.
Variable envs : nat -> Env.
Variable dbnow clock : nat -> Time.
Variable ids : nat -> string.

Definition crepo : Repository CDB := pg_copilot tenant_exists scan (envs 1%nat) dbnow.

(** The principal and its tenant, or the answer that ends the request. *)
Definition resolve (c : Ctx) (s : CopilotSite) : result Response (Copilot.Principal * string) :=
  match Auth.principal c with
  | None => Err (writeAppError message (InvalidInput "no active organization"))
  | Some p =>
      if is_empty (p_OrgID p) then Err (writeAppError message (InvalidInput "no active organization"))
      else match GetTenantByExternalID (envs 0%nat) ProviderBetterAuthOrg (p_OrgID p) (st_tenants s) with
           | Ok t => Ok (Copilot.MkPrincipal (p_UserID p) (p_OrgID p), tn_ID t)
           | Err (NotFound _ _) => Err (writeError 412 "tenant not bootstrapped")
           | Err e => Err (writeAppError message e)
           end
  end.
Definition resolved (k : Copilot.Principal -> string -> CopilotSite -> Response * CopilotSite) : Handler CopilotSite := fun r c s =>
  match resolve c s with Err e => (e, s) | Ok (p, tenantID) => k p tenantID s end.

Definition answer {A} (f : A -> Response) (r : res A) : Response :=
  match r with Ok a => f a | Err e => writeAppError message e end.
(** A read, and a change of the assistant's tables. *)
Definition reply {A} (f : A -> Response) (r : res A) (s : CopilotSite) : Response * CopilotSite := (answer f r, s).
Definition update {A} (f : A -> Response) (r : res A * CDB) (s : CopilotSite) : Response * CopilotSite :=
  (answer f r.1, with_copilot r.2 s).

Definition createSession : Handler CopilotSite := resolved (fun p t s =>
  update (fun sess => writeJSON 201 (session_json sess))
    (Copilot.CreateSession crepo (clock 0%nat) (clock 1%nat) (ids 0%nat) (ids 1%nat) p t (st_copilot s)) s).
Definition listSessions : Handler CopilotSite := resolved (fun p t s =>
  reply (fun l => writeJSON 200 ((fun l => JObj [("sessions", JArr l)]) <$> all_some (map session_json l)))
    (Copilot.ListSessions crepo sessionTTL (clock 0%nat) p t (st_copilot s)) s).
Definition getSession (sessionID : string) : Handler CopilotSite := resolved (fun p t s =>
  reply (fun sess => writeJSON 200 (session_json sess))
    (Copilot.GetSession crepo sessionTTL (clock 0%nat) p t sessionID (st_copilot s)) s).
Definition listMessages (sessionID : string) : Handler CopilotSite := resolved (fun p t s =>
  reply (fun l => writeJSON 200 ((fun l => JObj [("messages", JArr l)]) <$> all_some (map message_json l)))
    (Copilot.ListMessages crepo sessionTTL (clock 0%nat) p t sessionID (st_copilot s)) s).
Definition appendMessages (sessionID : string) (body : option (list MessageInput)) : Handler CopilotSite := resolved (fun p t s =>
  match body with
  | None => (writeError 400 "invalid JSON body", s)
  | Some msgs => update (fun _ => writeJSON 201 (Some status_ok))
      (Copilot.AppendMessages crepo sessionTTL (clock 0%nat) ids p t sessionID msgs (st_copilot s)) s
  end).
Definition logAudit (body : option ActivityInput) : Handler CopilotSite := resolved (fun p t s =>
  match body with
  | None => (writeError 400 "invalid JSON body", s)
  | Some inp => update (fun _ => writeJSON 201 (Some status_ok))
      (Copilot.LogActivity crepo (clock 0%nat) (ids 0%nat) p t inp (st_copilot s)) s
  end).
Definition getQuota : Handler CopilotSite := resolved (fun p t s =>
  reply (fun q => writeJSON 200 (Some (quota_json q))) (CheckQuota crepo plans (clock 0%nat) p t (st_copilot s)) s).
Definition incrementQuota : Handler CopilotSite := resolved (fun p t s =>
  update (fun n => writeJSON 200 (Some (JObj [("used", JInt n)]))) (Copilot.IncrementUsage crepo (clock 0%nat) p t (st_copilot s)) s).

(** [Mount] and its caller in main.go, past the router: [path] is what follows
    /v1/me/copilot, [body] the decoded bodies of the two POSTs that have one. *)
Inductive CopilotRoute : Type :=
| RActivity (body : option ActivityInput) | RQuota | RIncrement | RCreate | RList
| RGet (id : string) | RMessages (id : string) | RAppend (id : string) (body : option (list MessageInput)).
Definition Mount (parse : string -> option (claims * bool)) (v : option Verifier) (route : CopilotRoute) : Handler CopilotSite :=
  RequireJWT parse v (RequireOrg match route with
    | RActivity body => logAudit body | RQuota => getQuota | RIncrement => incrementQuota
    | RCreate => createSession | RList => listSessions | RGet id => getSession id
    | RMessages id => listMessages id | RAppend id body => appendMessages id body
    end).
End Handlers.
