(* ===== verification/CopilotFacts.v ===== *)
(** What the assistant's operations keep: the keys of its tables, and who wrote what. *)
From S2P Require Import Prelude Errors GoTime Json JsonFacts Canonical TimeText Execution Postgres AuditStore TelemetryStore CopilotStore Copilot.
Import GoTime.
Local Open Scope Z_scope.

(** Primary keys, and the foreign key of messages to sessions. *)
Record copilot_ok (c : CDB) : Prop := {
  co_sessions : NoDup (map session_id (c_sessions c));
  co_messages : NoDup (map cm_ID (c_messages c));
  co_owner : forall m, m ∈ c_messages c -> cm_SessionID m ∈ map session_id (c_sessions c);
  co_activity : NoDup (map (fun r => ca_ID (ar_Activity r)) (c_activity c))
}.

Definition empty_cdb : CDB := MkCDB [] [] [] [].
Lemma empty_cdb_ok : copilot_ok empty_cdb.
Proof. split; cbn; [constructor..| |constructor]. by intros m ?%not_elem_of_nil. Qed.

(** A text sent by a user for a session. *)
Record Sent := MkSent { sn_tenant : string; sn_user : string; sn_session : string; sn_content : string }.

(** Every message was sent by the owner of its session, or has lost its text. *)
Definition authored (log : list Sent) (c : CDB) : Prop := forall m r, m ∈ c_messages c -> r ∈ c_sessions c -> session_id r = cm_SessionID m ->
  cm_TenantID m = cs_TenantID (sr_Session r)
  /\ ((cm_Redacted m = true /\ cm_Content m = "")
      \/ MkSent (cs_TenantID (sr_Session r)) (cs_UserID (sr_Session r)) (cm_SessionID m) (cm_Content m) ∈ log).

Lemma authored_mono log log' c : log ⊆ log' -> authored log c -> authored log' c.
Proof. intros Hl Ha m r Hm Hr Hs. destruct (Ha m r Hm Hr Hs) as [? [|?]]; split; auto. Qed.

(** Sessions keep their identity, and so does what depends on it. *)
Definition same_sessions (a b : list SessionRow) : Prop :=
  map (fun r => (session_id r, cs_TenantID (sr_Session r), cs_UserID (sr_Session r))) b
  = map (fun r => (session_id r, cs_TenantID (sr_Session r), cs_UserID (sr_Session r))) a.

Lemma same_sessions_ids a b : same_sessions a b -> map session_id b = map session_id a.
Proof. unfold same_sessions. intros H. apply (f_equal (map (fun x => x.1.1))) in H. by rw !map_map in H. Qed.
Lemma same_sessions_elem a b r : same_sessions a b -> r ∈ b -> exists r0, r0 ∈ a /\ session_id r0 = session_id r
  /\ cs_TenantID (sr_Session r0) = cs_TenantID (sr_Session r) /\ cs_UserID (sr_Session r0) = cs_UserID (sr_Session r).
Proof.
  intros H Hr. assert (Hin : (session_id r, cs_TenantID (sr_Session r), cs_UserID (sr_Session r))
      ∈ map (fun r => (session_id r, cs_TenantID (sr_Session r), cs_UserID (sr_Session r))) b) by (apply list_elem_of_fmap; by exists r).
  rw H in Hin. apply list_elem_of_fmap in Hin as (r0 & [= E1 E2 E3] & Hr0). by exists r0.
Qed.

Section Ops.
Context `{Hj : Jsonb} (tenant_exists : string -> bool) (scan : forall A, list A -> list A) (env : Env) (dbnow : nat -> Time).
Local Abbreviation repo := (pg_copilot tenant_exists scan env dbnow).

(** An operation that leaves sessions' owners and all messages alone. *)
Definition quiet_change (a b : CDB) : Prop :=
  same_sessions (c_sessions a) (c_sessions b) /\ c_messages b = c_messages a
  /\ (NoDup (map (fun r => ca_ID (ar_Activity r)) (c_activity a)) -> NoDup (map (fun r => ca_ID (ar_Activity r)) (c_activity b))).
Lemma quiet_refl a : quiet_change a a.
Proof. by split_and!. Qed.
Lemma quiet_ok log a b : quiet_change a b -> copilot_ok a -> authored log a -> copilot_ok b /\ authored log b.
Proof.
  intros (Hs & Hm & Hact) [] Ha. split.
  - split; rw ?(same_sessions_ids _ _ Hs) ?Hm; auto.
  - intros m r Hin Hr Hid. rw Hm in Hin. destruct (same_sessions_elem _ _ _ Hs Hr) as (r0 & Hr0 & E1 & E2 & E3).
    rw -E2 -E3. apply Ha; congruence.
Qed.

Lemma touch_quiet t u sid title d : quiet_change d (TouchSession env (dbnow 1%nat) t u sid title d).2.
Proof.
  unfold TouchSession. case_match; [apply quiet_refl|]. cbn. split_and!; [|done|done]. unfold same_sessions. cbn. rw map_map.
  apply map_ext. intros r. by case_match.
Qed.
Lemma activity_quiet a d : quiet_change d (InsertActivity tenant_exists env a d).2.
Proof.
  unfold InsertActivity. repeat case_match; try apply quiet_refl; (split_and!; [done|done|]); cbn; intros Hn.
  all: match goal with H : _ || bool_decide _ = false |- _ => apply orb_false_elim in H as [_ Hnew%bool_decide_eq_false] end.
  all: rw map_app; apply NoDup_app; (split; [done|]); (split; [|apply NoDup_singleton]); by intros x Hx ->%list_elem_of_singleton.
Qed.
Lemma usage_quiet t u period d : quiet_change d (CopilotStore.IncrementUsage tenant_exists env t u period d).2.
Proof. unfold CopilotStore.IncrementUsage. case_match; by split_and!. Qed.
Lemma logActivity_quiet now id t p inp d : quiet_change d (logActivity repo now id t p inp d).2.
Proof. unfold logActivity. repeat case_match; first [apply quiet_refl|apply activity_quiet]. Qed.
Lemma LogActivity_quiet now id p t inp d : quiet_change d (LogActivity repo now id p t inp d).2.
Proof. unfold LogActivity. case_match; [apply logActivity_quiet|apply quiet_refl]. Qed.

Lemma insert_session_ok log sess d : copilot_ok d -> authored log d ->
  copilot_ok (CopilotStore.CreateSession tenant_exists env sess d).2 /\ authored log (CopilotStore.CreateSession tenant_exists env sess d).2.
Proof.
  intros Hok Ha. unfold CopilotStore.CreateSession. case_match eqn:E; [by split|]. cbn. destruct Hok as [].
  apply orb_false_elim in E as [_ Hnew%bool_decide_eq_false]. split.
  - split; cbn; [|done| |done].
    + rw map_app. apply NoDup_app. split; [done|]. split; [|apply NoDup_singleton]. by intros x Hx ->%list_elem_of_singleton.
    + intros m Hm. rw map_app. apply elem_of_app. left. auto.
  - intros m r Hm Hr Hid. cbn in Hm, Hr. apply elem_of_app in Hr as [Hr| ->%list_elem_of_singleton]; [by apply Ha|].
    exfalso. apply Hnew. cbn in Hid. unfold session_id in Hid. cbn in Hid. rw Hid. auto.
Qed.

Lemma CreateSession_ok log now now' id aid p t d : copilot_ok d -> authored log d ->
  copilot_ok (Copilot.CreateSession repo now now' id aid p t d).2 /\ authored log (Copilot.CreateSession repo now now' id aid p t d).2.
Proof.
  intros Hok Ha. unfold Copilot.CreateSession. do 2 (case_match; [by split|]). cbn [rp_CreateSession pg_copilot].
  pose proof (insert_session_ok log (MkSession id t (pr_UserID p) (pr_OrgID p) "" now now) d Hok Ha) as [H1 H2].
  destruct (CopilotStore.CreateSession _ _ _ _) as [[[]|e] d1]; cbn in *; [|done].
  set (inp := MkActivityInput _ _ _ _ _). pose proof (logActivity_quiet now' aid t p inp d1) as Hq.
  destruct (logActivity _ _ _ _ _ _ _) as [? d2]. cbn in *. by apply quiet_ok with d1.
Qed.

Definition sent_of (t u sid : string) (msgs : list MessageInput) : list Sent := map (fun m => MkSent t u sid (mi_Content m)) msgs.

Lemma insert_messages_ok dbn t u sid msgs log d d' r0 :
  copilot_ok d -> authored log d -> r0 ∈ c_sessions d -> session_id r0 = sid -> cs_TenantID (sr_Session r0) = t -> cs_UserID (sr_Session r0) = u ->
  (forall m, m ∈ msgs -> MkSent t u sid (mi_Content m) ∈ log) ->
  insert_messages dbn t sid msgs d = Some d' -> copilot_ok d' /\ authored log d' /\ c_sessions d' = c_sessions d.
Proof.
  revert d. induction msgs as [|m msgs IH]; intros d Hok Ha Hr Hid Ht Hu Hlog; cbn; [by intros [= <-]|].
  unfold insert_message at 1. case_match eqn:E; [|done]. apply andb_prop in E as [E Hnew%bool_decide_eq_true].
  apply andb_prop in E as [_ Hsid%bool_decide_eq_true].
  destruct (match mi_Parts m with None => _ | Some v => _ end) as [parts|]; cbn; [|done].
  set (row := MkMessage _ _ _ _ _ _ _ _). intros Hins. pose proof Hok as [].
  destruct (IH (with_messages (c_messages d ++ [row]) d)) as (? & ? & ?); try done; [| |by intros; apply Hlog; right].
  - split; cbn; [done| | |done].
    + rw map_app. apply NoDup_app. split; [done|]. split; [|apply NoDup_singleton]. by intros x Hx ->%list_elem_of_singleton.
    + intros m' [Hm| ->%list_elem_of_singleton]%elem_of_app; [auto|done].
  - intros m' r [Hm| ->%list_elem_of_singleton]%elem_of_app Hr' Hid'; cbn in Hr'; [by apply Ha|]. cbn in Hid'.
    assert (r = r0) as -> by (apply (NoDup_map_elem session_id (c_sessions d)); congruence).
    cbn. split; [done|right]. rw Ht Hu. apply Hlog. left.
Qed.

Lemma prepare_contents i ids msgs msgs' : prepare i ids msgs = Ok msgs' -> map mi_Content msgs' = map mi_Content msgs.
Proof.
  revert i msgs'. induction msgs as [|m msgs IH]; intros i msgs'; cbn; [by intros [= <-]|].
  case_match; [done|]. destruct (prepare (S i) ids msgs) as [l|] eqn:E; cbn; [|done]. intros [= <-]. cbn. by rw (IH _ _ E).
Qed.

Lemma GetSession_owned t u sid d s : CopilotStore.GetSession env t u sid d = Ok s ->
  exists r, r ∈ c_sessions d /\ session_id r = sid /\ cs_TenantID (sr_Session r) = t /\ cs_UserID (sr_Session r) = u /\ s = scan_session r.
Proof.
  unfold CopilotStore.GetSession. case_match; [done|]. destruct (List.find _ _) as [r|] eqn:E; [|done]. intros [= <-].
  apply find_some in E as [Hin H']. unfold owned_session, owned in H'.
  apply andb_prop in H' as [H1%bool_decide_eq_true [H2%bool_decide_eq_true H3%bool_decide_eq_true]%andb_prop].
  exists r. split; [by apply list_elem_of_In|]. by split_and!.
Qed.

Lemma resumable_owned ttl now p t sid d s : resumable repo ttl now p t sid d = Ok s ->
  (exists r, r ∈ c_sessions d /\ session_id r = sid /\ cs_TenantID (sr_Session r) = t /\ cs_UserID (sr_Session r) = pr_UserID p /\ s = scan_session r)
  /\ now - ttl <= cs_UpdatedAt s.
Proof.
  unfold resumable. intros (s' & H1 & (? & H2 & [= ->])%result_bind_ok)%result_bind_ok. split; [by apply GetSession_owned|].
  unfold assertResumeWindow, Before in H2. destruct (Z.ltb_spec (cs_UpdatedAt s) (now - ttl)); [done|lia].
Qed.

Lemma AppendMessages_ok log ttl now ids p t sid msgs d : copilot_ok d -> authored log d ->
  let d' := (Copilot.AppendMessages repo ttl now ids p t sid msgs d).2 in
  copilot_ok d' /\ authored (log ++ sent_of t (pr_UserID p) sid msgs) d'.
Proof.
  intros Hok Ha. assert (Hbase : copilot_ok d /\ authored (log ++ sent_of t (pr_UserID p) sid msgs) d).
  { split; [done|]. apply authored_mono with log; [|done]. intros x Hx. apply elem_of_app. by left. }
  cbv zeta. unfold Copilot.AppendMessages. destruct msgs as [|m0 msgs0]; [done|]. set (msgs := m0 :: msgs0) in *.
  destruct (sess ← _; _) as [[sess msgs']|] eqn:E; [|done].
  apply result_bind_ok in E as (s' & Hres & (l & Hprep & [= -> ->])%result_bind_ok).
  destruct (resumable_owned _ _ _ _ _ _ _ Hres) as [(r & Hr & Hid & Ht & Hu & _) _]. cbn [rp_AppendMessages rp_TouchSession pg_copilot].
  assert (Hstep : copilot_ok (CopilotStore.AppendMessages env (dbnow 0%nat) t sid msgs' d).2
                  /\ authored (log ++ sent_of t (pr_UserID p) sid msgs) (CopilotStore.AppendMessages env (dbnow 0%nat) t sid msgs' d).2).
  { unfold CopilotStore.AppendMessages. case_match; [done|]. case_match eqn:Hins; [|done]. cbn.
    destruct (fails env (CallWrite 0)); [done|]. unfold commit. destruct Hbase as [_ Hb].
    edestruct (insert_messages_ok (dbnow 0%nat) t (pr_UserID p) sid msgs') as (? & ? & ?); [exact Hok|exact Hb|exact Hr|done..| |exact Hins|].
    - intros m Hm. apply elem_of_app. right. unfold sent_of.
      assert (Hc : mi_Content m ∈ map mi_Content msgs) by (rw -(prepare_contents _ _ _ _ Hprep); by apply list_elem_of_fmap_2).
      apply list_elem_of_fmap in Hc as (m1 & -> & Hm1). apply list_elem_of_fmap. by exists m1.
    - by repeat case_match. }
  destruct (CopilotStore.AppendMessages _ _ _ _ _ _) as [[[]|e] d1]; cbn in *; [|done].
  eapply quiet_ok; [apply touch_quiet|apply Hstep..].
Qed.
End Ops.
