(* ===== verification/Retention.v ===== *)
(** The retention sweeper: api/internal/retention/sweeper.go, against the tables it
    shares with the rest of the server and the triggers and foreign keys of
    storage/postgres/baseline/001_core.sql.

    A pass is a sequence of statements; the k-th call of the sweeper (a statement, a
    read or a test of its context) has the outcome [outcomes k] and happens at
    [clock k].  A statement that fails on the wire may have taken effect.  The batch
    loops have fuel; [None] means it was not enough.  [scan] is the order in which the
    server reads rows, which decides what a LIMIT keeps. *)
From S2P Require Import Prelude Errors GoTime Json JsonFacts Canonical AuditModel Execution Postgres AuditStore TelemetryStore CopilotStore Tenants Auth Transcript.
Import GoTime.
Local Open Scope Z_scope.

(** * Configuration *)

Record Config := MkConfig {
  rc_Interval : Duration; rc_BatchSize : Z; rc_DefaultRetentionDays : Z; rc_CopilotSessionTTLDays : Z
}.
Definition or_default (z d : Z) : Z := if z <=? 0 then d else z.
Definition withDefaults (c : Config) : Config :=
  MkConfig (or_default (rc_Interval c) Hour) (or_default (rc_BatchSize c) 5000)
    (or_default (rc_DefaultRetentionDays c) 30) (or_default (rc_CopilotSessionTTLDays c) 7).

(** [now.Add(-time.Duration(days) * 24 * time.Hour)]: the product wraps. *)
Definition cutoff_of (now : Time) (days : Z) : Time := now + wrap64 (- days * 24 * Hour).

(** * The database and the world of the sweeper *)

(** The two trial flags of [tenants] are kept as the sets of their tenants. *)
Record RDB := MkRDB {
  r_telemetry : TelemetryStore.TDB; r_audit : AuditStore.DB; r_tenants : Tenants.TDB; r_copilot : CDB;
  r_reminded : list string; r_expired : list string
}.
Definition with_telemetry t d := MkRDB t (r_audit d) (r_tenants d) (r_copilot d) (r_reminded d) (r_expired d).
Definition with_audit a d := MkRDB (r_telemetry d) a (r_tenants d) (r_copilot d) (r_reminded d) (r_expired d).
Definition with_tenant_tables t d := MkRDB (r_telemetry d) (r_audit d) t (r_copilot d) (r_reminded d) (r_expired d).
Definition with_copilot_tables c d := MkRDB (r_telemetry d) (r_audit d) (r_tenants d) c (r_reminded d) (r_expired d).
Definition with_reminded l d := MkRDB (r_telemetry d) (r_audit d) (r_tenants d) (r_copilot d) l (r_expired d).
Definition with_expired l d := MkRDB (r_telemetry d) (r_audit d) (r_tenants d) (r_copilot d) (r_reminded d) l.

(** What a call of the sweeper meets: [canceled] is an error that is context.Canceled,
    [took] tells whether the statement took effect all the same; [Cut n] loses the
    connection after n rows of a result. *)
Inductive CallOutcome : Type := Fine | Fails (canceled took : bool) | Cut (n : nat).
Inductive SweepErr : Type := ECanceled | EDatabase.

Record Mail := MkMail { m_Template : string; m_To : string; m_Props : list (string * string) }.
(** [w_calls] counts the calls made so far. *)
Record RWorld := MkRWorld { w_db : RDB; w_calls : nat; w_mails : list Mail }.

Definition Sweep (A : Type) : Type := RWorld -> option (result SweepErr A * RWorld).
Global Instance sweep_ret : MRet Sweep := fun _ a w => Some (Ok a, w).
Global Instance sweep_bind : MBind Sweep := fun _ _ f m w =>
  match m w with
  | Some (Ok a, w) => f a w
  | Some (Err e, w) => Some (Err e, w)
  | None => None
  end.

(** * Triggers *)

(** What BEFORE ... FOR EACH ROW triggers let through: an update of an audit row, the
    deletion of an execution event. *)
Record Schema := MkSchema { may_update_audit : AuditEvent -> AuditEvent -> bool; may_delete_event : EventRow -> bool }.
(** [prevent_event_mutation] raises for every row. *)
Definition prevent_event_mutation : bool := false.
Definition shipped_schema : Schema := MkSchema (fun _ _ => prevent_event_mutation) (fun _ => prevent_event_mutation).

Section Statements.
Variable schema : Schema.
Variable scan : forall A : Type, list A -> list A.
Variable batch : Z.

(** LIMIT $n. *)
Definition limit_rows {A} (l : list A) : list A := firstn (Z.to_nat batch) (scan A l).

(** A statement: the rows it affects and the new database, [None] when a trigger or a
    constraint stops it. *)
Definition Stmt : Type := RDB -> option (Z * RDB).

(** ** Telemetry *)

Definition delete_events (cutoff : Time) : Stmt := fun d =>
  let t := r_telemetry d in
  let victims := limit_rows (map vr_ID (filter (fun e => vr_Timestamp e < pg_ts cutoff) (t_events t))) in
  let gone := filter (fun e => vr_ID e ∈ victims) (t_events t) in
  if forallb (may_delete_event schema) gone
  then Some (Z.of_nat (length gone), with_telemetry (set_events (filter (fun e => vr_ID e ∉ victims) (t_events t)) t) d)
  else None.

Definition has_child (t : TelemetryStore.TDB) (id : string) : bool :=
  existsb (fun c => bool_decide (sr_Parent c = Some id)) (t_spans t).
(** Foreign keys without ON DELETE: events, causality edges and children keep their span. *)
Definition span_referenced (t : TelemetryStore.TDB) (ids : list string) : bool :=
  existsb (fun e => bool_decide (vr_SpanID e ∈ ids)) (t_events t)
  || existsb (fun e => bool_decide (e.1 ∈ ids) || bool_decide (e.2 ∈ ids)) (t_causality t)
  || existsb (fun c => bool_decide (TelemetryStore.sr_ID c ∉ ids)
                       && match sr_Parent c with Some p => bool_decide (p ∈ ids) | None => false end) (t_spans t).
Definition delete_spans (cutoff : Time) : Stmt := fun d =>
  let t := r_telemetry d in
  let victims := limit_rows (map TelemetryStore.sr_ID (filter (fun s =>
                   sr_StartedAt s < pg_ts cutoff /\ has_child t (TelemetryStore.sr_ID s) = false) (t_spans t))) in
  if span_referenced t victims then None
  else Some (Z.of_nat (length (filter (fun s => TelemetryStore.sr_ID s ∈ victims) (t_spans t))),
             with_telemetry (set_spans (filter (fun s => TelemetryStore.sr_ID s ∉ victims) (t_spans t)) t) d).

(** Rows whose ends no longer exist, all of them. *)
Definition delete_orphan_edges : Stmt := fun d =>
  let t := r_telemetry d in
  let orphan (e : string * string) := span_by_id t e.1 = None \/ span_by_id t e.2 = None in
  Some (Z.of_nat (length (filter orphan (t_causality t))),
        with_telemetry (set_causality (filter (fun e => ~ orphan e) (t_causality t)) t) d).

Definition execution_used (t : TelemetryStore.TDB) (id : string) : bool :=
  existsb (fun s => bool_decide (sr_ExecutionID s = id)) (t_spans t).
Definition delete_executions (cutoff : Time) : Stmt := fun d =>
  let t := r_telemetry d in
  let victims := limit_rows (map xr_ID (filter (fun x =>
                   xr_StartedAt x < pg_ts cutoff /\ execution_used t (xr_ID x) = false) (t_executions t))) in
  if existsb (fun e => bool_decide (vr_ExecutionID e ∈ victims)) (t_events t) then None
  else Some (Z.of_nat (length (filter (fun x => xr_ID x ∈ victims) (t_executions t))),
             with_telemetry (set_executions (filter (fun x => xr_ID x ∉ victims) (t_executions t)) t) d).

(** ** Audit events *)

(** [metadata->>'redacted' = 'true']: the boolean and the string have this text. *)
Definition is_redacted (md : option metadata) : bool :=
  match md ≫= fun m => snd <$> List.find (fun kv => bool_decide (kv.1 = "redacted")) m with
  | Some (JBool b) => b
  | Some (JStr s) => bool_decide (s = "true")
  | _ => false
  end.
(** jsonb_set(COALESCE(metadata, '{}'), '{redacted}', 'true', true). *)
Fixpoint jsonb_set (k : string) (v : json) (m : metadata) : metadata :=
  match m with
  | [] => [(k, v)]
  | kv :: m => if bool_decide (kv.1 = k) then (k, v) :: m else kv :: jsonb_set k v m
  end.
Definition tombstone (e : AuditEvent) : AuditEvent :=
  MkEvent (ev_ID e) (ev_TenantID e) (ev_Timestamp e) (MkActor (actor_ID (ev_Actor e)) (actor_Type (ev_Actor e)) "") (ev_Action e)
    (MkResource (resource_ID (ev_Resource e)) (resource_Type (ev_Resource e)) "") (ev_Outcome e)
    (Some (jsonb_set "redacted" (JBool true) (default [] (ev_Metadata e)))) (ev_PrevHash e) (ev_Hash e) (ev_SequenceNumber e).

Definition tombstone_events (tenantID : string) (cutoff : Time) : Stmt := fun d =>
  let rows := db_events (r_audit d) in
  let victims := limit_rows (map ev_ID (filter (fun e => ev_TenantID e = tenantID /\ ev_Timestamp e < pg_ts cutoff
                                                        /\ is_redacted (ev_Metadata e) = false) rows)) in
  let hit := filter (fun e => ev_ID e ∈ victims) rows in
  if forallb (fun e => may_update_audit schema e (tombstone e)) hit
  then Some (Z.of_nat (length hit),
             with_audit (MkDB (map (fun e => if decide (ev_ID e ∈ victims) then tombstone e else e) rows) (db_seq (r_audit d))) d)
  else None.

(** ** The assistant's tables *)

Definition redact_message (m : Message) : Message :=
  MkMessage (cm_ID m) (cm_SessionID m) (cm_TenantID m) (cm_Role m) "" None true (cm_CreatedAt m).
Definition tombstone_messages (tenantID : string) (cutoff : Time) : Stmt := fun d =>
  let c := r_copilot d in
  let victims := limit_rows (map cm_ID (filter (fun m => cm_TenantID m = tenantID /\ cm_CreatedAt m < pg_ts cutoff
                                                        /\ cm_Redacted m = false) (c_messages c))) in
  Some (Z.of_nat (length (filter (fun m => cm_ID m ∈ victims) (c_messages c))),
        with_copilot_tables (with_messages (map (fun m => if decide (cm_ID m ∈ victims) then redact_message m else m) (c_messages c)) c) d).

Definition activity_id (r : ActivityRow) : string := ca_ID (ar_Activity r).
Definition delete_activity (tenantID : string) (cutoff : Time) : Stmt := fun d =>
  let c := r_copilot d in
  let victims := limit_rows (map activity_id (filter (fun r => ca_TenantID (ar_Activity r) = tenantID
                                                             /\ ca_CreatedAt (ar_Activity r) < pg_ts cutoff) (c_activity c))) in
  Some (Z.of_nat (length (filter (fun r => activity_id r ∈ victims) (c_activity c))),
        with_copilot_tables (with_activity (filter (fun r => activity_id r ∉ victims) (c_activity c)) c) d).

(** Idle sessions without a message still to redact. *)
Definition has_live_message (c : CDB) (id : string) : bool :=
  existsb (fun m => bool_decide (cm_SessionID m = id) && negb (cm_Redacted m)) (c_messages c).
(** ON DELETE CASCADE takes the messages and the activity of the sessions along. *)
Definition drop_sessions (victims : list string) (c : CDB) : CDB :=
  MkCDB (filter (fun r => session_id r ∉ victims) (c_sessions c)) (filter (fun m => cm_SessionID m ∉ victims) (c_messages c))
    (filter (fun r => ca_SessionID (ar_Activity r) ∉ victims) (c_activity c)) (c_usage c).
Definition delete_sessions (cutoff : Time) : Stmt := fun d =>
  let c := r_copilot d in
  let victims := limit_rows (map session_id (filter (fun r => cs_UpdatedAt (sr_Session r) < pg_ts cutoff
                                                            /\ has_live_message c (session_id r) = false) (c_sessions c))) in
  Some (Z.of_nat (length (filter (fun r => session_id r ∈ victims) (c_sessions c))),
        with_copilot_tables (drop_sessions victims c) d).
End Statements.

(** * Calls *)

Section Sweeper.
Variable schema : Schema.
Variable scan : forall A : Type, list A -> list A.
Variable cfg : Config.
Variable outcomes : nat -> CallOutcome.
Variable clock : nat -> Time.
(** The owners of an organization, from the dashboard's own tables: e-mail and name. *)
Variable owners : string -> list (string * string).
(** Whether an e-mail bridge is configured. *)
Variable emailBridge : bool.
Variable fuel : nat.

Local Abbreviation batch := (rc_BatchSize cfg).

Definition next_call (w : RWorld) : RWorld := MkRWorld (w_db w) (S (w_calls w)) (w_mails w).
Definition set_db (d : RDB) (w : RWorld) : RWorld := MkRWorld d (w_calls w) (w_mails w).

Definition sweep_err (canceled : bool) : SweepErr := if canceled then ECanceled else EDatabase.

(** [s.pool.Exec] and the rows affected. *)
Definition exec_stmt (stmt : Stmt) : Sweep Z := fun w =>
  let took := stmt (w_db w) in
  match outcomes (w_calls w) with
  | Fine =>
      match took with
      | Some (n, d) => Some (Ok n, set_db d (next_call w))
      | None => Some (Err EDatabase, next_call w)
      end
  | Fails canceled false => Some (Err (sweep_err canceled), next_call w)
  | Fails canceled true =>
      Some (Err (sweep_err canceled), match took with Some (_, d) => set_db d (next_call w) | None => next_call w end)
  | Cut _ => Some (Err EDatabase, next_call w)
  end.
(** [s.pool.Query] and the loop over its rows, at the server's time.  [rows.Err] is not
    read: a connection lost meanwhile leaves the rows read so far. *)
Definition query {A} (q : Time -> RDB -> list A) : Sweep (list A) := fun w =>
  let rows := q (clock (w_calls w)) (w_db w) in
  match outcomes (w_calls w) with
  | Fine => Some (Ok rows, next_call w)
  | Fails canceled _ => Some (Err (sweep_err canceled), next_call w)
  | Cut n => Some (Ok (firstn n rows), next_call w)
  end.
(** [ctx.Err()]. *)
Definition ctx_err : Sweep unit := fun w =>
  match outcomes (w_calls w) with
  | Fails true _ => Some (Err ECanceled, next_call w)
  | _ => Some (Ok tt, next_call w)
  end.
(** [time.Now()]. *)
Definition now : Sweep Time := fun w => Some (Ok (clock (w_calls w)), next_call w).
(** An error that is only logged. *)
Definition logged {A} (d : A) (m : Sweep A) : Sweep A := fun w =>
  match m w with Some (Err _, w) => Some (Ok d, w) | r => r end.
Definition send (template to : string) (props : list (string * string)) : Sweep unit := fun w =>
  Some (Ok tt, MkRWorld (w_db w) (S (w_calls w)) (w_mails w ++ [MkMail template to props])).

(** The batch loop, with the test of the context the telemetry steps make. *)
Fixpoint batches (test : bool) (n : nat) (stmt : Stmt) : Sweep unit :=
  match n with
  | O => fun _ => None
  | S n =>
      (if test then ctx_err else mret tt) ;;
      ct ← exec_stmt stmt;
      if ct <? batch then mret tt else batches test n stmt
  end.

Fixpoint for_each {A} (l : list A) (body : A -> Sweep unit) : Sweep unit :=
  match l with [] => mret tt | x :: l => body x ;; for_each l body end.

(** * Sweeps *)

(** The retention of the free plan; 0 is unlimited. *)
Definition defaultRetentionDays : Sweep Z := fun w =>
  match query (fun _ d => map pl_RetentionDays (filter (fun p => pl_ID p = "free") (d_plans (r_tenants d)))) w with
  | Some (Ok (days :: _), w) => Some (Ok (default 0 days), w)
  | Some (_, w) => Some (Ok (rc_DefaultRetentionDays cfg), w)
  | None => None
  end.

Definition telemetry_steps (cutoff : Time) : list Stmt :=
  [delete_events schema scan batch cutoff; delete_spans scan batch cutoff; delete_orphan_edges; delete_executions scan batch cutoff].
Definition sweepTelemetry : Sweep unit :=
  days ← defaultRetentionDays;
  if days <=? 0 then mret tt
  else t ← now; for_each (telemetry_steps (cutoff_of t days)) (batches true fuel).

(** tenants t JOIN plans p ON p.id = t.plan_id, for the tenants that are not deleted. *)
Definition tenant_plans (d : Tenants.TDB) : list (string * Plan) :=
  t ← filter (fun t => t_DeletedAt t = None) (d_tenants d);
  p ← filter (fun p => pl_ID p = t_PlanID t) (d_plans d);
  [(t_ID t, p)].

Definition sweepAudit : Sweep unit :=
  plans ← query (fun _ d => omap (fun tp : string * Plan => pair tp.1 <$> pl_RetentionDays tp.2) (tenant_plans (r_tenants d)));
  for_each plans (fun tp =>
    ctx_err ;;
    t ← now;
    batches false fuel (tombstone_events schema scan batch tp.1 (cutoff_of t tp.2))).

(** COALESCE(p.copilot_transcript_retention_days, p.retention_days). *)
Definition transcript_days (p : Plan) : option Z :=
  match pl_CopilotTranscriptRetentionDays p with Some n => Some n | None => pl_RetentionDays p end.
(** The body of the loop over the tenants. *)
Definition copilot_tenant (tp : string * option Z) : Sweep unit :=
  ctx_err ;;
  match tp.2 with
  | None => mret tt
  | Some days =>
      t ← now;
      batches false fuel (tombstone_messages scan batch tp.1 (cutoff_of t days)) ;;
      batches false fuel (delete_activity scan batch tp.1 (cutoff_of t days))
  end.
Definition sweepCopilot : Sweep unit :=
  plans ← query (fun _ d => map (fun tp : string * Plan => (tp.1, transcript_days tp.2)) (tenant_plans (r_tenants d)));
  for_each plans copilot_tenant ;;
  t ← now;
  batches false fuel (delete_sessions scan batch (cutoff_of t (rc_CopilotSessionTTLDays cfg))).

(** * Trial mails *)

(** Format("January 2, 2006"). *)
Definition month_names : list string :=
  ["January"; "February"; "March"; "April"; "May"; "June"; "July"; "August"; "September"; "October"; "November"; "December"].
Definition long_date (t : Time) : string :=
  let '(y, m, d) := civil_from_days (t / Day) in
  nth (Z.to_nat (m - 1)) month_names "" +:+ " " +:+ pretty d +:+ ", " +:+ appendInt 4 y.

(** The LEFT JOINs of a tenant with its organizations and their owners: e-mail and name. *)
Definition tenant_owners (d : RDB) (tenantID : string) : list (string * string) :=
  let orgs := map i_ExternalID (filter (fun i => i_TenantID i = tenantID /\ i_Provider i = ProviderBetterAuthOrg)
                                  (d_identities (r_tenants d))) in
  let or_null (l : list (string * string)) := match l with [] => [("", "")] | _ => l end in
  match orgs with [] => [("", "")] | _ => o ← orgs; or_null (owners o) end.

Record TrialRow := MkTrialRow { tr_TenantID : string; tr_OwnerEmail : string; tr_OwnerName : string; tr_TenantName : string;
  tr_PeriodEnd : Time; tr_PlanID : string }.
(** The tenants that satisfy [due] of their period's end, a row per owner. *)
Definition trial_rows (due : TenantRow -> Time -> bool) (d : RDB) : list TrialRow :=
  t ← d_tenants (r_tenants d);
  match t_PeriodEnd t with
  | Some e =>
      if bool_decide (t_DeletedAt t = None) && due t e
      then map (fun o => MkTrialRow (t_ID t) o.1 o.2 (t_Name t) e (t_PlanID t)) (tenant_owners d (t_ID t)) else []
  | None => []
  end.
Definition reminder_due (at_ : Time) (d : RDB) (t : TenantRow) (e : Time) : bool :=
  bool_decide (t_PlanID t = "pro") && (e <=? at_ + 3 * Day) && (at_ <? e) && bool_decide (t_ID t ∉ r_reminded d).
Definition expiry_due (at_ : Time) (d : RDB) (t : TenantRow) (e : Time) : bool :=
  (e <=? at_) && bool_decide (t_ID t ∉ r_expired d).

Definition founder : string := "yash@fact0.io".
(** To the owner, if known, and to the founder; failures are logged. *)
Definition mail_both (template : string) (r : TrialRow) (props : list (string * string)) : Sweep unit :=
  (if is_empty (tr_OwnerEmail r) then mret tt else send template (tr_OwnerEmail r) props) ;;
  send template founder props.

(** UPDATE tenants ... WHERE id = $1. *)
Definition mark_reminded (id : string) : Stmt := fun d => Some (1, with_reminded (id :: r_reminded d) d).
Definition mark_expired (id : string) : Stmt := fun d => Some (1, with_expired (id :: r_expired d) d).
Definition set_free (id : string) (t : TenantRow) : TenantRow :=
  if decide (t_ID t = id)
  then MkTenantRow (t_ID t) (t_Name t) (t_CreatedAt t) (t_DeletedAt t) "free" (t_PeriodEnd t) (Some "expired") (t_Settings t) else t.
Definition downgrade_expired (id : string) : Stmt := fun d =>
  let t := r_tenants d in
  if bool_decide ("free" ∈ map pl_ID (d_plans t))
  then Some (1, with_tenant_tables (with_tenants (map (set_free id) (d_tenants t)) t) d) else None.

Definition remind (r : TrialRow) : Sweep unit :=
  mail_both "promo-reminder" r [("userName", tr_OwnerName r); ("workspaceName", tr_TenantName r); ("expiresAt", long_date (tr_PeriodEnd r))] ;;
  logged tt (exec_stmt (mark_reminded (tr_TenantID r)) ;; mret tt).
Definition expire (r : TrialRow) : Sweep unit :=
  downgraded ← (if bool_decide (tr_PlanID r = "pro")
                then logged false (exec_stmt (downgrade_expired (tr_TenantID r)) ;; mret true) else mret true);
  if downgraded : bool then
    mail_both "promo-expired" r [("userName", tr_OwnerName r); ("workspaceName", tr_TenantName r)] ;;
    logged tt (exec_stmt (mark_expired (tr_TenantID r)) ;; mret tt)
  else mret tt.

Definition sendTrialRemindersAndExpirationEmails : Sweep unit :=
  if negb emailBridge then mret tt
  else
    reminders ← query (fun at_ d => trial_rows (reminder_due at_ d) d);
    for_each reminders remind ;;
    expired ← query (fun at_ d => trial_rows (expiry_due at_ d) d);
    for_each expired expire.

(** * A pass *)

(** The steps run on after an error other than the cancellation; the last error names the outcome. *)
Fixpoint run_steps (steps : list (string * Sweep unit)) (outcome : string) : Sweep string := fun w =>
  match steps with
  | [] => Some (Ok outcome, w)
  | (label, step) :: steps =>
      match step w with
      | None => None
      | Some (Ok _, w) => run_steps steps outcome w
      | Some (Err ECanceled, w) => Some (Ok "cancelled", w)
      | Some (Err EDatabase, w) => run_steps steps label w
      end
  end.
Definition runOnce : Sweep string :=
  run_steps [("telemetry_error", sweepTelemetry); ("audit_error", sweepAudit); ("copilot_error", sweepCopilot);
             ("trial_emails_error", sendTrialRemindersAndExpirationEmails)] "ok".
(** A pass at the start and one per tick. *)
Definition Start (ticks : nat) : Sweep unit := for_each (seq 0 (S ticks)) (fun _ => runOnce ;; mret tt).
End Sweeper.
