(* ===== verification/RetentionFacts.v ===== *)
(** What the sweeper's statements and passes do.

    [runs P m R Q E] is total correctness: started in [P], [m] ends, its databases are
    related by [R], a result satisfies [Q] and an error [E].  [kept] is the history a
    pass must leave in place.  The second half says what each statement keeps, and
    what it leaves to do. *)
From S2P Require Import Prelude Errors GoTime Json JsonFacts Canonical Execution AuditModel Postgres AuditStore TelemetryStore TelemetryFacts Tenants Auth CopilotStore CopilotFacts Retention.
Import GoTime.
Local Open Scope Z_scope.

(** * A logic of total correctness *)

Definition runs {A} (P : RDB -> Prop) (m : Sweep A) (R : RDB -> RDB -> Prop) (Q : A -> RDB -> Prop) (E : SweepErr -> Prop) : Prop :=
  forall w, P (w_db w) -> exists r w', m w = Some (r, w') /\ R (w_db w) (w_db w')
    /\ match r with Ok a => Q a (w_db w') | Err e => E e end.

Section Logic.
Context (P : RDB -> Prop) (R : RDB -> RDB -> Prop) `{!PreOrder R} (HPR : forall a b, P a -> R a b -> P b).
Context (E : SweepErr -> Prop).

Lemma runs_ret {A} (a : A) (Q : A -> RDB -> Prop) P' : (forall d, P' d -> Q a d) -> runs P' (mret a) R Q E.
Proof using PreOrder0. intros H w Hw. exists (Ok a), w. split; [done|]. split; [reflexivity|auto]. Qed.

Lemma runs_bind {A B} (m : Sweep A) (f : A -> Sweep B) (P' : RDB -> Prop) Q Q' :
  runs P' m R Q E -> (forall a, runs (Q a) (f a) R Q' E) -> runs P' (m ≫= f) R Q' E.
Proof using PreOrder0.
  intros Hm Hf w Hw. destruct (Hm w Hw) as ([a|e] & w1 & H1 & HR1 & HQ1); unfold mbind, sweep_bind; rw H1; [|by exists (Err e), w1].
  destruct (Hf a w1 HQ1) as (r & w2 & H2 & HR2 & HQ2). exists r, w2. split; [done|]. split; [by etrans|done].
Qed.

Lemma runs_weaken {A} (m : Sweep A) (P1 P2 : RDB -> Prop) (Q1 Q2 : A -> RDB -> Prop) (E1 E2 : SweepErr -> Prop) :
  runs P1 m R Q1 E1 -> (forall d, P2 d -> P1 d) -> (forall a d, Q1 a d -> Q2 a d) -> (forall e, E1 e -> E2 e) -> runs P2 m R Q2 E2.
Proof using Type.
  intros Hm HP HQ HE w Hw. destruct (Hm w (HP _ Hw)) as (r & w' & H & HR & Hr). exists r, w'. split; [done|]. split; [done|].
  destruct r; auto.
Qed.

(** A read of the database, the clock or the context. *)
Lemma runs_pure {A} (m : Sweep A) (P' : RDB -> Prop) (Q : A -> RDB -> Prop) :
  (forall w, P' (w_db w) -> exists r w', m w = Some (r, w') /\ w_db w' = w_db w /\ match r with Ok a => Q a (w_db w) | Err e => E e end) ->
  runs P' m R Q E.
Proof using PreOrder0.
  intros H w Hw. destruct (H w Hw) as (r & w' & -> & Hd & Hr). exists r, w'. split; [done|]. rw Hd. split; [reflexivity|done].
Qed.

Lemma runs_for_each {A} (l : list A) (body : A -> Sweep unit) (Q : A -> RDB -> Prop) :
  (forall x a b, Q x a -> R a b -> P a -> Q x b) ->
  (forall x, x ∈ l -> runs P (body x) R (fun _ => Q x) E) ->
  runs P (for_each l body) R (fun _ d => P d /\ forall x, x ∈ l -> Q x d) E.
Proof using PreOrder0 HPR.
  intros Hst. induction l as [|x l IH]; intros Hb; cbn [for_each].
  - apply runs_ret. intros d Hd. split; [done|]. by intros x ?%not_elem_of_nil.
  - apply (runs_bind _ _ _ (fun _ d => P d /\ Q x d)).
    + intros w Hw. destruct (Hb x (list_elem_of_here _ _) w Hw) as (r & w' & H & HR & Hr). exists r, w'. split; [done|].
      split; [done|]. destruct r; [|done]. split; [|done]. by eapply HPR.
    + intros [] w [Hw Hx]. destruct (IH (fun y Hy => Hb y (list_elem_of_further _ _ _ Hy)) w Hw) as (r & w' & H & HR & Hr).
      exists r, w'. split; [done|]. split; [done|]. destruct r; [|done]. destruct Hr as [Hp Hq]. split; [done|].
      intros y [->|Hy]%elem_of_cons; [by eapply Hst|auto].
Qed.
End Logic.

(** * What a LIMIT selects *)

Section Limit.
Context (scan : forall A : Type, list A -> list A) (Hscan : forall A (l : list A), scan A l ≡ₚ l) (batch : Z).

Lemma limit_rows_sub {A} (l : list A) x : x ∈ limit_rows scan batch l -> x ∈ l.
Proof using Hscan. unfold limit_rows. intros H%subseteq_take. by rw Hscan in H. Qed.

Lemma limit_rows_all {A} (l : list A) x : (Z.of_nat (length (limit_rows scan batch l)) < batch) -> x ∈ l -> x ∈ limit_rows scan batch l.
Proof using Hscan.
  unfold limit_rows. rw length_take. intros H Hx. rw take_ge; [by rw Hscan|lia].
Qed.

(** A statement on the rows chosen by their key affects at least as many rows as it chose. *)
Lemma victims_affected {A} (key : A -> string) (C : A -> Prop) `{!forall x, Decision (C x)} (rows : list A) :
  let victims := limit_rows scan batch (map key (filter C rows)) in
  (length victims <= length (filter (fun r => key r ∈ victims) rows))%nat.
Proof using Hscan.
  intros victims. assert (Hs : victims ⊆+ map key rows).
  { unfold victims, limit_rows. etrans; [apply submseteq_take|]. rw Hscan.
    apply fmap_submseteq, sublist_submseteq, sublist_filter. }
  clearbody victims. apply submseteq_Permutation in Hs as [k Hk].
  assert (Hf : forall l : list A, length (filter (fun r => key r ∈ victims) l) = length (filter (fun i => i ∈ victims) (map key l))).
  { induction l as [|x l IH]; [done|]. cbn. case_decide; cbn; by rw IH. }
  rw Hf Hk filter_app length_app. enough (filter (fun i => i ∈ victims) victims = victims) as -> by lia.
  assert (Hall : forall l, l ⊆ victims -> filter (fun i => i ∈ victims) l = l); [|by apply Hall].
  induction l as [|x l IH]; intros Hl; [done|]. rw filter_cons. destruct (decide (x ∈ victims)) as [_|n].
  - f_equal. apply IH. intros y Hy. apply Hl. by right.
  - destruct n. apply Hl. by left.
Qed.
End Limit.

(** * The history a pass keeps_history *)

(** What is still to be swept: every statement that affects a row makes it smaller. *)
Definition remaining (d : RDB) : nat :=
  (length (t_events (r_telemetry d)) + length (t_spans (r_telemetry d)) + length (t_causality (r_telemetry d))
   + length (t_executions (r_telemetry d)) + length (filter (fun e => is_redacted (ev_Metadata e) = false) (db_events (r_audit d)))
   + length (filter (fun m => cm_Redacted m = false) (c_messages (r_copilot d))) + length (c_activity (r_copilot d))
   + length (c_sessions (r_copilot d)))%nat.

Definition has_event (t : TelemetryStore.TDB) (span : string) : Prop := Exists (fun e => vr_SpanID e = span) (t_events t).
Definition execution_has_event (t : TelemetryStore.TDB) (x : string) : Prop := Exists (fun e => vr_ExecutionID e = x) (t_events t).

(** A session that is gone, having been idle. *)
Definition session_dropped (ws : Time -> Prop) (a b : CDB) (id : string) : Prop :=
  exists r, r ∈ c_sessions a /\ session_id r = id /\ ws (cs_UpdatedAt (sr_Session r)) /\ r ∉ c_sessions b.

(** Primary keys and foreign keys.  [wt], [wm] and [ws] say which telemetry, which content of a tenant and which
    sessions are old enough to go. *)
Definition db_ok (d : RDB) : Prop :=
  tdb_wf (r_telemetry d) /\ copilot_ok (r_copilot d).

Record keeps_history (wt : Time -> Prop) (wm : string -> Time -> Prop) (ws : Time -> Prop) (a b : RDB) : Prop := {
  k_ok : db_ok b;
  k_remaining : (remaining b <= remaining a)%nat;
  k_audit : r_audit b = r_audit a;
  k_tenants : r_tenants b = r_tenants a;
  k_flags : r_reminded b = r_reminded a /\ r_expired b = r_expired a;
  k_events : t_events (r_telemetry b) = t_events (r_telemetry a);
  k_edges : t_causality (r_telemetry b) = t_causality (r_telemetry a);
  k_spans : t_spans (r_telemetry b) ⊆ t_spans (r_telemetry a);
  k_spans_gone s : s ∈ t_spans (r_telemetry a) -> s ∈ t_spans (r_telemetry b)
    \/ (wt (sr_StartedAt s) /\ ~ has_event (r_telemetry a) (TelemetryStore.sr_ID s));
  k_execs : t_executions (r_telemetry b) ⊆ t_executions (r_telemetry a);
  k_execs_gone x : x ∈ t_executions (r_telemetry a) -> x ∈ t_executions (r_telemetry b)
    \/ (wt (xr_StartedAt x) /\ ~ execution_has_event (r_telemetry a) (xr_ID x));
  k_usage : c_usage (r_copilot b) = c_usage (r_copilot a);
  k_sessions : c_sessions (r_copilot b) ⊆ c_sessions (r_copilot a);
  k_sessions_gone r : r ∈ c_sessions (r_copilot a) -> r ∈ c_sessions (r_copilot b)
    \/ (ws (cs_UpdatedAt (sr_Session r))
        /\ forall m, m ∈ c_messages (r_copilot a) -> cm_SessionID m = session_id r ->
             cm_Redacted m = true \/ wm (cm_TenantID m) (cm_CreatedAt m));
  k_messages m : m ∈ c_messages (r_copilot b) -> m ∈ c_messages (r_copilot a)
    \/ exists m0, m0 ∈ c_messages (r_copilot a) /\ m = redact_message m0;
  k_messages_gone m : m ∈ c_messages (r_copilot a) -> m ∈ c_messages (r_copilot b)
    \/ (wm (cm_TenantID m) (cm_CreatedAt m) /\ redact_message m ∈ c_messages (r_copilot b))
    \/ ((cm_Redacted m = true \/ wm (cm_TenantID m) (cm_CreatedAt m))
        /\ session_dropped ws (r_copilot a) (r_copilot b) (cm_SessionID m));
  k_activity : c_activity (r_copilot b) ⊆ c_activity (r_copilot a);
  k_activity_gone r : r ∈ c_activity (r_copilot a) -> r ∈ c_activity (r_copilot b)
    \/ wm (ca_TenantID (ar_Activity r)) (ca_CreatedAt (ar_Activity r))
    \/ session_dropped ws (r_copilot a) (r_copilot b) (ca_SessionID (ar_Activity r))
}.

Section Kept.
Context (wt : Time -> Prop) (wm : string -> Time -> Prop) (ws : Time -> Prop).
Local Abbreviation K := (keeps_history wt wm ws).

Lemma keeps_refl a : db_ok a -> K a a.
Proof. intros H. split; auto; by left. Qed.

Lemma redact_idem m : redact_message (redact_message m) = redact_message m.
Proof. done. Qed.

Lemma kept_sessions_trans a b c r : K a b -> K b c -> r ∈ c_sessions (r_copilot a) -> r ∈ c_sessions (r_copilot c)
  \/ (ws (cs_UpdatedAt (sr_Session r))
      /\ forall m, m ∈ c_messages (r_copilot a) -> cm_SessionID m = session_id r ->
           cm_Redacted m = true \/ wm (cm_TenantID m) (cm_CreatedAt m)).
Proof.
  intros H1 H2 Hr. destruct (k_sessions_gone _ _ _ _ _ H1 r Hr) as [Hb|]; [|by right].
  destruct (k_sessions_gone _ _ _ _ _ H2 r Hb) as [Hc|[Hw Hm]]; [by left|right; split; [done|]].
  intros m Hma Hs. destruct (k_messages_gone _ _ _ _ _ H1 m Hma) as [Hmb|[[? _]|[? _]]]; auto.
Qed.

Lemma dropped_later a b c id : K a b -> session_dropped ws (r_copilot b) (r_copilot c) id -> session_dropped ws (r_copilot a) (r_copilot c) id.
Proof. intros H1 (r & Hr & Hid & Hw & Hn). exists r. split; [by apply (k_sessions _ _ _ _ _ H1)|done]. Qed.
Lemma dropped_earlier a b c id : K b c -> session_dropped ws (r_copilot a) (r_copilot b) id -> session_dropped ws (r_copilot a) (r_copilot c) id.
Proof.
  intros H2 (r & Hr & Hid & Hw & Hn). exists r. do 3 (split; [done|]). intros Hc. by apply Hn, (k_sessions _ _ _ _ _ H2).
Qed.

Lemma kept_messages_trans a b c m : K a b -> K b c -> m ∈ c_messages (r_copilot a) -> m ∈ c_messages (r_copilot c)
  \/ (wm (cm_TenantID m) (cm_CreatedAt m) /\ redact_message m ∈ c_messages (r_copilot c))
  \/ ((cm_Redacted m = true \/ wm (cm_TenantID m) (cm_CreatedAt m)) /\ session_dropped ws (r_copilot a) (r_copilot c) (cm_SessionID m)).
Proof.
  intros H1 H2 Hm. pose proof (fun id => dropped_later a b c id H1) as Hdrop.
  destruct (k_messages_gone _ _ _ _ _ H1 m Hm) as [Hb|[[Hold Hb]|[Hold Hd]]].
  - destruct (k_messages_gone _ _ _ _ _ H2 m Hb) as [Hc|[?|[? ?]]]; auto.
  - right. destruct (k_messages_gone _ _ _ _ _ H2 _ Hb) as [Hc|[[_ Hc]|[_ Hc]]]; auto.
  - right. right. split; [done|]. by apply (dropped_earlier a b c _ H2).
Qed.

Lemma kept_activity_trans a b c r : K a b -> K b c -> r ∈ c_activity (r_copilot a) -> r ∈ c_activity (r_copilot c)
  \/ wm (ca_TenantID (ar_Activity r)) (ca_CreatedAt (ar_Activity r))
  \/ session_dropped ws (r_copilot a) (r_copilot c) (ca_SessionID (ar_Activity r)).
Proof.
  intros H1 H2 Hr. destruct (k_activity_gone _ _ _ _ _ H1 r Hr) as [Hb|[?|Hd]]; [|by right; left|].
  - destruct (k_activity_gone _ _ _ _ _ H2 r Hb) as [?|[?|Hd]]; [by left|by right; left|]. right. right. by apply (dropped_later a b c).
  - right. right. by apply (dropped_earlier a b c _ H2).
Qed.

Lemma keeps_trans a b c : K a b -> K b c -> K a c.
Proof.
  intros H1 H2. pose proof H1 as []. pose proof H2 as [].
  split; try (by etrans; eauto); try congruence.
  - destruct k_flags0, k_flags1. split; congruence.
  - intros s Hs. destruct (k_spans_gone0 s Hs) as [Hb|]; [|by right].
    destruct (k_spans_gone1 s Hb) as [|[? He]]; [by left|right; split; [done|]]. unfold has_event in *. by rw -k_events0.
  - intros x Hx. destruct (k_execs_gone0 x Hx) as [Hb|]; [|by right].
    destruct (k_execs_gone1 x Hb) as [|[? He]]; [by left|right; split; [done|]]. unfold execution_has_event in *. by rw -k_events0.
  - intros r. by apply (kept_sessions_trans a b c).
  - intros m Hm. destruct (k_messages1 m Hm) as [Hb|(m0 & Hb & ->)]; [auto|].
    destruct (k_messages0 m0 Hb) as [Ha|(m1 & Ha & ->)]; right; by [exists m0|exists m1].
  - intros m. by apply (kept_messages_trans a b c).
  - intros r. by apply (kept_activity_trans a b c).
Qed.

Definition kept (a b : RDB) : Prop := db_ok a -> K a b.
Global Instance kept_preorder : PreOrder kept.
Proof.
  split; [intros a Ha; by apply keeps_refl|]. intros a b c H1 H2 Ha. specialize (H1 Ha).
  apply keeps_trans with b; [done|]. by apply H2, (k_ok _ _ _ _ _ H1).
Qed.
End Kept.

(** * The statements *)


(** * Lists *)

Lemma filter_partition {A} (P : A -> Prop) `{!forall x, Decision (P x)} l :
  (length (filter P l) + length (filter (fun x => ~ P x) l) = length l)%nat.
Proof. induction l as [|x l IH]; [done|]. rw !filter_cons. repeat case_decide; cbn; try done; lia. Qed.

Lemma filter_none {A} (P : A -> Prop) `{!forall x, Decision (P x)} l : filter P l = [] -> filter (fun x => ~ P x) l = l.
Proof.
  induction l as [|x l IH]; [done|]. rw !filter_cons. destruct (decide (P x)); [done|]. intros Hn.
  destruct (decide (~ P x)); [|done]. by rw IH.
Qed.

Lemma filter_filter_le {A} (P Q : A -> Prop) `{!forall x, Decision (P x), !forall x, Decision (Q x)} l :
  (length (filter P (filter Q l)) <= length (filter P l))%nat.
Proof.
  induction l as [|x l IH]; [done|]. rw (filter_cons Q) (filter_cons P). destruct (decide (Q x)); [rw filter_cons|];
    destruct (decide (P x)); cbn; lia.
Qed.

Lemma update_none {A} (P : A -> Prop) `{!forall x, Decision (P x)} (f : A -> A) l :
  filter P l = [] -> map (fun x => if decide (P x) then f x else x) l = l.
Proof. induction l as [|x l IH]; [done|]. rw filter_cons. cbn. destruct (decide (P x)); [done|]. intros Hn. by rw IH. Qed.

(** An update that takes the rows it hits out of [P]. *)
Lemma update_decreases {A} (P hit : A -> Prop) `{!forall x, Decision (P x), !forall x, Decision (hit x)} (f : A -> A) l :
  (forall x, hit x -> ~ P (f x)) ->
  let l' := map (fun x => if decide (hit x) then f x else x) l in
  (length (filter P l') <= length (filter P l))%nat
  /\ ((exists x, x ∈ l /\ hit x /\ P x) -> (length (filter P l') < length (filter P l))%nat).
Proof.
  intros Hf l'. subst l'. induction l as [|x l IH]; [split; [done|by intros (x & ?%not_elem_of_nil & _)]|].
  cbn [map]. rw !filter_cons. destruct IH as [Hle Hlt]. destruct (decide (hit x)) as [Hx|Hx].
  - destruct (decide (P (f x))) as [Hc|_]; [by destruct (Hf x Hx)|]. case_decide; cbn; split; try lia; intros (y & [->|Hy]%elem_of_cons & ? & ?); try done; eauto.
  - case_decide; cbn; (split; [lia|]); intros (y & [->|Hy]%elem_of_cons & ? & ?); try done;
      [apply -> Nat.succ_lt_mono|]; apply Hlt; eauto.
Qed.

Lemma map_fixed {A B} (g : A -> B) (f : A -> A) l : (forall x, g (f x) = g x) -> map g (map f l) = map g l.
Proof. intros H. induction l as [|x l IH]; cbn; [done|]. by rw H IH. Qed.

(** * Deleting telemetry *)

Lemma elem_limit_map {A} scan batch (key : A -> string) (C : A -> Prop) `{!forall x, Decision (C x)} rows i :
  (forall A (l : list A), scan A l ≡ₚ l) ->
  i ∈ limit_rows scan batch (map key (filter C rows)) -> exists x, x ∈ rows /\ C x /\ key x = i.
Proof.
  intros Hscan Hi. apply limit_rows_sub in Hi; [|done].
  apply list_elem_of_fmap in Hi as (x & -> & [Hx Hin]%list_elem_of_filter). eauto.
Qed.

Lemma spans_deleted_wf t (ids : list string) : tdb_wf t -> span_referenced t ids = false ->
  tdb_wf (set_spans (filter (fun s => TelemetryStore.sr_ID s ∉ ids) (t_spans t)) t).
Proof.
  intros [] [[He Hc]%orb_false_elim Hp]%orb_false_elim.
  assert (Hkeep : forall s, s ∈ t_spans t -> TelemetryStore.sr_ID s ∉ ids -> s ∈ filter (fun s => TelemetryStore.sr_ID s ∉ ids) (t_spans t))
    by (intros; by apply list_elem_of_filter).
  assert (Hbefore : forall r i, same_exec_before t r i -> i ∉ ids ->
            same_exec_before (set_spans (filter (fun s => TelemetryStore.sr_ID s ∉ ids) (t_spans t)) t) r i).
  { intros r i (p & Hin & <- & ? & ?) Hn. exists p. split; [by apply Hkeep|done]. }
  split; cbn; try done.
  - by apply NoDup_map_filter.
  - by apply StronglySorted_filter.
  - intros r [_ Hr]%list_elem_of_filter. auto.
  - intros r [_ Hr]%list_elem_of_filter. auto.
  - intros r [_ Hr]%list_elem_of_filter. by apply wf_span_exec.
  - intros r p [Hn Hr]%list_elem_of_filter Hpar. apply Hbefore; [by apply wf_parents|].
    pose proof (existsb_false_elem _ _ _ Hp Hr) as H. cbn in H. rw Hpar (bool_decide_eq_true_2 _ Hn) in H. by apply bool_decide_eq_false in H.
  - intros a b Hab. destruct (wf_causes _ _ Hab) as (r & Hr & <- & Hb).
    pose proof (existsb_false_elem _ _ _ Hc Hab) as H. cbn in H.
    apply orb_false_elim in H as [Ha%bool_decide_eq_false Hb'%bool_decide_eq_false]. exists r. split; [by apply Hkeep|]. split; [done|]. by apply Hbefore.
  - intros e Hin. specialize (wf_events _ Hin). unfold span_in_execution in *. apply existsb_exists in wf_events as (s & Hs & Hm).
    apply existsb_exists. exists s. split; [|done]. apply list_elem_of_In, Hkeep; [by apply list_elem_of_In|].
    pose proof (existsb_false_elem _ _ _ He Hin) as H. apply bool_decide_eq_false in H.
    apply andb_prop in Hm as [Hi%bool_decide_eq_true _]. by rw Hi.
Qed.

Lemma executions_deleted_wf t (ids : list string) : tdb_wf t -> (forall i, i ∈ ids -> execution_used t i = false) ->
  tdb_wf (set_executions (filter (fun x => xr_ID x ∉ ids) (t_executions t)) t).
Proof.
  intros [] Hun. split; cbn; try done; [by apply NoDup_map_filter|].
  intros r Hr. specialize (wf_span_exec _ Hr). unfold execution_exists in *. apply existsb_exists in wf_span_exec as (x & Hx & Hm).
  apply existsb_exists. exists x. split; [|done]. apply bool_decide_eq_true in Hm. apply list_elem_of_In, list_elem_of_filter.
  split; [|by apply list_elem_of_In]. intros Hi. specialize (Hun _ Hi). unfold execution_used in Hun.
  pose proof (existsb_false_elem _ _ _ Hun Hr) as H. apply bool_decide_eq_false in H. congruence.
Qed.

Lemma no_orphan_edges t e : tdb_wf t -> e ∈ t_causality t -> ~ (span_by_id t e.1 = None \/ span_by_id t e.2 = None).
Proof.
  intros Hw He. destruct e as [a b]. destruct (wf_causes _ Hw _ _ He) as (r & Hr & <- & (p & Hp & <- & _)).
  assert (Hf : forall s, s ∈ t_spans t -> span_by_id t (TelemetryStore.sr_ID s) <> None).
  { intros s Hs. unfold span_by_id. destruct (filter _ _) as [|y l] eqn:E; [|done]. cbn.
    assert (s ∈ filter (fun r => TelemetryStore.sr_ID r = TelemetryStore.sr_ID s) (t_spans t)) as H by (by apply list_elem_of_filter).
    rw E in H. by apply not_elem_of_nil in H. }
  cbn. intros [H|H]; [by apply (Hf r)|by apply (Hf p)].
Qed.

(** * Statements *)

Section Stmts.
Context (scan : forall A : Type, list A -> list A) (Hscan : forall A (l : list A), scan A l ≡ₚ l).
Context (batch : Z) (wt : Time -> Prop) (wm : string -> Time -> Prop) (ws : Time -> Prop).
Local Abbreviation K := (keeps_history wt wm ws).

(** [D] holds when the statement affects less than a batch. *)
Definition stmt_spec (stmt : Stmt) (D : RDB -> Prop) : Prop := forall d n d', db_ok d -> stmt d = Some (n, d') ->
  0 <= n /\ K d d' /\ (0 < n -> (remaining d' < remaining d)%nat) /\ (n < batch -> D d').

Lemma with_telemetry_id d : with_telemetry (r_telemetry d) d = d.
Proof. by destruct d. Qed.
Lemma forallb_const_false {A} (l : list A) : forallb (fun _ => false) l = true -> l = [].
Proof. by destruct l. Qed.

(** The shipped triggers: only a statement that matches nothing succeeds. *)
Lemma delete_events_spec cutoff : stmt_spec (delete_events shipped_schema scan batch cutoff) (fun _ => True).
Proof using Hscan.
  intros d n d' Hok. unfold delete_events. set (victims := limit_rows _ _ _). clearbody victims. cbn.
  destruct (forallb _ _) eqn:E; [|done]. intros [= <- <-]. apply forallb_const_false in E. rw E. cbn.
  split; [lia|]. split; [|split; [lia|done]].
  apply filter_none in E. rw E. replace (with_telemetry _ d) with d; [by apply keeps_refl|]. by destruct d as [[] ? ? ? ? ?].
Qed.

Lemma delete_spans_spec cutoff : (forall t, t < pg_ts cutoff -> wt t) -> stmt_spec (delete_spans scan batch cutoff) (fun _ => True).
Proof using Hscan.
  intros Hwt d n d' Hok. unfold delete_spans. cbn. set (t := r_telemetry d). set (victims := limit_rows _ _ _).
  destruct (span_referenced t victims) eqn:E; [done|]. intros [= <- <-]. pose proof Hok as (Hw & Hc0). pose proof Hc0 as [Hs Hm Hfk Hact].
  pose proof (filter_partition (fun s => TelemetryStore.sr_ID s ∈ victims) (t_spans t)) as Hl.
  split; [lia|]. split; [|split; [unfold remaining; cbn; fold t; lia|done]].
  split; cbn; fold t; try done; auto.
  - split; [by apply spans_deleted_wf|done].
  - unfold remaining. cbn. fold t. lia.
  - intros s [_ ?]%list_elem_of_filter. done.
  - intros s Hin. destruct (decide (TelemetryStore.sr_ID s ∈ victims)) as [Hv|Hn]; [right|left; by apply list_elem_of_filter].
    pose proof Hv as (s' & Hs' & [Hold _] & Heq)%elem_limit_map; [|done].
    rw (NoDup_map_elem _ _ _ _ (wf_span_ids _ Hw) Hs' Hin Heq) in Hold. split; [by apply Hwt|].
    unfold has_event. rw Exists_exists. intros (e & He & Hes). unfold span_referenced in E.
    apply orb_false_elim in E as [[E _]%orb_false_elim _].
    pose proof (existsb_false_elem _ _ _ E He) as H%bool_decide_eq_false. apply H. by rw Hes.
Qed.

Lemma delete_orphan_edges_spec : stmt_spec delete_orphan_edges (fun _ => True).
Proof using Type.
  intros d n d' Hok. unfold delete_orphan_edges. cbn. intros [= <- <-]. pose proof Hok as (Hw & _).
  set (orphan := fun e : string * string => _).
  assert (Hno : filter orphan (t_causality (r_telemetry d)) = []).
  { destruct (filter orphan _) as [|e l] eqn:E; [done|].
    assert (e ∈ filter orphan (t_causality (r_telemetry d))) as [H Hin]%list_elem_of_filter by (rw E; left). by destruct (no_orphan_edges _ _ Hw Hin). }
  rw Hno. cbn. split; [lia|]. split; [|split; [lia|done]].
  apply filter_none in Hno. rw Hno. replace (with_telemetry _ d) with d; [by apply keeps_refl|]. by destruct d as [[] ? ? ? ? ?].
Qed.

Lemma delete_executions_spec cutoff :
  (forall t, t < pg_ts cutoff -> wt t) -> stmt_spec (delete_executions scan batch cutoff) (fun _ => True).
Proof using Hscan.
  intros Hwt d n d' Hok. unfold delete_executions. cbn. set (t := r_telemetry d). set (victims := limit_rows _ _ _).
  destruct (existsb _ _) eqn:E; [done|]. intros [= <- <-]. pose proof Hok as (Hw & Hc0). pose proof Hc0 as [Hs Hm Hfk Hact].
  assert (Hun : forall i, i ∈ victims -> execution_used t i = false) by (by intros i (x & _ & [_ H] & <-)%elem_limit_map).
  pose proof (filter_partition (fun x => xr_ID x ∈ victims) (t_executions t)) as Hl.
  split; [lia|]. split; [|split; [unfold remaining; cbn; fold t; lia|done]].
  split; cbn; fold t; try done; auto.
  - split; [by apply executions_deleted_wf|done].
  - unfold remaining. cbn. fold t. lia.
  - intros x [_ ?]%list_elem_of_filter. done.
  - intros x Hin. destruct (decide (xr_ID x ∈ victims)) as [Hv|Hn]; [right|left; by apply list_elem_of_filter].
    pose proof Hv as (x' & Hx' & [Hold _] & Heq)%elem_limit_map; [|done].
    rw (NoDup_map_elem _ _ _ _ (wf_exec_ids _ Hw) Hx' Hin Heq) in Hold. split; [by apply Hwt|].
    unfold execution_has_event. rw Exists_exists. intros (e & He & Hes).
    pose proof (existsb_false_elem _ _ _ E He) as H%bool_decide_eq_false. apply H. by rw Hes.
Qed.

Lemma tombstone_events_spec tenantID cutoff : stmt_spec (tombstone_events shipped_schema scan batch tenantID cutoff) (fun _ => True).
Proof using Hscan.
  intros d n d' Hok. unfold tombstone_events. cbn. set (victims := limit_rows _ _ _). clearbody victims.
  destruct (forallb _ _) eqn:E; [|done]. intros [= <- <-]. apply forallb_const_false in E. rw E. cbn.
  split; [lia|]. split; [|split; [lia|done]].
  apply (update_none _ tombstone) in E. rw E. replace (with_audit _ d) with d; [by apply keeps_refl|]. by destruct d as [? [] ? ? ? ?].
Qed.

(** ** The assistant's tables *)

(** [remaining] and the parts that do not concern the assistant. *)
Lemma copilot_keeps d c :
  db_ok d -> copilot_ok c -> c_usage c = c_usage (r_copilot d) ->
  c_sessions c ⊆ c_sessions (r_copilot d) ->
  (length (filter (fun m => cm_Redacted m = false) (c_messages c)) + length (c_activity c) + length (c_sessions c)
   <= length (filter (fun m => cm_Redacted m = false) (c_messages (r_copilot d))) + length (c_activity (r_copilot d)) + length (c_sessions (r_copilot d)))%nat ->
  (forall r, r ∈ c_sessions (r_copilot d) -> r ∈ c_sessions c \/ (ws (cs_UpdatedAt (sr_Session r))
     /\ forall m, m ∈ c_messages (r_copilot d) -> cm_SessionID m = session_id r -> cm_Redacted m = true \/ wm (cm_TenantID m) (cm_CreatedAt m))) ->
  (forall m, m ∈ c_messages c -> m ∈ c_messages (r_copilot d) \/ exists m0, m0 ∈ c_messages (r_copilot d) /\ m = redact_message m0) ->
  (forall m, m ∈ c_messages (r_copilot d) -> m ∈ c_messages c
     \/ (wm (cm_TenantID m) (cm_CreatedAt m) /\ redact_message m ∈ c_messages c)
     \/ ((cm_Redacted m = true \/ wm (cm_TenantID m) (cm_CreatedAt m)) /\ session_dropped ws (r_copilot d) c (cm_SessionID m))) ->
  c_activity c ⊆ c_activity (r_copilot d) ->
  (forall r, r ∈ c_activity (r_copilot d) -> r ∈ c_activity c \/ wm (ca_TenantID (ar_Activity r)) (ca_CreatedAt (ar_Activity r))
     \/ session_dropped ws (r_copilot d) c (ca_SessionID (ar_Activity r))) ->
  K d (with_copilot_tables c d).
Proof using Type.
  intros [Hw Hc0] ? ? ? ? ? ? ? ? ?. split; cbn; try done; auto. unfold remaining. cbn. lia.
Qed.

Lemma tombstone_messages_spec tenantID cutoff : (forall t, t < pg_ts cutoff -> wm tenantID t) ->
  stmt_spec (tombstone_messages scan batch tenantID cutoff) (fun d => forall m, m ∈ c_messages (r_copilot d) ->
    cm_TenantID m = tenantID -> cm_CreatedAt m < pg_ts cutoff -> cm_Redacted m = true).
Proof using Hscan.
  intros Hwm d n d' Hok. unfold tombstone_messages. cbn. set (c := r_copilot d). set (victims := limit_rows _ _ _).
  intros [= <- <-]. pose proof Hok as (Hw & Hc0). pose proof Hc0 as [Hs Hm Hfk Hact].
  assert (Hold : forall m, m ∈ c_messages c -> cm_ID m ∈ victims ->
            cm_TenantID m = tenantID /\ cm_CreatedAt m < pg_ts cutoff /\ cm_Redacted m = false).
  { intros m Hin (m' & Hm' & Hc & Heq)%elem_limit_map; [|done]. by rw -(NoDup_map_elem _ _ _ _ Hm Hm' Hin Heq). }
  destruct (update_decreases (fun m => cm_Redacted m = false) (fun m => cm_ID m ∈ victims) redact_message (c_messages c)) as [Hle Hlt]; [done|].
  split; [lia|]. split; [|split].
  - apply copilot_keeps; cbn; fold c; auto; try lia.
    + split; cbn; [done|rw map_fixed; [done|]; intros m; by case_decide| |done].
      intros m (m0 & -> & Hin)%list_elem_of_fmap. case_decide; by apply (Hfk m0).
    + intros m (m0 & -> & Hin)%list_elem_of_fmap. case_decide; [right; by exists m0|by left].
    + intros m Hin. destruct (decide (cm_ID m ∈ victims)) as [Hv|Hn]; [right; left|left].
      * destruct (Hold m Hin Hv) as (<- & Hc & _). split; [by apply Hwm|].
        apply list_elem_of_fmap. exists m. split; [by rw decide_True|done].
      * apply list_elem_of_fmap. exists m. split; [by rw decide_False|done].
  - intros Hpos. unfold remaining. cbn. fold c. enough (exists m, m ∈ c_messages c /\ cm_ID m ∈ victims /\ cm_Redacted m = false) as Hex; [specialize (Hlt Hex); lia|].
    destruct (filter (fun m => cm_ID m ∈ victims) (c_messages c)) as [|m l] eqn:E; [cbn in Hpos; lia|].
    assert (m ∈ filter (fun m => cm_ID m ∈ victims) (c_messages c)) as [Hv Hin]%list_elem_of_filter by (rw E; left).
    exists m. split; [done|]. split; [done|]. by apply Hold.
  - intros Hn m (m0 & -> & Hin)%list_elem_of_fmap. case_decide as Hd; [done|]. intros Ht Hc. destruct (cm_Redacted m0) eqn:Hr; [done|].
    exfalso. apply Hd. apply limit_rows_all; [done| |].
    + eapply Z.le_lt_trans; [|exact Hn]. apply inj_le, victims_affected; done.
    + apply list_elem_of_fmap. exists m0. split; [done|]. by apply list_elem_of_filter.
Qed.

Lemma delete_activity_spec tenantID cutoff : (forall t, t < pg_ts cutoff -> wm tenantID t) -> stmt_spec (delete_activity scan batch tenantID cutoff) (fun _ => True).
Proof using Hscan.
  intros Hwm d n d' Hok. unfold delete_activity. cbn. set (c := r_copilot d). set (victims := limit_rows _ _ _).
  intros [= <- <-]. pose proof Hok as (Hw & Hc0). pose proof Hc0 as [Hs Hm Hfk Hact].
  pose proof (filter_partition (fun r => activity_id r ∈ victims) (c_activity c)) as Hl.
  split; [lia|]. split; [|split; [unfold remaining; cbn; fold c; lia|done]].
  apply copilot_keeps; cbn; fold c; auto; [split; cbn; auto; by apply NoDup_map_filter|lia|by intros r [_ ?]%list_elem_of_filter|].
  intros r Hin. destruct (decide (activity_id r ∈ victims)) as [Hv|Hn]; [right; left|left; by apply list_elem_of_filter].
  pose proof Hv as (r' & Hr' & [<- Hold] & Heq)%elem_limit_map; [|done].
  rw -(NoDup_map_elem _ _ _ _ Hact Hr' Hin Heq). by apply Hwm.
Qed.

Lemma delete_sessions_spec cutoff : (forall t, t < pg_ts cutoff -> ws t) ->
  stmt_spec (delete_sessions scan batch cutoff) (fun d => forall r, r ∈ c_sessions (r_copilot d) ->
    cs_UpdatedAt (sr_Session r) < pg_ts cutoff -> has_live_message (r_copilot d) (session_id r) = true).
Proof using Hscan.
  intros Hws d n d' Hok. unfold delete_sessions. cbn. set (c := r_copilot d). set (victims := limit_rows _ _ _).
  intros [= <- <-]. pose proof Hok as (Hw & Hc0). pose proof Hc0 as [Hs Hm Hfk Hact].
  assert (Hold : forall r, r ∈ c_sessions c -> session_id r ∈ victims ->
            cs_UpdatedAt (sr_Session r) < pg_ts cutoff /\ has_live_message c (session_id r) = false).
  { intros r Hin (r' & Hr' & Hc & Heq)%elem_limit_map; [|done]. by rw -(NoDup_map_elem _ _ _ _ Hs Hr' Hin Heq). }
  assert (Hred : forall r m, r ∈ c_sessions c -> session_id r ∈ victims -> m ∈ c_messages c -> cm_SessionID m = session_id r -> cm_Redacted m = true).
  { intros r m Hr Hv Hin Hid. destruct (Hold r Hr Hv) as [_ H].
    pose proof (existsb_false_elem _ _ _ H Hin) as H'. rw (bool_decide_eq_true_2 _ Hid) in H'. by destruct (cm_Redacted m). }
  pose proof (filter_partition (fun r => session_id r ∈ victims) (c_sessions c)) as Hl.
  assert (Hm1 : (length (filter (fun m => cm_Redacted m = false) (filter (fun m => cm_SessionID m ∉ victims) (c_messages c)))
                 <= length (filter (fun m => cm_Redacted m = false) (c_messages c)))%nat)
    by apply filter_filter_le.
  pose proof (length_filter (fun r => ca_SessionID (ar_Activity r) ∉ victims) (c_activity c)) as Ha.
  split; [lia|]. split; [|split].
  - apply copilot_keeps; cbn; fold c; auto; try lia.
    + split; cbn; [by apply NoDup_map_filter..| |by apply NoDup_map_filter]. intros m [Hn Hin]%list_elem_of_filter.
      destruct (proj1 (list_elem_of_fmap _ _ _) (Hfk m Hin)) as (r & Hid & Hr). rw Hid in Hn. rw Hid.
      apply list_elem_of_fmap_2. by apply list_elem_of_filter.
    + intros r [_ ?]%list_elem_of_filter. done.
    + intros r Hin. destruct (decide (session_id r ∈ victims)) as [Hv|Hn]; [right|left; by apply list_elem_of_filter].
      split; [by apply Hws, Hold|]. intros m Hmi Hid. left. by apply (Hred r).
    + intros m [_ ?]%list_elem_of_filter. by left.
    + intros m Hin. destruct (decide (cm_SessionID m ∈ victims)) as [Hv|Hn]; [right; right|left; by apply list_elem_of_filter].
      pose proof Hv as (r & Hr & [Hc _] & Heq)%elem_limit_map; [|done]. rw -Heq in Hv. split; [left; by apply (Hred r)|].
      exists r. split; [done|]. split; [done|]. split; [by apply Hws|]. by intros [? _]%list_elem_of_filter.
    + intros a [_ ?]%list_elem_of_filter. done.
    + intros a Hin. destruct (decide (ca_SessionID (ar_Activity a) ∈ victims)) as [Hv|Hn]; [right; right|left; by apply list_elem_of_filter].
      pose proof Hv as (r & Hr & [Hc _] & Heq)%elem_limit_map; [|done]. rw -Heq in Hv.
      exists r. split; [done|]. split; [done|]. split; [by apply Hws|]. by intros [? _]%list_elem_of_filter.
  - unfold remaining. cbn. fold c. lia.
  - intros Hn r [Hv Hin]%list_elem_of_filter Hc. destruct (has_live_message c (session_id r)) eqn:Hlive.
    + unfold has_live_message in *. apply existsb_exists in Hlive as (m & Hmi & Hm'). apply existsb_exists. exists m. split; [|done].
      apply list_elem_of_In, list_elem_of_filter. split; [|by apply list_elem_of_In].
      apply andb_prop in Hm' as [Hid%bool_decide_eq_true _]. by rw Hid.
    + destruct Hv. apply limit_rows_all; [done| |].
      * eapply Z.le_lt_trans; [|exact Hn]. apply inj_le, victims_affected; done.
      * apply list_elem_of_fmap. exists r. split; [done|]. by apply list_elem_of_filter.
Qed.
End Stmts.
