(* ===== verification/RetentionProps.v ===== *)
(** What a pass of the retention sweeper promises: it ends, it keeps the recorded
    history, and what it is meant to expire is gone. *)
From S2P Require Import Prelude Errors GoTime Json JsonFacts Canonical AuditModel AuditHash Execution Postgres AuditStore AuditStoreFacts TelemetryStore TelemetryFacts CopilotStore CopilotFacts Tenants Auth Retention RetentionFacts.
Import GoTime.
Local Open Scope Z_scope.

(** The windows of the telemetry, and of the assistant's content of a tenant. *)
Definition telemetry_window (cfg : Config) (t : Tenants.TDB) (days : Z) : Prop :=
  0 < days /\ (days = rc_DefaultRetentionDays cfg
               \/ exists p, p ∈ d_plans t /\ pl_ID p = "free" /\ default 0 (pl_RetentionDays p) = days).
Definition transcript_window (t : Tenants.TDB) (tenantID : string) (days : Z) : Prop :=
  exists p, (tenantID, p) ∈ tenant_plans t /\ transcript_days p = Some days.

Section Pass.
Context (scan : forall A : Type, list A -> list A) (Hscan : forall A (l : list A), scan A l ≡ₚ l).
Context (cfg : Config) (outcomes : nat -> CallOutcome) (clock : nat -> Time) (owners : string -> list (string * string)).
Context (emailBridge : bool) (fuel : nat) (Hbatch : 0 < rc_BatchSize cfg) (T : Tenants.TDB).

Definition past_window (days : Z) (t : Time) : Prop := exists k, t < pg_ts (cutoff_of (clock k) days).
Definition old_telemetry (t : Time) : Prop := exists days, telemetry_window cfg T days /\ past_window days t.
Definition old_content (tenantID : string) (t : Time) : Prop := exists days, transcript_window T tenantID days /\ past_window days t.
Definition idle (t : Time) : Prop := past_window (rc_CopilotSessionTTLDays cfg) t.
Local Abbreviation K := (kept old_telemetry old_content idle).
Local Abbreviation spec := (stmt_spec (rc_BatchSize cfg) old_telemetry old_content idle).

Definition ready (d : RDB) : Prop := db_ok d /\ (remaining d < fuel)%nat /\ r_tenants d = T.
Definition healthy_calls : Prop := forall k, outcomes k = Fine.
(** An error allowed when a call may fail as [outcomes] says. *)
Definition admits (E : SweepErr -> Prop) : Prop :=
  (forall k c b, outcomes k = Fails c b -> E (sweep_err c)) /\ (forall k n, outcomes k = Cut n -> E EDatabase).

Lemma ready_stable a b : ready a -> K a b -> ready b.
Proof.
  intros (Hok & Hr & Ht) Hk. pose proof (Hk Hok) as []. split; [done|]. split; [lia|congruence].
Qed.

Lemma admits_healthy E : (forall k, outcomes k <> Fine -> E EDatabase /\ E ECanceled) -> admits E.
Proof. intros H. split; [intros k [] b Hk|intros k n Hk]; apply (H k); by rw Hk. Qed.

Lemma context_test (test : bool) w E : admits E ->
  exists r w', (if test then ctx_err outcomes else mret tt) w = Some (r, w') /\ w_db w' = w_db w
    /\ match r with Ok _ => True | Err e => E e end.
Proof.
  intros [Hf _]. destruct test; [|by exists (Ok tt), w]. unfold ctx_err.
  destruct (outcomes (w_calls w)) as [|[] b|] eqn:Ho; eexists _, _; (split; [done|]; split; [done|]); try done.
  by apply (Hf _ _ _ Ho).
Qed.

Lemma runs_batches test n stmt D E : spec stmt D -> admits E -> (forall d, ready d -> stmt d = None -> E EDatabase) ->
  runs (fun d => ready d /\ (remaining d < n)%nat) (batches cfg outcomes test n stmt) K (fun _ d => ready d /\ D d) E.
Proof using Hbatch.
  intros Hs [Hf Hcut] Hnone. induction n as [|n IH]; intros w [Hw Hn]; [lia|].
  cbn [batches]. destruct (context_test test w E) as ([[]|e] & w1 & H1 & Hd & He); [by split| |];
    unfold mbind at 1, sweep_bind at 1; rw H1; [|exists (Err e), w1; rw Hd; by split].
  rw -Hd in Hw Hn. rw -Hd.
  clear w H1 Hd He. unfold mbind, sweep_bind, exec_stmt. destruct (stmt (w_db w1)) as [[ct d]|] eqn:Hst.
  - destruct (Hs _ _ _ (proj1 Hw) Hst) as (Hpos & Hk & Hlt & HD).
    assert (Hkk : K (w_db w1) d) by (by intros _). pose proof (ready_stable _ _ Hw Hkk) as Hr.
    destruct (outcomes (w_calls w1)) as [|c [] |] eqn:Ho;
      [|eexists _, _; split; [reflexivity|]; split; [exact Hkk|by apply (Hf _ _ _ Ho)]
       |eexists _, _; split; [reflexivity|]; split; [reflexivity|by apply (Hf _ _ _ Ho)]
       |eexists _, _; split; [reflexivity|]; split; [reflexivity|by apply (Hcut _ _ Ho)]].
    destruct (Z.ltb_spec ct (rc_BatchSize cfg)) as [Hsmall|Hbig]; [eexists _, _; split; [reflexivity|]; split; [exact Hkk|]; split; [exact Hr|by apply HD]|].
    destruct (IH (set_db d (next_call w1))) as (r & w' & H & HR & Hq); [split; [done|]; cbn; pose proof (Hlt ltac:(lia)); lia|].
    exists r, w'. split; [done|]. split; [by etrans|done].
  - destruct (outcomes (w_calls w1)) as [|c [] |] eqn:Ho; eexists _, _; (split; [done|]; split; [reflexivity|]);
      [by apply Hnone with (w_db w1)|by apply (Hf _ _ _ Ho)..|by apply (Hcut _ _ Ho)].
Qed.

Lemma runs_now P' E : runs P' (now clock) K (fun t d => P' d /\ exists k, t = clock k) E.
Proof. intros w Hw. eexists _, _. split; [reflexivity|]. split; [reflexivity|]. split; [done|by eexists]. Qed.

Lemma runs_ctx P' E : admits E -> runs P' (ctx_err outcomes) K (fun _ => P') E.
Proof.
  intros HE w Hw. destruct (context_test true w E HE) as (r & w' & H & Hd & Hr). exists r, w'. rw Hd.
  split; [done|]. split; [reflexivity|]. by destruct r.
Qed.

Lemma runs_query {A} P' (q : Time -> RDB -> list A) E : admits E ->
  runs P' (query outcomes clock q) K
    (fun rows d => P' d /\ exists t, rows ⊆ q t d /\ (healthy_calls -> rows = q t d)) E.
Proof.
  intros [Hf _] w Hw. unfold query. destruct (outcomes (w_calls w)) as [|c b|n] eqn:Ho;
    eexists _, _; (split; [reflexivity|]; split; [reflexivity|]); [|by apply (Hf _ _ _ Ho)|]; (split; [done|]); exists (clock (w_calls w)).
  - done.
  - split; [apply subseteq_take|]. intros H. by rw (H (w_calls w)) in Ho.
Qed.

Lemma runs_default E : runs ready (defaultRetentionDays cfg outcomes clock) K
  (fun days d => ready d /\ (0 < days -> telemetry_window cfg T days)) E.
Proof.
  intros w Hw. unfold defaultRetentionDays.
  destruct (runs_query ready (fun _ d => map pl_RetentionDays (filter (fun p => pl_ID p = "free") (d_plans (r_tenants d)))) (fun _ => True))
    with w as ([rows|e] & w' & -> & HR & Hq); [by split|done| |].
  - destruct rows as [|days rows]; eexists _, w'; (split; [reflexivity|]; split; [done|]); (split; [apply Hq|]); intros Hpos; (split; [done|]).
    + by left.
    + right. destruct Hq as [(_ & _ & HT) (t & Hsub & _)]. rw HT in Hsub.
      pose proof (Hsub _ (list_elem_of_here _ _)) as (p & -> & [Hid Hp]%list_elem_of_filter)%list_elem_of_fmap. by exists p.
  - eexists _, w'. split; [reflexivity|]. split; [done|]. split; [by apply ready_stable with (w_db w)|]. intros Hpos. split; [done|by left].
Qed.

Definition telemetry_error (e : SweepErr) : Prop := healthy_calls -> e = EDatabase.
Lemma admits_telemetry : admits telemetry_error.
Proof. split; [intros k c b Hk H|intros k n Hk H; done]. by rw (H k) in Hk. Qed.

Lemma batches_ready test stmt D E : spec stmt D -> admits E -> (forall d, ready d -> stmt d = None -> E EDatabase) ->
  runs ready (batches cfg outcomes test fuel stmt) K (fun _ => D) E.
Proof using Hbatch.
  intros H1 H2 H3. eapply runs_weaken; [by eapply runs_batches| | |]; cbn; [intros d Hd; split; [done|apply Hd]|by intros ? ? []|done].
Qed.

Lemma sweepTelemetry_runs : runs ready (sweepTelemetry shipped_schema scan cfg outcomes clock fuel) K (fun _ => ready) telemetry_error.
Proof using Hscan Hbatch.
  unfold sweepTelemetry. eapply runs_bind; [apply _|apply runs_default|]. intros days.
  destruct (Z.leb_spec days 0) as [Hz|Hpos]; [apply runs_ret; [apply _|by intros d []]|].
  eapply runs_bind; [apply _|apply runs_now|]. intros t w [[Hw Hwin] [k ->]]. specialize (Hwin Hpos).
  assert (Hold : forall u, u < pg_ts (cutoff_of (clock k) days) -> old_telemetry u) by (intros u Hu; exists days; split; [done|by exists k]).
  destruct (runs_for_each ready K ready_stable telemetry_error (telemetry_steps shipped_schema scan cfg (cutoff_of (clock k) days))
              (batches cfg outcomes true fuel) (fun _ _ => True)) with w as (r & w' & H & HR & Hq); [done| |done|].
  - intros stmt Hin. apply batches_ready; [|apply admits_telemetry|done].
    unfold telemetry_steps in Hin. repeat (apply elem_of_cons in Hin as [->|Hin]); [..|by apply not_elem_of_nil in Hin].
    + by apply delete_events_spec.
    + by apply delete_spans_spec.
    + by apply delete_orphan_edges_spec.
    + by apply delete_executions_spec.
  - exists r, w'. split; [done|]. split; [done|]. destruct r; [by destruct Hq|done].
Qed.

Lemma sweepAudit_runs : runs ready (sweepAudit shipped_schema scan cfg outcomes clock fuel) K (fun _ => ready) telemetry_error.
Proof using Hscan Hbatch.
  unfold sweepAudit. eapply runs_bind; [apply _|apply runs_query, admits_telemetry|]. intros plans.
  eapply runs_weaken; [apply (runs_for_each ready K ready_stable telemetry_error plans _ (fun _ _ => True)); [done|]|by intros d []|by intros ? ? []|done].
  intros tp Hin. eapply runs_bind; [apply _|apply runs_ctx, admits_telemetry|]. intros [].
  eapply runs_bind; [apply _|apply runs_now|]. intros t. eapply runs_weaken; [|intros d [Hd _]; exact Hd|intros ? ? H; exact H|done].
  apply batches_ready; [by apply tombstone_events_spec|apply admits_telemetry|done].
Qed.

(** ** The assistant's tables *)

Definition redacted_before (tenantID : string) (cutoff : Time) (d : RDB) : Prop := forall m, m ∈ c_messages (r_copilot d) ->
  cm_TenantID m = tenantID -> cm_CreatedAt m < pg_ts cutoff -> cm_Redacted m = true.
Definition idle_dropped (cutoff : Time) (d : RDB) : Prop := forall r, r ∈ c_sessions (r_copilot d) ->
  cs_UpdatedAt (sr_Session r) < pg_ts cutoff -> has_live_message (r_copilot d) (session_id r) = true.
(** The windows of the pass, each read at some point of it. *)
Definition enforced (d : RDB) : Prop :=
  (forall tenantID days, transcript_window T tenantID days -> exists k, redacted_before tenantID (cutoff_of (clock k) days) d)
  /\ exists k, idle_dropped (cutoff_of (clock k) (rc_CopilotSessionTTLDays cfg)) d.

Lemma redacted_before_stable tenantID cutoff a b : redacted_before tenantID cutoff a -> K a b -> ready a -> redacted_before tenantID cutoff b.
Proof.
  intros Ha Hk [Hok _] m Hm Ht Hc. destruct (k_messages _ _ _ _ _ (Hk Hok) m Hm) as [Hin|(m0 & Hin & ->)]; [by apply Ha|done].
Qed.

Definition copilot_error (e : SweepErr) : Prop := healthy_calls -> False.
Lemma admits_copilot : admits copilot_error.
Proof. split; [intros k c b Hk H|intros k n Hk H]; by rw (H k) in Hk. Qed.

Definition plan_done (tp : string * option Z) (d : RDB) : Prop :=
  match tp.2 with None => True | Some days => exists k, redacted_before tp.1 (cutoff_of (clock k) days) d end.

Lemma copilot_plan_runs (tp : string * option Z) :
  (forall days, tp.2 = Some days -> transcript_window T tp.1 days) ->
  runs ready (copilot_tenant scan cfg outcomes clock fuel tp) K (fun _ => plan_done tp) copilot_error.
Proof using Hscan Hbatch.
  intros Hwin. eapply runs_bind; [apply _|apply runs_ctx, admits_copilot|]. intros []. unfold plan_done.
  destruct (tp.2) as [days|]; [|by apply runs_ret; [apply _|]].
  eapply runs_bind; [apply _|apply runs_now|]. intros t w [Hw [k ->]].
  assert (Hm : spec (tombstone_messages scan (rc_BatchSize cfg) tp.1 (cutoff_of (clock k) days)) (redacted_before tp.1 (cutoff_of (clock k) days))).
  { apply tombstone_messages_spec; [done|]. intros u Hu. exists days. split; [by apply Hwin|by exists k]. }
  destruct (runs_batches false fuel _ _ copilot_error Hm admits_copilot ltac:(done)) with w as ([[]|e] & w1 & H1 & HR1 & Hq1);
    [split; [done|apply Hw]| |]; unfold mbind, sweep_bind; rw H1; [|by exists (Err e), w1].
  destruct Hq1 as [Hw1 Hred].
  destruct (runs_batches false fuel (delete_activity scan (rc_BatchSize cfg) tp.1 (cutoff_of (clock k) days)) (fun _ => True) copilot_error)
    with w1 as (r & w2 & H2 & HR2 & Hq2); [apply delete_activity_spec; [done|]; intros u Hu; exists days; split; [by apply Hwin|by exists k]|apply admits_copilot|done|split; [done|apply Hw1]|].
  exists r, w2. split; [done|]. split; [by etrans|]. destruct r as [[]|e]; [|done]. exists k.
  by apply redacted_before_stable with (w_db w1).
Qed.

Lemma sweepCopilot_runs :
  runs ready (sweepCopilot scan cfg outcomes clock fuel) K (fun _ d => ready d /\ (healthy_calls -> enforced d)) copilot_error.
Proof using Hscan Hbatch.
  unfold sweepCopilot. eapply runs_bind; [apply _|apply runs_query, admits_copilot|]. intros plans w (Hw & t & Hsub & Heq).
  pose proof Hw as (_ & _ & HT). rw HT in Hsub Heq.
  assert (Hplans : forall tp, tp ∈ plans -> forall days, tp.2 = Some days -> transcript_window T tp.1 days).
  { intros tp Hin days Hd. pose proof (Hsub _ Hin) as ([id p] & -> & Hp)%list_elem_of_fmap. by exists p. }
  destruct (runs_for_each ready K ready_stable copilot_error plans (copilot_tenant scan cfg outcomes clock fuel) plan_done) with w as ([[]|e] & w1 & H1 & HR1 & Hq1);
    [|by intros tp Hin; apply copilot_plan_runs, Hplans|done| |].
  { intros [id [days|]] a b; unfold plan_done; cbn; [|done]. intros [k Hk] HR Ha. exists k. by apply redacted_before_stable with a. }
  2: { unfold mbind, sweep_bind at 1. rw H1. by exists (Err e), w1. }
  unfold mbind, sweep_bind at 1. rw H1. destruct Hq1 as [Hw1 Hdone]. set (k := w_calls w1).
  assert (Hs : spec (delete_sessions scan (rc_BatchSize cfg) (cutoff_of (clock k) (rc_CopilotSessionTTLDays cfg)))
                 (idle_dropped (cutoff_of (clock k) (rc_CopilotSessionTTLDays cfg)))).
  { apply delete_sessions_spec; [done|]. intros u Hu. by exists k. }
  destruct (runs_batches false fuel _ _ copilot_error Hs admits_copilot ltac:(done)) with (next_call w1) as (r & w2 & H2 & HR2 & Hq2);
    [split; [done|apply Hw1]|].
  unfold sweep_bind, now. exists r, w2. split; [exact H2|]. split; [by etrans|]. destruct r; [|done]. destruct Hq2 as [Hw2 Hidle].
  split; [done|]. intros Hh. specialize (Heq Hh). split; [|by exists k]. intros id days (p & Hp & Hd).
  assert (Hin : (id, Some days) ∈ plans) by (rw Heq; apply list_elem_of_fmap; exists (id, p); by rw -Hd).
  destruct (Hdone _ Hin) as [k' Hk']. exists k'. by apply redacted_before_stable with (w_db w1).
Qed.

(** ** The trial mails and the whole pass *)

Definition history_same (a b : RDB) : Prop :=
  r_telemetry b = r_telemetry a /\ r_audit b = r_audit a /\ r_copilot b = r_copilot a.
#[local] Instance history_same_preorder : PreOrder history_same.
Proof. unfold history_same. split; [by intros a|]. intros a b c (?&?&?) (?&?&?). split_and!; congruence. Qed.

Local Abbreviation quiet m := (runs (fun _ => True) m history_same (fun _ _ => True) (fun _ => True)).

Lemma quiet_exec stmt : (forall d n d', stmt d = Some (n, d') -> history_same d d') -> quiet (exec_stmt outcomes stmt).
Proof.
  intros H w _. unfold exec_stmt. destruct (stmt (w_db w)) as [[n d]|] eqn:E; [apply H in E|];
    destruct (outcomes (w_calls w)) as [|c []|]; eexists _, _; (split; [reflexivity|]); by split.
Qed.
Lemma quiet_bind {A B} (m : Sweep A) (f : A -> Sweep B) : quiet m -> (forall a, quiet (f a)) -> quiet (m ≫= f).
Proof. intros Hm Hf. eapply runs_bind; [apply _|exact Hm|exact Hf]. Qed.
Lemma quiet_logged {A} (d : A) m : quiet m -> quiet (logged d m).
Proof.
  intros Hm w Hw. destruct (Hm w Hw) as (r & w' & H & HR & _). unfold logged. rw H.
  destruct r; eexists _, w'; by split.
Qed.
Lemma quiet_for_each {A} (l : list A) body : (forall x, quiet (body x)) -> quiet (for_each l body).
Proof.
  intros Hb. induction l as [|x l IH]; cbn; [by apply runs_ret; [apply _|]|]. by apply quiet_bind.
Qed.
Lemma quiet_query {A} (q : Time -> RDB -> list A) : quiet (query outcomes clock q).
Proof. intros w _. unfold query. destruct (outcomes (w_calls w)); eexists _, _; (split; [reflexivity|]); by split. Qed.
Lemma quiet_mret {A} (a : A) : quiet (mret a).
Proof. by apply runs_ret; [apply _|]. Qed.
Lemma quiet_mails template r props : quiet (mail_both template r props).
Proof.
  unfold mail_both. apply quiet_bind; [case_match; [apply quiet_mret|]|intros _]; intros w _; eexists _, _; (split; [reflexivity|]); by split.
Qed.

Lemma trial_mails_runs : quiet (sendTrialRemindersAndExpirationEmails outcomes clock owners emailBridge).
Proof.
  unfold sendTrialRemindersAndExpirationEmails. destruct emailBridge; cbn; [|apply quiet_mret].
  apply quiet_bind; [apply quiet_query|intros rs]. apply quiet_bind; [|intros _; apply quiet_bind; [apply quiet_query|intros es]]; apply quiet_for_each; intros r.
  - unfold remind. apply quiet_bind; [apply quiet_mails|intros _]. apply quiet_logged, quiet_bind; [|intros _; apply quiet_mret].
    apply quiet_exec. by intros d n d' [= <- <-].
  - unfold expire. apply quiet_bind.
    + case_match; [|apply quiet_mret]. apply quiet_logged, quiet_bind; [|intros _; apply quiet_mret].
      apply quiet_exec. unfold downgrade_expired. intros d n d'. case_match; [by intros [= <- <-]|done].
    + intros [|]; [|apply quiet_mret]. apply quiet_bind; [apply quiet_mails|intros _]. apply quiet_logged, quiet_bind; [|intros _; apply quiet_mret].
      apply quiet_exec. by intros d n d' [= <- <-].
Qed.

(** A pass ends.  What it does to the history, the three sweeps do. *)
Lemma runOnce_runs w : ready (w_db w) ->
  exists outcome w' d, runOnce shipped_schema scan cfg outcomes clock owners emailBridge fuel w = Some (Ok outcome, w')
    /\ K (w_db w) d /\ history_same d (w_db w') /\ (healthy_calls -> enforced d).
Proof using Hscan Hbatch.
  intros Hw. unfold runOnce, run_steps.
  destruct (sweepTelemetry_runs w Hw) as (r1 & w1 & -> & HR1 & Hq1).
  assert (Hw1 : ready (w_db w1)) by (by apply ready_stable with (w_db w)).
  destruct (sweepAudit_runs w1 Hw1) as (r2 & w2 & H2 & HR2 & Hq2).
  assert (Hw2 : ready (w_db w2)) by (by apply ready_stable with (w_db w1)).
  destruct (sweepCopilot_runs w2 Hw2) as (r3 & w3 & H3 & HR3 & Hq3).
  destruct (trial_mails_runs w3 I) as (r4 & w4 & H4 & HR4 & _).
  assert (HK2 : K (w_db w) (w_db w2)) by (by etrans). assert (HK3 : K (w_db w) (w_db w3)) by (by etrans).
  destruct r1 as [?|[]]; [|exists "cancelled", w1, (w_db w1); (do 2 (split; [done|])); split; [reflexivity|intros Hh; by specialize (Hq1 Hh)]|];
    rw H2; (destruct r2 as [?|[]]; [|exists "cancelled", w2, (w_db w2); (do 2 (split; [done|])); split; [reflexivity|intros Hh; by specialize (Hq2 Hh)]|]);
    rw H3; (destruct r3 as [?|[]]; [|exists "cancelled", w3, (w_db w3); (do 2 (split; [done|])); split; [reflexivity|intros Hh; by destruct (Hq3 Hh)]|]);
    rw H4; destruct r4 as [?|[]]; eexists _, w4, (w_db w3); (split; [reflexivity|]); (do 2 (split; [done|])); intros Hh; first [by destruct (Hq3 Hh)|by apply Hq3].
Qed.
End Pass.

(** * Cutoffs *)

(** Windows of up to 106751 days do not overflow a [time.Duration]. *)
Definition maxDays : Z := 106751.
Lemma cutoff_of_small now days : 0 <= days <= maxDays -> cutoff_of now days = now - days * Day.
Proof.
  unfold maxDays, cutoff_of. intros H. rw wrap64_id; unfold int64_min, int64_max, Day, Hour, Minute, Second; lia.
Qed.
Lemma stale_older clock days t : 0 <= days <= maxDays -> past_window clock days t -> exists k, t < clock k - days * Day.
Proof.
  intros Hd [k Hk]. exists k. rw cutoff_of_small in Hk; [|done]. pose proof (Truncate_micro_bounds (clock k - days * Day)).
  unfold pg_ts in Hk. lia.
Qed.
Lemma withDefaults_batch c : 0 < rc_BatchSize (withDefaults c).
Proof. cbn. unfold or_default. destruct (Z.leb_spec (rc_BatchSize c) 0); lia. Qed.
Lemma withDefaults_ttl c : 0 < rc_CopilotSessionTTLDays (withDefaults c).
Proof. cbn. unfold or_default. destruct (Z.leb_spec (rc_CopilotSessionTTLDays c) 0); lia. Qed.

(** Every window of the deployment fits. *)
Definition windows_fit (cfg : Config) (t : Tenants.TDB) : Prop :=
  rc_DefaultRetentionDays cfg <= maxDays /\ rc_CopilotSessionTTLDays cfg <= maxDays
  /\ Forall (fun p => forall days, pl_RetentionDays p = Some days \/ pl_CopilotTranscriptRetentionDays p = Some days -> 0 <= days <= maxDays) (d_plans t).

Lemma telemetry_window_fits cfg t days : windows_fit cfg t -> telemetry_window cfg t days -> 0 <= days <= maxDays.
Proof.
  intros (Hd & _ & Hp) [Hpos [->|(p & Hin & _ & <-)]]; [lia|]. rw Forall_forall in Hp. specialize (Hp p Hin).
  destruct (pl_RetentionDays p) as [d|] eqn:E; cbn in *; [apply Hp; by left|lia].
Qed.
Lemma transcript_window_fits cfg t id days : windows_fit cfg t -> transcript_window t id days -> 0 <= days <= maxDays.
Proof.
  intros (_ & _ & Hp) (p & Hin & Hd). rw Forall_forall in Hp. unfold tenant_plans in Hin.
  apply list_elem_of_bind in Hin as (r & Hin & _). apply list_elem_of_bind in Hin as (q & [= -> ->]%list_elem_of_singleton & [_ Hq]%list_elem_of_filter).
  apply (Hp q Hq). unfold transcript_days in Hd. destruct (pl_CopilotTranscriptRetentionDays q); [right|left]; congruence.
Qed.

(** * What the sweeper means to do and cannot *)

(** A tombstoned event no longer carries its digest: had the triggers let the update
    through, the chain would not verify any more, unless the event and its tombstone
    themselves were a SHA-256 collision. *)
Theorem tombstone_breaks_chain p W1 e W2 :
  event_wf e = true -> event_wf (tombstone e) = true -> actor_Email (ev_Actor e) <> "" \/ resource_Name (ev_Resource e) <> "" ->
  linked p (W1 ++ e :: W2) -> linked p (W1 ++ tombstone e :: W2) -> collide e (tombstone e).
Proof.
  intros We Wt Hpii [_ (_ & He & Hn & _)%linked_cons]%linked_app [_ (_ & Ht & _ & _)%linked_cons]%linked_app.
  assert (Hh : ComputeHash e = ComputeHash (tombstone e)) by (by rw -He -Ht).
  destruct (hash_binds e (tombstone e) We Wt) as [[_ _ _ Ha _ Hr]|]; [congruence|done| |done].
  destruct Hpii as [[]|[]]; [by rw Ha|by rw Hr].
Qed.

(** One execution event past the window stops the telemetry sweep at its first
    statement: the shipped trigger refuses the deletion. *)
Theorem stale_event_stops_telemetry scan c outcomes clock fuel w p days e now :
  (forall A (l : list A), scan A l ≡ₚ l) -> (forall k, outcomes k = Fine) -> (forall k, clock k = now) ->
  head (filter (fun p => pl_ID p = "free") (d_plans (r_tenants (w_db w)))) = Some p -> pl_RetentionDays p = Some days -> 0 < days ->
  e ∈ t_events (r_telemetry (w_db w)) -> vr_Timestamp e < pg_ts (cutoff_of now days) ->
  exists w', sweepTelemetry shipped_schema scan (withDefaults c) outcomes clock (S fuel) w = Some (Err EDatabase, w') /\ w_db w' = w_db w.
Proof.
  intros Hscan Hfine Hclock Hp Hd Hpos He Hold. unfold sweepTelemetry, defaultRetentionDays, query, mbind, sweep_bind, Retention.now.
  rw Hfine. destruct (filter _ _) as [|q l] eqn:E; [done|]. injection Hp as ->. cbn [map]. rw Hd. change (default 0 (Some days)) with days.
  destruct (Z.leb_spec days 0); [lia|]. cbv beta. rw Hclock. cbn [for_each telemetry_steps batches]. unfold mbind, sweep_bind, ctx_err. rw Hfine. cbn [w_db next_call].
  unfold exec_stmt. rw Hfine. cbn [w_db next_call].
  assert (Hnone : delete_events shipped_schema scan (rc_BatchSize (withDefaults c)) (cutoff_of now days) (w_db w) = None).
  { unfold delete_events. set (victims := limit_rows _ _ _). destruct (forallb _ _) eqn:F; [|done]. exfalso. apply forallb_const_false in F.
    pose proof (victims_affected scan Hscan (rc_BatchSize (withDefaults c)) vr_ID (fun e => vr_Timestamp e < pg_ts (cutoff_of now days))
                  (t_events (r_telemetry (w_db w)))) as Hl. cbv zeta in Hl. fold victims in Hl. rw F in Hl. cbn in Hl.
    assert (Hv : vr_ID e ∈ victims).
    { apply limit_rows_all; [done| |by apply list_elem_of_fmap_2, list_elem_of_filter].
      fold victims. pose proof (withDefaults_batch c). lia. }
    destruct victims; [by apply not_elem_of_nil in Hv|cbn in Hl; lia]. }
  rw Hnone. by eexists.
Qed.

(** * The properties *)

(** What a pass may take from the telemetry and from the assistant's tables. *)
Record telemetry_kept (cfg : Config) (T : Tenants.TDB) (older : Z -> Time -> Prop) (a b : TelemetryStore.TDB) : Prop := {
  tk_spans : t_spans b ⊆ t_spans a;
  tk_spans_gone s : s ∈ t_spans a -> s ∈ t_spans b
    \/ ((exists days, telemetry_window cfg T days /\ older days (sr_StartedAt s)) /\ ~ has_event a (TelemetryStore.sr_ID s));
  tk_execs : t_executions b ⊆ t_executions a;
  tk_execs_gone x : x ∈ t_executions a -> x ∈ t_executions b
    \/ ((exists days, telemetry_window cfg T days /\ older days (xr_StartedAt x)) /\ ~ execution_has_event a (xr_ID x))
}.
Record copilot_kept (cfg : Config) (T : Tenants.TDB) (older : Z -> Time -> Prop) (expired : Message -> Prop) (a b : CDB) : Prop := {
  ck_usage : c_usage b = c_usage a;
  ck_sessions : c_sessions b ⊆ c_sessions a;
  ck_sessions_gone r : r ∈ c_sessions a -> r ∈ c_sessions b
    \/ (older (rc_CopilotSessionTTLDays cfg) (cs_UpdatedAt (sr_Session r))
        /\ forall m, m ∈ c_messages a -> cm_SessionID m = session_id r -> cm_Redacted m = true \/ expired m);
  ck_messages m : m ∈ c_messages b -> m ∈ c_messages a \/ exists m0, m0 ∈ c_messages a /\ m = redact_message m0;
  ck_messages_gone m : m ∈ c_messages a -> m ∈ c_messages b
    \/ (expired m /\ redact_message m ∈ c_messages b)
    \/ ((cm_Redacted m = true \/ expired m) /\ session_dropped (older (rc_CopilotSessionTTLDays cfg)) a b (cm_SessionID m));
  ck_activity : c_activity b ⊆ c_activity a;
  ck_activity_gone r : r ∈ c_activity a -> r ∈ c_activity b
    \/ (exists days, transcript_window T (ca_TenantID (ar_Activity r)) days /\ older days (ca_CreatedAt (ar_Activity r)))
    \/ session_dropped (older (rc_CopilotSessionTTLDays cfg)) a b (ca_SessionID (ar_Activity r))
}.

(** C38: The sweeper touches no recorded history, and that is a defect: its header
    (sweeper.go:7-21) says that execution events past the window are deleted and audit
    events tombstoned, but the shipped triggers refuse every such statement.  Whatever
    fails, a pass ends with the audit log, the execution events and the causality
    edges exactly as they were, however old.  What does go is bounded by the windows: only
    spans and executions that carry no event and are older than the telemetry window;
    a message loses its text only past its tenant's window; a session goes only when
    idle beyond the session window with every message redacted or past the window, and
    takes its messages and activity along; an activity row goes only with its session or past its
    tenant's window; usage counters stay, and nothing is added. *)
Theorem sweep_keeps_history scan c outcomes clock owners emailBridge fuel w :
  (forall A (l : list A), scan A l ≡ₚ l) -> db_ok (w_db w) -> (remaining (w_db w) < fuel)%nat ->
  let cfg := withDefaults c in let T := r_tenants (w_db w) in windows_fit cfg T ->
  let older days t := exists k, t < clock k - days * Day in
  let expired m := exists days, transcript_window T (cm_TenantID m) days /\ older days (cm_CreatedAt m) in
  exists outcome w', runOnce shipped_schema scan cfg outcomes clock owners emailBridge fuel w = Some (Ok outcome, w')
    /\ db_ok (w_db w')
    /\ r_audit (w_db w') = r_audit (w_db w)
    /\ t_events (r_telemetry (w_db w')) = t_events (r_telemetry (w_db w))
    /\ t_causality (r_telemetry (w_db w')) = t_causality (r_telemetry (w_db w))
    /\ telemetry_kept cfg T older (r_telemetry (w_db w)) (r_telemetry (w_db w'))
    /\ copilot_kept cfg T older expired (r_copilot (w_db w)) (r_copilot (w_db w')).
Proof.
  intros Hscan Hok Hfuel cfg T Hfit older expired.
  destruct (runOnce_runs scan Hscan cfg outcomes clock owners emailBridge fuel (withDefaults_batch c) T w) as (o & w' & d & Hrun & HK & (Ht & Ha & Hc) & _);
    [split; [done|by split]|]. exists o, w'. split; [done|]. specialize (HK Hok). pose proof HK as []. rw Ht Ha Hc.
  split; [by unfold db_ok in *; rw Ht Hc|]. do 3 (split; [done|]).
  assert (Htel : forall t, old_telemetry cfg clock T t -> exists days, telemetry_window cfg T days /\ older days t).
  { intros t (days & Hd & Hst). exists days. split; [done|]. apply stale_older; [by apply telemetry_window_fits with cfg T|done]. }
  assert (Hcon : forall m, old_content clock T (cm_TenantID m) (cm_CreatedAt m) -> expired m).
  { intros m (days & Hd & Hst). exists days. split; [done|]. apply stale_older; [by apply transcript_window_fits with cfg T (cm_TenantID m)|done]. }
  assert (Hact : forall t u, old_content clock T t u -> exists days, transcript_window T t days /\ older days u).
  { intros t u (days & Hd & Hst). exists days. split; [done|]. apply stale_older; [by apply transcript_window_fits with cfg T t|done]. }
  assert (Hidle : forall t, idle cfg clock t -> older (rc_CopilotSessionTTLDays cfg) t).
  { intros t Hst. apply stale_older; [|done]. pose proof (withDefaults_ttl c). split; [unfold cfg; lia|apply Hfit]. }
  assert (Hdrop : forall id, session_dropped (idle cfg clock) (r_copilot (w_db w)) (r_copilot d) id ->
            session_dropped (older (rc_CopilotSessionTTLDays cfg)) (r_copilot (w_db w)) (r_copilot d) id).
  { intros id (r & ? & ? & ? & ?). exists r. split_and!; auto. }
  split; split; auto.
  - intros s Hs. destruct (k_spans_gone s Hs) as [|[? Hn]]; auto.
  - intros x Hx. destruct (k_execs_gone x Hx) as [|[? Hn]]; auto.
  - intros r Hr. destruct (k_sessions_gone r Hr) as [|[? Hm]]; [by left|right]. split; [auto|]. intros m Hin Hs.
    destruct (Hm m Hin Hs); auto.
  - intros m Hm. destruct (k_messages_gone m Hm) as [|[[? ?]|[[?|?] ?]]]; auto 7.
  - intros r Hr. destruct (k_activity_gone r Hr) as [|[?|?]]; auto.
Qed.

(** C39: A pass in which no call fails enforces the transcript windows: afterwards no
    message older than its tenant's window has any text left, and every session that
    has been idle for the configured time still holds an unredacted message. *)
Theorem sweep_enforces_windows scan c outcomes clock owners emailBridge fuel w t0 :
  (forall A (l : list A), scan A l ≡ₚ l) -> db_ok (w_db w) -> (remaining (w_db w) < fuel)%nat ->
  let cfg := withDefaults c in let T := r_tenants (w_db w) in windows_fit cfg T ->
  (forall k, outcomes k = Fine) -> (forall k, t0 <= clock k) ->
  (forall m, m ∈ c_messages (r_copilot (w_db w)) -> cm_Redacted m = true -> m = redact_message m) ->
  exists outcome w', runOnce shipped_schema scan cfg outcomes clock owners emailBridge fuel w = Some (Ok outcome, w')
    /\ (forall m days, m ∈ c_messages (r_copilot (w_db w')) -> transcript_window T (cm_TenantID m) days ->
          cm_CreatedAt m < pg_ts (t0 - days * Day) -> cm_Content m = "" /\ cm_Parts m = None /\ cm_Redacted m = true)
    /\ (forall r, r ∈ c_sessions (r_copilot (w_db w')) ->
          cs_UpdatedAt (sr_Session r) < pg_ts (t0 - rc_CopilotSessionTTLDays cfg * Day) ->
          exists m, m ∈ c_messages (r_copilot (w_db w')) /\ cm_SessionID m = session_id r /\ cm_Redacted m = false).
Proof.
  intros Hscan Hok Hfuel cfg T Hfit Hfine Ht0 Hblank.
  destruct (runOnce_runs scan Hscan cfg outcomes clock owners emailBridge fuel (withDefaults_batch c) T w) as (o & w' & d & Hrun & HK & (_ & _ & Hc) & Hen);
    [split; [done|by split]|]. exists o, w'. split; [done|]. rw Hc. destruct (Hen Hfine) as [Hred [k Hidle]].
  assert (Hcut : forall k days t, 0 <= days <= maxDays -> t < pg_ts (t0 - days * Day) -> t < pg_ts (cutoff_of (clock k) days)).
  { intros j days t Hd Ht. rw cutoff_of_small; [|done]. unfold pg_ts in *.
    pose proof (Truncate_micro_mono (t0 - days * Day) (clock j - days * Day)). specialize (Ht0 j). lia. }
  split.
  - intros m days Hm Hw Hold. destruct (Hred _ _ Hw) as [j Hj].
    assert (Hr : cm_Redacted m = true) by (apply Hj; [done|done|]; apply Hcut; [by apply transcript_window_fits with cfg T (cm_TenantID m)|done]).
    destruct (k_messages _ _ _ _ _ (HK Hok) m Hm) as [Hin|(m0 & Hin & ->)]; [|done]. by rw (Hblank m Hin Hr).
  - intros r Hr Hold. assert (Hl : has_live_message (r_copilot d) (session_id r) = true).
    { apply Hidle; [done|]. apply Hcut; [|done]. pose proof (withDefaults_ttl c). split; [unfold cfg; lia|apply Hfit]. }
    unfold has_live_message in Hl. apply existsb_exists in Hl as (m & Hin & [Hid%bool_decide_eq_true Hm]%andb_prop).
    exists m. split; [by apply list_elem_of_In|]. split; [done|]. by destruct (cm_Redacted m).
Qed.

(** * A small deployment *)

Definition demo_now : Time := 200 * Day.
Definition demo_plan : Plan := MkPlan "free" "Free" (Some 30) None None None "".
Definition demo_tenants : Tenants.TDB :=
  Tenants.MkTDB [MkTenantRow "t1" "One" 0 None "free" None None (JObj [])] [] [] [demo_plan] [].
Definition demo_span (id : string) (started : Time) (seq : Z) : SpanRow :=
  MkSpanRow id "x1" None "tool_call" "s" "running" started None (JObj []) (JObj []) None seq.
Definition demo_execution (id : string) (started : Time) : ExecRow :=
  MkExecRow id "t1" "a" "a" "running" "" "" started None (JObj []) started.
(** An old span without events, one with an event, an old execution without spans. *)
Definition demo_telemetry : TelemetryStore.TDB :=
  TelemetryStore.MkTDB [demo_execution "x1" 0; demo_execution "x2" 0] [demo_span "s1" 0 1; demo_span "s2" (190 * Day) 2] []
    [MkEventRow "e1" "x1" "s2" "log" None 0 "application/json" (190 * Day) (JObj []) 1] 2 1.
Definition demo_session (id : string) (updated : Time) : SessionRow :=
  MkSessionRow (MkSession id "t1" "u1" "o1" "" 0 updated) None.
Definition demo_message (id session : string) (created : Time) : Message :=
  MkMessage id session "t1" "user" "hello" None false created.
Definition demo_copilot : CDB :=
  MkCDB [demo_session "c1" 0; demo_session "c2" (199 * Day)] [demo_message "m1" "c1" 0; demo_message "m2" "c2" (199 * Day)] [] [].
Definition demo_world : RWorld := MkRWorld (MkRDB demo_telemetry (MkDB [] 0) demo_tenants demo_copilot [] []) 0 [].
Definition demo_config : Config := MkConfig 0 1 0 0.

Ltac each_elem := repeat match goal with
  | H : _ ∈ [] |- _ => by apply not_elem_of_nil in H
  | H : _ ∈ _ :: _ |- _ => apply elem_of_cons in H as [->|H]
  end.

Lemma demo_ok : db_ok (w_db demo_world).
Proof.
  split; [|split; [by apply (bool_decide_unpack _); vm_compute|by apply (bool_decide_unpack _); vm_compute
    |intros m Hm; cbn in Hm; each_elem; by apply (bool_decide_unpack _); vm_compute|constructor]].
  split; cbn; try by apply (bool_decide_unpack _); vm_compute.
  - repeat constructor; vm_compute; done.
  - repeat constructor; vm_compute; done.
  - by intros r Hr; each_elem.
  - by intros r Hr; each_elem.
  - by intros r Hr; each_elem.
  - by intros r Hr; each_elem.
  - by intros r p Hr; each_elem.
  - by intros a b H; each_elem.
  - by intros e He; each_elem.
Qed.
Lemma demo_fit : windows_fit (withDefaults demo_config) demo_tenants.
Proof.
  unfold windows_fit, maxDays. cbn. split; [lia|]. split; [lia|]. constructor; [|constructor]. intros days [[= <-]|?]; [lia|done].
Qed.

Definition demo_run : option (result SweepErr string * RWorld) :=
  runOnce shipped_schema (fun _ l => l) (withDefaults demo_config) (fun _ => Fine) (fun _ => demo_now) (fun _ => []) false 20 demo_world.
Example demo_pass :
  (fun rw => (rw.1, map TelemetryStore.sr_ID (t_spans (r_telemetry (w_db rw.2))), map xr_ID (t_executions (r_telemetry (w_db rw.2))),
              map session_id (c_sessions (r_copilot (w_db rw.2))), map cm_ID (c_messages (r_copilot (w_db rw.2))))) <$> demo_run
  = Some (Ok "ok", ["s2"], ["x1"], ["c2"], ["m2"]).
Proof. vm_compute. reflexivity. Qed.

(** The same deployment with an execution event and an audit row past every window. *)
Definition stale_world : RWorld :=
  let t := TelemetryStore.MkTDB (t_executions demo_telemetry) (t_spans demo_telemetry) []
    [MkEventRow "e1" "x1" "s2" "log" None 0 "application/json" 0 (JObj []) 1] 2 1 in
  let e := MkEvent "evt_1" "t1" 0 (MkActor "u1" "human" "u1@example.com") "read" (MkResource "d1" "doc" "Plan") "success" None GenesisHash "h" 1 in
  MkRWorld (MkRDB t (MkDB [e] 1) demo_tenants demo_copilot [] []) 0 [].
Lemma stale_ok : db_ok (w_db stale_world).
Proof.
  destruct demo_ok as [[] Hc]. split; [|exact Hc]. split; cbn in *; try done.
  all: first [by repeat constructor | by intros e He; each_elem].
Qed.

Lemma sweep_keeps_history_witness : exists outcome w',
  runOnce shipped_schema (fun _ l => l) (withDefaults demo_config) (fun _ => Fine) (fun _ => demo_now) (fun _ => []) false 20 stale_world = Some (Ok outcome, w')
  /\ map (fun e => actor_Email (ev_Actor e)) (db_events (r_audit (w_db w'))) = ["u1@example.com"]
  /\ map vr_ID (t_events (r_telemetry (w_db w'))) = ["e1"].
Proof.
  destruct (sweep_keeps_history (fun _ l => l) demo_config (fun _ => Fine) (fun _ => demo_now) (fun _ => []) false 20 stale_world)
    as (o & w' & H & _ & Ha & He & _); [intros; reflexivity|exact stale_ok|apply Nat.ltb_lt; vm_compute; reflexivity|exact demo_fit|].
  exists o, w'. split; [exact H|]. rw Ha He. split; reflexivity.
Defined.

Lemma sweep_enforces_windows_witness : exists outcome w', demo_run = Some (Ok outcome, w').
Proof.
  destruct (sweep_enforces_windows (fun _ l => l) demo_config (fun _ => Fine) (fun _ => demo_now) (fun _ => []) false 20 demo_world demo_now)
    as (o & w' & H & _); [intros; reflexivity|exact demo_ok|apply Nat.ltb_lt; vm_compute; reflexivity|exact demo_fit|done|done| |].
  - by intros m Hm; cbn in Hm; each_elem.
  - exists o, w'. exact H.
Defined.
