(* ===== verification/CopilotProps.v ===== *)
(** The assistant's transcripts are private to the user who wrote them, whoever else
    uses the service and whatever the retention sweeper does meanwhile. *)
From S2P Require Import Prelude Errors GoTime Json JsonFacts Canonical TimeText Execution Postgres AuditStore TelemetryStore TelemetryFacts CopilotStore Copilot CopilotFacts Tenants Auth Retention RetentionFacts RetentionProps.
Import GoTime.
Local Open Scope Z_scope.

Section Site.
Context `{Hj : Jsonb} (tenant_exists : string -> bool) (scan : forall A : Type, list A -> list A).
Context (Hscan : forall A (l : list A), scan A l ≡ₚ l).
Local Abbreviation repo := (pg_copilot tenant_exists scan).

(** The life of the assistant's tables, with the log of the texts sent: requests of any
    user of any tenant, in any environment and at any time; passes of the sweeper;
    anything else the server does to its other tables. *)
Inductive site_step : list Sent * RDB -> list Sent * RDB -> Prop :=
| step_create env dbnow now now' id aid p t log d :
    site_step (log, d) (log, with_copilot_tables (Copilot.CreateSession (repo env dbnow) now now' id aid p t (r_copilot d)).2 d)
| step_append env dbnow ttl now ids p t sid msgs log d :
    site_step (log, d) (log ++ sent_of t (pr_UserID p) sid msgs,
                        with_copilot_tables (Copilot.AppendMessages (repo env dbnow) ttl now ids p t sid msgs (r_copilot d)).2 d)
| step_activity env dbnow now id p t inp log d :
    site_step (log, d) (log, with_copilot_tables (LogActivity (repo env dbnow) now id p t inp (r_copilot d)).2 d)
| step_usage env dbnow now p t log d :
    site_step (log, d) (log, with_copilot_tables (Copilot.IncrementUsage (repo env dbnow) now p t (r_copilot d)).2 d)
| step_sweep c outcomes clock owners emailBridge fuel w r w' log :
    (remaining (w_db w) < fuel)%nat ->
    runOnce shipped_schema scan (withDefaults c) outcomes clock owners emailBridge fuel w = Some (r, w') ->
    site_step (log, w_db w) (log, w_db w')
| step_other log d d' : r_copilot d' = r_copilot d -> tdb_wf (r_telemetry d') -> site_step (log, d) (log, d').

Definition site_ok (s : list Sent * RDB) : Prop := db_ok s.2 /\ authored s.1 (r_copilot s.2).

Lemma keeps_authored wt wm ws log a b : keeps_history wt wm ws a b -> authored log (r_copilot a) -> authored log (r_copilot b).
Proof.
  intros [] Ha m r Hm Hr Hid. apply k_sessions in Hr. destruct (k_messages m Hm) as [Hin|(m0 & Hin & ->)]; [by apply Ha|].
  cbn in Hid. destruct (Ha m0 r Hin Hr Hid) as [Ht _]. split; [done|by left].
Qed.

Lemma site_step_ok s s' : site_ok s -> site_step s s' -> site_ok s'.
Proof using Hscan.
  intros [[Hw Hc] Ha] Hs. destruct Hs; cbn [fst snd] in *.
  - destruct (CreateSession_ok tenant_exists scan env dbnow log now now' id aid p t (r_copilot d) Hc Ha). by split.
  - destruct (AppendMessages_ok tenant_exists scan env dbnow log ttl now ids p t sid msgs (r_copilot d) Hc Ha). by split.
  - pose proof (LogActivity_quiet tenant_exists scan env dbnow now id p t inp (r_copilot d)) as Hq.
    by destruct (quiet_ok log _ _ Hq Hc Ha).
  - pose proof (usage_quiet tenant_exists env t (pr_UserID p) (currentPeriod now) (r_copilot d)) as Hq.
    by destruct (quiet_ok log _ _ Hq Hc Ha).
  - destruct (runOnce_runs scan Hscan (withDefaults c) outcomes clock owners emailBridge fuel (withDefaults_batch c) (r_tenants (w_db w)) w)
      as (o & w1 & d & Hrun & HK & (Ht & _ & Hcp) & _); [split; [done|by split]|].
    rw H0 in Hrun. injection Hrun as -> ->. specialize (HK (conj Hw Hc)). unfold site_ok, db_ok. cbn. rw Ht Hcp.
    split; [apply (k_ok _ _ _ _ _ HK)|by eapply keeps_authored].
  - unfold site_ok, db_ok. cbn. by rw H.
Qed.

Lemma site_reachable_ok s s' : site_ok s -> rtc site_step s s' -> site_ok s'.
Proof using Hscan. intros H Hr. induction Hr as [|s1 s2 s3 H1 _ IH]; [done|]. apply IH. by eapply site_step_ok. Qed.

Lemma listed_session env t u since d l s : CopilotStore.ListSessions scan env t u since d = Ok l -> s ∈ l ->
  cs_TenantID s = t /\ cs_UserID s = u /\ pg_ts since <= cs_UpdatedAt s.
Proof using Hscan.
  unfold CopilotStore.ListSessions. case_match; [done|]. intros [= <-] Hs%subseteq_take.
  rw elem_of_order_by in Hs. apply list_elem_of_fmap in Hs as (r & -> & Hr). rw Hscan in Hr.
  apply list_elem_of_filter in Hr as [[Ho Hsince] _]. unfold owned in Ho.
  apply andb_prop in Ho as [H1%bool_decide_eq_true H2%bool_decide_eq_true]. done.
Qed.

Lemma listed_message env t u sid d l m : CopilotStore.ListMessages scan env t u sid d = Ok l -> m ∈ l ->
  m ∈ c_messages d /\ cm_SessionID m = sid /\ cm_TenantID m = t
  /\ exists r, r ∈ c_sessions d /\ session_id r = sid /\ cs_UserID (sr_Session r) = u.
Proof using Hscan.
  unfold CopilotStore.ListMessages. case_match; [done|]. intros [= <-]. rw elem_of_order_by Hscan.
  intros [(H1 & H2 & (r & Hr & H3)%Exists_exists) Hm]%list_elem_of_filter. eauto 8.
Qed.
End Site.

(** C40: The assistant's transcripts are private: after any history of requests by any
    users, with the retention sweeper running in between, every message a user lists
    was sent by that user, in that tenant, for that session, or is a tombstone without
    text; the sessions a user lists or opens are the user's own in that tenant and
    within the resume window. *)
Theorem transcripts_private `{Jsonb} tenant_exists scan d0 log d env dbnow ttl now p t :
  (forall A (l : list A), scan A l ≡ₚ l) ->
  tdb_wf (r_telemetry d0) -> r_copilot d0 = empty_cdb -> rtc (site_step tenant_exists scan) ([], d0) (log, d) ->
  let repo := pg_copilot tenant_exists scan env dbnow in
  (forall sid l m, Copilot.ListMessages repo ttl now p t sid (r_copilot d) = Ok l -> m ∈ l ->
     cm_SessionID m = sid /\ cm_TenantID m = t
     /\ ((cm_Redacted m = true /\ cm_Content m = "") \/ MkSent t (pr_UserID p) sid (cm_Content m) ∈ log))
  /\ (forall l s, Copilot.ListSessions repo ttl now p t (r_copilot d) = Ok l -> s ∈ l ->
     cs_TenantID s = t /\ cs_UserID s = pr_UserID p /\ pg_ts (now - ttl) <= cs_UpdatedAt s)
  /\ (forall sid s, Copilot.GetSession repo ttl now p t sid (r_copilot d) = Ok s ->
     cs_ID s = sid /\ cs_TenantID s = t /\ cs_UserID s = pr_UserID p /\ now - ttl <= cs_UpdatedAt s).
Proof.
  intros Hscan Hw Hd0 Hr repo. assert (H0 : site_ok ([], d0)).
  { split; cbn; rw ?Hd0; [split; [done|]; rw Hd0; apply empty_cdb_ok|]. by intros m r ?%not_elem_of_nil. }
  destruct (site_reachable_ok tenant_exists scan Hscan _ _ H0 Hr) as [[_ Hc] Ha]. cbn in Hc, Ha. split; [|split].
  - intros sid l m Hl Hm. unfold Copilot.ListMessages in Hl. apply result_bind_ok in Hl as (sess & Hres & Hl).
    destruct (listed_message scan Hscan env t (pr_UserID p) sid _ l m Hl Hm) as (Hin & Hs & Ht & r & Hr' & Hid & Hu).
    split; [done|]. split; [done|]. destruct (Ha m r Hin Hr') as [Ht' [|Hlog]]; [congruence|by left|right]. congruence.
  - intros l s. by apply listed_session.
  - intros sid s Hs. apply resumable_owned in Hs as [(r & _ & H1 & H2 & H3 & ->) H4]. by split_and!.
Qed.

Section Demo.
#[local] Existing Instance jsonb_plain.
Local Abbreviation in_order := (fun (A : Type) (l : list A) => l).

Definition demo_repo (scan : forall A, list A -> list A) : Repository CDB :=
  @pg_copilot jsonb_plain (fun _ => true) scan healthy (fun _ => 100 * Day).
Definition alice : Copilot.Principal := Copilot.MkPrincipal "u1" "o1".
Definition demo_turn : list MessageInput := [MkMessageInput "m1" "user" "hello" None; MkMessageInput "m2" " assistant " "hi" None].
Definition demo_site0 : RDB := MkRDB empty_tdb (MkDB [] 0) demo_tenants empty_cdb [] [].
Definition demo_site1 (scan : forall A, list A -> list A) : RDB :=
  with_copilot_tables (Copilot.CreateSession (demo_repo scan) (100 * Day) (100 * Day) "c1" "a1" alice "t1" (r_copilot demo_site0)).2 demo_site0.
Definition demo_site2 (scan : forall A, list A -> list A) : RDB :=
  with_copilot_tables (Copilot.AppendMessages (demo_repo scan) (7 * Day) (100 * Day) (fun _ => "") alice "t1" "c1" demo_turn (r_copilot (demo_site1 scan))).2 (demo_site1 scan).
Definition demo_list (scan : forall A, list A -> list A) : res (list Message) :=
  Copilot.ListMessages (demo_repo scan) (7 * Day) (101 * Day) alice "t1" "c1" (r_copilot (demo_site2 scan)).

Lemma demo_reached : rtc (@site_step jsonb_plain (fun _ => true) in_order) ([], demo_site0) (sent_of "t1" "u1" "c1" demo_turn, demo_site2 in_order).
Proof.
  apply rtc_l with ([], demo_site1 in_order); [apply step_create|].
  apply rtc_once, (step_append (fun _ => true) in_order healthy (fun _ => 100 * Day) (7 * Day) (100 * Day) (fun _ => "") alice "t1" "c1" demo_turn []).
Qed.

Definition demo_listed : list Message := match demo_list in_order with Ok l => l | Err _ => [] end.
Lemma demo_listed_eq : demo_list in_order = Ok demo_listed.
Proof. vm_compute. reflexivity. Qed.

Lemma transcripts_private_witness :
  demo_list in_order = Ok demo_listed /\ length demo_listed = 2%nat
    /\ forall m, m ∈ demo_listed -> (cm_Redacted m = true /\ cm_Content m = "") \/ MkSent "t1" "u1" "c1" (cm_Content m) ∈ sent_of "t1" "u1" "c1" demo_turn.
Proof.
  split; [exact demo_listed_eq|]. split; [vm_compute; reflexivity|]. intros m Hm.
  destruct (@transcripts_private jsonb_plain (fun _ => true) in_order demo_site0 _ _ healthy (fun _ => 100 * Day) (7 * Day) (101 * Day) alice "t1"
              (fun A l => reflexivity l) empty_tdb_wf eq_refl demo_reached) as [H _].
  exact (proj2 (proj2 (H "c1" demo_listed m demo_listed_eq Hm))).
Defined.

(** The rows of a batch share one [created_at], the only key of the listing: a server
    that reads them the other way round lists the answer before the question. *)
Example batch_order_is_open :
  (map cm_Content <$> demo_list in_order) = Ok ["hello"; "hi"]
  /\ (map cm_Content <$> demo_list (fun A => @rev A)) = Ok ["hi"; "hello"].
Proof. vm_compute. done. Qed.

(** The text of a submitted query is hashed after it was cut, and stays when the caller
    sends a hash of its own. *)
Definition submitted (m : gmap string json) : gmap string json :=
  activity_metadata (MkActivityInput ActionQuerySubmitted "c1" "" "" (Some m)).
Example query_text_stays :
  submitted (<["content" := JStr "secret"]> (<["content_hash" := JStr ""]> ∅)) !! "content" = Some (JStr "secret")
  /\ submitted (<["content" := JStr "secret"]> ∅) !! "content" = None.
Proof. vm_compute. done. Qed.
Example query_hash_is_of_the_cut :
  let long (c : string) := concat_runes (repeat "x" 600) +:+ c in
  submitted (<["content" := JStr (long "a")]> ∅) !! "content_hash" = submitted (<["content" := JStr (long "b")]> ∅) !! "content_hash".
Proof. vm_compute. reflexivity. Qed.
End Demo.
