(* ===== verification/Requests.v ===== *)
(** Request bodies: transport/rest/body.go, and what encoding/json makes of one.

    A struct is filled member by member: a key matches a field by name, else with
    case folded; null leaves a value and empties a pointer, map or slice; a value of
    another type is an error for the whole body.  A key that is repeated
    exactly counts once, with its last value ([decode] has no repeated keys). *)
From S2P Require Import Prelude Errors GoTime Json JsonFacts JsonText AuditModel TimeText Float64 Execution Collector Postgres Auth AuditHttp Ingestion.
Import GoTime.
Local Open Scope Z_scope.

(** * body.go *)

Definition MaxRequestBodyBytes : Z := Z.shiftl 4 20.
(** A body as the connection delivers it, and whether reading it ended in an error. *)
Record Body := MkBody { bd_text : string; bd_broken : bool }.
Definition body_length (b : Body) : Z := Z.of_nat (String.length (bd_text b)).
Definition too_large : json :=
  JObj [("code", JStr "PAYLOAD_TOO_LARGE"); ("error", JStr "request exceeds 4 MiB limit"); ("max_bytes", JInt MaxRequestBodyBytes)].

(** [None] is no body: the next handler reads an empty one. *)
Definition RequestBodyLimit {S} (next : string -> Handler S) (body : option Body) : Handler S := fun r c s =>
  match body with
  | None => next "" r c s
  | Some b =>
      if MaxRequestBodyBytes <? body_length b then (writeJSON 413 (Some too_large), s)
      else if bd_broken b then (writeError 400 "reading request body", s)
      else next (bd_text b) r c s
  end.

(** [requestDecoder.Decode]: one JSON value and nothing but white space after it. *)
Definition requestValue (text : string) : option json := unmarshal text.
(** Behind [http.MaxBytesReader]. *)
Definition limited (max : Z) (text : string) : option json :=
  if max <? Z.of_nat (String.length text) then None else requestValue text.

(** * Decoding into Go values *)

(** How a JSON value is assigned to what is there. *)
Abbreviation Decoder A := (json -> A -> option A).

Definition get_string : Decoder string := fun v cur =>
  match v with JStr s => Some s | JNull => Some cur | _ => None end.
Definition get_integer (w : Z) : Decoder Z := fun v cur =>
  match v with JNum lit => parse_integer w lit | JNull => Some cur | _ => None end.
Definition get_float : Decoder float64 := fun v cur =>
  match v with JNum lit => parse_float lit | JNull => Some cur | _ => None end.
Definition get_time : Decoder ZTime := fun v cur =>
  match v with JStr s => parse_time s | JNull => Some cur | _ => None end.
Definition get_instant : Decoder Time := fun v cur => zt_instant <$> get_time v (utc cur).
Definition get_any : Decoder json := fun v _ => Some v.
(** A pointer: null is nil, anything else is decoded into what it points to, or into a new [zero]. *)
Definition get_pointer {A} (zero : A) (d : Decoder A) : Decoder (option A) := fun v cur =>
  match v with JNull => Some None | v => Some <$> d v (default zero cur) end.
(** A slice: every element is decoded into a new [zero]. *)
Definition get_slice {A} (zero : A) (d : Decoder A) : Decoder (list A) := fun v _ =>
  match v with JNull => Some [] | JArr l => all_some (map (fun x => d x zero) l) | _ => None end.
(** A map of strings: members are added to the map that is there. *)
Definition get_strmap : Decoder StrMap := fun v cur =>
  match v with
  | JNull => Some None
  | JObj l => Some <$> foldl (fun acc kv => m ← acc; s ← get_string kv.2 ""; Some (<[kv.1 := s]> m)) (Some (default ∅ cur)) l
  | _ => None
  end.
(** A [map[string]interface{}]. *)
Definition get_members : Decoder (option metadata) := fun v cur =>
  match v with
  | JNull => Some None
  | JObj l => Some (Some (foldl (fun m kv => obj_set kv.1 kv.2 m) (default [] cur) l))
  | _ => None
  end.

(** A field: its name and the assignment of a value to it. *)
Abbreviation Field A := (string * Decoder A)%type.
Definition field_for {A} (fields : list (Field A)) (key : string) : option (Decoder A) :=
  match find (fun f => bool_decide (f.1 = key)) fields with
  | Some f => Some f.2
  | None => snd <$> find (fun f => EqualFold key f.1) fields
  end.
Definition get_member {A} (fields : list (Field A)) (acc : option A) (kv : member) : option A :=
  a ← acc; match field_for fields kv.1 with Some d => d kv.2 a | None => Some a end.
Definition get_struct {A} (fields : list (Field A)) : Decoder A := fun v cur =>
  match v with JNull => Some cur | JObj l => foldl (get_member fields) (Some cur) l | _ => None end.
(** A field that is read with [d] and written back with [set]. *)
Definition at_field {A B} (name : string) (d : Decoder B) (get : A -> B) (set : B -> A -> A) : Field A :=
  (name, fun v a => b ← d v (get a); Some (set b a)).

(** * Posted audit events *)

Definition actor_fields : list (Field Actor) := [
  at_field "id" get_string actor_ID (fun x a => MkActor x (actor_Type a) (actor_Email a));
  at_field "type" get_string actor_Type (fun x a => MkActor (actor_ID a) x (actor_Email a));
  at_field "email" get_string actor_Email (fun x a => MkActor (actor_ID a) (actor_Type a) x)].
Definition resource_fields : list (Field Resource) := [
  at_field "id" get_string resource_ID (fun x a => MkResource x (resource_Type a) (resource_Name a));
  at_field "type" get_string resource_Type (fun x a => MkResource (resource_ID a) x (resource_Name a));
  at_field "name" get_string resource_Name (fun x a => MkResource (resource_ID a) (resource_Type a) x)].

Definition zero_wire : wireEvent := MkWire "" None (MkActor "" "" "") "" (MkResource "" "" "") "" None.
Definition wire_fields : list (Field wireEvent) := [
  at_field "id" get_string we_ID
    (fun x w => MkWire x (we_Timestamp w) (we_Actor w) (we_Action w) (we_Resource w) (we_Outcome w) (we_Metadata w));
  at_field "timestamp" (get_pointer zeroTime get_instant) we_Timestamp
    (fun x w => MkWire (we_ID w) x (we_Actor w) (we_Action w) (we_Resource w) (we_Outcome w) (we_Metadata w));
  at_field "actor" (get_struct actor_fields) we_Actor
    (fun x w => MkWire (we_ID w) (we_Timestamp w) x (we_Action w) (we_Resource w) (we_Outcome w) (we_Metadata w));
  at_field "action" get_string we_Action
    (fun x w => MkWire (we_ID w) (we_Timestamp w) (we_Actor w) x (we_Resource w) (we_Outcome w) (we_Metadata w));
  at_field "resource" (get_struct resource_fields) we_Resource
    (fun x w => MkWire (we_ID w) (we_Timestamp w) (we_Actor w) (we_Action w) x (we_Outcome w) (we_Metadata w));
  at_field "outcome" get_string we_Outcome
    (fun x w => MkWire (we_ID w) (we_Timestamp w) (we_Actor w) (we_Action w) (we_Resource w) x (we_Metadata w));
  at_field "metadata" get_members we_Metadata
    (fun x w => MkWire (we_ID w) (we_Timestamp w) (we_Actor w) (we_Action w) (we_Resource w) (we_Outcome w) x)].
Definition decode_wire : Decoder wireEvent := get_struct wire_fields.
Definition batchRequest_fields : list (Field (list wireEvent)) := [("events", get_slice zero_wire decode_wire)].

(** What logEvent and logBatch make of a body. *)
Definition event_body (max : Z) (text : string) : option wireEvent := v ← limited max text; decode_wire v zero_wire.
Definition batch_body (max : Z) (text : string) : option (list wireEvent) :=
  v ← limited max text; get_struct batchRequest_fields v [].

Example batch_body_samples :
  map (fun t => map (fun w => (we_ID w, resource_Name (we_Resource w), we_Timestamp w)) <$> batch_body 100 (apos t))
    ["{'events':[{'id':'e1','RESOURCE':{'Name':'n'}},null]} "; "{'events':null}"; "[]"; "{'events':[{'action':1}]}";
     "{} {}"; "{'events':[{'timestamp':'1970-01-01T00:00:01Z'}]}"]
  = [Some [("e1", "n", None); ("", "", None)]; Some []; None; None; None; Some [("", "", Some 1000000000)]].
Proof. vm_compute. done. Qed.

(** * Telemetry requests *)

Definition zero_payload : PayloadRef := MkPayloadRef JNull 0 "".
Definition payload_fields : list (Field PayloadRef) := [
  at_field "inline" get_any pl_Inline
    (fun x a => MkPayloadRef x (pl_SizeBytes a) (pl_ContentType a));
  at_field "size_bytes" (get_integer 64) pl_SizeBytes
    (fun x a => MkPayloadRef (pl_Inline a) x (pl_ContentType a));
  at_field "content_type" get_string pl_ContentType
    (fun x a => MkPayloadRef (pl_Inline a) (pl_SizeBytes a) x)].
Definition decode_payload : Decoder PayloadRef := get_struct payload_fields.

Definition toolCall_fields : list (Field ToolCallDetail) := [
  at_field "tool_name" get_string tc_ToolName
    (fun x a => MkToolCall x (tc_ToolVersion a) (tc_Input a) (tc_Output a) (tc_DurationMs a));
  at_field "tool_version" get_string tc_ToolVersion
    (fun x a => MkToolCall (tc_ToolName a) x (tc_Input a) (tc_Output a) (tc_DurationMs a));
  at_field "input" (get_pointer zero_payload decode_payload) tc_Input
    (fun x a => MkToolCall (tc_ToolName a) (tc_ToolVersion a) x (tc_Output a) (tc_DurationMs a));
  at_field "output" (get_pointer zero_payload decode_payload) tc_Output
    (fun x a => MkToolCall (tc_ToolName a) (tc_ToolVersion a) (tc_Input a) x (tc_DurationMs a));
  at_field "duration_ms" (get_integer 64) tc_DurationMs
    (fun x a => MkToolCall (tc_ToolName a) (tc_ToolVersion a) (tc_Input a) (tc_Output a) x)].
Definition zero_toolCall : ToolCallDetail := MkToolCall "" "" None None 0.

Definition modelInvocation_fields : list (Field ModelInvocationDetail) := [
  at_field "model_name" get_string mi_ModelName
    (fun x a => MkModelInvocation x (mi_ModelProvider a) (mi_Prompt a) (mi_Completion a) (mi_PromptTokens a)
       (mi_CompletionTokens a) (mi_TotalTokens a) (mi_LatencyMs a) (mi_Temperature a) (mi_SessionID a) (mi_TurnSequence a)
       (mi_PromptName a) (mi_PromptVersion a) (mi_CostUSD a));
  at_field "model_provider" get_string mi_ModelProvider
    (fun x a => MkModelInvocation (mi_ModelName a) x (mi_Prompt a) (mi_Completion a) (mi_PromptTokens a) (mi_CompletionTokens a)
       (mi_TotalTokens a) (mi_LatencyMs a) (mi_Temperature a) (mi_SessionID a) (mi_TurnSequence a) (mi_PromptName a)
       (mi_PromptVersion a) (mi_CostUSD a));
  at_field "prompt" (get_pointer zero_payload decode_payload) mi_Prompt
    (fun x a => MkModelInvocation (mi_ModelName a) (mi_ModelProvider a) x (mi_Completion a) (mi_PromptTokens a)
       (mi_CompletionTokens a) (mi_TotalTokens a) (mi_LatencyMs a) (mi_Temperature a) (mi_SessionID a) (mi_TurnSequence a)
       (mi_PromptName a) (mi_PromptVersion a) (mi_CostUSD a));
  at_field "completion" (get_pointer zero_payload decode_payload) mi_Completion
    (fun x a => MkModelInvocation (mi_ModelName a) (mi_ModelProvider a) (mi_Prompt a) x (mi_PromptTokens a)
       (mi_CompletionTokens a) (mi_TotalTokens a) (mi_LatencyMs a) (mi_Temperature a) (mi_SessionID a) (mi_TurnSequence a)
       (mi_PromptName a) (mi_PromptVersion a) (mi_CostUSD a));
  at_field "prompt_tokens" (get_integer 32) mi_PromptTokens
    (fun x a => MkModelInvocation (mi_ModelName a) (mi_ModelProvider a) (mi_Prompt a) (mi_Completion a) x (mi_CompletionTokens a)
       (mi_TotalTokens a) (mi_LatencyMs a) (mi_Temperature a) (mi_SessionID a) (mi_TurnSequence a) (mi_PromptName a)
       (mi_PromptVersion a) (mi_CostUSD a));
  at_field "completion_tokens" (get_integer 32) mi_CompletionTokens
    (fun x a => MkModelInvocation (mi_ModelName a) (mi_ModelProvider a) (mi_Prompt a) (mi_Completion a) (mi_PromptTokens a) x
       (mi_TotalTokens a) (mi_LatencyMs a) (mi_Temperature a) (mi_SessionID a) (mi_TurnSequence a) (mi_PromptName a)
       (mi_PromptVersion a) (mi_CostUSD a));
  at_field "total_tokens" (get_integer 32) mi_TotalTokens
    (fun x a => MkModelInvocation (mi_ModelName a) (mi_ModelProvider a) (mi_Prompt a) (mi_Completion a) (mi_PromptTokens a)
       (mi_CompletionTokens a) x (mi_LatencyMs a) (mi_Temperature a) (mi_SessionID a) (mi_TurnSequence a) (mi_PromptName a)
       (mi_PromptVersion a) (mi_CostUSD a));
  at_field "latency_ms" (get_integer 64) mi_LatencyMs
    (fun x a => MkModelInvocation (mi_ModelName a) (mi_ModelProvider a) (mi_Prompt a) (mi_Completion a) (mi_PromptTokens a)
       (mi_CompletionTokens a) (mi_TotalTokens a) x (mi_Temperature a) (mi_SessionID a) (mi_TurnSequence a) (mi_PromptName a)
       (mi_PromptVersion a) (mi_CostUSD a));
  at_field "temperature" get_float mi_Temperature
    (fun x a => MkModelInvocation (mi_ModelName a) (mi_ModelProvider a) (mi_Prompt a) (mi_Completion a) (mi_PromptTokens a)
       (mi_CompletionTokens a) (mi_TotalTokens a) (mi_LatencyMs a) x (mi_SessionID a) (mi_TurnSequence a) (mi_PromptName a)
       (mi_PromptVersion a) (mi_CostUSD a));
  at_field "session_id" get_string mi_SessionID
    (fun x a => MkModelInvocation (mi_ModelName a) (mi_ModelProvider a) (mi_Prompt a) (mi_Completion a) (mi_PromptTokens a)
       (mi_CompletionTokens a) (mi_TotalTokens a) (mi_LatencyMs a) (mi_Temperature a) x (mi_TurnSequence a) (mi_PromptName a)
       (mi_PromptVersion a) (mi_CostUSD a));
  at_field "turn_sequence" (get_integer 64) mi_TurnSequence
    (fun x a => MkModelInvocation (mi_ModelName a) (mi_ModelProvider a) (mi_Prompt a) (mi_Completion a) (mi_PromptTokens a)
       (mi_CompletionTokens a) (mi_TotalTokens a) (mi_LatencyMs a) (mi_Temperature a) (mi_SessionID a) x (mi_PromptName a)
       (mi_PromptVersion a) (mi_CostUSD a));
  at_field "prompt_name" get_string mi_PromptName
    (fun x a => MkModelInvocation (mi_ModelName a) (mi_ModelProvider a) (mi_Prompt a) (mi_Completion a) (mi_PromptTokens a)
       (mi_CompletionTokens a) (mi_TotalTokens a) (mi_LatencyMs a) (mi_Temperature a) (mi_SessionID a) (mi_TurnSequence a) x
       (mi_PromptVersion a) (mi_CostUSD a));
  at_field "prompt_version" (get_integer 64) mi_PromptVersion
    (fun x a => MkModelInvocation (mi_ModelName a) (mi_ModelProvider a) (mi_Prompt a) (mi_Completion a) (mi_PromptTokens a)
       (mi_CompletionTokens a) (mi_TotalTokens a) (mi_LatencyMs a) (mi_Temperature a) (mi_SessionID a) (mi_TurnSequence a)
       (mi_PromptName a) x (mi_CostUSD a));
  at_field "cost_usd" get_float mi_CostUSD
    (fun x a => MkModelInvocation (mi_ModelName a) (mi_ModelProvider a) (mi_Prompt a) (mi_Completion a) (mi_PromptTokens a)
       (mi_CompletionTokens a) (mi_TotalTokens a) (mi_LatencyMs a) (mi_Temperature a) (mi_SessionID a) (mi_TurnSequence a)
       (mi_PromptName a) (mi_PromptVersion a) x)].
Definition zero_modelInvocation : ModelInvocationDetail := MkModelInvocation "" "" None None 0 0 0 0 fzero "" 0 "" 0 fzero.

Definition stateMutation_fields : list (Field StateMutationDetail) := [
  at_field "key" get_string sm_Key
    (fun x a => MkStateMutation x (sm_BeforeValue a) (sm_AfterValue a) (sm_MutationType a));
  at_field "before_value" (get_pointer zero_payload decode_payload) sm_BeforeValue
    (fun x a => MkStateMutation (sm_Key a) x (sm_AfterValue a) (sm_MutationType a));
  at_field "after_value" (get_pointer zero_payload decode_payload) sm_AfterValue
    (fun x a => MkStateMutation (sm_Key a) (sm_BeforeValue a) x (sm_MutationType a));
  at_field "mutation_type" get_string sm_MutationType
    (fun x a => MkStateMutation (sm_Key a) (sm_BeforeValue a) (sm_AfterValue a) x)].
Definition zero_stateMutation : StateMutationDetail := MkStateMutation "" None None "".

Definition humanApproval_fields : list (Field HumanApprovalDetail) := [
  at_field "approver_id" get_string ha_ApproverID
    (fun x a => MkHumanApproval x (ha_ApproverName a) (ha_Decision a) (ha_Reasoning a) (ha_DecidedAt a));
  at_field "approver_name" get_string ha_ApproverName
    (fun x a => MkHumanApproval (ha_ApproverID a) x (ha_Decision a) (ha_Reasoning a) (ha_DecidedAt a));
  at_field "decision" get_string ha_Decision
    (fun x a => MkHumanApproval (ha_ApproverID a) (ha_ApproverName a) x (ha_Reasoning a) (ha_DecidedAt a));
  at_field "reasoning" get_string ha_Reasoning
    (fun x a => MkHumanApproval (ha_ApproverID a) (ha_ApproverName a) (ha_Decision a) x (ha_DecidedAt a));
  at_field "decided_at" get_time ha_DecidedAt
    (fun x a => MkHumanApproval (ha_ApproverID a) (ha_ApproverName a) (ha_Decision a) (ha_Reasoning a) x)].
Definition zero_humanApproval : HumanApprovalDetail := MkHumanApproval "" "" "" "" (utc zeroTime).

Definition policyEvaluation_fields : list (Field PolicyEvaluationDetail) := [
  at_field "policy_id" get_string pe_PolicyID
    (fun x a => MkPolicyEvaluation x (pe_PolicyName a) (pe_Result a) (pe_Violations a) (pe_Context a));
  at_field "policy_name" get_string pe_PolicyName
    (fun x a => MkPolicyEvaluation (pe_PolicyID a) x (pe_Result a) (pe_Violations a) (pe_Context a));
  at_field "result" get_string pe_Result
    (fun x a => MkPolicyEvaluation (pe_PolicyID a) (pe_PolicyName a) x (pe_Violations a) (pe_Context a));
  at_field "violations" (get_slice "" get_string) pe_Violations
    (fun x a => MkPolicyEvaluation (pe_PolicyID a) (pe_PolicyName a) (pe_Result a) x (pe_Context a));
  at_field "context" get_strmap pe_Context
    (fun x a => MkPolicyEvaluation (pe_PolicyID a) (pe_PolicyName a) (pe_Result a) (pe_Violations a) x)].
Definition zero_policyEvaluation : PolicyEvaluationDetail := MkPolicyEvaluation "" "" "" [] None.

Definition spanError_fields : list (Field SpanError) := [
  at_field "code" get_string er_Code
    (fun x a => MkSpanError x (er_Message a) (er_StackTrace a));
  at_field "message" get_string er_Message
    (fun x a => MkSpanError (er_Code a) x (er_StackTrace a));
  at_field "stack_trace" get_string er_StackTrace
    (fun x a => MkSpanError (er_Code a) (er_Message a) x)].
Definition zero_spanError : SpanError := MkSpanError "" "" "".

Definition span_fields : list (Field Span) := [
  at_field "id" get_string sp_ID
    (fun x a => MkSpan x (sp_ExecutionID a) (sp_ParentSpanID a) (sp_CausedBySpanIDs a) (sp_SpanType a) (sp_Name a) (sp_Status a)
       (sp_StartedAt a) (sp_EndedAt a) (sp_Metadata a) (sp_ToolCall a) (sp_ModelInvocation a) (sp_StateMutation a)
       (sp_HumanApproval a) (sp_PolicyEvaluation a) (sp_Error a));
  at_field "execution_id" get_string sp_ExecutionID
    (fun x a => MkSpan (sp_ID a) x (sp_ParentSpanID a) (sp_CausedBySpanIDs a) (sp_SpanType a) (sp_Name a) (sp_Status a)
       (sp_StartedAt a) (sp_EndedAt a) (sp_Metadata a) (sp_ToolCall a) (sp_ModelInvocation a) (sp_StateMutation a)
       (sp_HumanApproval a) (sp_PolicyEvaluation a) (sp_Error a));
  at_field "parent_span_id" (get_pointer "" get_string) sp_ParentSpanID
    (fun x a => MkSpan (sp_ID a) (sp_ExecutionID a) x (sp_CausedBySpanIDs a) (sp_SpanType a) (sp_Name a) (sp_Status a)
       (sp_StartedAt a) (sp_EndedAt a) (sp_Metadata a) (sp_ToolCall a) (sp_ModelInvocation a) (sp_StateMutation a)
       (sp_HumanApproval a) (sp_PolicyEvaluation a) (sp_Error a));
  at_field "caused_by_span_ids" (get_slice "" get_string) sp_CausedBySpanIDs
    (fun x a => MkSpan (sp_ID a) (sp_ExecutionID a) (sp_ParentSpanID a) x (sp_SpanType a) (sp_Name a) (sp_Status a)
       (sp_StartedAt a) (sp_EndedAt a) (sp_Metadata a) (sp_ToolCall a) (sp_ModelInvocation a) (sp_StateMutation a)
       (sp_HumanApproval a) (sp_PolicyEvaluation a) (sp_Error a));
  at_field "span_type" get_string sp_SpanType
    (fun x a => MkSpan (sp_ID a) (sp_ExecutionID a) (sp_ParentSpanID a) (sp_CausedBySpanIDs a) x (sp_Name a) (sp_Status a)
       (sp_StartedAt a) (sp_EndedAt a) (sp_Metadata a) (sp_ToolCall a) (sp_ModelInvocation a) (sp_StateMutation a)
       (sp_HumanApproval a) (sp_PolicyEvaluation a) (sp_Error a));
  at_field "name" get_string sp_Name
    (fun x a => MkSpan (sp_ID a) (sp_ExecutionID a) (sp_ParentSpanID a) (sp_CausedBySpanIDs a) (sp_SpanType a) x (sp_Status a)
       (sp_StartedAt a) (sp_EndedAt a) (sp_Metadata a) (sp_ToolCall a) (sp_ModelInvocation a) (sp_StateMutation a)
       (sp_HumanApproval a) (sp_PolicyEvaluation a) (sp_Error a));
  at_field "status" get_string sp_Status
    (fun x a => MkSpan (sp_ID a) (sp_ExecutionID a) (sp_ParentSpanID a) (sp_CausedBySpanIDs a) (sp_SpanType a) (sp_Name a) x
       (sp_StartedAt a) (sp_EndedAt a) (sp_Metadata a) (sp_ToolCall a) (sp_ModelInvocation a) (sp_StateMutation a)
       (sp_HumanApproval a) (sp_PolicyEvaluation a) (sp_Error a));
  at_field "started_at" get_instant sp_StartedAt
    (fun x a => MkSpan (sp_ID a) (sp_ExecutionID a) (sp_ParentSpanID a) (sp_CausedBySpanIDs a) (sp_SpanType a) (sp_Name a)
       (sp_Status a) x (sp_EndedAt a) (sp_Metadata a) (sp_ToolCall a) (sp_ModelInvocation a) (sp_StateMutation a)
       (sp_HumanApproval a) (sp_PolicyEvaluation a) (sp_Error a));
  at_field "ended_at" (get_pointer zeroTime get_instant) sp_EndedAt
    (fun x a => MkSpan (sp_ID a) (sp_ExecutionID a) (sp_ParentSpanID a) (sp_CausedBySpanIDs a) (sp_SpanType a) (sp_Name a)
       (sp_Status a) (sp_StartedAt a) x (sp_Metadata a) (sp_ToolCall a) (sp_ModelInvocation a) (sp_StateMutation a)
       (sp_HumanApproval a) (sp_PolicyEvaluation a) (sp_Error a));
  at_field "metadata" get_strmap sp_Metadata
    (fun x a => MkSpan (sp_ID a) (sp_ExecutionID a) (sp_ParentSpanID a) (sp_CausedBySpanIDs a) (sp_SpanType a) (sp_Name a)
       (sp_Status a) (sp_StartedAt a) (sp_EndedAt a) x (sp_ToolCall a) (sp_ModelInvocation a) (sp_StateMutation a)
       (sp_HumanApproval a) (sp_PolicyEvaluation a) (sp_Error a));
  at_field "tool_call" (get_pointer zero_toolCall (get_struct toolCall_fields)) sp_ToolCall
    (fun x a => MkSpan (sp_ID a) (sp_ExecutionID a) (sp_ParentSpanID a) (sp_CausedBySpanIDs a) (sp_SpanType a) (sp_Name a)
       (sp_Status a) (sp_StartedAt a) (sp_EndedAt a) (sp_Metadata a) x (sp_ModelInvocation a) (sp_StateMutation a)
       (sp_HumanApproval a) (sp_PolicyEvaluation a) (sp_Error a));
  at_field "model_invocation" (get_pointer zero_modelInvocation (get_struct modelInvocation_fields)) sp_ModelInvocation
    (fun x a => MkSpan (sp_ID a) (sp_ExecutionID a) (sp_ParentSpanID a) (sp_CausedBySpanIDs a) (sp_SpanType a) (sp_Name a)
       (sp_Status a) (sp_StartedAt a) (sp_EndedAt a) (sp_Metadata a) (sp_ToolCall a) x (sp_StateMutation a) (sp_HumanApproval a)
       (sp_PolicyEvaluation a) (sp_Error a));
  at_field "state_mutation" (get_pointer zero_stateMutation (get_struct stateMutation_fields)) sp_StateMutation
    (fun x a => MkSpan (sp_ID a) (sp_ExecutionID a) (sp_ParentSpanID a) (sp_CausedBySpanIDs a) (sp_SpanType a) (sp_Name a)
       (sp_Status a) (sp_StartedAt a) (sp_EndedAt a) (sp_Metadata a) (sp_ToolCall a) (sp_ModelInvocation a) x (sp_HumanApproval a)
       (sp_PolicyEvaluation a) (sp_Error a));
  at_field "human_approval" (get_pointer zero_humanApproval (get_struct humanApproval_fields)) sp_HumanApproval
    (fun x a => MkSpan (sp_ID a) (sp_ExecutionID a) (sp_ParentSpanID a) (sp_CausedBySpanIDs a) (sp_SpanType a) (sp_Name a)
       (sp_Status a) (sp_StartedAt a) (sp_EndedAt a) (sp_Metadata a) (sp_ToolCall a) (sp_ModelInvocation a) (sp_StateMutation a) x
       (sp_PolicyEvaluation a) (sp_Error a));
  at_field "policy_evaluation" (get_pointer zero_policyEvaluation (get_struct policyEvaluation_fields)) sp_PolicyEvaluation
    (fun x a => MkSpan (sp_ID a) (sp_ExecutionID a) (sp_ParentSpanID a) (sp_CausedBySpanIDs a) (sp_SpanType a) (sp_Name a)
       (sp_Status a) (sp_StartedAt a) (sp_EndedAt a) (sp_Metadata a) (sp_ToolCall a) (sp_ModelInvocation a) (sp_StateMutation a)
       (sp_HumanApproval a) x (sp_Error a));
  at_field "error" (get_pointer zero_spanError (get_struct spanError_fields)) sp_Error
    (fun x a => MkSpan (sp_ID a) (sp_ExecutionID a) (sp_ParentSpanID a) (sp_CausedBySpanIDs a) (sp_SpanType a) (sp_Name a)
       (sp_Status a) (sp_StartedAt a) (sp_EndedAt a) (sp_Metadata a) (sp_ToolCall a) (sp_ModelInvocation a) (sp_StateMutation a)
       (sp_HumanApproval a) (sp_PolicyEvaluation a) x)].
Definition zero_span : Span :=
  MkSpan "" "" None [] "" "" "" zeroTime None None None None None None None None.

Definition event_fields : list (Field ExecutionEvent) := [
  at_field "id" get_string ee_ID
    (fun x a => MkExecutionEvent x (ee_ExecutionID a) (ee_SpanID a) (ee_EventType a) (ee_Timestamp a) (ee_SequenceNumber a)
       (ee_Payload a) (ee_Metadata a));
  at_field "execution_id" get_string ee_ExecutionID
    (fun x a => MkExecutionEvent (ee_ID a) x (ee_SpanID a) (ee_EventType a) (ee_Timestamp a) (ee_SequenceNumber a) (ee_Payload a)
       (ee_Metadata a));
  at_field "span_id" get_string ee_SpanID
    (fun x a => MkExecutionEvent (ee_ID a) (ee_ExecutionID a) x (ee_EventType a) (ee_Timestamp a) (ee_SequenceNumber a)
       (ee_Payload a) (ee_Metadata a));
  at_field "event_type" get_string ee_EventType
    (fun x a => MkExecutionEvent (ee_ID a) (ee_ExecutionID a) (ee_SpanID a) x (ee_Timestamp a) (ee_SequenceNumber a)
       (ee_Payload a) (ee_Metadata a));
  at_field "timestamp" get_instant ee_Timestamp
    (fun x a => MkExecutionEvent (ee_ID a) (ee_ExecutionID a) (ee_SpanID a) (ee_EventType a) x (ee_SequenceNumber a)
       (ee_Payload a) (ee_Metadata a));
  at_field "sequence_number" (get_integer 64) ee_SequenceNumber
    (fun x a => MkExecutionEvent (ee_ID a) (ee_ExecutionID a) (ee_SpanID a) (ee_EventType a) (ee_Timestamp a) x (ee_Payload a)
       (ee_Metadata a));
  at_field "payload" (get_pointer zero_payload decode_payload) ee_Payload
    (fun x a => MkExecutionEvent (ee_ID a) (ee_ExecutionID a) (ee_SpanID a) (ee_EventType a) (ee_Timestamp a)
       (ee_SequenceNumber a) x (ee_Metadata a));
  at_field "metadata" get_strmap ee_Metadata
    (fun x a => MkExecutionEvent (ee_ID a) (ee_ExecutionID a) (ee_SpanID a) (ee_EventType a) (ee_Timestamp a)
       (ee_SequenceNumber a) (ee_Payload a) x)].
Definition zero_event : ExecutionEvent := MkExecutionEvent "" "" "" "" zeroTime 0 None None.

Definition startRequest_fields : list (Field StartExecutionRequest) := [
  at_field "agent_id" get_string rq_AgentID
    (fun x a => MkStartRequest x (rq_AgentName a) (rq_Trigger a) (rq_Metadata a) (rq_IdempotencyKey a) (rq_StartedAt a));
  at_field "agent_name" get_string rq_AgentName
    (fun x a => MkStartRequest (rq_AgentID a) x (rq_Trigger a) (rq_Metadata a) (rq_IdempotencyKey a) (rq_StartedAt a));
  at_field "trigger" get_string rq_Trigger
    (fun x a => MkStartRequest (rq_AgentID a) (rq_AgentName a) x (rq_Metadata a) (rq_IdempotencyKey a) (rq_StartedAt a));
  at_field "metadata" get_strmap rq_Metadata
    (fun x a => MkStartRequest (rq_AgentID a) (rq_AgentName a) (rq_Trigger a) x (rq_IdempotencyKey a) (rq_StartedAt a));
  at_field "idempotency_key" get_string rq_IdempotencyKey
    (fun x a => MkStartRequest (rq_AgentID a) (rq_AgentName a) (rq_Trigger a) (rq_Metadata a) x (rq_StartedAt a));
  at_field "started_at" (get_pointer zeroTime get_instant) rq_StartedAt
    (fun x a => MkStartRequest (rq_AgentID a) (rq_AgentName a) (rq_Trigger a) (rq_Metadata a) (rq_IdempotencyKey a) x)].
Definition zero_startRequest : StartExecutionRequest := MkStartRequest "" "" "" None "" None.

Definition ingestSpansRequest_fields : list (Field (list (option Span))) :=
  [("spans", get_slice None (get_pointer zero_span (get_struct span_fields)))].
Definition ingestEventsRequest_fields : list (Field (list (option ExecutionEvent))) :=
  [("events", get_slice None (get_pointer zero_event (get_struct event_fields)))].
Definition endRequest_fields : list (Field (Status * option Time)) := [
  at_field "status" get_string fst (fun x a => (x, a.2));
  at_field "ended_at" (get_pointer zeroTime get_instant) snd (fun x a => (a.1, x))].

(** What the telemetry handlers make of a body. *)
Definition start_body (text : string) : option StartExecutionRequest :=
  v ← requestValue text; get_struct startRequest_fields v zero_startRequest.
Definition spans_request (text : string) : option (list (option Span)) :=
  v ← requestValue text; get_struct ingestSpansRequest_fields v [].
Definition events_request (text : string) : option (list (option ExecutionEvent)) :=
  v ← requestValue text; get_struct ingestEventsRequest_fields v [].
Definition end_request (text : string) : option (Status * option Time) :=
  v ← requestValue text; get_struct endRequest_fields v ("", None).

Example spans_request_samples :
  map (fun t => map (option_map (fun s => (sp_ID s, sp_Name s, tc_ToolName <$> sp_ToolCall s, sp_Metadata s))) <$> spans_request (apos t))
    ["{'spans':[{'id':'s1','tool_call':{'tool_name':'ls','duration_ms':3},'metadata':{'k':'v'}},null]}";
     "{'spans':[{'tool_call':{'duration_ms':1.5}}]}"; "{'spans':[{'model_invocation':{'prompt_tokens':2147483648}}]}"; "{}"]
  = [Some [Some ("s1", "", Some "ls", Some {["k" := "v"]}); None]; None; None; Some []].
Proof. vm_compute. done. Qed.
