(* ===== verification/TelemetryHttp.v ===== *)
(** The telemetry HTTP API: the handlers of transport/rest/handler.go.

    A [Backend] is what the requests of one server share: the audit side of
    AuditHttp.v, with the tenants and keys, and the telemetry tables.  The body of a
    request is its text, behind [RequestBodyLimit]; a path parameter is an argument.
    The i-th store call of a request runs in [envs i].  Request ids, logging, CORS and
    compression do not change an answer's status or value and are left out. *)
From S2P Require Import Prelude Errors GoTime Json JsonFacts Canonical AuditModel TimeText Execution Pricing Postgres AuditStore TelemetryStore Lineage Query Ingestion KeyCache Tenants ShareLinks Auth Limits AuditHttp Requests.
Import GoTime.
Local Open Scope Z_scope.

Record Backend := MkBackend { bk_site : Site; bk_telemetry : TelemetryStore.TDB }.
Definition with_site {A} (f : Site -> A * Site) (b : Backend) : A * Backend :=
  let '(a, s) := f (bk_site b) in (a, MkBackend s (bk_telemetry b)).
Definition with_telemetry {A} (f : TelemetryStore.TDB -> A * TelemetryStore.TDB) (b : Backend) : A * Backend :=
  let '(a, d) := f (bk_telemetry b) in (a, MkBackend (bk_site b) d).
(** A handler of the audit side. *)
Definition on_site (h : Handler Site) : Handler Backend := fun r c => with_site (h r c).

(** The key store over the tenant tables of a backend. *)
Definition backend_keystore (env : Env) (dbnow : Time) : KeyStore Backend :=
  let ks := site_keystore env dbnow in {|
    ks_CreateKey k := with_site (ks_CreateKey (KeyStore := ks) k);
    ks_GetKeyByID id := with_site (ks_GetKeyByID (KeyStore := ks) id);
    ks_ListKeys t := with_site (ks_ListKeys (KeyStore := ks) t);
    ks_RevokeKey t id := with_site (ks_RevokeKey (KeyStore := ks) t id);
    ks_RevokeAllKeys t := with_site (ks_RevokeAllKeys (KeyStore := ks) t)
  |}.

(** * What is encoded *)

Definition execution_json (e : Execution) : option json :=
  started ← time_json (utc (ex_StartedAt e)); created ← time_json (utc (ex_CreatedAt e));
  ended ← opt_member "ended_at" (fun t => time_json (utc t)) (ex_EndedAt e);
  Some (JObj ([("id", JStr (ex_ID e)); ("agent_id", JStr (ex_AgentID e)); ("agent_name", JStr (ex_AgentName e));
               ("status", JStr (ex_Status e)); ("root_span_id", JStr (ex_RootSpanID e)); ("trigger", JStr (ex_Trigger e));
               ("started_at", started)] ++ ended ++ [("metadata", strmap_json (ex_Metadata e)); ("created_at", created)])).
(** A slice made with make is never nil. *)
Definition array_json {A} (f : A -> option json) (l : list A) : option json := JArr <$> all_some (map f l).
(** A slice that append grew is nil when nothing was appended. *)
Definition slice_json {A} (f : A -> option json) (l : list A) : option json := nil_null <$> all_some (map f l).
Definition executions_json (p : ListExecutionsResponse) : option json :=
  l ← slice_json execution_json (ls_Executions p);
  Some (JObj [("executions", l); ("total", JInt (ls_Total p)); ("page_size", JInt (ls_PageSize p)); ("offset", JInt (ls_Offset p))]).
Definition node_json (n : DAGNode) : option json :=
  started ← time_json (utc (dn_StartedAt n)); ended ← opt_member "ended_at" (fun t => time_json (utc t)) (dn_EndedAt n);
  Some (JObj ([("id", JStr (dn_ID n)); ("span_id", JStr (dn_SpanID n)); ("name", JStr (dn_Name n));
               ("span_type", JStr (dn_SpanType n)); ("status", JStr (dn_Status n)); ("started_at", started)] ++ ended
              ++ [("duration_ms", JInt (dn_Duration n))]
              ++ match dn_Metadata n with
                 | Some m => omit (bool_decide (m = ∅)) "metadata" (strmap_json (Some m))
                 | None => []
                 end)).
Definition edge_json (e : DAGEdge) : json :=
  JObj [("source", JStr (de_SourceSpanID e)); ("target", JStr (de_TargetSpanID e)); ("edge_type", JStr (de_EdgeType e))].
Definition frame_json (f : ReplayFrame) : option json :=
  event ← event_json (rf_Event f);
  Some (JObj [("sequence_number", JInt (rf_SequenceNumber f)); ("event_type", JStr (rf_EventType f)); ("span_id", JStr (rf_SpanID f));
              ("span_name", JStr (rf_SpanName f)); ("span_type", JStr (rf_SpanType f)); ("event", event);
              ("delta_ms", JInt (rf_DeltaMs f)); ("elapsed_ms", JInt (rf_ElapsedMs f))]).
Definition replay_json (p : ReplayResponse) : option json :=
  exec ← execution_json (rp_Execution p); frames ← array_json frame_json (rp_Frames p);
  Some (JObj [("duration_ms", JInt (rp_DurationMs p)); ("execution", exec); ("frames", frames); ("total_frames", JInt (rp_TotalFrames p))]).

Section Handlers.
Context `{Hj : Jsonb}.
(** The text of an error, with its cause for [errText]; the server's text order and letter case. *)
Variables errText message : AppError -> string.
Variable collate : list string -> list string.
Variable lower : string -> string.
(** The pricing table, and whether redaction is configured. *)
Variable active : gmap string pricing.
Variable entries : list (string * pricing).
Variable redactOn : bool.
(** What a request draws: the clock, the server's time and its store calls. *)
Variables now dbnow : Time.
Variable envs : nat -> Env.

Definition ingestError_json (e : IngestError) : json :=
  JObj [("entity_id", JStr (ie_EntityID e)); ("code", JStr (ie_Code e));
        ("message", JStr (match ie_Message e with Literal s => s | ErrorText a => errText a end))].
(** The answer of a batch: a map, so its keys are sorted. *)
Definition accepted_json (r : Z * list IngestError) : json :=
  JObj [("accepted_count", JInt r.1); ("errors", nil_null (map ingestError_json r.2))].

(** [tenantFromRequest], and what follows it. *)
Definition for_tenant (k : string -> Backend -> Response * Backend) : Handler Backend := fun _ c b =>
  let t := TenantFromContext c in if is_empty t then (writeError 401 "unauthorized", b) else k t b.
(** An operation and its answer. *)
Definition answered {A} (status : Z) (f : A -> option json) (m : TelemetryStore.TDB -> res A * TelemetryStore.TDB) (b : Backend)
    : Response * Backend :=
  let '(r, b) := with_telemetry m b in
  (match r with Ok a => writeJSON status (f a) | Err e => writeAppError message e end, b).
Definition bad_body (b : Backend) : Response * Backend := (writeError 400 "invalid request body", b).

(** ** Ingestion *)

Definition startExecution (text : string) : Handler Backend := for_tenant (fun t b =>
  match start_body text with
  | None => bad_body b
  | Some req => answered 201 execution_json
                  (StartExecution (tenant_known (bk_site b)) redactOn (envs 0%nat) now dbnow t req) b
  end).
Definition ingestSpans (executionID text : string) : Handler Backend := for_tenant (fun t b =>
  match spans_request text with
  | None => bad_body b
  | Some spans =>
      let '(r, b) := with_telemetry (IngestSpans collate lower active entries redactOn envs t executionID spans) b in
      (writeJSON 200 (Some (accepted_json r)), b)
  end).
Definition ingestEvents (executionID text : string) : Handler Backend := for_tenant (fun t b =>
  match events_request text with
  | None => bad_body b
  | Some events =>
      let '(r, b) := with_telemetry (IngestEvents redactOn envs t executionID events) b in
      (writeJSON 200 (Some (accepted_json r)), b)
  end).
Definition endExecution (executionID text : string) : Handler Backend := for_tenant (fun t b =>
  match end_request text with
  | None => bad_body b
  | Some (status, endedAt) => answered 200 execution_json (EndExecutionAt envs now t executionID status endedAt) b
  end).

(** ** Reads *)

Definition listExecutions : Handler Backend := fun r => for_tenant (fun t =>
  answered 200 executions_json
    (query_ListExecutions envs t
       (MkListRequest (atoiOr (rq_Query r "page_size") 20) (atoiOr (rq_Query r "offset") 0) (rq_Query r "agent_id") (rq_Query r "status")))) r.
Definition getExecution (executionID : string) : Handler Backend := for_tenant (fun t =>
  answered 200 execution_json (query_GetExecution envs t executionID)).
Definition getSpans (executionID : string) : Handler Backend := for_tenant (fun t =>
  answered 200 (fun l => spans ← slice_json span_json l; Some (JObj [("spans", spans)])) (query_GetSpansByExecution envs t executionID)).
Definition getDAG (executionID : string) : Handler Backend := for_tenant (fun t =>
  answered 200 (fun p => nodes ← array_json node_json p.1; Some (JObj [("edges", JArr (map edge_json p.2)); ("nodes", nodes)]))
    (GetExecutionDAG envs t executionID)).
Definition getSpan (spanID : string) : Handler Backend := for_tenant (fun t =>
  answered 200 (fun p => events ← slice_json event_json p.2; span ← span_json p.1; Some (JObj [("events", events); ("span", span)]))
    (query_GetSpan envs t spanID)).
Definition getSpanEvents (spanID : string) : Handler Backend := for_tenant (fun t =>
  answered 200 (fun l => events ← slice_json event_json l; Some (JObj [("events", events)])) (GetSpanEvents envs t spanID)).
Definition replayExecution (executionID : string) : Handler Backend := fun r => for_tenant (fun t =>
  answered 200 replay_json
    (ReplayExecution envs t (MkReplayRequest executionID (atoiOr (rq_Query r "from_sequence") 0) (atoiOr (rq_Query r "to_sequence") 0) []))) r.
End Handlers.
