(* ===== verification/Deployment.v ===== *)
(** The server the plugin talks to, as api/fact0/main.go puts it together in the local
    profile: the base middleware, the API key, and the routes the plugin uses.

    [serve] answers one request of the plugin: its body is the printed JSON, its
    headers those of the SDK, and the answer is read back from the printed
    response.  [route] has the plugin's four routes; anything else is refused (with
    404, where the router says 405 for a path it knows with another method).
    Requests draw their clock, fresh ids and failing calls from [draws], one after
    the other. *)
From S2P Require Import Prelude Errors GoTime Json JsonFacts JsonText AuditModel TimeText Float64 Execution Pricing Postgres AuditStore TelemetryStore Ingestion KeyCache Tenants Auth AuditHttp Requests TelemetryHttp Collector Hooks Spool.
Local Open Scope Z_scope.

(** What a request draws from outside the program. *)
Record Draw := MkDraw {
  dr_clock : nat -> Time; dr_event_ids : nat -> string; dr_receipt : string; dr_now : Time; dr_dbnow : Time;
  dr_envs : nat -> Env; dr_keys : Env
}.

(** The SDK's headers; the paths it asks for have no query. *)
Definition plugin_headers (key : string) (name : string) : string :=
  if bool_decide (name = "Authorization") then "Bearer " +:+ key
  else if bool_decide (name = "X-Fact0-Sync") then "true"
  else if bool_decide (name = "Content-Type") then "application/json"
  else "".
Definition plugin_request (key : string) : Request := MkRequest (plugin_headers key) (fun _ => "").

(** [/api/v1/executions/{executionID}/...]: the segment, and what follows it. *)
Fixpoint segment (s : string) : string * string :=
  match s with
  | String c r => if bool_decide (c = slash) then ("", s) else let '(a, b) := segment r in (String c a, b)
  | EmptyString => ("", "")
  end.
Definition executions_path : string := "/api/v1/executions".
Definition execution_path (path : string) : option (string * string) :=
  if has_prefix (executions_path +:+ "/") path then
    let '(id, rest) := segment (str_split 19 path).2 in
    if is_empty id then None else Some (id, rest)
  else None.

(** The number of requests answered so far, and what they share. *)
Abbreviation Server := (nat * Backend)%type.

Section Server.
Context `{Hj : Jsonb} (h : AuditHandler).
Variable maxBatchBodyBytes : Z.
Variable bcrypt_compare : string -> string -> bool.
Variables errText message : AppError -> string.
Variable collate : list string -> list string.
Variable lower : string -> string.
Variable active : gmap string pricing.
Variable entries : list (string * pricing).
Variable redactOn : bool.
Variable draws : nat -> Draw.

(** APIKey and RequireWrite in front of a telemetry route; the local profile has no rate limiter. *)
Definition telemetry_route (d : Draw) (route : Handler Backend) : Handler Backend :=
  APIKey_mw (H := backend_keystore (dr_keys d) (dr_dbnow d)) bcrypt_compare (RequireWrite route).
Definition not_found : Handler Backend := fun _ _ b => (MkResponse 404 [("Content-Type", "text/plain; charset=utf-8")] None, b).

Definition route (d : Draw) (r : HttpRequest) (text : string) : Handler Backend :=
  let post := bool_decide (hr_method r = "POST") in
  if post && bool_decide (hr_path r = "/v1/events/batch") then
    on_site (ingest_route bcrypt_compare (dr_keys d) (dr_dbnow d)
      (post_batch h redactOn (dr_clock d) (dr_event_ids d) (dr_receipt d) (dr_now d) (dr_dbnow d) (dr_envs d) errText message
         (batch_body maxBatchBodyBytes text)))
  else if post && bool_decide (hr_path r = executions_path) then
    telemetry_route d (TelemetryHttp.startExecution message redactOn (dr_now d) (dr_dbnow d) (dr_envs d) text)
  else
    match execution_path (hr_path r) with
    | Some (id, rest) =>
        if post && bool_decide (rest = "/spans") then
          telemetry_route d (TelemetryHttp.ingestSpans errText collate lower active entries redactOn (dr_envs d) id text)
        else if bool_decide (hr_method r = "PUT") && bool_decide (rest = "/end") then
          telemetry_route d (TelemetryHttp.endExecution message (dr_now d) (dr_envs d) id text)
        else not_found
    | None => not_found
    end.

(** json.Encoder: the value and a new line. *)
Definition encoded (v : option json) : string :=
  match v ≫= marshal with Some t => t +:+ String (byte_chr 10) "" | None => "" end.
Definition answer_of (resp : Response) : HttpAnswer :=
  let text := encoded (rs_Body resp) in MkAnswer (rs_Status resp) text (unmarshal text).
Definition body_of (r : HttpRequest) : option Body := (fun v => MkBody (default "" (marshal v)) false) <$> hr_body r.

Definition serve (key : string) (r : HttpRequest) (sv : Server) : HttpAnswer * Server :=
  let '(resp, b) := RequestBodyLimit (route (draws sv.1) r) (body_of r) (plugin_request key) background sv.2 in
  (answer_of resp, (S sv.1, b)).
End Server.
