(* ===== verification/RequestFacts.v ===== *)
(** What a decoder fills in, and what the server reads in the bodies the plugin prints.

    [struct_keeps] and [struct_field] follow one field of a struct through the
    members of an object; with [decode_render_any] they say which ids a printed audit
    event and printed spans arrive with. *)
From S2P Require Import Prelude Errors GoTime Json JsonFacts JsonText Canonical CanonicalFacts AuditModel AuditHash TimeText Float64 Execution AuditService Postgres AuditStore AuditStoreFacts AuditWalk AuditServiceFacts AuditIngest Collector Transcript Hooks Journal Spool Auth AuditHttp Ingestion OutboxFacts Requests.
Local Open Scope Z_scope.

(** * Text *)

Lemma unmarshal_render_any v : json_ok v = true -> nesting v <= maxNestingDepth -> unmarshal (render v) = Some (sane v).
Proof. intros Hok Hn. unfold unmarshal. rw -{2}(str_app_nil_r (render v)). by rw (reads_sane v Hok); [|lia|lia|]. Qed.
(** json.Encoder ends a value with a new line. *)
Lemma unmarshal_line v :
  json_ok v = true -> nesting v <= maxNestingDepth -> unmarshal (render v +:+ String (byte_chr 10) "") = Some (sane v).
Proof. intros Hok Hn. unfold unmarshal. rw str_length_app. by rw (reads_sane v Hok); [|lia|lia|]. Qed.
Lemma unmarshal_wf s v : unmarshal s = Some v -> json_wf v = true /\ nesting v <= maxNestingDepth.
Proof.
  unfold unmarshal. intros ([w r] & H & Hr)%bind_Some. destruct (skip_ws r); [|done]. injection Hr as <-.
  destruct (parse_found (S (2 * String.length s))) as (Hv & _). by destruct (Hv 0 s w r ltac:(done) H).
Qed.
Lemma to_valid_empty s : to_valid s = "" -> s = "".
Proof.
  induction s as [|c s E _|a t Ha _] using text_ind; [done|..].
  - rw to_valid_stray //.
  - rw to_valid_rune //. destruct Ha as [Hne _]. by destruct a.
Qed.

(** * Structs *)

Section Structs.
Context {A : Type}.
Variable fields : list (Field A).

Lemma field_for_in key d : field_for fields key = Some d ->
  exists name, (name, d) ∈ fields /\ (name = key \/ EqualFold key name = true).
Proof.
  unfold field_for. destruct (find _ fields) as [[n d']|] eqn:E.
  - intros [= <-]. apply find_some in E as [Hin Hn%bool_decide_eq_true]. exists n. split; [by apply list_elem_of_In|by left].
  - destruct (find (fun f => EqualFold key f.1) fields) as [[n d']|] eqn:Hf; [|done]. cbn. intros [= <-].
    apply find_some in Hf as [Hin Hn]. exists n. split; [by apply list_elem_of_In|by right].
Qed.
Lemma members_none l : foldl (get_member fields) None l = None.
Proof. induction l as [|kv l IH]; [done|]. exact IH. Qed.

(** A property that every field's decoder keeps, on members that are [ok]. *)
Lemma struct_keeps (P : A -> Prop) (ok : json -> Prop) l a a' :
  Forall (fun f => forall v a a', ok v -> P a -> f.2 v a = Some a' -> P a') fields ->
  Forall (fun kv => ok kv.2) l -> P a -> foldl (get_member fields) (Some a) l = Some a' -> P a'.
Proof.
  intros Hf Hl. revert a. induction Hl as [|kv l Hkv Hl IH]; intros a Ha; cbn [foldl]; [by intros [= <-]|].
  destruct (get_member fields (Some a) kv) as [a1|] eqn:E; [|by rw members_none]. intros H. eapply IH; [|exact H].
  unfold get_member in E. cbn in E. destruct (field_for fields kv.1) as [d|] eqn:Ed; [|by injection E as <-].
  apply field_for_in in Ed as (n & Hin & _). rw Forall_forall in Hf. by eapply (Hf (n, d)).
Qed.

(** The part of a struct that one field fills. *)
Context {B : Type}.
Variables (k : string) (g : A -> B).
Hypothesis Hothers : Forall (fun f => f.1 <> k -> forall v a a', f.2 v a = Some a' -> g a' = g a) fields.
Definition not_key (kv : member) : Prop := kv.1 <> k /\ EqualFold kv.1 k = false.
Lemma struct_skips l a a' : Forall not_key l -> foldl (get_member fields) (Some a) l = Some a' -> g a' = g a.
Proof.
  intros Hl. revert a. induction Hl as [|kv l [Hne Hfold] Hl IH]; intros a; cbn [foldl]; [by intros [= <-]|].
  destruct (get_member fields (Some a) kv) as [a1|] eqn:E; [|by rw members_none]. intros ->%IH.
  unfold get_member in E. cbn in E. destruct (field_for fields kv.1) as [d|] eqn:Ed; [|by injection E as <-].
  apply field_for_in in Ed as (n & Hin & Hn). pose proof (proj1 (Forall_forall _ _) Hothers (n, d) Hin) as Ho. apply Ho in E; [done|].
  cbn. intros ->. destruct Hn as [->|Hn]; [done|]. congruence.
Qed.
(** No key but [k] itself is taken for [k]. *)
Definition plain_key (l : list member) : bool := forallb (fun kv => bool_decide (kv.1 = k) || negb (EqualFold kv.1 k)) l.
Lemma plain_others l : plain_key l = true -> Forall (fun kv => kv.1 <> k) l -> Forall not_key l.
Proof.
  unfold plain_key. intros Hp%forallb_Forall Hk. rw Forall_forall in Hp. rw Forall_forall in Hk. apply Forall_forall.
  intros kv Hkv. split; [by apply Hk|]. specialize (Hp kv Hkv). specialize (Hk kv Hkv). rw bool_decide_eq_false_2 in Hp; [|done].
  cbn in Hp. by apply negb_true_iff in Hp.
Qed.
Lemma struct_field d v x l a a' :
  field_for fields k = Some d -> (forall a a', d v a = Some a' -> g a' = x) ->
  (k, v) ∈ l -> NoDup (map fst l) -> plain_key l = true ->
  foldl (get_member fields) (Some a) l = Some a' -> g a' = x.
Proof.
  intros Hd Hx (l1 & l2 & ->)%list_elem_of_split Hnd Hp. rw map_app in Hnd. cbn [map fst] in Hnd.
  apply NoDup_app in Hnd as (_ & H1 & H2). apply NoDup_cons in H2 as [H2 _].
  unfold plain_key in Hp. rw forallb_app in Hp. apply andb_prop in Hp as [P1 P2]. cbn in P2. apply andb_prop in P2 as [_ P2].
  assert (N2 : Forall not_key l2).
  { apply plain_others; [done|]. apply Forall_forall. intros kv Hkv E. apply H2. rw -E. apply list_elem_of_fmap. by exists kv. }
  rw foldl_app. destruct (foldl _ (Some a) l1) as [a1|]; [|by rw members_none]. cbn [foldl].
  destruct (get_member fields (Some a1) (k, v)) as [a2|] eqn:E; [|by rw members_none].
  unfold get_member in E. cbn in E. rw Hd in E. intros H. rw (struct_skips _ _ _ N2 H). by eapply Hx.
Qed.
End Structs.

(** The other fields leave a field alone: each writes its own. *)
Ltac other_fields := repeat first
  [ apply List.Forall_nil
  | apply List.Forall_cons; [intros Hne v a a' Hv; first [by destruct Hne|apply bind_Some in Hv as (b & _ & [= <-]); reflexivity]|]].
Lemma wire_id_only : Forall (fun f => f.1 <> "id" -> forall v a a', f.2 v a = Some a' -> we_ID a' = we_ID a) wire_fields.
Proof. other_fields. Qed.
Lemma span_id_only : Forall (fun f => f.1 <> "id" -> forall v a a', f.2 v a = Some a' -> sp_ID a' = sp_ID a) span_fields.
Proof. other_fields. Qed.

Lemma all_some_Forall2 {A} (l : list (option A)) r : all_some l = Some r -> Forall2 (fun o x => o = Some x) l r.
Proof.
  revert r. induction l as [|o l IH]; intros r; cbn; [intros [= <-]; constructor|].
  intros (x & -> & (xs & Hl & [= <-])%bind_Some)%bind_Some. constructor; [done|by apply IH].
Qed.

(** * Decoded events can be stored *)

Definition nested_in (n : Z) (v : json) : Prop := json_wf v = true /\ nesting v <= n.
Lemma nested_mono n m v : n <= m -> nested_in n v -> nested_in m v.
Proof. intros H [? ?]. split; [done|lia]. Qed.
Lemma nested_members n l : nested_in n (JObj l) -> Forall (fun kv => utf8_valid kv.1 = true /\ nested_in (n - 1) kv.2) l.
Proof.
  intros [[Hw _]%andb_prop Hn]. cbn [nesting] in Hn. induction l as [|kv l IH]; [constructor|].
  cbn [forallb] in Hw. apply andb_prop in Hw as [[Hk Hv]%andb_prop Hw]. cbn [foldr] in Hn.
  constructor; [split; [done|split; [done|lia]]|]. apply IH; [done|lia].
Qed.
Lemma nested_elements n l : nested_in n (JArr l) -> Forall (nested_in (n - 1)) l.
Proof.
  intros [Hw Hn]. cbn [nesting json_wf] in Hw, Hn. induction l as [|v l IH]; [constructor|].
  cbn [forallb] in Hw. apply andb_prop in Hw as [Hv Hw]. cbn [foldr] in Hn.
  constructor; [split; [done|lia]|]. apply IH; [done|lia].
Qed.

Definition storable (m : option metadata) : Prop := nested_in (maxNestingDepth - 1) (JObj (default [] m)).
Lemma storable_md w : storable (we_Metadata w) -> md_ok (toDomain w) = true.
Proof. intros [Hw Hn]. apply andb_true_intro. split; [done|]. apply Z.ltb_lt. change (md_of (toDomain w)) with (default [] (we_Metadata w)). lia. Qed.
Lemma get_members_storable v m m' : nested_in (maxNestingDepth - 1) v -> storable m -> get_members v m = Some m' -> storable m'.
Proof.
  intros Hv Hm. destruct v as [| | | | |l]; try done; cbn; [by intros [= <-]|]. intros [= <-]. unfold storable. cbn [default from_option].
  unfold storable in Hm. apply nested_members in Hv. revert Hm. generalize (default [] m) as a. clear m.
  induction Hv as [|kv l [Hk [Hw Hn]] Hl IH]; intros a Ha; [done|]. cbn [foldl]. apply IH. destruct Ha as [Ha1 Ha2].
  split; [by apply obj_set_wf|]. pose proof (obj_set_nesting kv.1 kv.2 a). lia.
Qed.
Lemma decode_wire_storable v w w' : nested_in maxNestingDepth v -> storable (we_Metadata w) -> decode_wire v w = Some w' -> storable (we_Metadata w').
Proof.
  intros Hv Hw. unfold decode_wire, get_struct. destruct v as [| | | | |l]; try done; [by intros [= <-]|].
  apply nested_members in Hv. apply (struct_keeps _ (fun w => storable (we_Metadata w)) (nested_in (maxNestingDepth - 1))); [|by eapply Forall_impl; [exact Hv|intros kv [_ ?]]|done].
  unfold wire_fields, at_field. repeat (apply List.Forall_cons || apply List.Forall_nil); cbn [snd]; intros x a a' Hx Ha (b & Hb & [= <-])%bind_Some; try exact Ha.
  exact (get_members_storable _ _ _ Hx Ha Hb).
Qed.
Lemma batch_storable max text ws : batch_body max text = Some ws -> Forall (fun w => md_ok (toDomain w) = true) ws.
Proof.
  unfold batch_body, limited, requestValue. destruct (_ <? _); [done|]. intros (v & Hv%unmarshal_wf & H)%bind_Some.
  enough (Hf : Forall (fun w => storable (we_Metadata w)) ws) by (eapply Forall_impl; [exact Hf|apply storable_md]).
  unfold get_struct in H. destruct v as [| | | | |l]; try done; [by injection H as <-|].
  assert (Hl : Forall (fun kv => nested_in maxNestingDepth kv.2) l).
  { eapply Forall_impl; [exact (nested_members _ _ Hv)|]. intros kv [_ Hk]. eapply nested_mono; [|exact Hk]. lia. }
  eapply (struct_keeps _ (Forall (fun w => storable (we_Metadata w))) (nested_in maxNestingDepth)); [|exact Hl|constructor|exact H].
  repeat constructor. intros x a a' Hx _. cbn. destruct x as [| | | |xs|]; try done; [intros [= <-]; constructor|].
  intros Ha%all_some_Forall2. apply nested_elements in Hx. revert a' Ha. induction Hx as [|y xs Hy Hxs IH]; intros a' Ha; inversion Ha; subst; [constructor|].
  constructor; [|by apply IH]. eapply decode_wire_storable; [eapply nested_mono; [|exact Hy]; lia| |done]. by split.
Qed.

(** * What the plugin prints *)

(** A body encoding/json can print and read: keys are text and not repeated, and the nesting is bounded. *)
Definition sendable (v : json) : bool := json_ok v && (nesting v <=? maxNestingDepth).
Lemma sendable_ok v : sendable v = true -> json_ok v = true /\ nesting v <= maxNestingDepth.
Proof. intros [H1 H2%Z.leb_le]%andb_prop. by split. Qed.

Lemma sane_members l : NoDup (map fst l) -> forall k v, (k, v) ∈ l ->
  NoDup (map fst (map (fun kv : member => (kv.1, sane kv.2)) l)) /\ (k, sane v) ∈ map (fun kv : member => (kv.1, sane kv.2)) l.
Proof.
  intros Hnd k v Hin. split; [by rw map_map|]. apply list_elem_of_fmap. by exists (k, v).
Qed.
Lemma plain_key_sane k l : plain_key k (map (fun kv : member => (kv.1, sane kv.2)) l) = plain_key k l.
Proof. unfold plain_key. induction l as [|kv l IH]; [done|]. cbn. by rw IH. Qed.

(** An object whose [id] is a string decodes to a struct with that id. *)
Lemma object_id {A} (fields : list (Field A)) (g : A -> string) set l id a a' :
  Forall (fun f => f.1 <> "id" -> forall v a a', f.2 v a = Some a' -> g a' = g a) fields ->
  field_for fields "id" = Some (at_field "id" get_string g set).2 -> (forall x a, g (set x a) = x) ->
  json_ok (JObj l) = true -> ("id", JStr id) ∈ l -> plain_key "id" l = true ->
  get_struct fields (sane (JObj l)) a = Some a' -> g a' = to_valid id.
Proof.
  intros Ho Hf Hset [_ Hnd%bool_decide_eq_true]%andb_prop Hin Hp. cbn [sane get_struct].
  destruct (sane_members l Hnd _ _ Hin) as [Hnd' Hin'].
  apply (struct_field fields "id" g Ho _ (sane (JStr id)) (to_valid id) _ a a' Hf); [|exact Hin'|exact Hnd'|by rw plain_key_sane].
  intros b b' (x & [= <-] & [= <-])%bind_Some. apply Hset.
Qed.

(** ** An audit event *)

Definition audit_body (e : AuditEventInput) : json := JObj [("events", JArr [auditInput_json e])].
Lemma field_here {A B} (name : string) (d : Decoder B) (l : list (Field A)) get set :
  field_for (at_field name d get set :: l) name = Some (at_field name d get set).2.
Proof. unfold field_for. cbn. by rw bool_decide_eq_true_2. Qed.
Lemma wire_id e w :
  json_ok (auditInput_json e) = true -> decode_wire (sane (auditInput_json e)) zero_wire = Some w -> we_ID w = to_valid (ai_ID e).
Proof.
  intros Hok. unfold decode_wire, auditInput_json in *. unfold omit_str at 1. unfold omit_str at 1 in Hok.
  set (rest := omit_str "timestamp" (ai_Timestamp e) ++ _) in *.
  assert (Hr : forallb (fun kv => negb (bool_decide (kv.1 = "id")) && negb (EqualFold kv.1 "id")) rest = true).
  { unfold rest, omit_str, omit. destruct (is_empty (ai_Timestamp e)), (ai_Metadata e); vm_compute; reflexivity. }
  clearbody rest. destruct (is_empty (ai_ID e)) eqn:Ee; cbn [omit app] in *.
  - unfold is_empty in Ee. apply bool_decide_eq_true in Ee. rw Ee. cbn [sane get_struct].
    intros H. rw (struct_skips wire_fields "id" we_ID wire_id_only _ _ _ _ H); [done|]. clear -Hr.
    induction rest as [|kv l IH]; [constructor|]. cbn in Hr. apply andb_prop in Hr as [[H1 H2]%andb_prop Hr].
    constructor; [split; cbn|by apply IH]; [by apply negb_true_iff, bool_decide_eq_false in H1|by apply negb_true_iff in H2].
  - apply (object_id wire_fields we_ID _ (("id", JStr (ai_ID e)) :: rest) _ _ _ wire_id_only (field_here _ _ _ _ _)); [done|done|by left|].
    cbn. clear -Hr. induction rest as [|kv l IH]; [done|]. cbn in Hr |- *. apply andb_prop in Hr as [[_ H2]%andb_prop Hr].
    rw H2 orb_true_r. by apply IH.
Qed.
Lemma printed_event max e ws :
  sendable (audit_body e) = true -> batch_body max (render (audit_body e)) = Some ws -> exists w, ws = [w] /\ we_ID w = to_valid (ai_ID e).
Proof.
  intros [Hok Hn]%sendable_ok. unfold batch_body, limited, requestValue. destruct (_ <? _); [done|].
  rw unmarshal_render_any; [|done..]. intros H.
  change (foldl (get_member batchRequest_fields) (Some []) [("events", JArr [sane (auditInput_json e)])] = Some ws) in H.
  assert (H' : all_some [decode_wire (sane (auditInput_json e)) zero_wire] = Some ws) by exact H. clear H.
  cbn [all_some] in H'. apply bind_Some in H' as (w & Hw & [= <-]). exists w. split; [done|].
  apply wire_id; [|done]. cbn in Hok. by rw !andb_true_r in Hok.
Qed.

(** ** Spans *)

(** The id a span payload carries: its only member that is read as [id], a string. *)
Definition payload_id (p : SpanPayload) : option string :=
  match map_value (JObj p) with
  | JObj m => if plain_key "id" m then match field "id" m with Some (JStr s) => Some s | _ => None end else None
  | _ => None
  end.
Definition decode_payload_span (p : SpanPayload) : option Span := get_struct span_fields (sane (map_value (JObj p))) zero_span.
Lemma span_id p s id : json_ok (map_value (JObj p)) = true -> decode_payload_span p = Some s -> payload_id p = Some id -> sp_ID s = to_valid id.
Proof.
  unfold payload_id, decode_payload_span. cbn [map_value]. set (m := merge_sort key_order _). intros Hok Hs.
  destruct (plain_key "id" m) eqn:Hp; [|done]. destruct (field "id" m) as [[| | |x| |]|] eqn:Hf; try done. intros [= <-].
  apply field_elem in Hf. by apply (object_id span_fields sp_ID _ m x _ _ span_id_only (field_here _ _ _ _ _) ltac:(done) Hok Hf Hp Hs).
Qed.
Lemma printed_spans spans l :
  sendable (spans_body spans) = true -> spans_request (render (spans_body spans)) = Some l ->
  Forall2 (fun p o => json_ok (map_value (JObj p)) = true /\ exists s, o = Some s /\ decode_payload_span p = Some s) spans l.
Proof.
  intros [Hok Hn]%sendable_ok. unfold spans_request, requestValue. rw unmarshal_render_any; [|done..]. intros H.
  assert (H' : all_some (map (fun x => get_pointer zero_span (get_struct span_fields) x None)
                           (map sane (map (fun m => map_value (JObj m)) spans))) = Some l) by exact H. clear H Hn.
  apply all_some_Forall2 in H'.
  assert (Hs : forallb (fun p => json_ok (map_value (JObj p))) spans = true).
  { apply andb_prop in Hok as [Hok _]. apply andb_prop in Hok as [Hok _]. apply andb_prop in Hok as [_ Hok].
    change (forallb json_ok (map (fun m => map_value (JObj m)) spans) = true) in Hok. clear -Hok.
    induction spans as [|p l IH]; [done|]. apply andb_prop in Hok as [H1 H2]. apply andb_true_intro. split; [exact H1|by apply IH]. }
  clear Hok. revert l H'. induction spans as [|p spans IH]; intros l H; inversion H as [|? o ? l' Hp Hl]; subst; [constructor|].
  apply andb_prop in Hs as [Hp1 Hs]. constructor; [|by apply IH]. split; [exact Hp1|].
  change (Some <$> decode_payload_span p = Some o) in Hp. apply fmap_Some in Hp as (s & Hd & ->). by exists s.
Qed.
