(* ===== verification/DeliveryFacts.v ===== *)
(** What the server of Deployment.v does with the plugin's requests.

    [kept] relates two states of the backend between which nothing that was stored
    got lost; every request keeps, and one that is confirmed leaves its operation
    stored ([lands]): an audit event on the tenant's chain, spans in the tenant's
    execution, an execution that has ended. *)
From S2P Require Import Prelude SpoolFacts Errors GoTime Json JsonFacts JsonText Canonical CanonicalFacts AuditModel AuditHash TimeText Float64 Execution Pricing Redaction AuditService Postgres AuditStore AuditStoreFacts AuditWalk AuditServiceFacts AuditIngest AuditRepo TelemetryStore TelemetryFacts Ingestion IngestFacts KeyCache Tenants Auth AuthFacts AuthProps AuditHttp AuditHttpProps Collector Hooks Journal Spool Requests TelemetryHttp RequestFacts Deployment.
Import GoTime.
Local Open Scope Z_scope.

(** * A batch of one event *)

Section OneEvent.
Context {St : Type} `{Hrepo : RepositorySpec St}.
Variable redactOn : bool.
Variable clock : nat -> Time.
Variable NewEventID : nat -> string.

Lemma default_id i e : ev_ID e <> "" -> ev_ID (applyRedaction redactOn (applyDefaults clock NewEventID i e)) = ev_ID e.
Proof.
  intros Hne. unfold applyRedaction, applyDefaults. destruct e as [id tn ts ac at_ rs oc md ph h sq]. cbn [ev_ID] in *.
  rw bool_decide_eq_false_2; [|done]. by repeat case_match.
Qed.
Lemma LogBatch_one st sb t e :
  inv st -> md_ok e = true ->
  let '(r, st', _) := LogBatch redactOn clock NewEventID st sb t [Some e] in
  forall b, r = Ok b -> br_Accepted b = 1%nat ->
  exists id, id ∈ map ev_ID (chain_of st' t) /\ (ev_ID e <> "" -> id = ev_ID e).
Proof.
  intros Hi Hm. unfold LogBatch, prepareBatch. case_bool_decide; [done|]. cbn [length].
  change (MaxBatchSize <? 1)%nat with false. cbn [prepare_events]. cbv iota. destruct (Validate (Some e)); [|by intros b [= <-]].
  set (e' := applyRedaction _ _). assert (Hm' : Forall (fun e => md_ok e = true) [e']).
  { repeat constructor. by apply applyRedaction_md, applyDefaults_md. }
  destruct (CommitBatch_extends st t [e'] Hi Hm') as [_ Ho].
  destruct (CommitBatch st t [e']) as [[written|err] st']; [|done]. intros b _ _. exists (ev_ID e').
  split; [apply (Ho _ eq_refl); by left|apply default_id].
Qed.
End OneEvent.

(** An execution that was asked to end has ended. *)
Lemma found_execution d t x r : find_execution d t x = Some r -> r ∈ t_executions d /\ xr_ID r = x /\ xr_TenantID r = t.
Proof. unfold find_execution. by intros [[? ?] ?]%head_Some_elem_of%list_elem_of_filter. Qed.
Lemma GetExecution_row env t x d e d' : GetExecution env t x d = (Ok e, d') ->
  exists r, find_execution d t x = Some r /\ ex_Status e = xr_Status r.
Proof.
  unfold GetExecution, call, mbind, tx_bind, get_db, throw, mret, tx_ret. destruct (fails _ _); [done|].
  destruct (negb _); [done|]. destruct (find_execution d t x) as [r|]; [|done]. destruct (read_strmap _); [|done].
  intros [= <- <-]. by exists r.
Qed.
Lemma execution_unique d r r' : tdb_wf d -> r ∈ t_executions d -> r' ∈ t_executions d -> xr_ID r = xr_ID r' -> r = r'.
Proof. intros Hd. apply key_unique, (wf_exec_ids d Hd). Qed.
Lemma UpdateExecutionStatus_sets env t x st en d u d' r :
  tdb_wf d -> UpdateExecutionStatus env t x st en d = (Ok u, d') ->
  r ∈ t_executions d' -> xr_ID r = x -> xr_Status r = st.
Proof.
  intros Hd Hu Hr Hx. assert (Hd' : tdb_wf d').
  { pose proof (UpdateExecutionStatus_advances env t x st en d Hd) as (Hw & _). by rw Hu in Hw. }
  unfold UpdateExecutionStatus in Hu. unfold mbind, tx_bind in Hu.
  destruct (call env _ _ d) as [[[]|err] d1] eqn:Hc; [| |done].
  - injection Hu as _ ->. unfold call, mbind, tx_bind, get_db, modify, mret, tx_ret, throw in Hc.
    destruct (fails _ _); [done|]. destruct (negb _); [done|]. injection Hc as He <-.
    apply existsb_exists in He as (r1 & Hr1%list_elem_of_In & Ht). pose proof Ht as Ht'. unfold status_target in Ht'.
    apply andb_prop in Ht' as [[Hx1%bool_decide_eq_true _]%andb_prop _].
    assert (E : r = set_status st (pg_ts <$> en) r1); [|by rw E].
    eapply execution_unique; [exact Hd'|done| |by rw Hx -Hx1]. cbn. apply list_elem_of_fmap. exists r1. by rw Ht.
  - destruct (GetExecution env t x d1) as [[e|e] d2] eqn:Hg; [|done].
    pose proof (GetExecution_db env t x d1) as Hdb. rw Hg in Hdb. cbn in Hdb. subst d2.
    case_bool_decide as Hs; [|done]. injection Hu as _ ->. apply GetExecution_row in Hg as (r1 & (Hr1 & Hx1 & _)%found_execution & Hst).
    assert (r = r1) as -> by (eapply execution_unique; [exact Hd'|done|done|congruence]). congruence.
Qed.
Lemma EndExecutionAt_ends envs now t x st en d e d' :
  tdb_wf d -> EndExecutionAt envs now t x st en d = (Ok e, d') ->
  exists r, r ∈ t_executions d' /\ xr_ID r = x /\ xr_TenantID r = t /\ xr_Status r <> StatusRunning.
Proof.
  intros Hd. unfold EndExecutionAt. destruct (negb (bool_decide (st ∈ _))) eqn:Hst; [done|].
  apply negb_false_iff, bool_decide_eq_true in Hst.
  assert (Hnr : st <> StatusRunning) by (intros ->; vm_compute in Hst; set_solver).
  destruct (match en with Some _ => _ | None => _ end); [done|]. cbv zeta. set (end_ := Truncate _ _). unfold mbind, tx_bind at 1.
  pose proof (GetExecution_db (envs 0%nat) t x d) as Hdb.
  destruct (GetExecution (envs 0%nat) t x d) as [[e0|] d0] eqn:Hg; cbn in Hdb; subst d0; [|done].
  apply GetExecution_row in Hg as (r & (Hr & Hx & Ht)%found_execution & Hs).
  destruct (is_none en && _ && _) eqn:Hdone.
  { intros [= <- <-]. exists r. split_and!; [done..|]. apply andb_prop in Hdone as [[_ E%bool_decide_eq_true]%andb_prop _]. congruence. }
  destruct (Before _ _); [done|]. unfold tx_bind.
  destruct (UpdateExecutionStatus _ _ _ _ _ d) as [[[]|err] d1] eqn:Hu; [|done].
  pose proof (GetExecution_db (envs 2%nat) t x d1) as Hdb.
  destruct (GetExecution (envs 2%nat) t x d1) as [[e1|] d2] eqn:Hg; cbn in Hdb; subst d2; [|done].
  apply GetExecution_row in Hg as (r1 & (Hr1 & Hx1 & Ht1)%found_execution & _).
  pose proof (UpdateExecutionStatus_sets _ _ _ _ _ _ _ _ r1 Hd Hu Hr1 Hx1) as Hs1.
  destruct (negb _ && negb _); [done|]. unfold mret, tx_ret. intros [= _ <-]. exists r1. split_and!; [done..|]. congruence.
Qed.

(** * Answers *)

Definition flat (n : Z) (v : json) : Prop := json_ok v = true /\ nesting v <= n.
Lemma flat_arr n l : 0 <= n -> Forall (flat n) l -> flat (1 + n) (JArr l).
Proof.
  intros Hn Hl. split; cbn [json_ok nesting]; induction Hl as [|v l [H1 H2] Hl IH]; cbn [forallb foldr]; try done; try lia. by rw H1 IH.
Qed.
Lemma flat_obj n l :
  0 <= n -> forallb (fun kv => utf8_valid kv.1) l && bool_decide (NoDup (map fst l)) = true -> Forall (fun kv => flat n kv.2) l ->
  flat (1 + n) (JObj l).
Proof.
  intros Hn [Hk Hd]%andb_prop Hl. split; cbn [json_ok nesting]; [rw Hd andb_true_r; clear Hd|clear Hk Hd].
  - induction Hl as [|kv l [H1 _] Hl IH]; [done|]. cbn [forallb] in *. apply andb_prop in Hk as [H3 Hk]. by rw H3 H1 IH.
  - induction Hl as [|kv l [_ H2] Hl IH]; cbn [foldr]; lia.
Qed.
Lemma flat_str n s : 0 <= n -> flat n (JStr s).
Proof. by split. Qed.
Lemma flat_int n z : 0 <= n -> flat n (JInt z).
Proof. intros Hn. split; [apply valid_int|done]. Qed.
Lemma flat_slice n l : 0 <= n -> Forall (flat n) l -> flat (1 + n) (nil_null l).
Proof. intros Hn Hl. destruct l; [split; [done|cbn; lia]|by apply flat_arr]. Qed.
Lemma flat_mono n m v : n <= m -> flat n v -> flat m v.
Proof. intros H [? ?]. split; [done|lia]. Qed.

(** A literal list of members. *)
Ltac flats := repeat (apply List.Forall_cons || apply List.Forall_nil); first [by apply flat_int|by apply flat_str|assumption].
Lemma flat_all {A} n (f : A -> json) l : (forall x, flat n (f x)) -> Forall (flat n) (map f l).
Proof. intros H. by apply Forall_fmap, Forall_true. Qed.

Lemma batch_flat errText b : flat 3 (batchResult_json errText b).
Proof.
  assert (He : flat 2 (JArr (map (batchError_json errText) (br_Errors b)))).
  { apply (flat_arr 1); [done|]. apply flat_all. intros x. apply (flat_obj 0); [done|done|]. flats. }
  assert (Hi : flat 2 (nil_null (map JStr (br_IDs b)))).
  { apply (flat_slice 1); [done|]. apply flat_all. intros x. by apply flat_str. }
  unfold batchResult_json, batch_members, omit. apply (flat_obj 2); [done|by destruct (br_Errors b)|].
  destruct (br_Errors b); flats.
Qed.
Lemma accepted_flat errText r : flat 3 (accepted_json errText r).
Proof.
  assert (He : flat 2 (nil_null (map (ingestError_json errText) r.2))).
  { apply (flat_slice 1); [done|]. apply flat_all. intros x. apply (flat_obj 0); [done|done|]. flats. }
  apply (flat_obj 2); [done|done|]. flats.
Qed.

Lemma confirmed_count resp countField want : checkAcceptance resp countField want = None ->
  exists lit, field countField resp = Some (JNum lit) /\ default 0 (parse_integer 64 lit) = want.
Proof.
  unfold checkAcceptance. intros H. destruct (field "errors" resp) as [[| | | |[|x l]|]|]; try done.
  all: destruct (match usageNumber _ with Some _ => _ | None => _ end); [done|].
  all: destruct (field countField resp) as [[| |number| | |]|]; try done.
  all: destruct (Z.eqb_spec (default 0 (parse_integer 64 number)) want); [by exists number|done].
Qed.
Lemma counted n k : default 0 (parse_integer 64 (pretty n)) = k -> k <> 0 -> n = k.
Proof. rw parse_integer_printed. by destruct (_ || _); cbn; [intros <-|]. Qed.

(** * The backend *)

Section Server.
Context `{Hj : Jsonb} `{Hspec : !JsonbSpec} (h : AuditHandler).
Variable maxBatchBodyBytes : Z.
Variable bcrypt_compare : string -> string -> bool.
Variables errText message : AppError -> string.
Variable collate : list string -> list string.
Variable lower : string -> string.
Variable active : gmap string pricing.
Variable entries : list (string * pricing).
Variable redactOn : bool.
Variable draws : nat -> Draw.
(** The plugin's key, and the tenant it belongs to. *)
Variables key t : string.
Hypothesis Hoss : ah_ossMode h = true.
Local Abbreviation request := (plugin_request key).

Definition keys (b : Backend) : list AuditModel.APIKey := d_keys (si_tenants (bk_site b)).
Definition chain_ids (b : Backend) : list string := map ev_ID (site_chain (bk_site b) t).
(** Whatever stored key the plugin's key opens is one of the tenant. *)
Record good (b : Backend) : Prop := {
  gd_audit : db_wf (si_audit (bk_site b));
  gd_telemetry : tdb_wf (bk_telemetry b);
  gd_keys : forall k, k ∈ keys b -> presents bcrypt_compare request k -> k_TenantID k = t
}.
Record kept (b b' : Backend) : Prop := {
  kp_good : good b';
  kp_ids : forall id, id ∈ chain_ids b -> id ∈ chain_ids b';
  kp_telemetry : TelemetryFacts.evolves (bk_telemetry b) (bk_telemetry b')
}.
Lemma kept_refl b : good b -> kept b b.
Proof. intros Hg. split; [done|done|apply evolves_refl]. Qed.
Lemma kept_trans a b c : kept a b -> kept b c -> kept a c.
Proof. intros [_ A2 A3] [B1 B2 B3]. split; [done|auto|]. by eapply TelemetryFacts.evolves_trans. Qed.

Lemma kept_telemetry b d : good b -> advances (bk_telemetry b) d -> kept b (MkBackend (bk_site b) d).
Proof. intros [H1 H2 H3] (Hw & He & _). split; [by split|done|done]. Qed.
Lemma kept_site b s : good b -> acts_for t (bk_site b) s -> si_tenants s = si_tenants (bk_site b) -> kept b (MkBackend s (bk_telemetry b)).
Proof.
  intros [H1 H2 H3] [A1 A2 (new & A3 & _) _ _] Hs. split; [split; [exact A1|done|]| |apply evolves_refl].
  - unfold keys. cbn. by rw Hs.
  - unfold chain_ids. cbn. intros id. rw A3 map_app elem_of_app. by left.
Qed.

(** ** What stays stored *)

Definition execution_here (b : Backend) (x : string) (P : ExecRow -> Prop) : Prop :=
  exists r, r ∈ t_executions (bk_telemetry b) /\ xr_ID r = x /\ xr_TenantID r = t /\ P r.
Definition span_here (b : Backend) (x : string) (p : SpanPayload) : Prop :=
  exists id, has_span (bk_telemetry b) id x /\ forall i, payload_id p = Some i -> i <> "" -> id = to_valid i.
(** The operation is stored. *)
Definition lands (b : Backend) (d : DeadLetter) : Prop :=
  if bool_decide (dl_Kind d = dlKindAudit) then
    exists e id, dl_Audit d = Some e /\ id ∈ chain_ids b /\ (ai_ID e <> "" -> id = to_valid (ai_ID e))
  else if bool_decide (dl_Kind d = dlKindSpans) then
    execution_here b (dl_ExecutionID d) (fun _ => True) /\ Forall (span_here b (dl_ExecutionID d)) (dl_Spans d)
  else execution_here b (dl_ExecutionID d) (fun r => xr_Status r <> StatusRunning).

Lemma execution_kept_here b b' x (P : ExecRow -> Prop) :
  (forall r r', execution_kept r r' -> P r -> P r') -> kept b b' -> execution_here b x P -> execution_here b' x P.
Proof.
  intros HP [_ _ [(old & new & Hd & Hk) _ _ _ _]] (r & Hr & Hx & Ht & Hp). apply list_elem_of_lookup in Hr as [i Hr].
  destruct (Forall2_lookup_l _ _ _ _ _ Hk Hr) as (r' & Hr' & Hkept). exists r'. split_and!.
  - rw Hd. apply elem_of_app. left. by eapply list_elem_of_lookup_2.
  - destruct Hkept as [-> |[_ ->]]; done.
  - destruct Hkept as [-> |[_ ->]]; done.
  - by eapply HP.
Qed.
Lemma lands_kept b b' d : kept b b' -> lands b d -> lands b' d.
Proof.
  intros Hk. unfold lands. case_bool_decide; [|case_bool_decide].
  - intros (e & id & He & Hin & Hid). exists e, id. split_and!; [done|by apply (kp_ids _ _ Hk)|done].
  - intros [Hx Hs]. split; [by eapply execution_kept_here|]. eapply Forall_impl; [exact Hs|]. intros p (id & Hid & Hp).
    exists id. split; [|done]. eapply has_span_kept; [apply (kp_telemetry _ _ Hk)|done].
  - apply execution_kept_here; [|done]. intros r r' [-> |[Hr _]] Hp; done.
Qed.

(** ** Routes *)

(** An answer and the new backend: what is stored is kept, and a success promises [Q]. *)
Definition does (Q : Response -> Backend -> Prop) (b : Backend) (p : Response * Backend) : Prop :=
  kept b p.2 /\ (rs_Status p.1 < 300 -> Q p.1 p.2).
Lemma does_refuse resp Q b : good b -> 300 <= rs_Status resp -> does Q b (resp, b).
Proof. intros Hg Hs. split; cbn; [by apply kept_refl|lia]. Qed.

Lemma backend_key_read env dbnow id b k b' : ks_GetKeyByID (KeyStore := backend_keystore env dbnow) id b = (k, b') ->
  b' = b /\ forall x, k = Ok x -> k_ID x = id /\ x ∈ keys b.
Proof.
  change (with_site (ks_GetKeyByID (KeyStore := site_keystore env dbnow) id) b = (k, b') -> b' = b /\ forall x, k = Ok x -> k_ID x = id /\ x ∈ keys b).
  unfold with_site. destruct (ks_GetKeyByID (KeyStore := site_keystore env dbnow) id (bk_site b)) as [k' s'] eqn:E. intros [= <- <-].
  apply site_key_read in E as [-> Hk]. split; [by destruct b|exact Hk].
Qed.
Lemma refusals resp : rs_Status resp ∈ [401; 403] -> 300 <= rs_Status resp.
Proof. intros [-> | ->%list_elem_of_singleton]%elem_of_cons; done. Qed.
Lemma telemetry_route_does d rt Q b :
  good b -> (forall c, TenantFromContext c = t -> does Q b (rt request c b)) ->
  does Q b (telemetry_route bcrypt_compare d rt request background b).
Proof.
  intros Hg H. unfold telemetry_route.
  destruct (write_route_cases (H := backend_keystore (dr_keys d) (dr_dbnow d)) keys bcrypt_compare rt request background b)
    as [(resp & Hs & ->)|(k & Hk & Hp & _ & ->)].
  - intros id k b' [_ Hk]%backend_key_read. by apply Hk.
  - by intros id k b' [-> _]%backend_key_read.
  - by apply does_refuse, refusals.
  - apply H. by apply (gd_keys b Hg).
Qed.

Lemma answered_does {A} status f (m : TelemetryStore.TDB -> res A * TelemetryStore.TDB) Q b :
  good b -> (forall d, tdb_wf d -> advances d (m d).2) ->
  (forall a d, m (bk_telemetry b) = (Ok a, d) -> Q (writeJSON status (f a)) (MkBackend (bk_site b) d)) ->
  does Q b (answered message status f m b).
Proof.
  intros Hg Hm HQ. unfold answered, with_telemetry. pose proof (Hm (bk_telemetry b) (gd_telemetry b Hg)) as Ha.
  destruct (m (bk_telemetry b)) as [[a|e] d] eqn:E; cbn in Ha; (split; [by apply kept_telemetry|]); cbn [fst snd].
  - intros _. by apply HQ.
  - intros Hs. pose proof (writeAppError_status message e). lia.
Qed.
Lemma start_does d text b : good b ->
  does (fun _ _ => True) b (telemetry_route bcrypt_compare d (TelemetryHttp.startExecution message redactOn (dr_now d) (dr_dbnow d) (dr_envs d) text) request background b).
Proof.
  intros Hg. apply telemetry_route_does; [done|]. intros c Ht. unfold TelemetryHttp.startExecution, for_tenant.
  destruct (is_empty _); [by apply does_refuse|]. destruct (start_body text) as [req|]; [|by apply does_refuse].
  apply answered_does; [done| |done]. intros d0 Hd. by apply StartExecution_advances.
Qed.
Lemma end_does d x text b : good b ->
  does (fun _ b => execution_here b x (fun r => xr_Status r <> StatusRunning)) b
    (telemetry_route bcrypt_compare d (TelemetryHttp.endExecution message (dr_now d) (dr_envs d) x text) request background b).
Proof.
  intros Hg. apply telemetry_route_does; [done|]. intros c Ht. unfold TelemetryHttp.endExecution, for_tenant.
  destruct (is_empty _); [by apply does_refuse|]. destruct (end_request text) as [[st en]|]; [|by apply does_refuse].
  apply answered_does; [done| |].
  - intros d0 Hd. by apply EndExecutionAt_advances.
  - intros e d1 He. rw Ht in He. by apply (EndExecutionAt_ends _ _ _ _ _ _ _ _ _ (gd_telemetry b Hg) He).
Qed.
Lemma find_execution_here b x : find_execution (bk_telemetry b) t x <> None -> execution_here b x (fun _ => True).
Proof.
  destruct (find_execution _ t x) as [r|] eqn:E; [|done]. intros _. apply found_execution in E as (? & ? & ?). by exists r.
Qed.
Definition spans_promise (x text : string) (resp : Response) (b : Backend) : Prop :=
  exists l r, spans_request text = Some l /\ rs_Body resp = Some (accepted_json errText r)
    /\ (l <> [] -> r.1 = Z.of_nat (length l) -> execution_here b x (fun _ => True)
        /\ forall o, o ∈ l -> exists s, o = Some s /\ has_span (bk_telemetry b) (sp_ID (prepare_span lower active entries redactOn x s)) x).
Lemma spans_does d x text b : good b ->
  does (spans_promise x text) b
    (telemetry_route bcrypt_compare d (TelemetryHttp.ingestSpans errText collate lower active entries redactOn (dr_envs d) x text) request background b).
Proof.
  intros Hg. apply telemetry_route_does; [done|]. intros c Ht. unfold TelemetryHttp.ingestSpans, for_tenant.
  destruct (is_empty _); [by apply does_refuse|]. destruct (spans_request text) as [l|] eqn:El; [|by apply does_refuse].
  unfold with_telemetry. rw Ht. pose proof (gd_telemetry b Hg) as Hw.
  pose proof (IngestSpans_advances collate lower active entries redactOn (dr_envs d) t x l _ Hw) as Ha.
  pose proof (IngestSpans_stored collate lower active entries redactOn (dr_envs d) t x l _ Hw) as Hs.
  destruct (IngestSpans _ _ _ _ _ _ t x l (bk_telemetry b)) as [[n errs] d1]; cbn in Ha, Hs |- *.
  pose proof (kept_telemetry b d1 Hg Ha) as Hk. split; [exact Hk|]. cbn. intros _.
  exists l, (n, errs). split_and!; [done..|]. cbn. intros Hne Hn. destruct (Hs Hne Hn) as [Hx Ho]. split; [|done].
  eapply execution_kept_here; [|exact Hk|by apply find_execution_here]. done.
Qed.

Definition audit_promise (text : string) (resp : Response) (b : Backend) : Prop :=
  exists ws r, batch_body maxBatchBodyBytes text = Some ws /\ rs_Body resp = Some (batchResult_json errText r)
    /\ forall w, ws = [w] -> br_Accepted r = 1%nat -> exists id, id ∈ chain_ids b /\ (we_ID w <> "" -> id = we_ID w).
Lemma svc_LogBatch_one clock ids envs s w : db_wf (si_audit s) -> md_ok (toDomain w) = true ->
  let '(r, s') := svc_LogBatch redactOn clock ids envs t [Some (toDomain w)] s in
  forall b, r = Ok b -> br_Accepted b = 1%nat -> exists id, id ∈ map ev_ID (site_chain s' t) /\ (we_ID w <> "" -> id = we_ID w).
Proof.
  intros Hw Hm. unfold svc_LogBatch, repository.
  pose proof (LogBatch_one (Hrepo := pg_spec (tenant_known s) (envs 0%nat)) redactOn clock ids (si_audit s) (si_subs s) t (toDomain w) Hw Hm) as H.
  by destruct (LogBatch _ _ _ _ _ _ _) as [[r db] sb].
Qed.
Lemma svc_LogBatch_tenants clock ids envs l s : si_tenants (svc_LogBatch redactOn clock ids envs t l s).2 = si_tenants s.
Proof. unfold svc_LogBatch, with_service. by destruct (LogBatch _ _ _ _ _ _ _) as [[r db] sb]. Qed.
Lemma logBatch_does d c text b : good b -> TenantFromContext c = t ->
  does (audit_promise text) b
    (on_site (logBatch h redactOn (dr_clock d) (dr_event_ids d) (dr_receipt d) (dr_now d) (dr_dbnow d) (dr_envs d) errText message
       (batch_body maxBatchBodyBytes text)) request c b).
Proof.
  intros Hg Ht. unfold on_site, with_site, logBatch. destruct (batch_body maxBatchBodyBytes text) as [ws|] eqn:Eb.
  2:{ destruct b. by apply does_refuse. }
  rw Ht. unfold checkMonthlyLimit, useAsync. rw !Hoss. pose proof (batch_storable _ _ _ Eb) as Hst.
  assert (Hm : Forall (fun o => forall x, o = Some x -> md_ok x = true) (map (fun w => Some (toDomain w)) ws)).
  { apply Forall_fmap. eapply Forall_impl; [exact Hst|]. by intros w Hw x [= <-]. }
  pose proof (svc_LogBatch_acts redactOn (dr_clock d) (dr_event_ids d) (dr_envs d) t _ (bk_site b) (gd_audit b Hg) Hm) as Ha.
  pose proof (svc_LogBatch_tenants (dr_clock d) (dr_event_ids d) (dr_envs d) (map (fun w => Some (toDomain w)) ws) (bk_site b)) as Hk.
  assert (Ho : forall w, ws = [w] -> md_ok (toDomain w) = true) by (intros w E; rw E in Hst; by inversion Hst).
  cbv zeta. set (l := map _ ws) in *. destruct (svc_LogBatch _ _ _ _ t l (bk_site b)) as [[r|e] s'] eqn:E; destruct Ha as (Ha & _ & _); cbn in Hk;
    (split; [by apply kept_site|]); cbn [fst snd].
  - intros _. exists ws, r. split_and!; [done..|]. intros w ->.
    pose proof (svc_LogBatch_one (dr_clock d) (dr_event_ids d) (dr_envs d) (bk_site b) w (gd_audit b Hg) (Ho w eq_refl)) as H1.
    unfold l in E. cbn [map] in E. rw E in H1. by apply H1.
  - intros Hs. pose proof (writeAppError_status message e). lia.
Qed.

(** A write route of the audit side. *)
Lemma site_route_does d next Q b :
  good b -> (forall c, TenantFromContext c = t -> does Q b (on_site next request c b)) ->
  does Q b (on_site (ingest_route bcrypt_compare (dr_keys d) (dr_dbnow d) (RequireWrite next)) request background b).
Proof.
  intros Hg H. unfold on_site, with_site in *.
  destruct (ingest_route_cases (dr_dbnow d) bcrypt_compare (dr_keys d) next request background (bk_site b)) as [(resp & Hs & ->)|(k & Hk & Hp & _ & ->)].
  - destruct b. by apply does_refuse, refusals.
  - apply H. by apply (gd_keys b Hg).
Qed.

Local Abbreviation routed d r text :=
  (route h maxBatchBodyBytes bcrypt_compare errText message collate lower active entries redactOn d r text request background).

Lemma segment_app s : (segment s).1 +:+ (segment s).2 = s.
Proof.
  induction s as [|c s IH]; [done|]. cbn [segment]. case_bool_decide; [done|]. destruct (segment s) as [a b]. cbn in *.
  by rw str_cons_app IH.
Qed.
Lemma execution_path_of x suffix id rest :
  execution_path (("/api/v1/executions/" : string) +:+ x +:+ suffix) = Some (id, rest) -> id +:+ rest = x +:+ suffix /\ id <> "".
Proof.
  unfold execution_path. rw (proj2 (has_prefix_spec _ _)); [|by eexists].
  change 19%nat with (String.length "/api/v1/executions/"). rw str_split_app. cbn [snd].
  pose proof (segment_app (x +:+ suffix)) as Hs. destruct (segment _) as [a b]. cbn in Hs.
  unfold is_empty. case_bool_decide; [done|]. by intros [= <- <-].
Qed.

(** ** Requests *)

Lemma does_weaken Q Q' b p : (forall resp b', Q resp b' -> Q' resp b') -> does Q b p -> does Q' b p.
Proof. intros H [Hk Hq]. split; [done|]. auto. Qed.
Lemma audit_does d text b : good b ->
  does (audit_promise text) b (routed d (MkHttp "POST" "/v1/events/batch" None) text b).
Proof. intros Hg. apply site_route_does; [done|]. intros c Hc. by apply logBatch_does. Qed.
(** Whatever is asked, nothing stored is lost. *)
Lemma route_keeps d r text b : good b -> does (fun _ _ => True) b (routed d r text b).
Proof.
  intros Hg. unfold route. destruct (_ && _).
  { eapply does_weaken; [|by apply audit_does]. done. }
  destruct (_ && _); [by apply start_does|].
  destruct (execution_path (hr_path r)) as [[id rest]|]; [|by apply does_refuse].
  destruct (_ && _); [by eapply does_weaken; [|by apply spans_does]|].
  destruct (_ && _); [by eapply does_weaken; [|by apply end_does]|by apply does_refuse].
Qed.
Lemma route_execution d m x suffix text b : x <> "" ->
  let path := ("/api/v1/executions/" : string) +:+ x +:+ suffix in
  routed d (MkHttp m path None) text b
  = match execution_path path with
    | Some (id, rest) =>
        if bool_decide (m = "POST") && bool_decide (rest = "/spans") then
          telemetry_route bcrypt_compare d (TelemetryHttp.ingestSpans errText collate lower active entries redactOn (dr_envs d) id text) request background b
        else if bool_decide (m = "PUT") && bool_decide (rest = "/end") then
          telemetry_route bcrypt_compare d (TelemetryHttp.endExecution message (dr_now d) (dr_envs d) id text) request background b
        else not_found request background b
    | None => not_found request background b
    end.
Proof.
  intros Hx path. unfold route. cbn [hr_method hr_path].
  rw (bool_decide_eq_false_2 (path = "/v1/events/batch")); [|done].
  rw (bool_decide_eq_false_2 (path = executions_path)); [|done]. rw !andb_false_r.
  destruct (execution_path path) as [[id rest]|]; [|done]. by repeat case_match.
Qed.
Lemma spans_routed d x text b : good b -> x <> "" ->
  does (spans_promise x text) b (routed d (MkHttp "POST" (("/api/v1/executions/" : string) +:+ x +:+ "/spans") None) text b).
Proof.
  intros Hg Hx. rw route_execution //. destruct (execution_path _) as [[id rest]|] eqn:E; [|by apply does_refuse].
  apply execution_path_of in E as [E _]. case_bool_decide as Hm; [|done]. cbn [andb]. case_bool_decide as Hr; [|by apply does_refuse].
  subst rest. apply str_app_inj_r in E as ->. by apply spans_does.
Qed.
Lemma end_routed d x text b : good b -> x <> "" ->
  does (fun _ b => execution_here b x (fun r => xr_Status r <> StatusRunning)) b
    (routed d (MkHttp "PUT" (("/api/v1/executions/" : string) +:+ x +:+ "/end") None) text b).
Proof.
  intros Hg Hx. rw route_execution //. destruct (execution_path _) as [[id rest]|] eqn:E; [|by apply does_refuse].
  apply execution_path_of in E as [E _]. case_bool_decide as Hm; [done|]. cbn [andb]. case_bool_decide as Hp; [|done]. cbn [andb].
  case_bool_decide as Hr; [|by apply does_refuse]. subst rest. apply str_app_inj_r in E as ->. by apply end_does.
Qed.

(** ** What the plugin hears *)

Lemma counts_back (m : list member) countField z k :
  field countField m = Some (JInt z) -> k <> 0 -> checkAcceptance m countField k = None -> z = k.
Proof. intros Hf Hk (lit & Hl & Hc)%confirmed_count. rw Hf in Hl. injection Hl as <-. by eapply counted. Qed.
Lemma encoded_value v resp : rs_Body resp = Some v -> flat 3 v -> ha_value (answer_of resp) = Some (sane v).
Proof.
  intros Hb [Hok Hn]. unfold answer_of, encoded. rw Hb. cbn [mbind option_bind]. unfold marshal. rw ok_numbers //. cbn [ha_value].
  apply unmarshal_line; [done|]. unfold maxNestingDepth. lia.
Qed.
(** The confirmation the plugin asked for, in the counts of the answer. *)
Lemma batch_confirmed r resp m :
  rs_Body resp = Some (batchResult_json errText r) -> decoded (answer_of resp) = Ok m ->
  checkAcceptance m "accepted" 1 = None -> br_Accepted r = 1%nat.
Proof.
  intros Hb. unfold decoded. rw (encoded_value _ _ Hb (batch_flat errText r)). intros [= <-] Hc.
  apply Nat2Z.inj. by eapply counts_back; [|done|exact Hc].
Qed.
Lemma spans_confirmed r resp m n :
  rs_Body resp = Some (accepted_json errText r) -> decoded (answer_of resp) = Ok m -> n <> 0 ->
  checkAcceptance m "accepted_count" n = None -> r.1 = n.
Proof.
  intros Hb. unfold decoded. rw (encoded_value _ _ Hb (accepted_flat errText r)). intros [= <-] Hn Hc.
  by eapply counts_back; [|done|exact Hc].
Qed.

Local Abbreviation served r sv :=
  (serve h maxBatchBodyBytes bcrypt_compare errText message collate lower active entries redactOn draws key r sv).
Lemma serve_does Q r sv :
  good sv.2 -> does Q sv.2 (routed (draws sv.1) r "" sv.2) \/ hr_body r <> None ->
  (forall v, hr_body r = Some v -> does Q sv.2 (routed (draws sv.1) r (default "" (marshal v)) sv.2)) ->
  let '(a, sv') := served r sv in kept sv.2 sv'.2 /\ (ha_status a < 300 -> exists resp, a = answer_of resp /\ Q resp sv'.2).
Proof.
  intros Hg H0 H1. unfold serve, RequestBodyLimit, body_of. destruct (hr_body r) as [v|] eqn:Eb; cbn [fmap option_fmap option_map].
  - cbn [bd_text bd_broken]. destruct (MaxRequestBodyBytes <? _).
    + cbn. split; [by apply kept_refl|lia].
    + specialize (H1 v eq_refl). destruct (routed (draws sv.1) r (default "" (marshal v)) sv.2) as [resp b]. destruct H1 as [Hk HQ]. cbn in Hk, HQ |- *.
      split; [done|]. intros Hs. exists resp. by split; [|apply HQ].
  - destruct H0 as [H0|]; [|done]. destruct (routed (draws sv.1) r "" sv.2) as [resp b]. destruct H0 as [Hk HQ]. cbn in Hk, HQ |- *.
    split; [done|]. intros Hs. exists resp. by split; [|apply HQ].
Qed.
Lemma serve_keeps r sv : good sv.2 -> kept sv.2 (served r sv).2.2.
Proof.
  intros Hg. pose proof (serve_does (fun _ _ => True) r sv Hg) as H. destruct (served r sv) as [a sv'].
  apply H; [left|intros v _]; by apply route_keeps.
Qed.

Lemma marshal_sendable v : sendable v = true -> default "" (marshal v) = render v.
Proof. intros [Hok _]%sendable_ok. unfold marshal. by rw ok_numbers. Qed.
(** The promises of the routes, read by the plugin. *)
Lemma audit_lands e d m resp b :
  dl_Kind d = dlKindAudit -> dl_Audit d = Some e -> sendable (audit_body e) = true ->
  audit_promise (render (audit_body e)) resp b -> decoded (answer_of resp) = Ok m -> op_accepted d m = None -> lands b d.
Proof.
  intros Hd He Hs (ws & r & Hws & Hb & Hid) Hm Ha. unfold op_accepted, accepts in Ha. unfold lands. rw Hd in Ha |- *.
  rw bool_decide_eq_true_2 // in Ha. rw bool_decide_eq_true_2 //.
  destruct (printed_event _ _ _ Hs Hws) as (w & -> & Hw). pose proof (batch_confirmed _ _ _ Hb Hm Ha) as H1.
  destruct (Hid w eq_refl H1) as (id & Hin & Heq). exists e, id. split_and!; [done..|]. intros Hne. rw Heq; [done|].
  rw Hw. by intros ?%to_valid_empty.
Qed.
Lemma prepared_id x s : sp_ID s <> "" -> sp_ID (prepare_span lower active entries redactOn x s) = sp_ID s.
Proof.
  intros Hne. unfold prepare_span, redactSpan, enrichModelInvocationCost, default_span. cbn [sp_ModelInvocation].
  unfold is_empty. rw (bool_decide_eq_false_2 (sp_ID s = "")) //. by repeat case_match; simplify_eq.
Qed.
Lemma spans_land d m resp b :
  dl_Kind d = dlKindSpans -> dl_Spans d <> [] -> sendable (spans_body (dl_Spans d)) = true ->
  spans_promise (dl_ExecutionID d) (render (spans_body (dl_Spans d))) resp b ->
  decoded (answer_of resp) = Ok m -> op_accepted d m = None -> lands b d.
Proof.
  intros Hd Hne Hs (l & r & Hl & Hb & Hp) Hm Ha. unfold op_accepted, accepts in Ha. unfold lands. rw Hd in Ha |- *.
  rw (bool_decide_eq_false_2 (dlKindSpans = dlKindAudit)) // bool_decide_eq_true_2 // in Ha.
  rw (bool_decide_eq_false_2 (dlKindSpans = dlKindAudit)) // bool_decide_eq_true_2 //.
  pose proof (printed_spans _ _ Hs Hl) as H2. pose proof (Forall2_length _ _ _ H2) as Hlen.
  assert (Hn : Z.of_nat (length (dl_Spans d)) <> 0) by (destruct (dl_Spans d); [done|cbn; lia]).
  pose proof (spans_confirmed _ _ _ _ Hb Hm Hn Ha) as Hc. rw Hlen in Hc.
  assert (Hnl : l <> []) by (intros ->; cbn in Hlen; lia).
  destruct (Hp Hnl Hc) as [Hx Ho]. split; [done|]. clear - H2 Ho. apply Forall_forall. intros p Hin.
  apply list_elem_of_lookup in Hin as [i Hi]. destruct (Forall2_lookup_l _ _ _ _ _ H2 Hi) as (o & Hoi & Hok & s & -> & Hs).
  destruct (Ho (Some s)) as (s' & [= <-] & Hh); [by eapply list_elem_of_lookup_2|]. eexists. split; [exact Hh|].
  intros i' Hpi Hne. pose proof (span_id _ _ _ Hok Hs Hpi) as Hid. rw prepared_id //. rw Hid. by intros ?%to_valid_empty.
Qed.
(** A confirmed operation is stored. *)
Lemma serve_lands d r sv :
  good sv.2 -> op_request d = Ok r -> sendable (operationBody d) = true ->
  let '(a, sv') := served r sv in accepted_by (op_sig d) a -> lands sv'.2 d.
Proof.
  intros Hg. unfold op_request, operationBody. case_bool_decide as Ka; [|case_bool_decide as Ks; [|case_bool_decide as Ke; [|done]]].
  - destruct (dl_Audit d) as [e|] eqn:He; [|done]. intros [= <-] Hs. change (sendable (audit_body e) = true) in Hs.
    pose proof (serve_does (audit_promise (render (audit_body e))) (LogBatch_request [e]) sv Hg) as H. destruct (served _ sv) as [a sv'].
    destruct H as [_ H]; [by right| |].
    + intros v [= <-]. change (JObj [("events", JArr (map auditInput_json [e]))]) with (audit_body e). rw marshal_sendable //. by apply audit_does.
    + intros (Ha & m & Hm & Hacc). destruct (H Ha) as (resp & -> & Hp). by eapply audit_lands.
  - destruct (is_empty (dl_ExecutionID d)) eqn:Hx; [done|]. cbn [orb]. destruct (dl_Spans d) as [|p l] eqn:Hsp; [done|]. rw -Hsp. intros [= <-] Hs.
    apply bool_decide_eq_false in Hx.
    pose proof (serve_does (spans_promise (dl_ExecutionID d) (render (spans_body (dl_Spans d)))) (IngestSpans_request (dl_ExecutionID d) (dl_Spans d)) sv Hg) as H.
    destruct (served _ sv) as [a sv']. destruct H as [_ H]; [by right| |].
    + intros v [= <-]. rw marshal_sendable //. by apply spans_routed.
    + intros (Ha & m & Hm & Hacc). destruct (H Ha) as (resp & -> & Hp). eapply spans_land; [done|by rw Hsp|done|done|done|].
      exact Hacc.
  - destruct (is_empty (dl_ExecutionID d)) eqn:Hx; [done|]. intros [= <-] Hs. apply bool_decide_eq_false in Hx.
    pose proof (serve_does (fun _ b => execution_here b (dl_ExecutionID d) (fun r => xr_Status r <> StatusRunning))
      (EndExecutionAt_request (dl_ExecutionID d) (dl_Status d) (dl_EndedAt d)) sv Hg) as H.
    destruct (served _ sv) as [a sv']. destruct H as [_ H]; [by right| |].
    + intros v [= <-]. by apply end_routed.
    + intros (Ha & _). destruct (H Ha) as (resp & -> & Hp). unfold lands. by rw !bool_decide_eq_false_2.
Qed.
End Server.
