(* ===== verification/DeliveryProps.v ===== *)
(** From the hook to the store: the plugin's worker of Spool.v against the server of
    Deployment.v.

    The two are proved apart, the worker against any server that answers and the
    server against any request.  Here they are put together: what the plugin drops
    from its queue is what the server has. *)
From S2P Require Import Prelude Errors GoTime Json JsonFacts JsonText CanonicalFacts AuditModel AuditStore AuditHttp AuditHttpProps Execution Pricing Postgres TelemetryStore TelemetryFacts KeyCache Tenants Auth AuthProps Canonical AuditRepo TimeText Float64 Collector Transcript Hooks Journal JournalFacts Spool SpoolFacts SpoolOrder SpoolKeeps SpoolProps Requests TelemetryHttp RequestFacts Deployment DeliveryFacts.
Local Open Scope Z_scope.

Section Delivery.
Context `{Hj : Jsonb} `{Hspec : !JsonbSpec} (h : AuditHandler).
Variable maxBatchBodyBytes : Z.
Variable bcrypt_compare : string -> string -> bool.
Variables errText message : AppError -> string.
Variable collate : list string -> list string.
Variable lower : string -> string.
Variable active : gmap string pricing.
Variable entries : list (string * pricing).
Variable redactOn : bool.
Variable draws : nat -> Draw.
Variables key t : string.
Variable prep0 : Prep.
Hypothesis Hoss : ah_ossMode h = true.

Local Abbreviation server := (serve h maxBatchBodyBytes bcrypt_compare errText message collate lower active entries redactOn draws key).
Local Abbreviation good := (good bcrypt_compare key t).
Local Abbreviation kept := (kept bcrypt_compare key t).
Local Abbreviation lands := (lands t).

(** Other clients that lose nothing that is stored, and give the plugin's key to nobody else. *)
Definition friendly (f : Server -> Server) : Prop := forall sv, good sv.2 -> kept sv.2 (f sv).2.
Definition friendly_turn (x : turn Server) : Prop := friendly (tn_clients x).
Definition friendly_action (a : action (St := Server)) : Prop :=
  match a with Hook _ => True | Others f => friendly f | Flush _ turns => Forall friendly_turn turns end.

(** A request whose answer confirms an operation has stored it. *)
Definition told (b : Backend) (e : entry) : Prop :=
  match e with
  | Reached _ r a => forall d, op_request d = Ok r -> sendable (operationBody d) = true -> accepted_by (op_sig d) a -> lands b d
  | _ => True
  end.
Definition honest (w : World Server) : Prop :=
  good (wd_server w).2 /\ Forall (told (wd_server w).2) (wd_log w) /\ Forall friendly_turn (wd_turns w).

Lemma told_kept b b' l : kept b b' -> Forall (told b) l -> Forall (told b') l.
Proof.
  intros Hk Hl. eapply Forall_impl; [exact Hl|]. intros [lb r a|p i|p]; [|done..]. intros H d H1 H2 H3.
  eapply lands_kept; [exact Hk|by apply H].
Qed.
Lemma honest_next : stays honest (next prep0).
Proof.
  intros w (H1 & H2 & H3). unfold next. destruct (wd_turns w) as [|x ts] eqn:E; [by split_and!; [..|rw E]|].
  inversion H3 as [|? ? Hx Hts]; subst. pose proof (Hx _ H1) as Hk. split_and!; cbn; [apply Hk|by eapply told_kept|done].
Qed.
Lemma honest_exchange l r : stays honest (exchange server l r).
Proof.
  intros w (H1 & H2 & H3). unfold exchange.
  pose proof (serve_keeps h maxBatchBodyBytes bcrypt_compare errText message collate lower active entries redactOn draws key t Hoss r _ H1) as Hk.
  pose proof (fun d => serve_lands h maxBatchBodyBytes bcrypt_compare errText message collate lower active entries redactOn draws key t Hoss d r _ H1) as Hl.
  destruct (serve _ _ _ _ _ _ _ _ _ _ _ key r (wd_server w)) as [a sv]. cbn in Hk. split_and!; cbn; [apply Hk| |done].
  apply Forall_app. split; [by eapply told_kept|]. repeat constructor. intros d Hd Hs. by apply Hl.
Qed.
Lemma honest_drain c : stays honest (drainHooks server prep0 c).
Proof.
  apply (stays_drain server prep0 honest (fun _ => True)); [apply honest_next| | |apply honest_exchange| |done].
  - intros e He w (H1 & H2 & H3). split_and!; cbn; [done| |done]. apply Forall_app. split; [done|]. repeat constructor.
    destruct e; [by destruct (He l r a)|done..].
  - by intros f _ w H.
  - intros c' path e _. apply stays_bind; [apply honest_next|]. intros x w H. unfold locked.
    by destruct (writeEnvelope_run c' path e (tn_fates x) (wd_disk w)) as [r d].
Qed.
Lemma honest_act w a : friendly_action a -> honest w -> honest (act server prep0 w a).
Proof.
  destruct a as [c|f|c turns]; cbn [friendly_action act]; intros Hf (H1 & H2 & H3).
  - split_and!; [done|done|constructor].
  - pose proof (Hf _ H1) as Hk. split_and!; cbn; [apply Hk|by eapply told_kept|constructor].
  - by apply (honest_drain c (MkWorld (wd_disk w) (wd_server w) turns (wd_log w))).
Qed.
Lemma honest_run l : forall w, Forall friendly_action l -> honest w -> honest (run server prep0 w l).
Proof. induction l as [|a l IH]; intros w Hl Hw; [done|]. inversion Hl; subst. apply IH; [done|]. by apply honest_act. Qed.

Lemma sent_in_log path i r a (w : World Server) : Sent i r a ∈ history path w -> Reached (Some (path, i)) r a ∈ wd_log w.
Proof.
  unfold history, events. intros (e & He & Hv)%list_elem_of_omap. destruct e as [[[p j]|] r' a'|p j|p]; cbn in Hv; try done;
    case_decide; simplify_eq; done.
Qed.

(** C32: A hook that left the plugin is in the server.  Take a server in the local
    profile, the plugin's key and the tenant it belongs to, and any course of
    captures, drains, failures and kills, with other clients that lose nothing.  A
    prepared hook stays queued, or its file is gone and every one of its operations
    is stored: its audit events are on the tenant's chain under their ids, its spans
    recorded in the tenant's execution under theirs, and the executions it ended have
    ended. *)
Theorem hooks_land sv early late path e :
  good sv.2 -> Forall friendly_action (early ++ late) ->
  let w := run server prep0 (start sv) early in
  let w' := run server prep0 w late in
  spool_at path w = Some (Spooled e) -> he_Prepared e = true ->
  Forall (fun d => sendable (operationBody d) = true) (he_Operations e) ->
  queued path e w' \/ spool_at path w' = None /\ Forall (lands (wd_server w').2) (he_Operations e).
Proof.
  intros Hg [H1 H2]%Forall_app w w' He Hp Hs.
  assert (Hh : honest w') by (apply honest_run, honest_run; [done|done|by split_and!; [|constructor..]]).
  destruct (run_progress server prep0 late w (run_inv server prep0 sv early)) as (H & _). destruct (H path) as (Hq & _).
  destruct (Hq e He) as [|(Hn & ss & Hss & Hc)]; [by left|right]. split; [done|]. specialize (Hss Hp) as ->.
  apply Forall_forall. intros d Hd. apply list_elem_of_lookup in Hd as [i Hi].
  destruct (complete_accepted _ _ i (op_sig d) Hc) as (r & a & Hr & Hin & Ha); [unfold sigs; rw list_lookup_fmap; by rw Hi|].
  apply sent_in_log in Hin. destruct Hh as (_ & Hl & _). rw Forall_forall in Hl. rw Forall_forall in Hs.
  apply (Hl _ Hin d Hr); [|done]. apply Hs. by eapply list_elem_of_lookup_2.
Qed.
End Delivery.

(** * A plugin and its server *)

Definition local_handler : AuditHandler := MkAuditHandler true false None false true false false.
Definition sample_draws (n : nat) : Draw :=
  MkDraw (fun _ => 1700000000000000000) (fun i => "evt_" +:+ pretty n +:+ "_" +:+ pretty i) "rcpt_1" 1700000000000000000
    1700000000000000000 (fun _ => healthy) healthy.
Definition local_server : HttpRequest -> Server -> HttpAnswer * Server :=
  serve (Hj := jsonb_plain) local_handler 4194304 toy_compare no_text no_text (fun l => l) (fun s => s) ∅ [] false sample_draws
    sample_token.
Definition empty_server : Server := (0%nat, MkBackend sample_site empty_tdb).
(** Someone else uses the server. *)
Definition other_client (sv : Server) : Server :=
  (local_server (StartExecution_request (MkStartRequest "agent" "" "" ∅ "k1" "")) sv).2.
(** Two hooks; the worker is killed before it can write that the second one's spans were accepted. *)
Definition delivery_early : list (action (St := Server)) :=
  [Hook (sample_capture 0 1 "session-start" ""); Hook (sample_capture 0 2 "prompt" ""); Others other_client;
   Flush (sample_limited 0) (repeat (quiet_turn sample_prep) 20 ++ [MkTurn [] id [Dies 0] sample_prep])].
Definition delivery_late : list (action (St := Server)) := [Others other_client; Flush (sample_limited 0) []].
Definition delivery_world : World Server := run local_server sample_prep (start empty_server) delivery_early.
Definition delivery_end : World Server := run local_server sample_prep delivery_world delivery_late.
Definition delivery_hook : hookEnvelope :=
  match spool_at (sample_path 2) delivery_world with
  | Some (Spooled e) => e
  | _ => new_envelope (sample_limited 0) (fun _ => Unopened "") "" "" "" (sample_hook "")
  end.

Lemma empty_server_good : good toy_compare sample_token "tnt_1" empty_server.2.
Proof.
  split; [apply sample_site_wf|apply empty_tdb_wf|]. intros k Hk _. apply list_elem_of_In in Hk. vm_compute in Hk.
  by repeat destruct Hk as [<- |Hk].
Qed.
Lemma sample_friendly : Forall (friendly_action toy_compare sample_token "tnt_1") (delivery_early ++ delivery_late).
Proof.
  assert (Hid : friendly toy_compare sample_token "tnt_1" id) by (intros sv; by apply kept_refl).
  assert (Ho : friendly toy_compare sample_token "tnt_1" other_client).
  { intros sv. apply (serve_keeps (Hspec := jsonb_plain_spec)). reflexivity. }
  assert (Hf : Forall (friendly_turn toy_compare sample_token "tnt_1")
    (repeat (quiet_turn sample_prep) 20 ++ [MkTurn [] id [Dies 0] sample_prep])).
  { apply Forall_app. split; [|constructor; [exact Hid|constructor]].
    generalize 20%nat as n. induction n as [|n IH]; [constructor|constructor; [exact Hid|exact IH]]. }
  unfold delivery_early, delivery_late. rw !Forall_app !Forall_cons !Forall_nil. split_and!; try exact I; try exact Ho.
  - exact Hf.
  - constructor.
Qed.
Lemma hooks_land_witness :
  he_Next delivery_hook = 0 /\ map dl_Kind (he_Operations delivery_hook) = ["spans"; "audit"]
  /\ map ev_ID (site_chain (bk_site (wd_server delivery_end).2) "tnt_1") = ["evt_0"; "evt_1"]
  /\ map sr_ID (t_spans (bk_telemetry (wd_server delivery_world).2)) = ["span_0"]
  /\ spool_at (sample_path 2) delivery_end = None
  /\ (queued (sample_path 2) delivery_hook delivery_end
      \/ spool_at (sample_path 2) delivery_end = None
         /\ Forall (lands "tnt_1" (wd_server delivery_end).2) (he_Operations delivery_hook)).
Proof.
  split_and!; [vm_compute; reflexivity..|]. unfold delivery_end, delivery_world, local_server.
  apply (hooks_land (Hj := jsonb_plain) (Hspec := jsonb_plain_spec) local_handler 4194304 toy_compare no_text no_text (fun l => l)
    (fun s => s) ∅ [] false sample_draws sample_token "tnt_1" sample_prep eq_refl empty_server delivery_early delivery_late
    (sample_path 2) delivery_hook empty_server_good sample_friendly).
  - vm_compute. reflexivity.
  - vm_compute. reflexivity.
  - apply forallb_Forall. vm_compute. reflexivity.
Defined.
