(* ===== verification/Otel.v ===== *)
(** OpenTelemetry ingestion: api/internal/otel/{translator,enricher,otlp_handler,grpc_server}.go
    and MountOTLP of transport/rest/handler.go.

    The messages of go.opentelemetry.io/proto are records of the fields the code
    reads; a pointer that may be nil is an option.  What fmt.Sprintf prints for an
    array or a list of pairs ([Other]), proto.Unmarshal with its error text and the
    Unicode case tables are parameters.  An answer's raw text is a [JStr], as in
    [http_NotFound].  Both receivers are off by default.

    The last sections show what the receivers do: nothing they are sent is stored
    beyond the start of an execution ([otlp_spans_lost]), the translation loses no
    span ([traces_partition]), and the gRPC interceptor agrees with the HTTP
    middleware for a bearer key ([grpc_auth_mirrors_http]). *)
From S2P Require Import Prelude Errors GoTime Sha256 Json JsonFacts Canonical TimeText Float64 AuditModel Execution Pricing Postgres AuditStore TelemetryStore TelemetryFacts Ingestion IngestFacts TelemetryProps KeyCache Tenants Base64 Auth AuthProps AuditHttp AuditHttpProps Requests TelemetryHttp.
Import GoTime.
Local Open Scope Z_scope.

(** * strconv *)

(** [strconv.ParseFloat(s, 64)] of any text: [special], [readFloat], [underscoreOK]. *)
Definition cut_sign (s : string) : option bool * string :=
  match s with
  | String c r => if is_char 45 c then (Some true, r) else if is_char 43 c then (Some false, r) else (None, s)
  | EmptyString => (None, s)
  end.
Definition special_float (s : string) : option float64 :=
  let '(sg, r) := cut_sign s in
  let l := str_map ascii_lower r in
  if bool_decide (l ∈ ["inf"; "infinity"]) then Some (Inf (default false sg))
  else if is_none sg && bool_decide (l = "nan") then Some NaN else None.

Definition digit_value (hex : bool) (c : Ascii.ascii) : option Z :=
  if is_digit c then Some (byte_val c - 48)
  else let l := ascii_lower c in if hex && in_range 97 102 l then Some (byte_val l - 87) else None.

(** The digits: the mantissa, how many of them follow the dot, whether there are any, and the rest. *)
Fixpoint scan_mantissa (hex : bool) (m frac : Z) (dot digits : bool) (s : string) : Z * Z * bool * string :=
  match s with
  | EmptyString => (m, frac, digits, s)
  | String c r =>
      if is_char 95 c then scan_mantissa hex m frac dot digits r
      else if is_char 46 c then (if dot then (m, frac, digits, s) else scan_mantissa hex m frac true digits r)
      else match digit_value hex c with
           | Some v => scan_mantissa hex (m * (if hex then 16 else 10) + v) (if dot then frac + 1 else frac) dot true r
           | None => (m, frac, digits, s)
           end
  end.

(** The digits of the exponent up to the end of the text; it stops growing at 10000. *)
Fixpoint scan_exponent (e : Z) (s : string) : option Z :=
  match s with
  | EmptyString => Some e
  | String c r =>
      if is_char 95 c then scan_exponent e r
      else if is_digit c then scan_exponent (if e <? 10000 then e * 10 + (byte_val c - 48) else e) r else None
  end.
Definition read_exponent (hex : bool) (s : string) : option Z :=
  match s with
  | EmptyString => if hex then None else Some 0
  | String c r =>
      if is_char (if hex then 112 else 101) (ascii_lower c) then
        let '(sg, d) := cut_sign r in
        match d with
        | String c' _ => if is_digit c' then (fun e => if default false sg then - e else e) <$> scan_exponent 0 d else None
        | EmptyString => None
        end
      else None
  end.

(** An underscore stands between two digits; a base prefix counts as one. *)
Inductive Previous := PDigit | PUnderscore | POther.
Fixpoint underscores_ok (hex : bool) (p : Previous) (s : string) : bool :=
  match s with
  | EmptyString => match p with PUnderscore => false | _ => true end
  | String c r =>
      match digit_value hex c, p with
      | Some _, _ => underscores_ok hex PDigit r
      | None, PDigit => underscores_ok hex (if is_char 95 c then PUnderscore else POther) r
      | None, POther => negb (is_char 95 c) && underscores_ok hex POther r
      | None, PUnderscore => false
      end
  end.

Definition readFloat (s : string) : option float64 :=
  let '(sg, s) := cut_sign s in
  let '(hex, s) := match s with
                   | String z (String x (String _ _ as r)) =>
                       if is_char 48 z && is_char 120 (ascii_lower x) then (true, r) else (false, s)
                   | _ => (false, s)
                   end in
  let '(m, frac, digits, rest) := scan_mantissa hex 0 0 false false s in
  if digits then
    e ← read_exponent hex rest;
    if underscores_ok hex (if hex then PDigit else POther) s then
      let neg := default false sg in
      let x := e - 4 * frac in
      Some (if hex then round_ratio neg (m * 2 ^ Z.max 0 x) (2 ^ Z.max 0 (- x)) else round_decimal neg m (e - frac))
    else None
  else None.
(** A value out of range is an error, the text of an infinity is not. *)
Definition ParseFloat (s : string) : option float64 :=
  match special_float s with
  | Some f => Some f
  | None => f ← readFloat s; match f with Inf _ => None | f => Some f end
  end.

(** [strconv.FormatFloat(f, 'f', -1, 64)]. *)
Definition plain_decimal (c x : Z) : string :=
  let ds := trim_right0 (pretty c) in
  let len := Z.of_nat (String.length ds) in
  let point := Z.of_nat (String.length (pretty c)) + x in
  if point <=? 0 then "0." +:+ zeros (Z.to_nat (- point)) +:+ ds
  else if len <=? point then ds +:+ zeros (Z.to_nat (point - len))
  else let '(a, b) := str_split (Z.to_nat point) ds in a +:+ "." +:+ b.
Definition FormatFloat (f : float64) : string :=
  match f with
  | NaN => "NaN"
  | Inf s => if s then "-Inf" else "+Inf"
  | Fin s m e => (if s then "-" else "") +:+ (if m =? 0 then "0" else let '(c, x) := shortest m e in plain_decimal c x)
  end.

Example ParseFloat_samples :
  map (fun s => FormatFloat <$> ParseFloat s)
    ["0.70"; "+1e3"; ".5"; "5."; "1_0.5"; "1__0"; "_1"; "0x1.8p1"; "0x1"; "-Inf"; "nan"; "+nan"; "infinit"; "1e400"; "1e-400"; "1e21"; ""; "."; "1e"; "0x_1p-1"]
  = [Some "0.7"; Some "1000"; Some "0.5"; Some "5"; Some "10.5"; None; None; Some "3"; None; Some "-Inf"; Some "NaN"; None; None; None; Some "0";
     Some "1000000000000000000000"; None; None; None; Some "0.5"].
Proof. vm_compute. reflexivity. Qed.

(** [strings.ToUpper]; [upper] stands for the Unicode case tables. *)
Definition ascii_upper (c : Ascii.ascii) : Ascii.ascii := if in_range 97 122 c then byte_chr (byte_val c - 32) else c.
Definition ToUpper (upper : string -> string) (s : string) : string :=
  if is_ascii s then str_map ascii_upper s else upper s.

(** [hex.EncodeToString]. *)
Definition hex_text (b : string) : string := Sha256.hex_encode (str_bytes b).

(** * OTLP messages *)

Section Otel.
Context {Other : Type} (sprintf : Other -> string) (upper : string -> string).

Inductive AnyValue :=
| StringValue (s : string) | BoolValue (b : bool) | IntValue (z : Z) | DoubleValue (f : float64) | BytesValue (s : string)
| OtherValue (v : Other)   (** an ArrayValue or a KvlistValue *)
| NoValue.                 (** no member of the oneof is set *)
Record KeyValue := MkKeyValue { kv_Key : string; kv_Value : option AnyValue }.
Record SpanEvent := MkSpanEvent { se_Name : string; se_Attributes : list KeyValue }.
Record OtelStatus := MkOtelStatus { os_Code : Z; os_Message : string }.
Record OtelSpan := MkOtelSpan {
  ot_TraceId : string; ot_SpanId : string; ot_ParentSpanId : string; ot_Name : string;
  ot_StartTimeUnixNano : Z; ot_EndTimeUnixNano : Z; ot_Attributes : list KeyValue;
  ot_Events : list SpanEvent; ot_Status : option OtelStatus
}.
(** A resource is the list of its attributes. *)
Record ResourceSpans := MkResourceSpans { rp_Resource : option (list KeyValue); rp_ScopeSpans : list (list OtelSpan) }.
Definition STATUS_CODE_ERROR : Z := 2.

Definition anyValueToString (v : option AnyValue) : string :=
  match v with
  | None => ""
  | Some (StringValue s) => s
  | Some (IntValue z) => pretty z
  | Some (DoubleValue f) => FormatFloat f
  | Some (BoolValue b) => if b then "true" else "false"
  | Some (BytesValue b) => hex_text b
  | Some (OtherValue o) => sprintf o
  | Some NoValue => "<nil>"
  end.

Definition flattenAttributes (l : list KeyValue) : gmap string string :=
  foldl (fun m kv => <[kv_Key kv := anyValueToString (kv_Value kv)]> m) ∅ l.

(** [attrs\[k\]]. *)
Definition attr (m : gmap string string) (k : string) : string := default "" (m !! k).

(** * Spans *)

Definition nanoToTime (nanos : Z) : Time := wrap64 nanos.

Definition failed_status (s : option OtelStatus) : bool :=
  match s with Some s => os_Code s =? STATUS_CODE_ERROR | None => false end.
Definition mapStatus (s : option OtelStatus) (endedAt : option Time) : Status :=
  if failed_status s then StatusFailed else if is_none endedAt then StatusRunning else StatusCompleted.

(** The switch on an explicit span type. *)
Definition explicit_kind (s : string) : option SpanKind :=
  if bool_decide (s ∈ [SpanKindToolCall; SpanKindModelInvocation; SpanKindStateMutation; SpanKindHumanApproval; SpanKindPolicyEvaluation])
  then Some s else None.
Definition inferSpanType (attrs : gmap string string) : SpanKind :=
  match attrs !! "fact0.span_type" ≫= (fun s => explicit_kind (ToUpper upper s)) with
  | Some k => k
  | None =>
      if negb (is_none (attrs !! "gen_ai.system")) then SpanKindModelInvocation
      else if negb (is_none (attrs !! "gen_ai.request.model")) then SpanKindModelInvocation
      else if negb (is_none (attrs !! "tool.name")) then SpanKindToolCall
      else SpanKindCustom
  end.

(** [if v, ok := attrs\[k1\]; ok { } else if v, ok := attrs\[k2\]; ok { }]. *)
Definition first_of (attrs : gmap string string) (keys : list string) : option string :=
  foldr (fun k r => match attrs !! k with Some v => Some v | None => r end) None keys.

Definition extractModelInvocation (attrs : gmap string string) (durationMs : Z) : ModelInvocationDetail :=
  let int32 k := parse_int32 (attr attrs k) in
  let count keys := default 0 (first_of attrs keys ≫= Atoi) in
  let prompt := default 0 (int32 "gen_ai.usage.prompt_tokens") in
  let completion := default 0 (int32 "gen_ai.usage.completion_tokens") in
  MkModelInvocation (attr attrs "gen_ai.request.model") (attr attrs "gen_ai.system") None None
    prompt completion (default (wrap32 (prompt + completion)) (int32 "gen_ai.usage.total_tokens")) durationMs
    (default fzero (ParseFloat (attr attrs "gen_ai.request.temperature")))
    (default "" (first_of attrs ["session_id"; "session.id"])) (count ["turn_sequence"; "turn.sequence"])
    (default "" (first_of attrs ["prompt_name"; "prompt.name"])) (count ["prompt_version"; "prompt.version"])
    (default fzero (first_of attrs ["cost_usd"; "cost.usd"; "gen_ai.usage.cost"] ≫= ParseFloat)).

Definition extractToolCall (attrs : gmap string string) (durationMs : Z) : ToolCallDetail :=
  MkToolCall (attr attrs "tool.name") (attr attrs "tool.version") None None durationMs.

(** * enricher.go *)

Definition text_payload (content kind : string) : option PayloadRef :=
  Some (MkPayloadRef (JStr content) (Z.of_nat (String.length content)) kind).
Definition set_Prompt (p : option PayloadRef) (d : ModelInvocationDetail) : ModelInvocationDetail :=
  MkModelInvocation (mi_ModelName d) (mi_ModelProvider d) p (mi_Completion d) (mi_PromptTokens d) (mi_CompletionTokens d)
    (mi_TotalTokens d) (mi_LatencyMs d) (mi_Temperature d) (mi_SessionID d) (mi_TurnSequence d) (mi_PromptName d)
    (mi_PromptVersion d) (mi_CostUSD d).
Definition set_Completion (p : option PayloadRef) (d : ModelInvocationDetail) : ModelInvocationDetail :=
  MkModelInvocation (mi_ModelName d) (mi_ModelProvider d) (mi_Prompt d) p (mi_PromptTokens d) (mi_CompletionTokens d)
    (mi_TotalTokens d) (mi_LatencyMs d) (mi_Temperature d) (mi_SessionID d) (mi_TurnSequence d) (mi_PromptName d)
    (mi_PromptVersion d) (mi_CostUSD d).

Definition genai_event (d : ModelInvocationDetail) (e : SpanEvent) : ModelInvocationDetail :=
  let attrs := flattenAttributes (se_Attributes e) in
  if bool_decide (se_Name e = "gen_ai.content.prompt") then
    match attrs !! "gen_ai.prompt" with Some c => set_Prompt (text_payload c "text/plain") d | None => d end
  else if bool_decide (se_Name e = "gen_ai.content.completion") then
    match attrs !! "gen_ai.completion" with Some c => set_Completion (text_payload c "text/plain") d | None => d end
  else d.
Definition enrichGenAIEvents (events : list SpanEvent) (s : Span) : Span :=
  set_ModelInvocation ((fun d => foldl genai_event d events) <$> sp_ModelInvocation s) s.

(** The span becomes the tool call [d]. *)
Definition as_tool (d : ToolCallDetail) (s : Span) : Span :=
  MkSpan (sp_ID s) (sp_ExecutionID s) (sp_ParentSpanID s) (sp_CausedBySpanIDs s) SpanKindToolCall (sp_Name s)
    (sp_Status s) (sp_StartedAt s) (sp_EndedAt s) (sp_Metadata s) (Some d) (sp_ModelInvocation s) (sp_StateMutation s)
    (sp_HumanApproval s) (sp_PolicyEvaluation s) (sp_Error s).
Definition is_custom (s : Span) : bool := bool_decide (sp_SpanType s = SpanKindCustom).

Definition enrich_db (attrs : gmap string string) (s : Span) : Span :=
  match attrs !! "db.system" with
  | Some dbSystem =>
      if is_custom s then
        as_tool (MkToolCall ("db:" +:+ dbSystem) (attr attrs "db.name")
                   (attrs !! "db.statement" ≫= fun stmt => text_payload stmt "text/sql") None (DurationMs s)) s
      else s
  | None => s
  end.
(** The inline value is a [map\[string\]string], which RedactInline passes through. *)
Definition enrich_http (attrs : gmap string string) (s : Span) : Span :=
  match attrs !! "http.request.method" with
  | Some method =>
      if is_custom s then
        let toolName := match attrs !! "url.full" with Some url => method +:+ " " +:+ url | None => "http:" +:+ method end in
        as_tool (MkToolCall toolName "" None
                   (attrs !! "http.response.status_code" ≫= fun code =>
                      Some (MkPayloadRef (JObj [("status_code", JStr code)]) (Z.of_nat (String.length code)) ""))
                   (DurationMs s)) s
      else s
  | None => s
  end.
(** Only the first exception counts, and only without an error from the status. *)
Definition enrichExceptionEvents (events : list SpanEvent) (s : Span) : Span :=
  match sp_Error s, filter (fun e => se_Name e = "exception") events with
  | None, e :: _ =>
      let attrs := flattenAttributes (se_Attributes e) in
      MkSpan (sp_ID s) (sp_ExecutionID s) (sp_ParentSpanID s) (sp_CausedBySpanIDs s) (sp_SpanType s) (sp_Name s)
        StatusFailed (sp_StartedAt s) (sp_EndedAt s) (sp_Metadata s) (sp_ToolCall s) (sp_ModelInvocation s) (sp_StateMutation s)
        (sp_HumanApproval s) (sp_PolicyEvaluation s)
        (Some (MkSpanError (attr attrs "exception.type") (attr attrs "exception.message") (attr attrs "exception.stacktrace")))
  | _, _ => s
  end.
Definition Enrich (o : OtelSpan) (s : Span) : Span :=
  let attrs := default ∅ (sp_Metadata s) in
  enrichExceptionEvents (ot_Events o) (enrich_http attrs (enrich_db attrs (enrichGenAIEvents (ot_Events o) s))).

(** * translator.go *)

Definition parent_span (o : OtelSpan) : option string :=
  if is_empty (ot_ParentSpanId o) then None
  else let pid := hex_text (ot_ParentSpanId o) in if bool_decide (pid = "0000000000000000") then None else Some pid.
Definition ended_of (o : OtelSpan) : option Time :=
  if 0 <? ot_EndTimeUnixNano o then Some (nanoToTime (ot_EndTimeUnixNano o)) else None.

(** The span before its details. *)
Definition bare_span (executionID : string) (o : OtelSpan) : Span :=
  let attrs := flattenAttributes (ot_Attributes o) in
  MkSpan (hex_text (ot_SpanId o)) executionID (parent_span o) [] (inferSpanType attrs) (ot_Name o)
    (mapStatus (ot_Status o) (ended_of o)) (nanoToTime (ot_StartTimeUnixNano o)) (ended_of o)
    (Some (attrs ∪ {["otel.span_id" := hex_text (ot_SpanId o)]})) None None None None None
    (match ot_Status o with
     | Some st => if failed_status (ot_Status o) then Some (MkSpanError "OTEL_ERROR" (os_Message st) "") else None
     | None => None
     end).
Definition detailed_span (executionID : string) (o : OtelSpan) : Span :=
  let attrs := flattenAttributes (ot_Attributes o) in
  let s := bare_span executionID o in
  if bool_decide (sp_SpanType s = SpanKindModelInvocation) then set_ModelInvocation (Some (extractModelInvocation attrs (DurationMs s))) s
  else if bool_decide (sp_SpanType s = SpanKindToolCall) then as_tool (extractToolCall attrs (DurationMs s)) s
  else s.
Definition translateSpan (executionID : string) (o : OtelSpan) : Span := Enrich o (detailed_span executionID o).

Definition deriveExecutionID (tenantID traceID : string) : string := id_text "otel_" 10 (tenantID +:+ ":" +:+ traceID).

Record TranslatedTrace := MkTrace { tt_Execution : Execution; tt_Spans : list Span }.
Definition spanEntry : Type := option (list KeyValue) * OtelSpan.

(** Both loops over the entries keep the first time they see, then the smaller or larger one. *)
Definition earliest (l : list Time) : Time := foldl (fun a t => if IsZero a || Before t a then t else a) zeroTime l.
Definition latest (l : list Time) : Time := foldl (fun a t => if IsZero a || After t a then t else a) zeroTime l.

Definition translateTrace (tenantID traceID : string) (entries : list spanEntry) : TranslatedTrace :=
  let resource := flattenAttributes (default [] (head entries ≫= fst)) in
  let executionID := deriveExecutionID tenantID traceID in
  let agentID := if is_empty (attr resource "service.name") then "unknown-service" else attr resource "service.name" in
  let agentName := match resource !! "service.instance.id" with Some i => agentID +:+ "/" +:+ i | None => agentID end in
  let spans := map snd entries in
  let meta := kmap (fun k => "resource." +:+ k) resource ∪ <["otel.trace_id" := traceID]> {["otel.source" := "otlp"]} in
  let allEnded := forallb (fun o => negb (ot_EndTimeUnixNano o =? 0)) spans in
  let ends := map (fun o => nanoToTime (ot_EndTimeUnixNano o)) (filter (fun o => ot_EndTimeUnixNano o <> 0) spans) in
  let status := if allEnded then (if existsb (fun o => failed_status (ot_Status o)) spans then StatusFailed else StatusCompleted)
                else StatusRunning in
  MkTrace (MkExecution executionID agentID agentName status "" "otlp"
             (earliest (map (fun o => nanoToTime (ot_StartTimeUnixNano o)) spans))
             (if allEnded then Some (latest ends) else None) (Some meta) zeroTime)
    (map (translateSpan executionID) spans).

(** [byTrace] and [traceOrder] after one more span. *)
Definition group_entry (g : gmap string (list spanEntry) * list string) (e : spanEntry) : gmap string (list spanEntry) * list string :=
  let '(byTrace, order) := g in
  let id := hex_text (ot_TraceId e.2) in
  (<[id := default [] (byTrace !! id) ++ [e]]> byTrace, if is_none (byTrace !! id) then order ++ [id] else order).
Definition span_entries (l : list ResourceSpans) : list spanEntry :=
  concat (map (fun rs => map (fun o => (rp_Resource rs, o)) (concat (rp_ScopeSpans rs))) l).
Definition TranslateResourceSpans (tenantID : string) (l : list ResourceSpans) : list TranslatedTrace :=
  let '(byTrace, order) := foldl group_entry (∅, []) (span_entries l) in
  map (fun id => translateTrace tenantID id (default [] (byTrace !! id))) order.
End Otel.

(** * The receivers *)

(** What the calls for one trace draw: clocks, the server's time and failures. *)
Record TraceDraw := MkTraceDraw {
  td_now : Time; td_dbnow : Time; td_start : Env; td_spans : nat -> Env; td_end_now : Time; td_end : nat -> Env
}.

(** gRPC metadata, absent or a list of values per key; an answer or a status error. *)
Abbreviation Metadata := (option (string -> list string)).
Inductive GrpcCode := Unauthenticated | PermissionDenied.
Inductive Rpc := RpcOk | RpcErr (code : GrpcCode) (msg : string).
Definition UnaryHandler (S : Type) : Type := Ctx -> S -> Rpc * S.

Section Receivers.
Context `{Hj : Jsonb} {Other : Type} (sprintf : Other -> string) (upper : string -> string)
  (collate : list string -> list string) (lower : string -> string)
  (active : gmap string pricing) (entries : list (string * pricing)) (redactOn : bool).
(** proto.Unmarshal of a request: its resource spans, or the error's text. *)
Variable Unmarshal : string -> list (@ResourceSpans Other) + string.
Variable draws : nat -> TraceDraw.

Definition trace_request (e : Execution) : StartExecutionRequest :=
  MkStartRequest (ex_AgentID e) (ex_AgentName e) (ex_Trigger e) (ex_Metadata e) (ex_ID e) None.
Definition ended_status (s : Status) : bool := bool_decide (s = StatusCompleted) || bool_decide (s = StatusFailed).

(** One iteration of the loop over the traces; [counts] are [totalExecs] and [totalSpans]. *)
Definition ingest_trace (tenant_exists : string -> bool) (dr : TraceDraw) (tenantID : string) (t : TranslatedTrace)
    (counts : Z * Z) (d : TelemetryStore.TDB) : (Z * Z) * TelemetryStore.TDB :=
  let x := tt_Execution t in
  match StartExecution tenant_exists redactOn (td_start dr) (td_now dr) (td_dbnow dr) tenantID (trace_request x) d with
  | (Err _, d) => (counts, d)
  | (Ok _, d) =>
      let '((accepted, _), d) :=
        if bool_decide (tt_Spans t = []) then ((0, []), d)
        else IngestSpans collate lower active entries redactOn (td_spans dr) tenantID (ex_ID x) (map Some (tt_Spans t)) d in
      let d := if ended_status (ex_Status x)
               then (EndExecution (td_end dr) (td_end_now dr) tenantID (ex_ID x) (ex_Status x) d).2 else d in
      ((counts.1 + 1, counts.2 + accepted), d)
  end.
Fixpoint ingest_traces (tenant_exists : string -> bool) (n : nat) (tenantID : string) (l : list TranslatedTrace)
    (counts : Z * Z) (d : TelemetryStore.TDB) : (Z * Z) * TelemetryStore.TDB :=
  match l with
  | [] => (counts, d)
  | t :: l => let '(counts, d) := ingest_trace tenant_exists (draws n) tenantID t counts d in
               ingest_traces tenant_exists (S n) tenantID l counts d
  end.
(** The traces of a request; no trace leaves everything alone. *)
Definition ingest_request (tenantID : string) (req : list ResourceSpans) (b : Backend) : (Z * Z) * Backend :=
  with_telemetry (ingest_traces (tenant_known (bk_site b)) 0 tenantID (TranslateResourceSpans sprintf upper tenantID req) (0, 0)) b.

(** ** otlp_handler.go *)

Definition writeOTLPSuccess : Response := MkResponse 200 [("Content-Type", "application/x-protobuf")] (Some (JStr "")).
Definition writeOTLPError (code : Z) (msg : string) : Response :=
  MkResponse code [json_type] (Some (JStr (apos "{'error':'" +:+ msg +:+ apos "'}"))).
(** [io.LimitReader]: the rest is dropped. *)
Definition limit_reader (n : Z) (s : string) : string :=
  if Z.of_nat (String.length s) <=? n then s else (str_split (Z.to_nat n) s).1.

Definition ExportTraces (body : Body) : Handler Backend := fun _ c b =>
  let tenantID := TenantFromContext c in
  if is_empty tenantID then (writeOTLPError 401 "unauthorized: missing or invalid API key", b)
  else if bd_broken body then (writeOTLPError 400 "failed to read request body", b)
  else match Unmarshal (limit_reader (Z.shiftl 4 20) (bd_text body)) with
       | inr e => (writeOTLPError 400 ("failed to parse OTLP protobuf: " +:+ e), b)
       | inl req => (writeOTLPSuccess, (ingest_request tenantID req b).2)
       end.

(** [ta] and [rl] are nil or not. *)
Definition MountOTLP {S} `{KeyStore S} (bcrypt_compare : string -> string -> bool) (ta : bool) (rl : option (Middleware S))
    (otlpHandler : Handler S) : Handler S :=
  let route := match rl with Some eventsMW => eventsMW otlpHandler | None => otlpHandler end in
  if ta then APIKey_mw bcrypt_compare (RequireWrite route) else route.

(** ** grpc_server.go *)

Definition Export (req : list ResourceSpans) : UnaryHandler Backend := fun c b =>
  let tenantID := TenantFromContext c in
  if is_empty tenantID then (RpcErr Unauthenticated "unauthorized", b) else (RpcOk, (ingest_request tenantID req b).2).
End Receivers.

Definition authInterceptor {S} `{KeyStore S} (bcrypt_compare : string -> string -> bool) (md : Metadata)
    (handler : UnaryHandler S) : UnaryHandler S := fun c s =>
  match md with
  | None => (RpcErr Unauthenticated "missing metadata", s)
  | Some get =>
      match get "authorization" with
      | [] => (RpcErr Unauthenticated "missing authorization header", s)
      | v :: _ =>
          let raw := TrimSpace (TrimPrefix v "Bearer ") in
          if negb (LooksLikeKey raw) then (RpcErr Unauthenticated "malformed api key", s)
          else match SplitN (TrimPrefix raw KeyPrefixLive) dot 2 with
          | [id; _] =>
              match ks_GetKeyByID id s with
              | (Err _, s) => (RpcErr Unauthenticated "invalid api key", s)
              | (Ok k, s) =>
                  if negb (VerifyAPIKey bcrypt_compare raw (k_Hash k)).2 then (RpcErr Unauthenticated "invalid api key", s)
                  else if bool_decide (k_RevokedAt k <> None) then (RpcErr Unauthenticated "api key revoked", s)
                  else if negb (Scope_CanWrite (k_Scope k)) then (RpcErr PermissionDenied "write scope required", s)
                  else handler (WithTenant c (k_TenantID k) (k_Scope k) (k_ID k)) s
              end
          | _ => (RpcErr Unauthenticated "invalid api key format", s)
          end
      end
  end.

(** * gRPC and HTTP authenticate alike *)

Lemma RequireWrite_with {S} (next : Handler S) r c s t scope key :
  RequireWrite next r (WithTenant c t scope key) s
  = if Scope_CanWrite scope then next r (WithTenant c t scope key) s else (writeForbidden "write scope required", s).
Proof. unfold RequireWrite, ScopeFromContext. cbn [ WithTenant cx_Scope]. change (default "" (Some scope)) with scope. by destruct (Scope_CanWrite scope). Qed.

(** The same answer: the handlers run in the same context and state, or both
    refuse, in the same state and with matching codes. *)
Definition answers_alike {S} (http : Handler S -> Response * S) (rpc : UnaryHandler S -> Rpc * S) (r : Request) : Prop :=
  (exists c s, (forall next, http next = next r c s) /\ forall handler, rpc handler = handler c s)
  \/ exists resp code msg s, (forall next, http next = (resp, s)) /\ (forall handler, rpc handler = (RpcErr code msg, s))
       /\ rs_Status resp = match code with Unauthenticated => 401 | PermissionDenied => 403 end.

(** The gRPC interceptor decides like APIKey and RequireWrite on the same
    authorization header, as its comment says, if the header has the Bearer
    scheme: the handler runs in the same context and state, or both refuse, with
    401 against Unauthenticated and 403 against PermissionDenied.  Without the
    scheme they differ: HTTP refuses, gRPC reads the text as if the scheme were there. *)
Theorem grpc_auth_mirrors_http {S} `{KeyStore S} bcrypt_compare r c (s : S) get v vs :
  get "authorization" = v :: vs -> rq_Header r "Authorization" = v ->
  let http next := MountOTLP bcrypt_compare true None next r c s in
  let rpc handler := authInterceptor bcrypt_compare (Some get) handler c s in
  (has_prefix "Bearer " v = true -> answers_alike http rpc r)
  /\ (has_prefix "Bearer " v = false ->
        (forall next, exists msg, http next = (writeUnauthorized msg, s))
        /\ forall handler get', get' "authorization" = ["Bearer " +:+ v] ->
             rpc handler = authInterceptor bcrypt_compare (Some get') handler c s).
Proof.
  intros Hget Hhdr http rpc. split; intros Hp.
  - assert (Hb : bearerToken r = TrimSpace (TrimPrefix v "Bearer ")).
    { unfold bearerToken. rw Hhdr Hp. destruct v; [done|]. by rw bool_decide_eq_false_2. }
    unfold answers_alike, http, rpc, MountOTLP, authInterceptor, APIKey_mw. rw Hget Hb. set (raw := TrimSpace _).
    destruct (LooksLikeKey raw); cbn [negb]; [|by right; do 4 eexists].
    destruct (SplitN2_cases (TrimPrefix raw KeyPrefixLive)) as [-> |(id & secret & ->)]; [by right; do 4 eexists|].
    destruct (ks_GetKeyByID id s) as [[k|e] s']; [|by right; do 4 eexists].
    destruct (VerifyAPIKey _ _ _).2; cbn [negb]; [|by right; do 4 eexists].
    case_bool_decide; [by right; do 4 eexists|].
    destruct (Scope_CanWrite (k_Scope k)) eqn:Hw; cbn [negb].
    + left. do 2 eexists. split; [|done]. intros next. by rw RequireWrite_with Hw.
    + right. do 4 eexists. split_and!; [intros next; by rw RequireWrite_with Hw|by intros|done].
  - split.
    + intros next. exists "missing or malformed api key". unfold http, MountOTLP, APIKey_mw, bearerToken. rw Hhdr Hp.
      by destruct (bool_decide (v = "")).
    + intros handler get' Hget'. unfold rpc, authInterceptor. rw Hget Hget'.
      assert (TrimPrefix ("Bearer " +:+ v) "Bearer " = TrimPrefix v "Bearer ") as ->; [|done].
      rw TrimPrefix_app. unfold TrimPrefix. by rw Hp.
Qed.

(** * Execution ids *)

(** A transaction that adds and removes no execution. *)
Definition keeps_ids {A} (m : Tx A) : Prop := forall d, map xr_ID (t_executions (m d).2) = map xr_ID (t_executions d).

Lemma keeps_ids_ret {A} (a : A) : keeps_ids (mret a).
Proof. done. Qed.
Lemma keeps_ids_throw {A} e : keeps_ids (throw e : Tx A).
Proof. done. Qed.
Lemma keeps_ids_get : keeps_ids get_db.
Proof. done. Qed.
Lemma keeps_ids_modify f : (forall d, map xr_ID (t_executions (f d)) = map xr_ID (t_executions d)) -> keeps_ids (modify f).
Proof. intros H d. apply H. Qed.
Lemma keeps_ids_bind {A B} (m : Tx A) (f : A -> Tx B) : keeps_ids m -> (forall a, keeps_ids (f a)) -> keeps_ids (m ≫= f).
Proof.
  intros Hm Hf d. unfold mbind, tx_bind. specialize (Hm d). destruct (m d) as [[a|e] d1]; [|done]. cbn [snd] in Hm. by rw -Hm (Hf a d1).
Qed.
Lemma keeps_ids_call {A} env c (m : Tx A) : keeps_ids m -> keeps_ids (call env c m).
Proof. intros Hm d. unfold call. by destruct (fails env c). Qed.
Lemma keeps_ids_in_tx {A} env (m : Tx A) : keeps_ids m -> keeps_ids (in_tx env m).
Proof.
  intros Hm d. unfold in_tx. specialize (Hm d). destruct (fails _ _); [done|]. destruct (m d) as [[a|e] d1]; [|done].
  destruct (fails _ _); [|done]. by destruct (commit_lost env).
Qed.
Lemma keeps_ids_if {A} (b : bool) (m n : Tx A) : keeps_ids m -> keeps_ids n -> keeps_ids (if b then m else n).
Proof. by destruct b. Qed.

Create HintDb keeps_ids.
#[export] Hint Resolve keeps_ids_ret keeps_ids_throw keeps_ids_get keeps_ids_call keeps_ids_in_tx keeps_ids_if : keeps_ids.
Ltac keeps_ids :=
  repeat first [ by auto with keeps_ids | apply keeps_ids_bind; [|intros ?] | apply keeps_ids_call | apply keeps_ids_in_tx
               | apply keeps_ids_modify; intros ?; done | case_match ].

Section Ids.
Context `{Hj : Jsonb} (collate : list string -> list string) (lower : string -> string)
  (active : gmap string pricing) (entries : list (string * pricing)) (redactOn : bool).

Lemma insertEventTx_ids env n e : keeps_ids (insertEventTx env n e).
Proof. unfold insertEventTx, insert_event_row. keeps_ids. Qed.
Lemma insertLifecycle_ids env n s kind ts : keeps_ids (insertLifecycle env n s kind ts).
Proof. unfold insertLifecycle. case_match; [apply insertEventTx_ids|done]. Qed.
Lemma insert_causes_ids env n id ids : keeps_ids (insert_causes env n id ids).
Proof. revert n. induction ids as [|x ids IH]; intros n; cbn [insert_causes]; keeps_ids. intros d. cbn. by case_match. Qed.
Lemma check_refs_ids env d s n refs : keeps_ids (check_refs env d s n refs).
Proof. revert n. induction refs as [|x refs IH]; intros n; cbn [check_refs]; keeps_ids. Qed.
Lemma write_span_ids env b s : keeps_ids (write_span env b s).
Proof.
  pose proof insertLifecycle_ids. pose proof insert_causes_ids.
  unfold write_span, insert_span_row, update_span_row. keeps_ids.
Qed.
Lemma InsertSpan_ids env s : keeps_ids (InsertSpan collate env s).
Proof.
  pose proof write_span_ids. pose proof check_refs_ids. unfold InsertSpan, insert_span_tx, check_existing. keeps_ids.
Qed.
Lemma InsertEvent_ids env e : keeps_ids (InsertEvent env e).
Proof. apply keeps_ids_in_tx, insertEventTx_ids. Qed.
Lemma GetExecution_ids env t x : keeps_ids (GetExecution env t x).
Proof. intros d. by rw GetExecution_db. Qed.
Lemma UpdateExecutionStatus_ids env t x st en : keeps_ids (UpdateExecutionStatus env t x st en).
Proof.
  pose proof GetExecution_ids. unfold UpdateExecutionStatus. apply keeps_ids_bind; [|intros u; keeps_ids].
  apply keeps_ids_call. intros d. unfold mbind, tx_bind, get_db. destruct (negb _); [done|]. cbn. rw map_map.
  apply map_ext. intros r. by destruct (status_target t x r).
Qed.

Lemma ingest_loop_ids {A} (step : nat -> A -> TelemetryStore.TDB -> option IngestError * TelemetryStore.TDB) n l d :
  (forall n x d, map xr_ID (t_executions (step n x d).2) = map xr_ID (t_executions d)) ->
  map xr_ID (t_executions (ingest_loop step n l d).2) = map xr_ID (t_executions d).
Proof.
  intros Hs. revert n d. induction l as [|x l IH]; intros n d; cbn [ingest_loop]; [done|].
  specialize (Hs n x d). destruct (step n x d) as [r d1]. specialize (IH (S n) d1).
  destruct (ingest_loop step (S n) l d1) as [[a e] d2]. cbn [snd] in *. congruence.
Qed.
Lemma IngestSpans_ids envs t x spans d :
  map xr_ID (t_executions (IngestSpans collate lower active entries redactOn envs t x spans d).2) = map xr_ID (t_executions d).
Proof.
  unfold IngestSpans. pose proof (GetExecution_ids (envs 0%nat) t x d) as Hg.
  destruct (GetExecution _ t x d) as [[e|e] d1]; cbn [snd] in Hg; [|done]. rw -Hg. apply ingest_loop_ids. clear.
  intros n [s|] d; unfold ingest_span; [|done]. destruct (ValidateSpan _); [|done].
  pose proof (InsertSpan_ids (envs n) (prepare_span lower active entries redactOn x s) d) as H. by destruct (InsertSpan _ _ _ d) as [[u|e] d'].
Qed.
Lemma IngestEvents_ids envs t x events d :
  map xr_ID (t_executions (IngestEvents redactOn envs t x events d).2) = map xr_ID (t_executions d).
Proof.
  unfold IngestEvents. pose proof (GetExecution_ids (envs 0%nat) t x d) as Hg.
  destruct (GetExecution _ t x d) as [[e|e] d1]; cbn [snd] in Hg; [|done]. rw -Hg. apply ingest_loop_ids. clear.
  intros n [s|] d; unfold ingest_event; [|done]. destruct (ValidateEvent _); [|done].
  pose proof (InsertEvent_ids (envs n) (prepare_event redactOn x s) d) as H. by destruct (InsertEvent _ _ d) as [[u|e] d'].
Qed.
Lemma EndExecutionAt_ids envs now t x st en : keeps_ids (EndExecutionAt envs now t x st en).
Proof.
  pose proof GetExecution_ids. pose proof UpdateExecutionStatus_ids. unfold EndExecutionAt. keeps_ids.
Qed.
End Ids.

(** * What is stored *)

Section Stored.
Context `{Hj : Jsonb} {Other : Type} (sprintf : Other -> string) (upper : string -> string)
  (collate : list string -> list string) (lower : string -> string)
  (active : gmap string pricing) (entries : list (string * pricing)) (redactOn : bool).
Context (Unmarshal : string -> list (@ResourceSpans Other) + string) (draws : nat -> TraceDraw).

(** A step of the ingestion service, whatever tenants there are by then. *)
Definition service_moves (d d' : TelemetryStore.TDB) : Prop :=
  exists tenant_exists, service_step tenant_exists collate lower active entries redactOn d d'.

Definition native_ids (l : list string) : Prop := Forall (fun i => has_prefix "exec_" i = true) l.
Lemma execution_id_native now t req : has_prefix "exec_" (execution_id now t req) = true.
Proof. apply has_prefix_spec. unfold execution_id, stableID. by eexists. Qed.
Lemma derived_not_native t tr : has_prefix "exec_" (deriveExecutionID t tr) = false.
Proof. done. Qed.

(** The execution [row] is new and runs. *)
Definition adds_row (i : string) (d d' : TelemetryStore.TDB) : Prop :=
  exists row, d' = set_executions (t_executions d ++ [row]) d /\ xr_ID row = i /\ xr_Status row = StatusRunning.

Lemma InsertExecution_cases te env dbnow t e d :
  ex_Status e = StatusRunning ->
  (InsertExecution te env dbnow t e d).2 = d \/ adds_row (ex_ID e) d (InsertExecution te env dbnow t e d).2.
Proof.
  intros Hs. unfold InsertExecution, call, insert_execution_row, mbind, tx_bind, get_db, modify, mret, tx_ret, throw.
  destruct (fails _ _); [by left|]. destruct (execution_row t dbnow e) as [row|] eqn:Er; [|by left].
  destruct (existsb _ _).
  - left. pose proof (GetExecution_db env t (ex_ID e) d) as Hg. destruct (GetExecution _ _ _ d) as [[x|x] d2]; cbn [snd] in Hg; subst d2; [|done].
    by destruct (_ || _).
  - destruct (negb _); [by left|]. right. exists row. split; [done|]. unfold execution_row in Er.
    destruct (_ && _); [|done]. apply bind_Some in Er as (md & _ & [= <-]). done.
Qed.

Lemma StartExecution_cases te env now dbnow t req d :
  (StartExecution te redactOn env now dbnow t req d).2 = d
  \/ adds_row (execution_id now t req) d (StartExecution te redactOn env now dbnow t req d).2.
Proof.
  unfold StartExecution. destruct (new_execution_fields redactOn now t req) as (Hi & _ & _ & _ & _ & _ & Hs & _).
  set (e := new_execution _ _ _ _) in *. unfold mbind, tx_bind.
  destruct (ValidateExecution e); cbn [lift_res]; [|by left]. unfold mret at 1 3, tx_ret. rw -Hi.
  pose proof (InsertExecution_cases te env dbnow t e d Hs) as Hc.
  destruct (InsertExecution te env dbnow t e d) as [[x|err] d1]; [|done]. by destruct (_ && _).
Qed.

Lemma service_moves_native d d' : service_moves d d' -> native_ids (map xr_ID (t_executions d)) -> native_ids (map xr_ID (t_executions d')).
Proof.
  intros [te H] Hn. destruct H as [env now dbnow t req|envs t x spans|envs t x events|envs now t x st en].
  - destruct (StartExecution_cases te env now dbnow t req d) as [-> |(row & -> & Hi & _)]; [done|]. cbn.
    unfold native_ids. rw map_app Forall_app. split; [done|]. apply Forall_singleton. rw Hi. apply execution_id_native.
  - by rw IngestSpans_ids.
  - by rw IngestEvents_ids.
  - by rw EndExecutionAt_ids.
Qed.

(** Executions were started, and nothing else happened. *)
Definition only_starts (d d' : TelemetryStore.TDB) : Prop :=
  exists new, d' = set_executions (t_executions d ++ new) d
    /\ Forall (fun r => has_prefix "exec_" (xr_ID r) = true /\ xr_Status r = StatusRunning) new.
#[local] Instance only_starts_preorder : PreOrder only_starts.
Proof.
  split.
  - intros d. exists []. rw app_nil_r. by destruct d.
  - intros d1 d2 d3 (l & -> & H1) (k & -> & H2). exists (l ++ k). rw Forall_app. cbn. by rw app_assoc.
Qed.
Lemma only_starts_native d d' : only_starts d d' -> native_ids (map xr_ID (t_executions d)) -> native_ids (map xr_ID (t_executions d')).
Proof.
  intros (l & -> & Hl) Hn. cbn. unfold native_ids. rw map_app Forall_app. split; [done|]. apply Forall_fmap.
  eapply Forall_impl; [done|]. by intros r [? _].
Qed.

(** No execution has the id a trace is given. *)
Lemma not_native_missing d t tr t' : native_ids (map xr_ID (t_executions d)) -> find_execution d t' (deriveExecutionID t tr) = None.
Proof.
  intros Hn. unfold find_execution. destruct (filter _ _) as [|r l] eqn:Hf; [done|]. exfalso.
  assert (Hr : r ∈ filter (fun r => xr_ID r = deriveExecutionID t tr /\ xr_TenantID r = t') (t_executions d)) by (rw Hf; by left).
  apply list_elem_of_filter in Hr as [[Hi _] Hr]. unfold native_ids in Hn. rw Forall_map Forall_forall in Hn.
  specialize (Hn r Hr). cbn in Hn. by rw Hi derived_not_native in Hn.
Qed.

Lemma GetExecution_fails env t x d : find_execution d t x = None -> exists e, GetExecution env t x d = (Err e, d).
Proof.
  intros H. pose proof (GetExecution_missing env t x d H) as Hm. pose proof (GetExecution_db env t x d) as Hd.
  destruct (GetExecution env t x d) as [[y|e] d1]; [done|]. cbn in Hd. subst d1. by exists e.
Qed.
Lemma IngestSpans_missing envs t x spans d : find_execution d t x = None ->
  exists errs, IngestSpans collate lower active entries redactOn envs t x spans d = ((0, errs), d).
Proof. intros H. unfold IngestSpans. destruct (GetExecution_fails (envs 0%nat) t x d H) as [e ->]. by eexists. Qed.
Lemma EndExecution_missing envs now t x st d : find_execution d t x = None -> (EndExecution envs now t x st d).2 = d.
Proof.
  intros H. unfold EndExecution, EndExecutionAt. destruct (negb _); [done|]. cbn. unfold mbind, tx_bind.
  by destruct (GetExecution_fails (envs 0%nat) t x d H) as [e ->].
Qed.

Lemma ingest_trace_starts te dr t tr es counts d :
  native_ids (map xr_ID (t_executions d)) ->
  let '(counts', d') := ingest_trace collate lower active entries redactOn te dr t (translateTrace sprintf upper t tr es) counts d in
  counts'.2 = counts.2 /\ only_starts d d'.
Proof.
  intros Hn. unfold ingest_trace. set (x := tt_Execution _). change (ex_ID x) with (deriveExecutionID t tr).
  set (m := StartExecution _ _ _ _ _ _ _). assert (Hs : only_starts d (m d).2).
  { destruct (StartExecution_cases te (td_start dr) (td_now dr) (td_dbnow dr) t (trace_request x) d) as [H|(row & H & Hi & Hr)];
      fold m in H; rw H; [done|]. exists [row]. split; [done|]. apply Forall_singleton. split; [|done]. rw Hi. apply execution_id_native. }
  destruct (m d) as [[y|e] d1]; cbn [snd] in Hs; [|done].
  pose proof (fun t' => not_native_missing d1 t tr t' (only_starts_native _ _ Hs Hn)) as Hm.
  destruct (IngestSpans_missing (td_spans dr) t (deriveExecutionID t tr) (map Some (tt_Spans (translateTrace sprintf upper t tr es))) d1 (Hm t)) as [errs ->].
  pose proof (EndExecution_missing (td_end dr) (td_end_now dr) t (deriveExecutionID t tr) (ex_Status x) d1 (Hm t)) as He.
  destruct (bool_decide _), (ended_status _); rw ?He; split; (done || cbn; lia).
Qed.
Lemma ingest_traces_starts te t (byTrace : string -> list spanEntry) ids n counts d :
  native_ids (map xr_ID (t_executions d)) ->
  let '(counts', d') := ingest_traces collate lower active entries redactOn draws te n t
                          (map (fun id => translateTrace sprintf upper t id (byTrace id)) ids) counts d in
  counts'.2 = counts.2 /\ only_starts d d'.
Proof.
  revert n counts d. induction ids as [|id ids IH]; intros n counts d Hn; cbn [map ingest_traces]; [done|].
  pose proof (ingest_trace_starts te (draws n) t id (byTrace id) counts d Hn) as H1.
  destruct (ingest_trace _ _ _ _ _ _ _ _ _ _ d) as [c1 d1]. destruct H1 as [E1 S1].
  specialize (IH (S n) c1 d1 (only_starts_native _ _ S1 Hn)).
  destruct (ingest_traces _ _ _ _ _ _ _ _ _ _ _ d1) as [c2 d2]. destruct IH as [E2 S2].
  split; [congruence|by etrans].
Qed.

Lemma ingest_request_starts t req b :
  native_ids (map xr_ID (t_executions (bk_telemetry b))) ->
  let '(counts, b') := ingest_request sprintf upper collate lower active entries redactOn draws t req b in
  counts.2 = 0 /\ bk_site b' = bk_site b /\ only_starts (bk_telemetry b) (bk_telemetry b').
Proof.
  intros Hn. unfold ingest_request, with_telemetry, TranslateResourceSpans.
  destruct (foldl group_entry _ _) as [byTrace order].
  pose proof (ingest_traces_starts (tenant_known (bk_site b)) t (fun id => default [] (byTrace !! id)) order 0%nat (0, 0) _ Hn) as H.
  destruct (ingest_traces _ _ _ _ _ _ _ _ _ _ _ _) as [c d']. by destruct H.
Qed.

(** C19: what the receivers store.  After any history of the ingestion service, the
    receivers answer success to an authenticated request that parses and only
    start executions, which stay RUNNING: no span, event or causality edge is
    written and no execution is ended, whatever the request holds, because the
    spans and the end of a trace are addressed to the id [otel_...] the translator
    derives, and StartExecution stores the trace under an id [exec_...] of its own. *)
Theorem otlp_spans_lost b c r body req :
  rtc service_moves empty_tdb (bk_telemetry b) ->
  let d := bk_telemetry b in
  let '(answer, b1) := Export sprintf upper collate lower active entries redactOn draws req c b in
  let '(resp, b2) := ExportTraces sprintf upper collate lower active entries redactOn Unmarshal draws body r c b in
  only_starts d (bk_telemetry b1) /\ only_starts d (bk_telemetry b2)
  /\ (TenantFromContext c <> "" -> answer = RpcOk
       /\ (bd_broken body = false -> Unmarshal (limit_reader (Z.shiftl 4 20) (bd_text body)) = inl req ->
             resp = writeOTLPSuccess /\ b2 = b1)).
Proof.
  intros Hr d. assert (Hn : native_ids (map xr_ID (t_executions d))).
  { subst d. clear -Hr. remember empty_tdb as d0 eqn:E. assert (native_ids (map xr_ID (t_executions d0))) as H by (subst; by constructor).
    clear E. induction Hr as [|x y z Hxy _ IH]; [done|]. apply IH. by eapply service_moves_native. }
  unfold Export, ExportTraces. destruct (is_empty (TenantFromContext c)) eqn:He.
  - split_and!; [done..|]. intros Hne. by apply bool_decide_eq_true in He.
  - pose proof (fun q => ingest_request_starts (TenantFromContext c) q b Hn) as H.
    pose proof (H req) as H1. destruct (bd_broken body).
    { destruct (ingest_request _ _ _ _ _ _ _ _ _ req b) as [k b1]. destruct H1 as (_ & _ & H1). split_and!; [done..|]. intros _. by split. }
    destruct (Unmarshal _) as [req'|err] eqn:Eu.
    + specialize (H req'). split_and!.
      * destruct (ingest_request _ _ _ _ _ _ _ _ _ req b). apply H1.
      * destruct (ingest_request _ _ _ _ _ _ _ _ _ req' b). apply H.
      * intros _. split; [done|]. by intros _ [= ->].
    + destruct (ingest_request _ _ _ _ _ _ _ _ _ req b) as [k b1]. destruct H1 as (_ & _ & H1). split_and!; [done..|]. intros _. by split.
Qed.
End Stored.

(** * Grouping *)

(** The first occurrences, in order. *)
Fixpoint firsts (l : list string) : list string :=
  match l with [] => [] | x :: l => x :: filter (fun y => y <> x) (firsts l) end.

Lemma elem_of_firsts x l : x ∈ firsts l <-> x ∈ l.
Proof.
  induction l as [|y l IH]; [done|]. cbn [firsts]. rw !elem_of_cons list_elem_of_filter IH.
  destruct (decide (x = y)); naive_solver.
Qed.
Lemma firsts_snoc l x : firsts (l ++ [x]) = firsts l ++ (if bool_decide (x ∈ l) then [] else [x]).
Proof.
  induction l as [|y l IH]; [done|]. cbn [firsts app]. rw IH filter_app. f_equal. f_equal.
  destruct (decide (x = y)) as [-> |Hn].
  - rw (bool_decide_eq_true_2 (y ∈ y :: l)); [|by left]. case_bool_decide; [done|]. by rw filter_cons_False; [|naive_solver].
  - rw (bool_decide_ext (x ∈ y :: l) (x ∈ l)); [|rw elem_of_cons; naive_solver].
    case_bool_decide; [done|]. by rw filter_cons_True.
Qed.
Lemma firsts_NoDup l : NoDup (firsts l).
Proof.
  induction l as [|x l IH]; [by constructor|]. cbn [firsts]. constructor; [|by apply NoDup_filter].
  rw list_elem_of_filter. naive_solver.
Qed.

(** Sorting a list into its classes loses nothing. *)
Lemma classes_permutation {A} (f : A -> string) (l : list A) ids :
  NoDup ids -> (forall x, x ∈ l -> f x ∈ ids) -> concat (map (fun i => filter (fun x => f x = i) l) ids) ≡ₚ l.
Proof.
  intros Hnd. induction l as [|x l IH]; intros Hin.
  - clear. by induction ids.
  - assert (Hx : f x ∈ ids) by (apply Hin; by left). apply list_elem_of_split in Hx as (a & b & ->).
    rw -{2}IH; [|intros y Hy; apply Hin; by right]. rw !map_app !concat_app. cbn [map concat].
    apply NoDup_app in Hnd as (_ & Ha & Hb). apply NoDup_cons in Hb as [Hb _].
    assert (Hk : forall k, f x ∉ k -> map (fun i => filter (fun y => f y = i) (x :: l)) k = map (fun i => filter (fun y => f y = i) l) k).
    { intros k Hk. apply map_ext_in. intros i Hi%list_elem_of_In. rw filter_cons_False; [done|]. by intros <-. }
    rw Hk; [|intros H; apply (Ha _ H); by left]. rw Hk; [|done]. rw filter_cons_True; [|done]. by rw -Permutation_middle.
Qed.

Section Grouping.
Context {Other : Type} (sprintf : Other -> string) (upper : string -> string).
Definition entry_trace (e : @spanEntry Other) : string := hex_text (ot_TraceId e.2).
Definition of_trace (l : list (@spanEntry Other)) (id : string) : list spanEntry := filter (fun e => entry_trace e = id) l.

Lemma group_entries l :
  exists byTrace, foldl group_entry (∅, []) l = (byTrace, firsts (map entry_trace l))
    /\ forall id, byTrace !! id = if bool_decide (id ∈ map entry_trace l) then Some (of_trace l id) else None.
Proof.
  induction l as [|e l IH] using rev_ind; [by exists ∅|]. destruct IH as (m & Hf & Hm).
  rw foldl_app Hf. cbn [foldl group_entry]. fold (entry_trace e). rw map_app. cbn [map]. rw firsts_snoc.
  eexists. split.
  - f_equal. rw Hm. case_bool_decide; [by rw app_nil_r|done].
  - intros id. destruct (decide (id = entry_trace e)) as [-> |Hn].
    + rw lookup_insert_eq bool_decide_eq_true_2; [|set_solver]. rw Hm. unfold of_trace. rw filter_app. f_equal.
      rw (filter_cons_True _ e); [|done]. case_bool_decide as He; [done|]. cbn [default].
      destruct (filter _ l) as [|y k] eqn:Ef; [done|]. exfalso. apply He.
      assert (Hy : y ∈ filter (fun e' => entry_trace e' = entry_trace e) l) by (rw Ef; by left).
      apply list_elem_of_filter in Hy as [<- Hy]. by apply list_elem_of_fmap_2.
    + rw lookup_insert_ne; [|done]. rw Hm. rw (bool_decide_ext (id ∈ map entry_trace l ++ [entry_trace e]) (id ∈ map entry_trace l)); [|set_solver].
      case_bool_decide; [|done]. unfold of_trace. rw filter_app (filter_cons_False _ e); [|done]. by rw app_nil_r.
Qed.

(** The translation makes one trace of the spans with one trace id, in the order
    in which the ids occur, each with its spans in the order of the request, and
    no span is lost or repeated. *)
Theorem traces_partition t l :
  let es := span_entries l in
  let ids := firsts (map entry_trace es) in
  TranslateResourceSpans sprintf upper t l = map (fun id => translateTrace sprintf upper t id (of_trace es id)) ids
  /\ NoDup ids /\ concat (map (of_trace es) ids) ≡ₚ es.
Proof.
  intros es ids. split_and!.
  - unfold TranslateResourceSpans. fold es. destruct (group_entries es) as (m & -> & Hm). apply map_ext_in.
    intros id Hid%list_elem_of_In. unfold ids in Hid. rw elem_of_firsts in Hid. by rw Hm bool_decide_eq_true_2.
  - apply firsts_NoDup.
  - apply classes_permutation; [apply firsts_NoDup|]. intros x Hx. apply elem_of_firsts. by apply list_elem_of_fmap_2.
Qed.
End Grouping.

(** * Which spans the service would take *)

Section Valid.
Context {Other : Type} (sprintf : Other -> string) (upper : string -> string) (lower : string -> string)
  (active : gmap string pricing) (entries : list (string * pricing)) (redactOn : bool).

Definition has_exception (o : @OtelSpan Other) : bool := existsb (fun e => bool_decide (se_Name e = "exception")) (ot_Events o).
(** The status is an error, or an exception was recorded. *)
Definition span_failed (o : @OtelSpan Other) : bool := failed_status (ot_Status o) || has_exception o.

(** The members validation reads. *)
Definition same_outline (a b : Span) : Prop :=
  sp_ExecutionID a = sp_ExecutionID b /\ sp_Name a = sp_Name b /\ sp_StartedAt a = sp_StartedAt b
  /\ sp_EndedAt a = sp_EndedAt b /\ sp_ID a = sp_ID b.

Lemma inferSpanType_valid attrs : isValidSpanKind (inferSpanType upper attrs) = true.
Proof.
  unfold inferSpanType, isValidSpanKind. apply bool_decide_eq_true.
  destruct (_ ≫= _) as [k|] eqn:Ek.
  - apply bind_Some in Ek as (s & _ & Hk). unfold explicit_kind in Hk. case_bool_decide as Hin; [|done].
    injection Hk as <-. set_solver.
  - repeat case_match; set_solver.
Qed.

Lemma enrich_tools attrs s :
  let s' := enrich_http attrs (enrich_db attrs s) in
  same_outline s' s /\ sp_Status s' = sp_Status s /\ sp_Error s' = sp_Error s
  /\ (isValidSpanKind (sp_SpanType s) = true -> isValidSpanKind (sp_SpanType s') = true).
Proof. unfold same_outline, enrich_http, enrich_db. repeat case_match; done. Qed.

Lemma detailed_outline x o :
  let s := enrichGenAIEvents sprintf (ot_Events o) (detailed_span sprintf upper x o) in
  same_outline s (bare_span sprintf upper x o) /\ sp_Status s = mapStatus (ot_Status o) (ended_of o)
  /\ is_none (sp_Error s) = negb (failed_status (ot_Status o)) /\ isValidSpanKind (sp_SpanType s) = true.
Proof.
  pose proof (inferSpanType_valid (flattenAttributes sprintf (ot_Attributes o))) as Hk.
  assert (He : is_none (sp_Error (bare_span sprintf upper x o)) = negb (failed_status (ot_Status o))).
  { cbn. unfold failed_status. destruct (ot_Status o) as [st|]; [|done]. by destruct (_ =? _). }
  unfold same_outline, detailed_span, enrichGenAIEvents.
  destruct (bool_decide _); [done|]. destruct (bool_decide _); done.
Qed.

Lemma has_exception_spec o : has_exception o = negb (bool_decide (filter (fun e => se_Name e = "exception") (ot_Events o) = [])).
Proof.
  unfold has_exception. induction (ot_Events o) as [|e l IH]; [done|]. cbn [existsb]. rw filter_cons IH.
  destruct (decide (se_Name e = "exception")) as [H1|H1].
  - rw (bool_decide_eq_true_2 (se_Name e = "exception")); [|done]. by rw (bool_decide_eq_false_2 (e :: _ = [])).
  - by rw (bool_decide_eq_false_2 (se_Name e = "exception")).
Qed.

(** The outline, status and kind of a translated span. *)
Lemma translateSpan_outline x o :
  let s := translateSpan sprintf upper x o in
  same_outline s (bare_span sprintf upper x o) /\ isValidSpanKind (sp_SpanType s) = true
  /\ sp_Status s = (if span_failed o then StatusFailed else if is_none (ended_of o) then StatusRunning else StatusCompleted).
Proof.
  cbv zeta. unfold translateSpan, Enrich.
  destruct (detailed_outline x o) as (O1 & S1 & E1 & K1). set (s1 := enrichGenAIEvents _ _ _) in *.
  set (attrs := default _ _).
  destruct (enrich_tools attrs s1) as (O2 & S2 & E2 & K2). set (s2 := enrich_http _ _) in *. rw -E2 in E1. rw S1 in S2.
  assert (O : same_outline s2 (bare_span sprintf upper x o)) by (unfold same_outline in *; intuition congruence).
  unfold enrichExceptionEvents, span_failed. rw has_exception_spec. unfold mapStatus in S2.
  destruct (sp_Error s2) as [err|].
  - destruct (failed_status _); [|done]. split_and!; [done|auto|by rw S2].
  - destruct (failed_status _); [done|]. destruct (filter _ _) as [|e l]; split_and!; try done; auto.
Qed.

Lemma redactSpan_outline s : same_outline (redactSpan s) s /\ sp_Status (redactSpan s) = sp_Status s /\ sp_SpanType (redactSpan s) = sp_SpanType s.
Proof.
  unfold same_outline, redactSpan. destruct (Redaction.RedactStringMap _). repeat (destruct (redact_opt _ _)). done.
Qed.
Lemma enrichModelInvocationCost_outline s :
  let s' := enrichModelInvocationCost lower active entries s in
  same_outline s' s /\ sp_Status s' = sp_Status s /\ sp_SpanType s' = sp_SpanType s.
Proof. unfold same_outline, enrichModelInvocationCost. repeat case_match; done. Qed.

(** What the service hands to validation. *)
Lemma prepared_outline x s :
  sp_Status s <> "" ->
  let p := prepare_span lower active entries redactOn x s in
  sp_ExecutionID p = x /\ sp_Name p = sp_Name s /\ sp_StartedAt p = Truncate Microsecond (sp_StartedAt s)
  /\ sp_EndedAt p = Truncate Microsecond <$> sp_EndedAt s /\ sp_Status p = sp_Status s /\ sp_SpanType p = sp_SpanType s.
Proof.
  intros Hs. cbv zeta. unfold prepare_span.
  destruct (enrichModelInvocationCost_outline (default_span x s)) as ((A1 & A2 & A3 & A4 & _) & A5 & A6).
  set (e := enrichModelInvocationCost _ _ _ _) in *. destruct (redactSpan_outline e) as ((B1 & B2 & B3 & B4 & _) & B5 & B6).
  assert (Hd : sp_Status (default_span x s) = sp_Status s).
  { unfold default_span, is_empty. cbn. by rw bool_decide_eq_false_2. }
  destruct redactOn; rw ?B1 ?B2 ?B3 ?B4 ?B5 ?B6 A1 A2 A3 A4 A5 A6 Hd; done.
Qed.

Lemma nano_not_zero z : IsZero (Truncate Microsecond (nanoToTime z)) = false.
Proof.
  unfold IsZero, zeroTime, nanoToTime. pose proof (Truncate_micro_bounds (wrap64 z)).
  assert (int64_min <= wrap64 z) by (unfold wrap64; pose proof (Z.mod_pos_bound (z + 2 ^ 63) (2 ^ 64)); unfold int64_min; lia).
  unfold int64_min in *. apply Z.eqb_neq. unfold Second. lia.
Qed.
(** The service takes a translated span, for an execution that exists, if and only
    if it has a name, has ended in case it failed, and does not end before it starts.
    So a failed span that is still open (the status the translator gives it is
    FAILED, not RUNNING) is always refused. *)
Theorem otlp_span_valid x o :
  x <> "" ->
  ValidateSpan (Some (prepare_span lower active entries redactOn x (translateSpan sprintf upper x o))) = Ok tt
  <-> ot_Name o <> "" /\ (span_failed o = true -> 0 < ot_EndTimeUnixNano o)
      /\ (0 < ot_EndTimeUnixNano o ->
            Truncate Microsecond (nanoToTime (ot_StartTimeUnixNano o)) <= Truncate Microsecond (nanoToTime (ot_EndTimeUnixNano o))).
Proof.
  intros Hx. destruct (translateSpan_outline x o) as ((_ & O2 & O3 & O4 & _) & K & S1). cbn [sp_Name sp_StartedAt sp_EndedAt bare_span] in O2, O3, O4.
  set (s := translateSpan sprintf upper x o) in *.
  assert (Hs : sp_Status s <> "") by (rw S1; by destruct (span_failed o), (is_none (ended_of o))).
  destruct (prepared_outline x s Hs) as (P1 & P2 & P3 & P4 & P5 & P6). set (p := prepare_span _ _ _ _ _ _) in *.
  unfold ValidateSpan. rw P1 P2 P3 P4 P5 P6 K O2 O3 O4 S1 nano_not_zero. unfold ended_of, is_empty.
  rw (bool_decide_eq_false_2 (x = "")); [|done].
  destruct (Z.ltb_spec 0 (ot_EndTimeUnixNano o)) as [He|He]; cbn [fmap option_fmap option_map is_none].
  - assert (Hr : bool_decide ((if span_failed o then StatusFailed else StatusCompleted) = StatusRunning) = false) by by destruct (span_failed o).
    rw Hr. rw bool_decide_eq_true_2; [|destruct (span_failed o); set_solver]. cbn [negb Bool.eqb].
    unfold Before. destruct (Z.ltb_spec (Truncate Microsecond (nanoToTime (ot_EndTimeUnixNano o))) (Truncate Microsecond (nanoToTime (ot_StartTimeUnixNano o))));
      destruct (bool_decide_reflect (ot_Name o = "")); naive_solver lia.
  - destruct (span_failed o), (bool_decide_reflect (ot_Name o = "")); cbn; naive_solver lia.
Qed.
End Valid.

(** * A sample request *)

Definition no_print (_ : unit) : string := "".
Definition text_attr (k v : string) : @KeyValue unit := MkKeyValue k (Some (StringValue v)).
Definition llm_span : @OtelSpan unit :=
  MkOtelSpan "0123456789abcdef" "12345678" "" "chat" 1700000000000000000 1700000002500000000
    [text_attr "gen_ai.system" "openai"; text_attr "gen_ai.request.model" "gpt-4o";
     MkKeyValue "gen_ai.usage.prompt_tokens" (Some (IntValue 120)); MkKeyValue "gen_ai.usage.completion_tokens" (Some (IntValue 30));
     MkKeyValue "gen_ai.request.temperature" (Some (DoubleValue (flit "0.2")))]
    [MkSpanEvent "gen_ai.content.prompt" [text_attr "gen_ai.prompt" "hello"]] None.
Definition db_span : @OtelSpan unit :=
  MkOtelSpan "0123456789abcdef" "23456789" "12345678" "query" 1700000000500000000 0
    [text_attr "db.system" "postgresql"; text_attr "db.statement" "SELECT 1"]
    [MkSpanEvent "exception" [text_attr "exception.type" "Timeout"; text_attr "exception.message" "slow"]] None.
Definition sample_resource : list (@ResourceSpans unit) :=
  [MkResourceSpans (Some [text_attr "service.name" "planner"; text_attr "service.instance.id" "i-1"]) [[llm_span]; [db_span]]].
Definition sample_trace : list TranslatedTrace := TranslateResourceSpans no_print same_text "tnt_1" sample_resource.

(** The open span with an exception leaves the trace running; the first one is a
    model call of 2.5 s with 150 tokens. *)
Example sample_translation :
  map (fun t => (ex_AgentName (tt_Execution t), ex_Status (tt_Execution t), map sp_ParentSpanID (tt_Spans t),
                 map sp_SpanType (tt_Spans t), map sp_Status (tt_Spans t))) sample_trace
    = [("planner/i-1", StatusRunning, [None; Some "3132333435363738"], [SpanKindModelInvocation; SpanKindToolCall], [StatusCompleted; StatusFailed])]
  /\ (t ← head sample_trace; s ← head (tt_Spans t); d ← sp_ModelInvocation s;
      Some (mi_PromptTokens d, mi_TotalTokens d, mi_LatencyMs d, FormatFloat (mi_Temperature d), pl_Inline <$> mi_Prompt d))
     = Some (120, 150, 2500, "0.2", Some (JStr "hello"))
  /\ (t ← head sample_trace; s ← last (tt_Spans t); d ← sp_ToolCall s; Some (tc_ToolName d, er_Code <$> sp_Error s))
     = Some ("db:postgresql", Some "Timeout").
Proof. vm_compute. by split. Qed.

Definition sample_draw (_ : nat) : TraceDraw :=
  MkTraceDraw 1700000003000000000 1700000003000000000 healthy (fun _ => healthy) 1700000003000000000 (fun _ => healthy).
Definition otlp_backend : Backend := MkBackend sample_site empty_tdb.
Definition otlp_caller : Ctx := WithTenant background "tnt_1" "write" "akid_9".
Definition ended_request : list (@ResourceSpans unit) := [MkResourceSpans None [[llm_span]]].
Definition otlp_body : Body := MkBody "ended" false.
Definition sample_unmarshal (s : string) : list (@ResourceSpans unit) + string := inl ended_request.
Definition exported : Rpc * Backend :=
  Export (Hj := jsonb_plain) no_print same_text byte_order same_text initialPricing [] true sample_draw ended_request otlp_caller otlp_backend.
Definition posted : Response * Backend :=
  ExportTraces (Hj := jsonb_plain) no_print same_text byte_order same_text initialPricing [] true sample_unmarshal sample_draw otlp_body
    (with_header "Authorization" ("Bearer " +:+ sample_token)) otlp_caller otlp_backend.

(** A trace that has ended: the sender is answered success, the execution stays RUNNING and has no span. *)
Lemma otlp_spans_lost_witness :
  (map xr_Status (t_executions (bk_telemetry exported.2)) = [StatusRunning] /\ t_spans (bk_telemetry exported.2) = [])
  /\ only_starts empty_tdb (bk_telemetry exported.2) /\ only_starts empty_tdb (bk_telemetry posted.2)
  /\ exported.1 = RpcOk /\ posted.1 = writeOTLPSuccess /\ posted.2 = exported.2.
Proof.
  split; [vm_compute; by split|].
  pose proof (otlp_spans_lost (Hj := jsonb_plain) no_print same_text byte_order same_text initialPricing [] true sample_unmarshal sample_draw
    otlp_backend otlp_caller (with_header "Authorization" ("Bearer " +:+ sample_token)) otlp_body ended_request (rtc_refl _ _)) as H.
  unfold exported, posted.
  destruct (Export _ _ _ _ _ _ _ _ _ _ _) as [a b1], (ExportTraces _ _ _ _ _ _ _ _ _ _ _ _ _) as [p b2].
  destruct H as (H1 & H2 & H3). destruct (H3 ltac:(by vm_compute)) as [-> H4]. destruct (H4 eq_refl eq_refl) as [-> ->]. by split_and!.
Defined.

Definition bearer_metadata (name : string) : list string :=
  if bool_decide (name = "authorization") then ["Bearer " +:+ sample_token] else [].
Definition accept : UnaryHandler Tenants.TDB := fun _ s => (RpcOk, s).

(** The minted key of AuthProps.v: both interfaces let it in, as the same tenant. *)
Lemma grpc_auth_mirrors_http_witness :
  let r := with_header "Authorization" ("Bearer " +:+ sample_token) in
  (authInterceptor (H := pg_keystore healthy None 0) toy_compare (Some bearer_metadata) accept background minted_tdb).1 = RpcOk
  /\ answers_alike (fun next => MountOTLP (H := pg_keystore healthy None 0) toy_compare true None next r background minted_tdb)
       (fun handler => authInterceptor (H := pg_keystore healthy None 0) toy_compare (Some bearer_metadata) handler background minted_tdb) r.
Proof.
  intros r. split; [vm_compute; reflexivity|].
  apply (grpc_auth_mirrors_http (H := pg_keystore healthy None 0) toy_compare r background minted_tdb bearer_metadata
           ("Bearer " +:+ sample_token) []); reflexivity.
Defined.
